(* ===== verification/_CoqProject ===== *)
-Q . S2P
Prelude.v
Memory.v
KString.v
Spinlock.v
Kalloc.v
BlockCache.v
Layout.v
Bio.v
Ide.v
IdeProps.v
IdeExample.v
Log.v
LogSpace.v
TxDisk.v
FsLayout.v
Fs.v
FsBlocks.v
FsMap.v
FsData.v
FsTrunc.v
FsCache.v
FsDir.v
FsExample.v
Args.v
Ring.v
Pipe.v
File.v
FileProps.v
Sysfile.v
SysfileProps.v
FileExample.v
Proc.v
ProcInv.v
ProcSteps.v
Machine.v
Ipc.v
Trap.v
IpcProps.v
SignalProps.v
Vm.v
VmTables.v
VmSpec.v
VmFree.v
VmProps.v
Cpu.v
Exec.v
ExecFile.v
ExecMem.v
ExecLoad.v
ExecStack.v
ExecProps.v
ExecExample.v
Kbd.v
Keyboard.v
Ulib.v
Printf.v
Grep.v
Shell.v
ShellProps.v
ShellRound.v
ShellRun.v
Umalloc.v
UmallocProps.v
UmallocHeap.v
Console.v
ConsoleOut.v
ConsoleIn.v
ConsoleProps.v
Mailbox.v
MailboxProps.v
MsgSystem.v
Maekawa.v
MaekawaInv.v
MaekawaSteps.v
MaekawaProps.v
MaekawaEnd.v
MaekawaExample.v
