(* ===== verification/Prelude.v ===== *)
(** * A verification development for the xv6-based teaching kernel

    The program under src/xv6A1 is a small Unix-like kernel for 32-bit x86
    multiprocessors (xv6), extended with call counters, messages between
    processes, and signals. This library is a shallow embedding of its C code:
    each routine is a function on an explicit state, and the theorems are about
    these functions. File names below are those under src/xv6A1.

    ** How the code is modelled

    Kernel routines are computations [M S A] on a state [S] (this file). A call
    returns a value, calls [panic], goes to sleep on a channel, or performs an
    access C leaves undefined ([Fault]). A routine that sleeps stops in the
    state it leaves behind; what it does after the wake-up is a definition of
    its own, and interleavings are step relations over such turns. Integers are
    [Z], with the wrap-around of [uint], [ushort], [uchar] and the sign of
    [int] and [char] written out ([u32], [u16], [u8], [s32], [s8]). Pointers
    into tables are indices, null is [None]; where the code works on raw memory
    (strings, pages, page tables, user memory) the model has bytes at
    addresses (Memory.v). A lock is a flag of the state that owns it, through
    the class [HasLock]: [acquire] of a held lock is the deadlock or panic of
    the code. Routines of one component are written against a class with what
    the other component promises, and the other component is shown to be an
    instance.

    ** The parts

    - Memory.v, KString.v: byte memory; string.c.
    - Spinlock.v: spinlock.c and sleeplock.c; mutual exclusion over all
      interleavings of CPUs, one memory access per step.
    - Kalloc.v: kalloc.c; the free list threaded through the free pages refines
      a list of pages.
    - Vm.v, VmTables.v, VmSpec.v, VmFree.v, VmProps.v: vm.c; two-level page
      tables in the memory of the page allocator, who owns which page, and what
      allocuvm, deallocuvm, copyuvm, freevm and copyout do.
    - BlockCache.v, Bio.v: the interface of the buffer cache, and bio.c over
      memide.c as an instance of it.
    - Layout.v, Log.v, LogSpace.v: the log header; log.c over any block cache:
      crash safety of commit and recovery, and the reservation of log space.
    - TxDisk.v: what fs.c relies on of the log inside a transaction, as a
      class, and the log as an instance.
    - FsLayout.v, Fs.v: on-disk structures; fs.c over any [TxDisk]. FsBlocks.v,
      FsMap.v, FsData.v, FsTrunc.v, FsCache.v, FsDir.v: block allocator, block
      map of a file, contents, freeing, inode cache, directories and paths.
      FsExample.v: a concrete disk on which the theorems are applied.
    - Args.v: the argument routines of syscall.c.
    - Pipe.v: pipe.c, with all interleavings of readers and writers.
    - File.v, FileProps.v, Sysfile.v, SysfileProps.v, FileExample.v: file.c and
      sysfile.c over the file system, the pipes and the page allocator.
    - Proc.v, ProcInv.v, ProcSteps.v, Machine.v: proc.c; the process table as
      an abstract transition system, each routine as a transition, and the
      machine with any number of CPUs, on which the parts of a [fork], during
      which its process may be interrupted, interleave with everything else.
    - Ipc.v, IpcProps.v, SignalProps.v, Trap.v: sysproc.c, the signal routines
      of proc.c, invSigret.S, the dispatch of syscall.c, and trap.c.
    - Cpu.v: the processors of vm.c and proc.c: which one runs, its segment
      descriptors and task state, [switchuvm], and [forkret].
    - Exec.v, ExecFile.v, ExecMem.v, ExecLoad.v, ExecStack.v, ExecProps.v,
      ExecExample.v: exec.c and elf.h over page memory and an interface to the
      files, the contents that [readi] gives, and the steps of a call: filling
      an address space, the segments, the stack, the switch; a program that is
      run.
    - Ide.v, IdeProps.v, IdeExample.v: ide.c over a controller that is a
      parameter with laws; all interleavings of calls and interrupts refine a
      disk that serves a queue of requests.
    - Ring.v: ring buffers, shared by the pipes, the console and the message
      queues.
    - Kbd.v, Keyboard.v: kbd.c and uart.c; a keyboard with the US layout, and
      that the driver decodes what is typed on it. Console.v, ConsoleOut.v,
      ConsoleIn.v, ConsoleProps.v: console.c; the line editor, and what a reader
      gets from any sequence of interrupts.
    - Ulib.v, Printf.v, Grep.v: ulib.c, printf.c and grep.c of user space.
      Shell.v, ShellProps.v, ShellRound.v, ShellRun.v: sh.c. Umalloc.v,
      UmallocProps.v, UmallocHeap.v: umalloc.c.
    - Mailbox.v, MailboxProps.v, MsgSystem.v: the message queues and the barrier
      of a2/sysproc.c, under any programs that use them. Maekawa.v,
      MaekawaInv.v, MaekawaSteps.v, MaekawaProps.v, MaekawaEnd.v,
      MaekawaExample.v: maekawa.c on that kernel.

    The interfaces between them: [BlockCache] (bio.c to log.c), [TxDisk] (log.c
    to fs.c), [ProcRes] (memory and files to proc.c), [HasLock] (spinlock.c to
    all), [Source] (keyboard and serial port to console.c), [Ata] (the disk
    controller to ide.c), [ExecFs] (files to exec.c), and the calls of
    MsgSystem.v (the kernel to maekawa.c).

    ** What the theorems show

    Safety and refinement of the shared structures: the spin lock excludes, the
    page allocator and the buffer cache refine their abstract versions, the
    process table keeps its invariant on all CPUs, pipes are queues without
    lost wake-ups, descriptors are counted, the log recovers all or nothing.
    Functional behaviour of the routines on every branch: address spaces, the
    loading of programs, block allocation, reading, writing, truncating and
    naming files, mailboxes, signals. Some theorems state what the code does
    where this is not what it is for; the manifest lists them as findings.
    For user space: the shell's parser is total and reads back what it prints,
    a command's programs get the descriptors it says, and what waits for them
    holds no pipe open, whichever calls fail; grep prints the matching lines,
    malloc and free tile the heap. For the devices: the IDE driver serves its
    requests in order, the keyboard's codes are decoded to what was typed, a
    typed line is read, [panic] reports. For the message programs: the message
    kernel refines queues and a barrier, and on it Maekawa's algorithm excludes,
    always stops, and stops only when every process has had its turn.

    ** Bounds and fuel

    Loops whose bound is in the code recurse on it. [strlen] and the scan of
    [fetchstr] take the distance to the end of the memory they may look at.
    [readi], [writei] and [filewrite] run at most [turns] iterations, one more
    than the blocks the range touches, and the theorems show that they never
    run out. [balloc], [dirlookup], [dirlink] and [namex] recurse on the number
    of bitmap blocks, on the entries, and on the length of the path, which
    [skipelem] shortens. The transaction interface bounds the buffers held at
    once and the blocks of one transaction by what bio.c and log.c have
    ([MAXHELD], [MAXTX]). [nextpid] wraps around as an [int] of the
    machine does; the machine counts the ids it has handed out, and that ids are
    distinct is shown for fewer than 2^31 - 1 of them. A step of Machine.v is a
    kernel call up to the point where it gives up its CPU, under [ptable.lock],
    or one of the five parts of a [fork]: the new slot, its stack, the copy of
    the address space, the copy of the rest, and the new state. [sleep] releases the lock of its
    caller where the caller is modelled. Wake-ups of sleep locks are not
    recorded. Pipe objects are kept beside the page memory that holds them.
    [idewait] looks at the status register once more than the controller may
    stay busy, a parameter of the controller. The shell's parser has a fuel
    that grows with the line, and its totality theorem shows that this is
    enough; malloc and free take their fuel as an argument, and their contract
    shows that some bound, which the free list gives, is enough. [exec] reads
    its arguments from the addresses below the kernel, which hold what the
    running process sees; its theorem is for arguments of at most 32 megabytes
    each. Maekawa's grids are the four sizes the program accepts; the message
    kernel's refinement holds as long as buffers and queues have room, which is
    proved of Maekawa's program. A process id outside the arrays of the message
    kernel is a [Fault], and a process about to send to one does not go on.

    ** Not modelled

    Assembly and what it hands over to (boot, context switch, trap entry, of
    which Trap.v has the frame that is built for the process); the order of the
    initialisation calls of main.c; the registers of the interrupt controllers
    and the firmware's tables (lapic.c, ioapic.c, picirq.c, mp.c); mkfs.c, which
    runs on the build host; the test programs and the small user programs, which
    are input and output around system calls; jacob.c and [atof], which compute
    with floats; and the programs for Linux. Of a2/sysproc.c only what the
    messages and the barrier need: its other calls belong to a kernel tree that
    is not here. Timing, caches and the translation buffer of the processor are
    not part of any model. *)

From stdpp Require Export base tactics decidable numbers list gmap strings.
From Stdlib Require Export ZArith Lia.

#[export] Set Default Goal Selector "!".

(** ** Machine integers

    A C [uint], [ushort] or [uchar] is an integer kept modulo its width; an
    [int] is the two's-complement reading of the same 32 bits. *)

Open Scope Z_scope.

Definition u32 (x : Z) : Z := x mod 2^32.
Definition u16 (x : Z) : Z := x mod 2^16.
Definition u8 (x : Z) : Z := x mod 2^8.

(** The [int] with the bits of [x]. *)
Definition s32 (x : Z) : Z :=
  let y := u32 x in if y <? 2^31 then y else y - 2^32.

(** The [char] with the bits of [x] (x86 gcc: [char] is signed). *)
Definition s8 (x : Z) : Z :=
  let y := u8 x in if y <? 2^7 then y else y - 2^8.

Definition is_u32 (x : Z) : Prop := 0 <= x < 2^32.
Definition is_u8 (x : Z) : Prop := 0 <= x < 2^8.

(** ** The kernel monad

    Kernel code runs on an explicit state [S]. A call returns a value, or
    calls [panic] (which prints and loops forever: it never returns), or goes
    to sleep on a channel in the state it leaves behind, or performs an access
    that C leaves undefined (an array index out of range, a null pointer). *)

(** Sleep channels. The C code uses the address of a kernel object, or, in the
    IPC calls, a process id cast to a pointer. *)
Inductive chan :=
  | ChNone
  | ChProc (p : nat)
  | ChPid (pid : Z)
  | ChTicks
  | ChLog
  | ChInput
  | ChBuf (b : nat)
  | ChLock (l : nat)
  | ChPipeR (p : Z)
  | ChPipeW (p : Z).

#[export] Instance chan_eq_dec : EqDecision chan.
Proof. solve_decision. Defined.

#[export] Instance chan_inhabited : Inhabited chan := populate ChNone.

Inductive res (S A : Type) : Type :=
  | Ret (a : A) (s : S)
  | Panic (msg : string)
  | Sleep (ch : chan) (s : S)
  | Fault (msg : string).
Arguments Ret {S A} a s.
Arguments Panic {S A} msg.
Arguments Sleep {S A} ch s.
Arguments Fault {S A} msg.

Definition M (S A : Type) : Type := S → res S A.

Definition ret {S A} (a : A) : M S A := λ s, Ret a s.
Definition bind {S A B} (m : M S A) (k : A → M S B) : M S B := λ s,
  match m s with
  | Ret a s' => k a s'
  | Panic e => Panic e
  | Sleep ch s' => Sleep ch s'
  | Fault e => Fault e
  end.
Definition gets {S A} (f : S → A) : M S A := λ s, Ret (f s) s.
Definition modify {S} (f : S → S) : M S unit := λ s, Ret tt (f s).
Definition panic {S A} (msg : string) : M S A := λ _, Panic msg.
Definition fault {S A} (msg : string) : M S A := λ _, Fault msg.
Definition sleep_on {S A} (ch : chan) : M S A := λ s, Sleep ch s.

Declare Scope kern_scope.
Delimit Scope kern_scope with kern.
Notation "x <- m ;; k" := (bind m (λ x, k))
  (at level 100, m at next level, k at level 200, right associativity) : kern_scope.
Notation "m ;;; k" := (bind m (λ _, k))
  (at level 100, k at level 200, right associativity) : kern_scope.
Notation "'when' b 'do' m" := (if b then m else ret tt)
  (at level 99, b at level 200, m at level 99) : kern_scope.
#[global] Open Scope kern_scope.

(** The outcome of a call that returned. *)
Definition res_val {S A} (r : res S A) : option A :=
  match r with Ret a _ => Some a | _ => None end.
Definition res_state {S A} (r : res S A) : option S :=
  match r with Ret _ s => Some s | Sleep _ s => Some s | _ => None end.

(** A loop [for (x in xs) body] whose body may leave early with a result. *)
Fixpoint for_each {S X R} (xs : list X) (body : X → M S (option R)) : M S (option R) :=
  match xs with
  | [] => ret None
  | x :: xs' =>
      r <- body x ;;
      match r with
      | Some v => ret (Some v)
      | None => for_each xs' body
      end
  end.

(** A loop [for (x in xs) body] that runs to the end. *)
Fixpoint for_all {S X} (xs : list X) (body : X → M S unit) : M S unit :=
  match xs with
  | [] => ret tt
  | x :: xs' => body x ;;; for_all xs' body
  end.

(** ** Facts about machine integers *)

Lemma u32_range x : 0 <= u32 x < 2^32.
Proof. apply Z.mod_pos_bound. lia. Qed.

Lemma u32_small x : 0 <= x < 2^32 → u32 x = x.
Proof. apply Z.mod_small. Qed.

Lemma u32_idem x : u32 (u32 x) = u32 x.
Proof. apply Z.mod_mod. lia. Qed.

Lemma u32_add_l x y : u32 (u32 x + y) = u32 (x + y).
Proof. unfold u32. by rewrite Zplus_mod_idemp_l. Qed.

Lemma u32_add_r x y : u32 (x + u32 y) = u32 (x + y).
Proof. unfold u32. by rewrite Zplus_mod_idemp_r. Qed.

Lemma u8_range x : 0 <= u8 x < 256.
Proof. apply Z.mod_pos_bound. lia. Qed.

Lemma u8_small x : 0 <= x < 256 → u8 x = x.
Proof. apply Z.mod_small. Qed.

Lemma s32_small x : 0 <= x < 2^31 → s32 x = x.
Proof.
  intros H. unfold s32. rewrite u32_small by lia.
  by destruct (Z.ltb_spec x (2^31)); [|lia].
Qed.

Create HintDb kernel.
Create Rewrite HintDb kernel.
#[export] Hint Resolve u32_range u8_range : kernel.
#[export] Hint Rewrite u32_idem u32_add_l u32_add_r : kernel.

(** ** Proof automation

    [zbool] turns the boolean tests of the code into propositions about
    integers; [zcase] splits on the next test in the goal; [steps] runs the
    monad through calls whose outcome is already known. *)

Ltac zbool :=
  repeat match goal with
  | H : (_ =? _) = true |- _ => apply Z.eqb_eq in H
  | H : (_ =? _) = false |- _ => apply Z.eqb_neq in H
  | H : (_ <? _) = true |- _ => apply Z.ltb_lt in H
  | H : (_ <? _) = false |- _ => apply Z.ltb_ge in H
  | H : (_ <=? _) = true |- _ => apply Z.leb_le in H
  | H : (_ <=? _) = false |- _ => apply Z.leb_gt in H
  | H : (_ && _) = true |- _ => apply andb_true_iff in H as [? ?]
  | H : (_ || _) = false |- _ => apply orb_false_iff in H as [? ?]
  | H : negb _ = true |- _ => apply negb_true_iff in H
  | H : negb _ = false |- _ => apply negb_false_iff in H
  end.

Ltac zcase :=
  match goal with
  | |- context [?x =? ?y] => destruct (Z.eqb_spec x y)
  | |- context [?x <? ?y] => destruct (Z.ltb_spec x y)
  | |- context [?x <=? ?y] => destruct (Z.leb_spec x y)
  end.

(** Prove an equation between expressions built from integer tests. *)
Ltac zcases := repeat (zcase; cbn [andb orb negb]); try lia; try done.

(** Decide the conditions that have become closed. *)
Ltac ground_ifs :=
  repeat match goal with
  | |- context [if ?c then _ else _] =>
      let v := eval vm_compute in c in
      lazymatch v with true => idtac | false => idtac end;
      change c with v; cbv beta iota
  end.

Ltac steps := cbv beta iota delta [bind ret gets modify panic fault sleep_on].

(** ** Facts about the monad's loops *)

Lemma for_all_app {S X} (xs ys : list X) (body : X → M S unit) s :
  for_all (xs ++ ys) body s = (for_all xs body ;;; for_all ys body) s.
Proof.
  revert s. induction xs as [|x xs IH]; intros s; [done|].
  cbn. unfold bind at 1 2 3. by destruct (body x s).
Qed.

(** An invariant kept by every iteration holds at the end, and the loop
    returns: the body is total on states with the invariant. *)
Lemma for_all_inv {S X} (I : list X → S → Prop) (body : X → M S unit) xs s :
  (∀ x ys s, I (x :: ys) s → ∃ s', body x s = Ret tt s' ∧ I ys s') →
  I xs s → ∃ s', for_all xs body s = Ret tt s' ∧ I [] s'.
Proof.
  intros Hbody. revert s. induction xs as [|x xs IH]; intros s HI.
  - by exists s.
  - destruct (Hbody x xs s HI) as (s1 & E & H1).
    cbn. unfold bind. rewrite E. by apply IH.
Qed.
