(* ===== verification/Memory.v ===== *)
(** * Byte-addressed memory

    Raw kernel memory: one byte per address, little-endian 16- and 32-bit
    accesses, and the two string instructions that x86.h wraps ([stosb] and
    [stosl]). String routines, the page allocator and the page tables work on
    it. C leaves pointer arithmetic outside an object undefined, so addresses
    are plain integers here; only [uint] arithmetic wraps. *)

From S2P Require Import Prelude.

Definition mem : Type := Z → Z.

Definition store (m : mem) (a v : Z) : mem := λ x, if x =? a then v else m x.

Definition load32 (m : mem) (a : Z) : Z :=
  m a + 2^8 * m (a + 1) + 2^16 * m (a + 2) + 2^24 * m (a + 3).

Definition byte_at (v i : Z) : Z := (v / 2^(8 * i)) mod 2^8.

Definition store32 (m : mem) (a v : Z) : mem := λ x,
  if (a <=? x) && (x <? a + 4) then byte_at v (x - a) else m x.

(** [rep stosb]: store the low byte of [data] at [cnt] consecutive bytes. *)
Definition stosb (m : mem) (addr data cnt : Z) : mem := λ x,
  if (addr <=? x) && (x <? addr + cnt) then u8 data else m x.

(** [rep stosl]: store the 32-bit [data] at [cnt] consecutive words. *)
Definition stosl (m : mem) (addr data cnt : Z) : mem := λ x,
  if (addr <=? x) && (x <? addr + 4 * cnt) then byte_at data ((x - addr) mod 4) else m x.

(** Every address holds a byte. *)
Definition byte_mem (m : mem) : Prop := ∀ a, 0 <= m a < 256.

Lemma store_eq m a v : store m a v a = v.
Proof. unfold store. by rewrite Z.eqb_refl. Qed.

Lemma store_ne m a v x : x ≠ a → store m a v x = m x.
Proof. intros. unfold store. zcases. Qed.

Lemma byte_at_range v i : 0 <= byte_at v i < 256.
Proof. apply Z.mod_pos_bound. lia. Qed.

Lemma store_byte_mem m a v : byte_mem m → 0 <= v < 256 → byte_mem (store m a v).
Proof. intros Hm Hv x. unfold store. zcases. Qed.

Lemma store32_byte_mem m a v : byte_mem m → byte_mem (store32 m a v).
Proof. intros Hm x. unfold store32. zcases; auto using byte_at_range. Qed.

(** The four bytes of a word put back together are the word. *)
Lemma bytes_of_word v :
  byte_at v 0 + 2^8 * byte_at v 1 + 2^16 * byte_at v 2 + 2^24 * byte_at v 3 = u32 v.
Proof.
  unfold byte_at, u32.
  change (2^(8*0)) with 1. change (2^(8*1)) with 256.
  change (2^(8*2)) with 65536. change (2^(8*3)) with 16777216.
  rewrite Z.div_1_r. Z.div_mod_to_equations. lia.
Qed.

Lemma load32_store32_eq m a v : load32 (store32 m a v) a = u32 v.
Proof.
  rewrite <- bytes_of_word. unfold load32, store32.
  replace (a + 1 - a) with 1 by lia. replace (a + 2 - a) with 2 by lia.
  replace (a + 3 - a) with 3 by lia. replace (a - a) with 0 by lia.
  zcases.
Qed.

Lemma load32_ext m m' a :
  (∀ i, 0 <= i < 4 → m' (a + i) = m (a + i)) → load32 m' a = load32 m a.
Proof.
  intros H. unfold load32.
  pose proof (H 0 ltac:(lia)) as H0. rewrite Z.add_0_r in H0.
  by rewrite H0, (H 1), (H 2), (H 3) by lia.
Qed.

Lemma load32_store32_ne m a b v :
  b + 4 <= a ∨ a + 4 <= b → load32 (store32 m a v) b = load32 m b.
Proof. intros H. apply load32_ext. intros i Hi. unfold store32. zcases. Qed.

Lemma load32_range m a : byte_mem m → 0 <= load32 m a < 2^32.
Proof.
  intros Hm. unfold load32.
  pose proof (Hm a); pose proof (Hm (a+1)); pose proof (Hm (a+2)); pose proof (Hm (a+3)).
  lia.
Qed.

#[export] Hint Resolve store_byte_mem store32_byte_mem byte_at_range : kernel.
#[export] Hint Rewrite store_eq load32_store32_eq : kernel.

(** ** Address-space layout and page arithmetic (memlayout.h, mmu.h) *)

Definition PGSIZE : Z := 4096.
Definition EXTMEM : Z := 0x100000.
Definition PHYSTOP : Z := 0xE000000.
Definition DEVSPACE : Z := 0xFE000000.
Definition KERNBASE : Z := 0x80000000.
Definition KERNLINK : Z := KERNBASE + EXTMEM.

Definition V2P (a : Z) : Z := u32 (a - KERNBASE).
Definition P2V (a : Z) : Z := u32 (a + KERNBASE).

Definition PGROUNDUP (sz : Z) : Z := Z.land (u32 (sz + PGSIZE - 1)) (u32 (Z.lnot (PGSIZE - 1))).
Definition PGROUNDDOWN (a : Z) : Z := Z.land (u32 a) (u32 (Z.lnot (PGSIZE - 1))).

(** Masking out the low twelve bits of a [uint] rounds it down. *)
Lemma land_page_mask x :
  0 <= x < 2^32 → Z.land x (u32 (Z.lnot (PGSIZE - 1))) = x / PGSIZE * PGSIZE.
Proof.
  intros Hx. change (u32 (Z.lnot (PGSIZE - 1))) with (Z.land (Z.lnot (Z.ones 12)) (Z.ones 32)).
  rewrite Z.land_assoc, <- Z.ldiff_land, Z.ldiff_ones_r by lia.
  rewrite Z.shiftl_mul_pow2, Z.shiftr_div_pow2, Z.land_ones by lia.
  change (2^12) with PGSIZE. apply Z.mod_small. unfold PGSIZE. Z.div_mod_to_equations. lia.
Qed.

Lemma PGROUNDUP_eq x :
  0 <= x < 2^32 - PGSIZE → PGROUNDUP x = (x + PGSIZE - 1) / PGSIZE * PGSIZE.
Proof.
  intros Hx. unfold PGROUNDUP. rewrite land_page_mask by apply u32_range.
  rewrite u32_small; [done|]. unfold PGSIZE in *. lia.
Qed.

Lemma PGROUNDDOWN_eq x : 0 <= x < 2^32 → PGROUNDDOWN x = x / PGSIZE * PGSIZE.
Proof. intros. unfold PGROUNDDOWN. by rewrite u32_small, land_page_mask by lia. Qed.

Lemma P2V_V2P a : KERNBASE <= a < 2^32 → P2V (V2P a) = a.
Proof.
  intros. unfold P2V, V2P. rewrite u32_add_l. rewrite u32_small; unfold KERNBASE in *; lia.
Qed.

Lemma V2P_P2V a : 0 <= a < KERNBASE → V2P (P2V a) = a.
Proof.
  intros. unfold P2V, V2P. rewrite <- Z.add_opp_r, u32_add_l.
  rewrite u32_small; unfold KERNBASE in *; lia.
Qed.
