(* ===== verification/KString.v ===== *)
(** * The kernel's string routines (xv6A1/string.c)

    Each routine works on byte memory. Loops on a [uint]/[int] counter recurse
    on the counter; [strlen], whose loop has no bound, takes fuel. The results
    are specified byte by byte, so a client never looks at a loop again. *)

From S2P Require Import Prelude Memory.

Definition memset (m : mem) (dst c n : Z) : mem :=
  if (Z.rem (s32 dst) 4 =? 0) && (n mod 4 =? 0) then
    let c := Z.land c 255 in
    let w := Z.lor (Z.lor (Z.lor (Z.shiftl c 24) (Z.shiftl c 16)) (Z.shiftl c 8)) c in
    stosl m dst w (n / 4)
  else stosb m dst c n.

Fixpoint memcmp (m : mem) (s1 s2 : Z) (n : nat) : Z :=
  match n with
  | O => 0
  | S n' =>
      if negb (m s1 =? m s2) then m s1 - m s2
      else memcmp m (s1 + 1) (s2 + 1) n'
  end.

Fixpoint copy_forward (m : mem) (d s : Z) (n : nat) : mem :=
  match n with
  | O => m
  | S n' => copy_forward (store m d (m s)) (d + 1) (s + 1) n'
  end.

Fixpoint copy_backward (m : mem) (d s : Z) (n : nat) : mem :=
  match n with
  | O => m
  | S n' => copy_backward (store m (d - 1) (m (s - 1))) (d - 1) (s - 1) n'
  end.

Definition memmove (m : mem) (dst src : Z) (n : Z) : mem :=
  if (src <? dst) && (dst <? src + n)
  then copy_backward m (dst + n) (src + n) (Z.to_nat n)
  else copy_forward m dst src (Z.to_nat n).

Fixpoint strncmp (m : mem) (p q : Z) (n : nat) : Z :=
  match n with
  | O => 0
  | S n' =>
      if negb (m p =? 0) && (m p =? m q) then strncmp m (p + 1) (q + 1) n'
      else m p - m q
  end.

Fixpoint zero_fill (m : mem) (s : Z) (n : nat) : mem :=
  match n with
  | O => m
  | S n' => zero_fill (store m s 0) (s + 1) n'
  end.

Fixpoint strncpy_loop (m : mem) (s t : Z) (n : nat) : mem :=
  match n with
  | O => m
  | S n' =>
      let c := m t in
      let m' := store m s c in
      if negb (c =? 0) then strncpy_loop m' (s + 1) (t + 1) n'
      else zero_fill m' (s + 1) n'
  end.

Definition strncpy (m : mem) (s t n : Z) : mem := strncpy_loop m s t (Z.to_nat n).

Fixpoint safestrcpy_loop (m : mem) (s t : Z) (n : nat) : mem :=
  match n with
  | O => store m s 0
  | S n' =>
      let c := m t in
      let m' := store m s c in
      if negb (c =? 0) then safestrcpy_loop m' (s + 1) (t + 1) n'
      else store m' (s + 1) 0
  end.

Definition safestrcpy (m : mem) (s t n : Z) : mem :=
  if n <=? 0 then m else safestrcpy_loop m s t (Z.to_nat (n - 1)).

Fixpoint strlen_loop (m : mem) (s n : Z) (fuel : nat) : option Z :=
  match fuel with
  | O => None
  | S fuel' => if m (s + n) =? 0 then Some n else strlen_loop m s (n + 1) fuel'
  end.

Definition strlen (m : mem) (s : Z) (fuel : nat) : option Z := strlen_loop m s 0 fuel.

(** The bytes of a C string: [len] nonzero bytes and a NUL. *)
Definition cstr (m : mem) (s : Z) (len : Z) : Prop :=
  0 <= len ∧ m (s + len) = 0 ∧ ∀ i, 0 <= i < len → m (s + i) ≠ 0.

(** ** memset *)

(** The word that [memset] builds from a byte. *)
Definition splat (c : Z) : Z :=
  Z.lor (Z.lor (Z.lor (Z.shiftl c 24) (Z.shiftl c 16)) (Z.shiftl c 8)) c.

(** Every byte of that word is [c]: a finite check over the 256 bytes. *)
Lemma splat_byte c i : 0 <= c < 256 → 0 <= i < 4 → byte_at (splat c) i = c.
Proof.
  intros Hc Hi.
  assert (Hall : Forall (λ c, Forall (λ i, byte_at (splat c) i = c) (seqZ 0 4)) (seqZ 0 256)).
  { eapply (bool_decide_unpack _). vm_compute. exact I. }
  rewrite Forall_forall in Hall.
  specialize (Hall c ltac:(by apply elem_of_seqZ)). rewrite Forall_forall in Hall.
  by apply Hall, elem_of_seqZ.
Qed.

Lemma low_byte c : Z.land c 255 = u8 c.
Proof. change 255 with (Z.ones 8). by rewrite Z.land_ones. Qed.

(** Both paths of [memset] fill the range with the low byte of [c]. *)
Lemma memset_lookup m dst c n a :
  memset m dst c n a = if (dst <=? a) && (a <? dst + n) then u8 c else m a.
Proof.
  unfold memset. destruct ((Z.rem (s32 dst) 4 =? 0) && (n mod 4 =? 0)) eqn:E; [|done].
  zbool. assert (n = 4 * (n / 4)) as Hn by (Z.div_mod_to_equations; lia).
  unfold stosl. rewrite <- Hn. destruct ((dst <=? a) && (a <? dst + n)); [|done].
  rewrite low_byte. apply splat_byte; [apply u8_range|apply Z.mod_pos_bound; lia].
Qed.

Lemma memset_byte_mem m dst c n : byte_mem m → byte_mem (memset m dst c n).
Proof. intros Hm a. rewrite memset_lookup. case_match; auto using u8_range. Qed.

(** ** memmove *)

Lemma copy_forward_lookup n : ∀ m d s a,
  d <= s ∨ s + Z.of_nat n <= d →
  copy_forward m d s n a = if (d <=? a) && (a <? d + Z.of_nat n) then m (s + (a - d)) else m a.
Proof.
  induction n as [|n IH]; intros m d s a Hov; cbn [copy_forward]; [zcases|].
  rewrite IH by lia. unfold store.
  zcases; try (f_equal; lia).
Qed.

Lemma copy_backward_lookup n : ∀ m d s a,
  s <= d ∨ d <= s - Z.of_nat n →
  copy_backward m d s n a =
    if (d - Z.of_nat n <=? a) && (a <? d) then m (s + (a - d)) else m a.
Proof.
  induction n as [|n IH]; intros m d s a Hov; cbn [copy_backward]; [zcases|].
  rewrite IH by lia. unfold store.
  zcases; try (f_equal; lia).
Qed.

(** [memmove] copies the source as it was, whatever the overlap, and leaves
    every byte outside the destination alone. *)
Lemma memmove_lookup m dst src n a :
  0 <= n →
  memmove m dst src n a =
    if (dst <=? a) && (a <? dst + n) then m (src + (a - dst)) else m a.
Proof.
  intros Hn. unfold memmove.
  destruct ((src <? dst) && (dst <? src + n)) eqn:E.
  - zbool. rewrite copy_backward_lookup by lia. rewrite Z2Nat.id by lia.
    replace (dst + n - n) with dst by lia.
    replace (src + n + (a - (dst + n))) with (src + (a - dst)) by lia. done.
  - apply andb_false_iff in E. rewrite copy_forward_lookup; rewrite Z2Nat.id by lia; [done|].
    destruct E; zbool; lia.
Qed.

(** ** memcmp and strncmp *)

Lemma memcmp_zero n : ∀ m s1 s2,
  memcmp m s1 s2 n = 0 ↔ ∀ i, 0 <= i < Z.of_nat n → m (s1 + i) = m (s2 + i).
Proof.
  induction n as [|n IH]; intros m s1 s2; cbn [memcmp].
  { split; [intros; lia|done]. }
  destruct (Z.eqb_spec (m s1) (m s2)) as [E|E]; cbn [negb].
  - rewrite IH. split; intros H i Hi.
    + destruct (Z.eq_dec i 0) as [->|]; [by rewrite !Z.add_0_r|].
      specialize (H (i - 1) ltac:(lia)).
      by replace (s1 + 1 + (i - 1)) with (s1 + i) in H by lia;
         replace (s2 + 1 + (i - 1)) with (s2 + i) in H by lia.
    + rewrite <- !Z.add_assoc. apply H. lia.
  - split; [lia|]. intros H. specialize (H 0 ltac:(lia)). rewrite !Z.add_0_r in H. lia.
Qed.

(** Two strings compare equal when they agree on every position up to the
    first NUL or the bound. *)
Lemma strncmp_zero n : ∀ m p q,
  strncmp m p q n = 0 ↔
  ∀ i, 0 <= i < Z.of_nat n → (∀ j, 0 <= j < i → m (p + j) ≠ 0) → m (p + i) = m (q + i).
Proof.
  induction n as [|n IH]; intros m p q; cbn [strncmp].
  { split; [intros; lia|done]. }
  destruct (Z.eqb_spec (m p) 0) as [Z0|Z0]; cbn [negb andb].
  { split.
    - intros H i Hi Hj. destruct (Z.eq_dec i 0) as [->|]; [rewrite !Z.add_0_r; lia|].
      exfalso. apply (Hj 0); [lia|by rewrite Z.add_0_r].
    - intros H. specialize (H 0 ltac:(lia) ltac:(lia)). rewrite !Z.add_0_r in H. lia. }
  destruct (Z.eqb_spec (m p) (m q)) as [E|E].
  - rewrite IH. split; intros H i Hi Hj.
    + destruct (Z.eq_dec i 0) as [->|]; [by rewrite !Z.add_0_r|].
      specialize (H (i - 1) ltac:(lia)).
      replace (p + 1 + (i - 1)) with (p + i) in H by lia.
      replace (q + 1 + (i - 1)) with (q + i) in H by lia.
      apply H. intros j Hj'. rewrite <- Z.add_assoc. apply Hj. lia.
    + rewrite <- !Z.add_assoc. apply H; [lia|]. intros j Hj'.
      destruct (Z.eq_dec j 0) as [->|]; [by rewrite Z.add_0_r|].
      replace (p + j) with (p + 1 + (j - 1)) by lia. apply Hj. lia.
  - split; [lia|]. intros H. specialize (H 0 ltac:(lia) ltac:(lia)).
    rewrite !Z.add_0_r in H. lia.
Qed.

(** ** strncpy and safestrcpy *)

Lemma zero_fill_lookup n : ∀ m s a,
  zero_fill m s n a = if (s <=? a) && (a <? s + Z.of_nat n) then 0 else m a.
Proof.
  induction n as [|n IH]; intros m s a; cbn [zero_fill]; [zcases|].
  rewrite IH. unfold store. zcases.
Qed.

(** [strncpy] copies up to and including the first NUL within [n] bytes, pads
    with NULs, and touches nothing else. *)
Lemma strncpy_loop_spec n : ∀ m s t,
  (t + Z.of_nat n <= s ∨ s + Z.of_nat n <= t) →
  (∀ i, 0 <= i < Z.of_nat n →
     strncpy_loop m s t n (s + i) = m (t + i) ∨
     strncpy_loop m s t n (s + i) = 0 ∧ ∃ j, 0 <= j < i ∧ m (t + j) = 0) ∧
  (∀ i j, 0 <= j < i → i < Z.of_nat n → m (t + j) = 0 → strncpy_loop m s t n (s + i) = 0) ∧
  (∀ a, a < s ∨ s + Z.of_nat n <= a → strncpy_loop m s t n a = m a).
Proof.
  induction n as [|n IH]; intros m s t Hd; cbn [strncpy_loop].
  { repeat split; intros; try lia. }
  destruct (Z.eqb_spec (m t) 0) as [E|E]; cbn [negb].
  - split; [|split].
    + intros i Hi. rewrite zero_fill_lookup. unfold store.
      destruct (Z.eq_dec i 0) as [->|].
      { left. rewrite !Z.add_0_r. zcases. }
      right. split; [zcases|]. exists 0. rewrite Z.add_0_r. lia.
    + intros i j Hj Hi _. rewrite zero_fill_lookup. zcases.
    + intros a Ha. rewrite zero_fill_lookup. unfold store. zcases.
  - destruct (IH (store m s (m t)) (s + 1) (t + 1) ltac:(lia)) as (H1 & H2 & H3).
    assert (Hst : ∀ k, 0 <= k < Z.of_nat n →
              store m s (m t) (t + 1 + k) = m (t + (k + 1))).
    { intros k Hk. rewrite store_ne by lia. f_equal. lia. }
    split; [|split].
    + intros i Hi. destruct (Z.eq_dec i 0) as [->|].
      { left. rewrite H3 by lia. rewrite !Z.add_0_r. apply store_eq. }
      specialize (H1 (i - 1) ltac:(lia)). rewrite Hst in H1 by lia.
      replace (s + 1 + (i - 1)) with (s + i) in H1 by lia.
      replace (i - 1 + 1) with i in H1 by lia.
      destruct H1 as [H1|(H1 & j & Hj & Hz)]; [by left|].
      right. split; [done|]. exists (j + 1). rewrite Hst in Hz by lia. split; [lia|done].
    + intros i j Hj Hi Hz. destruct (Z.eq_dec j 0) as [->|].
      { by rewrite Z.add_0_r in Hz. }
      specialize (H2 (i - 1) (j - 1) ltac:(lia) ltac:(lia)).
      rewrite Hst in H2 by lia. replace (j - 1 + 1) with j in H2 by lia.
      replace (s + 1 + (i - 1)) with (s + i) in H2 by lia. by apply H2.
    + intros a Ha. rewrite H3 by lia. apply store_ne. lia.
Qed.

Lemma safestrcpy_loop_spec n : ∀ m s t,
  (t + Z.of_nat n + 1 <= s ∨ s + Z.of_nat n + 1 <= t) →
  ∃ len, cstr (safestrcpy_loop m s t n) s len ∧ len <= Z.of_nat n ∧
    (∀ i, 0 <= i < len → safestrcpy_loop m s t n (s + i) = m (t + i)) ∧
    (len = Z.of_nat n ∨ m (t + len) = 0) ∧
    (∀ a, a < s ∨ s + Z.of_nat n < a → safestrcpy_loop m s t n a = m a).
Proof.
  induction n as [|n IH]; intros m s t Hd; cbn [safestrcpy_loop].
  { exists 0. unfold cstr. rewrite Z.add_0_r, store_eq.
    split; [|split; [done|split; [lia|split; [by left|]]]]; [split; [done|split; [done|lia]]|].
    intros a Ha. apply store_ne. lia. }
  destruct (Z.eqb_spec (m t) 0) as [E|E]; cbn [negb].
  - exists 0. unfold cstr. rewrite !Z.add_0_r.
    split; [split; [done|split; [|lia]]|].
    { rewrite store_ne by lia. rewrite store_eq. done. }
    split; [lia|split; [lia|split; [by right|]]].
    intros a Ha. rewrite !store_ne by lia. done.
  - destruct (IH (store m s (m t)) (s + 1) (t + 1) ltac:(lia))
      as (len & (Hl0 & Hnul & Hnz) & Hle & Hcp & Hend & Hout).
    assert (Hst : ∀ k, 0 <= k <= Z.of_nat n →
              store m s (m t) (t + 1 + k) = m (t + (k + 1)) ∨ k = Z.of_nat n).
    { intros k Hk. destruct (Z.eq_dec k (Z.of_nat n)); [by right|left].
      rewrite store_ne by lia. f_equal. lia. }
    assert (H0 : safestrcpy_loop (store m s (m t)) (s + 1) (t + 1) n s = m t).
    { rewrite Hout by lia. apply store_eq. }
    exists (len + 1). unfold cstr. repeat split.
    + lia.
    + by replace (s + (len + 1)) with (s + 1 + len) by lia.
    + intros i Hi. destruct (Z.eq_dec i 0) as [->|]; [rewrite Z.add_0_r; congruence|].
      replace (s + i) with (s + 1 + (i - 1)) by lia. apply Hnz. lia.
    + lia.
    + intros i Hi. destruct (Z.eq_dec i 0) as [->|]; [by rewrite !Z.add_0_r|].
      replace (s + i) with (s + 1 + (i - 1)) by lia. rewrite Hcp by lia.
      destruct (Hst (i - 1) ltac:(lia)) as [->|]; [f_equal; lia|lia].
    + destruct Hend as [->|Hz]; [left; lia|].
      destruct (Hst len ltac:(lia)) as [Hk| ->]; [right; by rewrite <- Hk|left; lia].
    + intros a Ha. rewrite Hout by lia. apply store_ne. lia.
Qed.

(** ** strlen *)

Lemma strlen_loop_spec m s len fuel : ∀ k,
  cstr m s len → 0 <= k <= len → len - k < Z.of_nat fuel →
  strlen_loop m s k fuel = Some len.
Proof.
  induction fuel as [|fuel IH]; intros k Hc Hk Hf; [lia|].
  cbn [strlen_loop]. destruct Hc as (H0 & Hnul & Hnz).
  destruct (Z.eqb_spec (m (s + k)) 0) as [E|E].
  - f_equal. destruct (Z.eq_dec k len); [done|]. exfalso. apply (Hnz k); [lia|done].
  - apply IH; [done|split; [lia|]|lia].
    destruct (Z.eq_dec k len); [congruence|lia].
Qed.

#[export] Hint Resolve memset_byte_mem : kernel.

(** ** Properties *)

(** [memmove] copies [n] bytes of the source as it was before the call,
    also when the two ranges overlap, and changes no byte outside the
    destination. *)
Theorem memmove_correct m dst src n :
  0 <= n →
  (∀ i, 0 <= i < n → memmove m dst src n (dst + i) = m (src + i)) ∧
  (∀ a, a < dst ∨ dst + n <= a → memmove m dst src n a = m a).
Proof.
  intros Hn. split; intros x Hx; rewrite memmove_lookup by done.
  - replace (src + (dst + x - dst)) with (src + x) by lia. zcases.
  - zcases.
Qed.

(** Four bytes moved up by one, onto themselves. *)
Lemma memmove_correct_witness :
  0 <= 4 ∧ memmove (λ a, a) 11 10 4 (11 + 3) = 13.
Proof.
  split; [lia|]. rewrite (proj1 (memmove_correct (λ a, a) 11 10 4 ltac:(lia)) 3 ltac:(lia)).
  reflexivity.
Defined.

(** [safestrcpy] leaves a NUL-terminated string of at most [n-1]
    characters at [s]: the longest prefix of the source that fits. It writes
    only the [n] bytes of the destination. *)
Theorem safestrcpy_correct m s t n :
  0 < n → t + n <= s ∨ s + n <= t →
  ∃ len, cstr (safestrcpy m s t n) s len ∧ len < n ∧
    (∀ i, 0 <= i < len → safestrcpy m s t n (s + i) = m (t + i)) ∧
    (len = n - 1 ∨ m (t + len) = 0) ∧
    (∀ a, a < s ∨ s + n <= a → safestrcpy m s t n a = m a).
Proof.
  intros Hn Hd. unfold safestrcpy. destruct (Z.leb_spec n 0); [lia|].
  destruct (safestrcpy_loop_spec (Z.to_nat (n - 1)) m s t ltac:(lia))
    as (len & Hc & Hle & Hcp & Hend & Hout).
  rewrite Z2Nat.id in * by lia. exists len. repeat split; try apply Hc; try lia; auto.
  intros a Ha. apply Hout. lia.
Qed.

Lemma safestrcpy_correct_witness :
  ∃ len, cstr (safestrcpy (λ a, if a <? 5 then 65 else 0) 100 0 16) 100 len ∧ len < 16.
Proof.
  destruct (safestrcpy_correct (λ a, if a <? 5 then 65 else 0) 100 0 16
              ltac:(lia) ltac:(lia)) as (len & Hc & Hl & _).
  exists len. exact (conj Hc Hl).
Defined.
