(* ===== verification/Spinlock.v ===== *)
(** * Spin locks and sleep locks (xv6A1/spinlock.c, xv6A1/sleeplock.c)

    The first part is the code of one CPU: [pushcli]/[popcli] and the debug
    fields of a lock. The second is the interleaving of all CPUs on one lock,
    one atomic memory access per step, in which mutual exclusion is an
    invariant. The third is the sleep lock as the buffer and inode caches use
    it. *)

From S2P Require Import Prelude Memory.

(** ** Interrupt state of one CPU *)

(** [eflags & FL_IF], and the two fields of [struct cpu] that record it. *)
Record cpu := Cpu { fl_if : bool; ncli : Z; intena : bool }.

#[export] Instance cpu_inhabited : Inhabited cpu := populate (Cpu true 0 false).

Definition cli (c : cpu) : cpu := Cpu false (ncli c) (intena c).
Definition sti (c : cpu) : cpu := Cpu true (ncli c) (intena c).

Definition pushcli : M cpu unit := λ c,
  let eflags := fl_if c in
  let c := cli c in
  let c := if ncli c =? 0 then Cpu (fl_if c) (ncli c) eflags else c in
  Ret tt (Cpu (fl_if c) (ncli c + 1) (intena c)).

Definition popcli : M cpu unit := λ c,
  if fl_if c then Panic "popcli - interruptible" else
  let c := Cpu (fl_if c) (ncli c - 1) (intena c) in
  if ncli c <? 0 then Panic "popcli" else
  if (ncli c =? 0) && intena c then Ret tt (sti c) else Ret tt c.

(** ** One lock, from one CPU *)

(** [struct spinlock] without its name: the word the CPUs exchange, the holder
    and the call stack recorded for debugging. *)
Record spinlock := Lk { locked : Z; holder : option nat; pcs : list Z }.

Definition initlock (lk : spinlock) : spinlock := Lk 0 None (pcs lk).

(** [getcallerpcs] follows at most ten saved frame pointers, stopping at a null
    or user-space one. *)
Fixpoint getcallerpcs_loop (m : mem) (ebp : Z) (n : nat) : list Z :=
  match n with
  | O => []
  | S n' =>
      if (ebp =? 0) || (ebp <? 0x80000000) || (ebp =? 0xffffffff) then replicate n 0
      else load32 m (ebp + 4) :: getcallerpcs_loop m (load32 m ebp) n'
  end.

Definition getcallerpcs (m : mem) (v : Z) : list Z := getcallerpcs_loop m (v - 8) 10.

Definition held_by (me : nat) (lk : spinlock) : bool :=
  negb (locked lk =? 0) && bool_decide (holder lk = Some me).

Definition holding (me : nat) (lk : spinlock) : M cpu bool :=
  pushcli ;;; let r := held_by me lk in popcli ;;; ret r.

(** ** All CPUs on one lock

    [acquire] and [release] as the sequence of their memory accesses. [Spin] is
    the exchange loop, [Got] the window between the exchange that found the
    lock free and the store of [lk->cpu], [Rel] the window between clearing
    [lk->cpu] and clearing [lk->locked]. A failed check moves to [Dead]. *)

Inductive pc := Out | Spin | Got | Crit | Rel | Dead (msg : string).

#[export] Instance pc_eq_dec : EqDecision pc.
Proof. solve_decision. Defined.

Record lkstate := LkState { lk : spinlock; cpus : list (pc * cpu) }.

Definition xchg (lk : spinlock) (v : Z) : Z * spinlock :=
  (locked lk, Lk v (holder lk) (pcs lk)).

(** What CPU [me] does next from [p], with its interrupt state [c] and the
    lock: its own program counter, interrupt state and lock afterwards. [m] is
    the memory its frame pointer [v] points into. *)
Definition lock_next (m : mem) (v : Z) (me : nat) (p : pc) (c : cpu) (l : spinlock)
    : pc * cpu * spinlock :=
  match p with
  | Out =>
      match (pushcli ;;; holding me l) c with
      | Ret true _ => (Dead "acquire", c, l)
      | Ret false c' => (Spin, c', l)
      | _ => (Dead "popcli", c, l)
      end
  | Spin =>
      let '(old, l') := xchg l 1 in
      if old =? 0 then (Got, c, l') else (Spin, c, l')
  | Got => (Crit, c, Lk (locked l) (Some me) (getcallerpcs m v))
  | Crit =>
      match holding me l c with
      | Ret true c' => (Rel, c', Lk (locked l) None (<[0%nat := 0]> (pcs l)))
      | Ret false _ => (Dead "release", c, l)
      | _ => (Dead "popcli", c, l)
      end
  | Rel =>
      match popcli c with
      | Ret _ c' => (Out, c', Lk 0 (holder l) (pcs l))
      | _ => (Dead "popcli", c, l)
      end
  | Dead e => (Dead e, c, l)
  end.

Inductive lock_step : lkstate → lkstate → Prop :=
  | lock_step_cpu st me p c m v p' c' l' :
      cpus st !! me = Some (p, c) →
      lock_next m v me p c (lk st) = (p', c', l') →
      lock_step st (LkState l' (<[me := (p', c')]> (cpus st))).

(** Initially the lock is free and every CPU is outside, at nesting depth 0. *)
Definition lock_init (st : lkstate) : Prop :=
  locked (lk st) = 0 ∧ holder (lk st) = None ∧
  ∀ i p c, cpus st !! i = Some (p, c) → p = Out ∧ ncli c = 0.

(** The CPU owns the lock word. *)
Definition owns (p : pc) : bool :=
  match p with Got | Crit | Rel => true | _ => false end.

(** ** Sleep locks *)

Record sleeplock := SLk { sl_locked : bool; sl_pid : Z }.

#[export] Instance sleeplock_inhabited : Inhabited sleeplock := populate (SLk false 0).

Definition initsleeplock : sleeplock := SLk false 0.

(** A locked sleep lock puts the caller to sleep on it; the caller tries again
    when [releasesleep] wakes it. *)
Definition acquiresleep (ch : chan) (pid : Z) : M sleeplock unit := λ l,
  if sl_locked l then Sleep ch l else Ret tt (SLk true pid).

Definition releasesleep (l : sleeplock) : sleeplock := SLk false 0.

Definition holdingsleep (pid : Z) (l : sleeplock) : bool :=
  sl_locked l && (sl_pid l =? pid).

(** ** The lock interface of the other components

    Between [acquire] and [release] a component's code runs alone on its data
    (that is what the invariant below gives), so the components keep one
    boolean per lock: whether this CPU holds it. Taking a lock twice and
    freeing a lock not held are the panics of the code. [T] names the lock. *)

Class HasLock (T S : Type) := {
  lock_held : S → bool;
  set_lock : bool → S → S;
  lock_held_set : ∀ b s, lock_held (set_lock b s) = b;
  set_lock_set : ∀ b b' s, set_lock b (set_lock b' s) = set_lock b s;
  set_lock_id : ∀ s, set_lock (lock_held s) s = s }.

Definition acquire (T : Type) {S} `{!HasLock T S} : M S unit := λ s,
  if lock_held s then Panic "acquire" else Ret tt (set_lock true s).

Definition release (T : Type) {S} `{!HasLock T S} : M S unit := λ s,
  if lock_held s then Ret tt (set_lock false s) else Panic "release".

(** ** Nesting of pushcli and popcli *)

Inductive cliop := Push | Pop.

Fixpoint run_cli (ops : list cliop) : M cpu unit :=
  match ops with
  | [] => ret tt
  | Push :: ops' => pushcli ;;; run_cli ops'
  | Pop :: ops' => popcli ;;; run_cli ops'
  end.

Fixpoint cli_depth (d : Z) (ops : list cliop) : option Z :=
  match ops with
  | [] => Some d
  | Push :: ops' => cli_depth (d + 1) ops'
  | Pop :: ops' => if d <=? 0 then None else cli_depth (d - 1) ops'
  end.

(** At depth [d], started with interrupts [b]: off inside, [b] outside. *)
Definition cli_inv (b : bool) (d : Z) (c : cpu) : Prop :=
  ncli c = d ∧ 0 <= d ∧ (d = 0 → fl_if c = b) ∧ (0 < d → fl_if c = false ∧ intena c = b).

Lemma pushcli_inv b d c :
  cli_inv b d c → ∃ c', pushcli c = Ret tt c' ∧ cli_inv b (d + 1) c'.
Proof.
  intros (Hd & H0 & Hout & Hin). unfold pushcli, cli_inv. eexists; split; [done|].
  cbn. destruct (Z.eqb_spec (ncli c) 0) as [E|E]; cbn.
  - repeat split; try lia. intros. apply Hout. lia.
  - repeat split; try lia. intros. apply Hin. lia.
Qed.

Lemma popcli_inv b d c :
  cli_inv b d c → 0 < d → ∃ c', popcli c = Ret tt c' ∧ cli_inv b (d - 1) c'.
Proof.
  intros (Hd & H0 & Hout & Hin) Hpos. destruct (Hin Hpos) as [Hif Hena].
  unfold popcli, cli_inv. rewrite Hif. cbn.
  destruct (Z.ltb_spec (ncli c - 1) 0); [lia|].
  destruct (Z.eqb_spec (ncli c - 1) 0), (intena c); cbn;
    eexists; (split; [done|]); cbn; repeat split; intros; try lia; done.
Qed.

Lemma run_cli_inv ops : ∀ b d d' c,
  cli_inv b d c → cli_depth d ops = Some d' →
  ∃ c', run_cli ops c = Ret tt c' ∧ cli_inv b d' c'.
Proof.
  induction ops as [|[] ops IH]; intros b d d' c Hi Hd; cbn [run_cli cli_depth] in Hd |- *.
  - injection Hd as <-. by exists c.
  - destruct (pushcli_inv _ _ _ Hi) as (c1 & E & H1). unfold bind. rewrite E. eauto.
  - destruct (Z.leb_spec d 0); [done|].
    destruct (popcli_inv _ _ _ Hi ltac:(lia)) as (c1 & E & H1). unfold bind. rewrite E. eauto.
Qed.

Lemma holding_spec b d c me l :
  cli_inv b d c → ∃ c', holding me l c = Ret (held_by me l) c' ∧ cli_inv b d c'.
Proof.
  intros Hi. unfold holding.
  destruct (pushcli_inv _ _ _ Hi) as (c1 & E1 & H1).
  destruct (popcli_inv b (d + 1) c1 H1) as (c2 & E2 & H2); [destruct Hi; lia|].
  exists c2. unfold bind. rewrite E1, E2. split; [done|].
  by replace (d + 1 - 1) with d in H2 by lia.
Qed.

(** ** The lock invariant *)

(** [base i] is the interrupt flag CPU [i] started with. *)
Record lock_inv (base : nat → bool) (st : lkstate) : Prop := {
  li_word : locked (lk st) = 0 ∨ locked (lk st) = 1;
  li_owner : ∀ i p c, cpus st !! i = Some (p, c) → owns p = true → locked (lk st) = 1;
  li_unique : ∀ i j p q c d, cpus st !! i = Some (p, c) → cpus st !! j = Some (q, d) →
    owns p = true → owns q = true → i = j;
  li_holder : ∀ i, holder (lk st) = Some i ↔ ∃ c, cpus st !! i = Some (Crit, c);
  li_cpu : ∀ i p c, cpus st !! i = Some (p, c) →
    match p with
    | Out => cli_inv (base i) 0 c
    | Dead _ => False
    | _ => cli_inv (base i) 1 c
    end }.

Lemma held_by_crit base st me c :
  lock_inv base st → cpus st !! me = Some (Crit, c) → held_by me (lk st) = true.
Proof.
  intros Hinv Hme. unfold held_by.
  rewrite (li_owner _ _ Hinv _ _ _ Hme eq_refl).
  rewrite bool_decide_eq_true_2; [done|]. apply (li_holder _ _ Hinv). eauto.
Qed.

Lemma held_by_out base st me c :
  lock_inv base st → cpus st !! me = Some (Out, c) → held_by me (lk st) = false.
Proof.
  intros Hinv Hme. unfold held_by.
  rewrite bool_decide_eq_false_2; [by rewrite andb_false_r|].
  intros Hh. apply (li_holder _ _ Hinv) in Hh as [d Hd]. congruence.
Qed.

(** Replace one CPU's entry: the other entries are as before. *)
Lemma lookup_upd {A} (l : list A) i j x y y0 :
  l !! i = Some y0 → <[i := x]> l !! j = Some y → (i = j ∧ y = x) ∨ (i ≠ j ∧ l !! j = Some y).
Proof.
  intros Hi. assert (i < length l)%nat by (by eapply lookup_lt_Some).
  destruct (decide (i = j)) as [->|Hne].
  - rewrite list_lookup_insert_eq by done. intros [= ->]. by left.
  - rewrite list_lookup_insert_ne by done. by right.
Qed.

Lemma lookup_upd_eq {A} (l : list A) i x y0 :
  l !! i = Some y0 → <[i := x]> l !! i = Some x.
Proof. intros Hi. apply list_lookup_insert_eq. by eapply lookup_lt_Some. Qed.

(** The invariant survives a step of CPU [me] from [p] to [p'] when the new
    lock and interrupt state satisfy the conditions that mention [me]. *)
Lemma lock_inv_upd base st me p c p' c' l' :
  lock_inv base st → cpus st !! me = Some (p, c) →
  (locked l' = 0 ∨ locked l' = 1) →
  (owns p' = true → locked l' = 1 ∧ (owns p = true ∨ locked (lk st) = 0)) →
  (locked l' = locked (lk st) ∨ locked l' = 1 ∨ owns p = true) →
  (∀ i, i ≠ me → holder l' = Some i ↔ holder (lk st) = Some i) →
  (holder l' = Some me ↔ p' = Crit) →
  match p' with
  | Out => cli_inv (base me) 0 c'
  | Dead _ => False
  | _ => cli_inv (base me) 1 c'
  end →
  lock_inv base (LkState l' (<[me := (p', c')]> (cpus st))).
Proof.
  intros Hinv Hme Hw Hown Hlk Hho Hhm Hcpu. split; cbn.
  - done.
  - intros i q d Hi Hq. destruct (lookup_upd _ _ _ _ _ _ Hme Hi) as [[-> [= -> ->]]|[Hne Hi']].
    + by apply Hown.
    + pose proof (li_owner _ _ Hinv _ _ _ Hi' Hq). destruct Hlk as [->|[->|Hp]]; try done.
      exfalso. apply Hne. by eapply (li_unique _ _ Hinv).
  - intros i j q r d e Hi Hj Hq Hr.
    destruct (lookup_upd _ _ _ _ _ _ Hme Hi) as [[-> [= -> ->]]|[Hne Hi']],
      (lookup_upd _ _ _ _ _ _ Hme Hj) as [[<- [= -> ->]]|[Hne' Hj']]; try done.
    + destruct (Hown Hq) as [_ [Hp|H0]]; [by eapply (li_unique _ _ Hinv)|].
      pose proof (li_owner _ _ Hinv _ _ _ Hj' Hr). lia.
    + destruct (Hown Hr) as [_ [Hp|H0]]; [by eapply (li_unique _ _ Hinv)|].
      pose proof (li_owner _ _ Hinv _ _ _ Hi' Hq). lia.
    + by eapply (li_unique _ _ Hinv).
  - intros i. destruct (decide (i = me)) as [->|Hne].
    + rewrite Hhm, (lookup_upd_eq _ _ _ _ Hme). split; [intros ->; eauto|by intros [? [=]]].
    + rewrite Hho by done. rewrite list_lookup_insert_ne by done. apply (li_holder _ _ Hinv).
  - intros i q d Hi. destruct (lookup_upd _ _ _ _ _ _ Hme Hi) as [[-> [= -> ->]]|[Hne Hi']].
    + done.
    + by apply (li_cpu _ _ Hinv).
Qed.

Lemma lock_inv_init st :
  lock_init st → lock_inv (λ i, match cpus st !! i with Some (_, c) => fl_if c | None => false end) st.
Proof.
  intros (Hw & Hh & Hc). split.
  - by left.
  - intros i p c Hi Hp. by destruct (Hc i p c Hi) as [-> _].
  - intros i j p q c d Hi Hj Hp. by destruct (Hc i p c Hi) as [-> _].
  - intros i. rewrite Hh. split; [done|]. intros [c Hi]. by destruct (Hc _ _ _ Hi).
  - intros i p c Hi. destruct (Hc i p c Hi) as [-> Hn]. rewrite Hi. by split; [|split].
Qed.

Lemma lock_inv_step base st st' : lock_inv base st → lock_step st st' → lock_inv base st'.
Proof.
  intros Hinv Hstep. destruct Hstep as [st me p c m v p' c' l' Hme Hnext].
  pose proof (li_cpu _ _ Hinv _ _ _ Hme) as Hcpu.
  pose proof (li_holder _ _ Hinv me) as Hhold.
  assert (Hnc : p ≠ Crit → holder (lk st) ≠ Some me).
  { intros Hp Hh. apply Hhold in Hh as [d Hd]. congruence. }
  destruct p; cbn [lock_next] in Hnext.
  - destruct (pushcli_inv _ _ _ Hcpu) as (c1 & E1 & H1).
    destruct (holding_spec _ _ _ me (lk st) H1) as (c2 & E2 & H2).
    unfold bind in Hnext. rewrite E1, E2, (held_by_out _ _ _ _ Hinv Hme) in Hnext.
    injection Hnext as <- <- <-.
    eapply lock_inv_upd; try done; try apply Hinv; auto.
    split; [|done]. intros Hh. by destruct (Hnc ltac:(done)).
  - unfold xchg in Hnext.
    destruct (Z.eqb_spec (locked (lk st)) 0); injection Hnext as <- <- <-;
      (eapply lock_inv_upd; try done; cbn; auto); (split; [|done]);
      intros Hh; by destruct (Hnc ltac:(done)).
  - pose proof (li_owner _ _ Hinv _ _ _ Hme eq_refl) as Hl.
    injection Hnext as <- <- <-. eapply lock_inv_upd; try done; cbn; auto.
    intros i Hi. split; [congruence|]. intros Hh.
    apply (li_holder _ _ Hinv) in Hh as [d Hd].
    exfalso. apply Hi. by eapply (li_unique _ _ Hinv).
  - destruct (holding_spec _ _ _ me (lk st) Hcpu) as (c1 & E1 & H1).
    rewrite E1, (held_by_crit _ _ _ _ Hinv Hme) in Hnext. injection Hnext as <- <- <-.
    pose proof (li_owner _ _ Hinv _ _ _ Hme eq_refl) as Hl.
    assert (Hh : holder (lk st) = Some me) by (apply Hhold; eauto).
    eapply lock_inv_upd; try done; cbn; auto.
    intros i Hi. split; [done|congruence].
  - destruct (popcli_inv _ _ _ Hcpu ltac:(lia)) as (c1 & E1 & H1).
    rewrite E1 in Hnext. injection Hnext as <- <- <-.
    eapply lock_inv_upd; try done; cbn; auto.
    split; [|done]. intros Hh. by destruct (Hnc ltac:(done)).
  - done.
Qed.

Lemma lock_inv_reach base st st' :
  rtc lock_step st st' → lock_inv base st → lock_inv base st'.
Proof. induction 1; eauto using lock_inv_step. Qed.

(** ** Properties *)

(** C4. Mutual exclusion of the spin lock, over every interleaving of the
    CPUs' exchanges and stores: two CPUs between the exchange that took the
    lock and the store that frees it are the same CPU, the CPU in the critical
    section runs with interrupts disabled, and no CPU reaches one of the
    panics of [acquire], [release] or [popcli]. *)
Theorem spinlock_mutual_exclusion st0 st i j p q c d :
  lock_init st0 → rtc lock_step st0 st →
  cpus st !! i = Some (p, c) → cpus st !! j = Some (q, d) →
  (owns p = true → owns q = true → i = j) ∧
  (owns p = true → fl_if c = false) ∧
  (∀ msg, p ≠ Dead msg).
Proof.
  intros H0 Hreach Hi Hj.
  pose proof (lock_inv_reach _ _ _ Hreach (lock_inv_init _ H0)) as Hinv.
  pose proof (li_cpu _ _ Hinv _ _ _ Hi) as Hcpu.
  split; [|split].
  - by eapply (li_unique _ _ Hinv).
  - intros Hp. destruct p; try done; apply Hcpu; lia.
  - intros msg ->. done.
Qed.

Definition two_cpus : lkstate :=
  LkState (Lk 0 None []) [(Out, Cpu true 0 false); (Out, Cpu true 0 false)].

(** Two CPUs go for the lock; the first one takes it. *)
Definition two_cpus_held : lkstate :=
  LkState (Lk 1 None []) [(Got, Cpu false 1 true); (Spin, Cpu false 1 true)].

Lemma spinlock_mutual_exclusion_witness :
  (owns Got = true → owns Spin = true → 0%nat = 1%nat) ∧
  (owns Got = true → fl_if (Cpu false 1 true) = false) ∧ (∀ msg, Got ≠ Dead msg).
Proof.
  apply (spinlock_mutual_exclusion two_cpus two_cpus_held 0 1 Got Spin
           (Cpu false 1 true) (Cpu false 1 true)).
  - split; [done|]. split; [done|]. intros [|[|i]] p c [= <- <-]; done.
  - eapply rtc_l; [eapply (lock_step_cpu two_cpus 0 Out _ (λ _, 0) 0); reflexivity|].
    eapply rtc_l; [eapply (lock_step_cpu _ 1 Out _ (λ _, 0) 0); reflexivity|].
    eapply rtc_l; [eapply (lock_step_cpu _ 0 Spin _ (λ _, 0) 0); reflexivity|].
    apply rtc_refl.
  - reflexivity.
  - reflexivity.
Defined.

(** [pushcli] and [popcli] nest: from depth 0 with the interrupt flag [b],
    any sequence of calls that never pops more than it pushed runs without a
    panic, keeps interrupts off while the depth is positive, and has restored
    [b] whenever the depth is back to 0. *)
Theorem cli_nesting b e ops d :
  cli_depth 0 ops = Some d →
  ∃ c, run_cli ops (Cpu b 0 e) = Ret tt c ∧ ncli c = d ∧
    fl_if c = if d =? 0 then b else false.
Proof.
  intros Hd. assert (Hi : cli_inv b 0 (Cpu b 0 e)) by (by split; [|split]).
  destruct (run_cli_inv _ _ _ _ _ Hi Hd) as (c & E & Hn & H0 & Hout & Hin).
  exists c. split; [done|split; [done|]].
  destruct (Z.eqb_spec d 0); [by apply Hout|]. apply Hin. lia.
Qed.

Lemma cli_nesting_witness :
  ∃ c, run_cli [Push; Push; Pop; Pop] (Cpu true 0 false) = Ret tt c ∧ ncli c = 0 ∧ fl_if c = true.
Proof. exact (cli_nesting true false [Push; Push; Pop; Pop] 0 eq_refl). Defined.
