(* ===== verification/Kalloc.v ===== *)
(** * The physical page allocator (xv6A1/kalloc.c)

    Free pages form a linked list threaded through the pages themselves: the
    first word of a free page is the address of the next one. The model keeps
    that representation in byte memory; the invariant relates it to a list of
    pages, and the operations refine an allocator that is just that list. *)

From S2P Require Import Prelude Memory KString Spinlock.

Inductive KmemLock : Set := .

(** [kmem], and the memory its list lives in. *)
Record kstate := KState {
  kmem_lock : bool;
  use_lock : bool;
  freelist : Z;
  kmem : mem }.

#[export] Instance kmem_has_lock : HasLock KmemLock kstate.
Proof.
  refine {| lock_held := kmem_lock;
            set_lock b s := KState b (use_lock s) (freelist s) (kmem s) |}; by intros; destruct s.
Defined.

Section Kalloc.

(** [end], the first address after the kernel image, comes from the linker. *)
Context (kend : Z).

Definition kfree (v : Z) : M kstate unit :=
  if negb (v mod PGSIZE =? 0) || (v <? kend) || (PHYSTOP <=? V2P v) then panic "kfree" else
  modify (λ s, KState (kmem_lock s) (use_lock s) (freelist s) (memset (kmem s) v 1 PGSIZE)) ;;;
  ul <- gets use_lock ;;
  when ul do acquire KmemLock ;;;
  modify (λ s, KState (kmem_lock s) (use_lock s) v (store32 (kmem s) v (freelist s))) ;;;
  ul <- gets use_lock ;;
  when ul do release KmemLock.

Definition kalloc : M kstate Z :=
  ul <- gets use_lock ;;
  when ul do acquire KmemLock ;;;
  r <- gets freelist ;;
  when negb (r =? 0) do
    modify (λ s, KState (kmem_lock s) (use_lock s) (load32 (kmem s) r) (kmem s)) ;;;
  ul <- gets use_lock ;;
  when ul do release KmemLock ;;;
  ret r.

Fixpoint freerange_loop (fuel : nat) (p vend : Z) : M kstate unit :=
  if p + PGSIZE <=? vend then
    match fuel with
    | O => fault "out of fuel"
    | S fuel' => kfree p ;;; freerange_loop fuel' (p + PGSIZE) vend
    end
  else ret tt.

(** At most one iteration per page below [vend]. *)
Definition freerange (vstart vend : Z) : M kstate unit :=
  freerange_loop (Z.to_nat (vend / PGSIZE)) (PGROUNDUP (u32 vstart)) vend.

Definition kinit1 (vstart vend : Z) : M kstate unit :=
  modify (set_lock (T := KmemLock) false) ;;;
  modify (λ s, KState (kmem_lock s) false (freelist s) (kmem s)) ;;;
  freerange vstart vend.

Definition kinit2 (vstart vend : Z) : M kstate unit :=
  freerange vstart vend ;;;
  modify (λ s, KState (kmem_lock s) true (freelist s) (kmem s)).

(** ** The representation invariant *)

(** A page that [kfree] accepts. *)
Definition page_ok (v : Z) : Prop :=
  v mod PGSIZE = 0 ∧ kend <= v ∧ V2P v < PHYSTOP ∧ 0 < v < 2^32.

(** The pages on the list that starts at [p]. *)
Fixpoint chain (m : mem) (p : Z) (l : list Z) : Prop :=
  match l with
  | [] => p = 0
  | x :: l' => p = x ∧ chain m (load32 m x) l'
  end.

Record kinv (s : kstate) (l : list Z) : Prop := {
  kinv_chain : chain (kmem s) (freelist s) l;
  kinv_nodup : NoDup l;
  kinv_pages : Forall page_ok l;
  kinv_bytes : byte_mem (kmem s);
  kinv_lock : kmem_lock s = false }.

(** [x] is an address in the page [v]. *)
Definition in_page (v x : Z) : Prop := v <= x < v + PGSIZE.

Lemma chain_ext m m' l : ∀ p,
  (∀ x, x ∈ l → load32 m' x = load32 m x) → chain m p l → chain m' p l.
Proof.
  induction l as [|x l IH]; intros p Hx; cbn; [done|].
  intros [-> Hc]. split; [done|]. rewrite Hx by (by left).
  apply IH; [|done]. intros y Hy. apply Hx. by right.
Qed.

(** Distinct pages do not overlap. *)
Lemma pages_disjoint v w x :
  v mod PGSIZE = 0 → w mod PGSIZE = 0 → v ≠ w → in_page v x → ¬ in_page w x.
Proof. unfold in_page, PGSIZE. intros. Z.div_mod_to_equations. lia. Qed.

(** The word at the start of a page is untouched by writes to another page. *)
Lemma load32_other_page m m' v w :
  v mod PGSIZE = 0 → w mod PGSIZE = 0 → v ≠ w →
  (∀ a, ¬ in_page v a → m' a = m a) → load32 m' w = load32 m w.
Proof.
  intros Hv Hw Hne Hm. apply load32_ext. intros i Hi. apply Hm.
  apply (pages_disjoint w); try done. unfold in_page, PGSIZE. lia.
Qed.

Lemma kfree_spec s l v :
  kinv s l → page_ok v → v ∉ l →
  ∃ s', kfree v s = Ret tt s' ∧ kinv s' (v :: l) ∧ use_lock s' = use_lock s ∧
    ∀ a, ¬ in_page v a → kmem s' a = kmem s a.
Proof.
  intros [Hc Hnd Hp Hb Hl] Hv Hnin. pose proof Hv as (Hal & Hend & Hphys & Hr).
  set (m' := store32 (memset (kmem s) v 1 PGSIZE) v (freelist s)).
  assert (Hout : ∀ a, ¬ in_page v a → m' a = kmem s a).
  { unfold in_page, m', store32. intros a Ha. rewrite memset_lookup. unfold PGSIZE in *. zcases. }
  assert (Hnext : load32 m' v = freelist s).
  { unfold m'. rewrite load32_store32_eq. apply u32_small.
    destruct l as [|x l]; cbn in Hc; [lia|]. destruct Hc as [-> _].
    apply Forall_cons in Hp as [(_ & _ & _ & ?) _]. lia. }
  exists (KState false (use_lock s) v m').
  split; [|split; [split|]]; cbn.
  - unfold kfree, acquire, release. steps.
    destruct (Z.eqb_spec (v mod PGSIZE) 0); [|done].
    destruct (Z.ltb_spec v kend); [lia|]. destruct (Z.leb_spec PHYSTOP (V2P v)); [lia|]. cbn.
    destruct s as [lk ul fl m]. cbn in *. subst lk. by destruct ul.
  - split; [done|]. rewrite Hnext. eapply chain_ext; [|done].
    intros x Hx. rewrite Forall_forall in Hp.
    apply (load32_other_page _ _ v); try done; [by apply (Hp x)|by intros ->].
  - by constructor.
  - by constructor.
  - unfold m'. auto with kernel.
  - done.
  - done.
Qed.

Lemma kalloc_spec s l :
  kinv s l →
  ∃ s', kalloc s = Ret (hd 0 l) s' ∧ kinv s' (tail l) ∧
    use_lock s' = use_lock s ∧ kmem s' = kmem s.
Proof.
  intros [Hc Hnd Hp Hb Hl]. destruct s as [lk ul fl m]. cbn in Hc, Hb, Hl. subst lk.
  exists (KState false ul (if fl =? 0 then 0 else load32 m fl) m).
  assert (Hrun : kalloc (KState false ul fl m) =
    Ret fl (KState false ul (if fl =? 0 then 0 else load32 m fl) m)).
  { unfold kalloc, acquire, release. steps.
    destruct ul, (fl =? 0) eqn:E; cbn; rewrite E; zbool; by subst. }
  rewrite Hrun. destruct l as [|x l]; cbn in Hc |- *.
  - subst fl. split; [done|split; [by split|done]].
  - destruct Hc as [-> Hc]. apply NoDup_cons in Hnd as [Hnin Hnd]. apply Forall_cons in Hp as [Hx Hp].
    destruct (Z.eqb_spec x 0) as [->|]; [destruct Hx; lia|].
    split; [done|split; [by split|done]].
Qed.

(** The [n] pages from [p] up. *)
Fixpoint pages (p : Z) (n : nat) : list Z :=
  match n with O => [] | S n' => p :: pages (p + PGSIZE) n' end.

Lemma elem_of_pages n : ∀ p v, v ∈ pages p n ↔ ∃ i, 0 <= i < Z.of_nat n ∧ v = p + PGSIZE * i.
Proof.
  induction n as [|n IH]; intros p v; cbn [pages].
  { split; [by intros ?%elem_of_nil|]. intros (i & ? & _). lia. }
  rewrite elem_of_cons, IH. split.
  - intros [->|(i & Hi & ->)]; [exists 0; lia|exists (i + 1); lia].
  - intros (i & Hi & ->). destruct (Z.eq_dec i 0) as [->|]; [left; lia|].
    right. exists (i - 1). lia.
Qed.

Lemma freerange_loop_spec n : ∀ fuel p vend s l,
  kinv s l → (n <= fuel)%nat →
  p + PGSIZE * Z.of_nat n <= vend < p + PGSIZE * (Z.of_nat n + 1) →
  (∀ v, v ∈ pages p n → page_ok v ∧ v ∉ l) →
  ∃ s', freerange_loop fuel p vend s = Ret tt s' ∧ kinv s' (rev (pages p n) ++ l) ∧
    use_lock s' = use_lock s.
Proof.
  induction n as [|n IH]; intros fuel p vend s l Hi Hf Hv Hok.
  { exists s. cbn. destruct fuel; cbn [freerange_loop];
      (destruct (Z.leb_spec (p + PGSIZE) vend); [lia|done]). }
  destruct fuel as [|fuel]; [lia|]. cbn [freerange_loop].
  destruct (Z.leb_spec (p + PGSIZE) vend); [|unfold PGSIZE in *; lia].
  destruct (Hok p) as [Hp Hnin]; [by left|].
  destruct (kfree_spec s l p Hi Hp Hnin) as (s1 & E1 & Hi1 & Hul & _).
  destruct (IH fuel (p + PGSIZE) vend s1 (p :: l) Hi1) as (s2 & E2 & Hi2 & Hul2); try lia.
  { intros v Hin. destruct (Hok v) as [Hvok Hvnin]; [by right|]. split; [done|].
    intros [->|?]%elem_of_cons; [|done].
    apply elem_of_pages in Hin as (i & Hi' & Heq). unfold PGSIZE in Heq. lia. }
  exists s2. unfold bind. rewrite E1, E2. split; [done|]. split; [|congruence].
  cbn [pages rev]. by rewrite <- app_assoc.
Qed.

(** ** Refinement of an abstract allocator

    The abstract state is the free list and the set of pages in use. A client
    may free only a page it was given and has not freed since. *)

Inductive kop := KAlloc | KFree (v : Z).

Definition abs_op (op : kop) (st : list Z * gset Z) : option (Z * (list Z * gset Z)) :=
  let '(free, used) := st in
  match op with
  | KAlloc =>
      match free with
      | [] => Some (0, st)
      | v :: free' => Some (v, (free', {[v]} ∪ used))
      end
  | KFree v => if decide (v ∈ used) then Some (0, (v :: free, used ∖ {[v]})) else None
  end.

Definition impl_op (op : kop) : M kstate Z :=
  match op with
  | KAlloc => kalloc
  | KFree v => kfree v ;;; ret 0
  end.

Fixpoint abs_run (ops : list kop) (st : list Z * gset Z) : option (list Z * (list Z * gset Z)) :=
  match ops with
  | [] => Some ([], st)
  | op :: ops' =>
      '(v, st') ← abs_op op st;
      '(vs, st'') ← abs_run ops' st';
      Some (v :: vs, st'')
  end.

Fixpoint impl_run (ops : list kop) : M kstate (list Z) :=
  match ops with
  | [] => ret []
  | op :: ops' => v <- impl_op op ;; vs <- impl_run ops' ;; ret (v :: vs)
  end.

(** The concrete and the abstract state agree: the list in memory is the free
    list, and no page is both free and in use. *)
Definition krel (s : kstate) (st : list Z * gset Z) : Prop :=
  kinv s st.1 ∧ (∀ v, v ∈ st.2 → page_ok v ∧ v ∉ st.1).

Lemma impl_op_refines op s st v st' :
  krel s st → abs_op op st = Some (v, st') →
  ∃ s', impl_op op s = Ret v s' ∧ krel s' st'.
Proof.
  intros [Hi Hu] Hop. destruct st as [free used], op as [|w]; cbn in Hop, Hu.
  - destruct (kalloc_spec s free Hi) as (s' & E & Hi' & _). exists s'. unfold impl_op. rewrite E.
    destruct free as [|x free]; injection Hop as <- <-; (split; [done|]); split; cbn; try done.
    pose proof (kinv_pages _ _ Hi) as Hp. pose proof (kinv_nodup _ _ Hi) as Hnd. cbn in Hp, Hnd.
    apply Forall_cons in Hp as [Hx _]. apply NoDup_cons in Hnd as [Hx' _].
    intros w [->%elem_of_singleton|Hw]%elem_of_union; [done|].
    destruct (Hu w Hw) as [? Hn]. split; [done|]. intros ?. apply Hn. by right.
  - case_decide as Hw; [|done]. injection Hop as <- <-.
    destruct (Hu w Hw) as [Hok Hnin].
    destruct (kfree_spec s free w Hi Hok Hnin) as (s' & E & Hi' & _).
    exists s'. unfold impl_op, bind, ret. rewrite E. split; [done|]. split; [done|]. cbn.
    intros x [Hx Hne]%elem_of_difference. destruct (Hu x Hx) as [? Hn]. split; [done|].
    intros [->|?]%elem_of_cons; [|done]. by apply Hne, elem_of_singleton.
Qed.

Lemma impl_run_refines ops : ∀ s st vs st',
  krel s st → abs_run ops st = Some (vs, st') →
  ∃ s', impl_run ops s = Ret vs s' ∧ krel s' st'.
Proof.
  induction ops as [|op ops IH]; intros s st vs st' Hr Hrun; cbn in Hrun.
  { injection Hrun as <- <-. by exists s. }
  destruct (abs_op op st) as [[v st1]|] eqn:E1; [|done]. cbn in Hrun.
  destruct (abs_run ops st1) as [[vs' st2]|] eqn:E2; [|done]. cbn in Hrun.
  injection Hrun as <- <-.
  destruct (impl_op_refines _ _ _ _ _ Hr E1) as (s1 & R1 & Hr1).
  destruct (IH _ _ _ _ Hr1 E2) as (s2 & R2 & Hr2).
  exists s2. cbn. unfold bind, ret. by rewrite R1, R2.
Qed.

End Kalloc.

(** ** Properties *)

(** C3. The allocator implements its abstract specification: on every sequence
    of [kalloc] and [kfree] calls in which the client frees only pages it
    holds, the code returns the pages the free-list specification returns (0
    exactly when none is left), never panics, keeps its list well formed in
    memory, and no page is ever free and in use at once. *)
Theorem kalloc_refinement kend ops s free used vs free' used' :
  kinv kend s free → (∀ v, v ∈ used → page_ok kend v ∧ v ∉ free) →
  abs_run ops (free, used) = Some (vs, (free', used')) →
  ∃ s', impl_run kend ops s = Ret vs s' ∧ kinv kend s' free' ∧
    ∀ v, v ∈ used' → page_ok kend v ∧ v ∉ free'.
Proof. intros Hi Hu Hrun. exact (impl_run_refines kend ops s (free, used) vs _ (conj Hi Hu) Hrun). Qed.

(** One free page at 0x80400000: allocate it, find none left, free it. *)
Definition one_page : kstate := KState false true 0x80400000 (λ _, 0).

Lemma one_page_inv : kinv 0x80100000 one_page [0x80400000].
Proof.
  split; cbn; try done.
  - apply NoDup_singleton.
  - apply Forall_singleton. done.
Qed.

Lemma kalloc_refinement_witness :
  ∃ s', impl_run 0x80100000 [KAlloc; KAlloc; KFree 0x80400000] one_page = Ret [0x80400000; 0; 0] s' ∧
    kinv 0x80100000 s' [0x80400000] ∧ ∀ v, v ∈ (∅ : gset Z) → page_ok 0x80100000 v ∧ v ∉ [0x80400000].
Proof.
  apply (kalloc_refinement 0x80100000 _ one_page [0x80400000] ∅); [exact one_page_inv|set_solver|].
  vm_compute. reflexivity.
Defined.

(** [freerange] frees every whole page of the range exactly once, in
    address order, whatever alignment its start has. *)
Theorem freerange_frees_range kend s l vstart vend n :
  kinv kend s l → 0 <= vstart < 2^32 - PGSIZE → 0 <= vend →
  PGROUNDUP vstart + PGSIZE * Z.of_nat n <= vend < PGROUNDUP vstart + PGSIZE * (Z.of_nat n + 1) →
  (∀ v, v ∈ pages (PGROUNDUP vstart) n → page_ok kend v ∧ v ∉ l) →
  ∃ s', freerange kend vstart vend s = Ret tt s' ∧
    kinv kend s' (rev (pages (PGROUNDUP vstart) n) ++ l) ∧ use_lock s' = use_lock s.
Proof.
  intros Hi Hs He Hn Hok. unfold freerange. rewrite (u32_small vstart) by (unfold PGSIZE in *; lia).
  apply freerange_loop_spec; try done.
  rewrite PGROUNDUP_eq in Hn by done. unfold PGSIZE in *.
  assert (Z.of_nat n <= vend / 4096) by (Z.div_mod_to_equations; lia). lia.
Qed.

(** The last two pages of physical memory, from an unaligned start. *)
Lemma freerange_frees_range_witness :
  ∃ s', freerange 0x80100000 0x8DFFD123 0x8E000000 (KState false false 0 (λ _, 0)) = Ret tt s' ∧
    kinv 0x80100000 s' (rev (pages (PGROUNDUP 0x8DFFD123) 2) ++ []) ∧ use_lock s' = false.
Proof.
  apply (freerange_frees_range 0x80100000 (KState false false 0 (λ _, 0)) [] 0x8DFFD123 0x8E000000 2).
  - split; cbn; try done. apply NoDup_nil_2.
  - unfold PGSIZE. lia.
  - lia.
  - vm_compute. split; congruence.
  - intros v [i [Hi ->]]%elem_of_pages. split; [|apply not_elem_of_nil].
    assert (i = 0 ∨ i = 1) as [->| ->] by lia; vm_compute; repeat split; congruence.
Defined.
