(* ===== verification/BlockCache.v ===== *)
(** * The block-cache interface

    What the log (log.c) and the file system (fs.c) rely on of the buffer cache
    (bio.c), as a class: the operations, an abstract state, and one law per
    operation. The clients' theorems are proved against this class; Bio.v shows
    that the buffer cache is an instance. *)

From Stdlib Require Import FunctionalExtensionality.
From S2P Require Import Prelude.

Definition NBUF : nat := 30.
Definition BSIZE : Z := 512.
Definition ROOTDEV : Z := 1.

Abbreviation block := (list Z).

(** The abstract state: what a read of each block returns, what the disk holds,
    which blocks are pinned in the cache (dirty), which buffer currently holds
    which block for the caller, and the writes that reached the disk. *)
Record acache := ACache {
  ac_view : Z → block;
  ac_disk : Z → block;
  ac_pinned : gset Z;
  ac_held : gmap nat Z;
  ac_size : Z;
  ac_hist : list (Z * block) }.

(** The blocks whose buffer cannot be reused. *)
Definition ac_busy (a : acache) : gset Z := ac_pinned a ∪ map_img (ac_held a).

Definition put {A} (f : Z → A) (k : Z) (v : A) : Z → A := λ x, if x =? k then v else f x.

Definition ac_hold (b : nat) (bno : Z) (a : acache) : acache :=
  ACache (ac_view a) (ac_disk a) (ac_pinned a) (<[b := bno]> (ac_held a)) (ac_size a) (ac_hist a).
Definition ac_drop (b : nat) (a : acache) : acache :=
  ACache (ac_view a) (ac_disk a) (ac_pinned a) (delete b (ac_held a)) (ac_size a) (ac_hist a).
Definition ac_put (bno : Z) (d : block) (a : acache) : acache :=
  ACache (put (ac_view a) bno d) (ac_disk a) (ac_pinned a) (ac_held a) (ac_size a) (ac_hist a).
Definition ac_pin (bno : Z) (a : acache) : acache :=
  ACache (ac_view a) (ac_disk a) ({[bno]} ∪ ac_pinned a) (ac_held a) (ac_size a) (ac_hist a).
Definition ac_flush (bno : Z) (a : acache) : acache :=
  ACache (ac_view a) (put (ac_disk a) bno (ac_view a bno)) (ac_pinned a ∖ {[bno]}) (ac_held a)
    (ac_size a) (ac_hist a ++ [(bno, ac_view a bno)]).

Class BlockCache (S : Type) := {
  c_bread : Z → Z → M S nat;
  c_bwrite : nat → M S unit;
  c_brelse : nat → M S unit;
  c_blockno : nat → S → Z;
  c_data : nat → S → block;
  c_setdata : nat → block → M S unit;
  c_setdirty : nat → M S unit;
  (** The writes that reached the disk, oldest first. *)
  c_hist : S → list (Z * block);
  c_ok : S → acache → Prop;

  c_hist_ok : ∀ s a, c_ok s a → c_hist s = ac_hist a;

  (** A block not held by the caller can be read when its buffer is pinned or
      some buffer can be reused; the caller then holds a buffer with the
      block's current contents. *)
  c_bread_ok : ∀ s a bno,
    c_ok s a → 0 <= bno < ac_size a → bno ∉@{gset Z} map_img (ac_held a) →
    bno ∈ ac_pinned a ∨ (size (ac_busy a) < NBUF)%nat →
    ∃ b s', c_bread ROOTDEV bno s = Ret b s' ∧ ac_held a !! b = None ∧ c_ok s' (ac_hold b bno a);
  c_held_ok : ∀ s a b bno,
    c_ok s a → ac_held a !! b = Some bno →
    c_blockno b s = bno ∧ c_data b s = ac_view a bno ∧ 0 <= bno < ac_size a;
  (** A held block is held by one buffer, and a block that is neither pinned
      nor held has not been changed since it was read. *)
  c_held_inj : ∀ s a b b' bno,
    c_ok s a → ac_held a !! b = Some bno → ac_held a !! b' = Some bno → b = b';
  c_clean : ∀ s a bno,
    c_ok s a → bno ∉ ac_busy a → ac_view a bno = ac_disk a bno;
  c_setdata_ok : ∀ s a b bno d,
    c_ok s a → ac_held a !! b = Some bno →
    ∃ s', c_setdata b d s = Ret tt s' ∧ c_ok s' (ac_put bno d a);
  c_setdirty_ok : ∀ s a b bno,
    c_ok s a → ac_held a !! b = Some bno →
    ∃ s', c_setdirty b s = Ret tt s' ∧ c_ok s' (ac_pin bno a);
  c_bwrite_ok : ∀ s a b bno,
    c_ok s a → ac_held a !! b = Some bno →
    ∃ s', c_bwrite b s = Ret tt s' ∧ c_ok s' (ac_flush bno a);
  (** A buffer may be released when its changes are pinned or on disk. *)
  c_brelse_ok : ∀ s a b bno,
    c_ok s a → ac_held a !! b = Some bno →
    bno ∈ ac_pinned a ∨ ac_view a bno = ac_disk a bno →
    ∃ s', c_brelse b s = Ret tt s' ∧ c_ok s' (ac_drop b a) }.

(** ** The abstract state *)

Lemma put_eq {A} (f : Z → A) k v : put f k v k = v.
Proof. unfold put. by rewrite Z.eqb_refl. Qed.

Lemma put_ne {A} (f : Z → A) k v x : x ≠ k → put f k v x = f x.
Proof. intros. unfold put. by destruct (Z.eqb_spec x k). Qed.

(** The second of two assignments wins. *)
Lemma put_put {A} (f : Z → A) k v w : put (put f k v) k w = put f k w.
Proof. extensionality x. unfold put. by destruct (x =? k). Qed.

Lemma put_same {A} (f : Z → A) k : put f k (f k) = f.
Proof. extensionality x. unfold put. by destruct (Z.eqb_spec x k) as [->|]. Qed.

Lemma ac_drop_hold a b bno : ac_held a !! b = None → ac_drop b (ac_hold b bno a) = a.
Proof. intros. destruct a. unfold ac_drop, ac_hold. cbn. by rewrite delete_insert_id. Qed.

Lemma ac_busy_hold a b bno k :
  ac_held a !! b = None → k ∉ ac_busy (ac_hold b bno a) → k ∉ ac_busy a.
Proof.
  unfold ac_busy. rewrite !not_elem_of_union. cbn. intros Hb [Hp Hh]. split; [done|].
  rewrite elem_of_map_img in Hh |- *. intros [i Hi]. apply Hh. exists i.
  by rewrite lookup_insert_ne by congruence.
Qed.

Lemma elem_of_held_img (a : acache) bno :
  bno ∈@{gset Z} map_img (ac_held a) ↔ ∃ b, ac_held a !! b = Some bno.
Proof. apply elem_of_map_img. Qed.

(** The state of an empty cache over a disk. *)
Definition boot_cache (md : Z → block) (sz : Z) : acache := ACache md md ∅ ∅ sz [].

Lemma ac_busy_hold_eq a b bno :
  ac_held a !! b = None → ac_busy (ac_hold b bno a) = {[bno]} ∪ ac_busy a.
Proof.
  intros Hb. unfold ac_busy. cbn. rewrite map_img_insert_notin_L by done.
  rewrite !(assoc_L (∪)). by rewrite (comm_L (∪) (ac_pinned a)).
Qed.

Lemma ac_busy_hold_size a b bno :
  ac_held a !! b = None → (size (ac_busy (ac_hold b bno a)) <= S (size (ac_busy a)))%nat.
Proof.
  intros Hb. rewrite ac_busy_hold_eq by done. rewrite size_union_alt, size_singleton.
  apply le_n_S, subseteq_size. apply subseteq_difference_l, (reflexivity _).
Qed.

(** ** The disk as the writes that reached it *)

Definition replay (ws : list (Z * block)) (d : Z → block) : Z → block :=
  foldl (λ d w, put d w.1 w.2) d ws.

Lemma replay_app ws1 ws2 d : replay (ws1 ++ ws2) d = replay ws2 (replay ws1 d).
Proof. apply foldl_app. Qed.

Lemma replay_snoc ws k v d : replay (ws ++ [(k, v)]) d = put (replay ws d) k v.
Proof. by rewrite replay_app. Qed.

(** A block none of the writes is for keeps its contents. *)
Lemma replay_other ws d k : k ∉ ws.*1 → replay ws d k = d k.
Proof.
  revert d. induction ws as [|[k' v] ws IH]; intros d Hk; [done|].
  change (replay ws (put d k' v) k = d k). cbn in Hk.
  apply not_elem_of_cons in Hk as [Hk Hks]. rewrite IH by done. by apply put_ne.
Qed.

(** Writes of different blocks: each block written has what was written. *)
Lemma replay_in ws d k v : NoDup ws.*1 → (k, v) ∈ ws → replay ws d k = v.
Proof.
  revert d. induction ws as [|[k' v'] ws IH]; intros d Hnd Hin; [by apply not_elem_of_nil in Hin|].
  change (replay ws (put d k' v') k = v). cbn in Hnd. apply NoDup_cons in Hnd as [Hk Hnd].
  apply elem_of_cons in Hin as [[= -> ->]|Hin]; [|by apply IH].
  rewrite replay_other by done. apply put_eq.
Qed.
