(* ===== verification/Layout.v ===== *)
(** * The on-disk format (xv6A1/fs.h and the log header of log.c)

    Blocks are lists of [BSIZE] bytes. Reads and writes of the C structures
    that live in a block are reads and writes of little-endian fields at fixed
    offsets; this file has the fields, their codecs and the round trips. *)

From S2P Require Import Prelude Memory BlockCache.

(** ** Bytes of a block *)

Definition gb (d : block) (o : Z) : Z := if o <? 0 then 0 else d !!! Z.to_nat o.

(** [memmove(d + o, bs, n)] inside one block. *)
Definition splice (d : block) (o : Z) (bs : list Z) : block :=
  imap (λ i x, if (o <=? Z.of_nat i) && (Z.of_nat i <? o + Z.of_nat (length bs))
               then gb bs (Z.of_nat i - o) else x) d.

(** [memmove(dst, d + o, n)] out of a block. *)
Definition slice (d : block) (o n : Z) : list Z := take (Z.to_nat n) (drop (Z.to_nat o) d).

Definition get32 (d : block) (o : Z) : Z :=
  gb d o + 2^8 * gb d (o + 1) + 2^16 * gb d (o + 2) + 2^24 * gb d (o + 3).
Definition get16 (d : block) (o : Z) : Z := gb d o + 2^8 * gb d (o + 1).

Definition bytes32 (v : Z) : list Z := [byte_at v 0; byte_at v 1; byte_at v 2; byte_at v 3].
Definition bytes16 (v : Z) : list Z := [byte_at v 0; byte_at v 1].

Definition put32 (d : block) (o v : Z) : block := splice d o (bytes32 v).
Definition put16 (d : block) (o v : Z) : block := splice d o (bytes16 v).

Lemma length_splice d o bs : length (splice d o bs) = length d.
Proof. apply length_imap. Qed.

Lemma length_put32 d o v : length (put32 d o v) = length d.
Proof. apply length_splice. Qed.

Lemma length_put16 d o v : length (put16 d o v) = length d.
Proof. apply length_splice. Qed.

Lemma gb_splice d o bs i :
  0 <= i < Z.of_nat (length d) →
  gb (splice d o bs) i =
    if (o <=? i) && (i <? o + Z.of_nat (length bs)) then gb bs (i - o) else gb d i.
Proof.
  intros Hi. unfold gb at 1 3. destruct (Z.ltb_spec i 0); [lia|].
  destruct (lookup_lt_is_Some_2 d (Z.to_nat i)) as [x Hx]; [lia|].
  assert (E : d !!! Z.to_nat i = x) by (by apply list_lookup_total_correct). rewrite E.
  apply list_lookup_total_correct. unfold splice. rewrite list_lookup_imap, Hx. cbn.
  by rewrite Z2Nat.id by lia.
Qed.

Lemma gb_splice_out d o bs i :
  i < o ∨ o + Z.of_nat (length bs) <= i → gb (splice d o bs) i = gb d i.
Proof.
  intros Ho. destruct (decide (0 <= i < Z.of_nat (length d))) as [Hi|Hi].
  - rewrite gb_splice by done. zcases.
  - unfold gb. destruct (Z.ltb_spec i 0); [done|].
    rewrite !list_lookup_total_alt, !lookup_ge_None_2; [done| |]; rewrite ?length_splice; lia.
Qed.

Lemma gb_splice_in d o bs j :
  0 <= o → 0 <= j < Z.of_nat (length bs) → o + Z.of_nat (length bs) <= Z.of_nat (length d) →
  gb (splice d o bs) (o + j) = gb bs j.
Proof.
  intros. rewrite gb_splice by lia. replace (o + j - o) with j by lia. zcases.
Qed.

Lemma gb_splice_first d o bs :
  0 <= o → bs ≠ [] → o + Z.of_nat (length bs) <= Z.of_nat (length d) →
  gb (splice d o bs) o = gb bs 0.
Proof.
  intros Ho Hbs Hl. rewrite <- (gb_splice_in d o bs 0); [by rewrite Z.add_0_r|done| |done].
  destruct bs; [done|]. cbn. lia.
Qed.

Lemma get32_ext d d' o :
  (∀ i, 0 <= i < 4 → gb d' (o + i) = gb d (o + i)) → get32 d' o = get32 d o.
Proof.
  intros H. unfold get32. pose proof (H 0 ltac:(lia)) as H0. rewrite Z.add_0_r in H0.
  by rewrite H0, (H 1), (H 2), (H 3) by lia.
Qed.

Lemma get16_ext d d' o :
  (∀ i, 0 <= i < 2 → gb d' (o + i) = gb d (o + i)) → get16 d' o = get16 d o.
Proof.
  intros H. unfold get16. pose proof (H 0 ltac:(lia)) as H0. rewrite Z.add_0_r in H0.
  by rewrite H0, (H 1) by lia.
Qed.

Lemma get32_splice_out d o bs a :
  a + 4 <= o ∨ o + Z.of_nat (length bs) <= a → get32 (splice d o bs) a = get32 d a.
Proof. intros. apply get32_ext. intros. apply gb_splice_out. lia. Qed.

Lemma get16_splice_out d o bs a :
  a + 2 <= o ∨ o + Z.of_nat (length bs) <= a → get16 (splice d o bs) a = get16 d a.
Proof. intros. apply get16_ext. intros. apply gb_splice_out. lia. Qed.

Lemma get32_put32_eq d o v :
  0 <= o → o + 4 <= Z.of_nat (length d) → get32 (put32 d o v) o = u32 v.
Proof.
  intros Ho Hl. rewrite <- bytes_of_word. unfold get32, put32.
  by rewrite gb_splice_first, !gb_splice_in by (done || (cbn; lia)).
Qed.

Lemma get16_put16_eq d o v :
  0 <= o → o + 2 <= Z.of_nat (length d) → get16 (put16 d o v) o = u16 v.
Proof.
  intros Ho Hl. unfold get16, put16.
  rewrite gb_splice_first, !gb_splice_in by (done || (cbn; lia)).
  change (gb (bytes16 v) 0) with (byte_at v 0). change (gb (bytes16 v) 1) with (byte_at v 1).
  unfold byte_at, u16. change (2^(8*0)) with 1. change (2^(8*1)) with 256.
  rewrite Z.div_1_r. Z.div_mod_to_equations. lia.
Qed.

Lemma get32_put32_ne d o v a : a + 4 <= o ∨ o + 4 <= a → get32 (put32 d o v) a = get32 d a.
Proof. apply (get32_splice_out d o (bytes32 v)). Qed.

#[export] Hint Rewrite length_splice length_put32 length_put16 : kernel.

(** ** The super block *)

Record superblock := SB {
  sb_size : Z;
  sb_nblocks : Z;
  sb_ninodes : Z;
  sb_nlog : Z;
  sb_logstart : Z;
  sb_inodestart : Z;
  sb_bmapstart : Z }.

(** [memmove(&sb, data, sizeof(sb))]. *)
Definition get_sb (d : block) : superblock :=
  SB (get32 d 0) (get32 d 4) (get32 d 8) (get32 d 12) (get32 d 16) (get32 d 20) (get32 d 24).

Definition sb_bytes (sb : superblock) : list Z :=
  bytes32 (sb_size sb) ++ bytes32 (sb_nblocks sb) ++ bytes32 (sb_ninodes sb) ++
  bytes32 (sb_nlog sb) ++ bytes32 (sb_logstart sb) ++ bytes32 (sb_inodestart sb) ++
  bytes32 (sb_bmapstart sb).

(** ** The log header *)

Definition MAXOPBLOCKS : Z := 10.
Definition LOGSIZE : Z := MAXOPBLOCKS * 3.

(** Field [n] and entry [i] of a [struct logheader] at the start of a block. *)
Definition lh_get_n (d : block) : Z := s32 (get32 d 0).
Definition lh_get_block (d : block) (i : Z) : Z := s32 (get32 d (4 + 4 * i)).
Definition lh_put_n (n : Z) (d : block) : block := put32 d 0 n.
Definition lh_put_block (i v : Z) (d : block) : block := put32 d (4 + 4 * i) v.

Lemma lh_put_n_get n d : (4 <= length d)%nat → 0 <= n < 2^31 → lh_get_n (lh_put_n n d) = n.
Proof.
  intros. unfold lh_get_n, lh_put_n. rewrite get32_put32_eq by lia.
  rewrite u32_small by lia. by apply s32_small.
Qed.

Lemma lh_put_block_n i v d : 0 <= i → lh_get_n (lh_put_block i v d) = lh_get_n d.
Proof. intros. unfold lh_get_n, lh_put_block. by rewrite get32_put32_ne by lia. Qed.

Lemma lh_put_n_block n d i : 0 <= i → lh_get_block (lh_put_n n d) i = lh_get_block d i.
Proof. intros. unfold lh_get_block, lh_put_n. by rewrite get32_put32_ne by lia. Qed.

Lemma lh_put_block_eq i v d :
  0 <= i → 8 + 4 * i <= Z.of_nat (length d) → 0 <= v < 2^31 →
  lh_get_block (lh_put_block i v d) i = v.
Proof.
  intros. unfold lh_get_block, lh_put_block. rewrite get32_put32_eq by lia.
  rewrite u32_small by lia. by apply s32_small.
Qed.

Lemma lh_put_block_ne i j v d :
  0 <= i → 0 <= j → i ≠ j → lh_get_block (lh_put_block i v d) j = lh_get_block d j.
Proof. intros. unfold lh_get_block, lh_put_block. by rewrite get32_put32_ne by lia. Qed.

(** The whole header as [write_head] lays it down over the old block. *)
Fixpoint lh_put_from (i : Z) (bs : list Z) (d : block) : block :=
  match bs with
  | [] => d
  | b :: bs' => lh_put_from (i + 1) bs' (lh_put_block i b d)
  end.

Definition lh_encode (bs : list Z) (d : block) : block :=
  lh_put_from 0 bs (lh_put_n (Z.of_nat (length bs)) d).

Definition lh_decode (d : block) : list Z :=
  map (λ i, lh_get_block d (Z.of_nat i)) (seq 0 (Z.to_nat (lh_get_n d))).

Lemma lh_put_from_length bs : ∀ i d, length (lh_put_from i bs d) = length d.
Proof.
  induction bs as [|b bs IH]; intros; [done|]. cbn. by rewrite IH; unfold lh_put_block; rewrite length_put32.
Qed.

Lemma lh_put_from_n bs : ∀ i d, 0 <= i → lh_get_n (lh_put_from i bs d) = lh_get_n d.
Proof.
  induction bs as [|b bs IH]; intros i d Hi; [done|]. cbn. rewrite IH by lia. by apply lh_put_block_n.
Qed.

Lemma lh_put_from_lt bs : ∀ i d j,
  0 <= j < i → lh_get_block (lh_put_from i bs d) j = lh_get_block d j.
Proof.
  induction bs as [|b bs IH]; intros i d j Hj; [done|]. cbn.
  rewrite IH by lia. apply lh_put_block_ne; lia.
Qed.

Lemma lh_put_from_get bs : ∀ i d k b,
  0 <= i → bs !! k = Some b → 0 <= b < 2^31 →
  4 + 4 * (i + Z.of_nat (length bs)) <= Z.of_nat (length d) →
  lh_get_block (lh_put_from i bs d) (i + Z.of_nat k) = b.
Proof.
  induction bs as [|b0 bs IH]; intros i d k b Hi Hk Hb Hl; [done|]. cbn [lh_put_from].
  cbn [length] in Hl. destruct k as [|k]; cbn in Hk.
  - injection Hk as ->. rewrite Z.add_0_r, lh_put_from_lt by lia. apply lh_put_block_eq; lia.
  - replace (i + Z.of_nat (Datatypes.S k)) with (i + 1 + Z.of_nat k) by lia.
    apply IH; try done; [lia|]. unfold lh_put_block. rewrite length_put32. lia.
Qed.

Lemma length_lh_encode bs d : length (lh_encode bs d) = length d.
Proof. unfold lh_encode, lh_put_n. by rewrite lh_put_from_length, length_put32. Qed.

Lemma lh_encode_n bs d :
  length d = 512%nat → (length bs <= 127)%nat →
  lh_get_n (lh_encode bs d) = Z.of_nat (length bs).
Proof.
  intros. unfold lh_encode. rewrite lh_put_from_n by lia. apply lh_put_n_get; lia.
Qed.

(** Reading back a header that was written gives the same block numbers. *)
Lemma lh_decode_encode bs d :
  length d = 512%nat → (length bs <= 127)%nat → Forall (λ b, 0 <= b < 2^31) bs →
  lh_decode (lh_encode bs d) = bs.
Proof.
  intros Hd Hl Hb. unfold lh_decode. rewrite lh_encode_n, Nat2Z.id by done.
  apply list_eq. intros k. rewrite list_lookup_fmap.
  destruct (bs !! k) as [b|] eqn:E.
  - pose proof (lookup_lt_Some _ _ _ E). rewrite lookup_seq_lt by lia. cbn [fmap option_fmap option_map].
    f_equal. apply (lh_put_from_get bs 0); [lia|done| |].
    + by apply (Forall_lookup_1 _ _ _ _ Hb E).
    + unfold lh_put_n. rewrite length_put32. lia.
  - apply lookup_ge_None in E. rewrite lookup_seq_ge by lia. done.
Qed.
