(* ===== verification/Bio.v ===== *)
(** * The buffer cache (xv6A1/bio.c) over the memory disk (xv6A1/memide.c)

    Buffers live in an array; index [NBUF] is the list head. The MRU list is
    doubly linked through the [prev] and [next] fields, as in the code. The
    disk driver is the in-memory one of memide.c; every block it writes is also
    appended to a history, which is what a crash cuts short.

    The file ends with the proof that this cache has the interface of
    BlockCache.v, which the log and the file system are verified against. *)

From S2P Require Import Prelude Memory KString Spinlock BlockCache.

Definition B_VALID : Z := 2.
Definition B_DIRTY : Z := 4.

(** [struct buf]; [qnext] is only used by the IDE driver. *)
Record buf := Buf {
  b_flags : Z;
  b_dev : Z;
  b_blockno : Z;
  b_lock : sleeplock;
  b_refcnt : Z;
  b_prev : nat;
  b_next : nat;
  b_data : block }.

#[export] Instance buf_inhabited : Inhabited buf :=
  populate (Buf 0 0 0 initsleeplock 0 0%nat 0%nat []).

Inductive BcacheLock : Set := .

(** [bcache], the memory disk, and the pid of the running process. *)
Record bstate := BState {
  bcache_lock : bool;
  bufs : list buf;
  memdisk : Z → block;
  disksize : Z;
  hist : list (Z * block);
  curpid : Z }.

#[export] Instance bcache_has_lock : HasLock BcacheLock bstate.
Proof.
  refine {| lock_held := bcache_lock;
            set_lock b s := BState b (bufs s) (memdisk s) (disksize s) (hist s) (curpid s) |};
    by intros; destruct s.
Defined.

(** Index of [&bcache.head]. *)
Definition head : nat := NBUF.

Lemma head_eq : head = NBUF.
Proof. reflexivity. Qed.
#[global] Opaque head.

Definition set_bufs (f : list buf → list buf) (s : bstate) : bstate :=
  BState (bcache_lock s) (f (bufs s)) (memdisk s) (disksize s) (hist s) (curpid s).

(** Assignments to one field of one buffer. *)
Definition set_flags (v : Z) (b : buf) : buf :=
  Buf v (b_dev b) (b_blockno b) (b_lock b) (b_refcnt b) (b_prev b) (b_next b) (b_data b).
Definition set_id (dev bno : Z) (b : buf) : buf :=
  Buf (b_flags b) dev bno (b_lock b) (b_refcnt b) (b_prev b) (b_next b) (b_data b).
Definition set_slock (l : sleeplock) (b : buf) : buf :=
  Buf (b_flags b) (b_dev b) (b_blockno b) l (b_refcnt b) (b_prev b) (b_next b) (b_data b).
Definition set_refcnt (v : Z) (b : buf) : buf :=
  Buf (b_flags b) (b_dev b) (b_blockno b) (b_lock b) v (b_prev b) (b_next b) (b_data b).
Definition set_prev (v : nat) (b : buf) : buf :=
  Buf (b_flags b) (b_dev b) (b_blockno b) (b_lock b) (b_refcnt b) v (b_next b) (b_data b).
Definition set_next (v : nat) (b : buf) : buf :=
  Buf (b_flags b) (b_dev b) (b_blockno b) (b_lock b) (b_refcnt b) (b_prev b) v (b_data b).
Definition set_data (v : block) (b : buf) : buf :=
  Buf (b_flags b) (b_dev b) (b_blockno b) (b_lock b) (b_refcnt b) (b_prev b) (b_next b) v.

Definition upd (i : nat) (f : buf → buf) : M bstate unit := modify (set_bufs (alter f i)).
Definition the (i : nat) : M bstate buf := gets (λ s, bufs s !!! i).

Definition binit_one (b : nat) : M bstate unit :=
  h <- the head ;;
  upd b (set_next (b_next h)) ;;;
  upd b (set_prev head) ;;;
  upd b (set_slock initsleeplock) ;;;
  h <- the head ;;
  upd (b_next h) (set_prev b) ;;;
  upd head (set_next b).

Definition binit : M bstate unit :=
  modify (set_lock (T := BcacheLock) false) ;;;
  upd head (set_prev head) ;;;
  upd head (set_next head) ;;;
  for_all (seq 0 NBUF) binit_one.

(** Take the sleep lock of buffer [b], or sleep on it. *)
Definition lock_buf (b : nat) : M bstate unit :=
  bf <- the b ;;
  pid <- gets curpid ;;
  match acquiresleep (ChLock b) pid (b_lock bf) with
  | Ret _ l => upd b (set_slock l)
  | Sleep ch _ => sleep_on ch
  | Panic e => panic e
  | Fault e => fault e
  end.

(** Follow pointers from [b] until the head or a buffer that passes [P]. *)
Fixpoint walk (fuel : nat) (ptr : nat → nat) (P : nat → bool) (b : nat) : option nat :=
  match fuel with
  | O => None
  | S fuel' =>
      if decide (b = head) then None
      else if P b then Some b
      else walk fuel' ptr P (ptr b)
  end.

(** The two scans of [bget]: from the most recently used buffer along [next],
    and from the least recently used one along [prev]. A ring of [NBUF]
    buffers is left after at most [NBUF + 1] steps. *)
Definition scan_cached (bs : list buf) (dev blockno : Z) : option nat :=
  walk (S NBUF) (λ b, b_next (bs !!! b))
    (λ b, (b_dev (bs !!! b) =? dev) && (b_blockno (bs !!! b) =? blockno))
    (b_next (bs !!! head)).

Definition scan_unused (bs : list buf) : option nat :=
  walk (S NBUF) (λ b, b_prev (bs !!! b))
    (λ b, (b_refcnt (bs !!! b) =? 0) && (Z.land (b_flags (bs !!! b)) B_DIRTY =? 0))
    (b_prev (bs !!! head)).

Definition bget (dev blockno : Z) : M bstate nat :=
  acquire BcacheLock ;;;
  bs <- gets bufs ;;
  match scan_cached bs dev blockno with
  | Some b =>
      upd b (λ bf, set_refcnt (u32 (b_refcnt bf + 1)) bf) ;;;
      release BcacheLock ;;;
      lock_buf b ;;;
      ret b
  | None =>
      match scan_unused bs with
      | Some b =>
          upd b (set_id dev blockno) ;;;
          upd b (set_flags 0) ;;;
          upd b (set_refcnt 1) ;;;
          release BcacheLock ;;;
          lock_buf b ;;;
          ret b
      | None => panic "bget: no buffers"
      end
  end.

(** memide.c *)
Definition iderw (b : nat) : M bstate unit :=
  bf <- the b ;;
  pid <- gets curpid ;;
  size <- gets disksize ;;
  if negb (holdingsleep pid (b_lock bf)) then panic "iderw: buf not locked" else
  if Z.land (b_flags bf) (Z.lor B_VALID B_DIRTY) =? B_VALID then panic "iderw: nothing to do" else
  if negb (b_dev bf =? 1) then panic "iderw: request not for disk 1" else
  if size <=? b_blockno bf then panic "iderw: block out of range" else
  (if negb (Z.land (b_flags bf) B_DIRTY =? 0) then
     upd b (λ bf, set_flags (Z.land (b_flags bf) (Z.lnot B_DIRTY)) bf) ;;;
     modify (λ s, BState (bcache_lock s) (bufs s)
       (λ k, if k =? b_blockno bf then b_data bf else memdisk s k) (disksize s)
       (hist s ++ [(b_blockno bf, b_data bf)]) (curpid s))
   else
     d <- gets (λ s, memdisk s (b_blockno bf)) ;;
     upd b (set_data d)) ;;;
  upd b (λ bf, set_flags (Z.lor (b_flags bf) B_VALID) bf).

(** The image linked into the kernel, of [imgsize] bytes, is the disk. *)
Definition ideinit (img : Z → block) (imgsize : Z) : M bstate unit :=
  modify (λ s, BState (bcache_lock s) (bufs s) img (u32 imgsize / BSIZE) (hist s) (curpid s)).

Definition bread (dev blockno : Z) : M bstate nat :=
  b <- bget dev blockno ;;
  bf <- the b ;;
  when Z.land (b_flags bf) B_VALID =? 0 do iderw b ;;;
  ret b.

Definition bwrite (b : nat) : M bstate unit :=
  bf <- the b ;;
  pid <- gets curpid ;;
  if negb (holdingsleep pid (b_lock bf)) then panic "bwrite" else
  upd b (λ bf, set_flags (Z.lor (b_flags bf) B_DIRTY) bf) ;;;
  iderw b.

Definition brelse (b : nat) : M bstate unit :=
  bf <- the b ;;
  pid <- gets curpid ;;
  if negb (holdingsleep pid (b_lock bf)) then panic "brelse" else
  upd b (λ bf, set_slock (releasesleep (b_lock bf)) bf) ;;;
  acquire BcacheLock ;;;
  upd b (λ bf, set_refcnt (u32 (b_refcnt bf - 1)) bf) ;;;
  bf <- the b ;;
  (if b_refcnt bf =? 0 then
     upd (b_next bf) (set_prev (b_prev bf)) ;;;
     bf <- the b ;;
     upd (b_prev bf) (set_next (b_next bf)) ;;;
     h <- the head ;;
     upd b (set_next (b_next h)) ;;;
     upd b (set_prev head) ;;;
     h <- the head ;;
     upd (b_next h) (set_prev b) ;;;
     upd head (set_next b)
   else ret tt) ;;;
  release BcacheLock.

(** ** Circular doubly linked lists

    The list is read off two pointer maps: [links nx pv xs] says that each
    element of [xs] points to the next one and back. *)

Definition fupd {A} (f : nat → A) (i : nat) (v : A) : nat → A :=
  λ j, if decide (j = i) then v else f j.

Lemma fupd_eq {A} (f : nat → A) i v : fupd f i v i = v.
Proof. unfold fupd. by rewrite decide_True. Qed.

Lemma fupd_ne {A} (f : nat → A) i j v : j ≠ i → fupd f i v j = f j.
Proof. intros. unfold fupd. by rewrite decide_False. Qed.

Fixpoint links (nx pv : nat → nat) (xs : list nat) : Prop :=
  match xs with
  | x :: (y :: _) as ys => nx x = y ∧ pv y = x ∧ links nx pv ys
  | _ => True
  end.

(** The ring through the list head. *)
Definition dll (nx pv : nat → nat) (l : list nat) : Prop := links nx pv (head :: l ++ [head]).

Lemma links_cons nx pv x y ys :
  links nx pv (x :: y :: ys) ↔ nx x = y ∧ pv y = x ∧ links nx pv (y :: ys).
Proof. done. Qed.

Lemma links_app nx pv x ys : ∀ xs,
  links nx pv (xs ++ x :: ys) ↔ links nx pv (xs ++ [x]) ∧ links nx pv (x :: ys).
Proof.
  induction xs as [|z xs IH]; [cbn; tauto|].
  destruct xs as [|w xs]; cbn [app] in *.
  - rewrite !links_cons. cbn. tauto.
  - rewrite !links_cons, IH. tauto.
Qed.

Lemma links_ext nx pv nx' pv' xs : ∀ x,
  (∀ z, z ∈ removelast (x :: xs) → nx' z = nx z) → (∀ z, z ∈ xs → pv' z = pv z) →
  links nx pv (x :: xs) → links nx' pv' (x :: xs).
Proof.
  induction xs as [|y xs IH]; intros x Hn Hp; [done|].
  rewrite !links_cons. intros (H1 & H2 & H3).
  rewrite Hn by (cbn; by left). rewrite Hp by (by left).
  split; [done|split; [done|]]. apply IH; [|set_solver|done].
  intros z Hz. apply Hn. change (removelast (x :: y :: xs)) with (x :: removelast (y :: xs)).
  by right.
Qed.

Lemma NoDup_snoc {A} (l : list A) x : NoDup l → x ∉ l → NoDup (l ++ [x]).
Proof.
  intros Hl Hx. apply NoDup_app. split; [done|]. split; [|apply NoDup_singleton].
  intros y Hy ->%list_elem_of_singleton. done.
Qed.

Lemma removelast_snoc {A} (xs : list A) x : removelast (xs ++ [x]) = xs.
Proof. apply removelast_last. Qed.

(** The successor of [head] and of any element of the list. *)
Lemma dll_first nx pv l : dll nx pv l → nx head = hd head l.
Proof. unfold dll. destruct l; cbn; tauto. Qed.

Lemma dll_remove nx pv l1 b l2 :
  NoDup (l1 ++ b :: l2) → head ∉ l1 ++ b :: l2 → dll nx pv (l1 ++ b :: l2) →
  nx b ≠ b ∧ pv b ≠ b ∧ dll (fupd nx (pv b) (nx b)) (fupd pv (nx b) (pv b)) (l1 ++ l2).
Proof.
  intros Hnd Hh Hd. unfold dll in *.
  assert (Hex : ∃ A p, head :: l1 = A ++ [p]).
  { destruct (exists_last (l := head :: l1) ltac:(done)) as (A & p & E). eauto. }
  destruct Hex as (A & p & EA).
  assert (Hex : ∃ n B, l2 ++ [head] = n :: B).
  { destruct l2 as [|n l2]; cbn; eauto. }
  destruct Hex as (n & B & EB).
  replace (head :: (l1 ++ b :: l2) ++ [head]) with (A ++ p :: b :: n :: B) in Hd.
  2:{ transitivity ((head :: l1) ++ b :: (l2 ++ [head])); [|by rewrite <- app_assoc].
      by rewrite EA, EB, <- app_assoc. }
  apply links_app in Hd as [HA Hd]. rewrite !links_cons in Hd.
  destruct Hd as (Hpb & Hbp & Hbn & Hnb & HB). rewrite Hbp, Hbn.
  apply NoDup_app in Hnd as (Hnd1 & Hdis & Hnd2). apply NoDup_cons in Hnd2 as [Hb2 Hnd2].
  apply not_elem_of_app in Hh as [Hh1 Hh2]. apply not_elem_of_cons in Hh2 as [Hbh Hh2].
  assert (Hp : p ∈ head :: l1) by (rewrite EA; apply elem_of_app; right; by left).
  assert (Hn : n ∈ l2 ++ [head]) by (rewrite EB; by left).
  assert (HAp : NoDup (A ++ [p])) by (rewrite <- EA; by constructor).
  assert (HnB : NoDup (n :: B)) by (rewrite <- EB; by apply NoDup_snoc).
  apply NoDup_app in HAp as (HndA & HApd & _). apply NoDup_cons in HnB as [HnB HndB].
  split; [|split].
  - intros ->. apply elem_of_app in Hn as [?| ->%list_elem_of_singleton]; done.
  - intros ->. apply elem_of_cons in Hp as [->|Hp]; [done|]. by apply (Hdis b Hp); left.
  - replace (head :: (l1 ++ l2) ++ [head]) with (A ++ p :: n :: B).
    2:{ transitivity ((head :: l1) ++ (l2 ++ [head])); [|by rewrite <- app_assoc].
        by rewrite EA, EB, <- app_assoc. }
    apply links_app. split; [|rewrite links_cons; split; [|split]].
    + destruct A as [|a A]; [done|]. cbn [app] in EA |- *. injection EA as <- EA.
      eapply links_ext; [| |exact HA].
      * intros z Hz. rewrite app_comm_cons, removelast_snoc in Hz. apply fupd_ne.
        intros ->. by apply (HApd p Hz), list_elem_of_singleton.
      * intros z Hz. rewrite <- EA in Hz. apply fupd_ne. intros ->.
        apply elem_of_app in Hn as [Hn| ->%list_elem_of_singleton]; [|done].
        by apply (Hdis n Hz); right.
    + apply fupd_eq.
    + apply fupd_eq.
    + eapply links_ext; [| |exact HB].
      * intros z Hz. apply fupd_ne. intros ->. rewrite <- EB, removelast_snoc in Hz.
        apply elem_of_cons in Hp as [->|Hp]; [done|]. by apply (Hdis p Hp); right.
      * intros z Hz. apply fupd_ne. by intros ->.
Qed.

Lemma dll_push nx pv l b :
  NoDup l → head ∉ l → b ∉ l → b ≠ head → dll nx pv l →
  dll (fupd (fupd nx b (nx head)) head b)
      (fupd (fupd pv b head) (nx head) b) (b :: l).
Proof.
  intros Hnd Hh Hb Hbh Hd. pose proof (dll_first _ _ _ Hd) as Hf. unfold dll in *.
  assert (HR : ∃ f R, l ++ [head] = f :: R) by (destruct l; cbn; eauto).
  destruct HR as (f & R & ER). cbn [app]. rewrite ER in *.
  assert (Hff : hd head l = f) by (destruct l; by injection ER).
  rewrite Hff in Hf. rewrite Hf.
  rewrite links_cons in Hd. destruct Hd as (_ & Hpf & HR).
  assert (HfR : NoDup (f :: R)) by (rewrite <- ER; by apply NoDup_snoc).
  apply NoDup_cons in HfR as [HfR _].
  assert (Hin : ∀ z, z ∈ f :: R → z ≠ b).
  { intros z Hz ->. rewrite <- ER in Hz.
    by apply elem_of_app in Hz as [?| ?%list_elem_of_singleton]. }
  rewrite !links_cons.
  split; [by rewrite fupd_eq|]. split.
  { rewrite fupd_ne by (intros ->; by apply (Hin f); [left|]). by rewrite fupd_eq. }
  split; [by rewrite fupd_ne, fupd_eq|]. split; [by rewrite fupd_eq|].
  eapply links_ext; [| |exact HR].
  - intros z Hz. rewrite <- ER, removelast_snoc in Hz.
    rewrite !fupd_ne; [done| |]; by intros ->.
  - intros z Hz. rewrite !fupd_ne; [done| |]; [|by intros ->].
    apply Hin. by right.
Qed.

Lemma links_rev nx pv xs : links nx pv xs → links pv nx (rev xs).
Proof.
  induction xs as [|x xs IH]; [done|]. destruct xs as [|y xs]; [done|].
  rewrite links_cons. intros (H1 & H2 & H3). cbn [rev] in *.
  rewrite <- app_assoc. apply links_app. split; [by apply IH|]. done.
Qed.

Lemma walk_find nx pv P l : ∀ fuel,
  head ∉ l → links nx pv (l ++ [head]) → (length l < fuel)%nat →
  walk fuel nx P (hd head l) = List.find P l.
Proof.
  induction l as [|x l IH]; intros fuel Hh Hl Hf; (destruct fuel as [|fuel]; [cbn in Hf; lia|]); cbn.
  - by rewrite decide_True.
  - apply not_elem_of_cons in Hh as [Hx Hh]. rewrite decide_False by done.
    destruct (P x); [done|].
    assert (Hn : nx x = hd head l).
    { destruct l; cbn in Hl; tauto. }
    rewrite Hn. apply IH; [done| |cbn in Hf; lia].
    destruct l; cbn in Hl |- *; tauto.
Qed.

(** ** Pointer fields of the buffer array *)

Definition nx (bs : list buf) (i : nat) : nat := b_next (bs !!! i).
Definition pv (bs : list buf) (i : nat) : nat := b_prev (bs !!! i).

(** [bs] is a ring through all the buffers. *)
Definition ring (bs : list buf) (l : list nat) : Prop :=
  l ≡ₚ seq 0 NBUF ∧ dll (nx bs) (pv bs) l.

Lemma ring_elem bs l i : ring bs l → i ∈ l ↔ (i < NBUF)%nat.
Proof. intros [Hp _]. rewrite Hp, elem_of_seq. lia. Qed.

Lemma ring_nodup bs l : ring bs l → NoDup l.
Proof. intros [Hp _]. rewrite Hp. apply NoDup_seq. Qed.

Lemma ring_head bs l : ring bs l → head ∉ l.
Proof. intros Hr. rewrite (ring_elem _ _ _ Hr), head_eq. lia. Qed.

Lemma ring_length bs l : ring bs l → length l = NBUF.
Proof. intros [Hp _]. by rewrite Hp, length_seq. Qed.

Lemma scan_cached_find bs l dev bno :
  ring bs l →
  scan_cached bs dev bno =
    List.find (λ b, (b_dev (bs !!! b) =? dev) && (b_blockno (bs !!! b) =? bno)) l.
Proof.
  intros Hr. unfold scan_cached. change (λ b, b_next (bs !!! b)) with (nx bs).
  change (b_next (bs !!! head)) with (nx bs head).
  rewrite (dll_first (nx bs) (pv bs) l) by apply Hr. apply (walk_find _ (pv bs)).
  - by eapply ring_head.
  - destruct Hr as [_ Hd]. unfold dll in Hd.
    destruct l as [|x l]; [done|]. cbn [app] in Hd |- *. by apply links_cons in Hd as (_ & _ & ?).
  - rewrite (ring_length _ _ Hr). lia.
Qed.

Lemma dll_rev nx pv l : dll nx pv l → dll pv nx (rev l).
Proof.
  unfold dll. intros H%links_rev. rewrite app_comm_cons, rev_app_distr in H. exact H.
Qed.

Lemma scan_unused_find bs l :
  ring bs l →
  scan_unused bs =
    List.find (λ b, (b_refcnt (bs !!! b) =? 0) && (Z.land (b_flags (bs !!! b)) B_DIRTY =? 0)) (rev l).
Proof.
  intros Hr. unfold scan_unused. change (λ b, b_prev (bs !!! b)) with (pv bs).
  change (b_prev (bs !!! head)) with (pv bs head).
  pose proof (dll_rev _ _ _ (proj2 Hr)) as Hd.
  rewrite (dll_first _ _ _ Hd). apply (walk_find _ (nx bs)).
  - rewrite list_elem_of_In, <- in_rev, <- list_elem_of_In. by eapply ring_head.
  - unfold dll in Hd. destruct (rev l) as [|x l']; [done|]. cbn [app] in Hd |- *.
    by apply links_cons in Hd as (_ & _ & ?).
  - rewrite length_rev, (ring_length _ _ Hr). lia.
Qed.

(** An update that keeps the pointers keeps the ring. *)
Lemma ring_alter bs l F i :
  (∀ x, b_next (F x) = b_next x) → (∀ x, b_prev (F x) = b_prev x) →
  ring bs l → ring (alter F i bs) l.
Proof.
  intros Hn Hp [Hl Hd]. split; [done|].
  assert (∀ f : buf → nat, (∀ x, f (F x) = f x) → ∀ z, f (alter F i bs !!! z) = f (bs !!! z)) as Hf.
  { intros f Hf z. rewrite list_lookup_total_alter. case_decide as E; [|done]. destruct E as [-> _]. apply Hf. }
  eapply links_ext; [| |exact Hd]; intros z _; unfold nx, pv; by apply Hf.
Qed.

(** ** The abstraction relation *)

(** Buffer [i] is in the state the abstract cache says: held by the caller
    (locked, one reference) or idle; its contents, when valid, are what the
    block reads as; a dirty buffer's block is pinned. *)
Record buf_ok (pid : Z) (a : acache) (i : nat) (b : buf) : Prop := {
  bo_dev : b_dev b = 0 ∨ b_dev b = 1;
  bo_flags : b_flags b = 0 ∨ b_flags b = 2 ∨ b_flags b = 6;
  bo_held :
    match ac_held a !! i with
    | Some bno => b_dev b = 1 ∧ b_blockno b = bno ∧ b_flags b ≠ 0 ∧
        b_lock b = SLk true pid ∧ b_refcnt b = 1
    | None => sl_locked (b_lock b) = false ∧ b_refcnt b = 0
    end;
  bo_valid : b_flags b ≠ 0 →
    b_dev b = 1 ∧ 0 <= b_blockno b < ac_size a ∧ b_data b = ac_view a (b_blockno b);
  bo_dirty : b_flags b = 6 → b_blockno b ∈ ac_pinned a }.

(** Buffer [i] caches block [bno] of the disk. *)
Definition caches (bs : list buf) (i : nat) (bno : Z) : Prop :=
  (i < NBUF)%nat ∧ b_dev (bs !!! i) = 1 ∧ b_blockno (bs !!! i) = bno.

Record cache_ok (s : bstate) (a : acache) : Prop := {
  co_len : length (bufs s) = S NBUF;
  co_lock : bcache_lock s = false;
  co_ring : ∃ l, ring (bufs s) l;
  co_buf : ∀ i, (i < NBUF)%nat → buf_ok (curpid s) a i (bufs s !!! i);
  co_heldlt : ∀ i bno, ac_held a !! i = Some bno → (i < NBUF)%nat;
  co_uniq : ∀ i j bno, caches (bufs s) i bno → caches (bufs s) j bno → i = j;
  co_pin : ∀ bno, bno ∈ ac_pinned a → ∃ i, caches (bufs s) i bno ∧ b_flags (bufs s !!! i) = 6;
  co_clean : ∀ bno, bno ∉ ac_busy a → ac_view a bno = ac_disk a bno;
  co_disk : ∀ k, memdisk s k = ac_disk a k;
  co_size : disksize s = ac_size a;
  co_hist : hist s = ac_hist a }.

Lemma held_caches s a b bno :
  cache_ok s a → ac_held a !! b = Some bno → caches (bufs s) b bno.
Proof.
  intros H Hb. pose proof (co_heldlt _ _ H _ _ Hb) as Hlt.
  pose proof (bo_held _ _ _ _ (co_buf _ _ H b Hlt)) as Ho. rewrite Hb in Ho.
  split; [done|]. tauto.
Qed.

(** One buffer is replaced by a new version with the same list pointers. *)
Lemma cache_ok_upd s a s' a' b F :
  cache_ok s a → (b < NBUF)%nat →
  bufs s' = alter F b (bufs s) → bcache_lock s' = false → curpid s' = curpid s →
  (∀ x, b_next (F x) = b_next x) → (∀ x, b_prev (F x) = b_prev x) →
  (∀ bno, b_dev (F (bufs s !!! b)) = 1 → b_blockno (F (bufs s !!! b)) = bno →
     ∀ j, j ≠ b → ¬ caches (bufs s) j bno) →
  buf_ok (curpid s) a' b (F (bufs s !!! b)) →
  (∀ i, (i < NBUF)%nat → i ≠ b → buf_ok (curpid s) a i (bufs s !!! i) →
     buf_ok (curpid s) a' i (bufs s !!! i)) →
  (∀ i bno, ac_held a' !! i = Some bno → (i < NBUF)%nat) →
  (∀ bno, bno ∈ ac_pinned a' →
     (∃ i, i ≠ b ∧ caches (bufs s) i bno ∧ b_flags (bufs s !!! i) = 6) ∨
     b_dev (F (bufs s !!! b)) = 1 ∧ b_blockno (F (bufs s !!! b)) = bno ∧
       b_flags (F (bufs s !!! b)) = 6) →
  (∀ bno, bno ∉ ac_busy a' → ac_view a' bno = ac_disk a' bno) →
  (∀ k, memdisk s' k = ac_disk a' k) → disksize s' = ac_size a' → hist s' = ac_hist a' →
  cache_ok s' a'.
Proof.
  intros H Hb Hbufs Hlk Hpid Hn Hp Huniq Hnew Hold Hhl Hpin Hcl Hdk Hsz Hh.
  pose proof (co_len _ _ H) as Hlen.
  assert (Hlt : (b < length (bufs s))%nat) by lia.
  assert (Heq : alter F b (bufs s) !!! b = F (bufs s !!! b)).
  { rewrite list_lookup_total_alter. by rewrite decide_True by lia. }
  assert (Hne : ∀ i, i ≠ b → alter F b (bufs s) !!! i = bufs s !!! i).
  { intros i Hi. by rewrite list_lookup_total_alter_ne. }
  split; rewrite ?Hbufs, ?Hpid; try done.
  - by rewrite length_alter.
  - destruct (co_ring _ _ H) as [l Hl]. exists l. by apply ring_alter.
  - intros i Hi. destruct (decide (i = b)) as [->|Hib]; [by rewrite Heq|].
    rewrite Hne by done. apply Hold; [done..|]. by apply (co_buf _ _ H).
  - intros i j bno Hi Hj. unfold caches in Hi, Hj.
    destruct (decide (i = b)) as [->|Hib], (decide (j = b)) as [->|Hjb]; try done.
    + rewrite Heq in Hi. rewrite (Hne j) in Hj by done.
      destruct Hi as (_ & Hd & Hbn). exfalso. by apply (Huniq bno Hd Hbn j).
    + rewrite Heq in Hj. rewrite (Hne i) in Hi by done.
      destruct Hj as (_ & Hd & Hbn). exfalso. by apply (Huniq bno Hd Hbn i).
    + rewrite (Hne i) in Hi by done. rewrite (Hne j) in Hj by done.
      by apply (co_uniq _ _ H _ _ bno).
  - intros bno Hbno. unfold caches. destruct (Hpin bno Hbno) as [(i & Hi & Hc & Hf)|(Hd & Hbn & Hf)].
    + exists i. by rewrite Hne.
    + exists b. by rewrite Heq.
Qed.

Lemma set_bufs_alter F G b s :
  set_bufs (alter G b) (set_bufs (alter F b) s) = set_bufs (alter (G ∘ F) b) s.
Proof. unfold set_bufs. cbn. by rewrite list_alter_alter_eq. Qed.

(** ** What each operation does to a well-formed cache *)

Definition take_lock (pid : Z) (x : buf) : buf := set_slock (SLk true pid) x.

Lemma lock_buf_run b s :
  sl_locked (b_lock (bufs s !!! b)) = false →
  lock_buf b s = Ret tt (set_bufs (alter (take_lock (curpid s)) b) s).
Proof. intros H. unfold lock_buf, the, upd, acquiresleep. steps. by rewrite H. Qed.

(** [bget] on a buffer that is found, respectively recycled. *)
Definition hit_upd (pid : Z) (x : buf) : buf :=
  take_lock pid (set_refcnt (u32 (b_refcnt x + 1)) x).
Definition miss_upd (pid dev bno : Z) (x : buf) : buf :=
  take_lock pid (set_refcnt 1 (set_flags 0 (set_id dev bno x))).

Lemma bget_hit dev bno b s :
  bcache_lock s = false → (b < length (bufs s))%nat →
  scan_cached (bufs s) dev bno = Some b → sl_locked (b_lock (bufs s !!! b)) = false →
  bget dev bno s = Ret b (set_bufs (alter (hit_upd (curpid s)) b) s).
Proof.
  intros Hl Hb Hs Hu. unfold bget, acquire, release, upd. steps. cbn [lock_held bcache_has_lock].
  rewrite Hl. cbn -[lock_buf scan_cached]. rewrite Hs. cbn -[lock_buf scan_cached].
  rewrite lock_buf_run.
  - cbn. unfold set_bufs. cbn. rewrite list_alter_alter_eq.
    destruct s; cbn in *; by subst.
  - cbn. by rewrite list_lookup_total_alter_eq.
Qed.

Lemma bget_miss dev bno b s :
  bcache_lock s = false → (b < length (bufs s))%nat →
  scan_cached (bufs s) dev bno = None → scan_unused (bufs s) = Some b →
  sl_locked (b_lock (bufs s !!! b)) = false →
  bget dev bno s = Ret b (set_bufs (alter (miss_upd (curpid s) dev bno) b) s).
Proof.
  intros Hl Hb Hs Hs2 Hu. unfold bget, acquire, release, upd. steps. cbn [lock_held bcache_has_lock].
  rewrite Hl. cbn -[lock_buf scan_cached scan_unused]. rewrite Hs, Hs2.
  cbn -[lock_buf scan_cached scan_unused].
  rewrite lock_buf_run.
  - cbn. unfold set_bufs. cbn. rewrite !list_alter_alter_eq.
    destruct s; cbn in *; by subst.
  - cbn. rewrite !list_alter_alter_eq. by rewrite list_lookup_total_alter_eq.
Qed.

Definition fill_upd (d : block) (x : buf) : buf :=
  set_flags (Z.lor (b_flags x) B_VALID) (set_data d x).

Lemma iderw_read b s :
  b_lock (bufs s !!! b) = SLk true (curpid s) → b_flags (bufs s !!! b) = 0 →
  b_dev (bufs s !!! b) = 1 → b_blockno (bufs s !!! b) < disksize s →
  iderw b s =
    Ret tt (set_bufs (alter (fill_upd (memdisk s (b_blockno (bufs s !!! b)))) b) s).
Proof.
  intros Hl Hf Hd Hb. unfold iderw, the, upd, holdingsleep. steps.
  rewrite Hl, Hf, Hd. cbn -[Z.leb]. rewrite Z.eqb_refl. cbn -[Z.leb].
  destruct (Z.leb_spec (disksize s) (b_blockno (bufs s !!! b))); [lia|].
  ground_ifs. unfold set_bufs. cbn. by rewrite list_alter_alter_eq.
Qed.

Definition flush_upd (x : buf) : buf := set_flags 2 x.

Lemma bwrite_run b s :
  b_lock (bufs s !!! b) = SLk true (curpid s) →
  (b_flags (bufs s !!! b) = 2 ∨ b_flags (bufs s !!! b) = 6) →
  b_dev (bufs s !!! b) = 1 → b_blockno (bufs s !!! b) < disksize s →
  (b < length (bufs s))%nat →
  ∃ F, bwrite b s = Ret tt (BState (bcache_lock s) (alter F b (bufs s))
      (λ k, if k =? b_blockno (bufs s !!! b) then b_data (bufs s !!! b) else memdisk s k)
      (disksize s) (hist s ++ [(b_blockno (bufs s !!! b), b_data (bufs s !!! b))]) (curpid s)) ∧
    F (bufs s !!! b) = flush_upd (bufs s !!! b) ∧
    (∀ x, b_next (F x) = b_next x) ∧ (∀ x, b_prev (F x) = b_prev x).
Proof.
  intros Hl Hf Hd Hb Hlt. unfold bwrite, iderw, the, upd, holdingsleep. steps.
  rewrite Hl. cbn -[Z.leb]. rewrite Z.eqb_refl. cbn -[Z.leb Z.land Z.lor].
  rewrite list_lookup_total_alter_eq by done. cbn -[Z.leb Z.land Z.lor].
  rewrite Hl, Hd. cbn -[Z.leb Z.land Z.lor]. rewrite Z.eqb_refl. cbn -[Z.leb Z.land Z.lor].
  destruct (Z.leb_spec (disksize s) (b_blockno (bufs s !!! b))); [lia|].
  eexists. split; [|split; [|split]].
  - destruct Hf as [-> | ->]; ground_ifs; unfold set_bufs; cbn; rewrite !list_alter_alter_eq; reflexivity.
  - destruct Hf as [Hf|Hf]; cbn; rewrite Hf; destruct (bufs s !!! b); done.
  - done.
  - done.
Qed.

Lemma buf_ok_hold pid a b bno i x :
  i ≠ b → buf_ok pid a i x → buf_ok pid (ac_hold b bno a) i x.
Proof.
  intros Hi [H1 H2 H3 H4 H5]. split; try done. cbn. by rewrite lookup_insert_ne by done.
Qed.

(** The caller gets buffer [b], brought up to date for block [bno]. *)
Lemma bread_finish s a b bno F :
  cache_ok s a → (b < NBUF)%nat → ac_held a !! b = None → 0 <= bno < ac_size a →
  (∀ x, b_next (F x) = b_next x) → (∀ x, b_prev (F x) = b_prev x) →
  (∀ j, j ≠ b → ¬ caches (bufs s) j bno) →
  let y := F (bufs s !!! b) in
  b_dev y = 1 → b_blockno y = bno → b_lock y = SLk true (curpid s) → b_refcnt y = 1 →
  b_data y = ac_view a bno → b_flags y = (if decide (bno ∈ ac_pinned a) then 6 else 2) →
  (∀ k, k ∈ ac_pinned a → k ≠ bno →
     ∃ i, i ≠ b ∧ caches (bufs s) i k ∧ b_flags (bufs s !!! i) = 6) →
  cache_ok (set_bufs (alter F b) s) (ac_hold b bno a).
Proof.
  intros H Hb Hnh Hbno Hn Hp Hu y Hd Hbn Hlk Hrc Hda Hfl Hpin.
  apply (cache_ok_upd s a _ _ b F); try done; fold y.
  - apply H.
  - intros k _ <-. by rewrite Hbn.
  - split.
    + by right.
    + rewrite Hfl. case_decide; auto.
    + cbn. rewrite lookup_insert_eq. repeat split; try done. rewrite Hfl. by case_decide.
    + intros _. by rewrite Hbn.
    + rewrite Hfl, Hbn. by case_decide.
  - intros i Hi. by apply buf_ok_hold.
  - intros i k. cbn. destruct (decide (i = b)) as [->|Hi]; [by intros _|].
    rewrite lookup_insert_ne by done. apply H.
  - intros k Hk. cbn in Hk. destruct (decide (k = bno)) as [->|Hkb].
    + right. rewrite Hfl, decide_True by done. done.
    + left. by apply Hpin.
  - intros k Hk. apply (co_clean _ _ H). by eapply ac_busy_hold.
  - apply (co_disk _ _ H).
  - apply H.
  - apply H.
Qed.

Lemma set_bufs_get F b s :
  (b < length (bufs s))%nat → bufs (set_bufs (alter F b) s) !!! b = F (bufs s !!! b).
Proof. intros. cbn. by rewrite list_lookup_total_alter_eq. Qed.

Lemma land_dirty f : (f = 0 ∨ f = 2 ∨ f = 6) → (Z.land f B_DIRTY =? 0) = negb (f =? 6).
Proof. by intros [->|[->| ->]]. Qed.

Lemma land_valid f : (f = 0 ∨ f = 2 ∨ f = 6) → (Z.land f B_VALID =? 0) = (f =? 0).
Proof. by intros [->|[->| ->]]. Qed.

(** The block of a buffer that cannot be reused is busy. *)
Lemma not_unused_busy s a i :
  cache_ok s a → (i < NBUF)%nat →
  (b_refcnt (bufs s !!! i) =? 0) && (Z.land (b_flags (bufs s !!! i)) B_DIRTY =? 0) = false →
  caches (bufs s) i (b_blockno (bufs s !!! i)) ∧ b_blockno (bufs s !!! i) ∈ ac_busy a.
Proof.
  intros H Hi Hf. pose proof (co_buf _ _ H i Hi) as Ho.
  rewrite (land_dirty _ (bo_flags _ _ _ _ Ho)) in Hf. unfold ac_busy.
  pose proof (bo_held _ _ _ _ Ho) as Hh. destruct (ac_held a !! i) as [bno|] eqn:E.
  - destruct Hh as (Hd & Hb & _). split; [done|]. rewrite Hb. apply elem_of_union_r.
    apply elem_of_map_img. eauto.
  - destruct Hh as [_ Hr]. rewrite Hr in Hf. cbn in Hf. zbool.
    split; [|by apply elem_of_union_l, (bo_dirty _ _ _ _ Ho)].
    split; [done|]. split; [|done]. apply (bo_valid _ _ _ _ Ho). lia.
Qed.

(** With fewer busy blocks than buffers, some buffer can be reused. *)
Lemma scan_unused_total s a l :
  cache_ok s a → ring (bufs s) l → (size (ac_busy a) < NBUF)%nat →
  ∃ b, scan_unused (bufs s) = Some b.
Proof.
  intros H Hr Hsz. rewrite (scan_unused_find _ _ Hr).
  destruct (List.find _ (rev l)) as [b|] eqn:E; [eauto|]. exfalso.
  assert (Hall : ∀ i, (i < NBUF)%nat → caches (bufs s) i (b_blockno (bufs s !!! i)) ∧
            b_blockno (bufs s !!! i) ∈ ac_busy a).
  { intros i Hi. apply not_unused_busy; [done|done|].
    apply (find_none _ _ E i). rewrite <- in_rev, <- list_elem_of_In.
    by apply (ring_elem _ _ _ Hr). }
  assert (Hnd : NoDup ((λ i, b_blockno (bufs s !!! i)) <$> seq 0 NBUF)).
  { apply NoDup_fmap_2_strong; [|apply NoDup_seq].
    intros i j Hi Hj Heq. apply elem_of_seq in Hi, Hj.
    destruct (Hall i ltac:(lia)) as [Hci _]. destruct (Hall j ltac:(lia)) as [Hcj _].
    rewrite <- Heq in Hcj. by apply (co_uniq _ _ H _ _ _ Hci Hcj). }
  assert (Hsub : list_to_set ((λ i, b_blockno (bufs s !!! i)) <$> seq 0 NBUF) ⊆ ac_busy a).
  { intros k [i [-> Hi]]%elem_of_list_to_set%list_elem_of_fmap.
    apply elem_of_seq in Hi. by apply Hall; lia. }
  apply subseteq_size in Hsub. rewrite size_list_to_set in Hsub by done.
  rewrite length_fmap, length_seq in Hsub. lia.
Qed.

Lemma scan_cached_some s a l bno b :
  cache_ok s a → ring (bufs s) l → scan_cached (bufs s) 1 bno = Some b → caches (bufs s) b bno.
Proof.
  intros H Hr Hs. rewrite (scan_cached_find _ _ _ _ Hr) in Hs.
  apply find_some in Hs as [Hin Hp]. zbool.
  split; [|done]. by apply (ring_elem _ _ _ Hr), list_elem_of_In.
Qed.

Lemma scan_cached_none s a l bno j :
  cache_ok s a → ring (bufs s) l → scan_cached (bufs s) 1 bno = None → ¬ caches (bufs s) j bno.
Proof.
  intros H Hr Hs (Hj & Hd & Hb). rewrite (scan_cached_find _ _ _ _ Hr) in Hs.
  pose proof (find_none _ _ Hs j) as Hn. cbn in Hn. rewrite Hd, Hb, !Z.eqb_refl in Hn.
  discriminate Hn. by apply list_elem_of_In, (ring_elem _ _ _ Hr).
Qed.

Lemma pinned_flags s a b bno :
  cache_ok s a → caches (bufs s) b bno →
  b_flags (bufs s !!! b) = 6 ↔ bno ∈ ac_pinned a.
Proof.
  intros H Hc. split.
  - intros Hf. destruct Hc as (Hb & _ & <-). by apply (bo_dirty _ _ _ _ (co_buf _ _ H b Hb)).
  - intros Hp. destruct (co_pin _ _ H bno Hp) as (i & Hi & Hf).
    by rewrite (co_uniq _ _ H _ _ _ Hc Hi).
Qed.

Section BreadSpec.
Context (s : bstate) (a : acache) (bno : Z) (l : list nat).
Context (H : cache_ok s a) (Hr : ring (bufs s) l) (Hbno : 0 <= bno < ac_size a).
Context (Hnh : bno ∉@{gset Z} map_img (ac_held a)).

Lemma idle_buf b :
  (b < NBUF)%nat → ac_held a !! b = None →
  sl_locked (b_lock (bufs s !!! b)) = false ∧ b_refcnt (bufs s !!! b) = 0.
Proof. intros Hb Hn. pose proof (bo_held _ _ _ _ (co_buf _ _ H b Hb)) as Ho. by rewrite Hn in Ho. Qed.

(** Unpinned and not held: the disk has the current contents. *)
Lemma disk_current : bno ∉ ac_pinned a → memdisk s bno = ac_view a bno.
Proof.
  intros Hp. rewrite (co_disk _ _ H). symmetry. apply (co_clean _ _ H).
  by apply not_elem_of_union.
Qed.

Lemma bread_hit b :
  scan_cached (bufs s) 1 bno = Some b →
  ∃ s', bread ROOTDEV bno s = Ret b s' ∧ ac_held a !! b = None ∧ cache_ok s' (ac_hold b bno a).
Proof.
  intros Es. pose proof (co_len _ _ H) as Hlen.
  pose proof (scan_cached_some _ _ _ _ _ H Hr Es) as Hc. pose proof Hc as (Hb & Hd & Hbn).
  assert (Hn : ac_held a !! b = None).
  { destruct (ac_held a !! b) as [k|] eqn:E; [|done]. exfalso. apply Hnh, elem_of_map_img.
    exists b. rewrite E. f_equal. destruct (held_caches _ _ _ _ H E) as (_ & _ & <-). done. }
  destruct (idle_buf b Hb Hn) as [Hunl Hrc]. pose proof (co_buf _ _ H b Hb) as Ho.
  assert (Hoth : ∀ j, j ≠ b → ¬ caches (bufs s) j bno).
  { intros j Hj Hc'. apply Hj. by apply (co_uniq _ _ H _ _ bno). }
  assert (Hpin : ∀ k, k ∈ ac_pinned a → k ≠ bno →
     ∃ i, i ≠ b ∧ caches (bufs s) i k ∧ b_flags (bufs s !!! i) = 6).
  { intros k Hk Hne. destruct (co_pin _ _ H k Hk) as (i & Hci & Hf). exists i.
    split; [|done]. intros ->. destruct Hci as (_ & _ & Hk'). congruence. }
  unfold bread, bind at 1. unfold ROOTDEV.
  rewrite (bget_hit 1 bno b s) by (apply H || done || lia).
  unfold the. steps. rewrite set_bufs_get by lia.
  change (b_flags (hit_upd (curpid s) (bufs s !!! b))) with (b_flags (bufs s !!! b)).
  rewrite (land_valid _ (bo_flags _ _ _ _ Ho)).
  destruct (Z.eqb_spec (b_flags (bufs s !!! b)) 0) as [Hf|Hf].
  - assert (Hnp : bno ∉ ac_pinned a) by (rewrite <- (pinned_flags _ _ _ _ H Hc); lia).
    rewrite iderw_read; rewrite ?set_bufs_get by lia; try done.
    2:{ cbn. rewrite Hbn, (co_size _ _ H). lia. }
    eexists. split; [reflexivity|]. split; [done|]. rewrite set_bufs_alter.
    apply bread_finish; try done; cbn; rewrite ?Hrc, ?Hf; try done.
    + rewrite Hbn. by apply disk_current.
    + by rewrite decide_False.
  - eexists. split; [reflexivity|]. split; [done|].
    apply bread_finish; try done; cbn; rewrite ?Hrc; try done.
    + destruct (bo_valid _ _ _ _ Ho Hf) as (_ & _ & Hv). by rewrite Hv, Hbn.
    + case_decide as Hp; [by apply (pinned_flags _ _ _ _ H Hc)|].
      destruct (bo_flags _ _ _ _ Ho) as [?|[?|?]]; try done.
      exfalso. apply Hp. by apply (pinned_flags _ _ _ _ H Hc).
Qed.

Lemma bread_miss :
  scan_cached (bufs s) 1 bno = None →
  bno ∈ ac_pinned a ∨ (size (ac_busy a) < NBUF)%nat →
  ∃ b s', bread ROOTDEV bno s = Ret b s' ∧ ac_held a !! b = None ∧ cache_ok s' (ac_hold b bno a).
Proof.
  intros Es Hroom. pose proof (co_len _ _ H) as Hlen.
  assert (Hnc : ∀ j, ¬ caches (bufs s) j bno) by (intros j; by eapply scan_cached_none).
  assert (Hnp : bno ∉ ac_pinned a).
  { intros Hp. destruct (co_pin _ _ H _ Hp) as (i & Hi & _). by apply (Hnc i). }
  destruct Hroom as [?|Hroom]; [done|].
  destruct (scan_unused_total _ _ _ H Hr Hroom) as [b Eb].
  pose proof Eb as Eb'. rewrite (scan_unused_find _ _ Hr) in Eb'.
  apply find_some in Eb' as [Hin Hp]. rewrite <- in_rev, <- list_elem_of_In in Hin.
  apply (ring_elem _ _ _ Hr) in Hin. pose proof (co_buf _ _ H b Hin) as Ho.
  rewrite (land_dirty _ (bo_flags _ _ _ _ Ho)) in Hp. zbool.
  assert (Hn : ac_held a !! b = None).
  { pose proof (bo_held _ _ _ _ Ho) as Hh. destruct (ac_held a !! b); [lia|done]. }
  destruct (idle_buf b Hin Hn) as [Hunl Hrc].
  exists b. unfold bread, bind at 1. unfold ROOTDEV.
  rewrite (bget_miss 1 bno b s) by (apply H || done || lia).
  unfold the. steps. rewrite set_bufs_get by lia.
  change (Z.land (b_flags (miss_upd (curpid s) 1 bno (bufs s !!! b))) B_VALID =? 0) with true.
  cbv iota. rewrite iderw_read; rewrite ?set_bufs_get by lia; try done.
  2:{ cbn. rewrite (co_size _ _ H). lia. }
  eexists. split; [reflexivity|]. split; [done|]. rewrite set_bufs_alter.
  apply bread_finish; try done; cbn; try done.
  - by apply disk_current.
  - by rewrite decide_False.
  - intros k Hk _. destruct (co_pin _ _ H k Hk) as (i & Hci & Hf). exists i.
    split; [|done]. intros ->. lia.
Qed.

End BreadSpec.

Lemma bread_spec s a bno :
  cache_ok s a → 0 <= bno < ac_size a → bno ∉@{gset Z} map_img (ac_held a) →
  bno ∈ ac_pinned a ∨ (size (ac_busy a) < NBUF)%nat →
  ∃ b s', bread ROOTDEV bno s = Ret b s' ∧ ac_held a !! b = None ∧ cache_ok s' (ac_hold b bno a).
Proof.
  intros H Hbno Hnh Hroom. destruct (co_ring _ _ H) as [l Hr].
  destruct (scan_cached (bufs s) 1 bno) as [b|] eqn:Es.
  - exists b. by eapply bread_hit.
  - by eapply bread_miss.
Qed.

(** What the invariant says of a buffer the caller holds. *)
Lemma held_buf s a b bno :
  cache_ok s a → ac_held a !! b = Some bno →
  (b < NBUF)%nat ∧ b_dev (bufs s !!! b) = 1 ∧ b_blockno (bufs s !!! b) = bno ∧
  (b_flags (bufs s !!! b) = 2 ∨ b_flags (bufs s !!! b) = 6) ∧
  b_lock (bufs s !!! b) = SLk true (curpid s) ∧ b_refcnt (bufs s !!! b) = 1 ∧
  0 <= bno < ac_size a ∧ b_data (bufs s !!! b) = ac_view a bno.
Proof.
  intros H Hb. pose proof (co_heldlt _ _ H _ _ Hb) as Hlt.
  pose proof (co_buf _ _ H b Hlt) as Ho. pose proof (bo_held _ _ _ _ Ho) as Hh.
  rewrite Hb in Hh. destruct Hh as (Hd & Hbn & Hf & Hl & Hr).
  destruct (bo_valid _ _ _ _ Ho Hf) as (_ & Hsz & Hda). rewrite Hbn in Hsz, Hda.
  split; [done|]. repeat split; try done; try lia.
  destruct (bo_flags _ _ _ _ Ho) as [?|?]; [done|]. tauto.
Qed.

Lemma held_not_elsewhere s a b bno j :
  cache_ok s a → ac_held a !! b = Some bno → j ≠ b → ¬ caches (bufs s) j bno.
Proof.
  intros H Hb Hj Hc. apply Hj.
  apply (co_uniq _ _ H _ _ bno); [done|]. by apply (held_caches _ a).
Qed.

(** A pinned block other than [bno] has its dirty buffer elsewhere. *)
Lemma pinned_elsewhere s a b bno k :
  cache_ok s a → caches (bufs s) b bno → k ∈ ac_pinned a → k ≠ bno →
  ∃ i, i ≠ b ∧ caches (bufs s) i k ∧ b_flags (bufs s !!! i) = 6.
Proof.
  intros H Hc Hk Hne. destruct (co_pin _ _ H k Hk) as (i & Hci & Hf). exists i.
  split; [|done]. intros ->. destruct Hci as (_ & _ & Hk'), Hc as (_ & _ & Hb'). congruence.
Qed.

Lemma setdata_spec s a b bno d :
  cache_ok s a → ac_held a !! b = Some bno →
  ∃ s', upd b (set_data d) s = Ret tt s' ∧ cache_ok s' (ac_put bno d a).
Proof.
  intros H Hb. eexists. split; [reflexivity|].
  pose proof (held_caches _ _ _ _ H Hb) as Hc.
  destruct (held_buf _ _ _ _ H Hb) as (Hlt & Hd & Hbn & Hf & Hl & Hr & Hsz & Hda).
  eapply (cache_ok_upd s a _ _ b (set_data d)); try done; try apply H; cbn.
  - intros k _ Hk j Hj. rewrite <- Hk, Hbn. by eapply held_not_elsewhere.
  - split; cbn; [by right|tauto| | |].
    + rewrite Hb. repeat split; try done. lia.
    + intros _. rewrite Hbn, put_eq. done.
    + intros ?. by apply (bo_dirty _ _ _ _ (co_buf _ _ H b Hlt)).
  - intros i Hil Hi [H1 H2 H3 H4 H5]. split; try done. intros Hv.
    destruct (H4 Hv) as (Hdi & Hszi & Hdai). split; [done|]. split; [done|].
    cbn. rewrite put_ne; [done|]. intros Heq. by apply (held_not_elsewhere _ _ _ _ i H Hb Hi).
  - intros k Hk. destruct (decide (k = bno)) as [->|Hne].
    + right. split; [done|]. split; [done|]. by apply (pinned_flags _ _ _ _ H Hc).
    + left. by eapply pinned_elsewhere.
  - intros k Hk. rewrite put_ne; [by apply (co_clean _ _ H)|].
    intros ->. apply Hk, elem_of_union_r, elem_of_map_img. eauto.
Qed.

(** Marking a held buffer dirty keeps it in the cache until it is written. *)
Lemma setdirty_spec s a b bno :
  cache_ok s a → ac_held a !! b = Some bno →
  ∃ s', upd b (λ bf, set_flags (Z.lor (b_flags bf) B_DIRTY) bf) s = Ret tt s' ∧
    cache_ok s' (ac_pin bno a).
Proof.
  intros H Hb. eexists. split; [reflexivity|].
  pose proof (held_caches _ _ _ _ H Hb) as Hc.
  destruct (held_buf _ _ _ _ H Hb) as (Hlt & Hd & Hbn & Hf & Hl & Hr & Hsz & Hda).
  assert (Hf6 : Z.lor (b_flags (bufs s !!! b)) B_DIRTY = 6) by (by destruct Hf as [-> | ->]).
  eapply (cache_ok_upd s a _ _ b (λ bf, set_flags (Z.lor (b_flags bf) B_DIRTY) bf));
    try done; try apply H; cbn [b_flags set_flags b_dev b_blockno]; rewrite ?Hf6.
  - intros k _ Hk j Hj. rewrite <- Hk, Hbn. by eapply held_not_elsewhere.
  - split; cbn [b_flags set_flags b_dev b_blockno b_lock b_refcnt b_data ac_pin ac_held
                  ac_pinned ac_size ac_view].
    + by right.
    + tauto.
    + rewrite Hb. done.
    + intros _. by rewrite Hbn.
    + intros _. rewrite Hbn. apply elem_of_union_l. by apply elem_of_singleton.
  - intros i Hil Hi [H1 H2 H3 H4 H5]. split; try done. intros Hv.
    apply elem_of_union_r. by apply H5.
  - intros k Hk. destruct (decide (k = bno)) as [->|Hne]; [by right|left].
    apply elem_of_union in Hk as [->%elem_of_singleton|Hk]; [done|].
    by eapply pinned_elsewhere.
  - intros k Hk. apply (co_clean _ _ H). intros Hin. apply Hk.
    apply elem_of_union in Hin as [Hin|Hin]; apply elem_of_union; [left|by right].
    by apply elem_of_union_r.
Qed.

(** Writing a held buffer puts its contents on the disk and unpins it. *)
Lemma bwrite_spec s a b bno :
  cache_ok s a → ac_held a !! b = Some bno →
  ∃ s', bwrite b s = Ret tt s' ∧ cache_ok s' (ac_flush bno a).
Proof.
  intros H Hb. pose proof (held_caches _ _ _ _ H Hb) as Hc.
  destruct (held_buf _ _ _ _ H Hb) as (Hlt & Hd & Hbn & Hf & Hl & Hr & Hsz & Hda).
  destruct (bwrite_run b s) as (F & HF & HFb & HFn & HFp); try done.
  { rewrite Hbn, (co_size _ _ H). lia. }
  { rewrite (co_len _ _ H). lia. }
  eexists. split; [exact HF|].
  eapply (cache_ok_upd s a _ _ b F); try done; try apply H; rewrite ?HFb;
    cbn [flush_upd set_flags b_dev b_blockno b_flags memdisk hist].
  - intros k _ Hk j Hj. rewrite <- Hk, Hbn. by eapply held_not_elsewhere.
  - split; cbn; [by right|tauto| | |done].
    + rewrite Hb. done.
    + intros _. by rewrite Hbn.
  - intros i Hil Hi [H1 H2 H3 H4 H5]. split; try done. intros Hv. cbn.
    apply elem_of_difference. split; [by apply H5|]. rewrite elem_of_singleton.
    intros Heq. apply (held_not_elsewhere _ _ _ _ i H Hb Hi).
    repeat split; [done| |done]. apply H4. lia.
  - intros k Hk. apply elem_of_difference in Hk as [Hk Hne%not_elem_of_singleton].
    left. by eapply pinned_elsewhere.
  - intros k Hk. cbn. destruct (decide (k = bno)) as [->|Hne]; [by rewrite put_eq|].
    rewrite put_ne by done. apply (co_clean _ _ H). intros Hin. apply Hk.
    apply elem_of_union in Hin as [Hin|Hin]; apply elem_of_union; [left|by right].
    apply elem_of_difference. by rewrite elem_of_singleton.
  - intros k. cbn. rewrite Hbn, Hda. unfold put. by rewrite (co_disk _ _ H).
  - cbn. by rewrite Hbn, Hda, (co_hist _ _ H).
Qed.

(** ** Moving a buffer to the front of the MRU list *)

(** The pointer assignments at the end of [brelse], on the array. *)
Definition relink (b : nat) (bs : list buf) : list buf :=
  let bs := alter (set_prev (pv bs b)) (nx bs b) bs in
  let bs := alter (set_next (nx bs b)) (pv bs b) bs in
  let bs := alter (set_next (nx bs head)) b bs in
  let bs := alter (set_prev head) b bs in
  let bs := alter (set_prev b) (nx bs head) bs in
  alter (set_next b) head bs.

Lemma alter_field {A} (f : buf → A) F (i : nat) (bs : list buf) z :
  (∀ x, f (F x) = f x) → f (alter F i bs !!! z) = f (bs !!! z).
Proof.
  intros Hf. rewrite list_lookup_total_alter. case_decide as E; [|done].
  destruct E as [-> _]. apply Hf.
Qed.

Lemma relink_field {A} (f : buf → A) b bs z :
  (∀ v x, f (set_prev v x) = f x) → (∀ v x, f (set_next v x) = f x) →
  f (relink b bs !!! z) = f (bs !!! z).
Proof. intros Hp Hn. unfold relink. by rewrite !alter_field. Qed.

Lemma relink_length b bs : length (relink b bs) = length bs.
Proof. unfold relink. by rewrite !length_alter. Qed.

Lemma nx_set_prev v i bs z : nx (alter (set_prev v) i bs) z = nx bs z.
Proof. by apply (alter_field b_next). Qed.

Lemma pv_set_next v i bs z : pv (alter (set_next v) i bs) z = pv bs z.
Proof. by apply (alter_field b_prev). Qed.

Lemma nx_set_next v i bs z :
  (i < length bs)%nat → nx (alter (set_next v) i bs) z = fupd (nx bs) i v z.
Proof.
  intros Hi. unfold nx, fupd. rewrite list_lookup_total_alter.
  destruct (decide (z = i)) as [->|Hne]; [by rewrite decide_True|].
  rewrite decide_False; [done|]. by intros [? _].
Qed.

Lemma pv_set_prev v i bs z :
  (i < length bs)%nat → pv (alter (set_prev v) i bs) z = fupd (pv bs) i v z.
Proof.
  intros Hi. unfold pv, fupd. rewrite list_lookup_total_alter.
  destruct (decide (z = i)) as [->|Hne]; [by rewrite decide_True|].
  rewrite decide_False; [done|]. by intros [? _].
Qed.

(** Pointers stay within the list. *)
Lemma links_next_in nx pv xs : ∀ x,
  links nx pv xs → x ∈ removelast xs → nx x ∈ xs.
Proof.
  induction xs as [|y xs IH]; intros x Hl Hx; [by apply not_elem_of_nil in Hx|].
  destruct xs as [|z xs]; [by apply not_elem_of_nil in Hx|].
  rewrite links_cons in Hl. destruct Hl as (H1 & H2 & H3).
  change (removelast (y :: z :: xs)) with (y :: removelast (z :: xs)) in Hx.
  apply elem_of_cons in Hx as [->|Hx]; right; [by rewrite H1; left|]. by apply IH.
Qed.

Lemma dll_next_in nx pv l x : dll nx pv l → x ∈ head :: l → nx x ∈ head :: l.
Proof.
  unfold dll. intros Hd Hx. apply (links_next_in _ _ _ x) in Hd.
  - rewrite app_comm_cons in Hd.
    apply elem_of_app in Hd as [?|Hd%list_elem_of_singleton]; [done|]. rewrite Hd. by left.
  - by rewrite app_comm_cons, removelast_snoc.
Qed.

Lemma dll_prev_in nx pv l x : dll nx pv l → x ∈ head :: l → pv x ∈ head :: l.
Proof.
  intros Hd%dll_rev Hx. apply (dll_next_in _ _ _ x) in Hd.
  - revert Hd. rewrite !elem_of_cons, !list_elem_of_In, <- !in_rev. done.
  - revert Hx. rewrite !elem_of_cons, !list_elem_of_In, <- !in_rev. done.
Qed.

Lemma dll_ext nx pv nx' pv' l :
  (∀ z, nx' z = nx z) → (∀ z, pv' z = pv z) → dll nx pv l → dll nx' pv' l.
Proof. intros Hn Hp. apply links_ext; intros; [apply Hn|apply Hp]. Qed.

Lemma relink_pointers b bs l z :
  dll (nx bs) (pv bs) l → b ∈ l → nx bs b ≠ b → b ≠ head →
  (∀ i, i ∈ head :: l → i < length bs)%nat →
  let n := fupd (nx bs) (pv bs b) (nx bs b) in
  let p := fupd (pv bs) (nx bs b) (pv bs b) in
  nx (relink b bs) z = fupd (fupd n b (n head)) head b z ∧
  pv (relink b bs) z = fupd (fupd p b head) (n head) b z.
Proof.
  intros Hd Hb Hnb Hbh Hin n p. unfold relink.
  set (bs1 := alter (set_prev (pv bs b)) (nx bs b) bs).
  assert (Hn1 : ∀ z, nx bs1 z = nx bs z) by (intros; apply nx_set_prev).
  assert (Hp1 : ∀ z, pv bs1 z = p z).
  { intros. apply pv_set_prev, Hin, (dll_next_in _ _ _ _ Hd). by right. }
  assert (Hpb : pv bs1 b = pv bs b) by (rewrite Hp1; unfold p; by rewrite fupd_ne).
  rewrite Hn1, Hpb.
  set (bs2 := alter (set_next (nx bs b)) (pv bs b) bs1).
  assert (Hlen2 : length bs2 = length bs) by (unfold bs2, bs1; by rewrite !length_alter).
  assert (Hn2 : ∀ z, nx bs2 z = n z).
  { intros. unfold bs2. rewrite nx_set_next; [unfold fupd, n; by rewrite Hn1|].
    unfold bs1. rewrite length_alter. apply Hin, (dll_prev_in _ _ _ _ Hd). by right. }
  assert (Hp2 : ∀ z, pv bs2 z = p z) by (intros; unfold bs2; by rewrite pv_set_next).
  assert (Hblt : (b < length bs)%nat) by (apply Hin; by right).
  set (bs4 := alter (set_prev head) b (alter (set_next (nx bs2 head)) b bs2)).
  assert (Hn4 : ∀ z, nx bs4 z = fupd n b (n head) z).
  { intros. unfold bs4. rewrite nx_set_prev, nx_set_next by lia. unfold fupd. by rewrite !Hn2. }
  assert (Hp4 : ∀ z, pv bs4 z = fupd p b head z).
  { intros. unfold bs4. rewrite pv_set_prev by (rewrite length_alter; lia).
    unfold fupd. by rewrite pv_set_next, Hp2. }
  assert (Hlen4 : length bs4 = length bs) by (unfold bs4; by rewrite !length_alter).
  rewrite (Hn4 head), fupd_ne by done.
  assert (Hnh : (n head < length bs)%nat).
  { unfold n, fupd. apply Hin. case_decide; apply (dll_next_in _ _ _ _ Hd); [by right|by left]. }
  split.
  - rewrite nx_set_next by (rewrite length_alter, Hlen4; apply Hin; by left).
    unfold fupd at 1 2. by rewrite nx_set_prev, Hn4.
  - rewrite pv_set_next, pv_set_prev by (by rewrite Hlen4). unfold fupd at 1 2. by rewrite Hp4.
Qed.

(** [b] leaves its place and becomes the most recently used buffer. *)
Lemma relink_ring b bs l1 l2 :
  length bs = S NBUF → ring bs (l1 ++ b :: l2) → ring (relink b bs) (b :: l1 ++ l2).
Proof.
  intros Hlen Hr. pose proof (ring_nodup _ _ Hr) as Hnd. pose proof (ring_head _ _ Hr) as Hh.
  destruct (dll_remove _ _ _ _ _ Hnd Hh (proj2 Hr)) as (Hnb & Hpb & Hd).
  assert (Hb : b ∈ l1 ++ b :: l2) by (apply elem_of_app; right; by left).
  assert (Hin : (∀ i, i ∈ head :: l1 ++ b :: l2 → i < length bs)%nat).
  { intros i Hi. apply elem_of_cons in Hi as [->|Hi]; [rewrite head_eq; lia|].
    apply (ring_elem _ _ _ Hr) in Hi. lia. }
  assert (Hbh : b ≠ head) by (by intros ->).
  split; [rewrite <- (proj1 Hr); apply Permutation_middle|].
  assert (Hnd' : NoDup (b :: l1 ++ l2)) by (by rewrite Permutation_middle).
  apply NoDup_cons in Hnd' as [Hbn Hnd'].
  eapply dll_ext; [intros z; apply (relink_pointers b bs (l1 ++ b :: l2) z); try done; apply Hr..|].
  apply dll_push; try done.
  intros Hin'. apply Hh. apply elem_of_app. apply elem_of_app in Hin' as [?|?]; [by left|].
  right. by right.
Qed.

Definition rel_upd (x : buf) : buf :=
  set_refcnt (u32 (b_refcnt x - 1)) (set_slock (releasesleep (b_lock x)) x).

Lemma brelse_run b s :
  b_lock (bufs s !!! b) = SLk true (curpid s) → b_refcnt (bufs s !!! b) = 1 →
  bcache_lock s = false → (b < length (bufs s))%nat →
  brelse b s = Ret tt (set_bufs (relink b) (set_bufs (alter rel_upd b) s)).
Proof.
  intros Hl Hr Hk Hlt. unfold brelse, the, upd, holdingsleep. destruct s as [lk bs md sz h pid].
  cbn in Hl, Hr, Hk, Hlt. subst lk. steps. cbn.
  rewrite Hl. cbn. rewrite Z.eqb_refl. cbn. rewrite list_alter_alter_eq.
  change (alter (_ ∘ _) b bs) with (alter rel_upd b bs).
  assert (Hz : b_refcnt (alter rel_upd b bs !!! b) = 0).
  { rewrite list_lookup_total_alter_eq by done. cbn. by rewrite Hr. }
  rewrite Hz, Z.eqb_refl. unfold release, set_bufs. steps. cbn.
  assert (Hrel : alter (λ bf, set_refcnt (u32 (b_refcnt bf - 1)) bf) b
      (alter (λ bf, set_slock (releasesleep (b_lock bf)) bf) b bs) = alter rel_upd b bs)
    by apply list_alter_alter_eq.
  by rewrite !Hrel.
Qed.

Lemma buf_ok_same pid a i x y :
  b_flags y = b_flags x → b_dev y = b_dev x → b_blockno y = b_blockno x →
  b_lock y = b_lock x → b_refcnt y = b_refcnt x → b_data y = b_data x →
  buf_ok pid a i x → buf_ok pid a i y.
Proof. intros E1 E2 E3 E4 E5 E6 [H1 H2 H3 H4 H5]. split; by rewrite ?E1, ?E2, ?E3, ?E4, ?E5, ?E6. Qed.

(** Reordering the MRU list does not change what is cached. *)
Lemma cache_ok_relink s a b :
  cache_ok s a → (b < NBUF)%nat → cache_ok (set_bufs (relink b) s) a.
Proof.
  intros H Hb. pose proof (co_len _ _ H) as Hlen.
  assert (Hsame : ∀ i k, caches (relink b (bufs s)) i k ↔ caches (bufs s) i k).
  { intros. unfold caches. by rewrite (relink_field b_dev), (relink_field b_blockno). }
  split; cbn; try apply H.
  - by rewrite relink_length.
  - destruct (co_ring _ _ H) as [l Hr].
    assert (b ∈ l) as (l1 & l2 & ->)%list_elem_of_split by (by apply (ring_elem _ _ _ Hr)).
    exists (b :: l1 ++ l2). by apply relink_ring.
  - intros i Hi. eapply buf_ok_same; [by apply relink_field..|]. by apply (co_buf _ _ H).
  - intros i j k. rewrite !Hsame. apply (co_uniq _ _ H).
  - intros k Hk. destruct (co_pin _ _ H k Hk) as (i & Hi & Hf). exists i.
    rewrite Hsame. by rewrite (relink_field b_flags).
Qed.

(** A buffer whose changes are pinned or on disk can be released. *)
Lemma brelse_spec s a b bno :
  cache_ok s a → ac_held a !! b = Some bno →
  bno ∈ ac_pinned a ∨ ac_view a bno = ac_disk a bno →
  ∃ s', brelse b s = Ret tt s' ∧ cache_ok s' (ac_drop b a).
Proof.
  intros H Hb Hw. pose proof (held_caches _ _ _ _ H Hb) as Hc.
  destruct (held_buf _ _ _ _ H Hb) as (Hlt & Hd & Hbn & Hf & Hl & Hr & Hsz & Hda).
  eexists. split; [apply brelse_run; try done; [apply H|rewrite (co_len _ _ H); lia]|].
  apply cache_ok_relink; [|done].
  eapply (cache_ok_upd s a _ _ b rel_upd); try done; try apply H.
  - intros k _ Hk j Hj. rewrite <- Hk. cbn. rewrite Hbn. by eapply held_not_elsewhere.
  - unfold rel_upd. rewrite Hr, Hl.
    split; cbn; [by right|tauto| | |].
    + by rewrite lookup_delete_eq.
    + intros _. by rewrite Hbn.
    + intros ?. by apply (bo_dirty _ _ _ _ (co_buf _ _ H b Hlt)).
  - intros i Hil Hi [H1 H2 H3 H4 H5]. split; try done. cbn.
    by rewrite lookup_delete_ne.
  - intros i k Hi. cbn in Hi. apply lookup_delete_Some in Hi as [_ Hi]. by apply (co_heldlt _ _ H) in Hi.
  - intros k Hk. destruct (decide (k = bno)) as [->|Hne].
    + right. split; [done|]. split; [done|]. by apply (pinned_flags _ _ _ _ H Hc).
    + left. by eapply pinned_elsewhere.
  - intros k Hk. cbn. destruct (decide (k = bno)) as [->|Hne].
    + destruct Hw as [Hw|Hw]; [|done]. destruct Hk. by apply elem_of_union_l.
    + apply (co_clean _ _ H). intros Hin. apply Hk. apply elem_of_union in Hin as [Hin|Hin];
        [by apply elem_of_union_l|apply elem_of_union_r].
      apply elem_of_map_img in Hin as [j Hj]. apply elem_of_map_img. exists j. cbn.
      apply lookup_delete_Some. split; [|done]. intros ->. congruence.
Qed.

Lemma held_ok s a b bno :
  cache_ok s a → ac_held a !! b = Some bno →
  b_blockno (bufs s !!! b) = bno ∧ b_data (bufs s !!! b) = ac_view a bno ∧ 0 <= bno < ac_size a.
Proof. intros H Hb. destruct (held_buf _ _ _ _ H Hb) as (_ & _ & ? & _ & _ & _ & ? & ?). done. Qed.

Lemma held_inj s a b b' bno :
  cache_ok s a → ac_held a !! b = Some bno → ac_held a !! b' = Some bno → b = b'.
Proof. intros H Hb Hb'. by apply (co_uniq _ _ H _ _ bno); apply (held_caches _ a). Qed.

(** The buffer cache has the interface the log and the file system use. *)
#[export] Instance bio_block_cache : BlockCache bstate := {|
  c_bread := bread; c_bwrite := bwrite; c_brelse := brelse;
  c_blockno b s := b_blockno (bufs s !!! b);
  c_data b s := b_data (bufs s !!! b);
  c_setdata b d := upd b (set_data d);
  c_setdirty b := upd b (λ bf, set_flags (Z.lor (b_flags bf) B_DIRTY) bf);
  c_hist := hist;
  c_ok := cache_ok;
  c_hist_ok := co_hist;
  c_bread_ok := bread_spec;
  c_held_ok := held_ok;
  c_held_inj := held_inj;
  c_clean s a bno H := co_clean s a H bno;
  c_setdata_ok := setdata_spec;
  c_setdirty_ok := setdirty_spec;
  c_bwrite_ok := bwrite_spec;
  c_brelse_ok := brelse_spec |}.

(** ** Initialisation *)

(** [bcache] is zeroed memory before [binit]. *)
Definition boot_bufs : list buf := replicate (S NBUF) inhabitant.

(** A buffer that has not been used. *)
Definition fresh (x : buf) : bool :=
  (b_flags x =? 0) && (b_dev x =? 0) && negb (sl_locked (b_lock x)) && (b_refcnt x =? 0).

Lemma fresh_ok pid md sz i x : fresh x = true → buf_ok pid (boot_cache md sz) i x.
Proof.
  unfold fresh. intros [[[Hf Hd]%andb_prop Hl]%andb_prop Hr]%andb_prop.
  apply Z.eqb_eq in Hf, Hd, Hr. apply negb_true_iff in Hl.
  split; rewrite ?Hf; cbn; auto; done.
Qed.

(** After [binit] the cache is empty and every block reads as the disk has it;
    the buffers are in the list in reverse order of their index. *)
Lemma binit_spec lk md sz pid :
  ∃ s', binit (BState lk boot_bufs md sz [] pid) = Ret tt s' ∧
    ring (bufs s') (rev (seq 0 NBUF)) ∧ cache_ok s' (boot_cache md sz).
Proof.
  eexists. split; [vm_compute; reflexivity|].
  match goal with |- ring ?bs ?l ∧ _ => assert (Hr : ring bs l) end.
  { split; [symmetry; apply Permutation_rev|]. vm_compute. repeat split. }
  split; [done|].
  match goal with |- cache_ok ?s _ =>
    assert (Hall : ∀ i, (i < NBUF)%nat → fresh (bufs s !!! i) = true) end.
  { intros i Hi. assert (Hin : i ∈ seq 0 NBUF) by (apply elem_of_seq; lia). clear Hi Hr.
    revert i Hin. apply Forall_forall. cbv [NBUF seq]. repeat constructor. }
  split; try done.
  - by eexists.
  - intros i Hi. by apply fresh_ok, Hall.
  - intros i j bno (Hi & Hd & _). apply Hall in Hi. unfold fresh in Hi. by rewrite Hd, andb_false_r in Hi.
Qed.

(** ** The cache as an abstract machine *)

(** The calls a client makes; buffers are the handles [bread] returned. *)
Inductive cop :=
  | OBread (bno : Z)
  | OSetData (b : nat) (d : block)
  | OSetDirty (b : nat)
  | OBwrite (b : nat)
  | OBrelse (b : nat).

Definition exec (o : cop) : M bstate (option nat) :=
  match o with
  | OBread bno => b <- bread ROOTDEV bno ;; ret (Some b)
  | OSetData b d => c_setdata b d ;;; ret None
  | OSetDirty b => c_setdirty b ;;; ret None
  | OBwrite b => bwrite b ;;; ret None
  | OBrelse b => brelse b ;;; ret None
  end.

(** What each call means for the blocks. *)
Inductive cstep (a : acache) : cop → option nat → acache → Prop :=
  | CS_bread bno b : ac_held a !! b = None →
      cstep a (OBread bno) (Some b) (ac_hold b bno a)
  | CS_setdata b bno d : ac_held a !! b = Some bno →
      cstep a (OSetData b d) None (ac_put bno d a)
  | CS_setdirty b bno : ac_held a !! b = Some bno →
      cstep a (OSetDirty b) None (ac_pin bno a)
  | CS_bwrite b bno : ac_held a !! b = Some bno →
      cstep a (OBwrite b) None (ac_flush bno a)
  | CS_brelse b bno : ac_held a !! b = Some bno →
      cstep a (OBrelse b) None (ac_drop b a).

(** When a client may make a call: it holds the buffer; a block it does not
    hold is read while some buffer is reusable; a changed buffer is written
    or marked dirty before it is released. *)
Definition allowed (a : acache) (o : cop) : Prop :=
  match o with
  | OBread bno => 0 <= bno < ac_size a ∧ (bno ∉@{gset Z} map_img (ac_held a)) ∧
      (bno ∈ ac_pinned a ∨ (size (ac_busy a) < NBUF)%nat)
  | OSetData b _ | OSetDirty b | OBwrite b => is_Some (ac_held a !! b)
  | OBrelse b => ∃ bno, ac_held a !! b = Some bno ∧
      (bno ∈ ac_pinned a ∨ ac_view a bno = ac_disk a bno)
  end.

(** C2. The buffer cache refines the abstract block cache: in a well-formed
    state every call its client may make returns (no panic, no sleep), does
    the abstract step, and a buffer that [bread] returns, like every held
    buffer, has the current contents of its block. *)
Theorem bcache_refines s a o :
  cache_ok s a → allowed a o →
  ∃ r s' a', exec o s = Ret r s' ∧ cstep a o r a' ∧ cache_ok s' a' ∧
    (∀ b bno, ac_held a' !! b = Some bno →
       b_blockno (bufs s' !!! b) = bno ∧ b_data (bufs s' !!! b) = ac_view a' bno).
Proof.
  intros H Hal.
  cut (∃ r s' a', exec o s = Ret r s' ∧ cstep a o r a' ∧ cache_ok s' a').
  { intros (r & s' & a' & He & Hs & Ho). exists r, s', a'. split; [done|]. split; [done|].
    split; [done|]. intros b bno Hb. by destruct (held_ok _ _ _ _ Ho Hb) as (? & ? & _). }
  destruct o as [bno|b d|b|b|b]; cbn in Hal.
  - destruct Hal as (Hsz & Hnh & Hfree).
    destruct (bread_spec _ _ _ H Hsz Hnh Hfree) as (b & s' & Hr & Hn & Ho).
    exists (Some b), s', (ac_hold b bno a). split; [|by split; [constructor|]].
    unfold exec. steps. by rewrite Hr.
  - destruct Hal as [bno Hb]. destruct (setdata_spec _ _ _ _ d H Hb) as (s' & Hr & Ho).
    exists None, s', (ac_put bno d a). split; [|by split; [econstructor|]].
    unfold exec, bind. cbn [c_setdata c_setdirty bio_block_cache]. by rewrite Hr.
  - destruct Hal as [bno Hb]. destruct (setdirty_spec _ _ _ _ H Hb) as (s' & Hr & Ho).
    exists None, s', (ac_pin bno a). split; [|by split; [econstructor|]].
    unfold exec, bind. cbn [c_setdata c_setdirty bio_block_cache]. by rewrite Hr.
  - destruct Hal as [bno Hb]. destruct (bwrite_spec _ _ _ _ H Hb) as (s' & Hr & Ho).
    exists None, s', (ac_flush bno a). split; [|by split; [econstructor|]].
    unfold exec. steps. by rewrite Hr.
  - destruct Hal as (bno & Hb & Hw). destruct (brelse_spec _ _ _ _ H Hb Hw) as (s' & Hr & Ho).
    exists None, s', (ac_drop b a). split; [|by split; [econstructor|]].
    unfold exec. steps. by rewrite Hr.
Qed.

Lemma bcache_refines_witness :
  ∃ s a r s' a', cache_ok s a ∧ exec (OBread 5) s = Ret r s' ∧ cstep a (OBread 5) r a' ∧
    cache_ok s' a'.
Proof.
  destruct (binit_spec false (λ k, [k]) 100 1) as (s & _ & _ & H).
  destruct (bcache_refines s (boot_cache (λ k, [k]) 100) (OBread 5) H)
    as (r & s' & a' & H1 & H2 & H3 & _).
  { split; [cbn; lia|]. split; [apply (bool_decide_unpack _); vm_compute; exact I|].
    right. vm_compute. lia. }
  by exists s, (boot_cache (λ k, [k]) 100), r, s', a'.
Defined.

(** Releasing the last reference to a buffer moves it, and only it, to the
    front of the list, so that the list stays ordered by last use (the scan
    for a buffer to recycle starts at its other end). *)
Theorem brelse_moves_to_front s a b bno l1 l2 :
  cache_ok s a → ac_held a !! b = Some bno → ring (bufs s) (l1 ++ b :: l2) →
  ∃ s', brelse b s = Ret tt s' ∧ ring (bufs s') (b :: l1 ++ l2) ∧ bcache_lock s' = false ∧
    sl_locked (b_lock (bufs s' !!! b)) = false ∧ b_refcnt (bufs s' !!! b) = 0.
Proof.
  intros H Hb Hr. destruct (held_buf _ _ _ _ H Hb) as (Hlt & Hd & Hbn & Hf & Hl & Hc & Hsz & Hda).
  pose proof (co_len _ _ H) as Hlen.
  eexists. split; [apply brelse_run; try done; [apply H|lia]|]. cbn. split; [|split; [apply H|]].
  - apply relink_ring; [by rewrite length_alter|]. by apply ring_alter.
  - rewrite (relink_field b_lock), (relink_field b_refcnt) by done.
    rewrite list_lookup_total_alter_eq by lia. cbn. by rewrite Hc.
Qed.

Lemma brelse_moves_to_front_witness :
  ∃ s b l1 l2 s', ring (bufs s) (l1 ++ b :: l2) ∧ brelse b s = Ret tt s' ∧
    ring (bufs s') (b :: l1 ++ l2).
Proof.
  destruct (binit_spec false (λ k, [k]) 100 1) as (s & _ & _ & H).
  destruct (bread_spec s (boot_cache (λ k, [k]) 100) 5 H) as (b & s1 & _ & _ & H1).
  { cbn. lia. }
  { apply (bool_decide_unpack _). vm_compute. exact I. }
  { right. vm_compute. lia. }
  set (a1 := ac_hold b 5 (boot_cache (λ k, [k]) 100)) in H1.
  assert (Hb : ac_held a1 !! b = Some 5) by apply lookup_insert_eq.
  destruct (co_ring _ _ H1) as [l Hr].
  assert (b ∈ l) as (l1 & l2 & ->)%list_elem_of_split
    by (apply (ring_elem _ _ _ Hr), (co_heldlt _ _ H1 _ _ Hb)).
  destruct (brelse_moves_to_front s1 a1 b 5 l1 l2 H1 Hb Hr) as (s' & H2 & H3 & _).
  by exists s1, b, l1, l2, s'.
Defined.
