(* ===== verification/Ide.v ===== *)
(** * The IDE disk driver (xv6A1/ide.c)

    The driver keeps a queue of buffers, linked through their [qnext] fields;
    the disk works on the first of them, and its interrupt takes it off and
    starts the next. The buffers are those of Bio. The controller is hardware:
    a parameter, with the ports the driver uses, and laws that say what its
    documentation promises of them. *)

From S2P Require Import Prelude Memory Spinlock BlockCache Bio.

Definition FSSIZE : Z := 1000.
Definition SECTOR_SIZE : Z := 512.
Definition IDE_BSY : Z := 0x80.
Definition IDE_DRDY : Z := 0x40.
Definition IDE_DF : Z := 0x20.
Definition IDE_ERR : Z := 0x01.
Definition IDE_CMD_READ : Z := 0x20.
Definition IDE_CMD_WRITE : Z := 0x30.
Definition IDE_CMD_RDMUL : Z := 0xc4.
Definition IDE_CMD_WRMUL : Z := 0xc5.

(** ** The controller *)

(** Its ports: one byte in or out, or the 512 bytes of a sector. A controller
    that is busy is ready again after at most [patience] looks at its status. *)
Class Ata (D : Type) := {
  inb : Z → D → Z * D;
  outb : Z → Z → D → D;
  outsl : list Z → D → D;
  insl : D → list Z * D;
  patience : nat }.

(** What a command has left the controller to do: nothing, to take the bytes of
    a sector, or to give them, if it could read the sector. *)
Inductive phase :=
  | PIdle
  | PTake (drive sector : Z)
  | PGive (r : option block).

(** The drive and the sector that the registers select. *)
Definition sel_drive (r : Z → Z) : Z := Z.land (Z.shiftr (r 0x1f6) 4) 1.
Definition sel_sector (r : Z → Z) : Z :=
  r 0x1f3 + 2^8 * r 0x1f4 + 2^16 * r 0x1f5 + 2^24 * Z.land (r 0x1f6) 0x0f.

(** The contents of a disk; a sector that is [None] is damaged. *)
Abbreviation sectors := (Z → Z → option block).

(** Writing a damaged sector leaves it damaged. *)
Definition store (m : sectors) (drive sector : Z) (d : block) : sectors := λ dr sec,
  if (dr =? drive) && (sec =? sector) then (match m dr sec with Some _ => Some d | None => None end)
  else m dr sec.

Class AtaLaws (D : Type) `{Ata D} := {
  media : D → sectors;
  reg : D → Z → Z;
  phase_of : D → phase;
  busy : D → nat;
  busy_bound : ∀ d, (busy d <= patience)%nat;
  (** looking at the status changes nothing but how long it is busy *)
  status_media : ∀ d, media (inb 0x1f7 d).2 = media d;
  status_phase : ∀ d, phase_of (inb 0x1f7 d).2 = phase_of d;
  status_busy : ∀ d, busy d ≠ 0%nat → (busy (inb 0x1f7 d).2 < busy d)%nat;
  status_ready : ∀ d, busy d = 0%nat →
    Z.land (inb 0x1f7 d).1 (Z.lor IDE_BSY IDE_DRDY) = IDE_DRDY;
  status_err : ∀ d, Z.land (inb 0x1f7 d).1 (Z.lor IDE_BSY IDE_DRDY) = IDE_DRDY →
    Z.land (inb 0x1f7 d).1 (Z.lor IDE_DF IDE_ERR) = 0 ↔ phase_of d ≠ PGive None;
  (** the registers *)
  ctl_media : ∀ v d, media (outb 0x3f6 v d) = media d;
  reg_media : ∀ p v d, 0x1f2 <= p <= 0x1f6 → media (outb p v d) = media d;
  reg_set : ∀ p v d, 0x1f2 <= p <= 0x1f6 → reg (outb p v d) p = v;
  reg_keep : ∀ p q v d, 0x1f2 <= p <= 0x1f6 → q ≠ p → reg (outb p v d) q = reg d q;
  (** the commands for one sector, and the bytes *)
  cmd_media : ∀ v d, media (outb 0x1f7 v d) = media d;
  cmd_read : ∀ d, reg d 0x1f2 = 1 →
    phase_of (outb 0x1f7 IDE_CMD_READ d) = PGive (media d (sel_drive (reg d)) (sel_sector (reg d)));
  cmd_write : ∀ d, reg d 0x1f2 = 1 →
    phase_of (outb 0x1f7 IDE_CMD_WRITE d) = PTake (sel_drive (reg d)) (sel_sector (reg d));
  take_bytes : ∀ d drive sector bytes, phase_of d = PTake drive sector →
    media (outsl bytes d) = store (media d) drive sector bytes;
  give_media : ∀ d, media (insl d).2 = media d;
  give_bytes : ∀ d bytes, phase_of d = PGive (Some bytes) → (insl d).1 = bytes }.

(** ** The driver *)

Section Driver.
Context {D : Type} `{Ata D}.

(** [idelock], [idequeue] and [havedisk1]; the buffers, with their [qnext]; the
    wake-ups made; the controller. *)
Record ide := Ide {
  ide_lock : bool;
  idequeue : option nat;
  havedisk1 : bool;
  ibufs : list buf;
  qnext : list (option nat);
  ide_woken : list chan;
  ctl : D }.

Inductive IdeLock : Set := .

#[export] Instance ide_has_lock : HasLock IdeLock ide.
Proof.
  refine {| lock_held := ide_lock;
            set_lock b s := Ide b (idequeue s) (havedisk1 s) (ibufs s) (qnext s) (ide_woken s) (ctl s) |};
    by intros; destruct s.
Defined.

Definition set_idequeue (q : option nat) (s : ide) : ide :=
  Ide (ide_lock s) q (havedisk1 s) (ibufs s) (qnext s) (ide_woken s) (ctl s).
Definition set_havedisk1 (b : bool) (s : ide) : ide :=
  Ide (ide_lock s) (idequeue s) b (ibufs s) (qnext s) (ide_woken s) (ctl s).
Definition set_buf (b : nat) (bf : buf) (s : ide) : ide :=
  Ide (ide_lock s) (idequeue s) (havedisk1 s) (<[b := bf]> (ibufs s)) (qnext s) (ide_woken s) (ctl s).
Definition set_qnext (b : nat) (q : option nat) (s : ide) : ide :=
  Ide (ide_lock s) (idequeue s) (havedisk1 s) (ibufs s) (<[b := q]> (qnext s)) (ide_woken s) (ctl s).
Definition add_woken (ch : chan) (s : ide) : ide :=
  Ide (ide_lock s) (idequeue s) (havedisk1 s) (ibufs s) (qnext s) (ide_woken s ++ [ch]) (ctl s).
Definition set_ctl (d : D) (s : ide) : ide :=
  Ide (ide_lock s) (idequeue s) (havedisk1 s) (ibufs s) (qnext s) (ide_woken s) d.

Definition in_b (p : Z) : M ide Z := λ s, let r := inb p (ctl s) in Ret r.1 (set_ctl r.2 s).
Definition out_b (p v : Z) : M ide unit := modify (λ s, set_ctl (outb p v (ctl s)) s).
Definition out_sl (d : list Z) : M ide unit := modify (λ s, set_ctl (outsl d (ctl s)) s).
Definition in_sl : M ide (list Z) := λ s, let r := insl (ctl s) in Ret r.1 (set_ctl r.2 s).
Definition buf_at (b : nat) : M ide buf := gets (λ s, ibufs s !!! b).

(** The loop that waits until the controller is ready. *)
Fixpoint poll (fuel : nat) : M ide Z :=
  match fuel with
  | O => fault "idewait"
  | S fuel' =>
      r <- in_b 0x1f7 ;;
      if negb (Z.land r (Z.lor IDE_BSY IDE_DRDY) =? IDE_DRDY) then poll fuel' else ret r
  end.

Definition idewait (checkerr : bool) : M ide Z :=
  r <- poll (S patience) ;;
  if checkerr && negb (Z.land r (Z.lor IDE_DF IDE_ERR) =? 0) then ret (-1) else ret 0.

(** Without [ioapicenable], which is not the driver's. *)
Definition ideinit : M ide unit :=
  modify (set_lock (T := IdeLock) false) ;;;
  idewait false ;;;
  out_b 0x1f6 (Z.lor 0xe0 (Z.shiftl 1 4)) ;;;
  for_each (seq 0 1000) (λ _,
    r <- in_b 0x1f7 ;;
    if negb (r =? 0) then modify (set_havedisk1 true) ;;; ret (Some tt) else ret None) ;;;
  out_b 0x1f6 (Z.lor 0xe0 (Z.shiftl 0 4)).

Definition idestart (p : option nat) : M ide unit :=
  match p with
  | None => panic "idestart"
  | Some b =>
      bf <- buf_at b ;;
      if FSSIZE <=? b_blockno bf then panic "incorrect blockno" else
      let sector_per_block := BSIZE / SECTOR_SIZE in
      let sector := b_blockno bf * sector_per_block in
      let read_cmd := if sector_per_block =? 1 then IDE_CMD_READ else IDE_CMD_RDMUL in
      let write_cmd := if sector_per_block =? 1 then IDE_CMD_WRITE else IDE_CMD_WRMUL in
      if 7 <? sector_per_block then panic "idestart" else
      idewait false ;;;
      out_b 0x3f6 0 ;;;
      out_b 0x1f2 sector_per_block ;;;
      out_b 0x1f3 (Z.land sector 0xff) ;;;
      out_b 0x1f4 (Z.land (Z.shiftr sector 8) 0xff) ;;;
      out_b 0x1f5 (Z.land (Z.shiftr sector 16) 0xff) ;;;
      out_b 0x1f6 (Z.lor (Z.lor 0xe0 (Z.shiftl (Z.land (b_dev bf) 1) 4)) (Z.land (Z.shiftr sector 24) 0x0f)) ;;;
      if negb (Z.land (b_flags bf) B_DIRTY =? 0) then
        out_b 0x1f7 write_cmd ;;;
        out_sl (b_data bf)
      else
        out_b 0x1f7 read_cmd
  end.

Definition wake_buf (b : nat) : M ide unit := modify (add_woken (ChBuf b)).

(** Read the data if needed. *)
Definition ide_fill (b : nat) : M ide unit :=
  bf <- buf_at b ;;
  if Z.land (b_flags bf) B_DIRTY =? 0 then
    r <- idewait true ;;
    if 0 <=? r then
      d <- in_sl ;;
      modify (set_buf b (set_data d bf))
    else ret tt
  else ret tt.

(** [b->flags |= B_VALID; b->flags &= ~B_DIRTY] *)
Definition ide_mark (b : nat) : M ide unit :=
  bf <- buf_at b ;;
  modify (set_buf b (set_flags (Z.lor (b_flags bf) B_VALID) bf)) ;;;
  bf <- buf_at b ;;
  modify (set_buf b (set_flags (Z.land (b_flags bf) (Z.lnot B_DIRTY)) bf)).

Definition ideintr : M ide unit :=
  acquire IdeLock ;;;
  q <- gets idequeue ;;
  match q with
  | None => release IdeLock
  | Some b =>
      nx <- gets (λ s, qnext s !!! b) ;;
      modify (set_idequeue nx) ;;;
      ide_fill b ;;;
      ide_mark b ;;;
      wake_buf b ;;;
      q <- gets idequeue ;;
      (if decide (q = None) then ret tt else idestart q) ;;;
      release IdeLock
  end.

(** [for(pp = &idequeue; *pp; pp = &( *pp)->qnext);]: the last buffer of a queue
    that starts at [b]. *)
Fixpoint last_of (fuel : nat) (qn : list (option nat)) (b : nat) : option nat :=
  match fuel with
  | O => None
  | S fuel' => match qn !!! b with None => Some b | Some b' => last_of fuel' qn b' end
  end.

(** [*pp = b] *)
Definition link_last (b : nat) : M ide unit :=
  s <- gets id ;;
  match idequeue s with
  | None => modify (set_idequeue (Some b))
  | Some h =>
      match last_of (length (qnext s)) (qnext s) h with
      | Some l => modify (set_qnext l (Some b))
      | None => fault "iderw"
      end
  end.

(** The loop that waits until the request is finished. *)
Definition iderw_wait (b : nat) : M ide unit :=
  bf <- buf_at b ;;
  if negb (Z.land (b_flags bf) (Z.lor B_VALID B_DIRTY) =? B_VALID) then
    release IdeLock ;;;
    sleep_on (ChBuf b)
  else release IdeLock.

Definition iderw (me : Z) (b : nat) : M ide unit :=
  bf <- buf_at b ;;
  disk1 <- gets havedisk1 ;;
  if negb (holdingsleep me (b_lock bf)) then panic "iderw: buf not locked" else
  if Z.land (b_flags bf) (Z.lor B_VALID B_DIRTY) =? B_VALID then panic "iderw: nothing to do" else
  if negb (b_dev bf =? 0) && negb disk1 then panic "iderw: ide disk 1 not present" else
  acquire IdeLock ;;;
  modify (set_qnext b None) ;;;
  link_last b ;;;
  q <- gets idequeue ;;
  (if decide (q = Some b) then idestart (Some b) else ret tt) ;;;
  iderw_wait b.

(** Awake again, with the lock, in the loop that waits. *)
Definition iderw_resume (b : nat) : M ide unit :=
  acquire IdeLock ;;;
  iderw_wait b.

(** ** The processes that use it *)

(** The buffers whose process is in [iderw], and whether it sleeps there. *)
Record idesys := IdeSys { drv : ide; inside : gmap nat bool }.

(** The state in which a call or the interrupt handler runs: no wake-ups yet. *)
Definition quiet (s : ide) : ide :=
  Ide (ide_lock s) (idequeue s) (havedisk1 s) (ibufs s) (qnext s) [] (ctl s).

Definition wakes_in (ws : list chan) (m : gmap nat bool) : gmap nat bool :=
  map_imap (λ b asleep, Some (asleep && negb (bool_decide (ChBuf b ∈ ws)))) m.

(** A request is for a block of the file system, on one of the two drives. *)
Definition request_ok (bf : buf) : Prop := 0 <= b_blockno bf < FSSIZE ∧ (b_dev bf = 0 ∨ b_dev bf = 1).

(** The process that holds the lock of a buffer may change it, and may call
    [iderw]; until that returns it does nothing else. *)
Inductive ide_step (y : idesys) : idesys → Prop :=
  | I_touch b bf :
      inside y !! b = None → (b < length (ibufs (drv y)))%nat →
      ide_step y (IdeSys (set_buf b bf (drv y)) (inside y))
  | I_call b me bf ch s :
      inside y !! b = None → ibufs (drv y) !! b = Some bf → request_ok bf →
      iderw me b (quiet (drv y)) = Sleep ch s →
      ide_step y (IdeSys s (<[b := true]> (inside y)))
  | I_intr s :
      ideintr (quiet (drv y)) = Ret tt s →
      ide_step y (IdeSys s (wakes_in (ide_woken s) (inside y)))
  | I_return b s :
      inside y !! b = Some false → iderw_resume b (quiet (drv y)) = Ret tt s →
      ide_step y (IdeSys s (delete b (inside y)))
  | I_again b ch s :
      inside y !! b = Some false → iderw_resume b (quiet (drv y)) = Sleep ch s →
      ide_step y (IdeSys s (<[b := true]> (inside y))).

(** ** What it promises *)

(** The requests in order of arrival, the buffers, the disks, and the requests
    that are served but whose calls have not returned. *)
Record disksys := DiskSys { queue : list nat; dbufs : list buf; disk : sectors; served : gset nat }.

Definition pending (bf : buf) : bool := negb (Z.land (b_flags bf) (Z.lor B_VALID B_DIRTY) =? B_VALID).
Definition dirty (bf : buf) : bool := negb (Z.land (b_flags bf) B_DIRTY =? 0).

Definition done_flags (f : Z) : Z := Z.land (Z.lor f B_VALID) (Z.lnot B_DIRTY).

(** One request: a dirty buffer is written, another one is filled, and both are
    then valid. A sector that cannot be read leaves the buffer as it was. *)
Definition serve_buf (m : sectors) (bf : buf) : buf :=
  set_flags (done_flags (b_flags bf))
    (if dirty bf then bf
     else match m (b_dev bf) (b_blockno bf) with Some d => set_data d bf | None => bf end).
Definition serve_disk (m : sectors) (bf : buf) : sectors :=
  if dirty bf then store m (b_dev bf) (b_blockno bf) (b_data bf) else m.

Inductive disk_step (a : disksys) : disksys → Prop :=
  | D_touch b bf :
      b ∉ queue a → b ∉ served a →
      disk_step a (DiskSys (queue a) (<[b := bf]> (dbufs a)) (disk a) (served a))
  | D_call b bf :
      b ∉ queue a → b ∉ served a → dbufs a !! b = Some bf → pending bf = true →
      disk_step a (DiskSys (queue a ++ [b]) (dbufs a) (disk a) (served a))
  | D_serve b q bf :
      queue a = b :: q → dbufs a !! b = Some bf →
      disk_step a (DiskSys q (<[b := serve_buf (disk a) bf]> (dbufs a)) (serve_disk (disk a) bf) ({[b]} ∪ served a))
  | D_return b :
      b ∈ served a → pending (dbufs a !!! b) = false →
      disk_step a (DiskSys (queue a) (dbufs a) (disk a) (served a ∖ {[b]})).

End Driver.
