(* ===== verification/IdeProps.v ===== *)
(** * The IDE driver serves its requests in order

    However calls and interrupts interleave, the driver does what a disk does
    that keeps its requests in a queue and serves them one at a time; and no
    process is left asleep. *)

From S2P Require Import Prelude Memory Spinlock BlockCache Bio Ide.

(** ** Flags and registers *)

Lemma lor_land_absorb a b : Z.lor (Z.land a b) b = b.
Proof. apply Z.bits_inj'. intros n _. rewrite Z.lor_spec, Z.land_spec. by destruct (Z.testbit a n), (Z.testbit b n). Qed.

Lemma served_not_pending m bf : pending (serve_buf m bf) = false.
Proof.
  unfold pending, serve_buf, done_flags. cbn [set_flags b_flags]. rewrite <- Z.land_assoc.
  change (Z.land (Z.lnot B_DIRTY) (Z.lor B_VALID B_DIRTY)) with B_VALID.
  by rewrite Z.land_lor_distr_l, Z.land_diag, lor_land_absorb, Z.eqb_refl.
Qed.

(** The registers select the sector that the driver means. *)
Lemma sel_encode r dev sector :
  0 <= sector < FSSIZE → dev = 0 ∨ dev = 1 →
  r 0x1f3 = Z.land sector 0xff → r 0x1f4 = Z.land (Z.shiftr sector 8) 0xff →
  r 0x1f5 = Z.land (Z.shiftr sector 16) 0xff →
  r 0x1f6 = Z.lor (Z.lor 0xe0 (Z.shiftl (Z.land dev 1) 4)) (Z.land (Z.shiftr sector 24) 0x0f) →
  sel_drive r = dev ∧ sel_sector r = sector.
Proof.
  unfold FSSIZE. intros Hs Hd E3 E4 E5 E6. unfold sel_drive, sel_sector. rewrite E3, E4, E5, E6.
  change 0xff with (Z.ones 8). rewrite !Z.land_ones by done.
  rewrite !Z.shiftr_div_pow2 by done. rewrite (Z.div_small sector (2^24)) by lia.
  split; [by destruct Hd as [-> | ->]|].
  replace (Z.land (Z.lor (Z.lor 0xe0 (Z.shiftl (Z.land dev 1) 4)) (Z.land 0 15)) 15) with 0 by (by destruct Hd as [-> | ->]).
  rewrite (Z.div_small sector (2^16)) by lia.
  change (Z.pow 2 8) with 256. Z.div_mod_to_equations. lia.
Qed.

Section Props.
Context {D : Type} `{AtaLaws D}.

(** ** The controller, as the driver uses it *)

Definition same_disk (d d' : D) : Prop := media d' = media d ∧ phase_of d' = phase_of d.

Lemma poll_spec fuel : ∀ s : ide (D := D),
  (busy (ctl s) < fuel)%nat →
  ∃ r d, poll fuel s = Ret r (set_ctl d s) ∧ same_disk (ctl s) d ∧
    (Z.land r (Z.lor IDE_DF IDE_ERR) = 0 ↔ phase_of (ctl s) ≠ PGive None).
Proof.
  induction fuel as [|fuel IH]; intros s Hb; [lia|]. cbn [poll]. unfold bind, in_b.
  destruct (Z.eqb_spec (Z.land (inb 0x1f7 (ctl s)).1 (Z.lor IDE_BSY IDE_DRDY)) IDE_DRDY) as [E|E]; cbn [negb].
  - eexists _, _. split; [done|]. split; [split; [apply status_media|apply status_phase]|by apply status_err].
  - assert (Hn : busy (ctl s) ≠ 0%nat) by (intros Hz; by apply E, status_ready).
    pose proof (status_busy _ Hn). destruct (IH (set_ctl (inb 0x1f7 (ctl s)).2 s)) as (r & d & Er & [Hm Hp] & Hr);
      [cbn; lia|]. cbn [ctl set_ctl] in *. rewrite status_media in Hm. rewrite status_phase in Hp, Hr.
    exists r, d. done.
Qed.

Lemma idewait_spec ck (s : ide (D := D)) :
  ∃ r d, idewait ck s = Ret r (set_ctl d s) ∧ same_disk (ctl s) d ∧
    (ck = true → 0 <= r ↔ phase_of (ctl s) ≠ PGive None).
Proof.
  pose proof (busy_bound (ctl s)). destruct (poll_spec (S patience) s) as (r & d & E & Hd & Hr); [lia|].
  unfold idewait, bind. rewrite E.
  destruct (Z.eqb_spec (Z.land r (Z.lor IDE_DF IDE_ERR)) 0) as [Ez|Ez]; destruct ck; cbn [andb negb];
    eexists _, d; (split; [reflexivity|]); (split; [done|]); intros Hck; try done.
  - split; [intros _; by apply Hr|done].
  - split; [lia|intros Hp; by apply Hr in Hp].
Qed.

(** The controller at work on a request, on disks that held [m] before. *)
Definition working (m : sectors) (bf : buf) (d : D) : Prop :=
  media d = serve_disk m bf ∧
  (dirty bf = false → phase_of d = PGive (m (b_dev bf) (b_blockno bf))).

Lemma idestart_spec (s : ide (D := D)) b bf :
  ibufs s !! b = Some bf → request_ok bf →
  ∃ d, idestart (Some b) s = Ret tt (set_ctl d s) ∧ working (media (ctl s)) bf d.
Proof.
  intros Hb [Hr Hd]. unfold idestart, bind at 1, buf_at, gets. rewrite (list_lookup_total_correct _ _ _ Hb).
  destruct (Z.leb_spec FSSIZE (b_blockno bf)); [lia|]. change (BSIZE / SECTOR_SIZE) with 1.
  cbv zeta. change (1 =? 1) with true. change (7 <? 1) with false. cbv iota. rewrite Z.mul_1_r.
  destruct (idewait_spec false s) as (r & d0 & E & [Hm _] & _). unfold bind at 1. rewrite E.
  unfold bind, out_b, out_sl, modify. cbn [set_ctl ctl].
  set (d1 := outb 0x1f6 _ _).
  assert (M1 : media d1 = media (ctl s)) by (unfold d1; rewrite !reg_media by lia; by rewrite ctl_media).
  assert (R1 : reg d1 0x1f2 = 1).
  { unfold d1. rewrite !reg_keep by lia. by rewrite reg_set by lia. }
  destruct (sel_encode (reg d1) (b_dev bf) (b_blockno bf) Hr Hd) as [Hdr Hsec].
  { unfold d1. rewrite !reg_keep by lia. by rewrite reg_set by lia. }
  { unfold d1. rewrite !reg_keep by lia. by rewrite reg_set by lia. }
  { unfold d1. rewrite !reg_keep by lia. by rewrite reg_set by lia. }
  { unfold d1. by rewrite reg_set by lia. }
  fold (dirty bf). unfold working, serve_disk. destruct (dirty bf) eqn:Edirty.
  - exists (outsl (b_data bf) (outb 0x1f7 IDE_CMD_WRITE d1)). split; [reflexivity|]. split; [|done].
    rewrite (take_bytes _ _ _ _ (cmd_write d1 R1)), cmd_media, M1. by rewrite Hdr, Hsec.
  - exists (outb 0x1f7 IDE_CMD_READ d1). split; [reflexivity|]. split; [by rewrite cmd_media|]. intros _.
    by rewrite (cmd_read d1 R1), M1, Hdr, Hsec.
Qed.

(** ** The queue *)

(** The pointers from [p] lead through the buffers of [l]. *)
Fixpoint chain (qn : list (option nat)) (p : option nat) (l : list nat) : Prop :=
  match l with
  | [] => p = None
  | b :: l' => p = Some b ∧ (b < length qn)%nat ∧ chain qn (qn !!! b) l'
  end.

Lemma chain_insert qn b v l : ∀ p, b ∉ l → chain qn p l → chain (<[b := v]> qn) p l.
Proof.
  induction l as [|x l IH]; intros p Hb Hc; [done|]. apply not_elem_of_cons in Hb as [Hne Hb].
  destruct Hc as (-> & Hx & Hc). cbn [chain]. rewrite length_insert, list_lookup_total_insert_ne by done. auto.
Qed.

Lemma chain_last qn l : ∀ x fuel,
  chain qn (Some x) (x :: l) → (length l < fuel)%nat → last_of fuel qn x = last (x :: l).
Proof.
  induction l as [|y l IH]; intros x [|fuel] Hc Hf; try (cbn in Hf; lia); cbn [last_of].
  - destruct Hc as (_ & _ & E). cbn [chain] in E. by rewrite E.
  - destruct Hc as (_ & Hx & Hc). pose proof Hc as (E & _ & _). rewrite E.
    rewrite E in Hc. rewrite IH; [done|exact Hc|cbn in Hf; lia].
Qed.

(** Linking a new buffer behind the last one. *)
Lemma chain_snoc qn l : ∀ p x b,
  NoDup (l ++ [x]) → b ∉ l ++ [x] → (b < length qn)%nat → qn !! b = Some None → chain qn p (l ++ [x]) →
  chain (<[x := Some b]> qn) p ((l ++ [x]) ++ [b]).
Proof.
  induction l as [|y l IH]; intros p x b Hnd Hb Hlt Hq Hc; cbn [app] in *.
  - destruct Hc as (-> & Hx & _). cbn [chain]. rewrite length_insert, list_lookup_total_insert_eq by done.
    assert (b ≠ x) by set_solver. rewrite list_lookup_total_insert_ne by done.
    by rewrite (list_lookup_total_correct _ _ _ Hq).
  - apply NoDup_cons in Hnd as [Hy Hnd]. destruct Hc as (-> & Hlty & Hc). cbn [chain].
    rewrite length_insert, list_lookup_total_insert_ne by set_solver.
    split; [done|]. split; [done|]. apply IH; set_solver.
Qed.

Lemma chain_lt qn l : ∀ p, chain qn p l → Forall (λ b, (b < length qn)%nat) l.
Proof. induction l as [|x l IH]; intros p Hc; [done|]. destruct Hc as (_ & Hx & Hc). constructor; eauto. Qed.

Lemma chain_length qn l p : NoDup l → chain qn p l → (length l <= length qn)%nat.
Proof.
  intros Hnd Hc. apply chain_lt in Hc. rewrite Forall_forall in Hc.
  rewrite <- (length_seq (length qn) 0). apply submseteq_length, NoDup_submseteq; [done|].
  intros x Hx. apply elem_of_seq. specialize (Hc _ Hx). lia.
Qed.

(** ** One interrupt *)

Lemma ide_fill_spec (s : ide (D := D)) b bf m :
  ibufs s !! b = Some bf → working m bf (ctl s) →
  ∃ d bf', ide_fill b s = Ret tt (set_ctl d (set_buf b bf' s)) ∧ media d = serve_disk m bf ∧
    set_flags (done_flags (b_flags bf')) bf' = serve_buf m bf.
Proof.
  intros Hb [Hm Hp]. unfold ide_fill, bind at 1, buf_at, gets. rewrite (list_lookup_total_correct _ _ _ Hb).
  unfold serve_buf. destruct (dirty bf) eqn:Ed; unfold dirty in Ed.
  - apply negb_true_iff in Ed. rewrite Ed. exists (ctl s), bf. split; [|done].
    unfold ret. f_equal. destruct s. unfold set_ctl, set_buf. cbn in *. by rewrite list_insert_id.
  - apply negb_false_iff in Ed. rewrite Ed. specialize (Hp eq_refl).
    destruct (idewait_spec true s) as (r & d & E & [Hm' Hp'] & Hr). unfold bind at 1. rewrite E.
    specialize (Hr eq_refl). rewrite Hp in Hp', Hr.
    destruct (m (b_dev bf) (b_blockno bf)) as [bytes|] eqn:Em.
    + destruct (Z.leb_spec 0 r); [|exfalso; assert (0 <= r) by (by apply Hr); lia].
      exists (insl d).2, (set_data bytes bf). unfold bind, in_sl, modify. cbn [ctl set_ctl].
      rewrite (give_bytes d bytes Hp'). split; [done|]. by rewrite give_media, Hm'.
    + destruct (Z.leb_spec 0 r) as [Hge|]; [by apply Hr in Hge|].
      exists d, bf. split; [|by rewrite Hm']. unfold ret. f_equal. destruct s. unfold set_ctl, set_buf. cbn in *.
      by rewrite list_insert_id.
Qed.

Lemma ide_mark_spec (s : ide (D := D)) b bf :
  ibufs s !! b = Some bf →
  ide_mark b s = Ret tt (set_buf b (set_flags (done_flags (b_flags bf)) bf) s).
Proof.
  intros Hb. unfold ide_mark, bind, buf_at, gets, modify. cbn [set_buf ibufs].
  assert (b < length (ibufs s))%nat by (by eapply lookup_lt_Some).
  rewrite (list_lookup_total_correct _ _ _ Hb), list_lookup_total_insert_eq by done.
  f_equal. unfold set_buf. cbn. by rewrite list_insert_insert_eq.
Qed.

(** The disk is free, or at work on the first of the queue. *)
Definition at_work (m : sectors) (bs : list buf) (q : list nat) (d : D) : Prop :=
  match q with
  | [] => media d = m
  | b :: _ => working m (bs !!! b) d
  end.

Definition req (bs : list buf) (b : nat) : Prop :=
  ∃ bf, bs !! b = Some bf ∧ request_ok bf ∧ pending bf = true.

Lemma ideintr_idle (s : ide (D := D)) : ide_lock s = false → idequeue s = None → ideintr s = Ret tt s.
Proof.
  intros Hl Hq. unfold ideintr, acquire, release, bind, gets. cbn. rewrite Hl. cbn. rewrite Hq.
  cbn. f_equal. destruct s. cbn in *. by subst.
Qed.

Lemma ideintr_serves (s : ide (D := D)) b q bf m :
  ide_lock s = false → NoDup (b :: q) → chain (qnext s) (idequeue s) (b :: q) →
  ibufs s !! b = Some bf → Forall (req (ibufs s)) q → working m bf (ctl s) →
  ∃ d, ideintr s = Ret tt (Ide false (qnext s !!! b) (havedisk1 s) (<[b := serve_buf m bf]> (ibufs s)) (qnext s)
      (ide_woken s ++ [ChBuf b]) d) ∧
    at_work (serve_disk m bf) (<[b := serve_buf m bf]> (ibufs s)) q d.
Proof.
  intros Hl Hnd (Eq & Hlt & Hc) Hb Hq Hw. unfold ideintr, bind, gets, modify, acquire.
  cbn [lock_held ide_has_lock]. rewrite Hl. cbn [idequeue set_lock ide_has_lock]. rewrite Eq.
  match goal with |- context [ide_fill b ?s0] => set (s1 := s0) end.
  destruct (ide_fill_spec s1 b bf m) as (d & bf' & E1 & Hm & Hf); [done|done|]. rewrite E1.
  assert (b < length (ibufs s))%nat by (by eapply lookup_lt_Some).
  rewrite (ide_mark_spec _ b bf') by (cbn; by apply list_lookup_insert_eq).
  rewrite Hf. unfold s1, set_ctl, set_buf, set_idequeue, add_woken, wake_buf, modify. cbn. rewrite list_insert_insert_eq.
  apply NoDup_cons in Hnd as [Hb' _]. destruct q as [|b2 q]; cbn [chain] in Hc.
  - rewrite Hc. cbn. exists d. split; [done|]. exact Hm.
  - destruct Hc as (-> & _). rewrite decide_False by done. inversion Hq as [|? ? (bf2 & Hb2 & Hok & _) ?]; subst.
    match goal with |- context [idestart _ ?s0] => set (s2 := s0) end.
    assert (E2 : ibufs s2 !! b2 = Some bf2) by (cbn; rewrite list_lookup_insert_ne by set_solver; done).
    destruct (idestart_spec s2 b2 bf2 E2 Hok) as (d2 & Es & Hw2). rewrite Es. exists d2. split; [done|].
    cbn [at_work]. rewrite (list_lookup_total_correct _ _ _ E2). change (media (ctl s2)) with (media d) in Hw2.
    by rewrite Hm in Hw2.
Qed.

(** ** One call *)

Lemma link_last_spec (s : ide (D := D)) b q :
  chain (qnext s) (idequeue s) q → NoDup q → b ∉ q → (b < length (qnext s))%nat → qnext s !! b = Some None →
  ∃ qn, link_last b s = Ret tt (Ide (ide_lock s) (hd_error (q ++ [b])) (havedisk1 s) (ibufs s) qn (ide_woken s) (ctl s)) ∧
    length qn = length (qnext s) ∧ chain qn (hd_error (q ++ [b])) (q ++ [b]).
Proof.
  intros Hc Hnd Hb Hlt Hq. unfold link_last, bind, gets. cbn [id]. destruct q as [|h q].
  - cbn [chain] in Hc. rewrite Hc. exists (qnext s). split; [done|]. split; [done|]. cbn.
    by rewrite (list_lookup_total_correct _ _ _ Hq).
  - pose proof Hc as (Eh & _). rewrite Eh. pose proof (chain_length _ _ _ Hnd Hc).
    rewrite Eh in Hc. rewrite (chain_last _ q) by (done || (cbn in *; lia)).
    destruct (exists_last (l := h :: q)) as (l & x & El); [done|]. rewrite El, last_snoc.
    exists (<[x := Some b]> (qnext s)). unfold modify, set_qnext. rewrite Eh.
    assert (Ehd : hd_error ((l ++ [x]) ++ [b]) = Some h) by (by rewrite <- El).
    rewrite Ehd. split; [done|]. split; [apply length_insert|]. rewrite El in Hc, Hnd, Hb.
    by apply chain_snoc.
Qed.

(** A call that passes its checks puts the buffer last, starts the disk if it is
    free, and sleeps. *)
Lemma iderw_queues (s : ide (D := D)) me b bf q m :
  ide_lock s = false → length (qnext s) = length (ibufs s) →
  chain (qnext s) (idequeue s) q → NoDup q → b ∉ q → ibufs s !! b = Some bf → request_ok bf →
  pending bf = true → at_work m (ibufs s) q (ctl s) →
  holdingsleep me (b_lock bf) = true → b_dev bf = 0 ∨ havedisk1 s = true →
  ∃ qn d, iderw me b s = Sleep (ChBuf b) (Ide false (hd_error (q ++ [b])) (havedisk1 s) (ibufs s) qn (ide_woken s) d) ∧
    length qn = length (ibufs s) ∧ chain qn (hd_error (q ++ [b])) (q ++ [b]) ∧ at_work m (ibufs s) (q ++ [b]) d.
Proof.
  intros Hl Hlen Hc Hnd Hb Hbf Hok Hp Hw Hh Hd1. pose proof (lookup_lt_Some _ _ _ Hbf) as Hlt.
  unfold iderw, bind at 1 2, buf_at, gets. rewrite (list_lookup_total_correct _ _ _ Hbf), Hh. cbn [negb].
  unfold pending in Hp. rewrite negb_true_iff in Hp. rewrite Hp.
  replace (negb (b_dev bf =? 0) && negb (havedisk1 s)) with false
    by (destruct Hd1 as [-> | ->]; [done|by rewrite andb_false_r]).
  unfold bind, acquire, modify. cbn [lock_held ide_has_lock]. rewrite Hl. cbn [set_lock ide_has_lock].
  match goal with |- context [link_last b ?s0] => set (s1 := s0) end.
  destruct (link_last_spec s1 b q) as (qn & E & Hql & Hqc); try done.
  { by apply chain_insert. }
  { cbn. rewrite length_insert. lia. }
  { cbn. apply list_lookup_insert_eq. lia. }
  rewrite E. cbv beta iota. cbn [idequeue]. cbn in Hql. rewrite length_insert, Hlen in Hql.
  assert (Hwait : ∀ d : D, iderw_wait b (Ide true (hd_error (q ++ [b])) (havedisk1 s) (ibufs s) qn (ide_woken s) d) =
    Sleep (ChBuf b) (Ide false (hd_error (q ++ [b])) (havedisk1 s) (ibufs s) qn (ide_woken s) d)).
  { intros d. unfold iderw_wait, bind, buf_at, gets. cbn [ibufs]. by rewrite (list_lookup_total_correct _ _ _ Hbf), Hp. }
  destruct q as [|h q]; cbn [app hd_error] in *.
  - rewrite decide_True by done. match goal with |- context [idestart _ ?s0] => set (s2 := s0) end.
    destruct (idestart_spec s2 b bf) as (d & Es & Hwd); [done|done|]. rewrite Es. exists qn, d.
    split; [apply Hwait|]. split; [done|]. split; [done|]. cbn [at_work] in *. rewrite (list_lookup_total_correct _ _ _ Hbf).
    change (media (ctl s2)) with (media (ctl s)) in Hwd. by rewrite Hw in Hwd.
  - rewrite decide_False by set_solver. exists qn, (ctl s). split; [apply Hwait|]. done.
Qed.

Lemma iderw_resume_done (s : ide (D := D)) b :
  ide_lock s = false → pending (ibufs s !!! b) = false → iderw_resume b s = Ret tt s.
Proof.
  intros Hl Hp. unfold iderw_resume, iderw_wait, bind, acquire, buf_at, gets, release. cbn. rewrite Hl. cbn.
  unfold pending in Hp. rewrite Hp. cbn. f_equal. destruct s. cbn in *. by subst.
Qed.

(** A call that gets as far as sleeping has passed its checks. *)
Lemma iderw_checked (s : ide (D := D)) me b bf ch s' :
  ibufs s !! b = Some bf → iderw me b s = Sleep ch s' →
  holdingsleep me (b_lock bf) = true ∧ pending bf = true ∧ (b_dev bf = 0 ∨ havedisk1 s = true).
Proof.
  intros Hb. unfold iderw, bind at 1 2, buf_at, gets. rewrite (list_lookup_total_correct _ _ _ Hb).
  destruct (holdingsleep me (b_lock bf)); [|done]. cbn [negb].
  unfold pending. destruct (Z.eqb_spec (Z.land (b_flags bf) (Z.lor B_VALID B_DIRTY)) B_VALID); [done|].
  destruct (Z.eqb_spec (b_dev bf) 0); cbn [negb andb]; [by auto|].
  destruct (havedisk1 s); [by auto|done].
Qed.

(** ** The relation *)

Record ide_rel (y : idesys (D := D)) (a : disksys) : Prop := {
  ir_lock : ide_lock (drv y) = false;
  ir_len : length (qnext (drv y)) = length (ibufs (drv y));
  ir_bufs : dbufs a = ibufs (drv y);
  ir_chain : chain (qnext (drv y)) (idequeue (drv y)) (queue a);
  ir_nodup : NoDup (queue a);
  ir_reqs : Forall (req (ibufs (drv y))) (queue a);
  ir_work : at_work (disk a) (ibufs (drv y)) (queue a) (ctl (drv y));
  ir_asleep : ∀ b, inside y !! b = Some true ↔ b ∈ queue a;
  ir_awake : ∀ b, inside y !! b = Some false ↔ b ∈ served a;
  ir_served : ∀ b, b ∈ served a → pending (ibufs (drv y) !!! b) = false }.

Lemma inside_none y a b : ide_rel y a → inside y !! b = None ↔ b ∉ queue a ∧ b ∉ served a.
Proof.
  intros R. rewrite <- (ir_asleep _ _ R), <- (ir_awake _ _ R). destruct (inside y !! b) as [[]|]; naive_solver.
Qed.

(** Changing a buffer that is not in a request. *)
Lemma touch_rel y a b bf :
  ide_rel y a → inside y !! b = None →
  ide_rel (IdeSys (set_buf b bf (drv y)) (inside y)) (DiskSys (queue a) (<[b := bf]> (dbufs a)) (disk a) (served a)).
Proof.
  intros R Hb. apply (inside_none _ _ _ R) in Hb as [Hq Hs]. destruct R.
  split; cbn [drv inside set_buf ide_lock qnext ibufs idequeue ctl dbufs queue served disk]; try done.
  - by rewrite length_insert.
  - by rewrite ir_bufs0.
  - rewrite Forall_forall in *. intros x Hx. destruct (ir_reqs0 x Hx) as (bx & E & ?). exists bx.
    by rewrite list_lookup_insert_ne by set_solver.
  - destruct (queue a) as [|h q]; [done|]. cbn [at_work] in *. by rewrite list_lookup_total_insert_ne by set_solver.
  - intros x Hx. rewrite list_lookup_total_insert_ne by set_solver. by apply ir_served0.
Qed.

Lemma call_rel y a b me bf ch s :
  ide_rel y a → inside y !! b = None → ibufs (drv y) !! b = Some bf → request_ok bf →
  iderw me b (quiet (drv y)) = Sleep ch s →
  pending bf = true ∧ ide_rel (IdeSys s (<[b := true]> (inside y))) (DiskSys (queue a ++ [b]) (dbufs a) (disk a) (served a)).
Proof.
  intros R Hin Hb Hok E. destruct (iderw_checked (quiet (drv y)) _ _ bf _ _ Hb E) as (Hh & Hp & Hd). split; [done|].
  apply (inside_none _ _ _ R) in Hin as [Hq Hs]. pose proof R as [].
  destruct (iderw_queues (quiet (drv y)) me b bf (queue a) (disk a)) as (qn & d & E' & Hl & Hc & Hw); try done.
  rewrite E' in E. injection E as <- <-.
  split; cbn [drv inside ide_lock qnext ibufs idequeue ctl dbufs queue served disk quiet havedisk1]; try done.
  - by apply NoDup_snoc.
  - apply Forall_app. split; [done|]. constructor; [|done]. by exists bf.
  - intros x. rewrite elem_of_app, list_elem_of_singleton, <- ir_asleep0. destruct (decide (x = b)) as [->|].
    + rewrite lookup_insert_eq. tauto.
    + rewrite lookup_insert_ne by done. tauto.
  - intros x. rewrite <- ir_awake0. destruct (decide (x = b)) as [->|].
    + rewrite lookup_insert_eq. split; [done|]. intros Hx%ir_awake0. done.
    + by rewrite lookup_insert_ne by done.
Qed.

Lemma lookup_wakes_in ws (m : gmap nat bool) b :
  wakes_in ws m !! b = (λ asleep, asleep && negb (bool_decide (ChBuf b ∈ ws))) <$> m !! b.
Proof. unfold wakes_in. rewrite map_lookup_imap. by destruct (m !! b). Qed.

(** An interrupt that finds no request changes nothing. *)
Lemma idle_rel y a :
  ide_rel y a → queue a = [] →
  ideintr (quiet (drv y)) = Ret tt (quiet (drv y)) ∧ ide_rel (IdeSys (quiet (drv y)) (wakes_in [] (inside y))) a.
Proof.
  intros R Hq. destruct R. rewrite Hq in ir_chain0. split; [by apply ideintr_idle|].
  split; cbn [drv inside]; try done.
  - cbn [quiet qnext idequeue]. by rewrite Hq.
  - intros b. rewrite lookup_wakes_in, <- ir_asleep0. rewrite bool_decide_false by set_solver.
    destruct (inside y !! b) as [[]|]; done.
  - intros b. rewrite lookup_wakes_in, <- ir_awake0. rewrite bool_decide_false by set_solver.
    destruct (inside y !! b) as [[]|]; done.
Qed.

Definition serve_first (a : disksys) (b : nat) (q : list nat) (bf : buf) : disksys :=
  DiskSys q (<[b := serve_buf (disk a) bf]> (dbufs a)) (serve_disk (disk a) bf) ({[b]} ∪ served a).

(** Any other one serves the first request. *)
Lemma intr_rel y a b q :
  ide_rel y a → queue a = b :: q →
  ∃ bf s, dbufs a !! b = Some bf ∧ ideintr (quiet (drv y)) = Ret tt s ∧
    ide_rel (IdeSys s (wakes_in (ide_woken s) (inside y))) (serve_first a b q bf).
Proof.
  intros R Eq. pose proof R as []. rewrite Eq in *. apply Forall_cons in ir_reqs0 as [(bf & Hb & Hok & Hp) Hreqs].
  cbn [at_work] in ir_work0. rewrite (list_lookup_total_correct _ _ _ Hb) in ir_work0.
  destruct (ideintr_serves (quiet (drv y)) b q bf (disk a)) as (d & E & Hw); try done.
  exists bf. eexists. split; [by rewrite ir_bufs0|]. split; [exact E|]. clear E.
  destruct ir_chain0 as (Eb & Hlt & Hc). apply NoDup_cons in ir_nodup0 as [Hbq Hnd].
  split; cbn [drv inside ide_lock qnext ibufs idequeue ctl dbufs queue served disk serve_first quiet ide_woken app]; try done.
  - by rewrite length_insert.
  - by rewrite ir_bufs0.
  - rewrite Forall_forall in *. intros x Hx. destruct (Hreqs x Hx) as (bx & E & ?). exists bx.
    by rewrite list_lookup_insert_ne by set_solver.
  - intros x. rewrite lookup_wakes_in. pose proof (ir_asleep0 x) as Ha. destruct (decide (x = b)) as [->|Hne].
    + rewrite bool_decide_true by set_solver. destruct (inside y !! b) as [[]|]; done.
    + rewrite bool_decide_false by set_solver. destruct (inside y !! x) as [[]|]; set_solver.
  - intros x. rewrite lookup_wakes_in. pose proof (ir_asleep0 x) as Ha. pose proof (ir_awake0 x) as Hf.
    destruct (decide (x = b)) as [->|Hne].
    + rewrite bool_decide_true by set_solver. destruct (inside y !! b) as [[]|]; set_solver.
    + rewrite bool_decide_false by set_solver. destruct (inside y !! x) as [[]|]; set_solver.
  - intros x Hx. destruct (decide (x = b)) as [->|Hne].
    + rewrite list_lookup_total_insert_eq by (by eapply lookup_lt_Some). apply served_not_pending.
    + rewrite list_lookup_total_insert_ne by done. apply ir_served0. set_solver.
Qed.

Lemma return_rel y a b :
  ide_rel y a → inside y !! b = Some false →
  iderw_resume b (quiet (drv y)) = Ret tt (quiet (drv y)) ∧ disk_step a (DiskSys (queue a) (dbufs a) (disk a) (served a ∖ {[b]})) ∧
  ide_rel (IdeSys (quiet (drv y)) (delete b (inside y))) (DiskSys (queue a) (dbufs a) (disk a) (served a ∖ {[b]})).
Proof.
  intros R Hb. pose proof R as []. apply ir_awake0 in Hb as Hs.
  split; [by apply iderw_resume_done; [|apply ir_served0]|].
  split; [constructor; [done|]; rewrite ir_bufs0; by apply ir_served0|].
  split; cbn [drv inside quiet ide_lock qnext ibufs idequeue ctl dbufs queue served disk]; try done.
  - intros x. rewrite <- ir_asleep0. destruct (decide (x = b)) as [->|].
    + rewrite lookup_delete_eq, Hb. done.
    + by rewrite lookup_delete_ne.
  - intros x. rewrite elem_of_difference, elem_of_singleton, <- ir_awake0. destruct (decide (x = b)) as [->|].
    + rewrite lookup_delete_eq. naive_solver.
    + rewrite lookup_delete_ne by done. naive_solver.
  - intros x Hx. apply ir_served0. set_solver.
Qed.

(** ** Every step of the system is a step of the specification, or none. *)
Lemma ide_step_rel y a y' :
  ide_rel y a → ide_step y y' → ∃ a', rtc disk_step a a' ∧ ide_rel y' a'.
Proof.
  intros R Hs. destruct Hs as [b bf Hin Hlt|b me bf ch s Hin Hb Hok E|s E|b s Hin E|b ch s Hin E].
  - eexists. split; [|by apply touch_rel]. apply rtc_once. apply (inside_none _ _ _ R) in Hin as [? ?]. by constructor.
  - destruct (call_rel _ _ _ _ _ _ _ R Hin Hb Hok E) as [Hp R']. eexists. split; [|exact R']. apply rtc_once.
    apply (inside_none _ _ _ R) in Hin as [? ?]. econstructor; [done..| |exact Hp]. by rewrite (ir_bufs _ _ R).
  - destruct (queue a) as [|b q] eqn:Eq.
    + destruct (idle_rel _ _ R Eq) as [E' R']. rewrite E' in E. injection E as <-. exists a. split; [apply rtc_refl|exact R'].
    + destruct (intr_rel _ _ _ _ R Eq) as (bf & s' & Hb & E' & R'). rewrite E' in E. injection E as <-.
      exists (serve_first a b q bf). split; [apply rtc_once; by constructor|exact R'].
  - destruct (return_rel _ _ _ R Hin) as (E' & Hst & R'). rewrite E' in E. injection E as <-.
    eexists. split; [by apply rtc_once|exact R'].
  - destruct (return_rel _ _ _ R Hin) as (E' & _). by rewrite E' in E.
Qed.

(** The driver before the first request. *)
Definition ide_boot (y : idesys (D := D)) : Prop :=
  ide_lock (drv y) = false ∧ idequeue (drv y) = None ∧ length (qnext (drv y)) = length (ibufs (drv y)) ∧ inside y = ∅.
Definition disk_boot (y : idesys (D := D)) : disksys :=
  DiskSys [] (ibufs (drv y)) (media (ctl (drv y))) ∅.

Lemma ide_boot_rel y : ide_boot y → ide_rel y (disk_boot y).
Proof.
  intros (Hl & Hq & Hlen & Hi). split; cbn; try done.
  - by apply NoDup_nil.
  - intros b. rewrite Hi, lookup_empty. set_solver.
  - intros b. rewrite Hi, lookup_empty. set_solver.
Qed.

Lemma ide_steps_rel y a y' :
  rtc ide_step y y' → ide_rel y a → ∃ a', rtc disk_step a a' ∧ ide_rel y' a'.
Proof.
  intros Hs. revert a. induction Hs as [y|y y1 y' H1 _ IH]; intros a R; [exists a; by split|].
  destruct (ide_step_rel _ _ _ R H1) as (a1 & Ha1 & R1). destruct (IH a1 R1) as (a' & Ha' & R').
  exists a'. split; [by etrans|done].
Qed.

(** As many interrupts as there are requests serve them all. *)
Lemma interrupts_serve n : ∀ y a,
  ide_rel y a → length (queue a) = n →
  ∃ y', nsteps ide_step n y y' ∧ dom (inside y') = dom (inside y) ∧ ∀ b, inside y' !! b ≠ Some true.
Proof.
  induction n as [|n IH]; intros y a R Hn.
  - exists y. split; [constructor|]. split; [done|]. intros b Hb%(ir_asleep _ _ R).
    apply nil_length_inv in Hn. rewrite Hn in Hb. set_solver.
  - destruct (queue a) as [|b q] eqn:Eq; [done|]. destruct (intr_rel _ _ _ _ R Eq) as (bf & s & _ & E & R').
    destruct (IH _ _ R') as (y' & Hs & Hd & Hy); [cbn in *; lia|]. exists y'. split; [|split; [|done]].
    + econstructor; [by apply I_intr|exact Hs].
    + rewrite Hd. cbn [inside]. apply set_eq. intros x. rewrite !elem_of_dom, lookup_wakes_in. by rewrite fmap_is_Some.
Qed.

(** C16. The IDE driver behaves as a disk that serves its requests one at a
    time, in the order of the calls: each dirty buffer is written to its sector
    and each other one is filled from it, whatever other calls, interrupts and
    changes to other buffers happen in between. The calls that sleep are those
    whose request is in the queue; when the queue is empty the disk holds what
    the specification says; a call for a locked buffer that has something to
    read or write always gets into the queue; and as many interrupts as there
    are requests wake every sleeper. *)
Theorem ide_driver_refines (y y' : idesys (D := D)) :
  ide_boot y → rtc ide_step y y' →
  ∃ a, rtc disk_step (disk_boot y) a ∧ dbufs a = ibufs (drv y') ∧
    (∀ b, inside y' !! b = Some true ↔ b ∈ queue a) ∧
    (queue a = [] → media (ctl (drv y')) = disk a) ∧
    (∀ b me bf, inside y' !! b = None → ibufs (drv y') !! b = Some bf → request_ok bf → pending bf = true →
       holdingsleep me (b_lock bf) = true → b_dev bf = 0 ∨ havedisk1 (drv y') = true →
       ∃ s, iderw me b (quiet (drv y')) = Sleep (ChBuf b) s) ∧
    ∃ y'', nsteps ide_step (length (queue a)) y' y'' ∧ dom (inside y'') = dom (inside y') ∧ ∀ b, inside y'' !! b ≠ Some true.
Proof.
  intros Hb Hs. destruct (ide_steps_rel _ _ _ Hs (ide_boot_rel _ Hb)) as (a & Ha & R).
  exists a. split; [done|]. split; [apply R|]. split; [apply R|]. split; [|split; [|by eapply interrupts_serve]].
  { intros Eq. pose proof (ir_work _ _ R) as Hw. by rewrite Eq in Hw. }
  intros b me bf Hin Hbf Hok Hp Hh Hd. apply (inside_none _ _ _ R) in Hin as [Hq _]. pose proof R as [].
  destruct (iderw_queues (quiet (drv y')) me b bf (queue a) (disk a)) as (qn & d & E & _); try done. eauto.
Qed.
End Props.
