(* ===== verification/IdeExample.v ===== *)
(** * A disk for the IDE driver

    A controller that has the laws of Ide, on which the driver runs: two
    processes, one writing a block and one reading it back; a sector that cannot
    be read; and the memory disk of memide.c next to this driver. *)

From S2P Require Import Prelude Memory Spinlock BlockCache Bio Ide IdeProps.

(** Its sectors and registers, its phase, and whether it is busy. *)
Record ata := MkAta { a_media : sectors; a_reg : Z → Z; a_phase : phase; a_busy : bool }.

Definition ata_status (d : ata) : Z :=
  if a_busy d then IDE_BSY
  else Z.lor IDE_DRDY (match a_phase d with PGive None => IDE_ERR | _ => 0 end).

Definition ata_outb (p v : Z) (d : ata) : ata :=
  if p =? 0x1f7 then
    MkAta (a_media d) (a_reg d)
      (if v =? IDE_CMD_READ then PGive (a_media d (sel_drive (a_reg d)) (sel_sector (a_reg d)))
       else if v =? IDE_CMD_WRITE then PTake (sel_drive (a_reg d)) (sel_sector (a_reg d)) else PIdle) true
  else if p =? 0x3f6 then d
  else MkAta (a_media d) (λ q, if q =? p then v else a_reg d q) (a_phase d) (a_busy d).

#[export] Instance ata_ops : Ata ata := {|
  inb p d := (ata_status d, MkAta (a_media d) (a_reg d) (a_phase d) false);
  outb := ata_outb;
  outsl bytes d := MkAta (match a_phase d with PTake dr sec => store (a_media d) dr sec bytes | _ => a_media d end)
    (a_reg d) PIdle true;
  insl d := (match a_phase d with PGive (Some bytes) => bytes | _ => [] end, MkAta (a_media d) (a_reg d) PIdle false);
  patience := 1 |}.

#[export] Instance ata_laws : AtaLaws ata.
Proof.
  refine {| media := a_media; reg := a_reg; phase_of := a_phase; busy d := if a_busy d then 1%nat else 0%nat |}.
  - intros d. cbn. destruct (a_busy d); lia.
  - done.
  - done.
  - intros d. cbn. destruct (a_busy d); [lia|done].
  - intros [m r [| |[]] []]; cbn; done.
  - intros [m r [| |[]] []]; cbn; try done; intros _; split; done.
  - done.
  - intros p v d Hp. cbn. unfold ata_outb. zcases.
  - intros p v d Hp. cbn. unfold ata_outb. zcases. cbn. zcases.
  - intros p q v d Hp Hq. cbn. unfold ata_outb. zcases. cbn. zcases.
  - done.
  - done.
  - done.
  - intros d dr sec bytes E. cbn in *. by rewrite E.
  - done.
  - intros d bytes E. cbn in *. by rewrite E.
Defined.

(** ** Two processes *)

(** Process 1 has buffer 0 with something to write to block 5 of disk 1;
    process 2 wants to read that block into buffer 1. *)
Definition blank : ata := MkAta (λ _ _, Some [0]) (λ _, 0) PIdle false.
Definition boot_ide : idesys := IdeSys
  (Ide false None true
    [Buf B_DIRTY 1 5 (SLk true 1) 1 0%nat 0%nat [42]; Buf 0 1 5 (SLk true 2) 1 0%nat 0%nat [7]] [None; None] [] blank) ∅.

(** The state after a call, and after an interrupt. *)
Definition after_call (me : Z) (b : nat) (y : idesys) : idesys :=
  match iderw me b (quiet (drv y)) with Sleep _ s => IdeSys s (<[b := true]> (inside y)) | _ => y end.
Definition after_intr (y : idesys) : idesys :=
  match ideintr (quiet (drv y)) with Ret _ s => IdeSys s (wakes_in (ide_woken s) (inside y)) | _ => y end.

(** What is tested of a state for these to be steps. *)
Definition can_call (me : Z) (b : nat) (y : idesys (D := ata)) : bool :=
  bool_decide (inside y !! b = None) &&
  (match ibufs (drv y) !! b with
   | Some bf => (0 <=? b_blockno bf) && (b_blockno bf <? FSSIZE) && ((b_dev bf =? 0) || (b_dev bf =? 1))
   | None => false
   end) &&
  (match iderw me b (quiet (drv y)) with Sleep _ _ => true | _ => false end).
Definition can_intr (y : idesys (D := ata)) : bool :=
  match ideintr (quiet (drv y)) with Ret _ _ => true | _ => false end.

Lemma call_step me b y : can_call me b y = true → ide_step y (after_call me b y).
Proof.
  unfold can_call, after_call. intros [[Hn%bool_decide_eq_true Hb]%andb_true_iff Hc]%andb_true_iff.
  destruct (ibufs (drv y) !! b) as [bf|] eqn:Eb; [|done]. destruct (iderw me b (quiet (drv y))) eqn:E; try done.
  eapply I_call; [exact Hn|exact Eb| |exact E]. apply andb_true_iff in Hb as [Hb Hd]. zbool. split; [lia|].
  apply orb_true_iff in Hd as [Hd%Z.eqb_eq|Hd%Z.eqb_eq]; auto.
Qed.

Lemma intr_step y : can_intr y = true → ide_step y (after_intr y).
Proof.
  unfold can_intr, after_intr. destruct (ideintr (quiet (drv y))) as [[] s| | |] eqn:E; try done. intros _.
  by apply I_intr.
Qed.

Definition two_calls : idesys := after_call 2 1 (after_call 1 0 boot_ide).
Definition one_served : idesys := after_intr two_calls.

Lemma two_calls_steps : rtc ide_step boot_ide one_served.
Proof.
  eapply rtc_l; [apply (call_step 1 0); vm_compute; reflexivity|].
  eapply rtc_l; [apply (call_step 2 1); vm_compute; reflexivity|].
  apply rtc_once, intr_step. vm_compute. reflexivity.
Qed.

Lemma ide_driver_refines_witness :
  (b_data <$> ibufs (drv (after_intr one_served))) = [[42]; [42]] ∧
  ∃ a, rtc disk_step (disk_boot boot_ide) a ∧ dbufs a = ibufs (drv one_served).
Proof.
  split; [vm_compute; reflexivity|].
  destruct (ide_driver_refines boot_ide one_served) as (a & Ha & Hb & _).
  - repeat split.
  - exact two_calls_steps.
  - exists a. split; [exact Ha|exact Hb].
Defined.

(** ** A sector that cannot be read

    The interrupt handler marks the buffer valid even if the controller reports
    an error: the process goes on with what the buffer held before. *)
Definition damaged : ata := MkAta (λ _ _, None) (λ _, 0) PIdle false.
Definition boot_damaged : idesys := IdeSys
  (Ide false None true [Buf 0 1 5 (SLk true 2) 1 0%nat 0%nat [7]] [None] [] damaged) ∅.

Theorem read_error_marks_valid :
  let y := after_intr (after_call 2 0 boot_damaged) in
  inside y !! 0%nat = Some false ∧
  (b_flags <$> ibufs (drv y)) = [B_VALID] ∧ (b_data <$> ibufs (drv y)) = [[7]].
Proof. vm_compute. done. Qed.

(** ** The memory disk *)

Lemma valid_after_clean f : Z.land f B_DIRTY = 0 → Z.lor f B_VALID = done_flags f.
Proof.
  intros E. unfold done_flags. rewrite Z.land_lor_distr_l. change (Z.land B_VALID (Z.lnot B_DIRTY)) with B_VALID.
  f_equal. apply Z.bits_inj'. intros n Hn. apply (f_equal (λ z, Z.testbit z n)) in E.
  rewrite Z.land_spec in *. rewrite Z.lnot_spec by done. rewrite Z.bits_0 in E.
  by destruct (Z.testbit f n), (Z.testbit B_DIRTY n).
Qed.

Lemma valid_after_dirty f : Z.lor (Z.land f (Z.lnot B_DIRTY)) B_VALID = done_flags f.
Proof. unfold done_flags. rewrite Z.land_lor_distr_l. done. Qed.

(** The other driver, memide.c, does in one call what this one does between the
    call and its return, when no sector of its disk is damaged. *)
Theorem memide_serves_alike (s : bstate) b bf :
  bufs s !! b = Some bf → holdingsleep (curpid s) (b_lock bf) = true → pending bf = true →
  b_dev bf = 1 → b_blockno bf < disksize s →
  ∃ s', Bio.iderw b s = Ret tt s' ∧
    bufs s' = <[b := serve_buf (λ _ k, Some (memdisk s k)) bf]> (bufs s) ∧
    ∀ k, Some (memdisk s' k) = serve_disk (λ _ k, Some (memdisk s k)) bf 1 k.
Proof.
  intros Hb Hh Hp Hd Hn. unfold Bio.iderw. unfold the, upd. steps.
  rewrite (list_lookup_total_correct _ _ _ Hb), Hh. cbn [negb]. unfold pending in Hp. apply negb_true_iff in Hp.
  rewrite Hp, Hd. change (negb (1 =? 1)) with false. cbv iota. destruct (Z.leb_spec (disksize s) (b_blockno bf)); [lia|].
  unfold serve_buf, serve_disk, dirty, store. rewrite Hd.
  destruct (Z.eqb_spec (Z.land (b_flags bf) B_DIRTY) 0) as [E|E]; cbn [negb]; eexists; (split; [reflexivity|]);
    cbn [bufs set_bufs memdisk].
  - split; [|done]. apply list_eq. intros i. destruct (decide (i = b)) as [->|Hne].
    + rewrite !list_lookup_alter_eq, list_lookup_insert_eq, Hb by (by eapply lookup_lt_Some). cbn.
      unfold set_flags, set_data. cbn. by rewrite valid_after_clean.
    + by rewrite !list_lookup_alter_ne, list_lookup_insert_ne by done.
  - split.
    + apply list_eq. intros i. destruct (decide (i = b)) as [->|Hne].
      * rewrite !list_lookup_alter_eq, list_lookup_insert_eq, Hb by (by eapply lookup_lt_Some). cbn.
        unfold set_flags. cbn. by rewrite valid_after_dirty.
      * by rewrite !list_lookup_alter_ne, list_lookup_insert_ne by done.
    + intros k. change (1 =? 1) with true. cbn [andb]. by destruct (k =? b_blockno bf).
Qed.
