(* ===== verification/Log.v ===== *)
(** * The write-ahead log (xv6A1/log.c)

    The log runs on any block cache with the interface of BlockCache.v. The
    theorems: what each routine writes to the disk and in which order; that a
    crash after any prefix of a commit's writes (and of any number of
    interrupted recoveries) leaves a disk from which [initlog] recovers either
    the old or the new contents of every block; and how [begin_op] reserves
    log space. [wakeup] calls are recorded in [woken]. *)

From S2P Require Import Prelude Memory Spinlock BlockCache Layout.

(** [struct log]; the in-memory header is [lh_n] and [lh_block]. *)
Record log := Log {
  start : Z;
  size : Z;
  outstanding : Z;
  committing : Z;
  dev : Z;
  lh_n : Z;
  lh_block : list Z }.

Record lstate (S : Type) := LState {
  log_lock : bool;
  lg : log;
  cache : S;
  woken : list chan }.
Arguments LState {S} _ _ _ _.
Arguments log_lock {S} _.
Arguments lg {S} _.
Arguments cache {S} _.
Arguments woken {S} _.

Inductive LogLock : Set := .

#[export] Instance log_has_lock S : HasLock LogLock (lstate S).
Proof.
  refine {| lock_held := log_lock;
            set_lock b s := LState b (lg s) (cache s) (woken s) |};
    by intros; destruct s.
Defined.

Definition set_outstanding (v : Z) (l : log) : log :=
  Log (start l) (size l) v (committing l) (dev l) (lh_n l) (lh_block l).
Definition set_committing (v : Z) (l : log) : log :=
  Log (start l) (size l) (outstanding l) v (dev l) (lh_n l) (lh_block l).
Definition set_lh_n (v : Z) (l : log) : log :=
  Log (start l) (size l) (outstanding l) (committing l) (dev l) v (lh_block l).
Definition set_lh_block (v : list Z) (l : log) : log :=
  Log (start l) (size l) (outstanding l) (committing l) (dev l) (lh_n l) v.

(** ** The routines *)

Section Routines.
Context {S : Type} `{!BlockCache S}.

Definition on_log (f : log → log) : M (lstate S) unit :=
  modify (λ s, LState (log_lock s) (f (lg s)) (cache s) (woken s)).

Definition set_cache (c : S) (s : lstate S) : lstate S :=
  LState (log_lock s) (lg s) c (woken s).

Definition on_cache {A} (m : M S A) : M (lstate S) A := λ s,
  match m (cache s) with
  | Ret a c => Ret a (set_cache c s)
  | Panic e => Panic e
  | Sleep ch c => Sleep ch (set_cache c s)
  | Fault e => Fault e
  end.

Definition wakeup (ch : chan) : M (lstate S) unit :=
  modify (λ s, LState (log_lock s) (lg s) (cache s) (woken s ++ [ch])).

(** [readsb] of fs.c. *)
Definition readsb (dev : Z) : M S superblock :=
  bp <- c_bread dev 1 ;;
  sb <- gets (λ s, get_sb (c_data bp s)) ;;
  c_brelse bp ;;;
  ret sb.

(** [log.lh.block[i]] and an assignment to it. *)
Definition get_block (i : nat) : M (lstate S) Z :=
  bs <- gets (λ s, lh_block (lg s)) ;;
  match bs !! i with
  | Some b => ret b
  | None => fault "log.lh.block"
  end.

Definition put_block (i : nat) (v : Z) : M (lstate S) unit :=
  bs <- gets (λ s, lh_block (lg s)) ;;
  if decide (i < length bs)%nat then on_log (set_lh_block (<[i := v]> bs))
  else fault "log.lh.block".

(** The end of the bodies of [install_trans] and [write_log]: copy, write the
    destination, release both. *)
Definition copy_buf (from to : nat) : M S unit :=
  d <- gets (c_data from) ;;
  c_setdata to d ;;;
  c_bwrite to ;;;
  c_brelse from ;;;
  c_brelse to.

Definition install_one (tail : nat) : M (lstate S) unit :=
  l <- gets lg ;;
  lbuf <- on_cache (c_bread (dev l) (start l + Z.of_nat tail + 1)) ;;
  bno <- get_block tail ;;
  dbuf <- on_cache (c_bread (dev l) bno) ;;
  on_cache (copy_buf lbuf dbuf).

Definition install_trans : M (lstate S) unit :=
  n <- gets (λ s, lh_n (lg s)) ;;
  for_all (seq 0 (Z.to_nat n)) install_one.

Definition read_head : M (lstate S) unit :=
  l <- gets lg ;;
  buf <- on_cache (c_bread (dev l) (start l)) ;;
  lh <- gets (λ s, c_data buf (cache s)) ;;
  on_log (set_lh_n (lh_get_n lh)) ;;;
  for_all (seq 0 (Z.to_nat (lh_get_n lh))) (λ i, put_block i (lh_get_block lh (Z.of_nat i))) ;;;
  on_cache (c_brelse buf).

Definition write_head : M (lstate S) unit :=
  l <- gets lg ;;
  buf <- on_cache (c_bread (dev l) (start l)) ;;
  hb <- gets (λ s, c_data buf (cache s)) ;;
  on_cache (c_setdata buf (lh_put_n (lh_n l) hb)) ;;;
  for_all (seq 0 (Z.to_nat (lh_n l))) (λ i,
    b <- get_block i ;;
    hb <- gets (λ s, c_data buf (cache s)) ;;
    on_cache (c_setdata buf (lh_put_block (Z.of_nat i) b hb))) ;;;
  on_cache (c_bwrite buf) ;;;
  on_cache (c_brelse buf).

Definition recover_from_log : M (lstate S) unit :=
  read_head ;;;
  install_trans ;;;
  on_log (set_lh_n 0) ;;;
  write_head.

(** The check on [sizeof(struct logheader)] is constant: 4 + 4 * LOGSIZE. *)
Definition initlog (d : Z) : M (lstate S) unit :=
  if BSIZE <=? 4 + 4 * LOGSIZE then panic "initlog: too big logheader" else
  modify (set_lock (T := LogLock) false) ;;;
  sb <- on_cache (readsb d) ;;
  on_log (λ l, Log (s32 (sb_logstart sb)) (s32 (sb_nlog sb)) (outstanding l) (committing l) d
                 (lh_n l) (lh_block l)) ;;;
  recover_from_log.

(** One turn of [begin_op]'s loop. [sleep] releases the lock; the process that
    wakes up takes it again and repeats the turn, as a new call does. *)
Definition begin_op : M (lstate S) unit :=
  acquire LogLock ;;;
  l <- gets lg ;;
  if negb (committing l =? 0) then
    release LogLock ;;; sleep_on ChLog
  else if LOGSIZE <? lh_n l + (outstanding l + 1) * MAXOPBLOCKS then
    release LogLock ;;; sleep_on ChLog
  else
    on_log (set_outstanding (outstanding l + 1)) ;;;
    release LogLock.

Definition write_log_one (tail : nat) : M (lstate S) unit :=
  l <- gets lg ;;
  to <- on_cache (c_bread (dev l) (start l + Z.of_nat tail + 1)) ;;
  bno <- get_block tail ;;
  from <- on_cache (c_bread (dev l) bno) ;;
  on_cache (copy_buf from to).

Definition write_log : M (lstate S) unit :=
  n <- gets (λ s, lh_n (lg s)) ;;
  for_all (seq 0 (Z.to_nat n)) write_log_one.

Definition commit : M (lstate S) unit :=
  n <- gets (λ s, lh_n (lg s)) ;;
  if 0 <? n then
    write_log ;;;
    write_head ;;;
    install_trans ;;;
    on_log (set_lh_n 0) ;;;
    write_head
  else ret tt.

Definition end_op : M (lstate S) unit :=
  acquire LogLock ;;;
  l <- gets lg ;;
  on_log (set_outstanding (outstanding l - 1)) ;;;
  if negb (committing l =? 0) then panic "log.committing" else
  if outstanding l - 1 =? 0 then
    on_log (set_committing 1) ;;;
    release LogLock ;;;
    commit ;;;
    acquire LogLock ;;;
    on_log (set_committing 0) ;;;
    wakeup ChLog ;;;
    release LogLock
  else
    wakeup ChLog ;;;
    release LogLock.

(** Index of [bno] among the first [n] entries of [bs], or [n]. *)
Fixpoint find_block (bno : Z) (n : nat) (bs : list Z) : nat :=
  match n, bs with
  | Datatypes.S n', b :: bs' => if b =? bno then 0%nat else Datatypes.S (find_block bno n' bs')
  | _, _ => 0%nat
  end.

Definition log_write (b : nat) : M (lstate S) unit :=
  l <- gets lg ;;
  if (LOGSIZE <=? lh_n l) || (size l - 1 <=? lh_n l) then panic "too big a transaction" else
  if outstanding l <? 1 then panic "log_write outside of trans" else
  acquire LogLock ;;;
  bno <- gets (λ s, c_blockno b (cache s)) ;;
  let i := find_block bno (Z.to_nat (lh_n l)) (lh_block l) in
  put_block i bno ;;;
  when Z.of_nat i =? lh_n l do on_log (set_lh_n (lh_n l + 1)) ;;;
  on_cache (c_setdirty b) ;;;
  release LogLock.

End Routines.

(** ** What the routines do to the cache *)

(** Block [to] gets the contents of [from], in the cache and on disk. *)
Definition ac_copy (from to : Z) (a : acache) : acache :=
  ACache (put (ac_view a) to (ac_view a from)) (put (ac_disk a) to (ac_view a from))
    (ac_pinned a ∖ {[to]}) (ac_held a) (ac_size a) (ac_hist a ++ [(to, ac_view a from)]).

(** A sequence of writes, each of the block's new contents. *)
Definition ac_writes (ws : list (Z * block)) (a : acache) : acache :=
  ACache (replay ws (ac_view a)) (replay ws (ac_disk a)) (ac_pinned a ∖ list_to_set ws.*1)
    (ac_held a) (ac_size a) (ac_hist a ++ ws).

Lemma ac_writes_nil a : ac_writes [] a = a.
Proof.
  destruct a. unfold ac_writes. cbn. by rewrite app_nil_r, difference_empty_L.
Qed.

Lemma ac_writes_app ws1 ws2 a : ac_writes (ws1 ++ ws2) a = ac_writes ws2 (ac_writes ws1 a).
Proof.
  unfold ac_writes. cbn. rewrite !replay_app, app_assoc. f_equal.
  rewrite fmap_app, list_to_set_app_L. apply set_eq. intros k.
  rewrite !elem_of_difference, elem_of_union. tauto.
Qed.

Lemma ac_copy_writes from to a : ac_copy from to a = ac_writes [(to, ac_view a from)] a.
Proof. unfold ac_copy, ac_writes. cbn. by rewrite union_empty_r_L. Qed.

(** Writing never makes a block busy. *)
Lemma ac_writes_busy ws a : ac_busy (ac_writes ws a) ⊆ ac_busy a.
Proof. unfold ac_busy. cbn. intros k. rewrite !elem_of_union, elem_of_difference. tauto. Qed.

Lemma ac_writes_busy_size ws a :
  (stdpp.base.size (ac_busy (ac_writes ws a)) <= stdpp.base.size (ac_busy a))%nat.
Proof. apply subseteq_size, ac_writes_busy. Qed.

Lemma copy_abs a f t from to H :
  delete t (delete f H) = ac_held a →
  ac_drop t (ac_drop f (ac_flush to (ac_put to (ac_view a from)
    (ACache (ac_view a) (ac_disk a) (ac_pinned a) H (ac_size a) (ac_hist a))))) =
  ac_copy from to a.
Proof. intros HH. unfold ac_copy, ac_drop, ac_flush, ac_put. cbn. by rewrite put_eq, HH. Qed.

(** Two buffers taken and released, in either order. *)
Lemma held_restore (H : gmap nat Z) i j x y :
  H !! i = None → <[i := x]> H !! j = None →
  delete i (delete j (<[j := y]> (<[i := x]> H))) = H ∧
  delete j (delete i (<[j := y]> (<[i := x]> H))) = H.
Proof.
  intros Hi Hj.
  assert (E : delete i (delete j (<[j := y]> (<[i := x]> H))) = H).
  { rewrite delete_insert_id by done. by rewrite delete_insert_id. }
  split; [done|]. by rewrite delete_delete.
Qed.

Section Specs.
Context {S : Type} `{!BlockCache S}.

Lemma copy_buf_spec (c : S) a f t from to :
  c_ok c a → ac_held a !! f = Some from → ac_held a !! t = Some to → from ≠ to →
  from ∈ ac_pinned a ∨ ac_view a from = ac_disk a from →
  ∃ c', copy_buf f t c = Ret tt c' ∧
    c_ok c' (ac_drop t (ac_drop f (ac_flush to (ac_put to (ac_view a from) a)))).
Proof.
  intros H Hf Ht Hne Hcl. assert (Hft : f ≠ t) by (intros ->; congruence).
  destruct (c_held_ok _ _ _ _ H Hf) as (_ & Hd & _).
  destruct (c_setdata_ok c a t to (ac_view a from) H Ht) as (c1 & E1 & H1).
  destruct (c_bwrite_ok c1 _ t to H1 Ht) as (c2 & E2 & H2).
  destruct (c_brelse_ok c2 _ f from H2 Hf) as (c3 & E3 & H3).
  { cbn. rewrite !put_ne by done. destruct Hcl as [Hp|Hp]; [left|by right].
    apply elem_of_difference. by rewrite elem_of_singleton. }
  destruct (c_brelse_ok c3 _ t to H3) as (c4 & E4 & H4).
  { cbn. by rewrite lookup_delete_ne. }
  { right. cbn. by rewrite !put_eq. }
  exists c4. split; [|done]. unfold copy_buf. steps. by rewrite Hd, E1, E2, E3, E4.
Qed.

Lemma on_cache_ret {A} (m : M S A) (s : lstate S) v c :
  m (cache s) = Ret v c → on_cache m s = Ret v (set_cache c s).
Proof. intros E. unfold on_cache. by rewrite E. Qed.

Lemma lg_set_cache c (s : lstate S) : lg (set_cache c s) = lg s.
Proof. done. Qed.

Lemma cache_set_cache c (s : lstate S) : cache (set_cache c s) = c.
Proof. done. Qed.

(** Reading a block the caller does not hold. *)
Definition can_read (a : acache) (bno : Z) : Prop :=
  0 <= bno < ac_size a ∧ (bno ∉@{gset Z} map_img (ac_held a)).

Lemma not_held_hold a b bno k :
  ac_held a !! b = None → k ≠ bno → k ∉@{gset Z} map_img (ac_held a) →
  k ∉@{gset Z} map_img (<[b := bno]> (ac_held a)).
Proof.
  intros Hb Hne Hk. rewrite map_img_insert_notin_L by done.
  rewrite elem_of_union, elem_of_singleton. tauto.
Qed.

(** One turn of [install_trans]: the log block is not held and not pinned, so
    its buffer has what the disk has. *)
Lemma install_one_spec (s : lstate S) a tail bno :
  let lb := start (lg s) + Z.of_nat tail + 1 in
  c_ok (cache s) a → dev (lg s) = ROOTDEV → lh_block (lg s) !! tail = Some bno →
  can_read a lb → lb ∉ ac_pinned a → can_read a bno → lb ≠ bno →
  (stdpp.base.size (ac_busy a) < NBUF)%nat →
  (bno ∈ ac_pinned a ∨ Datatypes.S (stdpp.base.size (ac_busy a)) < NBUF)%nat →
  ∃ c', install_one tail s = Ret tt (set_cache c' s) ∧ c_ok c' (ac_copy lb bno a).
Proof.
  intros lb H Hdev Hbk [Hl1 Hl2] Hlp [Hb1 Hb2] Hne Hsz Hsz2.
  destruct (c_bread_ok _ _ lb H Hl1 Hl2 ltac:(by right)) as (f & c1 & E1 & Hf & H1).
  destruct (c_bread_ok _ _ bno H1 Hb1) as (t & c2 & E2 & Ht & H2).
  { by apply not_held_hold. }
  { pose proof (ac_busy_hold_size a f lb Hf). cbn. destruct Hsz2; [by left|right; lia]. }
  assert (Hft : f ≠ t).
  { intros ->. cbn in Ht. by rewrite lookup_insert_eq in Ht. }
  destruct (copy_buf_spec c2 _ f t lb bno H2) as (c3 & E3 & H3).
  { cbn. by rewrite lookup_insert_ne, lookup_insert_eq. }
  { cbn. by rewrite lookup_insert_eq. }
  { done. }
  { right. cbn. apply (c_clean _ _ lb H). unfold ac_busy. by apply not_elem_of_union. }
  exists c3. split.
  - unfold install_one, get_block. steps. rewrite Hdev. fold lb.
    rewrite (on_cache_ret _ s _ _ E1), lg_set_cache, Hbk.
    rewrite (on_cache_ret _ (set_cache c1 s) _ _ E2).
    by rewrite (on_cache_ret _ (set_cache c2 (set_cache c1 s)) _ _ E3).
  - rewrite <- (copy_abs a f t lb bno (<[t := bno]> (<[f := lb]> (ac_held a)))); [exact H3|].
    by apply held_restore.
Qed.

(** One turn of [write_log]: the block being logged is pinned. *)
Lemma write_log_one_spec (s : lstate S) a tail bno :
  let lb := start (lg s) + Z.of_nat tail + 1 in
  c_ok (cache s) a → dev (lg s) = ROOTDEV → lh_block (lg s) !! tail = Some bno →
  can_read a lb → can_read a bno → bno ∈ ac_pinned a → lb ≠ bno →
  (stdpp.base.size (ac_busy a) < NBUF)%nat →
  ∃ c', write_log_one tail s = Ret tt (set_cache c' s) ∧ c_ok c' (ac_copy bno lb a).
Proof.
  intros lb H Hdev Hbk [Hl1 Hl2] [Hb1 Hb2] Hbp Hne Hsz.
  destruct (c_bread_ok _ _ lb H Hl1 Hl2 ltac:(by right)) as (t & c1 & E1 & Ht & H1).
  destruct (c_bread_ok _ _ bno H1 Hb1) as (f & c2 & E2 & Hf & H2).
  { by apply not_held_hold. }
  { by left. }
  assert (Hft : f ≠ t).
  { intros ->. cbn in Hf. by rewrite lookup_insert_eq in Hf. }
  destruct (copy_buf_spec c2 _ f t bno lb H2) as (c3 & E3 & H3).
  { cbn. by rewrite lookup_insert_eq. }
  { cbn. by rewrite lookup_insert_ne, lookup_insert_eq. }
  { done. }
  { by left. }
  exists c3. split.
  - unfold write_log_one, get_block. steps. rewrite Hdev. fold lb.
    rewrite (on_cache_ret _ s _ _ E1), lg_set_cache, Hbk.
    rewrite (on_cache_ret _ (set_cache c1 s) _ _ E2).
    by rewrite (on_cache_ret _ (set_cache c2 (set_cache c1 s)) _ _ E3).
  - rewrite <- (copy_abs a f t bno lb (<[f := bno]> (<[t := lb]> (ac_held a)))); [exact H3|].
    by apply held_restore.
Qed.

(** A loop whose turn [i] writes [ws !! i]. *)
Lemma writes_loop (body : nat → M (lstate S) unit) ws (s : lstate S) a :
  c_ok (cache s) a →
  (∀ i w c, ws !! i = Some w → c_ok c (ac_writes (take i ws) a) →
     ∃ c', body i (set_cache c s) = Ret tt (set_cache c' s) ∧
       c_ok c' (ac_writes [w] (ac_writes (take i ws) a))) →
  ∃ c', for_all (seq 0 (length ws)) body s = Ret tt (set_cache c' s) ∧ c_ok c' (ac_writes ws a).
Proof.
  intros H Hbody.
  cut (∀ m k c, (k + m = length ws)%nat → c_ok c (ac_writes (take k ws) a) →
         ∃ c', for_all (seq k m) body (set_cache c s) = Ret tt (set_cache c' s) ∧
           c_ok c' (ac_writes ws a)).
  { intros Hk. destruct s as [lk l c w]. apply (Hk _ 0%nat c); [done|].
    by rewrite take_0, ac_writes_nil. }
  induction m as [|m IH]; intros k c Hk Hc.
  - exists c. split; [done|]. by rewrite take_ge in Hc by lia.
  - destruct (lookup_lt_is_Some_2 ws k ltac:(lia)) as [w Hw].
    destruct (Hbody k w c Hw Hc) as (c1 & E1 & H1).
    destruct (IH (Datatypes.S k) c1) as (c' & E' & H'); [lia| |].
    { by rewrite (take_S_r _ _ _ Hw), ac_writes_app. }
    exists c'. split; [|done]. cbn [for_all seq]. unfold bind. by rewrite E1.
Qed.

(** ** The shape of the log *)

Definition in_log (l : log) (k : Z) : Prop := start l <= k < start l + size l.

(** The in-memory header lists the blocks [bs]; they fit the log on disk and
    lie outside it; the log's own blocks are not in use. *)
Record log_wf (l : log) (bs : list Z) (a : acache) : Prop := {
  wf_dev : dev l = ROOTDEV;
  wf_start : 0 <= start l;
  wf_end : start l + size l <= ac_size a;
  wf_disk : ac_size a <= 2^31;
  wf_n : lh_n l = Z.of_nat (length bs);
  wf_fit : Z.of_nat (length bs) < size l;
  wf_len : length (lh_block l) = Z.to_nat LOGSIZE;
  wf_blocks : bs `prefix_of` lh_block l;
  wf_nodup : NoDup bs;
  wf_home : ∀ b, b ∈ bs → 0 <= b < ac_size a ∧ ¬ in_log l b;
  wf_free : ∀ k, in_log l k → k ∉ ac_busy a;
  wf_head : length (ac_view a (start l)) = 512%nat }.

(** Nobody holds a buffer of these blocks. *)
Definition unheld (bs : list Z) (a : acache) : Prop :=
  ∀ b, b ∈ bs → b ∉@{gset Z} map_img (ac_held a).

Definition log_ws (l : log) (bs : list Z) (v : Z → block) : list (Z * block) :=
  imap (λ i b, (start l + Z.of_nat i + 1, v b)) bs.

Definition inst_ws (l : log) (bs : list Z) (v : Z → block) : list (Z * block) :=
  imap (λ i b, (b, v (start l + Z.of_nat i + 1))) bs.

Lemma log_ws_fst l bs v : (log_ws l bs v).*1 = map (λ i, start l + Z.of_nat i + 1) (seq 0 (length bs)).
Proof.
  unfold log_ws. apply list_eq. intros i. rewrite !list_lookup_fmap, list_lookup_imap.
  destruct (bs !! i) eqn:E; cbn.
  - rewrite lookup_seq_lt by (by eapply lookup_lt_Some). done.
  - rewrite lookup_seq_ge by (by apply lookup_ge_None). done.
Qed.

Lemma inst_ws_fst l bs v : (inst_ws l bs v).*1 = bs.
Proof.
  unfold inst_ws. apply list_eq. intros i. rewrite !list_lookup_fmap, list_lookup_imap.
  by destruct (bs !! i).
Qed.

Lemma lookup_log_ws l bs v i w :
  log_ws l bs v !! i = Some w →
  ∃ b, bs !! i = Some b ∧ w = (start l + Z.of_nat i + 1, v b).
Proof.
  unfold log_ws. rewrite list_lookup_imap. destruct (bs !! i) as [b|]; [|done].
  intros [= <-]. eauto.
Qed.

Lemma lookup_inst_ws l bs v i w :
  inst_ws l bs v !! i = Some w →
  ∃ b, bs !! i = Some b ∧ w = (b, v (start l + Z.of_nat i + 1)).
Proof.
  unfold inst_ws. rewrite list_lookup_imap. destruct (bs !! i) as [b|]; [|done].
  intros [= <-]. eauto.
Qed.

Lemma wf_lookup l bs a i b :
  log_wf l bs a → bs !! i = Some b →
  lh_block l !! i = Some b ∧ b ∈ bs ∧ in_log l (start l + Z.of_nat i + 1).
Proof.
  intros W Hb. split; [|split].
  - by eapply prefix_lookup_Some; [|apply W].
  - by eapply list_elem_of_lookup_2.
  - pose proof (lookup_lt_Some _ _ _ Hb). pose proof (wf_fit _ _ _ W). unfold in_log. lia.
Qed.

Lemma wf_can_read l bs a k : log_wf l bs a → in_log l k → can_read a k ∧ k ∉ ac_pinned a.
Proof.
  intros W Hk. pose proof (wf_free _ _ _ W k Hk) as Hf. apply not_elem_of_union in Hf as [Hp Hh].
  pose proof (wf_end _ _ _ W). pose proof (wf_start _ _ _ W). unfold in_log in Hk.
  split; [|done]. split; [lia|done].
Qed.

Lemma can_read_writes ws a k : can_read a k → can_read (ac_writes ws a) k.
Proof. done. Qed.

Lemma elem_of_take_fst {A B} (ws : list (A * B)) i x : x ∈ (take i ws).*1 → x ∈ ws.*1.
Proof. rewrite fmap_take. apply subseteq_take. Qed.

(** [install_trans] writes each logged block's home, in order. *)
Lemma install_trans_spec (s : lstate S) bs a :
  c_ok (cache s) a → log_wf (lg s) bs a → unheld bs a →
  (stdpp.base.size (ac_busy a) < NBUF)%nat →
  (list_to_set bs ⊆ ac_pinned a ∨ (Datatypes.S (stdpp.base.size (ac_busy a)) < NBUF)%nat) →
  ∃ c', install_trans s = Ret tt (set_cache c' s) ∧
    c_ok c' (ac_writes (inst_ws (lg s) bs (ac_view a)) a).
Proof.
  intros H W Hun Hsz Hpin. set (ws := inst_ws _ _ _).
  assert (Hlen : length ws = length bs) by apply length_imap.
  unfold install_trans. steps. rewrite (wf_n _ _ _ W), Nat2Z.id, <- Hlen.
  apply writes_loop; [done|]. intros i w c Hw Hc.
  destruct (lookup_inst_ws _ _ _ _ _ Hw) as (b & Hb & ->).
  destruct (wf_lookup _ _ _ _ _ W Hb) as (Hbk & Hin & Hlog).
  destruct (wf_can_read _ _ _ _ W Hlog) as [Hlr Hlp]. destruct (wf_home _ _ _ W b Hin) as [Hbr Hnl].
  assert (Hcr : can_read a b) by (split; [done|by apply Hun]).
  set (a' := ac_writes (take i ws) a) in *. pose proof (ac_writes_busy_size (take i ws) a).
  assert (Hv : ac_view a' (start (lg s) + Z.of_nat i + 1) = ac_view a (start (lg s) + Z.of_nat i + 1)).
  { apply replay_other. intros E%elem_of_take_fst. unfold ws in E. rewrite inst_ws_fst in E.
    by destruct (wf_home _ _ _ W _ E). }
  rewrite <- Hv, <- ac_copy_writes.
  apply (install_one_spec (set_cache c s) a' i b); try done; try apply W.
  - cbn. intros [Hp _]%elem_of_difference. done.
  - cbn. intros E. rewrite E in Hlog. done.
  - unfold a'. lia.
  - destruct Hpin as [Hpin|Hpin]; [left|right; unfold a'; lia].
    apply elem_of_difference. split; [by apply Hpin, elem_of_list_to_set|].
    rewrite elem_of_list_to_set. unfold ws. rewrite fmap_take, inst_ws_fst. intros E.
    apply list_elem_of_lookup in E as [j Hj]. apply lookup_take_Some in Hj as [Hj Hji].
    pose proof (NoDup_lookup _ _ _ _ (wf_nodup _ _ _ W) Hb Hj). lia.
Qed.

(** [write_log] copies each logged block to its slot, in order. *)
Lemma write_log_spec (s : lstate S) bs a :
  c_ok (cache s) a → log_wf (lg s) bs a → unheld bs a →
  (stdpp.base.size (ac_busy a) < NBUF)%nat → list_to_set bs ⊆ ac_pinned a →
  ∃ c', write_log s = Ret tt (set_cache c' s) ∧
    c_ok c' (ac_writes (log_ws (lg s) bs (ac_view a)) a).
Proof.
  intros H W Hun Hsz Hpin. set (ws := log_ws _ _ _).
  assert (Hlen : length ws = length bs) by apply length_imap.
  unfold write_log. steps. rewrite (wf_n _ _ _ W), Nat2Z.id, <- Hlen.
  apply writes_loop; [done|]. intros i w c Hw Hc.
  destruct (lookup_log_ws _ _ _ _ _ Hw) as (b & Hb & ->).
  destruct (wf_lookup _ _ _ _ _ W Hb) as (Hbk & Hin & Hlog).
  destruct (wf_can_read _ _ _ _ W Hlog) as [Hlr Hlp]. destruct (wf_home _ _ _ W b Hin) as [Hbr Hnl].
  assert (Hcr : can_read a b) by (split; [done|by apply Hun]).
  set (a' := ac_writes (take i ws) a) in *. pose proof (ac_writes_busy_size (take i ws) a).
  assert (Hnw : b ∉ (take i ws).*1).
  { intros E%elem_of_take_fst. unfold ws in E. rewrite log_ws_fst in E.
    apply list_elem_of_fmap in E as (j & -> & Hj%elem_of_seq). apply Hnl.
    pose proof (wf_fit _ _ _ W). unfold in_log. lia. }
  assert (Hv : ac_view a' b = ac_view a b) by (by apply replay_other).
  rewrite <- Hv, <- ac_copy_writes.
  apply (write_log_one_spec (set_cache c s) a' i b); try done; try apply W.
  - apply elem_of_difference. split; [by apply Hpin, elem_of_list_to_set|].
    by rewrite elem_of_list_to_set.
  - cbn. intros E. rewrite E in Hlog. done.
  - unfold a'. lia.
Qed.

Lemma ac_put_put k d d' a : ac_put k d' (ac_put k d a) = ac_put k d' a.
Proof. unfold ac_put. cbn. by rewrite put_put. Qed.

(** The loop of [write_head] over the entries [rest] from index [i]. *)
Lemma head_loop b k a rest : ∀ i d c (s : lstate S),
  ac_held a !! b = Some k →
  (∀ j x, rest !! j = Some x → lh_block (lg s) !! (i + j)%nat = Some x) →
  c_ok c (ac_put k d a) →
  ∃ c', for_all (seq i (length rest)) (λ i,
      x <- get_block i ;;
      hb <- gets (λ s, c_data b (cache s)) ;;
      on_cache (c_setdata b (lh_put_block (Z.of_nat i) x hb))) (set_cache c s) =
      Ret tt (set_cache c' s) ∧
    c_ok c' (ac_put k (lh_put_from (Z.of_nat i) rest d) a).
Proof.
  induction rest as [|x rest IH]; intros i d c s Hb Hr H; [by exists c|].
  destruct (c_held_ok _ _ _ _ H Hb) as (_ & Hd & _). cbn in Hd. rewrite put_eq in Hd.
  destruct (c_setdata_ok c _ b k (lh_put_block (Z.of_nat i) x d) H Hb) as (c1 & E1 & H1).
  rewrite ac_put_put in H1.
  assert (Hr' : ∀ j y, rest !! j = Some y → lh_block (lg s) !! (Datatypes.S i + j)%nat = Some y).
  { intros j y Hj. specialize (Hr (Datatypes.S j) y Hj). by rewrite Nat.add_succ_r in Hr. }
  destruct (IH _ _ c1 s Hb Hr' H1) as (c' & E' & H').
  exists c'. split.
  - cbn [seq length for_all]. unfold bind at 1, get_block at 1. steps.
    pose proof (Hr 0%nat x eq_refl) as Hx. rewrite Nat.add_0_r in Hx. rewrite lg_set_cache, Hx.
    rewrite cache_set_cache, Hd, (on_cache_ret _ (set_cache c s) _ _ E1).
    exact E'.
  - cbn [lh_put_from]. by replace (Z.of_nat i + 1) with (Z.of_nat (Datatypes.S i)) by lia.
Qed.

(** [write_head] writes one block: the old header with [n] and the entries. *)
Lemma write_head_spec (s : lstate S) bs a :
  c_ok (cache s) a → log_wf (lg s) bs a → (stdpp.base.size (ac_busy a) < NBUF)%nat →
  ∃ c', write_head s = Ret tt (set_cache c' s) ∧
    c_ok c' (ac_writes [(start (lg s), lh_encode bs (ac_view a (start (lg s))))] a).
Proof.
  intros H W Hsz. set (k := start (lg s)).
  assert (Hk : in_log (lg s) k).
  { pose proof (wf_fit _ _ _ W). unfold in_log, k. lia. }
  destruct (wf_can_read _ _ _ _ W Hk) as [[Hk1 Hk2] Hkp].
  destruct (c_bread_ok _ _ k H Hk1 Hk2 ltac:(by right)) as (b & c1 & E1 & Hb & H1).
  assert (Hb1 : ac_held (ac_hold b k a) !! b = Some k) by apply lookup_insert_eq.
  destruct (c_held_ok _ _ _ _ H1 Hb1) as (_ & Hd & _). cbn in Hd.
  destruct (c_setdata_ok _ _ _ _ (lh_put_n (Z.of_nat (length bs)) (ac_view a k)) H1 Hb1)
    as (c2 & E2 & H2).
  assert (Hpre : ∀ j x, bs !! j = Some x → lh_block (lg s) !! (0 + j)%nat = Some x).
  { intros j x Hj. apply (prefix_lookup_Some bs _ _ _ Hj), W. }
  destruct (head_loop b k _ bs 0 _ c2 s Hb1 Hpre H2) as (c3 & E3 & H3).
  fold (lh_encode bs (ac_view a k)) in H3.
  destruct (c_bwrite_ok _ _ _ _ H3 Hb1) as (c4 & E4 & H4).
  destruct (c_brelse_ok _ _ _ _ H4 Hb1) as (c5 & E5 & H5).
  { right. cbn. by rewrite !put_eq. }
  exists c5. split.
  - unfold write_head, bind. unfold gets at 1. rewrite (wf_dev _ _ _ W), (wf_n _ _ _ W), Nat2Z.id. fold k.
    rewrite (on_cache_ret _ s _ _ E1). unfold gets at 1. rewrite cache_set_cache, Hd.
    rewrite (on_cache_ret _ (set_cache c1 s) _ _ E2).
    change (set_cache c2 (set_cache c1 s)) with (set_cache c2 s). unfold bind in E3. rewrite E3.
    rewrite (on_cache_ret _ (set_cache c3 s) _ _ E4).
    by rewrite (on_cache_ret _ (set_cache c4 (set_cache c3 s)) _ _ E5).
  - unfold ac_writes. cbn in H5 |- *. unfold ac_drop, ac_flush in H5. cbn in H5.
    rewrite put_eq, delete_insert_id in H5 by done. by rewrite union_empty_r_L.
Qed.

(** The loop of [read_head]. *)
Lemma put_block_loop (f : nat → Z) m : ∀ i (s : lstate S),
  (i + m <= length (lh_block (lg s)))%nat →
  for_all (seq i m) (λ j, put_block j (f j)) s =
    Ret tt (LState (log_lock s)
      (set_lh_block (take i (lh_block (lg s)) ++ map f (seq i m) ++ drop (i + m) (lh_block (lg s)))
         (lg s))
      (cache s) (woken s)).
Proof.
  induction m as [|m IH]; intros i s Hl; cbn [seq for_all map].
  - rewrite Nat.add_0_r. cbn [app]. rewrite take_drop. by destruct s as [? []].
  - unfold bind, put_block at 1. steps. rewrite decide_True by lia. unfold on_log. steps.
    unfold bind in IH. rewrite IH by (cbn; rewrite length_insert; lia).
    unfold set_lh_block. cbn [lg log_lock cache woken lh_block start size outstanding committing dev lh_n].
    rewrite (take_S_r _ i (f i)) by (apply list_lookup_insert_eq; lia).
    rewrite take_insert_ge, drop_insert_lt, <- app_assoc by lia.
    by rewrite Nat.add_succ_r.
Qed.

(** ** Recovery *)

(** The log area that the in-memory [log] describes lies on the disk. *)
Record geom (l : log) (sz : Z) : Prop := {
  ge_dev : dev l = ROOTDEV;
  ge_start : 0 <= start l;
  ge_end : start l + size l <= sz;
  ge_disk : sz <= 2^31;
  ge_size : 0 < size l;
  ge_len : length (lh_block l) = Z.to_nat LOGSIZE }.

(** The blocks the header on disk lists. *)
Definition logged (l : log) (d : Z → block) : list Z := lh_decode (d (start l)).

(** The header on disk is one the log wrote. *)
Record head_ok (l : log) (sz : Z) (d : Z → block) : Prop := {
  ho_len : length (d (start l)) = 512%nat;
  ho_n : 0 <= lh_get_n (d (start l));
  ho_fit : lh_get_n (d (start l)) < size l;
  ho_max : lh_get_n (d (start l)) <= LOGSIZE;
  ho_nodup : NoDup (logged l d);
  ho_home : ∀ b, b ∈ logged l d → 0 <= b < sz ∧ ¬ in_log l b }.

(** No buffer is in use: the state of the cache at boot. *)
Definition quiet (a : acache) : Prop := ac_pinned a = ∅ ∧ ac_held a = ∅.

Lemma quiet_busy a : quiet a → ac_busy a = ∅.
Proof. intros [Hp Hh]. unfold ac_busy. by rewrite Hp, Hh, map_img_empty_L, union_empty_l_L. Qed.

Lemma quiet_read a k : quiet a → 0 <= k < ac_size a → can_read a k.
Proof. intros [_ Hh] Hk. split; [done|]. by rewrite Hh, map_img_empty_L. Qed.

Lemma quiet_unheld bs a : quiet a → unheld bs a.
Proof. intros [_ Hh] b _. by rewrite Hh, map_img_empty_L. Qed.

Lemma quiet_writes ws a : quiet a → quiet (ac_writes ws a).
Proof. intros [Hp Hh]. split; cbn; [|done]. rewrite Hp. apply empty_difference_L. Qed.

Lemma logged_length l sz d : head_ok l sz d → Z.of_nat (length (logged l d)) = lh_get_n (d (start l)).
Proof.
  intros Ho. pose proof (ho_n _ _ _ Ho). unfold logged, lh_decode.
  rewrite length_map, length_seq. lia.
Qed.

(** The in-memory header after [read_head]. *)
Definition read_log (l : log) (d : Z → block) : log :=
  set_lh_block (logged l d ++ drop (length (logged l d)) (lh_block l))
    (set_lh_n (lh_get_n (d (start l))) l).

Lemma read_log_wf l a :
  geom l (ac_size a) → head_ok l (ac_size a) (ac_view a) → quiet a →
  log_wf (read_log l (ac_view a)) (logged l (ac_view a)) a.
Proof.
  intros G Ho Q. pose proof (logged_length _ _ _ Ho) as Hlen.
  pose proof (ho_fit _ _ _ Ho). pose proof (ho_max _ _ _ Ho). pose proof (ge_len _ _ G) as Hl.
  split; cbn; try apply G; try apply Ho; try done.
  - lia.
  - rewrite length_app, length_drop, Hl. lia.
  - by apply prefix_app_r.
  - intros k _. by rewrite quiet_busy.
Qed.

Lemma read_head_spec (s : lstate S) a :
  c_ok (cache s) a → geom (lg s) (ac_size a) → head_ok (lg s) (ac_size a) (ac_view a) → quiet a →
  ∃ c', read_head s = Ret tt (LState (log_lock s) (read_log (lg s) (ac_view a)) c' (woken s)) ∧
    c_ok c' a.
Proof.
  intros H G Ho Q. set (k := start (lg s)).
  assert (Hk : 0 <= k < ac_size a).
  { pose proof (ge_start _ _ G). pose proof (ge_end _ _ G). pose proof (ge_size _ _ G). unfold k. lia. }
  destruct (quiet_read _ _ Q Hk) as [Hk1 Hk2].
  destruct (c_bread_ok _ _ k H Hk1 Hk2) as (b & c1 & E1 & Hb & H1).
  { right. rewrite quiet_busy by done. vm_compute. lia. }
  assert (Hb1 : ac_held (ac_hold b k a) !! b = Some k) by apply lookup_insert_eq.
  destruct (c_held_ok _ _ _ _ H1 Hb1) as (_ & Hd & _). cbn in Hd.
  destruct (c_brelse_ok _ _ _ _ H1 Hb1) as (c2 & E2 & H2).
  { right. apply (c_clean _ _ _ H). by rewrite quiet_busy. }
  rewrite ac_drop_hold in H2 by done. exists c2. split; [|done].
  pose proof (ho_n _ _ _ Ho). pose proof (ho_max _ _ _ Ho). pose proof (ge_len _ _ G) as Hl.
  unfold read_head, bind. unfold gets at 1. rewrite (ge_dev _ _ G). fold k.
  rewrite (on_cache_ret _ s _ _ E1). unfold gets at 1. rewrite cache_set_cache, Hd.
  unfold on_log at 1, modify at 1. rewrite put_block_loop by (cbn; rewrite Hl; unfold k; lia).
  unfold on_cache. cbn [cache set_cache]. rewrite E2. cbn.
  unfold read_log, logged, lh_decode. rewrite length_map, length_seq. done.
Qed.

(** What recovery writes to a disk: the logged blocks to their homes, then an
    empty header. *)
Definition rec_ws (l : log) (d : Z → block) : list (Z * block) :=
  inst_ws l (logged l d) d ++ [(start l, lh_encode [] (d (start l)))].

Lemma inst_ws_ext l l' bs d : start l' = start l → inst_ws l' bs d = inst_ws l bs d.
Proof. intros E. unfold inst_ws. by rewrite E. Qed.

Lemma clear_wf l bs a ws :
  log_wf l bs a → length (ac_view (ac_writes ws a) (start l)) = 512%nat →
  log_wf (set_lh_n 0 l) [] (ac_writes ws a).
Proof.
  intros W Hh. split; cbn; try apply W; try done.
  - pose proof (wf_fit _ _ _ W). lia.
  - apply prefix_nil.
  - constructor.
  - by intros b ?%not_elem_of_nil.
  - intros k Hk Hin. apply (wf_free _ _ _ W k Hk). by apply (ac_writes_busy ws).
Qed.

Lemma recover_spec (s : lstate S) a :
  c_ok (cache s) a → geom (lg s) (ac_size a) → head_ok (lg s) (ac_size a) (ac_view a) → quiet a →
  ∃ c', recover_from_log s =
      Ret tt (LState (log_lock s) (set_lh_n 0 (read_log (lg s) (ac_view a))) c' (woken s)) ∧
    c_ok c' (ac_writes (rec_ws (lg s) (ac_view a)) a).
Proof.
  intros H G Ho Q. destruct (read_head_spec s a H G Ho Q) as (c1 & E1 & H1).
  pose proof (read_log_wf _ _ G Ho Q) as W.
  set (s1 := LState _ _ c1 _) in E1.
  destruct (install_trans_spec s1 (logged (lg s) (ac_view a)) a H1 W) as (c2 & E2 & H2).
  { by apply quiet_unheld. }
  { rewrite quiet_busy by done. vm_compute. lia. }
  { right. rewrite quiet_busy by done. vm_compute. lia. }
  rewrite (inst_ws_ext (lg s)) in H2 by done.
  assert (Hst : ac_view (ac_writes (inst_ws (lg s) (logged (lg s) (ac_view a)) (ac_view a)) a)
    (start (lg s)) = ac_view a (start (lg s))).
  { apply replay_other. rewrite inst_ws_fst. intros Hin. destruct (ho_home _ _ _ Ho _ Hin) as [_ Hnl].
    apply Hnl. unfold in_log. pose proof (ge_size _ _ G). lia. }
  set (s2 := LState (log_lock s) (set_lh_n 0 (read_log (lg s) (ac_view a))) c2 (woken s)).
  destruct (write_head_spec s2 [] _ H2) as (c3 & E3 & H3).
  { apply (clear_wf (read_log (lg s) (ac_view a)) (logged (lg s) (ac_view a))); [done|].
    change (start (read_log (lg s) (ac_view a))) with (start (lg s)). rewrite Hst. apply Ho. }
  { pose proof (quiet_busy _ (quiet_writes (inst_ws (lg s) (logged (lg s) (ac_view a)) (ac_view a)) _ Q))
      as E. rewrite E. vm_compute. lia. }
  exists c3. split.
  - unfold recover_from_log, bind. rewrite E1, E2. unfold on_log, modify. exact E3.
  - unfold rec_ws. rewrite ac_writes_app. change (start (lg s2)) with (start (lg s)) in H3.
    by rewrite Hst in H3.
Qed.

(** ** Commit *)

Definition home_ws (bs : list Z) (v : Z → block) : list (Z * block) := map (λ b, (b, v b)) bs.

Lemma home_ws_fst bs v : (home_ws bs v).*1 = bs.
Proof. unfold home_ws. rewrite <- list_fmap_compose. apply list_fmap_id. Qed.

Lemma log_ws_nodup l bs v h : NoDup (log_ws l bs v ++ [(start l, h)]).*1.
Proof.
  rewrite fmap_app, log_ws_fst. apply NoDup_app. split; [|split; [|apply NoDup_singleton]].
  - apply NoDup_fmap_2; [|apply NoDup_seq]. intros i j E. lia.
  - intros k (i & -> & _)%list_elem_of_fmap ?%list_elem_of_singleton. cbn in *. lia.
Qed.

(** The log region after [write_log]: block [i] has the [i]th new block. *)
Lemma log_ws_read l bs v v0 i b :
  bs !! i = Some b → replay (log_ws l bs v) v0 (start l + Z.of_nat i + 1) = v b.
Proof.
  intros Hb. apply replay_in.
  - pose proof (log_ws_nodup l bs v []) as Hnd. rewrite fmap_app in Hnd.
    by apply NoDup_app in Hnd as [? _].
  - apply list_elem_of_lookup. exists i. unfold log_ws. by rewrite list_lookup_imap, Hb.
Qed.

Lemma inst_ws_eq l bs d v :
  (∀ i b, bs !! i = Some b → d (start l + Z.of_nat i + 1) = v b) → inst_ws l bs d = home_ws bs v.
Proof.
  intros Hd. unfold inst_ws, home_ws. apply list_eq. intros i. rewrite list_lookup_imap, list_lookup_fmap.
  destruct (bs !! i) as [b|] eqn:E; [|done]. cbn. by rewrite (Hd i b E).
Qed.

Lemma log_ws_other l bs v v0 k :
  k <= start l ∨ start l + Z.of_nat (length bs) < k → replay (log_ws l bs v) v0 k = v0 k.
Proof.
  intros Hk. apply replay_other. rewrite log_ws_fst.
  intros (i & -> & Hi%elem_of_seq)%list_elem_of_fmap. lia.
Qed.

(** The header block before, during and after the installation. *)
Definition full_head (l : log) (bs : list Z) (v : Z → block) : block := lh_encode bs (v (start l)).
Definition empty_head (l : log) (bs : list Z) (v : Z → block) : block :=
  lh_encode [] (full_head l bs v).

Definition commit_ws (l : log) (bs : list Z) (v : Z → block) : list (Z * block) :=
  log_ws l bs v ++ (start l, full_head l bs v) ::
  home_ws bs v ++ [(start l, empty_head l bs v)].

Lemma wf_writes l bs a ws :
  log_wf l bs a → length (ac_view (ac_writes ws a) (start l)) = 512%nat →
  log_wf l bs (ac_writes ws a).
Proof.
  intros W Hh. split; cbn; try apply W; try done.
  intros k Hk Hin. apply (wf_free _ _ _ W k Hk). by apply (ac_writes_busy ws).
Qed.

Lemma wf_start_not_home l bs a : log_wf l bs a → start l ∉ bs.
Proof.
  intros W Hin. destruct (wf_home _ _ _ W _ Hin) as [_ Hn]. apply Hn. unfold in_log.
  pose proof (wf_fit _ _ _ W). lia.
Qed.

Lemma wf_start_in l bs a : log_wf l bs a → in_log l (start l).
Proof. intros W. pose proof (wf_fit _ _ _ W). unfold in_log. lia. Qed.

Lemma wf_max l bs a : log_wf l bs a → Z.of_nat (length bs) <= LOGSIZE.
Proof.
  intros W. pose proof (prefix_length _ _ (wf_blocks _ _ _ W)) as Hl. rewrite (wf_len _ _ _ W) in Hl.
  unfold LOGSIZE, MAXOPBLOCKS in *. lia.
Qed.

(** [commit] writes the log region and the logged blocks only. *)
Lemma commit_ws_fst l bs v a k :
  log_wf l bs a → k ∈ (commit_ws l bs v).*1 → in_log l k ∨ k ∈ bs.
Proof.
  intros W Hk. unfold commit_ws in Hk. pose proof (wf_start_in _ _ _ W). pose proof (wf_fit _ _ _ W).
  rewrite fmap_app, fmap_cons, fmap_app, home_ws_fst, log_ws_fst in Hk. cbn in Hk.
  rewrite elem_of_app, elem_of_cons, elem_of_app, list_elem_of_singleton in Hk.
  destruct Hk as [(i & -> & Hi%elem_of_seq)%list_elem_of_fmap|[->|[?| ->]]]; try tauto.
  left. unfold in_log. lia.
Qed.

(** The four phases of [commit], as the writes that reach the disk. *)
Lemma commit_spec (s : lstate S) bs a :
  c_ok (cache s) a → log_wf (lg s) bs a → unheld bs a → bs ≠ [] →
  (stdpp.base.size (ac_busy a) < NBUF)%nat → list_to_set bs ⊆ ac_pinned a →
  ∃ c', commit s = Ret tt (LState (log_lock s) (set_lh_n 0 (lg s)) c' (woken s)) ∧
    c_ok c' (ac_writes (commit_ws (lg s) bs (ac_view a)) a).
Proof.
  intros H W Hun Hne Hsz Hpin. set (l := lg s). set (v := ac_view a).
  destruct (write_log_spec s bs a H W Hun Hsz Hpin) as (c1 & E1 & H1). fold l v in H1.
  set (a1 := ac_writes (log_ws l bs v) a) in H1.
  assert (Hst : ac_view a1 (start l) = v (start l)) by (apply log_ws_other; lia).
  assert (W1 : log_wf l bs a1) by (apply wf_writes; [done|]; fold a1; rewrite Hst; apply W).
  pose proof (ac_writes_busy_size (log_ws l bs v) a) as Hs1. fold a1 in Hs1.
  destruct (write_head_spec (set_cache c1 s) bs a1 H1 W1 ltac:(lia)) as (c2 & E2 & H2).
  rewrite lg_set_cache in H2. fold l in H2. rewrite Hst in H2. fold (full_head l bs v) in H2.
  set (a2 := ac_writes _ a1) in H2.
  assert (Hst2 : ac_view a2 (start l) = full_head l bs v) by apply put_eq.
  assert (W2 : log_wf l bs a2).
  { apply wf_writes; [done|]. fold a2. rewrite Hst2. unfold full_head. rewrite length_lh_encode. apply W. }
  pose proof (ac_writes_busy_size [(start l, full_head l bs v)] a1) as Hs2. fold a2 in Hs2.
  destruct (install_trans_spec (set_cache c2 s) bs a2 H2 W2 Hun ltac:(lia)) as (c3 & E3 & H3).
  { left. intros b Hb. pose proof Hb as Hb'. rewrite elem_of_list_to_set in Hb'.
    destruct (wf_home _ _ _ W b Hb') as [_ Hn]. apply elem_of_difference. split.
    - apply elem_of_difference. split; [by apply Hpin|]. rewrite elem_of_list_to_set, log_ws_fst.
      intros (i & -> & Hi%elem_of_seq)%list_elem_of_fmap. apply Hn.
      pose proof (wf_fit _ _ _ W) as Hfit. unfold in_log. fold l in Hfit |- *. lia.
    - cbn. rewrite union_empty_r_L, elem_of_singleton. intros ->.
      by apply (wf_start_not_home _ _ _ W). }
  rewrite lg_set_cache in H3. fold l in H3.
  rewrite (inst_ws_eq l bs (ac_view a2) v) in H3.
  2:{ intros i b Hb. cbn. rewrite put_ne by lia. by apply log_ws_read. }
  set (a3 := ac_writes (home_ws bs v) a2) in H3.
  assert (Hst3 : ac_view a3 (start l) = full_head l bs v).
  { rewrite <- Hst2. apply replay_other. rewrite home_ws_fst. by apply (wf_start_not_home _ _ _ W). }
  set (s3 := LState (log_lock s) (set_lh_n 0 l) c3 (woken s)).
  destruct (write_head_spec s3 [] a3 H3) as (c4 & E4 & H4).
  { apply (clear_wf l bs); [done|]. fold a3. rewrite Hst3. rewrite <- Hst2. apply W2. }
  { pose proof (ac_writes_busy_size (home_ws bs v) a2) as Hs3. fold a3 in Hs3. lia. }
  change (start (lg s3)) with (start l) in H4. rewrite Hst3 in H4. fold (empty_head l bs v) in H4.
  exists c4. split.
  - unfold commit, bind. unfold gets at 1. rewrite (wf_n _ _ _ W).
    destruct (Z.ltb_spec 0 (Z.of_nat (length bs))); [|destruct bs; [done|cbn in *; lia]].
    rewrite E1, E2. change (set_cache c2 (set_cache c1 s)) with (set_cache c2 s). rewrite E3.
    unfold on_log, modify. exact E4.
  - unfold commit_ws. rewrite cons_middle, !ac_writes_app. exact H4.
Qed.

(** ** Crashes *)

Lemma prefix_app_cases {A} (l l1 l2 : list A) :
  l `prefix_of` l1 ++ l2 → l `prefix_of` l1 ∨ ∃ l', l = l1 ++ l' ∧ l' `prefix_of` l2.
Proof.
  revert l. induction l1 as [|x l1 IH]; intros l Hp; [right; by exists l|].
  destruct l as [|y l]; [left; apply prefix_nil|]. cbn in Hp.
  assert (y = x) as -> by (by apply prefix_cons_inv_1 in Hp).
  apply prefix_cons_inv_2, IH in Hp as [Hp|(l' & -> & Hp)].
  - left. by apply prefix_cons.
  - right. by exists l'.
Qed.

Lemma prefix_snoc_cases {A} (l l1 : list A) x :
  l `prefix_of` l1 ++ [x] → l `prefix_of` l1 ∨ l = l1 ++ [x].
Proof.
  intros [Hp|(l' & -> & Hp)]%prefix_app_cases; [by left|].
  destruct l' as [|y l']; [left; by rewrite app_nil_r|right].
  assert (y = x) as -> by (by apply prefix_cons_inv_1 in Hp).
  apply prefix_cons_inv_2, prefix_nil_inv in Hp. by rewrite Hp.
Qed.

Lemma prefix_fst {A B} (ws1 ws : list (A * B)) k : ws1 `prefix_of` ws → k ∈ ws1.*1 → k ∈ ws.*1.
Proof. intros [ws2 ->]. rewrite fmap_app, elem_of_app. tauto. Qed.

(** A prefix of writes of distinct blocks, then all of them: the same. *)
Lemma replay_again ws1 ws d k :
  NoDup ws.*1 → ws1 `prefix_of` ws → replay ws (replay ws1 d) k = replay ws d k.
Proof.
  intros Hnd Hp. destruct (decide (k ∈ ws.*1)) as [Hk|Hk].
  - apply list_elem_of_fmap in Hk as ([k' v] & -> & Hin). by rewrite !(replay_in _ _ _ v).
  - rewrite !replay_other; try done. intros Hk'. by apply Hk, (prefix_fst ws1).
Qed.

(** What recovery makes of the disk [d]. *)
Definition rec_view (l : log) (d : Z → block) : Z → block := replay (rec_ws l d) d.

Lemma rec_view_home l d k :
  k ≠ start l → rec_view l d k = replay (inst_ws l (logged l d) d) d k.
Proof. intros Hk. unfold rec_view, rec_ws. rewrite replay_snoc. by apply put_ne. Qed.

Lemma not_in_log_start l k : 0 < size l → ¬ in_log l k → k ≠ start l.
Proof. unfold in_log. lia. Qed.

(** With an empty log, recovery changes no block. *)
Lemma rec_view_empty l d k : logged l d = [] → k ≠ start l → rec_view l d k = d k.
Proof. intros E Hk. rewrite rec_view_home by done. by rewrite E. Qed.

Lemma decode_zero d : lh_get_n d = 0 → lh_decode d = [].
Proof. intros E. unfold lh_decode. by rewrite E. Qed.

(** An empty header written over any header block. *)
Lemma empty_head_ok l sz d h :
  0 < size l → length h = 512%nat → d (start l) = lh_encode [] h →
  head_ok l sz d ∧ logged l d = [].
Proof.
  intros Hs Hh E. assert (Hn : lh_get_n (d (start l)) = 0) by (rewrite E; by apply lh_encode_n; [|cbn; lia]).
  assert (Hl : logged l d = []) by (by apply decode_zero).
  split; [|done]. split; rewrite ?Hn, ?Hl; try done.
  - by rewrite E, length_lh_encode.
  - constructor.
  - by intros b ?%not_elem_of_nil.
Qed.

(** A crash during recovery loses nothing: what the next recovery makes of the
    disk is the same. *)
Lemma recovery_crash l sz d ws1 :
  0 < size l → head_ok l sz d → ws1 `prefix_of` rec_ws l d →
  head_ok l sz (replay ws1 d) ∧ logged l (replay ws1 d) ⊆ logged l d ∧
  ∀ k, ¬ in_log l k → rec_view l (replay ws1 d) k = rec_view l d k.
Proof.
  intros Hs Ho Hp. unfold rec_ws in Hp.
  assert (Hout : ∀ k, in_log l k → k ∉ logged l d).
  { intros k Hk Hin. by destruct (ho_home _ _ _ Ho k Hin). }
  assert (Hst : in_log l (start l)) by (unfold in_log; lia).
  apply prefix_snoc_cases in Hp as [Hp| ->].
  - assert (Hsame : ∀ k, in_log l k → replay ws1 d k = d k).
    { intros k Hk. apply replay_other. intros Hin%(prefix_fst _ _ _ Hp). rewrite inst_ws_fst in Hin.
      by apply (Hout k). }
    assert (Hlg : logged l (replay ws1 d) = logged l d) by (unfold logged; by rewrite Hsame).
    assert (Hin : inst_ws l (logged l d) (replay ws1 d) = inst_ws l (logged l d) d).
    { pose proof (logged_length _ _ _ Ho). pose proof (ho_fit _ _ _ Ho).
      unfold inst_ws. apply imap_ext. intros i b Hb. f_equal. apply Hsame.
      apply lookup_lt_Some in Hb. unfold in_log. lia. }
    split; [|split; [by rewrite Hlg|]].
    + split; rewrite ?Hlg, ?Hsame by done; apply Ho.
    + intros k Hk. apply not_in_log_start in Hk; [|done].
      rewrite !rec_view_home, Hlg, Hin by done. apply replay_again; [|done].
      rewrite inst_ws_fst. apply Ho.
  - rewrite replay_snoc.
    destruct (empty_head_ok l sz (put (replay (inst_ws l (logged l d) d) d) (start l)
      (lh_encode [] (d (start l)))) (d (start l))) as [Ho' Hl']; [done|apply Ho|apply put_eq|].
    split; [done|]. split; [rewrite Hl'; apply list_subseteq_nil|].
    intros k Hk%not_in_log_start; [|done].
    rewrite rec_view_empty, rec_view_home by done. by apply put_ne.
Qed.

(** ** Crashes during commit *)

(** The contents after the transaction. *)
Definition committed (bs : list Z) (v d : Z → block) (k : Z) : block :=
  if decide (k ∈ bs) then v k else d k.

Lemma replay_home bs v d k : NoDup bs → replay (home_ws bs v) d k = committed bs v d k.
Proof.
  intros Hnd. unfold committed. case_decide as Hk.
  - apply replay_in; [by rewrite home_ws_fst|]. apply list_elem_of_fmap. by exists k.
  - apply replay_other. by rewrite home_ws_fst.
Qed.

Section CommitCrash.
Variables (l : log) (sz : Z) (bs : list Z) (v d : Z → block).
Hypothesis Hfit : Z.of_nat (length bs) < size l.
Hypothesis Hmax : Z.of_nat (length bs) <= LOGSIZE.
Hypothesis Hnd : NoDup bs.
Hypothesis Hhome : ∀ b, b ∈ bs → 0 <= b < sz ∧ ¬ in_log l b.
Hypothesis Hsz : sz <= 2^31.
Hypothesis Hlen : length (d (start l)) = 512%nat.
Hypothesis Hempty : lh_get_n (d (start l)) = 0.
Hypothesis Hhead : v (start l) = d (start l).

Lemma start_in_log : in_log l (start l).
Proof. unfold in_log. lia. Qed.

(** A disk whose log region has the new blocks and the full header, and whose
    home blocks have some of them, recovers to the new contents. *)
Lemma full_recovers d1 ws1 :
  ws1 `prefix_of` home_ws bs v →
  d1 = replay (log_ws l bs v ++ (start l, full_head l bs v) :: ws1) d →
  head_ok l sz d1 ∧ logged l d1 ⊆ bs ∧
  ∀ k, ¬ in_log l k → rec_view l d1 k = committed bs v d k.
Proof.
  intros Hp ->. set (d1 := replay _ d).
  assert (Hnot : ∀ k, in_log l k → k ∉ ws1.*1).
  { intros k Hk Hin%(prefix_fst _ _ _ Hp). rewrite home_ws_fst in Hin.
    by destruct (Hhome k Hin). }
  assert (Hst : d1 (start l) = full_head l bs v).
  { unfold d1. rewrite cons_middle, !replay_app, replay_other by (apply Hnot, start_in_log).
    apply put_eq. }
  assert (Hvb : Forall (λ b, 0 <= b < 2^31) bs).
  { apply Forall_forall. intros b Hb. destruct (Hhome b Hb). lia. }
  assert (Hmax' : (length bs <= 127)%nat) by (unfold LOGSIZE, MAXOPBLOCKS in Hmax; lia).
  assert (Hlg : logged l d1 = bs).
  { unfold logged. rewrite Hst. unfold full_head. rewrite Hhead. by apply lh_decode_encode. }
  assert (Hn : lh_get_n (d1 (start l)) = Z.of_nat (length bs)).
  { rewrite Hst. unfold full_head. rewrite Hhead. by apply lh_encode_n. }
  split.
  { split; rewrite ?Hlg, ?Hn; try done; try lia.
    rewrite Hst. unfold full_head. by rewrite length_lh_encode, Hhead. }
  split; [by rewrite Hlg|]. intros k Hk. pose proof (not_in_log_start l k ltac:(lia) Hk) as Hks.
  rewrite rec_view_home, Hlg by done. rewrite (inst_ws_eq l bs d1 v).
  - assert (Hd1 : ∀ j, replay (home_ws bs v) d1 j =
      replay (home_ws bs v) (replay (log_ws l bs v ++ [(start l, full_head l bs v)]) d) j).
    { intros j. unfold d1. rewrite cons_middle, app_assoc, (replay_app _ ws1). apply replay_again; [|done].
      by rewrite home_ws_fst. }
    rewrite Hd1, replay_home by done. unfold committed. case_decide; [done|].
    rewrite replay_snoc, put_ne by done. apply log_ws_other. unfold in_log in Hk. lia.
  - intros i b Hb. pose proof (lookup_lt_Some _ _ _ Hb).
    assert (in_log l (start l + Z.of_nat i + 1)) by (unfold in_log; lia).
    unfold d1. rewrite cons_middle, !replay_app, replay_other by (by apply Hnot).
    cbn. rewrite put_ne by lia. by apply log_ws_read.
Qed.

(** Before the header is written the old contents are recovered. *)
Lemma old_recovers ws1 :
  ws1 `prefix_of` log_ws l bs v →
  head_ok l sz (replay ws1 d) ∧ logged l (replay ws1 d) ⊆ bs ∧
  ∀ k, ¬ in_log l k → rec_view l (replay ws1 d) k = d k.
Proof.
  intros Hp.
  assert (Hsame : ∀ k, k <= start l ∨ start l + Z.of_nat (length bs) < k → replay ws1 d k = d k).
  { intros k Hk. apply replay_other. intros Hin%(prefix_fst _ _ _ Hp). rewrite log_ws_fst in Hin.
    apply list_elem_of_fmap in Hin as (i & -> & Hi%elem_of_seq). lia. }
  assert (Hlg : logged l (replay ws1 d) = []).
  { unfold logged. rewrite Hsame by lia. by apply decode_zero. }
  split; [|split; [rewrite Hlg; apply list_subseteq_nil|]].
  - split; rewrite ?Hlg, ?Hsame, ?Hempty by lia; try done; try lia; [constructor|].
    by intros b ?%not_elem_of_nil.
  - intros k Hk. rewrite rec_view_empty; [|done|apply not_in_log_start; [lia|done]].
    apply Hsame. unfold in_log in Hk. lia.
Qed.

(** After the header is cleared there is nothing left to recover. *)
Lemma done_recovers :
  head_ok l sz (replay (commit_ws l bs v) d) ∧ logged l (replay (commit_ws l bs v) d) ⊆ bs ∧
  ∀ k, ¬ in_log l k → rec_view l (replay (commit_ws l bs v) d) k = committed bs v d k.
Proof.
  unfold commit_ws. rewrite cons_middle, !app_assoc, replay_snoc. set (d1 := replay _ d).
  destruct (empty_head_ok l sz (put d1 (start l) (empty_head l bs v)) (full_head l bs v))
    as [Ho Hl]; [lia| |apply put_eq|].
  { unfold full_head. by rewrite length_lh_encode, Hhead. }
  split; [done|]. split; [rewrite Hl; apply list_subseteq_nil|].
  intros k Hk. pose proof (not_in_log_start l k ltac:(lia) Hk) as Hks.
  rewrite rec_view_empty, put_ne by done. unfold d1. rewrite replay_app, replay_home by done.
  unfold committed. case_decide; [done|]. rewrite replay_snoc, put_ne by done.
  apply log_ws_other. unfold in_log in Hk. lia.
Qed.

(** After any prefix of the writes of [commit], recovery yields the old or the
    new contents. *)
Lemma commit_crash ws1 :
  ws1 `prefix_of` commit_ws l bs v →
  head_ok l sz (replay ws1 d) ∧ logged l (replay ws1 d) ⊆ bs ∧
  (ws1 ≠ commit_ws l bs v ∧ (∀ k, ¬ in_log l k → rec_view l (replay ws1 d) k = d k) ∨
   (∀ k, ¬ in_log l k → rec_view l (replay ws1 d) k = committed bs v d k)).
Proof.
  assert (Hnot : ∀ ws, ws `prefix_of` log_ws l bs v → ws ≠ commit_ws l bs v).
  { intros ws Hl%prefix_length ->. unfold commit_ws in Hl. rewrite length_app in Hl. cbn in Hl. lia. }
  unfold commit_ws at 1. intros [Hp|(ws' & -> & Hp)]%prefix_app_cases.
  { destruct (old_recovers _ Hp) as (? & ? & ?). split_and!; [done..|left]. split; [by apply Hnot|done]. }
  destruct ws' as [|w ws'].
  { rewrite app_nil_r. destruct (old_recovers (log_ws l bs v)) as (? & ? & ?); [done|].
    split_and!; [done..|left]. split; [by apply Hnot|done]. }
  assert (w = (start l, full_head l bs v)) as -> by (by apply prefix_cons_inv_1 in Hp).
  apply prefix_cons_inv_2, prefix_snoc_cases in Hp as [Hp| ->].
  - destruct (full_recovers _ _ Hp eq_refl) as (? & ? & ?). split_and!; [done..|by right].
  - destruct done_recovers as (? & ? & ?). split_and!; [done..|by right].
Qed.

End CommitCrash.

(** ** Booting *)

(** The super block on the disk describes the log [l]. *)
Definition sb_ok (l : log) (d : Z → block) : Prop :=
  s32 (sb_logstart (get_sb (d 1))) = start l ∧ s32 (sb_nlog (get_sb (d 1))) = size l.

(** The log area, as far as the disk knows it. *)
Definition area (l : log) (sz : Z) : Prop :=
  0 <= start l ∧ start l + size l <= sz ∧ sz <= 2^31 ∧ 0 < size l ∧ 1 < sz ∧ ¬ in_log l 1.

(** A machine that has just been switched on: an empty cache over the disk,
    and the log's memory cleared. *)
Definition booted (s : lstate S) (d : Z → block) (sz : Z) : Prop :=
  c_ok (cache s) (boot_cache d sz) ∧ length (lh_block (lg s)) = Z.to_nat LOGSIZE.

Lemma boot_quiet d sz : quiet (boot_cache d sz).
Proof. done. Qed.

Lemma readsb_spec c d sz :
  c_ok c (boot_cache d sz) → 1 < sz →
  ∃ c', readsb ROOTDEV c = Ret (get_sb (d 1)) c' ∧ c_ok c' (boot_cache d sz).
Proof.
  intros H Hsz. destruct (c_bread_ok _ _ 1 H) as (b & c1 & E1 & Hb & H1).
  { cbn. lia. }
  { cbn. by rewrite map_img_empty_L. }
  { right. rewrite quiet_busy by apply boot_quiet. vm_compute. lia. }
  assert (Hb1 : ac_held (ac_hold b 1 (boot_cache d sz)) !! b = Some 1) by apply lookup_insert_eq.
  destruct (c_held_ok _ _ _ _ H1 Hb1) as (_ & Hd & _).
  destruct (c_brelse_ok _ _ _ _ H1 Hb1) as (c2 & E2 & H2); [by right|].
  exists c2. rewrite ac_drop_hold in H2 by done. split; [|done].
  unfold readsb. steps. by rewrite E1, E2, Hd.
Qed.

Lemma initlog_spec (s : lstate S) l d sz :
  booted s d sz → area l sz → head_ok l sz d → sb_ok l d →
  ∃ s', initlog ROOTDEV s = Ret tt s' ∧ c_ok (cache s') (ac_writes (rec_ws l d) (boot_cache d sz)) ∧
    lh_n (lg s') = 0 ∧ start (lg s') = start l ∧ size (lg s') = size l ∧ log_lock s' = false.
Proof.
  intros [H Hlb] (A1 & A2 & A3 & A4 & A5 & A6) Ho [Hs1 Hs2].
  destruct (readsb_spec _ _ _ H A5) as (c1 & E1 & H1).
  set (l1 := Log (start l) (size l) (outstanding (lg s)) (committing (lg s)) ROOTDEV (lh_n (lg s))
               (lh_block (lg s))).
  set (s1 := LState false l1 c1 (woken s)).
  destruct (recover_spec s1 (boot_cache d sz) H1) as (c2 & E2 & H2).
  { by split. }
  { split; apply Ho. }
  { apply boot_quiet. }
  exists (LState false (set_lh_n 0 (read_log l1 d)) c2 (woken s)). split; [|done].
  unfold initlog. ground_ifs. unfold bind, modify. cbn [set_lock log_has_lock].
  unfold on_cache at 1. cbn [cache]. rewrite E1. unfold on_log, modify, set_cache.
  cbn [lg log_lock cache woken]. rewrite Hs1, Hs2. exact E2.
Qed.

(** The disks that power failures leave behind: the machine is switched on
    over a disk and fails again after some of the writes of [initlog]. *)
Inductive crashed (sz : Z) (d0 : Z → block) : (Z → block) → Prop :=
  | crashed_here : crashed sz d0 d0
  | crashed_again d (s s' : lstate S) ws :
      crashed sz d0 d → booted s d sz → initlog ROOTDEV s = Ret tt s' →
      ws `prefix_of` c_hist (cache s') → crashed sz d0 (replay ws d).

(** A disk on which recovery works. *)
Record disk_ok (l : log) (sz : Z) (d : Z → block) : Prop := {
  dk_head : head_ok l sz d;
  dk_sb : sb_ok l d;
  dk_one : 1 ∉ logged l d }.

Lemma replay_sb l d ws : sb_ok l d → 1 ∉ ws.*1 → sb_ok l (replay ws d).
Proof. intros Hs Hn. unfold sb_ok. by rewrite replay_other. Qed.

Lemma crashed_inv l sz d0 d :
  area l sz → disk_ok l sz d0 → crashed sz d0 d →
  disk_ok l sz d ∧ ∀ k, ¬ in_log l k → rec_view l d k = rec_view l d0 k.
Proof.
  intros A D0. induction 1 as [|d s s' ws Hc [D IH] Hb E Hp]; [done|]. destruct D as [Ho Hs H1].
  destruct (initlog_spec s l d sz Hb A Ho Hs) as (s2 & E2 & H2 & _).
  rewrite E2 in E. injection E as <-.
  rewrite (c_hist_ok _ _ H2) in Hp. cbn in Hp.
  destruct A as (A1 & A2 & A3 & A4 & A5 & A6).
  destruct (recovery_crash l sz d ws A4 Ho Hp) as (Ho' & Hsub & Hr).
  split; [split; [done| |]|].
  - apply replay_sb; [done|]. intros Hin%(prefix_fst _ _ _ Hp).
    unfold rec_ws in Hin. rewrite fmap_app, inst_ws_fst in Hin.
    apply elem_of_app in Hin as [Hin|Hin%list_elem_of_singleton]; [done|].
    apply A6. unfold in_log. cbn in Hin. lia.
  - intros Hin. by apply H1, Hsub.
  - intros k Hk. by rewrite Hr, IH.
Qed.

(** Recovery leaves a quiet system whose blocks are the recovered ones. *)
Lemma initlog_recovers s l sz d :
  area l sz → disk_ok l sz d → booted s d sz →
  ∃ s' a', initlog ROOTDEV s = Ret tt s' ∧ c_ok (cache s') a' ∧ quiet a' ∧ lh_n (lg s') = 0 ∧
    ∀ k, ac_view a' k = rec_view l d k ∧ ac_disk a' k = rec_view l d k.
Proof.
  intros A [Ho Hs _] Hb. destruct (initlog_spec s l d sz Hb A Ho Hs) as (s' & E & H & Hn & _).
  exists s', (ac_writes (rec_ws l d) (boot_cache d sz)).
  split_and!; try done. apply quiet_writes, boot_quiet.
Qed.

(** ** [log_write] *)

(** The blocks of the transaction after [bno] is logged. *)
Definition log_add (bno : Z) (bs : list Z) : list Z :=
  if decide (bno ∈ bs) then bs else bs ++ [bno].

Lemma find_block_in bno bs : ∀ rest,
  bno ∈ bs → ∃ i, find_block bno (length bs) (bs ++ rest) = i ∧ bs !! i = Some bno.
Proof.
  induction bs as [|x bs IH]; intros rest Hin; [by apply not_elem_of_nil in Hin|].
  cbn. destruct (Z.eqb_spec x bno) as [->|Hx]; [by exists 0%nat|].
  apply elem_of_cons in Hin as [->|Hin]; [done|].
  destruct (IH rest Hin) as (i & -> & Hi). by exists (Datatypes.S i).
Qed.

Lemma find_block_out bno bs : ∀ rest,
  bno ∉ bs → find_block bno (length bs) (bs ++ rest) = length bs.
Proof.
  induction bs as [|x bs IH]; intros rest Hin; [by destruct rest|].
  apply not_elem_of_cons in Hin as [Hx Hin]. cbn.
  destruct (Z.eqb_spec x bno) as [->|_]; [done|]. by rewrite IH.
Qed.

(** The in-memory header after [log_write]. *)
Definition log_added (bno : Z) (bs : list Z) (l : log) : log :=
  if decide (bno ∈ bs) then l
  else set_lh_n (lh_n l + 1) (set_lh_block (<[length bs := bno]> (lh_block l)) l).

Lemma log_added_wf l bs a bno :
  log_wf l bs a → 0 <= bno < ac_size a → ¬ in_log l bno →
  Z.of_nat (length bs) < LOGSIZE → Z.of_nat (length bs) < size l - 1 →
  log_wf (log_added bno bs l) (log_add bno bs) (ac_pin bno a).
Proof.
  intros W Hb Hnl Hmax Hfit. unfold log_added, log_add.
  assert (Hfree : ∀ k, in_log l k → k ∉ ac_busy (ac_pin bno a)).
  { intros k Hk Hin. unfold ac_busy in Hin. cbn in Hin.
    rewrite !elem_of_union, elem_of_singleton in Hin. destruct Hin as [[->|Hin]|Hin]; [done| |];
    apply (wf_free _ _ _ W k Hk); unfold ac_busy; by rewrite elem_of_union; auto. }
  destruct (wf_blocks _ _ _ W) as [rest Hrest]. pose proof (wf_len _ _ _ W) as Hlen.
  case_decide as Hin.
  - split; try apply W; done.
  - split; cbn; try apply W; try done.
    + rewrite (wf_n _ _ _ W), length_app. cbn. lia.
    + rewrite length_app. cbn. lia.
    + by rewrite length_insert.
    + rewrite Hrest in Hlen |- *. destruct rest as [|x rest].
      { rewrite app_nil_r in Hlen. lia. }
      rewrite insert_app_r_alt, Nat.sub_diag by lia. cbn. exists rest. by rewrite <- app_assoc.
    + apply NoDup_app. split; [apply W|]. split; [|apply NoDup_singleton].
      by intros x Hx ->%list_elem_of_singleton.
    + intros x Hx. apply elem_of_app in Hx as [Hx| ->%list_elem_of_singleton]; [|done].
      by apply (wf_home _ _ _ W).
Qed.

Lemma log_write_spec (s : lstate S) bs a b bno :
  c_ok (cache s) a → log_wf (lg s) bs a → log_lock s = false → ac_held a !! b = Some bno →
  ¬ in_log (lg s) bno → 1 <= outstanding (lg s) →
  Z.of_nat (length bs) < LOGSIZE → Z.of_nat (length bs) < size (lg s) - 1 →
  ∃ c', log_write b s = Ret tt (LState false (log_added bno bs (lg s)) c' (woken s)) ∧
    c_ok c' (ac_pin bno a) ∧ log_wf (log_added bno bs (lg s)) (log_add bno bs) (ac_pin bno a).
Proof.
  intros H W Hlk Hb Hnl Hout Hmax Hfit.
  destruct (c_held_ok _ _ _ _ H Hb) as (Hbn & _ & Hr).
  destruct (c_setdirty_ok _ _ _ _ H Hb) as (c1 & E1 & H1).
  exists c1. split; [|split; [done|by apply log_added_wf]].
  pose proof (wf_n _ _ _ W) as Hn. pose proof (wf_len _ _ _ W) as Hlen.
  destruct (wf_blocks _ _ _ W) as [rest Hrest].
  unfold log_write, bind. unfold gets at 1. rewrite Hn, Nat2Z.id, Hrest.
  destruct (Z.leb_spec LOGSIZE (Z.of_nat (length bs))); [lia|].
  destruct (Z.leb_spec (size (lg s) - 1) (Z.of_nat (length bs))); [lia|].
  destruct (Z.ltb_spec (outstanding (lg s)) 1); [lia|]. cbn [orb].
  unfold acquire, bind, gets. cbn [lock_held log_has_lock]. rewrite Hlk.
  cbn [set_lock log_has_lock cache]. rewrite Hbn. unfold put_block, bind, gets. cbn [lg].
  assert (Hlb : ∀ i, (i < Z.to_nat LOGSIZE)%nat → (i < length (lh_block (lg s)))%nat) by lia.
  unfold log_added. destruct (decide (bno ∈ bs)) as [Hin|Hin].
  - destruct (find_block_in bno bs rest Hin) as (i & -> & Hi).
    pose proof (lookup_lt_Some _ _ _ Hi).
    rewrite decide_True by lia. unfold on_log, modify.
    destruct (Z.eqb_spec (Z.of_nat i) (Z.of_nat (length bs))); [lia|].
    unfold ret, on_cache. cbn [cache]. rewrite E1. cbn.
    rewrite list_insert_id by (by rewrite Hrest, lookup_app_l). by destruct s as [? []].
  - rewrite find_block_out by done. rewrite decide_True by lia. unfold on_log, modify.
    rewrite Z.eqb_refl. unfold on_cache. cbn [cache]. rewrite E1. cbn. by rewrite Hn.
Qed.

(** ** Operations *)

Lemma commit_nothing (s : lstate S) : lh_n (lg s) = 0 → commit s = Ret tt s.
Proof. intros Hn. unfold commit, bind, gets. by rewrite Hn. Qed.

(** Commits write whole blocks. *)
Lemma replay_length ws : ∀ (d : Z → block),
  Forall (λ w, length w.2 = 512%nat) ws → (∀ k, length (d k) = 512%nat) → ∀ k, length (replay ws d k) = 512%nat.
Proof.
  induction ws as [|[b x] ws IH]; intros d HF Hd; [done|]. inversion HF as [|? ? Hx HF']; subst.
  apply (IH (put d b x)); [done|]. intros k. unfold put. by destruct (k =? b).
Qed.

Lemma commit_ws_length l bs (v : Z → block) :
  (∀ k, length (v k) = 512%nat) → Forall (λ w, length w.2 = 512%nat) (commit_ws l bs v).
Proof.
  intros Hv. unfold commit_ws. apply Forall_app. split; [|apply Forall_cons; split; [|apply Forall_app; split]].
  - apply Forall_lookup_2. intros i w. unfold log_ws. rewrite list_lookup_imap.
    destruct (bs !! i); [|done]. intros [= <-]. apply Hv.
  - cbn. unfold full_head. rewrite length_lh_encode. apply Hv.
  - apply Forall_lookup_2. intros i w. unfold home_ws. rewrite list_lookup_fmap.
    destruct (bs !! i); [|done]. intros [= <-]. apply Hv.
  - apply Forall_singleton. unfold empty_head, full_head. cbn [snd]. rewrite !length_lh_encode. apply Hv.
Qed.

(** What a commit, of nothing or of something, leaves behind. *)
Lemma commit_done (s : lstate S) bs a :
  c_ok (cache s) a → log_wf (lg s) bs a → unheld bs a →
  (stdpp.base.size (ac_busy a) < NBUF)%nat → list_to_set bs ⊆ ac_pinned a →
  ∃ c' ws, commit s = Ret tt (LState (log_lock s) (set_lh_n 0 (lg s)) c' (woken s)) ∧
    c_ok c' (ac_writes ws a) ∧ log_wf (set_lh_n 0 (lg s)) [] (ac_writes ws a) ∧
    (∀ k, ¬ in_log (lg s) k → ac_view (ac_writes ws a) k = ac_view a k) ∧
    (∀ k, k ∈ bs → ac_disk (ac_writes ws a) k = ac_view a k ∧ k ∉ ac_pinned (ac_writes ws a)) ∧
    ((∀ k, length (ac_view a k) = 512%nat) → ∀ k, length (ac_view (ac_writes ws a) k) = 512%nat).
Proof.
  intros H W Hun Hsz Hpin. destruct (decide (bs = [])) as [->|Hne].
  { pose proof (wf_n _ _ _ W) as Hn. exists (cache s), []. rewrite commit_nothing by done.
    rewrite ac_writes_nil. split_and!; try done.
    - f_equal. destruct s as [? [] ? ?]. cbn in *. by subst.
    - rewrite <- (ac_writes_nil a). apply (clear_wf _ []); [done|]. rewrite ac_writes_nil. apply W.
    - by intros k ?%not_elem_of_nil. }
  destruct (commit_spec s bs a H W Hun Hne Hsz Hpin) as (c' & E & Hc).
  set (v := ac_view a) in *. set (l := lg s) in *.
  pose proof (wf_nodup _ _ _ W) as Hnd. pose proof (wf_fit _ _ _ W) as Hfit. fold l in Hfit.
  assert (Hrep : ∀ d k, k ≠ start l → replay (commit_ws l bs v) d k =
    committed bs v (replay (log_ws l bs v) d) k).
  { intros d k Hk. unfold commit_ws. rewrite cons_middle, !app_assoc, replay_snoc, put_ne by done.
    rewrite replay_app, replay_home by done. unfold committed. case_decide; [done|].
    by rewrite replay_snoc, put_ne. }
  exists c', (commit_ws l bs v). split_and!; try done.
  - apply (clear_wf l bs); [done|]. cbn. unfold commit_ws. rewrite cons_middle, !app_assoc, replay_snoc, put_eq.
    unfold empty_head, full_head. rewrite !length_lh_encode. apply W.
  - intros k Hk. cbn. rewrite Hrep by (apply not_in_log_start; [lia|done]).
    unfold committed. case_decide; [done|]. apply log_ws_other. unfold in_log in Hk. fold l in Hk. lia.
  - intros k Hk. assert (Hks : k ≠ start l) by (intros ->; by apply (wf_start_not_home _ _ _ W)). split.
    + cbn. rewrite Hrep by done. unfold committed. by rewrite decide_True.
    + cbn. intros [_ Hn]%elem_of_difference. apply Hn, elem_of_list_to_set.
      unfold commit_ws. rewrite fmap_app, fmap_cons, fmap_app, home_ws_fst.
      rewrite elem_of_app, elem_of_cons, elem_of_app. tauto.
  - intros Hlen. apply replay_length; [by apply commit_ws_length|done].
Qed.

(** The last operation to end commits: [end_op] returns with the log
    empty and open for new operations, wakes those waiting, and every block of
    the transaction is on the disk with the contents it has in the cache. *)
Theorem end_op_commits (s : lstate S) bs a :
  c_ok (cache s) a → log_wf (lg s) bs a → unheld bs a → log_lock s = false →
  outstanding (lg s) = 1 → committing (lg s) = 0 →
  (stdpp.base.size (ac_busy a) < NBUF)%nat → list_to_set bs ⊆ ac_pinned a →
  ∃ s' a', end_op s = Ret tt s' ∧ c_ok (cache s') a' ∧ log_wf (lg s') [] a' ∧
    outstanding (lg s') = 0 ∧ committing (lg s') = 0 ∧ log_lock s' = false ∧
    woken s' = woken s ++ [ChLog] ∧
    (∀ k, ¬ in_log (lg s) k → ac_view a' k = ac_view a k) ∧
    (∀ k, k ∈ bs → ac_disk a' k = ac_view a k ∧ k ∉ ac_pinned a').
Proof.
  intros H W Hun Hlk Hout Hcom Hsz Hpin. destruct s as [lk l c w]. cbn in *. subst lk.
  set (s1 := LState false (set_committing 1 (set_outstanding 0 l)) c w).
  assert (W1 : log_wf (lg s1) bs a) by (split; apply W).
  destruct (commit_done s1 bs a H W1 Hun Hsz Hpin) as (c' & ws & E & Hc & W' & Hv & Hd & _).
  exists (LState false (set_committing 0 (set_lh_n 0 (lg s1))) c' (w ++ [ChLog])), (ac_writes ws a).
  split_and!; try done; [|split; apply W'].
  unfold end_op, bind, acquire, gets, on_log, modify, release. cbn -[commit].
  rewrite Hcom, Hout. change (1 - 1) with 0. cbn -[commit]. fold s1. by rewrite E.
Qed.

(** C1. Commits are atomic: whatever prefix of the writes of [commit] reached
    the disk before a power failure, and however often the machine failed
    again while recovering, once [initlog] completes every block outside the
    log has either its contents from before the transaction or its contents
    after it, the same choice for all blocks; and it is the contents after it
    when [commit] had returned. *)
Theorem commit_atomic (s : lstate S) bs a :
  c_ok (cache s) a → log_wf (lg s) bs a → unheld bs a → bs ≠ [] →
  (stdpp.base.size (ac_busy a) < NBUF)%nat → list_to_set bs ⊆ ac_pinned a →
  lh_get_n (ac_disk a (start (lg s))) = 0 → sb_ok (lg s) (ac_disk a) →
  1 < ac_size a → ¬ in_log (lg s) 1 → 1 ∉ bs →
  ∃ s1 ws, commit s = Ret tt s1 ∧ c_hist (cache s1) = c_hist (cache s) ++ ws ∧
  ∀ ws1 d, ws1 `prefix_of` ws → crashed (ac_size a) (replay ws1 (ac_disk a)) d →
  ∀ s2 : lstate S, booted s2 d (ac_size a) →
  ∃ s3 a3, initlog ROOTDEV s2 = Ret tt s3 ∧ c_ok (cache s3) a3 ∧ quiet a3 ∧ lh_n (lg s3) = 0 ∧
    (ws1 ≠ ws ∧ (∀ k, ¬ in_log (lg s) k → ac_view a3 k = ac_disk a k) ∨
     (∀ k, ¬ in_log (lg s) k → ac_view a3 k = committed bs (ac_view a) (ac_disk a) k)).
Proof.
  intros H W Hun Hne Hsz Hpin Hemp Hsb H1 Hl1 Hb1.
  destruct (commit_spec s bs a H W Hun Hne Hsz Hpin) as (c1 & E1 & Hc1).
  eexists _, _. split; [exact E1|]. cbn [cache]. rewrite (c_hist_ok _ _ Hc1), (c_hist_ok _ _ H).
  split; [reflexivity|]. intros ws1 d Hp Hcr s2 Hb2.
  pose proof (wf_fit _ _ _ W). pose proof (wf_start_in _ _ _ W) as Hst.
  assert (Hv : ac_view a (start (lg s)) = ac_disk a (start (lg s)))
    by (by apply (c_clean _ _ _ H), (wf_free _ _ _ W)).
  pose proof (wf_start _ _ _ W). pose proof (wf_end _ _ _ W). pose proof (wf_disk _ _ _ W).
  assert (A : area (lg s) (ac_size a)) by (unfold area; split_and!; done || lia).
  destruct (commit_crash (lg s) (ac_size a) bs (ac_view a) (ac_disk a)) with (ws1 := ws1)
    as (Ho & Hsub & Hr); try done; try apply W.
  { apply (wf_max _ _ _ W). }
  { rewrite <- Hv. apply W. }
  assert (D : disk_ok (lg s) (ac_size a) (replay ws1 (ac_disk a))).
  { split; [done| |]; [|intros Hin; by apply Hb1, Hsub].
    apply replay_sb; [done|]. intros Hin%(prefix_fst _ _ _ Hp).
    apply (commit_ws_fst _ _ _ _ _ W) in Hin as [Hin|Hin]; done. }
  destruct (crashed_inv _ _ _ _ A D Hcr) as [D' Hrv].
  destruct (initlog_recovers s2 (lg s) _ d A D' Hb2) as (s3 & a3 & E3 & Hok3 & Q3 & Hn3 & Hk3).
  exists s3, a3. split_and!; try done.
  destruct Hr as [[Hnw Hr]|Hr]; [left; split; [done|]|right];
    intros k Hk; by rewrite (proj1 (Hk3 k)), Hrv, Hr.
Qed.

End Specs.
