(* ===== verification/LogSpace.v ===== *)
(** * Log space (xv6A1/log.c) and the log on the buffer cache

    [begin_op] admits an operation when the log could hold [MAXOPBLOCKS] more
    blocks for it and for each operation that is running. This file shows that
    the accounting keeps the log within [LOGSIZE] over every interleaving of
    operations, and what happens with the log that mkfs lays out, whose
    [nlog] blocks include the header. It also runs the theorems of Log.v on
    the real buffer cache. *)

From S2P Require Import Prelude Memory Spinlock BlockCache Layout Bio Log.

Section Space.
Context {S : Type} `{!BlockCache S}.

(** ** Routines that leave [log] alone *)

Definition keeps {A} (m : M (lstate S) A) : Prop :=
  ∀ s v s', m s = Ret v s' → lg s' = lg s.

Lemma keeps_ret {A} (v : A) : keeps (ret v).
Proof. by intros s w s' [= <- <-]. Qed.

Lemma keeps_gets {A} (f : lstate S → A) : keeps (gets f).
Proof. by intros s w s' [= <- <-]. Qed.

Lemma keeps_fault {A} e : keeps (A := A) (fault e).
Proof. by intros s w s'. Qed.

Lemma keeps_on_cache {A} (m : M S A) : keeps (on_cache m).
Proof. intros s v s'. unfold on_cache. destruct (m (cache s)); by intros [= <- <-]. Qed.

Lemma keeps_bind {A B} (m : M (lstate S) A) (k : A → M (lstate S) B) :
  keeps m → (∀ v, keeps (k v)) → keeps (bind m k).
Proof.
  intros Hm Hk s v s'. unfold bind. destruct (m s) as [w s1| | |] eqn:E; try done.
  intros E'. by rewrite (Hk _ _ _ _ E'), (Hm _ _ _ E).
Qed.

Lemma keeps_for_all {X} (xs : list X) (body : X → M (lstate S) unit) :
  (∀ x, keeps (body x)) → keeps (for_all xs body).
Proof.
  intros Hb. induction xs as [|x xs IH]; [apply keeps_ret|]. by apply keeps_bind.
Qed.

Lemma keeps_get_block i : keeps (get_block i).
Proof.
  apply keeps_bind; [apply keeps_gets|]. intros bs.
  destruct (bs !! i); [apply keeps_ret|apply keeps_fault].
Qed.

#[local] Hint Resolve keeps_ret keeps_gets keeps_on_cache keeps_get_block : kernel.
#[local] Hint Extern 1 (keeps (bind _ _)) => apply keeps_bind; [|intros ?] : kernel.
#[local] Hint Extern 1 (keeps (for_all _ _)) => apply keeps_for_all; intros ? : kernel.

Lemma keeps_write_log : keeps write_log.
Proof. unfold write_log, write_log_one. auto 20 with kernel. Qed.

Lemma keeps_install_trans : keeps install_trans.
Proof. unfold install_trans, install_one. auto 20 with kernel. Qed.

Lemma keeps_write_head : keeps write_head.
Proof. unfold write_head. auto 20 with kernel. Qed.

(** [commit] changes nothing of [log] but the block count, which it clears. *)
Lemma commit_lg (s s' : lstate S) :
  0 <= lh_n (lg s) → commit s = Ret tt s' → lg s' = set_lh_n 0 (lg s).
Proof.
  intros Hn. unfold commit, bind at 1, gets at 1.
  destruct (Z.ltb_spec 0 (lh_n (lg s))) as [Hpos|Hz].
  - unfold bind. destruct (write_log s) as [[] s1| | |] eqn:E1; try done.
    destruct (write_head s1) as [[] s2| | |] eqn:E2; try done.
    destruct (install_trans s2) as [[] s3| | |] eqn:E3; try done.
    unfold on_log, modify. intros E4. apply keeps_write_head in E4. rewrite E4. cbn.
    by rewrite (keeps_install_trans _ _ _ E3), (keeps_write_head _ _ _ E2), (keeps_write_log _ _ _ E1).
  - intros [= <-]. destruct s as [? [] ? ?]. cbn in *. unfold set_lh_n. cbn. f_equal. lia.
Qed.

Lemma begin_op_lg (s s' : lstate S) :
  begin_op s = Ret tt s' →
  lh_n (lg s) + (outstanding (lg s) + 1) * MAXOPBLOCKS <= LOGSIZE ∧
  lg s' = set_outstanding (outstanding (lg s) + 1) (lg s).
Proof.
  unfold begin_op, bind, acquire, release, gets, on_log, modify. cbn -[Z.mul Z.add].
  destruct (log_lock s); [done|]. cbn -[Z.mul Z.add].
  destruct (committing (lg s) =? 0); cbn -[Z.mul Z.add]; [|done].
  destruct (Z.ltb_spec LOGSIZE (lh_n (lg s) + (outstanding (lg s) + 1) * MAXOPBLOCKS)); cbn -[Z.mul Z.add]; [done|].
  by intros [= <-].
Qed.

Lemma end_op_lg (s s' : lstate S) :
  0 <= lh_n (lg s) → end_op s = Ret tt s' →
  outstanding (lg s') = outstanding (lg s) - 1 ∧
  lh_n (lg s') = (if outstanding (lg s) - 1 =? 0 then 0 else lh_n (lg s)).
Proof.
  intros Hn. unfold end_op, bind, acquire, release, gets, on_log, wakeup, modify. cbn -[commit].
  destruct (log_lock s); [done|]. cbn -[commit].
  destruct (committing (lg s) =? 0); cbn -[commit]; [|done].
  destruct (outstanding (lg s) - 1 =? 0); cbn -[commit]; [|by intros [= <-]].
  set (s1 := LState _ _ _ _). destruct (commit s1) as [[] s2| | |] eqn:E; try done.
  apply commit_lg in E; [|done]. cbn. destruct (log_lock s2); [done|]. cbn.
  intros [= <-]. cbn. by rewrite E.
Qed.

Lemma log_write_lg b (s s' : lstate S) :
  log_write b s = Ret tt s' →
  outstanding (lg s') = outstanding (lg s) ∧
  lh_n (lg s) < LOGSIZE ∧ lh_n (lg s) <= lh_n (lg s') <= lh_n (lg s) + 1.
Proof.
  unfold log_write, bind, gets at 1, acquire at 1.
  destruct (Z.leb_spec LOGSIZE (lh_n (lg s))); [done|].
  destruct (_ <=? _); [done|]. destruct (outstanding (lg s) <? 1); [done|]. cbn [orb lock_held log_has_lock].
  destruct (log_lock s); [done|]. unfold gets at 1. cbn [set_lock log_has_lock cache lg].
  unfold put_block, bind, gets at 1. cbn [lg]. destruct (decide _); [|done].
  unfold on_log at 1, modify at 1. cbn [log_lock lg cache woken].
  destruct (_ =? lh_n (lg s)); unfold on_log, modify, ret; cbn [log_lock lg cache woken];
    (match goal with |- context [on_cache ?m ?t] => destruct (on_cache m t) as [[] s2| | |] eqn:E end;
     [|done..]); apply keeps_on_cache in E; unfold release; cbn [lock_held log_has_lock];
    destruct (log_lock s2); try done; intros [= <-]; cbn; rewrite E; cbn; lia.
Qed.

(** ** Interleavings of operations *)

(** The running operations, as the number of [log_write] calls each has made. *)
Inductive tstep : lstate S * list Z → lstate S * list Z → Prop :=
  | T_begin s s' ops : begin_op s = Ret tt s' → tstep (s, ops) (s', 0 :: ops)
  | T_write s s' l1 k l2 b :
      k < MAXOPBLOCKS → log_write b s = Ret tt s' →
      tstep (s, l1 ++ k :: l2) (s', l1 ++ (k + 1) :: l2)
  | T_end s s' l1 k l2 : end_op s = Ret tt s' → tstep (s, l1 ++ k :: l2) (s', l1 ++ l2).

(** What the running operations may still write. *)
Definition budget (ops : list Z) : Z := foldr (λ k z, MAXOPBLOCKS - k + z) 0 ops.

Lemma budget_app l1 l2 : budget (l1 ++ l2) = budget l1 + budget l2.
Proof. induction l1; cbn; [done|]. unfold budget in *. lia. Qed.

Lemma budget_cons k l : budget (k :: l) = MAXOPBLOCKS - k + budget l.
Proof. done. Qed.

Record space_ok (st : lstate S * list Z) : Prop := {
  sp_out : outstanding (lg st.1) = Z.of_nat (length st.2);
  sp_n : 0 <= lh_n (lg st.1);
  sp_ops : Forall (λ k, 0 <= k <= MAXOPBLOCKS) st.2;
  sp_fit : lh_n (lg st.1) + budget st.2 <= LOGSIZE }.

Lemma budget_bounds ops :
  Forall (λ k, 0 <= k <= MAXOPBLOCKS) ops → 0 <= budget ops <= MAXOPBLOCKS * Z.of_nat (length ops).
Proof. induction 1; [done|]. rewrite budget_cons. cbn [length]. unfold MAXOPBLOCKS in *. lia. Qed.

Lemma space_step st st' : tstep st st' → space_ok st → space_ok st'.
Proof.
  intros [s s' ops E|s s' l1 k l2 b Hk E|s s' l1 k l2 E] [Ho Hn Hops Hf]; cbn [fst snd] in *.
  - apply begin_op_lg in E as [Hfit Hlg]. pose proof (budget_bounds ops Hops).
    split; cbn [fst snd]; rewrite ?Hlg, ?budget_cons; cbn [lh_n outstanding set_outstanding length];
      unfold MAXOPBLOCKS in *; try lia.
    by constructor.
  - apply log_write_lg in E as (Ho' & _ & Hn').
    rewrite budget_app, budget_cons in Hf. rewrite length_app in Ho.
    apply Forall_app in Hops as [H1 [H2 H3]%Forall_cons].
    split; cbn [fst snd]; rewrite ?length_app, ?budget_app, ?budget_cons; cbn [length] in *; try lia.
    apply Forall_app. split; [done|]. constructor; [lia|done].
  - apply end_op_lg in E as [Ho' Hn']; [|done].
    rewrite budget_app, budget_cons in Hf. rewrite length_app in Ho.
    apply Forall_app in Hops as [H1 [H2 H3]%Forall_cons].
    pose proof (budget_bounds _ H1). pose proof (budget_bounds _ H3).
    assert (lh_n (lg s') <= lh_n (lg s) ∧ 0 <= lh_n (lg s')) by (rewrite Hn'; destruct (_ =? _); lia).
    split; cbn [fst snd]; rewrite ?length_app, ?budget_app; cbn [length] in *; try lia.
    by apply Forall_app.
Qed.

(** C22. Log reservations: over every interleaving of operations that make at
    most [MAXOPBLOCKS] calls of [log_write] each, the log never holds more
    than [LOGSIZE] blocks, and an operation that has calls left finds fewer
    than [LOGSIZE] blocks in it. *)
Theorem log_reservation st st' :
  space_ok st → rtc tstep st st' →
  0 <= lh_n (lg st'.1) <= LOGSIZE ∧ outstanding (lg st'.1) = Z.of_nat (length st'.2) ∧
  (Exists (λ k, k < MAXOPBLOCKS) st'.2 → lh_n (lg st'.1) < LOGSIZE).
Proof.
  intros H Hs. assert (H' : space_ok st') by (clear -H Hs; induction Hs; eauto using space_step).
  destruct H' as [Ho Hn Hops Hf]. pose proof (budget_bounds _ Hops).
  split; [lia|]. split; [done|]. intros (k & (l1 & l2 & E)%list_elem_of_split & Hk)%Exists_exists.
  rewrite E in Hops, Hf. apply Forall_app in Hops as [H1 [H2 H3]%Forall_cons].
  rewrite budget_app, budget_cons in Hf.
  pose proof (budget_bounds _ H1). pose proof (budget_bounds _ H3). lia.
Qed.

End Space.

(** ** The log that mkfs makes, on the buffer cache *)

(** The super block mkfs writes: 30 log blocks from block 2 on. *)
Definition mkfs_sb : superblock := SB 1000 941 200 30 2 32 58.

Definition fresh_disk (k : Z) : block :=
  if k =? 1 then splice (replicate 512 0) 0 (sb_bytes mkfs_sb) else replicate 512 0.

Definition mkfs_log : log := Log 2 30 0 0 1 0 (replicate 30 0).

(** The machine after [binit] over such a disk. *)
Definition fresh_cache : bstate :=
  match binit (BState false boot_bufs fresh_disk 1000 [] 1) with
  | Ret _ s => s
  | _ => BState false [] fresh_disk 1000 [] 1
  end.

Definition fresh_log : lstate bstate := LState false mkfs_log fresh_cache [].

Lemma fresh_cache_ok : cache_ok fresh_cache (boot_cache fresh_disk 1000).
Proof.
  destruct (binit_spec false fresh_disk 1000 1) as (s & E & _ & H).
  unfold fresh_cache. by rewrite E.
Qed.

(** Read a block, log it, release it. *)
Definition touch (bno : Z) : M (lstate bstate) unit :=
  b <- on_cache (bread ROOTDEV bno) ;;
  log_write b ;;;
  on_cache (brelse b).

Lemma log_reservation_witness :
  ∃ s, rtc tstep (fresh_log, []) (s, [0]) ∧ 0 <= lh_n (lg s) <= LOGSIZE.
Proof.
  destruct (begin_op fresh_log) as [[] s| | |] eqn:E; try (by vm_compute in E).
  assert (Hs : rtc tstep (fresh_log, []) (s, [0])) by (apply rtc_once; by constructor).
  exists s. split; [done|].
  destruct (log_reservation (fresh_log, []) (s, [0])) as [Hn _]; [|done|exact Hn].
  split; vm_compute; done || constructor.
Defined.

(** The reservation counts [LOGSIZE] blocks, but a log of [nlog] blocks has
    room for [nlog - 1]: with the log that mkfs lays out ([nlog = LOGSIZE]),
    three operations are admitted together, and the call of [log_write] that
    the reservation of the third one still covers panics. *)
Theorem reservation_overflow :
  ∃ s, (begin_op ;;; begin_op ;;; begin_op ;;;
        for_all (map Z.of_nat (seq 100 29)) touch) fresh_log = Ret tt s ∧
    outstanding (lg s) = 3 ∧ lh_n (lg s) = 29 ∧
    touch 129 s = Panic "too big a transaction".
Proof.
  destruct ((begin_op ;;; begin_op ;;; begin_op ;;;
    for_all (map Z.of_nat (seq 100 29)) touch) fresh_log) as [[] s| | |] eqn:E;
    vm_compute in E; try done.
  injection E as <-. eexists. split; [reflexivity|]. vm_compute. done.
Qed.

(** ** A transaction in progress, for the witnesses *)

(** Block 100 has been rewritten and logged by the one running operation. *)
Definition one_logged : acache :=
  ACache (put fresh_disk 100 (replicate 512 7)) fresh_disk {[100]} ∅ 1000 [].

Definition one_log : log := Log 2 30 1 0 1 1 (100 :: replicate 29 0).

Lemma one_logged_ok : ∃ c : bstate, cache_ok c one_logged.
Proof.
  destruct (bread_spec fresh_cache (boot_cache fresh_disk 1000) 100 fresh_cache_ok)
    as (b & c1 & _ & Hb & H1).
  { cbn. lia. }
  { cbn. by rewrite map_img_empty_L. }
  { right. vm_compute. lia. }
  assert (Hh : ac_held (ac_hold b 100 (boot_cache fresh_disk 1000)) !! b = Some 100)
    by apply lookup_insert_eq.
  destruct (setdata_spec _ _ _ _ (replicate 512 7) H1 Hh) as (c2 & _ & H2).
  destruct (setdirty_spec _ _ _ _ H2 Hh) as (c3 & _ & H3).
  destruct (brelse_spec _ _ _ _ H3 Hh) as (c4 & _ & H4).
  { left. apply elem_of_union_l. by apply elem_of_singleton. }
  exists c4. cbn in H4. unfold ac_drop in H4. cbn in H4.
  rewrite delete_insert_id in H4 by done. by rewrite union_empty_r_L in H4.
Qed.

Lemma one_log_wf : log_wf one_log [100] one_logged.
Proof.
  split; try (vm_compute; done).
  - by exists (replicate 29 0).
  - apply NoDup_singleton.
  - intros b ->%list_elem_of_singleton. vm_compute. split; [done|]. intros []. done.
  - intros k Hk Hin. unfold ac_busy in Hin. cbn in Hin.
    apply elem_of_union in Hin as [->%elem_of_singleton|Hin].
    + by destruct Hk.
    + by rewrite map_img_empty_L in Hin.
Qed.

Lemma one_log_side :
  unheld [100] one_logged ∧ (stdpp.base.size (ac_busy one_logged) < NBUF)%nat ∧
  list_to_set [100] ⊆ ac_pinned one_logged.
Proof.
  split; [|split].
  - intros b _. cbn. by rewrite map_img_empty_L.
  - apply Nat.ltb_lt. vm_compute. reflexivity.
  - cbn. by rewrite union_empty_r_L.
Qed.

Lemma commit_atomic_witness :
  ∃ s s1 : lstate bstate, cache_ok (cache s) one_logged ∧ commit s = Ret tt s1.
Proof.
  destruct one_logged_ok as [c Hc]. destruct one_log_side as (Hun & Hsz & Hpin).
  set (s := LState false one_log c []).
  destruct (commit_atomic (BlockCache0 := bio_block_cache) s [100] one_logged Hc one_log_wf Hun) as (s1 & ws & E & _); try done.
  - intros []. done.
  - by intros ?%list_elem_of_singleton.
  - by exists s, s1.
Defined.

Lemma end_op_commits_witness :
  ∃ (s s1 : lstate bstate) a1, end_op s = Ret tt s1 ∧ cache_ok (cache s1) a1 ∧
    ac_disk a1 100 = replicate 512 7.
Proof.
  destruct one_logged_ok as [c Hc]. destruct one_log_side as (Hun & Hsz & Hpin).
  set (s := LState false one_log c []).
  destruct (end_op_commits (BlockCache0 := bio_block_cache) s [100] one_logged Hc one_log_wf Hun)
    as (s1 & a1 & E & Hok & _ & _ & _ & _ & _ & _ & Hd); try done.
  exists s, s1, a1. split; [done|]. split; [done|].
  by destruct (Hd 100) as [-> _]; [apply list_elem_of_singleton|].
Defined.
