(* ===== verification/TxDisk.v ===== *)
(** * The disk inside a transaction

    What the file system (fs.c) relies on of the log and the buffer cache
    between [begin_op] and [end_op]: blocks are read with [bread], changed in
    the buffer, handed to the log with [log_write] and released. The class has
    the operations, an abstract state and one law per operation; the file
    system's theorems are proved against it, and the second half of the file
    shows that the log over any block cache is an instance. *)

From S2P Require Import Prelude Memory Spinlock BlockCache Layout Log.

(** The number of elements of a set or map ([size] is a field of the log). *)
Abbreviation card := stdpp.base.size.

(** The abstract state: the current contents of each block, the buffers the
    caller holds, those among their blocks that were changed and not yet handed
    to the log, the blocks of the running transaction, and how many blocks the
    transaction may grow to. The blocks of the log itself, from [td_log] on,
    belong to the log. [td_ops] operations have begun and not ended. *)
Record txdisk := TD {
  td_view : Z → block;
  td_held : gmap nat Z;
  td_dirty : gset Z;
  td_logged : gset Z;
  td_cap : nat;
  td_size : Z;
  td_log : Z;
  td_nlog : Z;
  td_ops : nat }.

Definition td_hold (b : nat) (bno : Z) (a : txdisk) : txdisk :=
  TD (td_view a) (<[b := bno]> (td_held a)) (td_dirty a) (td_logged a) (td_cap a) (td_size a)
    (td_log a) (td_nlog a) (td_ops a).
Definition td_drop (b : nat) (a : txdisk) : txdisk :=
  TD (td_view a) (delete b (td_held a)) (td_dirty a) (td_logged a) (td_cap a) (td_size a)
    (td_log a) (td_nlog a) (td_ops a).
Definition td_put (bno : Z) (d : block) (a : txdisk) : txdisk :=
  TD (put (td_view a) bno d) (td_held a) ({[bno]} ∪ td_dirty a) (td_logged a) (td_cap a)
    (td_size a) (td_log a) (td_nlog a) (td_ops a).
Definition td_add (bno : Z) (a : txdisk) : txdisk :=
  TD (td_view a) (td_held a) (td_dirty a ∖ {[bno]}) ({[bno]} ∪ td_logged a) (td_cap a)
    (td_size a) (td_log a) (td_nlog a) (td_ops a).

(** A block the file system may use. *)
Definition td_home (a : txdisk) (bno : Z) : Prop :=
  0 <= bno < td_size a ∧ ¬ (td_log a <= bno < td_log a + td_nlog a).

(** The most buffers the file system has when it reads another one, so that the
    largest transaction leaves a buffer to read with. *)
Definition MAXHELD : nat := 1.
Definition MAXTX : nat := NBUF - MAXHELD - 1.

Class TxDisk (S : Type) := {
  d_bread : Z → Z → M S nat;
  d_brelse : nat → M S unit;
  d_log_write : nat → M S unit;
  d_data : nat → S → block;
  d_setdata : nat → block → M S unit;
  d_ok : S → txdisk → Prop;

  d_bread_ok : ∀ s a bno,
    d_ok s a → td_home a bno → bno ∉@{gset Z} map_img (td_held a) →
    (card (td_held a) <= MAXHELD)%nat →
    ∃ b s', d_bread ROOTDEV bno s = Ret b s' ∧ td_held a !! b = None ∧ d_ok s' (td_hold b bno a);
  d_data_ok : ∀ s a b bno,
    d_ok s a → td_held a !! b = Some bno → d_data b s = td_view a bno;
  d_setdata_ok : ∀ s a b bno d,
    d_ok s a → td_held a !! b = Some bno →
    ∃ s', d_setdata b d s = Ret tt s' ∧ d_ok s' (td_put bno d a);
  (** [log_write] needs a free entry even for a block already in the log. *)
  d_log_write_ok : ∀ s a b bno,
    d_ok s a → td_held a !! b = Some bno → (card (td_logged a) < td_cap a)%nat →
    ∃ s', d_log_write b s = Ret tt s' ∧ d_ok s' (td_add bno a);
  d_brelse_ok : ∀ s a b bno,
    d_ok s a → td_held a !! b = Some bno → bno ∉ td_dirty a →
    ∃ s', d_brelse b s = Ret tt s' ∧ d_ok s' (td_drop b a) }.

(** ** Reading and writing a whole block

    The two ways the file system uses a buffer, as one step each on the
    abstract state. *)

(** A block of the transaction gets new contents. *)
Definition td_write (bno : Z) (d : block) (a : txdisk) : txdisk :=
  TD (put (td_view a) bno d) (td_held a) (td_dirty a ∖ {[bno]}) ({[bno]} ∪ td_logged a) (td_cap a)
    (td_size a) (td_log a) (td_nlog a) (td_ops a).

(** A block can be taken: it is not one of the log's, nobody holds it, and
    there is a buffer for it. *)
Definition td_free (a : txdisk) (bno : Z) : Prop :=
  td_home a bno ∧ (bno ∉@{gset Z} map_img (td_held a)) ∧ (card (td_held a) <= MAXHELD)%nat ∧
  bno ∉ td_dirty a.

Lemma td_drop_hold a b bno : td_held a !! b = None → td_drop b (td_hold b bno a) = a.
Proof. intros. destruct a. unfold td_drop, td_hold. cbn. by rewrite delete_insert_id. Qed.

Lemma td_write_hold a b bno d :
  td_held a !! b = None → bno ∉ td_dirty a →
  td_drop b (td_add bno (td_put bno d (td_hold b bno a))) = td_write bno d a.
Proof.
  intros Hb Hd. destruct a. unfold td_drop, td_add, td_put, td_hold, td_write. cbn in *.
  rewrite delete_insert_id by done. f_equal. set_solver.
Qed.

Section Use.
Context {S : Type} `{!TxDisk S}.

Lemma use_read (s : S) a bno :
  d_ok s a → td_free a bno →
  ∃ b s1 s2, d_bread ROOTDEV bno s = Ret b s1 ∧ d_data b s1 = td_view a bno ∧
    d_brelse b s1 = Ret tt s2 ∧ d_ok s2 a.
Proof.
  intros H (Hh & Hn & Hs & Hd).
  destruct (d_bread_ok s a bno H Hh Hn Hs) as (b & s1 & E1 & Hb & H1).
  assert (Hb' : td_held (td_hold b bno a) !! b = Some bno) by apply lookup_insert_eq.
  pose proof (d_data_ok _ _ _ _ H1 Hb') as Ed.
  destruct (d_brelse_ok _ _ _ _ H1 Hb' Hd) as (s2 & E2 & H2). rewrite td_drop_hold in H2 by done.
  by exists b, s1, s2.
Qed.

Lemma use_write (s : S) a bno d :
  d_ok s a → td_free a bno → (card (td_logged a) < td_cap a)%nat →
  ∃ b s1 s2 s3 s4, d_bread ROOTDEV bno s = Ret b s1 ∧ d_data b s1 = td_view a bno ∧
    d_setdata b d s1 = Ret tt s2 ∧ d_log_write b s2 = Ret tt s3 ∧ d_brelse b s3 = Ret tt s4 ∧
    d_ok s4 (td_write bno d a).
Proof.
  intros H (Hh & Hn & Hs & Hd) Hc.
  destruct (d_bread_ok s a bno H Hh Hn Hs) as (b & s1 & E1 & Hb & H1).
  assert (Hb' : td_held (td_hold b bno a) !! b = Some bno) by apply lookup_insert_eq.
  pose proof (d_data_ok _ _ _ _ H1 Hb') as Ed.
  destruct (d_setdata_ok _ _ _ _ d H1 Hb') as (s2 & E2 & H2).
  destruct (d_log_write_ok _ _ _ _ H2 Hb' Hc) as (s3 & E3 & H3).
  destruct (d_brelse_ok _ _ _ _ H3 Hb') as (s4 & E4 & H4); [cbn; set_solver|].
  rewrite td_write_hold in H4 by done. by exists b, s1, s2, s3, s4.
Qed.

(** The same when the buffer has been held for a while. *)
Lemma use_put (s : S) a b bno d :
  d_ok s a → td_held a !! b = Some bno → (card (td_logged a) < td_cap a)%nat →
  ∃ s1 s2 s3, d_setdata b d s = Ret tt s1 ∧ d_log_write b s1 = Ret tt s2 ∧
    d_brelse b s2 = Ret tt s3 ∧ d_ok s3 (td_drop b (td_write bno d a)).
Proof.
  intros H Hb Hc.
  destruct (d_setdata_ok _ _ _ _ d H Hb) as (s1 & E1 & H1).
  destruct (d_log_write_ok _ _ _ _ H1 Hb Hc) as (s2 & E2 & H2).
  destruct (d_brelse_ok _ _ _ _ H2 Hb) as (s3 & E3 & H3); [cbn; set_solver|].
  exists s1, s2, s3. split_and!; try done.
  replace (td_write bno d a) with (td_add bno (td_put bno d a)); [done|].
  destruct a. unfold td_add, td_put, td_write. cbn. f_equal. set_solver.
Qed.

End Use.

(** A written block keeps every block takeable that was. *)
Lemma td_free_write a bno d k : td_free a k → td_free (td_write bno d a) k.
Proof. intros (Hh & Hn & Hs & Hd). split_and!; [done..|]. cbn. set_solver. Qed.

Lemma td_logged_write a bno d :
  (card (td_logged (td_write bno d a)) <= 1 + card (td_logged a))%nat.
Proof.
  cbn. rewrite size_union_alt, size_singleton. apply le_n_S, subseteq_size. set_solver.
Qed.

#[export] Hint Resolve td_free_write : kernel.

(** ** The log provides it *)

(** The log open for an operation, with [td_logged] the blocks of its header:
    they are the pinned blocks of the cache, and a held block that the file
    system has not changed, or has logged, needs no write. *)
Record log_tx {S} `{!BlockCache S} (s : lstate S) (a : txdisk) (bs : list Z) (c : acache) : Prop := {
  tx_cache : c_ok (cache s) c;
  tx_log : log_wf (lg s) bs c;
  tx_lock : log_lock s = false;
  tx_ops : committing (lg s) = 0 ∧ outstanding (lg s) = Z.of_nat (td_ops a);
  tx_open : (0 < td_cap a → 0 < td_ops a)%nat;
  tx_view : td_view a = ac_view c;
  tx_held : td_held a = ac_held c;
  tx_size : td_size a = ac_size c;
  tx_area : td_log a = start (lg s) ∧ td_nlog a = size (lg s);
  tx_home : ∀ b bno, ac_held c !! b = Some bno → ¬ in_log (lg s) bno;
  tx_logged : td_logged a = list_to_set bs;
  tx_pinned : ac_pinned c = list_to_set bs;
  tx_max : (td_cap a <= MAXTX)%nat ∧ Z.of_nat (td_cap a) <= LOGSIZE ∧
    Z.of_nat (td_cap a) <= size (lg s) - 1;
  tx_fits : (length bs <= td_cap a)%nat;
  tx_clean : ∀ b bno, ac_held c !! b = Some bno → bno ∉ td_dirty a →
    bno ∈ ac_pinned c ∨ ac_view c bno = ac_disk c bno }.

Lemma map_img_size (m : gmap nat Z) : (card (map_img m : gset Z) <= card m)%nat.
Proof.
  induction m as [|i x m Hi IH] using map_ind; [done|].
  rewrite map_img_insert_notin_L, map_size_insert_None, size_union_alt, size_singleton by done.
  apply le_n_S. etransitivity; [|exact IH]. apply subseteq_size.
  by apply (subseteq_difference_l (C := gset Z)).
Qed.

Section Instance_log.
Context {S : Type} `{!BlockCache S}.

Definition log_tx_ok (s : lstate S) (a : txdisk) : Prop := ∃ bs c, log_tx s a bs c.

Lemma tx_bread s a bno :
  log_tx_ok s a → td_home a bno → bno ∉@{gset Z} map_img (td_held a) →
  (card (td_held a) <= MAXHELD)%nat →
  ∃ b s', on_cache (c_bread ROOTDEV bno) s = Ret b s' ∧ td_held a !! b = None ∧
    log_tx_ok s' (td_hold b bno a).
Proof.
  intros (bs & c & T) [Hr Hl] Hn Hs.
  rewrite (tx_held _ _ _ _ T) in Hn, Hs |- *. rewrite (tx_size _ _ _ _ T) in Hr.
  destruct (tx_area _ _ _ _ T) as [Hls Hln]. rewrite Hls, Hln in Hl.
  destruct (c_bread_ok _ _ bno (tx_cache _ _ _ _ T) Hr Hn) as (b & c1 & E & Hb & H1).
  { right. unfold ac_busy. rewrite (tx_pinned _ _ _ _ T).
    pose proof (size_union_alt (list_to_set bs : gset Z) (map_img (ac_held c))) as Hu.
    pose proof (size_list_to_set (C := gset Z) bs (wf_nodup _ _ _ (tx_log _ _ _ _ T))).
    assert (card (map_img (ac_held c) ∖ list_to_set bs : gset Z) <= card (ac_held c))%nat.
    { etransitivity; [apply subseteq_size, (subseteq_difference_l (C := gset Z)); reflexivity|].
      apply map_img_size. }
    pose proof (tx_fits _ _ _ _ T). destruct (tx_max _ _ _ _ T) as [Hm _].
    unfold MAXTX, MAXHELD, NBUF in *. lia. }
  exists b, (set_cache c1 s). split; [by apply on_cache_ret|]. split; [done|].
  exists bs, (ac_hold b bno c).
  assert (Hin : ∀ b' k, ac_held (ac_hold b bno c) !! b' = Some k → k = bno ∨ ac_held c !! b' = Some k).
  { intros b' k. cbn. rewrite lookup_insert_Some. intros [[_ <-]|[_ ?]]; auto. }
  split; try apply T; try done; cbn.
  - pose proof (tx_log _ _ _ _ T) as W. split; try apply W. intros k Hk.
    rewrite ac_busy_hold_eq by done. apply not_elem_of_union. split; [|by apply W].
    rewrite elem_of_singleton. intros ->. by apply Hl.
  - by rewrite (tx_held _ _ _ _ T).
  - intros b' k [->|Hk]%Hin; [done|]. by apply (tx_home _ _ _ _ T b').
  - intros b' k [->|Hk]%Hin Hd; [|by apply (tx_clean _ _ _ _ T b')].
    destruct (decide (bno ∈ ac_pinned c)) as [|Hp]; [by left|right].
    apply (c_clean _ _ _ (tx_cache _ _ _ _ T)). unfold ac_busy. by rewrite not_elem_of_union.
Qed.

Lemma tx_data s a b bno :
  log_tx_ok s a → td_held a !! b = Some bno → c_data b (cache s) = td_view a bno.
Proof.
  intros (bs & c & T) Hb. rewrite (tx_held _ _ _ _ T) in Hb. rewrite (tx_view _ _ _ _ T).
  by destruct (c_held_ok _ _ _ _ (tx_cache _ _ _ _ T) Hb) as (_ & ? & _).
Qed.

Lemma tx_setdata s a b bno d :
  log_tx_ok s a → td_held a !! b = Some bno →
  ∃ s', on_cache (c_setdata b d) s = Ret tt s' ∧ log_tx_ok s' (td_put bno d a).
Proof.
  intros (bs & c & T) Hb. rewrite (tx_held _ _ _ _ T) in Hb.
  destruct (c_setdata_ok _ _ _ _ d (tx_cache _ _ _ _ T) Hb) as (c1 & E & H1).
  exists (set_cache c1 s). split; [by apply on_cache_ret|]. exists bs, (ac_put bno d c).
  split; try apply T; try done; cbn.
  - pose proof (tx_log _ _ _ _ T) as W. split; try apply W. cbn. rewrite put_ne; [apply W|].
    intros <-. apply (tx_home _ _ _ _ T b _ Hb). by apply (wf_start_in _ _ _ W).
  - by rewrite (tx_view _ _ _ _ T).
  - intros b' k Hk Hd. apply not_elem_of_union in Hd as [Hne Hd].
    rewrite elem_of_singleton in Hne. rewrite put_ne by done. by apply (tx_clean _ _ _ _ T b').
Qed.

Lemma tx_log_write s a b bno :
  log_tx_ok s a → td_held a !! b = Some bno → (card (td_logged a) < td_cap a)%nat →
  ∃ s', log_write b s = Ret tt s' ∧ log_tx_ok s' (td_add bno a).
Proof.
  intros (bs & c & T) Hb Hc. rewrite (tx_held _ _ _ _ T) in Hb.
  rewrite (tx_logged _ _ _ _ T) in Hc. pose proof (tx_log _ _ _ _ T) as W.
  rewrite (size_list_to_set (C := gset Z) bs (wf_nodup _ _ _ W)) in Hc.
  destruct (tx_max _ _ _ _ T) as (Hm1 & Hm2 & Hm3).
  destruct (log_write_spec s bs c b bno (tx_cache _ _ _ _ T) W (tx_lock _ _ _ _ T) Hb
    (tx_home _ _ _ _ T b _ Hb)) as (c1 & E & H1 & W1); [|lia..|].
  { pose proof (tx_open _ _ _ _ T). destruct (tx_ops _ _ _ _ T). lia. }
  exists (LState false (log_added bno bs (lg s)) c1 (woken s)). split; [done|].
  assert (Hset : list_to_set (log_add bno bs) = {[bno]} ∪ list_to_set (C := gset Z) bs).
  { unfold log_add. case_decide; [set_solver|]. rewrite list_to_set_app_L. set_solver. }
  assert (Hla : ∀ P : log → Prop, P (lg s) →
    P (set_lh_n (lh_n (lg s) + 1) (set_lh_block (<[length bs := bno]> (lh_block (lg s))) (lg s))) →
    P (log_added bno bs (lg s))).
  { intros P HP HQ. unfold log_added. by case_decide. }
  exists (log_add bno bs), (ac_pin bno c).
  split; try apply T; try done; cbn [cache lg log_lock td_view td_held td_size td_log td_nlog
    td_add ac_view ac_held ac_size ac_pin td_logged ac_pinned td_cap td_dirty ac_disk].
  - by apply (Hla (λ l, committing l = 0 ∧ outstanding l = Z.of_nat (td_ops a))); cbn; apply T.
  - by apply (Hla (λ l, td_log a = start l ∧ td_nlog a = size l)); cbn; apply T.
  - by apply (Hla (λ l, ∀ b' k, ac_held c !! b' = Some k → ¬ in_log l k)); cbn; apply T.
  - by rewrite Hset, (tx_logged _ _ _ _ T).
  - by rewrite Hset, (tx_pinned _ _ _ _ T).
  - apply (Hla (λ l, (td_cap a <= MAXTX)%nat ∧ Z.of_nat (td_cap a) <= LOGSIZE ∧
      Z.of_nat (td_cap a) <= size l - 1)); cbn; apply T.
  - unfold log_add. case_decide; [lia|]. rewrite length_app. cbn. lia.
  - intros b' k Hk Hd. destruct (decide (k = bno)) as [->|]; [left; set_solver|].
    destruct (tx_clean _ _ _ _ T b' k Hk) as [?|?]; [set_solver|left; set_solver|by right].
Qed.

Lemma tx_brelse s a b bno :
  log_tx_ok s a → td_held a !! b = Some bno → bno ∉ td_dirty a →
  ∃ s', on_cache (c_brelse b) s = Ret tt s' ∧ log_tx_ok s' (td_drop b a).
Proof.
  intros (bs & c & T) Hb Hd. rewrite (tx_held _ _ _ _ T) in Hb.
  destruct (c_brelse_ok _ _ _ _ (tx_cache _ _ _ _ T) Hb) as (c1 & E & H1).
  { by apply (tx_clean _ _ _ _ T b). }
  exists (set_cache c1 s). split; [by apply on_cache_ret|]. exists bs, (ac_drop b c).
  assert (Hin : ∀ b' k, ac_held (ac_drop b c) !! b' = Some k → ac_held c !! b' = Some k).
  { intros b' k. cbn. rewrite lookup_delete_Some. tauto. }
  split; try apply T; try done; cbn.
  - pose proof (tx_log _ _ _ _ T) as W. split; try apply W. intros k Hk Hin'.
    apply (wf_free _ _ _ W k Hk). unfold ac_busy in *. cbn in Hin'.
    apply elem_of_union in Hin' as [?|Hi]; apply elem_of_union; [by left|right].
    apply elem_of_map_img in Hi as [i Hi]. apply elem_of_map_img. exists i. by apply Hin.
  - by rewrite (tx_held _ _ _ _ T).
  - intros b' k Hk%Hin. by apply (tx_home _ _ _ _ T b').
  - intros b' k Hk%Hin. by apply (tx_clean _ _ _ _ T b').
Qed.

End Instance_log.

#[export] Instance log_tx_disk S `{!BlockCache S} : TxDisk (lstate S) := {|
  d_bread dev bno := on_cache (c_bread dev bno);
  d_brelse b := on_cache (c_brelse b);
  d_log_write := log_write;
  d_data b s := c_data b (cache s);
  d_setdata b d := on_cache (c_setdata b d);
  d_ok := log_tx_ok;
  d_bread_ok := tx_bread;
  d_data_ok := tx_data;
  d_setdata_ok := tx_setdata;
  d_log_write_ok := tx_log_write;
  d_brelse_ok := tx_brelse |}.

(** ** Beginning and ending an operation *)

Definition td_begin (a : txdisk) : txdisk :=
  TD (td_view a) ∅ ∅ ∅ (Z.to_nat MAXOPBLOCKS) (td_size a) (td_log a) (td_nlog a) 1.
Definition td_end (v : Z → block) (a : txdisk) : txdisk :=
  TD v ∅ ∅ ∅ 0 (td_size a) (td_log a) (td_nlog a) 0.

(** No operation runs, and nothing is left of the last one. *)
Record td_quiet (a : txdisk) : Prop := {
  tq_ops : td_ops a = 0%nat;
  tq_held : td_held a = ∅;
  tq_dirty : td_dirty a = ∅;
  tq_logged : td_logged a = ∅;
  tq_room : MAXOPBLOCKS < td_nlog a }.

(** An operation that begins when no other runs may log [MAXOPBLOCKS] blocks;
    ending it keeps the contents of every block outside the log. *)
Class TxOps (S : Type) `{!TxDisk S} := {
  d_begin : M S unit;
  d_end : M S unit;
  d_begin_ok : ∀ s a, d_ok s a → td_quiet a → ∃ s', d_begin s = Ret tt s' ∧ d_ok s' (td_begin a);
  d_end_ok : ∀ s a, d_ok s a → td_ops a = 1%nat → td_held a = ∅ → td_dirty a = ∅ →
    ∃ s' v, d_end s = Ret tt s' ∧ d_ok s' (td_end v a) ∧
      (∀ k, ¬ (td_log a <= k < td_log a + td_nlog a) → v k = td_view a k) ∧
      ((∀ k, length (td_view a k) = 512%nat) → ∀ k, length (v k) = 512%nat) }.

Section Ops_log.
Context {S : Type} `{!BlockCache S}.

Lemma tx_begin (s : lstate S) a :
  log_tx_ok s a → td_quiet a → ∃ s', begin_op s = Ret tt s' ∧ log_tx_ok s' (td_begin a).
Proof.
  intros (bs & c & T) [Ho Hh Hd Hl Hr]. destruct (tx_ops _ _ _ _ T) as [Hc Hout]. rewrite Ho in Hout.
  assert (bs = []) as ->.
  { rewrite (tx_logged _ _ _ _ T) in Hl. destruct bs as [|b bs]; [done|]. cbn in Hl. set_solver. }
  pose proof (tx_log _ _ _ _ T) as W. pose proof (wf_n _ _ _ W) as Hn. cbn in Hn, Hout.
  exists (LState false (set_outstanding 1 (lg s)) (cache s) (woken s)). split.
  - unfold begin_op, bind, acquire, release, gets, on_log, modify. cbn.
    rewrite (tx_lock _ _ _ _ T). cbn. rewrite Hc, Hn, Hout. done.
  - exists [], c. destruct (tx_area _ _ _ _ T) as [Ha1 Ha2]. pose proof (tx_max _ _ _ _ T) as Hmax.
    split; try apply T; try done; cbn.
    + split; apply W.
    + lia.
    + by rewrite <- (tx_held _ _ _ _ T), Hh.
    + unfold MAXOPBLOCKS in *. rewrite <- Ha2. split_and!; [unfold MAXTX, MAXHELD, NBUF; lia|unfold LOGSIZE, MAXOPBLOCKS; lia|lia].
    + lia.
    + rewrite <- (tx_held _ _ _ _ T), Hh. done.
Qed.

Lemma tx_end (s : lstate S) a :
  log_tx_ok s a → td_ops a = 1%nat → td_held a = ∅ → td_dirty a = ∅ →
  ∃ s' v, end_op s = Ret tt s' ∧ log_tx_ok s' (td_end v a) ∧
    (∀ k, ¬ (td_log a <= k < td_log a + td_nlog a) → v k = td_view a k) ∧
    ((∀ k, length (td_view a k) = 512%nat) → ∀ k, length (v k) = 512%nat).
Proof.
  intros (bs & c & T) Ho Hh Hd. destruct (tx_ops _ _ _ _ T) as [Hc Hout]. rewrite Ho in Hout.
  pose proof (tx_held _ _ _ _ T) as Hhc. rewrite Hh in Hhc. pose proof (tx_pinned _ _ _ _ T) as Hp.
  pose proof (tx_lock _ _ _ _ T) as Hlk. pose proof (tx_log _ _ _ _ T) as W.
  destruct (tx_area _ _ _ _ T) as [Ha1 Ha2]. pose proof (tx_max _ _ _ _ T) as Hmax.
  destruct s as [lk l d w]. cbn [log_lock lg cache] in *. subst lk.
  set (s1 := LState false (set_committing 1 (set_outstanding 0 l)) d w).
  assert (W1 : log_wf (lg s1) bs c) by (split; apply W).
  assert (Hb : ac_busy c = list_to_set bs).
  { unfold ac_busy. rewrite Hp, <- Hhc, map_img_empty_L. set_solver. }
  destruct (commit_done s1 bs c (tx_cache _ _ _ _ T) W1) as (d' & ws & E & H' & W' & Hv & Hk & Hlen).
  { intros i k Hi. by rewrite <- Hhc in Hi. }
  { rewrite Hb, (size_list_to_set (C := gset Z) bs (wf_nodup _ _ _ W)). pose proof (tx_fits _ _ _ _ T).
    unfold MAXTX, MAXHELD, NBUF in *. lia. }
  { by rewrite Hp. }
  exists (LState false (set_committing 0 (set_lh_n 0 (lg s1))) d' (w ++ [ChLog])), (ac_view (ac_writes ws c)).
  split_and!.
  - unfold end_op, bind, acquire, gets, on_log, modify, release. cbn -[commit].
    rewrite Hc, Hout. change (Z.of_nat 1 - 1) with 0. cbn -[commit]. fold s1. by rewrite E.
  - exists [], (ac_writes ws c). split; try done; cbn; try lia.
    + split; apply W'.
    + apply T.
    + intros b k Hbk. by rewrite <- Hhc in Hbk.
    + apply set_eq. intros k. split; [|set_solver]. intros [Hkp Hkw]%elem_of_difference.
      rewrite Hp in Hkp. apply elem_of_list_to_set in Hkp. destruct (Hk k Hkp) as [_ Hn].
      destruct Hn. cbn. apply elem_of_difference. split; [|done]. rewrite Hp. by apply elem_of_list_to_set.
    + intros b k Hbk. by rewrite <- Hhc in Hbk.
  - intros k Hnl. rewrite (tx_view _ _ _ _ T). apply Hv. unfold in_log. cbn. by rewrite <- Ha1, <- Ha2.
  - intros Hl k. apply Hlen. intros j. rewrite <- (tx_view _ _ _ _ T). apply Hl.
Qed.

End Ops_log.

#[export] Instance log_tx_ops S `{!BlockCache S} : TxOps (lstate S) := {|
  d_begin := begin_op;
  d_end := end_op;
  d_begin_ok := tx_begin;
  d_end_ok := tx_end |}.

(** A log with nothing logged and no buffer held, and [n] operations begun, is
    in such a state; its transaction may log [MAXOPBLOCKS] blocks when one has. *)
Lemma fresh_tx_ok {S} `{!BlockCache S} (s : lstate S) c n :
  c_ok (cache s) c → log_wf (lg s) [] c → log_lock s = false → outstanding (lg s) = Z.of_nat n →
  committing (lg s) = 0 → ac_held c = ∅ → ac_pinned c = ∅ → MAXOPBLOCKS < size (lg s) →
  d_ok s (TD (ac_view c) ∅ ∅ ∅ (if decide (n = 0%nat) then 0 else Z.to_nat MAXOPBLOCKS)%nat (ac_size c)
    (start (lg s)) (size (lg s)) n).
Proof.
  intros H W Hl Ho Hc Hh Hp Hs. exists [], c. unfold MAXOPBLOCKS in *.
  split; rewrite ?Hh, ?Hp; try done; cbn; case_decide; try lia.
  all: split_and!; [unfold MAXTX, MAXHELD, NBUF; lia|unfold LOGSIZE, MAXOPBLOCKS; lia|lia].
Qed.
