(* ===== verification/FsLayout.v ===== *)
(** * On-disk inodes, directory entries and the free map (xv6A1/fs.h)

    The C structures the file system keeps in its blocks, as records, with the
    reads and writes of their fields inside a block; the round trips; and the
    free map as a predicate on block numbers. *)

From S2P Require Import Prelude Memory BlockCache Layout.

Definition NDIRECT : Z := 12.
Definition NINDIRECT : Z := BSIZE / 4.
Definition MAXFILE : Z := NDIRECT + NINDIRECT.
Definition ROOTINO : Z := 1.
Definition T_DIR : Z := 1.
Definition T_FILE : Z := 2.
Definition T_DEV : Z := 3.
Definition DIRSIZ : Z := 14.

Definition s16 (x : Z) : Z := let y := u16 x in if y <? 2^15 then y else y - 2^16.

(** ** Inodes *)

Record dinode := DI {
  di_type : Z;
  di_major : Z;
  di_minor : Z;
  di_nlink : Z;
  di_size : Z;
  di_addrs : list Z }.

#[export] Instance dinode_eq_dec : EqDecision dinode.
Proof. solve_decision. Defined.

#[export] Instance dinode_inhabited : Inhabited dinode := populate (DI 0 0 0 0 0 (replicate 13 0)).

(** [sizeof(struct dinode)] is 64. *)
Definition IPB : Z := BSIZE / 64.
Definition IBLOCK (i : Z) (sb : superblock) : Z := u32 (i / IPB + sb_inodestart sb).
(** Byte offset, in its block, of the [dip] the code computes. *)
Definition dip_off (inum : Z) : Z := 64 * (inum mod IPB).

(** The fields of the structure at offset [o] of a block. *)
Definition get_dinode (d : block) (o : Z) : dinode :=
  DI (s16 (get16 d o)) (s16 (get16 d (o + 2))) (s16 (get16 d (o + 4))) (s16 (get16 d (o + 6)))
     (get32 d (o + 8)) (map (λ i, get32 d (o + 12 + 4 * Z.of_nat i)) (seq 0 13)).

Definition addrs_bytes (xs : list Z) : list Z := concat (map bytes32 xs).

(** The assignments of [iupdate], in their order. *)
Definition put_dinode (d : block) (o : Z) (di : dinode) : block :=
  let d := put16 d o (di_type di) in
  let d := put16 d (o + 2) (di_major di) in
  let d := put16 d (o + 4) (di_minor di) in
  let d := put16 d (o + 6) (di_nlink di) in
  let d := put32 d (o + 8) (di_size di) in
  splice d (o + 12) (addrs_bytes (di_addrs di)).

Definition is_s16 (x : Z) : Prop := -2^15 <= x < 2^15.

Record dinode_ok (di : dinode) : Prop := {
  di_ok_type : is_s16 (di_type di);
  di_ok_major : is_s16 (di_major di);
  di_ok_minor : is_s16 (di_minor di);
  di_ok_nlink : is_s16 (di_nlink di);
  di_ok_size : is_u32 (di_size di);
  di_ok_len : length (di_addrs di) = 13%nat;
  di_ok_addrs : Forall is_u32 (di_addrs di) }.

(** ** Directory entries *)

Record dirent := DE { de_inum : Z; de_name : list Z }.

Definition DESZ : Z := 16.

Definition get_dirent (bs : list Z) : dirent := DE (get16 bs 0) (slice bs 2 DIRSIZ).
Definition dirent_bytes (de : dirent) : list Z := bytes16 (de_inum de) ++ de_name de.

(** ** The free map *)

Definition BPB : Z := BSIZE * 8.
Definition BBLOCK (b : Z) (sb : superblock) : Z := u32 (b / BPB + sb_bmapstart sb).

(** Bit [bi] of a block of the free map. *)
Definition bm_get (d : block) (bi : Z) : bool :=
  negb (Z.land (gb d (bi / 8)) (Z.shiftl 1 (bi mod 8)) =? 0).
Definition bm_set (d : block) (bi : Z) : block :=
  splice d (bi / 8) [u8 (Z.lor (gb d (bi / 8)) (Z.shiftl 1 (bi mod 8)))].
Definition bm_clear (d : block) (bi : Z) : block :=
  splice d (bi / 8) [u8 (Z.land (gb d (bi / 8)) (Z.lnot (Z.shiftl 1 (bi mod 8))))].

(** ** Facts *)

Lemma s16_id x : is_s16 x → s16 (u16 x) = x.
Proof.
  unfold is_s16, s16, u16. intros H. rewrite Z.mod_mod by lia.
  destruct (decide (0 <= x)).
  - rewrite Z.mod_small by lia. zcases.
  - assert (E : x mod 2^16 = x + 2^16).
    { rewrite <- (Z.mod_add _ 1) by lia. apply Z.mod_small. lia. }
    rewrite E. zcases.
Qed.

Lemma splice_splice d o a b :
  0 <= o → o + Z.of_nat (length a) + Z.of_nat (length b) <= Z.of_nat (length d) →
  splice (splice d o a) (o + Z.of_nat (length a)) b = splice d o (a ++ b).
Proof.
  intros Ho Hl. apply list_eq. intros i. unfold splice. rewrite !list_lookup_imap.
  destruct (d !! i) as [x|]; [|done]. cbn. f_equal. rewrite length_app.
  unfold gb. zcases; rewrite !list_lookup_total_alt.
  - by rewrite lookup_app_l by lia.
  - rewrite lookup_app_r by lia. do 2 f_equal. lia.
Qed.

Lemma get32_splice_in d o bs k :
  0 <= o → 0 <= k → k + 4 <= Z.of_nat (length bs) →
  o + Z.of_nat (length bs) <= Z.of_nat (length d) →
  get32 (splice d o bs) (o + k) = get32 bs k.
Proof.
  intros. unfold get32. rewrite <- !(Z.add_assoc o k). by rewrite !gb_splice_in by lia.
Qed.

Lemma get16_splice_in d o bs k :
  0 <= o → 0 <= k → k + 2 <= Z.of_nat (length bs) →
  o + Z.of_nat (length bs) <= Z.of_nat (length d) →
  get16 (splice d o bs) (o + k) = get16 bs k.
Proof.
  intros. unfold get16. rewrite <- !(Z.add_assoc o k). by rewrite !gb_splice_in by lia.
Qed.

(** *** Inodes *)

Definition dinode_bytes (di : dinode) : list Z :=
  bytes16 (di_type di) ++ bytes16 (di_major di) ++ bytes16 (di_minor di) ++
  bytes16 (di_nlink di) ++ bytes32 (di_size di) ++ addrs_bytes (di_addrs di).

Lemma length_addrs_bytes xs : length (addrs_bytes xs) = (4 * length xs)%nat.
Proof.
  induction xs as [|x xs IH]; [done|]. unfold addrs_bytes in *. cbn [map concat].
  rewrite length_app, IH. cbn. lia.
Qed.

Lemma length_dinode_bytes di : length (di_addrs di) = 13%nat → length (dinode_bytes di) = 64%nat.
Proof. intros H. unfold dinode_bytes. rewrite !length_app, length_addrs_bytes, H. done. Qed.

(** The assignments of [iupdate] fill the whole structure. *)
Lemma put_dinode_splice d o di :
  0 <= o → o + 64 <= Z.of_nat (length d) → length (di_addrs di) = 13%nat →
  put_dinode d o di = splice d o (dinode_bytes di).
Proof.
  intros Ho Hl Ha. unfold put_dinode, put16, put32, dinode_bytes.
  assert (Hs : ∀ bs cs k, k = o + Z.of_nat (length bs) →
    o + Z.of_nat (length bs) + Z.of_nat (length cs) <= Z.of_nat (length d) →
    splice (splice d o bs) k cs = splice d o (bs ++ cs)).
  { intros bs cs k -> Hk. by apply splice_splice. }
  rewrite Hs, Hs, Hs, Hs, Hs; rewrite ?length_app, ?length_addrs_bytes, ?Ha; try (cbn; lia).
  by rewrite <- !(assoc_L (++)).
Qed.

Lemma length_put_dinode d o di : length (put_dinode d o di) = length d.
Proof. unfold put_dinode. by rewrite length_splice, length_put32, !length_put16. Qed.

Lemma get16_bytes16 x l : get16 (bytes16 x ++ l) 0 = u16 x.
Proof.
  change (byte_at x 0 + 2^8 * byte_at x 1 = u16 x). unfold byte_at, u16.
  change (2^(8*0)) with 1. change (2^(8*1)) with 256. rewrite Z.div_1_r.
  Z.div_mod_to_equations. lia.
Qed.

Lemma gb_skip l k o : 0 <= o → gb (l ++ k) (Z.of_nat (length l) + o) = gb k o.
Proof.
  intros. unfold gb. rewrite !list_lookup_total_alt, lookup_app_r by lia. zcases.
  do 2 f_equal. lia.
Qed.

Lemma get16_skip l k o : 0 <= o → get16 (l ++ k) (Z.of_nat (length l) + o) = get16 k o.
Proof. intros. unfold get16. rewrite <- !Z.add_assoc, !gb_skip by lia. done. Qed.

Lemma get32_skip l k o : 0 <= o → get32 (l ++ k) (Z.of_nat (length l) + o) = get32 k o.
Proof. intros. unfold get32. rewrite <- !(Z.add_assoc _ o), !gb_skip by lia. done. Qed.

Lemma get32_bytes32 x l : get32 (bytes32 x ++ l) 0 = u32 x.
Proof. rewrite <- bytes_of_word. done. Qed.

Lemma get16_at l x k o : Z.of_nat (length l) = o → get16 (l ++ bytes16 x ++ k) o = u16 x.
Proof.
  intros <-. rewrite <- (Z.add_0_r (Z.of_nat _)), get16_skip by done. apply get16_bytes16.
Qed.

Lemma get32_at l x k o : Z.of_nat (length l) = o → get32 (l ++ bytes32 x ++ k) o = u32 x.
Proof.
  intros <-. rewrite <- (Z.add_0_r (Z.of_nat _)), get32_skip by done. apply get32_bytes32.
Qed.

Lemma get32_addrs_bytes xs i :
  (i < length xs)%nat → get32 (addrs_bytes xs) (4 * Z.of_nat i) = u32 (xs !!! i).
Proof.
  revert i. induction xs as [|x xs IH]; intros i Hi; cbn in Hi; [lia|].
  unfold addrs_bytes in *. cbn [map concat]. destruct i as [|i]; [apply get32_bytes32|].
  replace (4 * Z.of_nat (S i)) with (Z.of_nat (length (bytes32 x)) + 4 * Z.of_nat i) by (cbn; lia).
  rewrite get32_skip by lia. apply IH. lia.
Qed.

Lemma dip_off_range inum : 0 <= dip_off inum ∧ dip_off inum + 64 <= 512.
Proof.
  unfold dip_off, IPB, BSIZE. change (512 / 64) with 8. pose proof (Z.mod_pos_bound inum 8). lia.
Qed.

(** What [iupdate] writes is what [ilock] reads back. *)
Lemma get_put_dinode d o di :
  dinode_ok di → 0 <= o → o + 64 <= Z.of_nat (length d) → get_dinode (put_dinode d o di) o = di.
Proof.
  intros W Ho Hl. pose proof (di_ok_len _ W) as Ha. rewrite put_dinode_splice by done.
  pose proof (length_dinode_bytes di Ha) as Hlen. unfold get_dinode.
  assert (H16 : ∀ k, 0 <= k <= 62 → get16 (splice d o (dinode_bytes di)) (o + k) =
    get16 (dinode_bytes di) k) by (intros; apply get16_splice_in; lia).
  assert (H32 : ∀ k, 0 <= k <= 60 → get32 (splice d o (dinode_bytes di)) (o + k) =
    get32 (dinode_bytes di) k) by (intros; apply get32_splice_in; lia).
  replace (get16 (splice d o (dinode_bytes di)) o) with (get16 (dinode_bytes di) 0)
    by (rewrite <- H16 by lia; by rewrite Z.add_0_r).
  rewrite !H16, H32 by lia.
  set (b1 := bytes16 (di_type di)). set (b2 := bytes16 (di_major di)).
  set (b3 := bytes16 (di_minor di)). set (b4 := bytes16 (di_nlink di)).
  assert (E1 : get16 (dinode_bytes di) 0 = u16 (di_type di)) by apply get16_bytes16.
  assert (E2 : get16 (dinode_bytes di) 2 = u16 (di_major di)) by exact (get16_at b1 _ _ 2 eq_refl).
  assert (E3 : get16 (dinode_bytes di) 4 = u16 (di_minor di)) by exact (get16_at (b1 ++ b2) _ _ 4 eq_refl).
  assert (E4 : get16 (dinode_bytes di) 6 = u16 (di_nlink di))
    by exact (get16_at (b1 ++ b2 ++ b3) _ _ 6 eq_refl).
  assert (E5 : get32 (dinode_bytes di) 8 = u32 (di_size di))
    by exact (get32_at (b1 ++ b2 ++ b3 ++ b4) _ _ 8 eq_refl).
  rewrite E1, E2, E3, E4, E5, !s16_id by apply W. rewrite u32_small by apply W.
  assert (E6 : map (λ i, get32 (splice d o (dinode_bytes di)) (o + 12 + 4 * Z.of_nat i)) (seq 0 13) =
    di_addrs di); [|by rewrite E6; destruct di].
  apply list_eq. intros i. rewrite list_lookup_fmap. destruct (di_addrs di !! i) as [x|] eqn:Hx.
  - pose proof (lookup_lt_Some _ _ _ Hx). rewrite lookup_seq_lt by lia. cbn [fmap option_fmap option_map].
    f_equal. rewrite <- Z.add_assoc, H32 by lia.
    transitivity (get32 (addrs_bytes (di_addrs di)) (4 * Z.of_nat i)).
    { exact (get32_skip (b1 ++ b2 ++ b3 ++ b4 ++ bytes32 (di_size di)) _ (4 * Z.of_nat i) ltac:(lia)). }
    rewrite get32_addrs_bytes by lia. rewrite (list_lookup_total_correct _ _ _ Hx).
    apply u32_small, (Forall_lookup_1 _ _ _ _ (di_ok_addrs _ W) Hx).
  - apply lookup_ge_None in Hx. by rewrite lookup_seq_ge by lia.
Qed.

(** Other structures of the block are not touched. *)
Lemma get_put_dinode_ne d o o' di :
  0 <= o → o + 64 <= Z.of_nat (length d) → length (di_addrs di) = 13%nat →
  o' + 64 <= o ∨ o + 64 <= o' → get_dinode (put_dinode d o di) o' = get_dinode d o'.
Proof.
  intros Ho Hl Ha Hd. rewrite put_dinode_splice by done.
  pose proof (length_dinode_bytes di Ha) as Hlen. unfold get_dinode.
  rewrite !get16_splice_out, get32_splice_out by lia. f_equal.
  apply map_ext_in. intros i Hi%in_seq. apply get32_splice_out. lia.
Qed.

(** *** Directory entries *)

Lemma length_dirent_bytes de : length (de_name de) = 14%nat → length (dirent_bytes de) = 16%nat.
Proof. intros H. unfold dirent_bytes. by rewrite length_app, H. Qed.

Lemma get_dirent_bytes de :
  0 <= de_inum de < 2^16 → length (de_name de) = 14%nat → get_dirent (dirent_bytes de) = de.
Proof.
  intros Hi Hn. unfold get_dirent, dirent_bytes. rewrite get16_bytes16.
  unfold u16. rewrite Z.mod_small by done. destruct de as [i n]. cbn [de_inum de_name] in *. f_equal.
  unfold slice. change (drop (Z.to_nat 2) (bytes16 i ++ n)) with n. by apply take_ge; rewrite Hn.
Qed.

(** *** The free map *)

Lemma land_bit x k : 0 <= k → negb (Z.land x (Z.shiftl 1 k) =? 0) = Z.testbit x k.
Proof.
  intros Hk. assert (Hb : ∀ j, 0 <= j → Z.testbit (Z.land x (Z.shiftl 1 k)) j =
    Z.testbit x j && (j =? k)).
  { intros j Hj. rewrite Z.land_spec, Z.shiftl_spec by done. f_equal.
    destruct (Z.eqb_spec j k) as [->|Hne]; [by rewrite Z.sub_diag|].
    destruct (decide (j < k)); [by rewrite Z.testbit_neg_r by lia|].
    apply Z.bits_above_log2; [lia|]. cbn. lia. }
  destruct (Z.eqb_spec (Z.land x (Z.shiftl 1 k)) 0) as [E|E]; cbn.
  - rewrite E in Hb. specialize (Hb k Hk). rewrite Z.bits_0, Z.eqb_refl in Hb.
    by destruct (Z.testbit x k).
  - destruct (Z.testbit x k) eqn:Ex; [done|]. destruct E. apply Z.bits_inj'. intros j Hj.
    rewrite Hb, Z.bits_0 by done. destruct (Z.eqb_spec j k) as [->|]; [by rewrite Ex|].
    apply andb_false_r.
Qed.

Lemma shiftl1_bit k j : 0 <= k → 0 <= j → Z.testbit (Z.shiftl 1 k) j = (j =? k).
Proof.
  intros Hk Hj. rewrite Z.shiftl_spec by done.
  destruct (Z.eqb_spec j k) as [->|Hne]; [by rewrite Z.sub_diag|].
  destruct (decide (j < k)); [by rewrite Z.testbit_neg_r by lia|].
  apply Z.bits_above_log2; [lia|]. cbn. lia.
Qed.

Lemma u8_bit x j : 0 <= j < 8 → Z.testbit (u8 x) j = Z.testbit x j.
Proof. intros. unfold u8. rewrite Z.mod_pow2_bits_low by lia. done. Qed.

Lemma bm_get_bit d bi : bm_get d bi = Z.testbit (gb d (bi / 8)) (bi mod 8).
Proof. apply land_bit. apply Z.mod_pos_bound. lia. Qed.

(** Changing one bit of the byte that has it, where [f] and [g] are the change
    on the byte and on the bit. *)
Lemma bm_change (f : Z → Z → Z) (g : bool) d bi bj :
  (∀ x k j, 0 <= k < 8 → 0 <= j < 8 →
    Z.testbit (f x k) j = if j =? k then g else Z.testbit x j) →
  length d = 512%nat → 0 <= bi < BPB → 0 <= bj < BPB →
  bm_get (splice d (bi / 8) [u8 (f (gb d (bi / 8)) (bi mod 8))]) bj =
    if bj =? bi then g else bm_get d bj.
Proof.
  intros Hf Hl Hi Hj. unfold BPB, BSIZE in *. rewrite !bm_get_bit.
  assert (0 <= bj / 8 < 512) by (Z.div_mod_to_equations; lia).
  pose proof (Z.mod_pos_bound bi 8 ltac:(lia)). pose proof (Z.mod_pos_bound bj 8 ltac:(lia)).
  pose proof (Z.div_mod bi 8 ltac:(lia)). pose proof (Z.div_mod bj 8 ltac:(lia)).
  rewrite gb_splice by lia. cbn [length].
  destruct (Z.eqb_spec (bj / 8) (bi / 8)) as [E|E].
  - rewrite E. replace (_ && _) with true by zcases. rewrite Z.sub_diag.
    change (gb [?x] 0) with x. rewrite u8_bit, Hf by done.
    zcases.
  - replace (_ && _) with false by zcases. zcases.
Qed.

Lemma bm_get_set d bi bj :
  length d = 512%nat → 0 <= bi < BPB → 0 <= bj < BPB →
  bm_get (bm_set d bi) bj = if bj =? bi then true else bm_get d bj.
Proof.
  apply (bm_change (λ x k, Z.lor x (Z.shiftl 1 k))). intros x k j Hk Hj.
  rewrite Z.lor_spec, shiftl1_bit by lia. destruct (j =? k); [apply orb_true_r|apply orb_false_r].
Qed.

Lemma bm_get_clear d bi bj :
  length d = 512%nat → 0 <= bi < BPB → 0 <= bj < BPB →
  bm_get (bm_clear d bi) bj = if bj =? bi then false else bm_get d bj.
Proof.
  apply (bm_change (λ x k, Z.land x (Z.lnot (Z.shiftl 1 k)))). intros x k j Hk Hj.
  rewrite Z.land_spec, Z.lnot_spec, shiftl1_bit by lia.
  destruct (j =? k); [apply andb_false_r|apply andb_true_r].
Qed.

Lemma length_bm_set d bi : length (bm_set d bi) = length d.
Proof. apply length_splice. Qed.

Lemma length_bm_clear d bi : length (bm_clear d bi) = length d.
Proof. apply length_splice. Qed.

#[export] Hint Rewrite length_put_dinode length_bm_set length_bm_clear : kernel.
