(* ===== verification/Fs.v ===== *)
(** * The file system (xv6A1/fs.c)

    The block allocator, the inode cache, inode contents, directories and path
    names, over any disk with transactions ([TxDisk]). An inode pointer is an
    index into the inode cache; a null pointer is [None] where the code tests
    for it. File data read into or written from memory is a list of bytes. The
    device switch table is a parameter. *)

From S2P Require Import Prelude Memory Spinlock BlockCache Layout TxDisk FsLayout.

Definition NINODE : nat := 50.
Definition NDEV : Z := 10.

(** ** State *)

(** [struct inode]: the fields from [type] on are the copy of the disk inode. *)
Record inode := INode {
  i_dev : Z;
  i_inum : Z;
  i_ref : Z;
  i_lock : sleeplock;
  i_valid : bool;
  i_di : dinode }.

#[export] Instance inode_inhabited : Inhabited inode :=
  populate (INode 0 0 0 initsleeplock false inhabitant).

Definition set_ref (v : Z) (ip : inode) : inode :=
  INode (i_dev ip) (i_inum ip) v (i_lock ip) (i_valid ip) (i_di ip).
Definition set_ilock (v : sleeplock) (ip : inode) : inode :=
  INode (i_dev ip) (i_inum ip) (i_ref ip) v (i_valid ip) (i_di ip).
Definition set_valid (v : bool) (ip : inode) : inode :=
  INode (i_dev ip) (i_inum ip) (i_ref ip) (i_lock ip) v (i_di ip).
Definition set_di (f : dinode → dinode) (ip : inode) : inode :=
  INode (i_dev ip) (i_inum ip) (i_ref ip) (i_lock ip) (i_valid ip) (f (i_di ip)).

Definition set_type (v : Z) (d : dinode) : dinode :=
  DI v (di_major d) (di_minor d) (di_nlink d) (di_size d) (di_addrs d).
Definition set_dev_nums (major minor : Z) (d : dinode) : dinode :=
  DI (di_type d) major minor (di_nlink d) (di_size d) (di_addrs d).
Definition set_nlink (v : Z) (d : dinode) : dinode :=
  DI (di_type d) (di_major d) (di_minor d) v (di_size d) (di_addrs d).
Definition set_size (v : Z) (d : dinode) : dinode :=
  DI (di_type d) (di_major d) (di_minor d) (di_nlink d) v (di_addrs d).
Definition set_addr (i : nat) (v : Z) (d : dinode) : dinode :=
  DI (di_type d) (di_major d) (di_minor d) (di_nlink d) (di_size d) (<[i := v]> (di_addrs d)).

(** The disk with its log, the super block, the inode cache with its lock, and
    the pid and current directory of the running process. *)
Record fstate (S : Type) := FState {
  disk : S;
  fs_sb : superblock;
  icache_lock : bool;
  icache : list inode;
  fs_pid : Z;
  fs_cwd : nat }.
Arguments FState {S} _ _ _ _ _ _.
Arguments disk {S} _.
Arguments fs_sb {S} _.
Arguments icache_lock {S} _.
Arguments icache {S} _.
Arguments fs_pid {S} _.
Arguments fs_cwd {S} _.

Inductive IcacheLock : Set := .

#[export] Instance icache_has_lock S : HasLock IcacheLock (fstate S).
Proof.
  refine {| lock_held := icache_lock;
            set_lock b s := FState (disk s) (fs_sb s) b (icache s) (fs_pid s) (fs_cwd s) |};
    by intros; destruct s.
Defined.

Definition set_disk {S} (d : S) (s : fstate S) : fstate S :=
  FState d (fs_sb s) (icache_lock s) (icache s) (fs_pid s) (fs_cwd s).
Definition set_sb {S} (sb : superblock) (s : fstate S) : fstate S :=
  FState (disk s) sb (icache_lock s) (icache s) (fs_pid s) (fs_cwd s).
Definition set_icache {S} (f : list inode → list inode) (s : fstate S) : fstate S :=
  FState (disk s) (fs_sb s) (icache_lock s) (f (icache s)) (fs_pid s) (fs_cwd s).

(** The functions of a device: they get the inode, and the number of bytes or
    the bytes. A missing function is a null pointer of the table. *)
Class Devsw (S : Type) := {
  dev_read : Z → option (nat → Z → M (fstate S) (Z * list Z));
  dev_write : Z → option (nat → list Z → Z → M (fstate S) Z) }.

(** ** Names *)

(** A C string is the list of its bytes; the byte after the last is its NUL. *)
Definition ch (s : list Z) : Z := match s with [] => 0 | c :: _ => c end.

(** [strncmp] of string.c on two strings, and [strncpy] into a buffer. *)
Fixpoint str_ncmp (n : nat) (p q : list Z) : Z :=
  match n with
  | O => 0
  | S n' =>
      if negb (ch p =? 0) && (ch p =? ch q) then str_ncmp n' (tail p) (tail q)
      else ch p - ch q
  end.

Fixpoint str_ncpy (n : nat) (t : list Z) : list Z :=
  match n with
  | O => []
  | S n' => if negb (ch t =? 0) then ch t :: str_ncpy n' (tail t) else replicate n 0
  end.

Definition namecmp (s t : list Z) : Z := str_ncmp (Z.to_nat DIRSIZ) s t.

Fixpoint skip_slashes (path : list Z) : list Z :=
  match path with
  | 47 :: path' => skip_slashes path'
  | _ => path
  end.

(** The path up to the next slash or NUL, and what follows. *)
Fixpoint take_elem (path : list Z) : list Z * list Z :=
  match path with
  | [] => ([], [])
  | c :: path' =>
      if (c =? 47) || (c =? 0) then ([], path)
      else let '(e, rest) := take_elem path' in (c :: e, rest)
  end.

(** [name] is the caller's buffer of [DIRSIZ] bytes. *)
Definition skipelem (path name : list Z) : option (list Z * list Z) :=
  let path := skip_slashes path in
  if ch path =? 0 then None else
  let '(s, path) := take_elem path in
  let len := Z.of_nat (length s) in
  let name :=
    if DIRSIZ <=? len then splice name 0 (take (Z.to_nat DIRSIZ) s)
    else splice (splice name 0 s) len [0] in
  Some (skip_slashes path, name).

Section Fs.
Context {S : Type} `{!TxDisk S} `{!Devsw S}.

Definition on_disk {A} (m : M S A) : M (fstate S) A := λ s,
  match m (disk s) with
  | Ret a d => Ret a (set_disk d s)
  | Panic e => Panic e
  | Sleep ch d => Sleep ch (set_disk d s)
  | Fault e => Fault e
  end.

Definition bread (dev bno : Z) : M (fstate S) nat := on_disk (d_bread dev bno).
Definition brelse (b : nat) : M (fstate S) unit := on_disk (d_brelse b).
Definition log_write (b : nat) : M (fstate S) unit := on_disk (d_log_write b).
Definition data (b : nat) : M (fstate S) block := gets (λ s, d_data b (disk s)).
Definition setdata (b : nat) (d : block) : M (fstate S) unit := on_disk (d_setdata b d).

(** ** Blocks *)

Definition readsb (dev : Z) : M (fstate S) superblock :=
  bp <- bread dev 1 ;;
  d <- data bp ;;
  brelse bp ;;;
  ret (get_sb d).

Definition bzero (dev bno : Z) : M (fstate S) unit :=
  bp <- bread dev bno ;;
  setdata bp (replicate (Z.to_nat BSIZE) 0) ;;;
  log_write bp ;;;
  brelse bp.

(** The inner loop of [balloc], over one block of the free map. *)
Fixpoint free_bit (d : block) (b size bi : Z) (n : nat) : option Z :=
  match n with
  | O => None
  | Datatypes.S n' =>
      if negb (b + bi <? size) then None
      else if negb (bm_get d bi) then Some bi
      else free_bit d b size (bi + 1) n'
  end.

Fixpoint balloc_loop (dev b : Z) (fuel : nat) : M (fstate S) Z :=
  match fuel with
  | O => fault "balloc: fuel"
  | Datatypes.S fuel' =>
      sb <- gets fs_sb ;;
      if negb (b <? sb_size sb) then panic "balloc: out of blocks" else
      bp <- bread dev (BBLOCK b sb) ;;
      d <- data bp ;;
      match free_bit d b (sb_size sb) 0 (Z.to_nat BPB) with
      | Some bi =>
          setdata bp (bm_set d bi) ;;;
          log_write bp ;;;
          brelse bp ;;;
          bzero dev (b + bi) ;;;
          ret (b + bi)
      | None => brelse bp ;;; balloc_loop dev (b + BPB) fuel'
      end
  end.

(** One turn of the outer loop per block of the free map, and the last test. *)
Definition balloc (dev : Z) : M (fstate S) Z :=
  sb <- gets fs_sb ;;
  balloc_loop dev 0 (Z.to_nat (sb_size sb / BPB + 2)).

Definition bfree (dev b : Z) : M (fstate S) unit :=
  sb <- readsb dev ;;
  modify (set_sb sb) ;;;
  bp <- bread dev (BBLOCK b sb) ;;
  let bi := b mod BPB in
  d <- data bp ;;
  if negb (bm_get d bi) then panic "freeing free block" else
  setdata bp (bm_clear d bi) ;;;
  log_write bp ;;;
  brelse bp.

(** ** The inode cache *)

Definition the (i : nat) : M (fstate S) inode := gets (λ s, icache s !!! i).
Definition upd (i : nat) (f : inode → inode) : M (fstate S) unit := modify (set_icache (alter f i)).

Definition iinit (dev : Z) : M (fstate S) unit :=
  modify (set_lock (T := IcacheLock) false) ;;;
  for_all (seq 0 NINODE) (λ i, upd i (set_ilock initsleeplock)) ;;;
  sb <- readsb dev ;;
  modify (set_sb sb).

(** The scan of [iget]: the entry of the inode, or the first empty one. *)
Fixpoint iget_scan (dev inum : Z) (ics : list inode) (i : nat) (empty : option nat) : nat + option nat :=
  match ics with
  | [] => inr empty
  | ip :: ics' =>
      if (0 <? i_ref ip) && (i_dev ip =? dev) && (i_inum ip =? inum) then inl i
      else
        let empty := match empty with
          | None => if i_ref ip =? 0 then Some i else None
          | Some e => Some e
          end in
        iget_scan dev inum ics' (Datatypes.S i) empty
  end.

Definition iget (dev inum : Z) : M (fstate S) nat :=
  acquire IcacheLock ;;;
  ics <- gets icache ;;
  match iget_scan dev inum ics 0 None with
  | inl i =>
      upd i (λ ip, set_ref (s32 (i_ref ip + 1)) ip) ;;;
      release IcacheLock ;;;
      ret i
  | inr None => panic "iget: no inodes"
  | inr (Some i) =>
      upd i (λ ip, INode dev inum 1 (i_lock ip) false (i_di ip)) ;;;
      release IcacheLock ;;;
      ret i
  end.

Definition idup (i : nat) : M (fstate S) nat :=
  acquire IcacheLock ;;;
  upd i (λ ip, set_ref (s32 (i_ref ip + 1)) ip) ;;;
  release IcacheLock ;;;
  ret i.

Definition ialloc_one (dev type inum : Z) : M (fstate S) (option nat) :=
  sb <- gets fs_sb ;;
  bp <- bread dev (IBLOCK inum sb) ;;
  d <- data bp ;;
  let o := dip_off inum in
  if di_type (get_dinode d o) =? 0 then
    setdata bp (put16 (splice d o (replicate 64 0)) o type) ;;;
    log_write bp ;;;
    brelse bp ;;;
    i <- iget dev inum ;;
    ret (Some i)
  else
    brelse bp ;;;
    ret None.

Definition ialloc (dev type : Z) : M (fstate S) nat :=
  sb <- gets fs_sb ;;
  r <- for_each (map Z.of_nat (seq 1 (Z.to_nat (sb_ninodes sb) - 1))) (ialloc_one dev type) ;;
  match r with
  | Some i => ret i
  | None => panic "ialloc: no inodes"
  end.

Definition iupdate (i : nat) : M (fstate S) unit :=
  ip <- the i ;;
  sb <- gets fs_sb ;;
  bp <- bread (i_dev ip) (IBLOCK (i_inum ip) sb) ;;
  d <- data bp ;;
  setdata bp (put_dinode d (dip_off (i_inum ip)) (i_di ip)) ;;;
  log_write bp ;;;
  brelse bp.

(** Take the sleep lock of inode [i], or sleep on it. *)
Definition lock_inode (i : nat) : M (fstate S) unit :=
  ip <- the i ;;
  pid <- gets fs_pid ;;
  match acquiresleep (ChLock i) pid (i_lock ip) with
  | Ret _ l => upd i (set_ilock l)
  | Sleep ch _ => sleep_on ch
  | Panic e => panic e
  | Fault e => fault e
  end.

Definition ilock (p : option nat) : M (fstate S) unit :=
  match p with
  | None => panic "ilock"
  | Some i =>
      ip <- the i ;;
      if i_ref ip <? 1 then panic "ilock" else
      lock_inode i ;;;
      ip <- the i ;;
      when negb (i_valid ip) do
        (sb <- gets fs_sb ;;
         bp <- bread (i_dev ip) (IBLOCK (i_inum ip) sb) ;;
         d <- data bp ;;
         upd i (set_di (λ _, get_dinode d (dip_off (i_inum ip)))) ;;;
         brelse bp ;;;
         upd i (set_valid true) ;;;
         ip <- the i ;;
         when di_type (i_di ip) =? 0 do panic "ilock: no type")
  end.

Definition iunlock (p : option nat) : M (fstate S) unit :=
  match p with
  | None => panic "iunlock"
  | Some i =>
      ip <- the i ;;
      pid <- gets fs_pid ;;
      if negb (holdingsleep pid (i_lock ip)) || (i_ref ip <? 1) then panic "iunlock" else
      upd i (λ ip, set_ilock (releasesleep (i_lock ip)) ip)
  end.

(** ** Inode contents *)

Definition addr (ip : inode) (n : Z) : Z := di_addrs (i_di ip) !!! Z.to_nat n.

(** [ip->addrs[n]], allocating the block when there is none. *)
Definition addr_alloc (i : nat) (n : Z) : M (fstate S) Z :=
  ip <- the i ;;
  if addr ip n =? 0 then
    a <- balloc (i_dev ip) ;;
    upd i (set_di (set_addr (Z.to_nat n) a)) ;;;
    ret a
  else ret (addr ip n).

Definition bmap (i : nat) (bn : Z) : M (fstate S) Z :=
  if bn <? NDIRECT then addr_alloc i bn else
  let bn := u32 (bn - NDIRECT) in
  if bn <? NINDIRECT then
    a <- addr_alloc i NDIRECT ;;
    ip <- the i ;;
    bp <- bread (i_dev ip) a ;;
    d <- data bp ;;
    a <- (if get32 d (4 * bn) =? 0 then
            a <- balloc (i_dev ip) ;;
            d <- data bp ;;
            setdata bp (put32 d (4 * bn) a) ;;;
            log_write bp ;;;
            ret a
          else ret (get32 d (4 * bn))) ;;
    brelse bp ;;;
    ret a
  else panic "bmap: out of range".

Definition itrunc (i : nat) : M (fstate S) unit :=
  for_all (seq 0 (Z.to_nat NDIRECT)) (λ n,
    ip <- the i ;;
    when negb (addr ip (Z.of_nat n) =? 0) do
      (bfree (i_dev ip) (addr ip (Z.of_nat n)) ;;;
       upd i (set_di (set_addr n 0)))) ;;;
  ip <- the i ;;
  (when negb (addr ip NDIRECT =? 0) do
     (bp <- bread (i_dev ip) (addr ip NDIRECT) ;;
      for_all (seq 0 (Z.to_nat NINDIRECT)) (λ j,
        d <- data bp ;;
        when negb (get32 d (4 * Z.of_nat j) =? 0) do bfree (i_dev ip) (get32 d (4 * Z.of_nat j))) ;;;
      brelse bp ;;;
      bfree (i_dev ip) (addr ip NDIRECT) ;;;
      upd i (set_di (set_addr (Z.to_nat NDIRECT) 0)))) ;;;
  upd i (set_di (set_size 0)) ;;;
  iupdate i.

Definition iput (i : nat) : M (fstate S) unit :=
  lock_inode i ;;;
  ip <- the i ;;
  (when i_valid ip && (di_nlink (i_di ip) =? 0) do
     (acquire IcacheLock ;;;
      ip <- the i ;;
      release IcacheLock ;;;
      when i_ref ip =? 1 do
        (itrunc i ;;;
         upd i (set_di (set_type 0)) ;;;
         iupdate i ;;;
         upd i (set_valid false)))) ;;;
  upd i (λ ip, set_ilock (releasesleep (i_lock ip)) ip) ;;;
  acquire IcacheLock ;;;
  upd i (λ ip, set_ref (s32 (i_ref ip - 1)) ip) ;;;
  release IcacheLock.

Definition iunlockput (i : nat) : M (fstate S) unit :=
  iunlock (Some i) ;;;
  iput i.

(** [struct stat]. *)
Record stat := Stat { st_type : Z; st_dev : Z; st_ino : Z; st_nlink : Z; st_size : Z }.

Definition stati (i : nat) : M (fstate S) stat :=
  ip <- the i ;;
  ret (Stat (di_type (i_di ip)) (s32 (i_dev ip)) (i_inum ip) (di_nlink (i_di ip)) (di_size (i_di ip))).

(** The loop of [readi] from file offset [off] with [left] bytes to go: each
    turn ends at a block boundary or at the end. *)
Fixpoint readi_loop (i : nat) (off left : Z) (fuel : nat) : M (fstate S) (list Z) :=
  if negb (0 <? left) then ret [] else
  match fuel with
  | O => fault "readi: fuel"
  | Datatypes.S fuel' =>
      ip <- the i ;;
      a <- bmap i (off / BSIZE) ;;
      bp <- bread (i_dev ip) a ;;
      let m := Z.min left (BSIZE - off mod BSIZE) in
      d <- data bp ;;
      brelse bp ;;;
      rest <- readi_loop i (u32 (off + m)) (left - m) fuel' ;;
      ret (slice d (off mod BSIZE) m ++ rest)
  end.

(** The turns of a transfer of [n] bytes. *)
Definition turns (n : Z) : nat := Z.to_nat (n / BSIZE + 2).

(** The value returned and the bytes stored at [dst]. *)
Definition readi (i : nat) (off n : Z) : M (fstate S) (Z * list Z) :=
  ip <- the i ;;
  if di_type (i_di ip) =? T_DEV then
    let major := di_major (i_di ip) in
    if (major <? 0) || (NDEV <=? major) then ret (-1, []) else
    match dev_read major with
    | None => ret (-1, [])
    | Some f => f i n
    end
  else
  let size := di_size (i_di ip) in
  if (size <? off) || (u32 (off + n) <? off) then ret (-1, []) else
  let n := if size <? u32 (off + n) then u32 (size - off) else n in
  bs <- readi_loop i off n (turns n) ;;
  ret (s32 n, bs).

Fixpoint writei_loop (i : nat) (src : list Z) (off left : Z) (fuel : nat) : M (fstate S) Z :=
  if negb (0 <? left) then ret off else
  match fuel with
  | O => fault "writei: fuel"
  | Datatypes.S fuel' =>
      ip <- the i ;;
      a <- bmap i (off / BSIZE) ;;
      bp <- bread (i_dev ip) a ;;
      let m := Z.min left (BSIZE - off mod BSIZE) in
      d <- data bp ;;
      setdata bp (splice d (off mod BSIZE) (take (Z.to_nat m) src)) ;;;
      log_write bp ;;;
      brelse bp ;;;
      writei_loop i (drop (Z.to_nat m) src) (u32 (off + m)) (left - m) fuel'
  end.

(** [src] has the [n] bytes to write. *)
Definition writei (i : nat) (src : list Z) (off n : Z) : M (fstate S) Z :=
  ip <- the i ;;
  if di_type (i_di ip) =? T_DEV then
    let major := di_major (i_di ip) in
    if (major <? 0) || (NDEV <=? major) then ret (-1) else
    match dev_write major with
    | None => ret (-1)
    | Some f => f i src n
    end
  else
  if (di_size (i_di ip) <? off) || (u32 (off + n) <? off) then ret (-1) else
  if MAXFILE * BSIZE <? u32 (off + n) then ret (-1) else
  off <- writei_loop i src off n (turns n) ;;
  ip <- the i ;;
  (when (0 <? n) && (di_size (i_di ip) <? off) do
     (upd i (set_di (set_size off)) ;;;
      iupdate i)) ;;;
  ret (s32 n).

(** ** Directories *)

(** The inode of the entry and its offset, when there is one. *)
Fixpoint dirlookup_loop (i : nat) (name : list Z) (off : Z) (fuel : nat) : M (fstate S) (option (nat * Z)) :=
  match fuel with
  | O => fault "dirlookup: fuel"
  | Datatypes.S fuel' =>
      dp <- the i ;;
      if negb (off <? di_size (i_di dp)) then ret None else
      p <- readi i off DESZ ;;
      let '(r, bs) := p in
      if negb (r =? DESZ) then panic "dirlookup read" else
      let de := get_dirent bs in
      if de_inum de =? 0 then dirlookup_loop i name (u32 (off + DESZ)) fuel' else
      if namecmp name (de_name de) =? 0 then
        ip <- iget (i_dev dp) (de_inum de) ;;
        ret (Some (ip, off))
      else dirlookup_loop i name (u32 (off + DESZ)) fuel'
  end.

(** The entries of a directory of [size] bytes, and the last test. *)
Definition entries (size : Z) : nat := Z.to_nat (size / DESZ + 2).

Definition dirlookup (i : nat) (name : list Z) : M (fstate S) (option (nat * Z)) :=
  dp <- the i ;;
  if negb (di_type (i_di dp) =? T_DIR) then panic "dirlookup not DIR" else
  dirlookup_loop i name 0 (entries (di_size (i_di dp))).

(** The second loop of [dirlink]: the offset of the first empty entry, or the
    end of the directory. *)
Fixpoint dirlink_loop (i : nat) (off : Z) (fuel : nat) : M (fstate S) Z :=
  match fuel with
  | O => fault "dirlink: fuel"
  | Datatypes.S fuel' =>
      dp <- the i ;;
      if negb (off <? di_size (i_di dp)) then ret off else
      p <- readi i off DESZ ;;
      let '(r, bs) := p in
      if negb (r =? DESZ) then panic "dirlink read" else
      if de_inum (get_dirent bs) =? 0 then ret off
      else dirlink_loop i (u32 (off + DESZ)) fuel'
  end.

Definition dirlink (i : nat) (name : list Z) (inum : Z) : M (fstate S) Z :=
  r <- dirlookup i name ;;
  match r with
  | Some (ip, _) => iput ip ;;; ret (-1)
  | None =>
      dp <- the i ;;
      off <- dirlink_loop i 0 (entries (di_size (i_di dp))) ;;
      let de := DE (u16 inum) (str_ncpy (Z.to_nat DIRSIZ) name) in
      r <- writei i (dirent_bytes de) off DESZ ;;
      if negb (r =? DESZ) then panic "dirlink" else ret 0
  end.

(** ** Paths *)

(** The loop of [namex] at inode [i]; every element shortens the path. *)
Fixpoint namex_loop (i : nat) (path : list Z) (parent : bool) (name : list Z) (fuel : nat)
    : M (fstate S) (option nat * list Z) :=
  match fuel with
  | O => fault "namex: fuel"
  | Datatypes.S fuel' =>
      match skipelem path name with
      | None =>
          if parent then iput i ;;; ret (None, name)
          else ret (Some i, name)
      | Some (path, name) =>
          ilock (Some i) ;;;
          ip <- the i ;;
          if negb (di_type (i_di ip) =? T_DIR) then iunlockput i ;;; ret (None, name) else
          if parent && (ch path =? 0) then iunlock (Some i) ;;; ret (Some i, name) else
          next <- dirlookup i name ;;
          match next with
          | None => iunlockput i ;;; ret (None, name)
          | Some (next, _) => iunlockput i ;;; namex_loop next path parent name fuel'
          end
      end
  end.

Definition namex (path : list Z) (parent : bool) (name : list Z) : M (fstate S) (option nat * list Z) :=
  i <- (if ch path =? 47 then iget ROOTDEV ROOTINO
        else cwd <- gets fs_cwd ;; idup cwd) ;;
  namex_loop i path parent name (length path + 1).

(** [name] of [namei] is not initialised. *)
Definition namei (path name : list Z) : M (fstate S) (option nat) :=
  p <- namex path false name ;;
  let '(ip, _) := p in
  ret ip.

Definition nameiparent (path name : list Z) : M (fstate S) (option nat * list Z) :=
  namex path true name.

End Fs.
