(* ===== verification/FsBlocks.v ===== *)
(** * The block allocator: [balloc] and [bfree]

    The geometry of the disk, the free map as a predicate, what the allocator
    does to them, and the relation between disk contents before and after an
    operation that the rest of the file system's specifications use. *)

From S2P Require Import Prelude Memory Spinlock BlockCache Layout TxDisk FsLayout Fs.

(** ** Running the monad *)

Lemma bind_run {S A B} (m : M S A) (k : A → M S B) s a s' :
  m s = Ret a s' → bind m k s = k a s'.
Proof. intros E. unfold bind. by rewrite E. Qed.

Lemma bind_gets {S A B} (f : S → A) (k : A → M S B) s : bind (gets f) k s = k (f s) s.
Proof. done. Qed.

Lemma bind_modify {S B} (f : S → S) (k : unit → M S B) s : bind (modify f) k s = k tt (f s).
Proof. done. Qed.

Lemma bind_ret {S A B} (a : A) (k : A → M S B) s : bind (ret a) k s = k a s.
Proof. done. Qed.

Lemma bind_assoc {S A B C} (m : M S A) (k : A → M S B) (h : B → M S C) s :
  bind (bind m k) h s = bind m (λ a, bind (k a) h) s.
Proof. unfold bind. by destruct (m s). Qed.

Create Rewrite HintDb fsrun.
#[export] Hint Rewrite @bind_gets @bind_modify @bind_ret @bind_assoc : fsrun.

(** [run E] takes the step whose outcome [E] gives; [runs] the pure ones. *)
Ltac runs := autorewrite with fsrun; cbv beta.
Ltac run E := runs; rewrite (bind_run _ _ _ _ _ E); cbv beta.

(** ** Geometry *)

(** First data block. *)
Definition dstart (sb : superblock) : Z := sb_bmapstart sb + sb_size sb / BPB + 1.

(** The blocks follow each other as mkfs lays them out: boot block, super
    block, log, inodes, free map, data. *)
Record geom (sb : superblock) (a : txdisk) : Prop := {
  g_log : td_log a = sb_logstart sb ∧ td_nlog a = sb_nlog sb;
  g_head : 2 <= sb_logstart sb;
  g_nlog : 0 <= sb_nlog sb;
  g_ino : sb_logstart sb + sb_nlog sb <= sb_inodestart sb;
  g_ninodes : 0 <= sb_ninodes sb;
  g_bmap : sb_inodestart sb + sb_ninodes sb / IPB + 1 <= sb_bmapstart sb;
  g_data : dstart sb <= sb_size sb;
  g_size : sb_size sb <= td_size a;
  g_max : sb_size sb < 2^31 }.

Definition used (sb : superblock) (v : Z → block) (b : Z) : bool :=
  bm_get (v (BBLOCK b sb)) (b mod BPB).

(** A data block. *)
Definition is_data (sb : superblock) (b : Z) : Prop := dstart sb <= b < sb_size sb.

(** Every block has its bytes, block 1 is the super block, and the blocks below
    the data are marked in use. *)
Record blocks_ok (sb : superblock) (v : Z → block) : Prop := {
  bo_len : ∀ k, length (v k) = 512%nat;
  bo_sb : get_sb (v 1) = sb;
  bo_meta : ∀ k, 0 <= k < dstart sb → used sb v k = true }.

(** The caller holds at most one buffer, of a data block in use, and has
    nothing to log. *)
Record idle (sb : superblock) (a : txdisk) : Prop := {
  id_held : (card (td_held a) <= MAXHELD)%nat;
  id_used : ∀ k, k ∈@{gset Z} map_img (td_held a) → is_data sb k ∧ used sb (td_view a) k = true;
  id_dirty : td_dirty a = ∅ }.

(** The blocks of the free map. *)
Definition bm_blocks (sb : superblock) : gset Z :=
  list_to_set (map (λ i, sb_bmapstart sb + Z.of_nat i) (seq 0 (Z.to_nat (sb_size sb / BPB + 1)))).

(** The transaction can take [n] more blocks besides those of the free map. *)
Definition budget (sb : superblock) (a : txdisk) (n : nat) : Prop :=
  (card (td_logged a ∪ bm_blocks sb) + n < td_cap a)%nat.

Section Geometry.
Context (sb : superblock) (a : txdisk) (G : geom sb a).

Lemma geom_nums : 0 <= sb_ninodes sb / IPB ∧ 0 <= sb_size sb / BPB ∧ 0 <= sb_size sb.
Proof.
  destruct G as [_ ? ? ? ? ? HD _ ?]. unfold dstart, IPB, BPB, BSIZE in *.
  change (512 * 8) with 4096 in *. change (512 / 64) with 8 in *. Z.div_mod_to_equations. lia.
Qed.

Lemma home_block k : k = 1 ∨ sb_inodestart sb <= k < sb_size sb → td_home a k.
Proof.
  destruct geom_nums as (H1 & H2 & H3). destruct G as [[L1 L2] ? ? ? ? ? HD ? ?].
  unfold dstart, td_home in *. rewrite L1, L2. lia.
Qed.

Lemma bblock_eq b : 0 <= b < sb_size sb →
  BBLOCK b sb = sb_bmapstart sb + b / BPB ∧ sb_bmapstart sb <= BBLOCK b sb < dstart sb.
Proof.
  intros Hb. destruct geom_nums as (H1 & H2 & H3). destruct G as [_ ? ? ? ? ? HD ? ?].
  assert (0 <= b / BPB <= sb_size sb / BPB).
  { unfold BPB, BSIZE. split; [apply Z.div_pos; lia|apply Z.div_le_mono; lia]. }
  unfold dstart, BBLOCK in *. rewrite u32_small by lia. lia.
Qed.

Lemma iblock_eq i : 0 <= i < sb_ninodes sb →
  IBLOCK i sb = sb_inodestart sb + i / IPB ∧ sb_inodestart sb <= IBLOCK i sb < sb_bmapstart sb.
Proof.
  intros Hb. destruct geom_nums as (H1 & H2 & H3). destruct G as [_ ? ? ? ? ? HD ? ?].
  assert (0 <= i / IPB <= sb_ninodes sb / IPB).
  { change IPB with 8. split; [apply Z.div_pos; lia|apply Z.div_le_mono; lia]. }
  unfold dstart, IBLOCK in *. rewrite u32_small by lia. lia.
Qed.

Lemma bblock_in b : 0 <= b < sb_size sb → BBLOCK b sb ∈ bm_blocks sb.
Proof.
  intros Hb. destruct (bblock_eq b Hb) as [-> _]. destruct geom_nums as (_ & H2 & _).
  apply elem_of_list_to_set, list_elem_of_fmap. exists (Z.to_nat (b / BPB)).
  assert (0 <= b / BPB <= sb_size sb / BPB).
  { unfold BPB, BSIZE. split; [apply Z.div_pos; lia|apply Z.div_le_mono; lia]. }
  split; [lia|]. apply elem_of_seq. lia.
Qed.

(** A block outside the data region, other than the log's, can be read. *)
Lemma free_meta k :
  idle sb a → k = 1 ∨ sb_inodestart sb <= k < dstart sb → td_free a k.
Proof.
  intros I Hk. destruct G as [_ ? ? ? ? ? HD ? ?]. split_and!; [| |apply I|].
  - apply home_block. lia.
  - intros Hin. apply (id_used _ _ I) in Hin as [[? ?] _]. destruct geom_nums as (? & ? & ?).
    unfold dstart in *. lia.
  - rewrite (id_dirty _ _ I). apply not_elem_of_empty.
Qed.

Lemma free_bm b : idle sb a → 0 <= b < sb_size sb → td_free a (BBLOCK b sb).
Proof.
  intros I Hb. destruct geom_nums as (? & ? & ?). destruct (bblock_eq b Hb) as [_ HB].
  apply free_meta; [done|]. destruct G. lia.
Qed.

Lemma free_ino i : idle sb a → 0 <= i < sb_ninodes sb → td_free a (IBLOCK i sb).
Proof.
  intros I Hi. destruct geom_nums as (? & ? & ?). destruct (iblock_eq i Hi) as [_ HB].
  apply free_meta; [done|]. destruct G. unfold dstart in *. lia.
Qed.

(** So can a data block that is not in use, or that the caller does not hold. *)
Lemma free_data k :
  idle sb a → is_data sb k → (k ∉@{gset Z} map_img (td_held a)) → td_free a k.
Proof.
  intros I Hk Hn. split_and!; [|done|apply I|].
  - apply home_block. right. destruct geom_nums as (? & ? & ?). destruct G as [_ ? ? ? ? ? HD ? ?].
    unfold is_data, dstart in *. lia.
  - rewrite (id_dirty _ _ I). apply not_elem_of_empty.
Qed.

Lemma free_unused k : idle sb a → is_data sb k → used sb (td_view a) k = false → td_free a k.
Proof.
  intros I Hk Hu. apply free_data; [done|done|]. intros Hin.
  apply (id_used _ _ I) in Hin as [_ Hu']. congruence.
Qed.

End Geometry.

(** ** Budgets *)

Lemma budget_le sb a n m : (m <= n)%nat → budget sb a n → budget sb a m.
Proof. unfold budget. lia. Qed.

Lemma budget_room sb a n : budget sb a n → (card (td_logged a) < td_cap a)%nat.
Proof.
  unfold budget. pose proof (subseteq_size (td_logged a) (td_logged a ∪ bm_blocks sb)
    ltac:(set_solver)). lia.
Qed.

(** Writing a block costs one, or nothing when it is already in the log. *)
Lemma budget_write sb a k d n : budget sb a (S n) → budget sb (td_write k d a) n.
Proof.
  unfold budget. cbn [td_logged td_write td_cap]. rewrite <- (assoc_L (∪)). intros H.
  rewrite (size_union_alt {[k]}), size_singleton.
  pose proof (subseteq_size ((td_logged a ∪ bm_blocks sb) ∖ {[k]}) (td_logged a ∪ bm_blocks sb)
    ltac:(set_solver)). lia.
Qed.

Lemma budget_write_in sb a k d n :
  k ∈ td_logged a ∪ bm_blocks sb → budget sb a n → budget sb (td_write k d a) n.
Proof.
  unfold budget. cbn [td_logged td_write td_cap]. intros Hk. rewrite <- (assoc_L (∪)).
  by rewrite (subseteq_union_1_L {[k]} (td_logged a ∪ bm_blocks sb)) by set_solver.
Qed.

Lemma geom_write sb a k d : geom sb a → geom sb (td_write k d a).
Proof. intros [? ? ? ? ? ? ? ? ?]. by split. Qed.
#[export] Hint Resolve geom_write : kernel.

(** ** The free map *)

(** The state after block [b] has been allocated and zeroed, and after it has
    been freed. *)
Definition zeros : block := replicate (Z.to_nat BSIZE) 0.
Definition alloc_td (sb : superblock) (b : Z) (a : txdisk) : txdisk :=
  td_write b zeros (td_write (BBLOCK b sb) (bm_set (td_view a (BBLOCK b sb)) (b mod BPB)) a).
Definition free_td (sb : superblock) (b : Z) (a : txdisk) : txdisk :=
  td_write (BBLOCK b sb) (bm_clear (td_view a (BBLOCK b sb)) (b mod BPB)) a.

Lemma mod_bpb b : 0 <= b mod BPB < BPB.
Proof. apply Z.mod_pos_bound. unfold BPB, BSIZE. lia. Qed.

(** Changing one bit of the map changes what it says of one block. *)
Lemma used_change sb a (f : block → Z → block) (g : bool) b k :
  geom sb a → blocks_ok sb (td_view a) → 0 <= b < sb_size sb → 0 <= k < sb_size sb →
  (∀ d bi bj, length d = 512%nat → 0 <= bi < BPB → 0 <= bj < BPB →
    bm_get (f d bi) bj = if bj =? bi then g else bm_get d bj) →
  used sb (put (td_view a) (BBLOCK b sb) (f (td_view a (BBLOCK b sb)) (b mod BPB))) k =
    if k =? b then g else used sb (td_view a) k.
Proof.
  intros G B Hb Hk Hf. unfold used.
  destruct (bblock_eq sb a G b Hb) as [Eb _]. destruct (bblock_eq sb a G k Hk) as [Ek _].
  pose proof (mod_bpb b). pose proof (mod_bpb k).
  assert (HB : BPB = 4096) by done.
  pose proof (Z.div_mod b BPB ltac:(lia)). pose proof (Z.div_mod k BPB ltac:(lia)).
  destruct (decide (BBLOCK k sb = BBLOCK b sb)) as [E|E].
  - rewrite E, put_eq, Hf by (done || apply B). rewrite Eb, Ek in E. zcases.
  - rewrite put_ne by done. zcases.
Qed.

Lemma used_free sb a b k :
  geom sb a → blocks_ok sb (td_view a) → 0 <= b < sb_size sb → 0 <= k < sb_size sb →
  used sb (td_view (free_td sb b a)) k = if k =? b then false else used sb (td_view a) k.
Proof. intros. by apply used_change; auto using bm_get_clear. Qed.

Lemma used_alloc sb a b k :
  geom sb a → blocks_ok sb (td_view a) → is_data sb b → 0 <= k < sb_size sb →
  used sb (td_view (alloc_td sb b a)) k = if k =? b then true else used sb (td_view a) k.
Proof.
  intros G B Hb Hk. destruct (geom_nums sb a G) as (? & ? & ?).
  assert (Hb' : 0 <= b < sb_size sb).
  { unfold is_data, dstart in Hb. destruct G. unfold dstart in *. lia. }
  rewrite <- (used_change sb a bm_set true b k) by (try done; apply bm_get_set).
  unfold used. cbn [td_view td_write alloc_td]. rewrite (put_ne _ b); [done|].
  destruct (bblock_eq sb a G k Hk) as [_ ?]. unfold is_data in Hb. lia.
Qed.

Lemma free_bit_some d b size n : ∀ bi j,
  free_bit d b size bi n = Some j →
  bi <= j < bi + Z.of_nat n ∧ b + j < size ∧ bm_get d j = false ∧
  (∀ k, bi <= k < j → bm_get d k = true).
Proof.
  induction n as [|n IH]; intros bi j; [done|]. cbn [free_bit].
  destruct (Z.ltb_spec (b + bi) size) as [Hl|]; [|done]. cbn [negb].
  destruct (bm_get d bi) eqn:E; cbn [negb].
  - intros (H1 & H2 & H3 & H4)%IH. split_and!; try done; [lia..|]. intros k Hk.
    destruct (decide (k = bi)) as [->|]; [done|]. apply H4. lia.
  - intros [= <-]. split_and!; try done; lia.
Qed.

Lemma free_bit_none d b size n : ∀ bi,
  free_bit d b size bi n = None →
  ∀ k, bi <= k < bi + Z.of_nat n → b + k < size → bm_get d k = true.
Proof.
  induction n as [|n IH]; intros bi E k Hk Hs; [lia|]. cbn [free_bit] in E.
  destruct (Z.ltb_spec (b + bi) size) as [Hl|]; [|lia]. cbn [negb] in E.
  destruct (bm_get d bi) eqn:Eb; [|done]. cbn [negb] in E.
  destruct (decide (k = bi)) as [->|]; [done|]. apply (IH (bi + 1)); [done|lia..].
Qed.

Lemma idle_write sb a k d :
  idle sb a → (∀ j, is_data sb j → used sb (td_view a) j = true →
    used sb (td_view (td_write k d a)) j = true) → idle sb (td_write k d a).
Proof.
  intros I Hu. split; [apply I| |]; cbn [td_held td_dirty td_write].
  - intros j Hj%(id_used _ _ I). destruct Hj as [? ?]. split; [done|]. by apply Hu.
  - rewrite (id_dirty _ _ I). set_solver.
Qed.

Section Specs.
Context {S : Type} `{!TxDisk S} `{!Devsw S}.

Lemma read_run (s : fstate S) a bno :
  d_ok (disk s) a → td_free a bno →
  ∃ b d1 d2, bread ROOTDEV bno s = Ret b (set_disk d1 s) ∧
    data b (set_disk d1 s) = Ret (td_view a bno) (set_disk d1 s) ∧
    (∀ s', disk s' = d1 → brelse b s' = Ret tt (set_disk d2 s')) ∧ d_ok d2 a.
Proof.
  intros H F. destruct (use_read _ _ _ H F) as (b & d1 & d2 & E1 & Ed & E2 & H2).
  exists b, d1, d2. unfold bread, data, brelse, on_disk, gets. rewrite E1. cbn. rewrite Ed.
  split_and!; try done. intros s' ->. by rewrite E2.
Qed.

Lemma write_run (s : fstate S) a bno d :
  d_ok (disk s) a → td_free a bno → (card (td_logged a) < td_cap a)%nat →
  ∃ b d1 d2 d3 d4, bread ROOTDEV bno s = Ret b (set_disk d1 s) ∧
    data b (set_disk d1 s) = Ret (td_view a bno) (set_disk d1 s) ∧
    setdata b d (set_disk d1 s) = Ret tt (set_disk d2 s) ∧
    log_write b (set_disk d2 s) = Ret tt (set_disk d3 s) ∧
    brelse b (set_disk d3 s) = Ret tt (set_disk d4 s) ∧
    d_ok d4 (td_write bno d a).
Proof.
  intros H F C.
  destruct (use_write _ _ _ d H F C) as (b & d1 & d2 & d3 & d4 & E1 & Ed & E2 & E3 & E4 & H4).
  exists b, d1, d2, d3, d4. unfold bread, data, brelse, setdata, log_write, on_disk, gets.
  rewrite E1. cbn. by rewrite Ed, E2, E3, E4.
Qed.

Lemma bzero_run (s : fstate S) a bno :
  d_ok (disk s) a → td_free a bno → (card (td_logged a) < td_cap a)%nat →
  ∃ d', bzero ROOTDEV bno s = Ret tt (set_disk d' s) ∧ d_ok d' (td_write bno zeros a).
Proof.
  intros H F C. destruct (write_run s a bno zeros H F C)
    as (b & d1 & d2 & d3 & d4 & E1 & _ & E2 & E3 & E4 & H4).
  exists d4. split; [|done]. unfold bzero. run E1. run E2. run E3. exact E4.
Qed.

Lemma readsb_run (s : fstate S) a sb :
  d_ok (disk s) a → geom sb a → idle sb a → blocks_ok sb (td_view a) →
  ∃ d', readsb ROOTDEV s = Ret sb (set_disk d' s) ∧ d_ok d' a.
Proof.
  intros H G I B. destruct (read_run s a 1 H) as (b & d1 & d2 & E1 & Ed & E2 & H2).
  { apply (free_meta _ _ G); auto. }
  exists d2. split; [|done]. unfold readsb. run E1. run Ed. run (E2 (set_disk d1 s) eq_refl).
  unfold ret. by rewrite (bo_sb _ _ B).
Qed.

(** Block [b + j] has bit [j] of the block of the map that starts at [b]. *)
Lemma bm_local sb v b j :
  b mod BPB = 0 → 0 <= j < BPB →
  used sb v (b + j) = bm_get (v (BBLOCK b sb)) j ∧ BBLOCK b sb = BBLOCK (b + j) sb ∧
  (b + j) mod BPB = j.
Proof.
  change BPB with 4096. intros Hmod Hj.
  assert (E1 : (b + j) mod 4096 = j) by (Z.div_mod_to_equations; lia).
  assert (E2 : (b + j) / 4096 = b / 4096) by (Z.div_mod_to_equations; lia).
  unfold used, BBLOCK. change BPB with 4096. by rewrite E1, E2.
Qed.

(** The first free block is found, marked and zeroed. *)
Definition allocated (sb : superblock) (a : txdisk) (b : Z) : Prop :=
  is_data sb b ∧ used sb (td_view a) b = false ∧ (∀ k, 0 <= k < b → used sb (td_view a) k = true).

Lemma alloc_here (s : fstate S) sb a b bi :
  d_ok (disk s) a → geom sb a → idle sb a → blocks_ok sb (td_view a) → budget sb a 1 →
  allocated sb a (b + bi) → BBLOCK b sb = BBLOCK (b + bi) sb → (b + bi) mod BPB = bi →
  ∃ bp d1 d2 d3 d4 d5, bread ROOTDEV (BBLOCK b sb) s = Ret bp (set_disk d1 s) ∧
    data bp (set_disk d1 s) = Ret (td_view a (BBLOCK b sb)) (set_disk d1 s) ∧
    setdata bp (bm_set (td_view a (BBLOCK b sb)) bi) (set_disk d1 s) = Ret tt (set_disk d2 s) ∧
    log_write bp (set_disk d2 s) = Ret tt (set_disk d3 s) ∧
    brelse bp (set_disk d3 s) = Ret tt (set_disk d4 s) ∧
    bzero ROOTDEV (b + bi) (set_disk d4 s) = Ret tt (set_disk d5 s) ∧
    d_ok d5 (alloc_td sb (b + bi) a).
Proof.
  intros H G I B Hbud (Hd & Hu & Hf) Eb Em. set (x := b + bi) in *.
  destruct (geom_nums sb a G) as (? & ? & ?).
  assert (Hx : 0 <= x < sb_size sb).
  { unfold is_data, dstart in Hd. destruct G. unfold dstart in *. lia. }
  pose proof (free_bm sb a G x I Hx) as FB.
  rewrite Eb. destruct (write_run s a _ (bm_set (td_view a (BBLOCK x sb)) bi) H FB)
    as (bp & d1 & d2 & d3 & d4 & E1 & Ed & E2 & E3 & E4 & H4); [by eapply budget_room|].
  set (a1 := td_write (BBLOCK x sb) (bm_set (td_view a (BBLOCK x sb)) bi) a) in *.
  destruct (bzero_run (set_disk d4 s) a1 x H4) as (d5 & E5 & H5).
  { apply td_free_write. by apply (free_unused _ _ G). }
  { apply (budget_room sb _ 0), budget_write, Hbud. }
  exists bp, d1, d2, d3, d4, d5. split_and!; try done.
  unfold alloc_td. rewrite Em. exact H5.
Qed.

Lemma balloc_loop_run (s : fstate S) sb a fuel : ∀ d b,
  d_ok d a → fs_sb s = sb → geom sb a → idle sb a → blocks_ok sb (td_view a) → budget sb a 1 →
  0 <= b → b mod BPB = 0 → (∀ k, 0 <= k < b → k < sb_size sb → used sb (td_view a) k = true) →
  (∃ k, 0 <= k < sb_size sb ∧ used sb (td_view a) k = false) →
  sb_size sb - b < Z.of_nat fuel * BPB →
  ∃ x d', balloc_loop ROOTDEV b fuel (set_disk d s) = Ret x (set_disk d' s) ∧
    allocated sb a x ∧ d_ok d' (alloc_td sb x a).
Proof.
  assert (HB : BPB = 4096) by done.
  induction fuel as [|fuel IH]; intros d b H Hsb G I B Hbud Hb Hmod Hall (k & Hk & Huk) Hfuel.
  { exfalso. rewrite Hall in Huk by lia. done. }
  assert (Hbs : b < sb_size sb).
  { destruct (decide (b <= k)); [lia|]. rewrite Hall in Huk by lia. done. }
  cbn [balloc_loop]. runs. cbn [fs_sb set_disk]. rewrite Hsb.
  destruct (Z.ltb_spec b (sb_size sb)); [|lia]. cbn [negb].
  assert (Hbit : ∀ j, 0 <= j < BPB → b + j < sb_size sb →
    used sb (td_view a) (b + j) = bm_get (td_view a (BBLOCK b sb)) j ∧
    BBLOCK b sb = BBLOCK (b + j) sb ∧ (b + j) mod BPB = j).
  { intros j Hj _. by apply bm_local. }
  destruct (free_bit (td_view a (BBLOCK b sb)) b (sb_size sb) 0 (Z.to_nat BPB)) as [bi|] eqn:Ef.
  - destruct (free_bit_some _ _ _ _ _ _ Ef) as (Hr & Hs & Hg & Hlow).
    destruct (Hbit bi ltac:(lia) Hs) as (Eu & EB & Em).
    assert (Hal : allocated sb a (b + bi)).
    { split_and!; [| congruence |].
      - split; [|lia]. apply Z.nlt_ge. intros Hlt. assert (used sb (td_view a) (b + bi) = true)
          by (apply (bo_meta _ _ B); lia). congruence.
      - intros j Hj. destruct (decide (j < b)); [by apply Hall; lia|].
        replace j with (b + (j - b)) by lia. rewrite (proj1 (Hbit (j - b) ltac:(lia) ltac:(lia))).
        apply Hlow. lia. }
    destruct (alloc_here (set_disk d s) sb a b bi H G I B Hbud Hal EB Em)
      as (bp & d1 & d2 & d3 & d4 & d5 & E1 & Ed & E2 & E3 & E4 & E5 & H5).
    exists (b + bi), d5. split; [|done].
    run E1. run Ed. rewrite Ef. run E2. run E3. run E4. run E5. done.
  - pose proof (free_bit_none _ _ _ _ _ Ef) as Hnone.
    destruct (read_run (set_disk d s) a (BBLOCK b sb) H) as (bp & d1 & d2 & E1 & Ed & E2 & H2).
    { by apply (free_bm _ _ G). }
    destruct (IH d2 (b + BPB) H2 Hsb G I B Hbud ltac:(lia)) as (x & d' & E & Hx & Hd').
    { rewrite HB in *. Z.div_mod_to_equations. lia. }
    { intros j Hj Hjs. destruct (decide (j < b)); [by apply Hall; lia|].
      replace j with (b + (j - b)) by lia. rewrite (proj1 (Hbit (j - b) ltac:(lia) ltac:(lia))).
      apply Hnone; lia. }
    { by exists k. }
    { lia. }
    exists x, d'. split; [|done]. run E1. run Ed. rewrite Ef.
    run (E2 (set_disk d1 (set_disk d s)) eq_refl). exact E.
Qed.

Lemma balloc_run (s : fstate S) sb a :
  d_ok (disk s) a → fs_sb s = sb → geom sb a → idle sb a → blocks_ok sb (td_view a) →
  budget sb a 1 → (∃ k, 0 <= k < sb_size sb ∧ used sb (td_view a) k = false) →
  ∃ x d', balloc ROOTDEV s = Ret x (set_disk d' s) ∧
    allocated sb a x ∧ d_ok d' (alloc_td sb x a).
Proof.
  intros H Hsb G I B Hbud Hex. unfold balloc. runs. rewrite Hsb.
  destruct (geom_nums _ _ G) as (_ & ? & ?).
  destruct (balloc_loop_run s sb a (Z.to_nat (sb_size sb / BPB + 2)) (disk s) 0)
    as (x & d' & E & Hx); try done; [lia| |].
  { change BPB with 4096 in *. Z.div_mod_to_equations. lia. }
  exists x, d'. split; [|done]. by destruct s.
Qed.

Lemma bfree_run (s : fstate S) sb a b :
  d_ok (disk s) a → geom sb a → idle sb a → blocks_ok sb (td_view a) → budget sb a 0 →
  0 <= b < sb_size sb → used sb (td_view a) b = true →
  ∃ d', bfree ROOTDEV b s = Ret tt (set_disk d' (set_sb sb s)) ∧ d_ok d' (free_td sb b a).
Proof.
  intros H G I B Hbud Hb Hu. destruct (readsb_run s a sb H G I B) as (d0 & E0 & H0).
  set (s0 := set_disk d0 (set_sb sb s)).
  destruct (write_run s0 a (BBLOCK b sb) (bm_clear (td_view a (BBLOCK b sb)) (b mod BPB)) H0)
    as (bp & d1 & d2 & d3 & d4 & E1 & Ed & E2 & E3 & E4 & H4).
  { by apply (free_bm _ _ G). }
  { by eapply budget_room. }
  exists d4. split; [|done]. unfold bfree. run E0. runs. run E1. run Ed.
  unfold used in Hu. rewrite Hu. cbn [negb]. run E2. run E3. exact E4.
Qed.

(** A full disk. *)
Lemma balloc_loop_full (s : fstate S) sb a fuel : ∀ d b,
  d_ok d a → fs_sb s = sb → geom sb a → idle sb a →
  0 <= b → b mod BPB = 0 → (∀ k, 0 <= k < sb_size sb → used sb (td_view a) k = true) →
  sb_size sb - b < (Z.of_nat fuel - 1) * BPB → (0 < fuel)%nat →
  balloc_loop ROOTDEV b fuel (set_disk d s) = Panic "balloc: out of blocks".
Proof.
  assert (HB : BPB = 4096) by done.
  induction fuel as [|fuel IH]; intros d b H Hsb G I Hb Hmod Hall Hfuel Hpos; [lia|].
  cbn [balloc_loop]. runs. cbn [fs_sb set_disk]. rewrite Hsb.
  destruct (Z.ltb_spec b (sb_size sb)); cbn [negb]; [|done].
  destruct (read_run (set_disk d s) a (BBLOCK b sb) H) as (bp & d1 & d2 & E1 & Ed & E2 & H2).
  { by apply (free_bm _ _ G). }
  run E1. run Ed.
  destruct (free_bit (td_view a (BBLOCK b sb)) b (sb_size sb) 0 (Z.to_nat BPB)) as [bi|] eqn:Ef.
  - destruct (free_bit_some _ _ _ _ _ _ Ef) as (Hr & Hs & Hg & _).
    destruct (bm_local sb (td_view a) b bi Hmod ltac:(lia)) as (Eu & _).
    rewrite Hall, Hg in Eu by lia. done.
  - run (E2 (set_disk d1 (set_disk d s)) eq_refl).
    apply (IH d2 (b + BPB)); try done; [lia| |lia|lia]. rewrite HB in *. Z.div_mod_to_equations. lia.
Qed.

Lemma bfree_free_run (s : fstate S) sb a b :
  d_ok (disk s) a → geom sb a → idle sb a → blocks_ok sb (td_view a) →
  0 <= b < sb_size sb → used sb (td_view a) b = false →
  bfree ROOTDEV b s = Panic "freeing free block".
Proof.
  intros H G I B Hb Hu. destruct (readsb_run s a sb H G I B) as (d0 & E0 & H0).
  destruct (read_run (set_disk d0 (set_sb sb s)) a (BBLOCK b sb) H0) as (bp & d1 & d2 & E1 & Ed & _).
  { by apply (free_bm _ _ G). }
  unfold bfree. run E0. runs. run E1. run Ed. unfold used in Hu. by rewrite Hu.
Qed.

End Specs.

(** ** How disk contents evolve

    [evolves sb K a a'] relates the disk before and after an operation that
    allocates blocks and writes blocks: metadata blocks outside the free map and
    data blocks in use change only if they are in [K], and no block is freed. *)

Record evolves (sb : superblock) (K : Z → Prop) (a a' : txdisk) : Prop := {
  ev_geom : geom sb a';
  ev_ok : blocks_ok sb (td_view a');
  ev_held : td_held a' = td_held a;
  ev_dirty : td_dirty a' = td_dirty a;
  ev_ops : td_ops a' = td_ops a;
  ev_same : ∀ k, k < sb_bmapstart sb ∨ sb_size sb <= k ∨ (is_data sb k ∧ used sb (td_view a) k = true) →
    ¬ K k → td_view a' k = td_view a k;
  ev_used : ∀ k, 0 <= k < sb_size sb → used sb (td_view a) k = true → used sb (td_view a') k = true }.

Lemma evolves_refl sb K a : geom sb a → blocks_ok sb (td_view a) → evolves sb K a a.
Proof. by split. Qed.

Lemma is_data_range sb a k : geom sb a → is_data sb k → 0 <= k < sb_size sb.
Proof.
  intros G Hk. destruct (geom_nums _ _ G) as (? & ? & ?). destruct G. unfold is_data, dstart in *. lia.
Qed.

(** The second operation may also change blocks that were free before the
    first. *)
Lemma evolves_trans sb (K K' : Z → Prop) a a' a'' :
  evolves sb K a a' → evolves sb K' a' a'' →
  (∀ k, K' k → K k ∨ is_data sb k ∧ used sb (td_view a) k = false) → evolves sb K a a''.
Proof.
  intros E E' HK. split; try apply E'.
  - by rewrite (ev_held _ _ _ _ E'), (ev_held _ _ _ _ E).
  - by rewrite (ev_dirty _ _ _ _ E'), (ev_dirty _ _ _ _ E).
  - by rewrite (ev_ops _ _ _ _ E'), (ev_ops _ _ _ _ E).
  - pose proof (ev_geom _ _ _ _ E) as G. intros k Hk HnK.
    rewrite <- (ev_same _ _ _ _ E k Hk HnK). apply (ev_same _ _ _ _ E').
    + destruct Hk as [?|[?|[Hd Hu]]]; [by left|by right; left|right; right].
      split; [done|]. apply (ev_used _ _ _ _ E); [by apply (is_data_range _ _ _ G)|done].
    + intros [?|[Hd Hu]]%HK; [done|]. destruct (geom_nums _ _ G) as (? & ? & ?).
      destruct Hk as [?|[?|[_ Hu']]]; [|by unfold is_data in Hd; lia|congruence].
      destruct G. unfold is_data, dstart in *. lia.
  - intros k Hk Hu. apply (ev_used _ _ _ _ E'); [done|]. by apply (ev_used _ _ _ _ E).
Qed.

Lemma evolves_weaken sb (K K' : Z → Prop) a a' :
  evolves sb K a a' → (∀ k, K k → K' k) → evolves sb K' a a'.
Proof.
  intros E HK. split; try apply E. intros k Hk Hn. apply (ev_same _ _ _ _ E); [done|]. by intros ?%HK.
Qed.

Lemma evolves_idle sb K a a' : geom sb a → evolves sb K a a' → idle sb a → idle sb a'.
Proof.
  intros G E I. split; rewrite ?(ev_held _ _ _ _ E), ?(ev_dirty _ _ _ _ E); try apply I.
  intros k [Hd Hu]%(id_used _ _ I). split; [done|].
  apply (ev_used _ _ _ _ E); [by apply (is_data_range _ _ _ G)|done].
Qed.

(** Writing one block that is not part of the free map or the super block. *)
Lemma evolves_write sb a k d :
  geom sb a → blocks_ok sb (td_view a) → td_dirty a = ∅ → length d = 512%nat →
  (sb_inodestart sb <= k < sb_bmapstart sb ∨ is_data sb k) →
  evolves sb (λ x, x = k) a (td_write k d a).
Proof.
  intros G B D Hl Hk. destruct (geom_nums _ _ G) as (? & ? & ?).
  assert (Hu : ∀ j, 0 <= j < sb_size sb → used sb (put (td_view a) k d) j = used sb (td_view a) j).
  { intros j Hj. unfold used. rewrite put_ne; [done|]. destruct (bblock_eq _ _ G j Hj) as [_ ?].
    unfold is_data in Hk. lia. }
  split; cbn [td_view td_held td_dirty td_write]; try done.
  - by apply geom_write.
  - split.
    + intros j. unfold put. destruct (j =? k); [done|apply B].
    + rewrite put_ne; [apply B|]. destruct G. unfold is_data, dstart in Hk. lia.
    + intros j Hj. rewrite Hu; [by apply B|]. destruct G. lia.
  - rewrite D. set_solver.
  - intros j _ Hj. by apply put_ne.
  - intros j Hj. by rewrite Hu.
Qed.

Lemma evolves_alloc sb a x :
  geom sb a → blocks_ok sb (td_view a) → td_dirty a = ∅ → is_data sb x →
  used sb (td_view a) x = false → evolves sb (λ _, False) a (alloc_td sb x a).
Proof.
  intros G B D Hx Hu. destruct (geom_nums _ _ G) as (? & ? & ?).
  pose proof (is_data_range _ _ _ G Hx) as Hr. destruct (bblock_eq _ _ G x Hr) as [_ HB].
  assert (Hd : ∀ j, 0 <= j < sb_size sb → used sb (td_view (alloc_td sb x a)) j =
    if j =? x then true else used sb (td_view a) j) by (intros; by apply used_alloc).
  split; try done.
  - by do 2 apply geom_write.
  - split.
    + intros j. cbn. unfold put. destruct (j =? x); [done|]. destruct (j =? _); [|apply B].
      rewrite length_bm_set. apply B.
    + cbn. rewrite !put_ne; [apply B| |]; destruct G; unfold is_data, dstart in *; lia.
    + intros j Hj. rewrite Hd by (destruct G; lia). destruct (j =? x); [done|]. by apply B.
  - cbn. rewrite D. set_solver.
  - intros j Hj _. cbn. rewrite !put_ne; [done| |].
    + destruct Hj as [?|[?|[? _]]]; destruct G; unfold is_data, dstart in *; lia.
    + intros ->. destruct Hj as [?|[?|[_ ?]]]; [|lia|congruence].
      destruct G; unfold is_data, dstart in *; lia.
  - intros j Hj. rewrite Hd by done. by destruct (j =? x).
Qed.

Section Claims.
Context {S : Type} `{!TxDisk S} `{!Devsw S}.

(** C9. [balloc] returns the first block the free map has free, never a
    metadata block; the block is zeroed and marked in use, the map says the
    same as before of every other block, and no other block outside the map
    changes. It costs the transaction at most one block besides the map's. *)
Theorem balloc_allocates (s : fstate S) a :
  d_ok (disk s) a → geom (fs_sb s) a → idle (fs_sb s) a → blocks_ok (fs_sb s) (td_view a) →
  budget (fs_sb s) a 1 → (∃ k, 0 <= k < sb_size (fs_sb s) ∧ used (fs_sb s) (td_view a) k = false) →
  ∃ x d' a', balloc ROOTDEV s = Ret x (set_disk d' s) ∧ d_ok d' a' ∧
    is_data (fs_sb s) x ∧ used (fs_sb s) (td_view a) x = false ∧
    (∀ k, 0 <= k < x → used (fs_sb s) (td_view a) k = true) ∧
    td_view a' x = replicate 512 0 ∧
    (∀ k, 0 <= k < sb_size (fs_sb s) →
      used (fs_sb s) (td_view a') k = (k =? x) || used (fs_sb s) (td_view a) k) ∧
    (∀ k, k ≠ x → (k ∉ bm_blocks (fs_sb s)) → td_view a' k = td_view a k) ∧
    td_logged a' ⊆ {[x]} ∪ bm_blocks (fs_sb s) ∪ td_logged a.
Proof.
  intros H G I B Hbud Hex.
  destruct (balloc_run s _ a H eq_refl G I B Hbud Hex) as (x & d' & E & (Hx & Hu & Hf) & H').
  exists x, d', (alloc_td (fs_sb s) x a). pose proof (is_data_range _ _ _ G Hx) as Hr.
  pose proof (bblock_in _ _ G x Hr) as Hin. split_and!; try done.
  - cbn. apply put_eq.
  - intros k Hk. rewrite used_alloc by done. by destruct (k =? x).
  - intros k Hk Hn. cbn. rewrite !put_ne; [done| |done]. by intros ->.
  - cbn. set_solver.
Qed.

(** [bfree] undoes [balloc]: freeing the block just allocated gives back
    the free map, with every other block as it was. *)
Theorem bfree_undoes_balloc (s : fstate S) a :
  d_ok (disk s) a → geom (fs_sb s) a → idle (fs_sb s) a → blocks_ok (fs_sb s) (td_view a) →
  budget (fs_sb s) a 1 → (∃ k, 0 <= k < sb_size (fs_sb s) ∧ used (fs_sb s) (td_view a) k = false) →
  ∃ x d' a', (x <- balloc ROOTDEV ;; bfree ROOTDEV x ;;; ret x) s = Ret x (set_disk d' s) ∧
    d_ok d' a' ∧
    (∀ k, 0 <= k < sb_size (fs_sb s) →
      used (fs_sb s) (td_view a') k = used (fs_sb s) (td_view a) k) ∧
    (∀ k, k ≠ x → (k ∉ bm_blocks (fs_sb s)) → td_view a' k = td_view a k).
Proof.
  intros H G I B Hbud Hex. set (sb := fs_sb s) in *.
  destruct (balloc_run s _ a H eq_refl G I B Hbud Hex) as (x & d' & E & (Hx & Hu & Hf) & H').
  fold sb in Hx, Hu, Hf, H'.
  pose proof (is_data_range _ _ _ G Hx) as Hr. pose proof (bblock_in _ _ G x Hr) as Hin.
  pose proof (evolves_alloc sb a x G B (id_dirty _ _ I) Hx Hu) as Ev.
  pose proof (ev_geom _ _ _ _ Ev) as G'. pose proof (ev_ok _ _ _ _ Ev) as B'.
  destruct (bfree_run (set_disk d' s) sb (alloc_td sb x a) x) as (d2 & E2 & H2); try done.
  { by apply (evolves_idle sb _ a _ G Ev). }
  { apply budget_write, budget_write_in; [set_solver|done]. }
  { rewrite used_alloc, Z.eqb_refl by done. done. }
  exists x, d2, (free_td sb x (alloc_td sb x a)). split_and!; [|done| |].
  - run E. run E2. unfold ret. by destruct s.
  - intros k Hk. rewrite used_free, used_alloc by done. destruct (Z.eqb_spec k x) as [->|]; [|done].
    by rewrite Hu.
  - intros k Hk Hn. assert (k ≠ BBLOCK x sb) by (by intros ->).
    cbn [free_td alloc_td td_view td_write]. by rewrite !put_ne.
Qed.

(** The allocator's error branches: with no free block [balloc] panics
    with its message, and freeing a block that is free panics. *)
Theorem allocator_panics (s : fstate S) a :
  d_ok (disk s) a → geom (fs_sb s) a → idle (fs_sb s) a → blocks_ok (fs_sb s) (td_view a) →
  ((∀ k, 0 <= k < sb_size (fs_sb s) → used (fs_sb s) (td_view a) k = true) →
    balloc ROOTDEV s = Panic "balloc: out of blocks") ∧
  (∀ b, 0 <= b < sb_size (fs_sb s) → used (fs_sb s) (td_view a) b = false →
    bfree ROOTDEV b s = Panic "freeing free block").
Proof.
  intros H G I B. split; [|by intros b; apply (bfree_free_run s _ a)].
  intros Hall. destruct (geom_nums _ _ G) as (_ & ? & ?).
  pose proof (balloc_loop_full s (fs_sb s) a (Z.to_nat (sb_size (fs_sb s) / BPB + 2)) (disk s) 0
    H eq_refl G I ltac:(lia) eq_refl Hall) as E.
  unfold balloc. runs. destruct s. apply E; [|lia].
  change BPB with 4096 in *. Z.div_mod_to_equations. lia.
Qed.

End Claims.
