(* ===== verification/FsMap.v ===== *)
(** * The blocks of a file: [bmap]

    The map from block indices of a file to disk blocks, through the direct
    addresses and the indirect block; its well-formedness; and that [bmap]
    extends it without touching anything else. *)

From S2P Require Import Prelude Memory Spinlock BlockCache Layout TxDisk FsLayout Fs FsBlocks.

(** Block [bn] of the file, or 0; index [MAXFILE] stands for the indirect block
    itself. *)
Definition iaddr (di : dinode) (n : Z) : Z := di_addrs di !!! Z.to_nat n.
Definition fblk (v : Z → block) (di : dinode) (bn : Z) : Z :=
  if bn <? NDIRECT then iaddr di bn
  else if bn =? MAXFILE then iaddr di NDIRECT
  else if iaddr di NDIRECT =? 0 then 0
  else get32 (v (iaddr di NDIRECT)) (4 * (bn - NDIRECT)).

(** The blocks of the file are data blocks in use, no two the same. *)
Record imap_ok (sb : superblock) (v : Z → block) (di : dinode) : Prop := {
  im_len : length (di_addrs di) = 13%nat;
  im_data : ∀ j, 0 <= j <= MAXFILE → fblk v di j ≠ 0 →
    is_data sb (fblk v di j) ∧ used sb v (fblk v di j) = true;
  im_inj : ∀ j k, 0 <= j <= MAXFILE → 0 <= k <= MAXFILE →
    fblk v di j = fblk v di k → fblk v di j ≠ 0 → j = k }.

(** A block of the file. *)
Definition is_blk (v : Z → block) (di : dinode) (b : Z) : Prop :=
  ∃ j, 0 <= j <= MAXFILE ∧ fblk v di j = b ∧ b ≠ 0.

(** ** The state with one inode's copy replaced *)

Section At.
Context {S : Type}.

Definition at_di (s : fstate S) (i : nat) (d : S) (di : dinode) : fstate S :=
  set_disk d (set_icache (alter (set_di (λ _, di)) i) s).

Lemma the_at `{!TxDisk S} (s : fstate S) i d di :
  (i < length (icache s))%nat →
  the i (at_di s i d di) = Ret (set_di (λ _, di) (icache s !!! i)) (at_di s i d di).
Proof.
  intros Hi. unfold the, gets, at_di. cbn. by rewrite list_lookup_total_alter_eq.
Qed.

Lemma upd_at `{!TxDisk S} (s : fstate S) i d di f :
  (i < length (icache s))%nat →
  upd i (set_di f) (at_di s i d di) = Ret tt (at_di s i d (f di)).
Proof.
  intros Hi. unfold upd, modify, at_di, set_icache, set_disk. cbn. do 2 f_equal.
  apply list_eq. intros j. destruct (decide (j = i)) as [->|].
  - rewrite !list_lookup_alter_eq. by destruct (icache s !! i).
  - by rewrite !list_lookup_alter_ne.
Qed.

Lemma at_di_at (s : fstate S) i d di d' di' :
  at_di (at_di s i d di) i d' di' = at_di s i d' di'.
Proof.
  destruct s as [d0 sb l ics p c]. unfold at_di, set_disk, set_icache. cbn. f_equal.
  apply list_eq. intros j. destruct (decide (j = i)) as [->|].
  - rewrite !list_lookup_alter_eq. by destruct (ics !! i).
  - by rewrite !list_lookup_alter_ne.
Qed.

Lemma at_di_id (s : fstate S) i :
  (i < length (icache s))%nat → at_di s i (disk s) (i_di (icache s !!! i)) = s.
Proof.
  intros Hi. destruct s as [d sb l ics p c]. unfold at_di, set_disk, set_icache. cbn in *. f_equal.
  apply list_eq. intros j. destruct (decide (j = i)) as [->|].
  - rewrite list_lookup_alter_eq. apply lookup_lt_is_Some in Hi as [ip Hip].
    rewrite Hip. cbn. rewrite (list_lookup_total_correct _ _ _ Hip). by destruct ip.
  - by rewrite list_lookup_alter_ne.
Qed.

End At.

(** ** What [bmap] does to the map *)

(** [v'], [di'] have block [b] at index [j], and otherwise the same blocks,
    except that the indirect block may have been added. *)
Record mapped (sb : superblock) (v : Z → block) (di : dinode) (v' : Z → block) (di' : dinode)
    (j b : Z) : Prop := {
  mp_ok : imap_ok sb v' di';
  mp_di : ∃ l, di' = DI (di_type di) (di_major di) (di_minor di) (di_nlink di) (di_size di) l;
  mp_blk : fblk v' di' j = b;
  mp_nz : b ≠ 0;
  mp_other : ∀ k, 0 <= k < MAXFILE → k ≠ j → fblk v' di' k = fblk v di k;
  mp_ind : iaddr di NDIRECT ≠ 0 → iaddr di' NDIRECT = iaddr di NDIRECT;
  mp_indnew : iaddr di NDIRECT = 0 → iaddr di' NDIRECT ≠ 0 → used sb v (iaddr di' NDIRECT) = false;
  mp_old : fblk v di j ≠ 0 → b = fblk v di j;
  mp_new : fblk v di j = 0 → v' b = zeros ∧ used sb v b = false }.

(** The index whose block is [ip->addrs[n]]. *)
Definition addr_idx (n : Z) : Z := if n =? NDIRECT then MAXFILE else n.

Lemma fblk_addr v di n : 0 <= n <= NDIRECT → fblk v di (addr_idx n) = iaddr di n.
Proof.
  intros Hn. unfold addr_idx, fblk. destruct (Z.eqb_spec n NDIRECT) as [->|].
  - done.
  - unfold NDIRECT in *. destruct (Z.ltb_spec n 12); [done|lia].
Qed.

Lemma iaddr_set_eq di n x :
  length (di_addrs di) = 13%nat → 0 <= n <= NDIRECT → iaddr (set_addr (Z.to_nat n) x di) n = x.
Proof.
  unfold iaddr, NDIRECT. intros Hl Hn. cbn. apply list_lookup_total_insert_eq. lia.
Qed.

Lemma iaddr_set_ne di n m x :
  0 <= n → 0 <= m → m ≠ n → iaddr (set_addr (Z.to_nat n) x di) m = iaddr di m.
Proof. unfold iaddr. intros. cbn. apply list_lookup_total_insert_ne. lia. Qed.

(** Storing a fresh, zeroed block in [addrs[n]]. *)
Lemma get32_zeros o : 0 <= o <= 508 → get32 zeros o = 0.
Proof.
  intros Ho. assert (Hg : ∀ k, 0 <= k < 512 → gb zeros k = 0).
  { intros k Hk. unfold gb, zeros. destruct (Z.ltb_spec k 0); [lia|].
    apply lookup_total_replicate_2. unfold BSIZE. lia. }
  unfold get32. by rewrite !Hg by lia.
Qed.

Lemma fblk_set_addr v v' di n x k :
  length (di_addrs di) = 13%nat → 0 <= n <= NDIRECT → iaddr di n = 0 → v' x = zeros →
  (iaddr di NDIRECT ≠ 0 → v' (iaddr di NDIRECT) = v (iaddr di NDIRECT)) →
  0 <= k <= MAXFILE →
  fblk v' (set_addr (Z.to_nat n) x di) k = if k =? addr_idx n then x else fblk v di k.
Proof.
  intros Hl Hn H0 Hx Hv Hk. destruct (Z.eqb_spec k (addr_idx n)) as [->|Hne].
  - rewrite fblk_addr by done. by apply iaddr_set_eq.
  - unfold addr_idx in Hne. unfold fblk. unfold MAXFILE, NINDIRECT, NDIRECT, BSIZE in *.
    change (512 / 4) with 128 in *. change (12 + 128) with 140 in *.
    destruct (Z.eqb_spec n 12) as [->|Hn12].
    + rewrite iaddr_set_eq by done. destruct (Z.ltb_spec k 12); [by apply iaddr_set_ne; lia|].
      destruct (Z.eqb_spec k 140); [done|]. rewrite H0, Hx, get32_zeros, Z.eqb_refl by lia. by destruct (x =? 0).
    + rewrite (iaddr_set_ne di n 12) by lia.
      destruct (Z.ltb_spec k 12); [by apply iaddr_set_ne; lia|].
      destruct (k =? 140); [done|]. destruct (Z.eqb_spec (iaddr di 12) 0); [done|]. by rewrite Hv.
Qed.

Lemma imap_ok_ext sb v di v' di' j x :
  imap_ok sb v di → length (di_addrs di') = 13%nat → 0 <= j <= MAXFILE →
  (∀ k, 0 <= k <= MAXFILE → fblk v' di' k = if k =? j then x else fblk v di k) →
  is_data sb x → used sb v x = false → used sb v' x = true →
  (∀ b, is_data sb b → used sb v b = true → used sb v' b = true) →
  imap_ok sb v' di'.
Proof.
  intros W Hl Hj Hf Hx Hu Hu' Hmono.
  assert (Hne : ∀ k, 0 <= k <= MAXFILE → fblk v di k ≠ 0 → fblk v di k ≠ x).
  { intros k Hk Hnz E. destruct (im_data _ _ _ W k Hk Hnz) as [_ Hus]. congruence. }
  split; [done| |].
  - intros k Hk. rewrite Hf by done. destruct (Z.eqb_spec k j) as [->|]; [done|].
    intros Hnz. destruct (im_data _ _ _ W k Hk Hnz). auto.
  - intros k m Hk Hm. rewrite !Hf by done.
    destruct (Z.eqb_spec k j) as [->|], (Z.eqb_spec m j) as [->|]; intros E Hnz; try done.
    + rewrite E in Hnz. by destruct (Hne m Hm Hnz).
    + by destruct (Hne k Hk Hnz).
    + by apply (im_inj _ _ _ W).
Qed.

(** ** What is left to allocate and to log *)

(** At least [n] blocks are free. *)
Definition avail (sb : superblock) (v : Z → block) (n : nat) : Prop :=
  ∃ X : gset Z, (n <= card X)%nat ∧ ∀ k, k ∈ X → 0 <= k < sb_size sb ∧ used sb v k = false.

Lemma avail_some sb v n : avail sb v (S n) → ∃ k, 0 <= k < sb_size sb ∧ used sb v k = false.
Proof.
  intros (X & HX & HF). destruct (set_choose_or_empty X) as [[k Hk]|E].
  - eauto.
  - rewrite E, size_empty in HX. lia.
Qed.

Lemma avail_alloc sb a x n :
  geom sb a → blocks_ok sb (td_view a) → is_data sb x →
  avail sb (td_view a) (S n) → avail sb (td_view (alloc_td sb x a)) n.
Proof.
  intros G B Hx (X & HX & HF). exists (X ∖ {[x]}). split.
  - pose proof (size_union_alt {[x]} X) as E. rewrite size_singleton in E.
    pose proof (subseteq_size X ({[x]} ∪ X) ltac:(set_solver)). lia.
  - intros k [Hk Hne]%elem_of_difference. rewrite elem_of_singleton in Hne.
    destruct (HF k Hk) as [Hr Hu]. split; [done|]. rewrite used_alloc by done.
    by destruct (Z.eqb_spec k x).
Qed.

(** Writing other blocks does not change it. *)
Lemma avail_ext sb v v' n :
  (∀ k, 0 <= k < sb_size sb → used sb v' k = used sb v k) → avail sb v n → avail sb v' n.
Proof.
  intros Hu (X & HX & HF). exists X. split; [done|]. intros k Hk. destruct (HF k Hk) as [Hr Hk'].
  split; [done|]. by rewrite Hu.
Qed.

(** The indirect block, when it is not there yet, and when it is not yet in the
    log. *)
Definition ineed (di : dinode) : nat := if iaddr di NDIRECT =? 0 then 1%nat else 0%nat.
Definition icost (a : txdisk) (di : dinode) : nat :=
  if negb (iaddr di NDIRECT =? 0) && bool_decide (iaddr di NDIRECT ∈ td_logged a) then 0%nat else 1%nat.

Lemma icost_mono a a' di di' :
  (iaddr di NDIRECT ≠ 0 → iaddr di' NDIRECT = iaddr di NDIRECT) → td_logged a ⊆ td_logged a' →
  (icost a' di' <= icost a di)%nat.
Proof.
  intros Hi Hl. unfold icost. destruct (Z.eqb_spec (iaddr di NDIRECT) 0) as [|Hn]; cbn [negb andb].
  { destruct (_ && _); lia. }
  rewrite Hi by done. destruct (Z.eqb_spec (iaddr di NDIRECT) 0); [done|]. cbn [negb andb].
  destruct (bool_decide_reflect (iaddr di NDIRECT ∈ td_logged a)); [|destruct (bool_decide _); lia].
  by rewrite bool_decide_eq_true_2 by set_solver.
Qed.

Lemma icost_paid a di :
  iaddr di NDIRECT ≠ 0 → iaddr di NDIRECT ∈ td_logged a → icost a di = 0%nat.
Proof.
  intros Hn Hin. unfold icost. destruct (Z.eqb_spec (iaddr di NDIRECT) 0); [done|].
  by rewrite bool_decide_eq_true_2.
Qed.

Section Pure.
Context (sb : superblock).

Lemma maxfile_pos : 0 <= MAXFILE <= MAXFILE ∧ MAXFILE = 140 ∧ NDIRECT = 12 ∧ NINDIRECT = 128.
Proof. done. Qed.

(** What storing a fresh block [x] at index [j] of the file does, when nothing
    else of the map changes. *)
Lemma alloc_mapped K a a' di di' j x l :
  geom sb a → evolves sb K a a' → imap_ok sb (td_view a) di →
  allocated sb a x → used sb (td_view a') x = true → td_view a' x = zeros →
  0 <= j <= MAXFILE → fblk (td_view a) di j = 0 →
  di' = DI (di_type di) (di_major di) (di_minor di) (di_nlink di) (di_size di) l → length l = 13%nat →
  (iaddr di NDIRECT ≠ 0 → iaddr di' NDIRECT = iaddr di NDIRECT) →
  (∀ k, 0 <= k <= MAXFILE → fblk (td_view a') di' k = if k =? j then x else fblk (td_view a) di k) →
  mapped sb (td_view a) di (td_view a') di' j x.
Proof.
  intros G Ev W (Hx & Hu & _) Hu' Hz Hj H0 Hdi Hl Hind Hf.
  split; try done.
  - apply (imap_ok_ext sb (td_view a) di _ _ j x); try done.
    + by subst di'.
    + intros b Hb Hub. apply (ev_used _ _ _ _ Ev); [by apply (is_data_range _ _ _ G)|done].
  - by exists l.
  - by rewrite Hf, Z.eqb_refl.
  - intros ->. destruct (geom_nums _ _ G) as (? & ? & ?). destruct G. unfold is_data, dstart in *. lia.
  - intros k Hk Hkj. rewrite Hf by lia. by destruct (Z.eqb_spec k j).
  - intros Hi0. pose proof (Hf MAXFILE ltac:(split; done)) as E.
    change (fblk (td_view a') di' MAXFILE) with (iaddr di' NDIRECT) in E.
    change (fblk (td_view a) di MAXFILE) with (iaddr di NDIRECT) in E. rewrite E.
    by destruct (MAXFILE =? j).
Qed.

Lemma mapped_data v di v' di' j x :
  mapped sb v di v' di' j x → 0 <= j <= MAXFILE → is_data sb x ∧ used sb v' x = true.
Proof.
  intros Mp Hj. pose proof (mp_nz _ _ _ _ _ _ _ Mp) as Hnz.
  rewrite <- (mp_blk _ _ _ _ _ _ _ Mp) in Hnz |- *. by apply (im_data _ _ _ (mp_ok _ _ _ _ _ _ _ Mp)).
Qed.

Lemma mapped_trans K a a1 di di1 v2 di2 bn x1 x :
  geom sb a → evolves sb K a a1 → 0 <= bn < MAXFILE →
  mapped sb (td_view a) di (td_view a1) di1 MAXFILE x1 →
  mapped sb (td_view a1) di1 v2 di2 bn x → mapped sb (td_view a) di v2 di2 bn x.
Proof.
  intros G Ev Hbn M1 M2.
  assert (Hsame : ∀ k, 0 <= k < MAXFILE → fblk (td_view a1) di1 k = fblk (td_view a) di k).
  { intros k Hk. apply (mp_other _ _ _ _ _ _ _ M1); [done|lia]. }
  split; [exact (mp_ok _ _ _ _ _ _ _ M2)| |exact (mp_blk _ _ _ _ _ _ _ M2)|exact (mp_nz _ _ _ _ _ _ _ M2)| | | | |].
  - destruct (mp_di _ _ _ _ _ _ _ M2) as [l2 ->]. destruct (mp_di _ _ _ _ _ _ _ M1) as [l1 ->]. by exists l2.
  - intros k Hk Hne. rewrite (mp_other _ _ _ _ _ _ _ M2) by done. by apply Hsame.
  - intros Hn. pose proof (mp_ind _ _ _ _ _ _ _ M1 Hn) as E1. rewrite (mp_ind _ _ _ _ _ _ _ M2); [done|congruence].
  - intros Hz Hn. assert (E : iaddr di2 NDIRECT = iaddr di1 NDIRECT).
    { apply (mp_ind _ _ _ _ _ _ _ M2). pose proof (mp_blk _ _ _ _ _ _ _ M1) as Eb.
      change (iaddr di1 NDIRECT = x1) in Eb. rewrite Eb. apply (mp_nz _ _ _ _ _ _ _ M1). }
    rewrite E in *. by apply (mp_indnew _ _ _ _ _ _ _ M1).
  - intros Hn. rewrite <- Hsame in Hn |- * by done. by apply (mp_old _ _ _ _ _ _ _ M2).
  - intros H0. rewrite <- Hsame in H0 by done. destruct (mp_new _ _ _ _ _ _ _ M2 H0) as [Hz Hu].
    split; [done|]. destruct (used sb (td_view a) x) eqn:E; [|done].
    rewrite (ev_used _ _ _ _ Ev) in Hu; [done| |done]. apply (is_data_range _ _ _ G).
    rewrite <- (mp_blk _ _ _ _ _ _ _ M2). apply (mp_ok _ _ _ _ _ _ _ M2); [lia|].
    rewrite (mp_blk _ _ _ _ _ _ _ M2). apply (mp_nz _ _ _ _ _ _ _ M2).
Qed.

(** What is left of the budget and of the free blocks after a block has been
    looked up. *)
Definition pays (a : txdisk) (di : dinode) (a' : txdisk) (di' : dinode) (x : Z) : Prop :=
  (∀ m, budget sb a (Datatypes.S m + icost a di) → budget sb a' (m + icost a' di') ∧
    (x ∈ td_logged a' ∨ budget sb a' (Datatypes.S m + icost a' di'))) ∧
  (∀ m, avail sb (td_view a) (Datatypes.S m + ineed di) → avail sb (td_view a') (m + ineed di')).

Lemma avail_le v n m : (m <= n)%nat → avail sb v n → avail sb v m.
Proof. intros Hm (X & HX & HF). exists X. split; [lia|done]. Qed.

Lemma pays_nothing a di x : pays a di a di x.
Proof.
  split; intros m Hm.
  - split; [eapply budget_le; [|done]; lia|by right].
  - eapply avail_le; [|done]. lia.
Qed.

Lemma ind_set_fblk a di x e bn k :
  iaddr di NDIRECT ≠ 0 → x ≠ iaddr di NDIRECT → 0 <= x < 2^32 →
  length (td_view a (iaddr di NDIRECT)) = 512%nat → NDIRECT <= bn < MAXFILE → 0 <= k <= MAXFILE →
  e = put32 (td_view a (iaddr di NDIRECT)) (4 * (bn - NDIRECT)) x →
  fblk (td_view (td_write (iaddr di NDIRECT) e (alloc_td sb x a))) di k =
    if k =? bn then x else fblk (td_view a) di k.
Proof.
  intros Hnz Hx Hxr Hl Hbn Hk ->. unfold fblk. cbn [td_view td_write].
  unfold MAXFILE, NINDIRECT, NDIRECT, BSIZE in *.
  change (512 / 4) with 128 in *. change (12 + 128) with 140 in *.
  destruct (Z.ltb_spec k 12); [by destruct (Z.eqb_spec k bn); [lia|]|].
  destruct (Z.eqb_spec k 140); [by destruct (Z.eqb_spec k bn); [lia|]|].
  destruct (Z.eqb_spec (iaddr di 12) 0); [done|]. rewrite put_eq.
  destruct (Z.eqb_spec k bn) as [->|].
  - rewrite get32_put32_eq by lia. by apply u32_small.
  - by rewrite get32_put32_ne by lia.
Qed.

Lemma ineed_mono di di' :
  (iaddr di NDIRECT ≠ 0 → iaddr di' NDIRECT = iaddr di NDIRECT) → (ineed di' <= ineed di)%nat.
Proof.
  intros H. unfold ineed. destruct (Z.eqb_spec (iaddr di NDIRECT) 0); [by destruct (_ =? _); lia|].
  rewrite H by done. by destruct (Z.eqb_spec (iaddr di NDIRECT) 0); [|lia].
Qed.

Lemma ineed_zero di : iaddr di NDIRECT ≠ 0 → ineed di = 0%nat.
Proof. intros H. unfold ineed. by destruct (Z.eqb_spec (iaddr di NDIRECT) 0). Qed.

(** Allocating a direct block, or the indirect block. *)
Lemma alloc_pays a di di' x :
  geom sb a → blocks_ok sb (td_view a) → is_data sb x →
  (iaddr di NDIRECT ≠ 0 → iaddr di' NDIRECT = iaddr di NDIRECT) →
  pays a di (alloc_td sb x a) di' x.
Proof.
  intros G B Hx Hia. assert (Hinx : BBLOCK x sb ∈ bm_blocks sb).
  { by apply (bblock_in _ _ G), (is_data_range _ _ _ G). }
  assert (Hsub : td_logged a ⊆ td_logged (alloc_td sb x a)) by (cbn; set_solver).
  split; intros m Hm.
  - split; [|left; cbn; set_solver]. eapply budget_le; [apply Nat.add_le_mono_l; by apply icost_mono|].
    apply budget_write, budget_write_in; [set_solver|done].
  - eapply avail_le; [apply Nat.add_le_mono_l; by apply (ineed_mono di)|]. by apply avail_alloc.
Qed.

(** The indirect block costs nothing more once it has been allocated. *)
Lemma alloc_ind_pays a di di' x m :
  geom sb a → blocks_ok sb (td_view a) → is_data sb x → iaddr di NDIRECT = 0 →
  iaddr di' NDIRECT = x → x ≠ 0 →
  (budget sb a (m + icost a di) → budget sb (alloc_td sb x a) (m + icost (alloc_td sb x a) di')) ∧
  (avail sb (td_view a) (m + ineed di) → avail sb (td_view (alloc_td sb x a)) (m + ineed di')).
Proof.
  intros G B Hx H0 Hia Hnz.
  assert (Hinx : BBLOCK x sb ∈ bm_blocks sb).
  { by apply (bblock_in _ _ G), (is_data_range _ _ _ G). }
  assert (C : icost (alloc_td sb x a) di' = 0%nat).
  { apply icost_paid; rewrite Hia; [done|]. cbn. set_solver. }
  assert (N : ineed di' = 0%nat).
  { unfold ineed. rewrite Hia. by destruct (Z.eqb_spec x 0). }
  rewrite C, N. unfold icost, ineed. rewrite H0. cbn. rewrite Nat.add_0_r, Nat.add_comm. cbn. split.
  - intros Hm. apply budget_write, budget_write_in; [set_solver|done].
  - intros Hm. by apply avail_alloc.
Qed.

(** Both outcomes of the lookup of the indirect block leave the same. *)
Lemma addr_ind_pays a di a1 di1 x m :
  geom sb a → blocks_ok sb (td_view a) →
  mapped sb (td_view a) di (td_view a1) di1 MAXFILE x →
  (iaddr di NDIRECT ≠ 0 ∧ a1 = a ∧ di1 = di) ∨ (iaddr di NDIRECT = 0 ∧ a1 = alloc_td sb x a) →
  (budget sb a (m + icost a di) → budget sb a1 (m + icost a1 di1)) ∧
  (avail sb (td_view a) (m + ineed di) → avail sb (td_view a1) (m + ineed di1)).
Proof.
  intros G B M1 [(_ & -> & ->)|[Hz ->]]; [done|].
  apply alloc_ind_pays; try done; [|exact (mp_blk _ _ _ _ _ _ _ M1)|apply M1].
  apply (mapped_data _ _ _ _ _ _ M1). apply maxfile_pos.
Qed.

End Pure.

(** ** The routines *)

Section Specs.
Context {S : Type} `{!TxDisk S} `{!Devsw S}.
Context (s : fstate S) (i : nat) (sb : superblock).
Context (Hi : (i < length (icache s))%nat) (Hdev : i_dev (icache s !!! i) = ROOTDEV).
Context (Hsb : fs_sb s = sb).

(** The disk in the state [d], with abstract state [a], and the map of the file. *)
Record map_ok (d : S) (a : txdisk) (di : dinode) : Prop := {
  mo_disk : d_ok d a;
  mo_geom : geom sb a;
  mo_idle : idle sb a;
  mo_blocks : blocks_ok sb (td_view a);
  mo_map : imap_ok sb (td_view a) di }.

Lemma map_ok_evolves d d' a a' di di' K :
  map_ok d a di → d_ok d' a' → evolves sb K a a' → imap_ok sb (td_view a') di' → map_ok d' a' di'.
Proof.
  intros [H G I B W] H' E W'. split; [done|apply E|by apply (evolves_idle sb K a)|apply E|done].
Qed.

Lemma addr_alloc_run d a di n :
  map_ok d a di → 0 <= n <= NDIRECT → budget sb a 1 → avail sb (td_view a) 1 →
  ∃ x d' a' di', addr_alloc i n (at_di s i d di) = Ret x (at_di s i d' di') ∧
    map_ok d' a' di' ∧ evolves sb (λ _, False) a a' ∧
    mapped sb (td_view a) di (td_view a') di' (addr_idx n) x ∧
    ((iaddr di n ≠ 0 ∧ a' = a ∧ di' = di) ∨ (iaddr di n = 0 ∧ a' = alloc_td sb x a)).
Proof.
  intros O Hn Hbud Hav. pose proof O as [H G I B W]. pose proof (im_len _ _ _ W) as Hl.
  assert (Hj : 0 <= addr_idx n <= MAXFILE).
  { unfold addr_idx, MAXFILE, NINDIRECT, NDIRECT, BSIZE in *. change (512 / 4) with 128.
    destruct (n =? 12); lia. }
  pose proof (fblk_addr (td_view a) di n Hn) as Ef.
  unfold addr_alloc. run (the_at s i d di Hi). change (addr (set_di (λ _, di) (icache s !!! i)) n) with (iaddr di n).
  destruct (Z.eqb_spec (iaddr di n) 0) as [E0|E0].
  - destruct (balloc_run (at_di s i d di) sb a H Hsb G I B Hbud (avail_some _ _ _ Hav))
      as (x & d' & E & Hal & H').
    pose proof Hal as (Hx & Hu & _).
    pose proof (evolves_alloc sb a x G B (id_dirty _ _ I) Hx Hu) as Ev.
    assert (M : mapped sb (td_view a) di (td_view (alloc_td sb x a)) (set_addr (Z.to_nat n) x di)
      (addr_idx n) x).
    { eapply alloc_mapped; try done.
      - by rewrite used_alloc, Z.eqb_refl by (done || by apply (is_data_range _ _ _ G)).
      - cbn. apply put_eq.
      - congruence.
      - cbn. by rewrite length_insert.
      - intros Hn0. apply iaddr_set_ne; unfold NDIRECT in *; [lia..|]. congruence.
      - intros k Hk. apply fblk_set_addr; try done; [cbn; apply put_eq|].
        intros Hnz. apply (ev_same _ _ _ _ Ev); [right; right|by intros []].
        change (iaddr di NDIRECT) with (fblk (td_view a) di MAXFILE) in *. apply W; [|done].
        unfold MAXFILE, NINDIRECT, NDIRECT, BSIZE. change (512 / 4) with 128. lia. }
    exists x, d', (alloc_td sb x a), (set_addr (Z.to_nat n) x di).
    split_and!; [|exact (map_ok_evolves _ _ _ _ _ _ _ O H' Ev (mp_ok _ _ _ _ _ _ _ M))|done|done|by right].
    cbn [i_dev set_di]. rewrite Hdev. run E.
    change (set_disk d' (at_di s i d di)) with (at_di s i d' di). run (upd_at s i d' di (set_addr (Z.to_nat n) x) Hi). done.
  - exists (iaddr di n), d, a, di. split_and!; [done|done|by apply evolves_refl| |by left].
    split; try done; [destruct di; by eexists|]. by rewrite Ef.
Qed.

(** The indirect block is held while the new block is allocated. *)
Lemma ind_alloc_run d a di bn :
  map_ok d a di → td_held a = ∅ → NDIRECT <= bn < MAXFILE → iaddr di NDIRECT ≠ 0 →
  fblk (td_view a) di bn = 0 → budget sb a (1 + icost a di) → avail sb (td_view a) 1 →
  let ib := iaddr di NDIRECT in
  ∃ bp x d1 d2 d3 d4 d5, bread ROOTDEV ib (at_di s i d di) = Ret bp (at_di s i d1 di) ∧
    data bp (at_di s i d1 di) = Ret (td_view a ib) (at_di s i d1 di) ∧
    balloc ROOTDEV (at_di s i d1 di) = Ret x (at_di s i d2 di) ∧
    data bp (at_di s i d2 di) = Ret (td_view a ib) (at_di s i d2 di) ∧
    setdata bp (put32 (td_view a ib) (4 * (bn - NDIRECT)) x) (at_di s i d2 di) = Ret tt (at_di s i d3 di) ∧
    log_write bp (at_di s i d3 di) = Ret tt (at_di s i d4 di) ∧
    brelse bp (at_di s i d4 di) = Ret tt (at_di s i d5 di) ∧ allocated sb a x ∧
    d_ok d5 (td_write ib (put32 (td_view a ib) (4 * (bn - NDIRECT)) x) (alloc_td sb x a)).
Proof.
  intros O Hh Hbn Hnz H0 Hbud Hav ib. pose proof O as [H G I B W].
  assert (Hib : is_data sb ib ∧ used sb (td_view a) ib = true).
  { change ib with (fblk (td_view a) di MAXFILE). apply W; [|done].
    unfold MAXFILE, NINDIRECT, NDIRECT, BSIZE. change (512 / 4) with 128. lia. }
  destruct (d_bread_ok d a ib H) as (bp & d1 & E1 & Hbp & H1).
  { apply (free_data sb a G ib I (proj1 Hib)). by rewrite Hh, map_img_empty_L. }
  { by rewrite Hh, map_img_empty_L. }
  { rewrite Hh, map_size_empty. unfold MAXHELD. lia. }
  set (a1 := td_hold bp ib a) in *.
  assert (I1 : idle sb a1).
  { split; cbn [td_held td_hold a1 td_view td_dirty].
    - rewrite Hh, insert_empty, map_size_singleton. done.
    - intros k. rewrite Hh, insert_empty, map_img_singleton_L, elem_of_singleton. by intros ->.
    - apply I. }
  assert (Hb1 : td_held a1 !! bp = Some ib) by apply lookup_insert_eq.
  pose proof (d_data_ok _ _ _ _ H1 Hb1) as D1.
  assert (G1 : geom sb a1) by (destruct G; by split).
  assert (Hbud1 : budget sb a 1) by (eapply budget_le; [|done]; lia).
  destruct (balloc_run (at_di s i d1 di) sb a1 H1 Hsb G1 I1 B Hbud1 (avail_some _ _ _ Hav))
    as (x & d2 & E2 & Hal & H2).
  pose proof Hal as (Hx & Hu & _).
  pose proof (evolves_alloc sb a1 x G1 B (id_dirty _ _ I1) Hx Hu) as Ev.
  pose proof (d_data_ok _ _ _ _ H2 Hb1) as D2.
  rewrite (ev_same _ _ _ _ Ev ib) in D2; [|by right; right|by intros []].
  destruct (use_put d2 (alloc_td sb x a1) bp ib (put32 (td_view a ib) (4 * (bn - NDIRECT)) x) H2 Hb1)
    as (d3 & d4 & d5 & E3 & E4 & E5 & H5).
  { apply (budget_room sb _ 0). apply budget_write, budget_write_in; [|done].
    apply elem_of_union_r, (bblock_in _ _ G), (is_data_range _ _ _ G Hx). }
  exists bp, x, d1, d2, d3, d4, d5.
  unfold bread, data, setdata, log_write, brelse, on_disk, gets. cbn [disk at_di set_disk].
  rewrite E1, D1, D2, E3, E4, E5. split_and!; try done.
  unfold td_drop, td_write, alloc_td, td_write, a1, td_hold in H5 |- *. cbn in H5 |- *.
  by rewrite delete_insert_id in H5.
Qed.

Lemma ind_alloc_post d d' a di bn x e :
  map_ok d a di → NDIRECT <= bn < MAXFILE → iaddr di NDIRECT ≠ 0 →
  fblk (td_view a) di bn = 0 → allocated sb a x →
  e = put32 (td_view a (iaddr di NDIRECT)) (4 * (bn - NDIRECT)) x →
  let a' := td_write (iaddr di NDIRECT) e (alloc_td sb x a) in
  d_ok d' a' →
  map_ok d' a' di ∧ evolves sb (λ k, k = iaddr di NDIRECT) a a' ∧
  mapped sb (td_view a) di (td_view a') di bn x ∧ pays sb a di a' di x.
Proof.
  intros O Hbn Hnz H0 Hal He a' H'. pose proof O as [H G I B W]. pose proof Hal as (Hx & Hu & _).
  set (ib := iaddr di NDIRECT) in *.
  assert (Hib : is_data sb ib ∧ used sb (td_view a) ib = true).
  { change ib with (fblk (td_view a) di MAXFILE). apply W; [|done].
    unfold MAXFILE, NINDIRECT, NDIRECT, BSIZE. change (512 / 4) with 128. lia. }
  assert (Hxi : x ≠ ib) by (intros ->; destruct Hib; congruence).
  pose proof (evolves_alloc sb a x G B (id_dirty _ _ I) Hx Hu) as Ev1.
  pose proof (is_data_range _ _ _ G Hx) as Hxr. pose proof (g_max _ _ G).
  assert (Ev : evolves sb (λ k, k = ib) a a').
  { eapply evolves_trans; [exact (evolves_weaken _ _ _ _ _ Ev1 ltac:(by intros k []))| |].
    - apply (evolves_write sb (alloc_td sb x a) ib e); [apply Ev1..| | |by right; apply Hib].
      + rewrite (ev_dirty _ _ _ _ Ev1). apply I.
      + subst e. rewrite length_put32. apply B.
    - intros k Hk. by left. }
  assert (M : mapped sb (td_view a) di (td_view a') di bn x).
  { apply (alloc_mapped sb _ a a' di di bn x (di_addrs di) G Ev); try done.
    - unfold used. cbn [a' td_view td_write]. destruct (bblock_eq _ _ G x Hxr) as [_ ?].
      rewrite put_ne by (destruct Hib as [[? _] _]; lia).
      assert (Hua : used sb (td_view (alloc_td sb x a)) x = true) by (by rewrite used_alloc, Z.eqb_refl).
      exact Hua.
    - cbn [a' td_view td_write alloc_td]. rewrite put_ne by done. apply put_eq.
    - unfold NDIRECT in *. lia.
    - by destruct di.
    - apply W.
    - intros k Hk. apply ind_set_fblk; try done; [lia|apply B]. }
  split_and!; [exact (map_ok_evolves _ _ _ _ _ _ _ O H' Ev (mp_ok _ _ _ _ _ _ _ M))|done|done|].
  assert (Hc : icost a' di = 0%nat) by (apply icost_paid; [done|]; cbn; set_solver).
  assert (Hinx : BBLOCK x sb ∈ bm_blocks sb) by (by apply (bblock_in _ _ G)).
  split; intros m Hm; rewrite ?Hc, ?Nat.add_0_r.
  - assert (Hm' : budget sb (alloc_td sb x a) (m + icost a di)).
    { apply budget_write, budget_write_in; [set_solver|done]. }
    split; [|left; cbn; set_solver]. unfold icost in Hm'. fold ib in Hm'.
    destruct (Z.eqb_spec ib 0); [done|]. cbn [negb andb] in Hm'. case_bool_decide.
    + apply budget_write_in; [cbn; set_solver|]. by rewrite Nat.add_0_r in Hm'.
    + apply budget_write. by rewrite Nat.add_comm in Hm'.
  - apply (avail_ext sb (td_view (alloc_td sb x a))).
    + intros k Hk. unfold used. cbn [a' td_view td_write]. destruct (bblock_eq _ _ G k Hk) as [_ ?].
      by rewrite (put_ne _ ib) by (destruct Hib as [[? _] _]; lia).
    + by apply avail_alloc.
Qed.

(** The tail of [bmap], once the indirect block is there. *)
Definition bmap_ind (bn ib : Z) : M (fstate S) Z :=
  ip <- the i ;;
  bp <- bread (i_dev ip) ib ;;
  d <- data bp ;;
  a <- (if get32 d (4 * bn) =? 0 then
          a <- balloc (i_dev ip) ;;
          d <- data bp ;;
          setdata bp (put32 d (4 * bn) a) ;;;
          log_write bp ;;;
          ret a
        else ret (get32 d (4 * bn))) ;;
  brelse bp ;;;
  ret a.

Lemma bmap_ind_run d a di bn :
  map_ok d a di → td_held a = ∅ → NDIRECT <= bn < MAXFILE → iaddr di NDIRECT ≠ 0 →
  budget sb a (1 + icost a di) → avail sb (td_view a) 1 →
  ∃ x d' a', bmap_ind (bn - NDIRECT) (iaddr di NDIRECT) (at_di s i d di) = Ret x (at_di s i d' di) ∧
    map_ok d' a' di ∧ evolves sb (λ k, k = iaddr di NDIRECT) a a' ∧
    mapped sb (td_view a) di (td_view a') di bn x ∧ pays sb a di a' di x ∧
    (fblk (td_view a) di bn ≠ 0 → a' = a).
Proof.
  intros O Hh Hbn Hnz Hbud Hav. pose proof O as [H G I B W].
  assert (Hf : fblk (td_view a) di bn = get32 (td_view a (iaddr di NDIRECT)) (4 * (bn - NDIRECT))).
  { unfold fblk. destruct (Z.ltb_spec bn NDIRECT); [lia|]. destruct (Z.eqb_spec bn MAXFILE); [lia|].
    by destruct (Z.eqb_spec (iaddr di NDIRECT) 0). }
  unfold bmap_ind. run (the_at s i d di Hi). cbn [i_dev set_di]. rewrite Hdev.
  destruct (decide (fblk (td_view a) di bn = 0)) as [H0|H0].
  - destruct (ind_alloc_run d a di bn O Hh Hbn Hnz H0 Hbud Hav)
      as (bp & x & d1 & d2 & d3 & d4 & d5 & E1 & D1 & E2 & D2 & E3 & E4 & E5 & Hal & H5).
    destruct (ind_alloc_post d d5 a di bn x _ O Hbn Hnz H0 Hal eq_refl H5) as (O' & Ev & Mp & P).
    eexists x, d5, _. split_and!; [|done..].
    run E1. run D1. rewrite <- Hf, H0. cbn [Z.eqb]. run E2. run D2. run E3. run E4. runs. run E5. done.
  - destruct (read_run (at_di s i d di) a (iaddr di NDIRECT) H) as (bp & d1 & d2 & E1 & Ed & E2 & H2).
    { apply (free_data sb a G); [done| |by rewrite Hh, map_img_empty_L].
      change (iaddr di NDIRECT) with (fblk (td_view a) di MAXFILE). apply W; [|done].
      unfold MAXFILE, NINDIRECT, NDIRECT, BSIZE. change (512 / 4) with 128. lia. }
    exists (fblk (td_view a) di bn), d2, a. split_and!; [|by split|by apply evolves_refl| |by apply pays_nothing|done].
    + run E1. run Ed. rewrite <- Hf. destruct (Z.eqb_spec (fblk (td_view a) di bn) 0); [done|].
      runs. run (E2 (at_di s i d1 di) eq_refl). done.
    + split; try done. destruct di. by eexists.
Qed.

Lemma bmap_ind_case d a di bn :
  map_ok d a di → td_held a = ∅ → NDIRECT <= bn < MAXFILE →
  budget sb a (1 + icost a di) → avail sb (td_view a) (1 + ineed di) →
  ∃ x d' a' di',
    (ib <- addr_alloc i NDIRECT ;; bmap_ind (bn - NDIRECT) ib) (at_di s i d di) = Ret x (at_di s i d' di') ∧
    map_ok d' a' di' ∧ evolves sb (λ k, k = iaddr di NDIRECT ∧ k ≠ 0) a a' ∧
    mapped sb (td_view a) di (td_view a') di' bn x ∧ pays sb a di a' di' x ∧
    (fblk (td_view a) di bn ≠ 0 → a' = a ∧ di' = di).
Proof.
  intros O Hh Hbn Hbud Hav. pose proof O as [H G I B W].
  destruct (addr_alloc_run d a di NDIRECT O ltac:(unfold NDIRECT; lia)
    ltac:(eapply budget_le; [|done]; lia) ltac:(eapply avail_le; [|done]; lia))
    as (x1 & d1 & a1 & di1 & E1 & O1 & Ev1 & M1 & Hc).
  change (addr_idx NDIRECT) with MAXFILE in M1.
  assert (Hx1 : iaddr di1 NDIRECT = x1) by exact (mp_blk _ _ _ _ _ _ _ M1).
  pose proof (mp_nz _ _ _ _ _ _ _ M1) as Hx1n. subst x1.
  assert (HP := λ m, addr_ind_pays sb a di a1 di1 _ m G B M1 Hc).
  destruct (bmap_ind_run d1 a1 di1 bn O1) as (x & d' & a' & E & O' & Ev & M2 & P & Hold); try done.
  { by rewrite (ev_held _ _ _ _ Ev1). }
  { by apply HP. }
  { destruct (HP 1%nat) as [_ Ha]. specialize (Ha Hav). by rewrite ineed_zero in Ha. }
  assert (Hbn' : 0 <= bn < MAXFILE) by (unfold NDIRECT in *; lia).
  exists x, d', a', di1. split_and!; [by run E1|done| |by eapply mapped_trans| |].
  - eapply evolves_trans; [eapply evolves_weaken; [exact Ev1|by intros k []]|exact Ev|].
    intros k ->. destruct (Z.eqb_spec (iaddr di NDIRECT) 0) as [Hz|Hz].
    + right. split; [apply (mapped_data _ _ _ _ _ _ _ M1), maxfile_pos|].
      by apply (mp_new _ _ _ _ _ _ _ M1).
    + left. by rewrite (mp_ind _ _ _ _ _ _ _ M1) in Hx1n |- *.
  - split; intros m Hm; apply P; by apply (HP (Datatypes.S m)).
  - intros Hnz. rewrite <- (mp_other _ _ _ _ _ _ _ M1 bn Hbn' ltac:(lia)) in Hnz.
    specialize (Hold Hnz). destruct Hc as [(_ & -> & ->)|[Hz ->]]; [done|]. destruct Hnz.
    rewrite (mp_other _ _ _ _ _ _ _ M1) by (done || lia). unfold fblk.
    destruct (Z.ltb_spec bn NDIRECT); [lia|]. destruct (Z.eqb_spec bn MAXFILE); [lia|]. by rewrite Hz.
Qed.

Lemma bmap_run d a di bn :
  map_ok d a di → td_held a = ∅ → 0 <= bn < MAXFILE →
  budget sb a (1 + icost a di) → avail sb (td_view a) (1 + ineed di) →
  ∃ x d' a' di', bmap i bn (at_di s i d di) = Ret x (at_di s i d' di') ∧ map_ok d' a' di' ∧
    evolves sb (λ k, k = iaddr di NDIRECT ∧ k ≠ 0) a a' ∧
    mapped sb (td_view a) di (td_view a') di' bn x ∧ pays sb a di a' di' x ∧
    (fblk (td_view a) di bn ≠ 0 → a' = a ∧ di' = di).
Proof.
  intros O Hh Hbn Hbud Hav. pose proof O as [H G I B W]. destruct maxfile_pos as (_ & E140 & E12 & E128).
  unfold bmap. destruct (Z.ltb_spec bn NDIRECT) as [Hlt|Hge].
  - destruct (addr_alloc_run d a di bn O ltac:(lia) ltac:(eapply budget_le; [|done]; lia)
      ltac:(eapply avail_le; [|done]; lia)) as (x & d' & a' & di' & E & O' & Ev & Mp & Hc).
    assert (Hidx : addr_idx bn = bn) by (unfold addr_idx; destruct (Z.eqb_spec bn NDIRECT); lia).
    rewrite Hidx in Mp. rewrite <- (fblk_addr (td_view a)), Hidx in Hc by lia.
    exists x, d', a', di'. split_and!; try done.
    + eapply evolves_weaken; [exact Ev|]. by intros k [].
    + destruct Hc as [(_ & -> & ->)|[_ ->]]; [apply pays_nothing|].
      apply alloc_pays; try done; [|apply Mp]. apply (mapped_data _ _ _ _ _ _ _ Mp). lia.
    + intros Hnz. by destruct Hc as [(_ & -> & ->)|[? _]].
  - rewrite u32_small by lia. destruct (Z.ltb_spec (bn - NDIRECT) NINDIRECT); [|lia].
    apply bmap_ind_case; done || lia.
Qed.

End Specs.
