(* ===== verification/FsData.v ===== *)
(** * File contents: [readi] and [writei]

    A file is the array of bytes that its blocks hold. [readi] returns a part of
    it; [writei] replaces a part, growing the file, and changes nothing else. *)

From S2P Require Import Prelude Memory Spinlock BlockCache Layout TxDisk FsLayout Fs FsBlocks FsMap.

(** Byte [x] of the file, and [n] bytes from [off] on. *)
Definition cbyte (v : Z → block) (di : dinode) (x : Z) : Z :=
  gb (v (fblk v di (x / BSIZE))) (x mod BSIZE).
Definition bytes_at (v : Z → block) (di : dinode) (off n : Z) : list Z :=
  map (λ k, cbyte v di (off + Z.of_nat k)) (seq 0 (Z.to_nat n)).

(** A file of a size it has blocks for. *)
Record file_ok (sb : superblock) (v : Z → block) (di : dinode) : Prop := {
  fo_map : imap_ok sb v di;
  fo_max : 0 <= di_size di <= MAXFILE * BSIZE;
  fo_blocks : ∀ bn, 0 <= bn → bn * BSIZE < di_size di → fblk v di bn ≠ 0 }.

(** Turns of the loops for [left] bytes at [off]: one per block touched. *)
Definition nturns (off left : Z) : nat :=
  if 0 <? left then Z.to_nat ((off mod BSIZE + left + (BSIZE - 1)) / BSIZE) else 0%nat.

(** One turn moves [m] bytes, at most to the end of the block. *)
Lemma turn_facts off left m :
  0 <= off → 0 < left → m = Z.min left (BSIZE - off mod BSIZE) →
  0 < m <= left ∧ 0 <= off mod BSIZE ∧ off mod BSIZE + m <= BSIZE ∧
  nturns off left = S (nturns (off + m) (left - m)) ∧
  (∀ k, 0 <= k < m → (off + k) / BSIZE = off / BSIZE ∧ (off + k) mod BSIZE = off mod BSIZE + k).
Proof.
  unfold nturns, BSIZE. intros Ho Hl ->. pose proof (Z.mod_pos_bound off 512 ltac:(lia)).
  pose proof (Z.div_mod off 512 ltac:(lia)).
  split; [lia|]. split; [lia|]. split; [lia|]. destruct (Z.ltb_spec 0 left); [|lia]. split.
  - destruct (decide (left <= 512 - off mod 512)).
    + rewrite Z.min_l by lia. rewrite Z.sub_diag. cbn [Z.ltb Z.compare].
      assert ((off mod 512 + left + (512 - 1)) / 512 = 1) by (Z.div_mod_to_equations; lia). lia.
    + rewrite Z.min_r by lia. destruct (Z.ltb_spec 0 (left - (512 - off mod 512))); [|lia].
      assert ((off + (512 - off mod 512)) mod 512 = 0) as -> by (Z.div_mod_to_equations; lia).
      assert (E : 0 <= (off mod 512 + left + (512 - 1)) / 512 - 1 ∧
        (off mod 512 + left + (512 - 1)) / 512 - 1 =
        (0 + (left - (512 - off mod 512)) + (512 - 1)) / 512) by (Z.div_mod_to_equations; lia). lia.
  - intros k Hk. Z.div_mod_to_equations. lia.
Qed.

Lemma turns_enough off n : 0 <= off → 0 <= n → (nturns off n <= turns n)%nat.
Proof.
  intros. unfold nturns, turns, BSIZE. destruct (0 <? n); [|lia].
  apply Z2Nat.inj_le; Z.div_mod_to_equations; lia.
Qed.

Lemma bytes_at_app v di off m r :
  0 <= m → 0 <= r → bytes_at v di off (m + r) = bytes_at v di off m ++ bytes_at v di (off + m) r.
Proof.
  intros Hm Hr. unfold bytes_at. rewrite Z2Nat.inj_add, seq_app, map_app by done. f_equal.
  replace (seq (0 + Z.to_nat m) (Z.to_nat r)) with (map (Nat.add (Z.to_nat m)) (seq 0 (Z.to_nat r)))
    by (etransitivity; [apply fmap_add_seq|f_equal; lia]).
  rewrite map_map. apply map_ext. intros k. f_equal. lia.
Qed.

Lemma slice_gb d o m :
  0 <= o → 0 <= m → o + m <= Z.of_nat (length d) →
  slice d o m = map (λ k, gb d (o + Z.of_nat k)) (seq 0 (Z.to_nat m)).
Proof.
  intros Ho Hm Hl. apply list_eq. intros k. unfold slice. rewrite list_lookup_fmap.
  destruct (decide (k < Z.to_nat m)%nat) as [Hk|Hk].
  - rewrite lookup_take_lt, lookup_drop, lookup_seq_lt by done. cbn. unfold gb.
    destruct (Z.ltb_spec (o + Z.of_nat k) 0); [lia|].
    replace (Z.to_nat (o + Z.of_nat k)) with (Z.to_nat o + k)%nat by lia.
    apply list_lookup_lookup_total_lt. lia.
  - rewrite lookup_take_ge, lookup_seq_ge by lia. done.
Qed.

Lemma blk_index off n bn :
  0 <= off → off < n → n <= MAXFILE * BSIZE → bn = off / BSIZE →
  0 <= bn < MAXFILE ∧ bn * BSIZE < n.
Proof.
  intros Ho Hn Hm ->. change MAXFILE with 140 in *. unfold BSIZE in *. Z.div_mod_to_equations. lia.
Qed.

Section Read.
Context {S : Type} `{!TxDisk S} `{!Devsw S}.
Context (s : fstate S) (i : nat) (sb : superblock).
Context (Hi : (i < length (icache s))%nat) (Hdev : i_dev (icache s !!! i) = ROOTDEV).
Context (Hsb : fs_sb s = sb).

(** A block the file has is found without a change. *)
Lemma bmap_hit d a di bn :
  map_ok sb d a di → td_held a = ∅ → 0 <= bn < MAXFILE → fblk (td_view a) di bn ≠ 0 →
  ∃ d', bmap i bn (at_di s i d di) = Ret (fblk (td_view a) di bn) (at_di s i d' di) ∧ d_ok d' a.
Proof.
  intros [H G I B W] Hh Hbn Hnz. destruct maxfile_pos as (_ & E140 & E12 & E128).
  unfold bmap. destruct (Z.ltb_spec bn NDIRECT) as [Hlt|Hge].
  - assert (E : fblk (td_view a) di bn = iaddr di bn) by (unfold fblk; destruct (Z.ltb_spec bn NDIRECT); lia).
    rewrite E in *. exists d. split; [|done]. unfold addr_alloc. run (the_at s i d di Hi).
    change (addr (set_di (λ _, di) (icache s !!! i)) bn) with (iaddr di bn).
    by destruct (Z.eqb_spec (iaddr di bn) 0).
  - rewrite u32_small by lia. destruct (Z.ltb_spec (bn - NDIRECT) NINDIRECT); [|lia].
    assert (Hib : iaddr di NDIRECT ≠ 0 ∧
      fblk (td_view a) di bn = get32 (td_view a (iaddr di NDIRECT)) (4 * (bn - NDIRECT))).
    { unfold fblk in *. destruct (Z.ltb_spec bn NDIRECT); [lia|]. destruct (Z.eqb_spec bn MAXFILE); [lia|].
      by destruct (Z.eqb_spec (iaddr di NDIRECT) 0). }
    destruct Hib as [Hib Hf]. assert (Hd : is_data sb (iaddr di NDIRECT)).
    { change (iaddr di NDIRECT) with (fblk (td_view a) di MAXFILE). by apply W, Hib. }
    destruct (read_run (at_di s i d di) a (iaddr di NDIRECT) H) as (bp & d1 & d2 & E1 & Ed & E2 & H2).
    { apply (free_data sb a G); [done..|]. by rewrite Hh, map_img_empty_L. }
    exists d2. split; [|done]. unfold addr_alloc. runs. run (the_at s i d di Hi).
    change (addr (set_di (λ _, di) (icache s !!! i)) NDIRECT) with (iaddr di NDIRECT).
    destruct (Z.eqb_spec (iaddr di NDIRECT) 0); [done|]. runs. run (the_at s i d di Hi).
    cbn [i_dev set_di]. rewrite Hdev. run E1. run Ed. rewrite <- Hf.
    destruct (Z.eqb_spec (fblk (td_view a) di bn) 0); [done|]. runs. by run (E2 (at_di s i d1 di) eq_refl).
Qed.

(** The bytes of the block at [off] are the bytes of the file. *)
Lemma slice_bytes a di off m :
  blocks_ok sb (td_view a) → 0 <= off → 0 <= m → off mod BSIZE + m <= BSIZE →
  (∀ k, 0 <= k < m → (off + k) / BSIZE = off / BSIZE ∧ (off + k) mod BSIZE = off mod BSIZE + k) →
  slice (td_view a (fblk (td_view a) di (off / BSIZE))) (off mod BSIZE) m = bytes_at (td_view a) di off m.
Proof.
  intros B Ho Hm Hl Hk. rewrite slice_gb; [|apply Z.mod_pos_bound; done|done|].
  - apply map_ext_in. intros k Hin%in_seq. destruct (Hk (Z.of_nat k)) as [E1 E2]; [lia|].
    unfold cbyte. by rewrite E1, E2.
  - rewrite (bo_len _ _ B). exact Hl.
Qed.

Lemma readi_loop_run a di fuel : ∀ d off left,
  map_ok sb d a di → td_held a = ∅ → file_ok sb (td_view a) di →
  0 <= off → 0 <= left → off + left <= di_size di → (nturns off left <= fuel)%nat →
  ∃ d', readi_loop i off left fuel (at_di s i d di) =
    Ret (bytes_at (td_view a) di off left) (at_di s i d' di) ∧ d_ok d' a.
Proof.
  assert (HM : MAXFILE * BSIZE < 2^32) by done.
  induction fuel as [|fuel IH]; intros d off left O Hh F Ho Hl Hsz Hf; cbn [readi_loop];
    destruct (Z.ltb_spec 0 left) as [Hpos|Hz]; cbn [negb]; try (replace left with 0 by lia; by exists d; split; [|apply O]).
  { pose proof (turn_facts off left _ Ho Hpos eq_refl) as (_ & _ & _ & Ht & _). lia. }
  set (m := Z.min left (BSIZE - off mod BSIZE)).
  destruct (turn_facts off left m Ho Hpos eq_refl) as (Hm & Hom & Hend & Ht & Hidx).
  pose proof (fo_max _ _ _ F) as Hmax.
  destruct (blk_index off (di_size di) _ Ho ltac:(lia) ltac:(lia) eq_refl) as [Hbn Hbs].
  pose proof (fo_blocks _ _ _ F _ (proj1 Hbn) Hbs) as Hnz.
  destruct (bmap_hit d a di (off / BSIZE) O Hh Hbn Hnz) as (d1 & E1 & H1). pose proof O as [H G I B W].
  set (x := fblk (td_view a) di (off / BSIZE)) in *.
  destruct (read_run (at_di s i d1 di) a x H1) as (bp & d2 & d3 & E2 & Ed & E3 & H3).
  { apply (free_data sb a G); [done| |by rewrite Hh, map_img_empty_L]. apply W; [lia|done]. }
  destruct (IH d3 (off + m) (left - m)) as (d' & E' & H'); try done; try lia.
  exists d'. split; [|done]. run (the_at s i d di Hi). cbn [i_dev set_di]. rewrite Hdev. run E1. run E2.
  run Ed. run (E3 (at_di s i d2 di) eq_refl). rewrite u32_small by lia.
  change (set_disk d3 (at_di s i d2 di)) with (at_di s i d3 di). run E'. unfold ret. f_equal.
  pose proof (slice_bytes a di off m B Ho ltac:(lia) Hend Hidx) as Es. fold x in Es. rewrite Es.
  rewrite <- bytes_at_app by lia. f_equal. lia.
Qed.

(** [readi] of a file, from [off] within it. *)
Lemma readi_run d a di off n :
  map_ok sb d a di → td_held a = ∅ → file_ok sb (td_view a) di → di_type di ≠ T_DEV →
  0 <= off <= di_size di → 0 <= n → off + n < 2^32 →
  let r := Z.min n (di_size di - off) in
  ∃ d', readi i off n (at_di s i d di) =
    Ret (r, bytes_at (td_view a) di off r) (at_di s i d' di) ∧ d_ok d' a.
Proof.
  assert (HM : MAXFILE * BSIZE < 2^31) by done.
  intros O Hh F Ht Ho Hn Hov r. pose proof (fo_max _ _ _ F) as Hmax.
  destruct (readi_loop_run a di (turns r) d off r O Hh F) as (d' & E & H'); [lia..|apply turns_enough; lia|].
  exists d'. split; [|done]. unfold readi. run (the_at s i d di Hi). cbn [i_di set_di].
  destruct (Z.eqb_spec (di_type di) T_DEV); [done|].
  rewrite (u32_small (off + n)) by lia.
  destruct (Z.ltb_spec (di_size di) off); [lia|]. destruct (Z.ltb_spec (off + n) off); [lia|].
  cbn [orb]. rewrite (u32_small (di_size di - off)) by lia.
  replace (if di_size di <? off + n then di_size di - off else n) with r by (unfold r; zcases).
  run E. unfold ret. by rewrite s32_small by lia.
Qed.

End Read.

(** ** Writing *)

(** From [a], [di] to [a'], [di'] the [n] bytes [src] were written at [off]: they
    are there, every other byte the file had a block for is as it was, only
    blocks of this file and free blocks changed, and blocks were only added. *)
Record wrote (sb : superblock) (a : txdisk) (di : dinode) (a' : txdisk) (di' : dinode)
    (off n : Z) (src : list Z) : Prop := {
  w_di : ∃ l, di' = DI (di_type di) (di_major di) (di_minor di) (di_nlink di) (di_size di) l;
  w_keep : ∀ bn, 0 <= bn < MAXFILE → fblk (td_view a) di bn ≠ 0 →
    fblk (td_view a') di' bn = fblk (td_view a) di bn;
  w_has : ∀ x, off <= x < off + n → fblk (td_view a') di' (x / BSIZE) ≠ 0;
  w_byte : ∀ x, 0 <= x < MAXFILE * BSIZE →
    off <= x < off + n ∨ fblk (td_view a) di (x / BSIZE) ≠ 0 →
    cbyte (td_view a') di' x =
      if (off <=? x) && (x <? off + n) then gb src (x - off) else cbyte (td_view a) di x;
  w_ind : iaddr di NDIRECT ≠ 0 → iaddr di' NDIRECT = iaddr di NDIRECT;
  w_own : ∀ k, is_blk (td_view a') di' k →
    is_blk (td_view a) di k ∨ is_data sb k ∧ used sb (td_view a) k = false;
  w_ev : evolves sb (is_blk (td_view a) di) a a' }.

Lemma wrote_nothing sb a di off src :
  geom sb a → blocks_ok sb (td_view a) → wrote sb a di a di off 0 src.
Proof.
  intros G B. split; try done.
  - destruct di. by eexists.
  - lia.
  - intros x Hx _. zcases.
  - auto.
Qed.

(** Writes one after the other. *)
Lemma wrote_trans sb a di a1 di1 a2 di2 off m n src :
  geom sb a → 0 <= off → 0 <= m <= Z.of_nat (length src) → 0 <= n →
  off + m + n <= MAXFILE * BSIZE →
  wrote sb a di a1 di1 off m (take (Z.to_nat m) src) →
  wrote sb a1 di1 a2 di2 (off + m) n (drop (Z.to_nat m) src) →
  wrote sb a di a2 di2 off (m + n) src.
Proof.
  intros G Ho Hm Hn Hmax R1 R2.
  assert (Hbn : ∀ x, 0 <= x < MAXFILE * BSIZE → 0 <= x / BSIZE < MAXFILE).
  { intros x Hx. change MAXFILE with 140 in *. unfold BSIZE in *. Z.div_mod_to_equations. lia. }
  split.
  - destruct (w_di _ _ _ _ _ _ _ _ R2) as [l2 ->]. destruct (w_di _ _ _ _ _ _ _ _ R1) as [l1 ->]. by exists l2.
  - intros bn Hb Hnz. pose proof (w_keep _ _ _ _ _ _ _ _ R1 bn Hb Hnz) as E1.
    rewrite (w_keep _ _ _ _ _ _ _ _ R2); congruence.
  - intros x Hx. destruct (decide (x < off + m)); [|apply (w_has _ _ _ _ _ _ _ _ R2); lia].
    pose proof (w_has _ _ _ _ _ _ _ _ R1 x ltac:(lia)) as H1.
    by rewrite (w_keep _ _ _ _ _ _ _ _ R2) by (done || apply Hbn; lia).
  - intros x Hx Hor. pose proof (Hbn x Hx) as Hxb.
    destruct (decide (off + m <= x < off + m + n)) as [H2|H2].
    { rewrite (w_byte _ _ _ _ _ _ _ _ R2) by auto.
      replace ((off + m <=? x) && (x <? off + m + n)) with true by zcases.
      replace ((off <=? x) && (x <? off + (m + n))) with true by zcases.
      unfold gb. rewrite list_lookup_total_alt, lookup_drop, <- list_lookup_total_alt. zcases.
      f_equal. lia. }
    assert (Hor1 : off <= x < off + m ∨ fblk (td_view a) di (x / BSIZE) ≠ 0)
      by (destruct Hor; [left; lia|by right]).
    assert (Hnz1 : fblk (td_view a1) di1 (x / BSIZE) ≠ 0).
    { destruct Hor1 as [H1|H1]; [by apply (w_has _ _ _ _ _ _ _ _ R1)|].
      by rewrite (w_keep _ _ _ _ _ _ _ _ R1). }
    rewrite (w_byte _ _ _ _ _ _ _ _ R2) by auto. rewrite (w_byte _ _ _ _ _ _ _ _ R1) by auto.
    replace ((off + m <=? x) && (x <? off + m + n)) with false by zcases.
    replace ((off <=? x) && (x <? off + (m + n))) with ((off <=? x) && (x <? off + m)) by zcases.
    destruct ((off <=? x) && (x <? off + m)) eqn:E; [|done]. zbool. unfold gb.
    rewrite !list_lookup_total_alt, lookup_take_lt by lia. done.
  - intros Hnz. pose proof (w_ind _ _ _ _ _ _ _ _ R1 Hnz) as E1. rewrite (w_ind _ _ _ _ _ _ _ _ R2); congruence.
  - intros k [Hk|[Hk Hu]]%(w_own _ _ _ _ _ _ _ _ R2); [by apply (w_own _ _ _ _ _ _ _ _ R1)|].
    right. split; [done|]. destruct (used sb (td_view a) k) eqn:E; [|done].
    rewrite (ev_used _ _ _ _ (w_ev _ _ _ _ _ _ _ _ R1)) in Hu; [done| |done]. by apply (is_data_range _ _ _ G).
  - eapply evolves_trans; [apply R1|apply R2|apply R1].
Qed.

Lemma fblk_put v di x e k :
  x ≠ iaddr di NDIRECT → fblk (put v x e) di k = fblk v di k.
Proof. intros Hx. unfold fblk. by rewrite put_ne by (by apply not_eq_sym). Qed.

Lemma imap_ok_same sb v v' di :
  imap_ok sb v di → (∀ k, fblk v' di k = fblk v di k) →
  (∀ b, is_data sb b → used sb v b = true → used sb v' b = true) → imap_ok sb v' di.
Proof.
  intros W Hf Hu. split; [apply W| |].
  - intros j Hj. rewrite Hf. intros Hnz. destruct (im_data _ _ _ W j Hj Hnz). auto.
  - intros j k. rewrite !Hf. apply W.
Qed.

(** Filling part of a block that [bmap] returned. *)
Section Turn.
Context (sb : superblock) (a a1 : txdisk) (di di1 : dinode) (off m x : Z) (src : list Z).
Context (G : geom sb a) (W : imap_ok sb (td_view a) di).
Context (Ev : evolves sb (λ k, k = iaddr di NDIRECT ∧ k ≠ 0) a a1).
Context (Mp : mapped sb (td_view a) di (td_view a1) di1 (off / BSIZE) x).
Context (Hhit : fblk (td_view a) di (off / BSIZE) ≠ 0 → a1 = a ∧ di1 = di).
Context (Hdirty : td_dirty a = ∅).
Context (Ho : 0 <= off) (Hm : 0 < m) (Hend : off mod BSIZE + m <= BSIZE) (Hbn : off / BSIZE < MAXFILE).
Context (Hsrc : Z.of_nat (length src) = m).

Definition turn_td : txdisk := td_write x (splice (td_view a1 x) (off mod BSIZE) src) a1.

Lemma turn_bn : 0 <= off / BSIZE <= MAXFILE.
Proof. split; [by apply Z.div_pos|lia]. Qed.

Lemma turn_data : is_data sb x ∧ used sb (td_view a1) x = true.
Proof. apply (mapped_data _ _ _ _ _ _ _ Mp), turn_bn. Qed.

Lemma turn_not_ind : x ≠ iaddr di1 NDIRECT.
Proof.
  intros E. pose proof (mp_ok _ _ _ _ _ _ _ Mp) as W1. pose proof (mp_blk _ _ _ _ _ _ _ Mp) as Hx.
  assert (off / BSIZE = MAXFILE); [|lia]. apply (im_inj _ _ _ W1); [apply turn_bn|apply maxfile_pos| |].
  - rewrite Hx. exact E.
  - rewrite Hx. apply Mp.
Qed.

Lemma turn_evolves : evolves sb (λ k, k = x) a1 turn_td.
Proof.
  apply evolves_write; [apply Ev|apply Ev| | |right; apply turn_data].
  - by rewrite (ev_dirty _ _ _ _ Ev).
  - rewrite length_splice. apply (ev_ok _ _ _ _ Ev).
Qed.

Lemma turn_fblk k : fblk (td_view turn_td) di1 k = fblk (td_view a1) di1 k.
Proof. apply fblk_put, turn_not_ind. Qed.

Lemma turn_map : imap_ok sb (td_view turn_td) di1.
Proof.
  apply (imap_ok_same _ (td_view a1)); [apply Mp|apply turn_fblk|].
  intros b Hb Hu. apply (ev_used _ _ _ _ turn_evolves); [|done]. by apply (is_data_range _ _ _ G).
Qed.

(** Blocks the file had are where they were, with the contents they had. *)
Lemma turn_old bn :
  0 <= bn < MAXFILE → fblk (td_view a) di bn ≠ 0 →
  fblk (td_view a1) di1 bn = fblk (td_view a) di bn ∧
  td_view a1 (fblk (td_view a) di bn) = td_view a (fblk (td_view a) di bn).
Proof.
  intros Hb Hnz. split.
  - destruct (decide (bn = off / BSIZE)) as [->|Hne].
    + by destruct (Hhit Hnz) as [-> ->].
    + by apply (mp_other _ _ _ _ _ _ _ Mp).
  - apply (ev_same _ _ _ _ Ev); [right; right; apply W; [lia|done]|].
    intros [E _]. assert (bn = MAXFILE); [|lia].
    apply (im_inj _ _ _ W); [lia|apply maxfile_pos|exact E|done].
Qed.

Lemma turn_byte y :
  0 <= y < MAXFILE * BSIZE → off <= y < off + m ∨ fblk (td_view a) di (y / BSIZE) ≠ 0 →
  cbyte (td_view turn_td) di1 y =
    if (off <=? y) && (y <? off + m) then gb src (y - off) else cbyte (td_view a) di y.
Proof.
  intros Hy Hor. assert (HB : BSIZE = 512) by done.
  assert (Hyb : 0 <= y / BSIZE < MAXFILE).
  { change MAXFILE with 140 in *. rewrite HB in *. clear - Hy. Z.div_mod_to_equations. lia. }
  pose proof (Z.mod_pos_bound off BSIZE ltac:(lia)). pose proof (Z.mod_pos_bound y BSIZE ltac:(lia)).
  pose proof (Z.div_mod off BSIZE ltac:(lia)). pose proof (Z.div_mod y BSIZE ltac:(lia)).
  unfold cbyte. rewrite turn_fblk. cbn [turn_td td_view td_write].
  destruct (decide (y / BSIZE = off / BSIZE)) as [E|E].
  - rewrite E in *. rewrite (mp_blk _ _ _ _ _ _ _ Mp), put_eq.
    rewrite gb_splice by (rewrite (bo_len _ _ (ev_ok _ _ _ _ Ev)); lia). rewrite Hsrc.
    replace ((off mod BSIZE <=? y mod BSIZE) && (y mod BSIZE <? off mod BSIZE + m))
      with ((off <=? y) && (y <? off + m)) by zcases.
    replace (y mod BSIZE - off mod BSIZE) with (y - off) by lia.
    destruct (_ && _) eqn:Ein; [done|]. destruct Hor as [?|Hnz]; [zcases|].
    destruct (Hhit Hnz) as [-> ->]. by rewrite (mp_old _ _ _ _ _ _ _ Mp Hnz).
  - assert (Hout : ¬ (off <= y < off + m)).
    { intros Hin. destruct E. rewrite HB in *. clear - Hin Hend Ho. Z.div_mod_to_equations. lia. }
    replace ((off <=? y) && (y <? off + m)) with false by zcases.
    destruct Hor as [?|Hnz]; [done|]. destruct (turn_old _ Hyb Hnz) as [E1 E2]. rewrite E1.
    rewrite put_ne, E2; [done|]. intros Ex. destruct E.
    apply (im_inj _ _ _ (mp_ok _ _ _ _ _ _ _ Mp)); [lia|apply turn_bn| |by rewrite E1].
    by rewrite E1, (mp_blk _ _ _ _ _ _ _ Mp).
Qed.

(** The block is the file's, or was free. *)
Lemma turn_blk : is_blk (td_view a) di x ∨ is_data sb x ∧ used sb (td_view a) x = false.
Proof.
  destruct (Z.eqb_spec (fblk (td_view a) di (off / BSIZE)) 0) as [E|E].
  - right. split; [apply turn_data|]. by apply (mp_new _ _ _ _ _ _ _ Mp).
  - left. rewrite (mp_old _ _ _ _ _ _ _ Mp E). exists (off / BSIZE). by split; [apply turn_bn|].
Qed.

Lemma turn_own k :
  is_blk (td_view turn_td) di1 k → is_blk (td_view a) di k ∨ is_data sb k ∧ used sb (td_view a) k = false.
Proof.
  intros (j & Hj & Hk & Hnz). rewrite turn_fblk in Hk.
  destruct (decide (j = off / BSIZE)) as [->|Hne].
  { rewrite (mp_blk _ _ _ _ _ _ _ Mp) in Hk. subst k. apply turn_blk. }
  destruct (decide (j = MAXFILE)) as [->|Hnm].
  - change (iaddr di1 NDIRECT = k) in Hk. destruct (Z.eqb_spec (iaddr di NDIRECT) 0) as [E|E].
    + right. pose proof (mp_indnew _ _ _ _ _ _ _ Mp E) as Hu. rewrite Hk in Hu. split; [|by apply Hu].
      assert (Hd := im_data _ _ _ (mp_ok _ _ _ _ _ _ _ Mp) MAXFILE (proj1 maxfile_pos)).
      change (fblk (td_view a1) di1 MAXFILE) with (iaddr di1 NDIRECT) in Hd. rewrite Hk in Hd. by apply Hd.
    + left. exists MAXFILE. split; [apply maxfile_pos|]. split; [|done].
      change (iaddr di NDIRECT = k). rewrite <- Hk. symmetry. by apply (mp_ind _ _ _ _ _ _ _ Mp).
  - left. exists j. split; [done|]. split; [|done]. rewrite <- Hk. symmetry.
    apply (mp_other _ _ _ _ _ _ _ Mp); [lia|done].
Qed.

Lemma turn_wrote : wrote sb a di turn_td di1 off m src.
Proof.
  assert (Hidx : ∀ y, off <= y < off + m → y / BSIZE = off / BSIZE).
  { intros y Hy. unfold BSIZE in *. clear - Hy Hend Ho. Z.div_mod_to_equations. lia. }
  split.
  - exact (mp_di _ _ _ _ _ _ _ Mp).
  - intros bn Hb Hnz. rewrite turn_fblk. by apply turn_old.
  - intros y Hy. rewrite (Hidx y Hy), turn_fblk, (mp_blk _ _ _ _ _ _ _ Mp). apply Mp.
  - apply turn_byte.
  - exact (mp_ind _ _ _ _ _ _ _ Mp).
  - apply turn_own.
  - apply (evolves_trans _ _ (λ k, k = x) _ a1); [|apply turn_evolves|by intros k ->; apply turn_blk].
    eapply evolves_weaken; [exact Ev|]. intros k [-> Hnz]. exists MAXFILE. by split; [apply maxfile_pos|].
Qed.

End Turn.

Section Write.
Context {S : Type} `{!TxDisk S} `{!Devsw S}.
Context (s : fstate S) (i : nat) (sb : superblock).
Context (Hi : (i < length (icache s))%nat) (Hdev : i_dev (icache s !!! i) = ROOTDEV).
Context (Hsb : fs_sb s = sb).

(** What a turn leaves to log and to allocate. *)
Lemma turn_pays a di a1 di1 x e :
  geom sb a1 → is_data sb x → pays sb a di a1 di1 x →
  (∀ m, budget sb a (Datatypes.S m + icost a di) →
    budget sb (td_write x e a1) (m + icost (td_write x e a1) di1)) ∧
  (∀ m, avail sb (td_view a) (Datatypes.S m + ineed di) →
    avail sb (td_view (td_write x e a1)) (m + ineed di1)).
Proof.
  intros G1 Hx [P1 P2]. split; intros m Hm.
  - eapply budget_le; [apply Nat.add_le_mono_l, (icost_mono a1); [done|cbn; set_solver]|].
    destruct (P1 m Hm) as [Hb [Hin|Hb']]; [apply budget_write_in; [set_solver|done]|by apply budget_write].
  - apply (avail_ext sb (td_view a1)); [|by apply P2]. intros k Hk. unfold used. cbn [td_view td_write].
    destruct (bblock_eq _ _ G1 k Hk) as [_ ?]. by rewrite put_ne by (unfold is_data in Hx; lia).
Qed.

Lemma writei_turn d a di src off m :
  map_ok sb d a di → td_held a = ∅ → 0 <= off → 0 < m → off mod BSIZE + m <= BSIZE →
  off + m <= MAXFILE * BSIZE → Z.of_nat (length src) = m →
  budget sb a (1 + icost a di) → avail sb (td_view a) (1 + ineed di) →
  ∃ x d1 a1 di1 bp d2 d3 d4 d5, let e := splice (td_view a1 x) (off mod BSIZE) src in
    bmap i (off / BSIZE) (at_di s i d di) = Ret x (at_di s i d1 di1) ∧
    bread ROOTDEV x (at_di s i d1 di1) = Ret bp (at_di s i d2 di1) ∧
    data bp (at_di s i d2 di1) = Ret (td_view a1 x) (at_di s i d2 di1) ∧
    setdata bp e (at_di s i d2 di1) = Ret tt (at_di s i d3 di1) ∧
    log_write bp (at_di s i d3 di1) = Ret tt (at_di s i d4 di1) ∧
    brelse bp (at_di s i d4 di1) = Ret tt (at_di s i d5 di1) ∧
    map_ok sb d5 (td_write x e a1) di1 ∧ wrote sb a di (td_write x e a1) di1 off m src ∧
    (∀ k, budget sb a (Datatypes.S k + icost a di) →
      budget sb (td_write x e a1) (k + icost (td_write x e a1) di1)) ∧
    (∀ k, avail sb (td_view a) (Datatypes.S k + ineed di) →
      avail sb (td_view (td_write x e a1)) (k + ineed di1)).
Proof.
  intros O Hh Ho Hm Hend Hmax Hsrc Hbud Hav.
  destruct (blk_index off (off + m) _ Ho ltac:(lia) Hmax eq_refl) as [Hbn _].
  destruct (bmap_run s i sb Hi Hdev Hsb d a di (off / BSIZE) O Hh Hbn Hbud Hav)
    as (x & d1 & a1 & di1 & E1 & O1 & Ev & Mp & P & Hhit).
  pose proof O as [H G I B W]. pose proof O1 as [H1 G1 I1 B1 W1].
  assert (Hx : is_data sb x) by (apply (mapped_data _ _ _ _ _ _ _ Mp); lia).
  set (e := splice (td_view a1 x) (off mod BSIZE) src).
  destruct (write_run (at_di s i d1 di1) a1 x e H1) as (bp & d2 & d3 & d4 & d5 & E2 & Ed & E3 & E4 & E5 & H5).
  { apply (free_data sb a1 G1); [done..|]. by rewrite (ev_held _ _ _ _ Ev), Hh, map_img_empty_L. }
  { destruct P as [P _]. eapply budget_room. by apply (P 0%nat). }
  exists x, d1, a1, di1, bp, d2, d3, d4, d5. pose proof (id_dirty _ _ I) as Hd.
  assert (Hend' : off / BSIZE < MAXFILE) by lia.
  split_and!; try done.
  - eapply (map_ok_evolves sb d1 d5 a1 _ di1 di1 _ O1 H5).
    + by apply (turn_evolves sb a a1 di di1 off x src Ev Mp Hd Ho).
    + by apply (turn_map sb a a1 di di1 off x src G Ev Mp Hd Ho).
  - by apply turn_wrote.
  - by apply (turn_pays a di).
  - by apply (turn_pays a di).
Qed.

Lemma writei_loop_run fuel : ∀ d a di src off left,
  map_ok sb d a di → td_held a = ∅ → 0 <= off → 0 <= left → off + left <= MAXFILE * BSIZE →
  Z.of_nat (length src) = left → (nturns off left <= fuel)%nat →
  budget sb a (nturns off left + icost a di) → avail sb (td_view a) (nturns off left + ineed di) →
  ∃ d' a' di', writei_loop i src off left fuel (at_di s i d di) = Ret (off + left) (at_di s i d' di') ∧
    map_ok sb d' a' di' ∧ wrote sb a di a' di' off left src ∧
    (∀ m, budget sb a (m + nturns off left + icost a di) → budget sb a' (m + icost a' di')) ∧
    (∀ m, avail sb (td_view a) (m + nturns off left + ineed di) → avail sb (td_view a') (m + ineed di')).
Proof.
  assert (HM : MAXFILE * BSIZE < 2^32) by done.
  induction fuel as [|fuel IH]; intros d a di src off left O Hh Ho Hl Hmax Hsrc Hf Hbud Hav;
    cbn [writei_loop]; destruct (Z.ltb_spec 0 left) as [Hpos|Hz]; cbn [negb].
  1: { pose proof (turn_facts off left _ Ho Hpos eq_refl) as (_ & _ & _ & Ht & _). lia. }
  1, 3: replace left with 0 in * by lia; exists d, a, di; rewrite Z.add_0_r;
    (split; [done|]; split; [done|]; split; [apply wrote_nothing; apply O|]);
    split; intros m Hm; by rewrite Nat.add_0_r in Hm.
  set (m := Z.min left (BSIZE - off mod BSIZE)).
  destruct (turn_facts off left m Ho Hpos eq_refl) as (Hm & Hom & Hend & Ht & Hidx).
  rewrite Ht in Hbud, Hav, Hf.
  destruct (writei_turn d a di (take (Z.to_nat m) src) off m) with (1 := O)
    as (x & d1 & a1 & di1 & bp & d2 & d3 & d4 & d5 & E1 & E2 & Ed & E3 & E4 & E5 & O2 & R & P1 & P2);
    try done; try lia.
  { rewrite length_take. lia. }
  { eapply budget_le; [|done]. lia. }
  { refine (avail_le _ _ _ _ _ Hav). lia. }
  set (a2 := td_write x (splice (td_view a1 x) (off mod BSIZE) (take (Z.to_nat m) src)) a1) in *.
  destruct (IH d5 a2 di1 (drop (Z.to_nat m) src) (off + m) (left - m)) as (d' & a' & di' & E & O' & R' & P' & Q');
    try done; try lia.
  { by rewrite (ev_held _ _ _ _ (w_ev _ _ _ _ _ _ _ _ R)). }
  { rewrite length_drop. lia. }
  { by apply P1. }
  { by apply P2. }
  exists d', a', di'. split_and!; [|done| | |].
  - run (the_at s i d di Hi). cbn [i_dev set_di]. rewrite Hdev. run E1. run E2. run Ed. run E3. run E4. run E5.
    rewrite u32_small by lia. rewrite E. f_equal. lia.
  - replace left with (m + (left - m)) by lia. eapply wrote_trans; try done; [apply O|lia..].
  - intros k Hk. apply P'. apply P1. by rewrite Ht, Nat.add_succ_r in Hk.
  - intros k Hk. apply Q'. apply P2. by rewrite Ht, Nat.add_succ_r in Hk.
Qed.

End Write.

(** ** Files as byte arrays *)

Definition content (v : Z → block) (di : dinode) : list Z := bytes_at v di 0 (di_size di).

Lemma length_content v di : length (content v di) = Z.to_nat (di_size di).
Proof. unfold content, bytes_at. by rewrite length_map, length_seq. Qed.

Lemma lookup_content v di k :
  (k < Z.to_nat (di_size di))%nat → content v di !! k = Some (cbyte v di (Z.of_nat k)).
Proof.
  intros Hk. unfold content, bytes_at. rewrite list_lookup_fmap, lookup_seq_lt by done. done.
Qed.

(** Files and the free map are stored from the free map on: they are the same in
    a view that agrees there. *)
Lemma used_agree sb a v v' k :
  geom sb a → (∀ k, sb_bmapstart sb <= k < sb_size sb → v' k = v k) → 0 <= k < sb_size sb →
  used sb v' k = used sb v k.
Proof.
  intros G A Hk. unfold used. rewrite A; [done|]. destruct (bblock_eq _ _ G k Hk) as [_ ?].
  destruct G. lia.
Qed.

Lemma avail_agree sb a v v' n :
  geom sb a → (∀ k, sb_bmapstart sb <= k < sb_size sb → v' k = v k) → avail sb v n → avail sb v' n.
Proof.
  intros G A (X & HX & HF). exists X. split; [done|]. intros k Hk. destruct (HF k Hk) as [Hr Hu].
  by rewrite (used_agree sb a v v') by done.
Qed.

Lemma file_agree sb a v v' di :
  geom sb a → (∀ k, sb_bmapstart sb <= k < sb_size sb → v' k = v k) → file_ok sb v di →
  file_ok sb v' di ∧ content v' di = content v di.
Proof.
  intros G A F. pose proof (fo_map _ _ _ F) as W. pose proof (fo_max _ _ _ F) as Hmax.
  destruct (geom_nums _ _ G) as (? & ? & ?).
  assert (Hd : ∀ k, is_data sb k → v' k = v k) by (intros k Hk; apply A; unfold is_data, dstart in Hk; lia).
  assert (Hf : ∀ k, fblk v' di k = fblk v di k).
  { intros k. unfold fblk. destruct (k <? NDIRECT); [done|]. destruct (k =? MAXFILE); [done|].
    destruct (Z.eqb_spec (iaddr di NDIRECT) 0); [done|]. rewrite Hd; [done|].
    apply (im_data _ _ _ W MAXFILE); [apply maxfile_pos|done]. }
  split; [split; [|done|]|].
  - apply (imap_ok_same sb v); [done|done|]. intros b Hb Hu.
    by rewrite (used_agree sb a v v') by (done || by apply (is_data_range _ _ _ G)).
  - intros bn Hb Hs. rewrite Hf. by apply F.
  - unfold content, bytes_at. apply map_ext_in. intros k Hk%in_seq. unfold cbyte. rewrite Z.add_0_l.
    assert (Hx : 0 <= Z.of_nat k < di_size di) by lia.
    destruct (blk_index (Z.of_nat k) (MAXFILE * BSIZE) _ (proj1 Hx) ltac:(lia) ltac:(done) eq_refl) as [Hb _].
    rewrite Hf, Hd; [done|]. apply W; [lia|]. apply F; [lia|]. unfold BSIZE. Z.div_mod_to_equations. lia.
Qed.

Lemma bytes_at_content v di off n :
  0 <= off → 0 <= n → off + n <= di_size di →
  bytes_at v di off n = take (Z.to_nat n) (drop (Z.to_nat off) (content v di)).
Proof.
  intros Ho Hn Hs. apply list_eq. intros k. unfold bytes_at at 1. rewrite list_lookup_fmap.
  destruct (decide (k < Z.to_nat n)%nat) as [Hk|Hk].
  - rewrite lookup_seq_lt, lookup_take_lt, lookup_drop, lookup_content by lia. cbn. do 2 f_equal. lia.
  - rewrite lookup_seq_ge, lookup_take_ge by lia. done.
Qed.

(** Replacing a part of the bytes, possibly past the end. *)
Definition overwrite (bs : list Z) (off : nat) (src : list Z) : list Z :=
  take off bs ++ src ++ drop (off + length src) bs.

Lemma content_overwrite v di v' di' off src :
  0 <= off <= di_size di → di_size di' = Z.max (di_size di) (off + Z.of_nat (length src)) →
  (∀ x, 0 <= x < di_size di' → cbyte v' di' x =
    if (off <=? x) && (x <? off + Z.of_nat (length src)) then gb src (x - off) else cbyte v di x) →
  content v' di' = overwrite (content v di) (Z.to_nat off) src.
Proof.
  intros Ho Hs Hb. unfold overwrite.
  pose proof (length_content v di) as Hl. apply list_eq. intros k.
  destruct (decide (k < Z.to_nat (di_size di'))%nat) as [Hk|Hk].
  - rewrite lookup_content, Hb by lia.
    destruct (decide (k < Z.to_nat off)%nat) as [H1|H1].
    + rewrite lookup_app_l by (rewrite length_take; lia).
      rewrite lookup_take_lt, lookup_content by lia. zcases.
    + rewrite lookup_app_r by (rewrite length_take; lia). rewrite length_take, Hl, Nat.min_l by lia.
      destruct (decide (k < Z.to_nat off + length src)%nat) as [H2|H2].
      * rewrite lookup_app_l by lia. replace (_ && _) with true by zcases. unfold gb.
        destruct (Z.ltb_spec (Z.of_nat k - off) 0); [lia|].
        replace (Z.to_nat (Z.of_nat k - off)) with (k - Z.to_nat off)%nat by lia.
        symmetry. apply list_lookup_lookup_total_lt. lia.
      * rewrite lookup_app_r by lia. replace (_ && _) with false by zcases.
        rewrite lookup_drop, lookup_content by lia. do 2 f_equal. lia.
  - rewrite !lookup_ge_None_2; [done| |by rewrite length_content; lia].
    rewrite !length_app, length_take, length_drop. lia.
Qed.

Lemma imap_dinode_ok sb v di l z :
  dinode_ok di → is_u32 z →
  imap_ok sb v (DI (di_type di) (di_major di) (di_minor di) (di_nlink di) z l) →
  0 <= dstart sb → sb_size sb < 2^31 →
  dinode_ok (DI (di_type di) (di_major di) (di_minor di) (di_nlink di) z l).
Proof.
  intros D Hz W Hd Hs. pose proof (im_len _ _ _ W) as Hl. cbn in Hl.
  split; cbn [di_type di_major di_minor di_nlink di_size di_addrs]; try apply D; try done.
  apply Forall_lookup_2. intros n x Hn. pose proof (lookup_lt_Some _ _ _ Hn).
  assert (E : fblk v (DI (di_type di) (di_major di) (di_minor di) (di_nlink di) z l) (addr_idx (Z.of_nat n)) = x).
  { rewrite fblk_addr by (unfold NDIRECT; lia). unfold iaddr. cbn. rewrite Nat2Z.id.
    by apply list_lookup_total_correct. }
  destruct (decide (x = 0)) as [->|Hnz]; [done|].
  destruct (im_data _ _ _ W (addr_idx (Z.of_nat n))) as [[? ?] _].
  - unfold addr_idx, NDIRECT. destruct (Z.eqb_spec (Z.of_nat n) 12); [apply maxfile_pos|].
    change MAXFILE with 140. lia.
  - by rewrite E.
  - rewrite E in *. unfold is_u32. lia.
Qed.

Lemma file_ok_wrote sb a di a' di' off src :
  geom sb a → file_ok sb (td_view a) di → imap_ok sb (td_view a') di' →
  0 <= off <= di_size di → off + Z.of_nat (length src) <= MAXFILE * BSIZE →
  wrote sb a di a' di' off (Z.of_nat (length src)) src →
  let z := Z.max (di_size di) (off + Z.of_nat (length src)) in
  file_ok sb (td_view a') (set_size z di') ∧
  content (td_view a') (set_size z di') = overwrite (content (td_view a) di) (Z.to_nat off) src.
Proof.
  intros G F W' Ho Hmax R z. pose proof (fo_max _ _ _ F) as Hsz. assert (HB : BSIZE = 512) by done.
  assert (Hidx : ∀ bn, 0 <= bn → bn * BSIZE < MAXFILE * BSIZE → 0 <= bn < MAXFILE) by (intros; lia).
  assert (Hnz : ∀ bn, 0 <= bn → bn * BSIZE < z → fblk (td_view a') di' bn ≠ 0).
  { intros bn Hb Hbz. destruct (decide (bn * BSIZE < di_size di)) as [Hlt|Hge].
    - pose proof (fo_blocks _ _ _ F bn Hb Hlt) as Hnz. by rewrite (w_keep _ _ _ _ _ _ _ _ R) by (done || apply Hidx; lia).
    - rewrite <- (Z.div_mul bn BSIZE) by lia. apply (w_has _ _ _ _ _ _ _ _ R). lia. }
  split.
  - split; [destruct W'; by split|cbn; lia|exact Hnz].
  - apply content_overwrite; [done|done|]. cbn [di_size set_size]. intros x Hx.
    assert (Hxm : 0 <= x < MAXFILE * BSIZE) by lia.
    change (cbyte (td_view a') (set_size z di') x) with (cbyte (td_view a') di' x).
    apply (w_byte _ _ _ _ _ _ _ _ R); [done|]. destruct (decide (x < di_size di)); [right|left; lia].
    apply (fo_blocks _ _ _ F).
    + by apply Z.div_pos; lia.
    + rewrite HB. clear - l. Z.div_mod_to_equations. lia.
Qed.

(** ** [iupdate] *)

Section Update.
Context {S : Type} `{!TxDisk S} `{!Devsw S}.
Context (s : fstate S) (i : nat) (sb : superblock).
Context (Hi : (i < length (icache s))%nat) (Hdev : i_dev (icache s !!! i) = ROOTDEV).
Context (Hsb : fs_sb s = sb).
Context (Hinum : 0 <= i_inum (icache s !!! i) < sb_ninodes sb).

Definition upd_td (di : dinode) (a : txdisk) : txdisk :=
  let ib := IBLOCK (i_inum (icache s !!! i)) sb in
  td_write ib (put_dinode (td_view a ib) (dip_off (i_inum (icache s !!! i))) di) a.

Lemma iupdate_run d a di :
  d_ok d a → geom sb a → idle sb a → budget sb a 0 →
  ∃ d', iupdate i (at_di s i d di) = Ret tt (at_di s i d' di) ∧ d_ok d' (upd_td di a).
Proof.
  intros H G I Hbud. set (inum := i_inum (icache s !!! i)) in *.
  destruct (write_run (at_di s i d di) a (IBLOCK inum sb)
    (put_dinode (td_view a (IBLOCK inum sb)) (dip_off inum) di) H)
    as (bp & d1 & d2 & d3 & d4 & E1 & Ed & E2 & E3 & E4 & H4).
  { by apply (free_ino _ _ G). }
  { by eapply budget_room. }
  exists d4. split; [|done]. unfold iupdate. run (the_at s i d di Hi). runs.
  cbn [i_dev i_inum i_di set_di fs_sb at_di set_disk set_icache]. rewrite Hdev, Hsb.
  fold inum. run E1. run Ed. run E2. run E3. exact E4.
Qed.

Lemma upd_evolves di a :
  geom sb a → idle sb a → blocks_ok sb (td_view a) → length (di_addrs di) = 13%nat →
  evolves sb (λ k, k = IBLOCK (i_inum (icache s !!! i)) sb) a (upd_td di a).
Proof.
  intros G I B Hl. apply evolves_write; try done; [apply I| |].
  - rewrite length_put_dinode. apply B.
  - left. destruct (iblock_eq _ _ G _ Hinum) as [_ ?]. lia.
Qed.

(** The inode block is not part of the free map. *)
Lemma upd_avail di a n : geom sb a → avail sb (td_view a) n → avail sb (td_view (upd_td di a)) n.
Proof.
  intros G (X & HX & HF). exists X. split; [done|]. intros k Hk. destruct (HF k Hk) as [Hr Hu].
  split; [done|]. rewrite <- Hu. unfold used. cbn [upd_td td_view td_write]. rewrite put_ne; [done|].
  destruct (bblock_eq _ _ G k Hr) as [_ ?]. destruct (iblock_eq _ _ G _ Hinum) as [_ ?]. lia.
Qed.

(** Writing an inode back changes no file. *)
Lemma upd_file di di' a :
  geom sb a → file_ok sb (td_view a) di' →
  file_ok sb (td_view (upd_td di a)) di' ∧
  content (td_view (upd_td di a)) di' = content (td_view a) di'.
Proof.
  intros G F. destruct (iblock_eq _ _ G _ Hinum) as [_ Hib]. destruct (geom_nums _ _ G) as (? & ? & ?).
  apply (file_agree sb a); [done| |done].
  intros k Hk. cbn [upd_td td_view td_write]. apply put_ne. lia.
Qed.

(** The end of [writei]: the new size, and the inode on disk when it grew. *)
Lemma grow_run d a di off n :
  map_ok sb d a di → budget sb a 0 → dinode_ok di → is_u32 off → 0 <= off →
  let di' := set_size (Z.max (di_size di) off) di in
  (0 < n ∨ off <= di_size di) →
  ∃ d' a', (ip <- the i ;;
     (when (0 <? n) && (di_size (i_di ip) <? off) do
       (upd i (set_di (set_size off)) ;;; iupdate i)) ;;; ret (s32 n)) (at_di s i d di) =
     Ret (s32 n) (at_di s i d' di') ∧ d_ok d' a' ∧
    ((di_size di < off ∧ a' = upd_td di' a) ∨ (off <= di_size di ∧ a' = a ∧ di' = di)).
Proof.
  intros [H G I B W] Hbud D Hoff Ho di' Hn. run (the_at s i d di Hi). cbn [i_di set_di].
  destruct (Z.ltb_spec (di_size di) off) as [Hlt|Hge].
  - destruct (Z.ltb_spec 0 n); [|lia]. cbn [andb]. runs.
    assert (E0 : di' = set_size off di) by (unfold di'; by rewrite Z.max_r by lia).
    destruct (iupdate_run d a di' H G I Hbud) as (d' & E & H').
    exists d', (upd_td di' a). run (upd_at s i d di (set_size off) Hi). rewrite <- E0. run E.
    split; [done|]. split; [done|]. by left.
  - rewrite andb_false_r. runs. exists d, a.
    assert (di' = di) as -> by (unfold di'; rewrite Z.max_l by lia; by destruct di).
    split; [done|]. split; [done|]. by right.
Qed.

Lemma writei_enter d di src off n :
  di_type di ≠ T_DEV → 0 <= off <= di_size di → 0 <= n → off + n <= MAXFILE * BSIZE →
  writei i src off n (at_di s i d di) =
  (off <- writei_loop i src off n (turns n) ;;
   ip <- the i ;;
   (when (0 <? n) && (di_size (i_di ip) <? off) do
     (upd i (set_di (set_size off)) ;;; iupdate i)) ;;;
   ret (s32 n)) (at_di s i d di).
Proof.
  assert (HM : MAXFILE * BSIZE < 2^32) by done.
  intros Ht Ho Hn Hmax. unfold writei at 1. run (the_at s i d di Hi). cbn [i_di set_di].
  destruct (Z.eqb_spec (di_type di) T_DEV); [done|]. rewrite u32_small by lia.
  destruct (Z.ltb_spec (di_size di) off); [lia|]. destruct (Z.ltb_spec (off + n) off); [lia|].
  by destruct (Z.ltb_spec (MAXFILE * BSIZE) (off + n)); [lia|].
Qed.

Lemma writei_run d a di src off :
  map_ok sb d a di → td_held a = ∅ → file_ok sb (td_view a) di → dinode_ok di → di_type di ≠ T_DEV →
  0 <= off <= di_size di → off + Z.of_nat (length src) <= MAXFILE * BSIZE →
  let n := Z.of_nat (length src) in
  budget sb a (1 + nturns off n + icost a di) → avail sb (td_view a) (nturns off n + ineed di) →
  ∃ d' a' di', writei i src off n (at_di s i d di) = Ret n (at_di s i d' di') ∧
    map_ok sb d' a' di' ∧ file_ok sb (td_view a') di' ∧ dinode_ok di' ∧
    (∃ l, di' = DI (di_type di) (di_major di) (di_minor di) (di_nlink di) (Z.max (di_size di) (off + n)) l) ∧
    content (td_view a') di' = overwrite (content (td_view a) di) (Z.to_nat off) src ∧
    evolves sb (λ k, is_blk (td_view a) di k ∨ k = IBLOCK (i_inum (icache s !!! i)) sb) a a' ∧
    (di_size di < off + n → get_dinode (td_view a' (IBLOCK (i_inum (icache s !!! i)) sb))
      (dip_off (i_inum (icache s !!! i))) = di') ∧
    (∀ m, avail sb (td_view a) (m + nturns off n + ineed di) → avail sb (td_view a') (m + ineed di')).
Proof.
  assert (HM : MAXFILE * BSIZE < 2^31) by done.
  intros O Hh F D Ht Ho Hmax n Hbud Hav.
  destruct (writei_loop_run s i sb Hi Hdev Hsb (turns n) d a di src off n O Hh) as (d1 & a1 & di1 & E1 & O1 & R & P & Q);
    try done; try lia.
  { apply turns_enough; lia. }
  { eapply budget_le; [|done]. lia. }
  pose proof O as [H G I B W]. pose proof O1 as [H1 G1 I1 B1 W1]. pose proof (fo_max _ _ _ F) as Hsz.
  destruct (w_di _ _ _ _ _ _ _ _ R) as [l Hl]. destruct (geom_nums _ _ G) as (Hg1 & Hg2 & Hg3).
  assert (Hds : 0 <= dstart sb) by (destruct G; unfold dstart in *; lia).
  assert (D1 : dinode_ok di1).
  { subst di1. apply (imap_dinode_ok sb (td_view a1)); try done; [apply D|apply G]. }
  assert (Hs1 : di_size di1 = di_size di) by (by rewrite Hl).
  destruct (file_ok_wrote sb a di a1 di1 off src G F W1 Ho Hmax R) as [F1 C1]. fold n in F1, C1.
  assert (Hbud1 : budget sb a1 1) by (eapply budget_le; [|by apply (P 1%nat)]; lia).
  destruct (grow_run d1 a1 di1 (off + n) n O1) as (d2 & a2 & E2 & H2 & Hc); try done; try (unfold is_u32; lia).
  { eapply budget_le; [|exact Hbud1]. lia. }
  rewrite Hs1 in E2, Hc. set (di2 := set_size (Z.max (di_size di) (off + n)) di1) in *.
  assert (D2 : dinode_ok di2) by (destruct D1; split; try done; cbn; unfold is_u32; lia).
  assert (Ev1 : evolves sb (λ k, is_blk (td_view a) di k ∨ k = IBLOCK (i_inum (icache s !!! i)) sb) a a1).
  { eapply evolves_weaken; [apply R|]. intros k Hk. by left. }
  assert (HE : writei i src off n (at_di s i d di) = Ret n (at_di s i d2 di2)).
  { rewrite writei_enter by (done || lia). run E1. rewrite E2. by rewrite s32_small by lia. }
  assert (Hdi2 : ∃ l, di2 = DI (di_type di) (di_major di) (di_minor di) (di_nlink di)
    (Z.max (di_size di) (off + n)) l) by (exists l; unfold di2; by rewrite Hl).
  destruct Hc as [[Hg ->]|(Hng & -> & Edi)].
  - pose proof (upd_evolves di2 a1 G1 I1 B1 (di_ok_len _ D2)) as Ev2.
    destruct (upd_file di2 di2 a1 G1 F1) as [F2 C2].
    exists d2, (upd_td di2 a1), di2. split_and!; try done.
    + eapply map_ok_evolves; [exact O1|exact H2|exact Ev2|apply F2].
    + by rewrite C2.
    + eapply evolves_trans; [exact Ev1|exact Ev2|]. intros k Hk. left. by right.
    + intros _. cbn [upd_td td_view td_write]. rewrite put_eq.
      apply get_put_dinode; [done|apply dip_off_range|].
      rewrite (bo_len _ _ B1). apply dip_off_range.
    + intros m Hm. apply upd_avail; [done|]. by apply Q.
  - exists d2, a1, di2. split_and!; try done; [|lia].
    rewrite Edi. split; try apply O1. done.
Qed.

End Update.

(** ** Claims *)

(** A locked inode of a file or directory, inside a transaction. *)
Record open_inode {S} `{!TxDisk S} (s : fstate S) (i : nat) (a : txdisk) : Prop := {
  oi_i : (i < length (icache s))%nat;
  oi_dev : i_dev (icache s !!! i) = ROOTDEV;
  oi_inum : 0 <= i_inum (icache s !!! i) < sb_ninodes (fs_sb s);
  oi_map : map_ok (fs_sb s) (disk s) a (i_di (icache s !!! i));
  oi_held : td_held a = ∅;
  oi_file : file_ok (fs_sb s) (td_view a) (i_di (icache s !!! i));
  oi_di : dinode_ok (i_di (icache s !!! i));
  oi_type : di_type (i_di (icache s !!! i)) ≠ T_DEV }.

Lemma open_inode_at {S} `{!TxDisk S} (s : fstate S) i a d' a' di' :
  open_inode s i a → map_ok (fs_sb s) d' a' di' → td_held a' = ∅ → file_ok (fs_sb s) (td_view a') di' →
  dinode_ok di' → di_type di' ≠ T_DEV → open_inode (at_di s i d' di') i a'.
Proof.
  intros [Hi Hdev Hinum _ _ _ _ _] O' Hh F' D' Ht.
  assert (Hthe : icache (at_di s i d' di') !!! i = set_di (λ _, di') (icache s !!! i))
    by (cbn; by rewrite list_lookup_total_alter_eq).
  split; rewrite ?Hthe; try done. cbn. by rewrite length_alter.
Qed.

Section Claims.
Context {S : Type} `{!TxDisk S} `{!Devsw S}.

(** C11. [readi] of a file or directory returns the bytes of the file from
    [off] on, as many as asked for or as there are, and changes nothing. *)
Theorem readi_reads (s : fstate S) i a off n :
  open_inode s i a → let di := i_di (icache s !!! i) in
  0 <= off <= di_size di → 0 <= n → off + n < 2^32 →
  ∃ d', readi i off n s =
    Ret (Z.min n (di_size di - off),
         take (Z.to_nat n) (drop (Z.to_nat off) (content (td_view a) di))) (set_disk d' s) ∧ d_ok d' a.
Proof.
  intros [Hi Hdev _ O Hh F _ Ht] di Ho Hn Hov.
  destruct (readi_run s i (fs_sb s) Hi Hdev (disk s) a di off n O Hh F Ht Ho Hn Hov) as (d' & E & H').
  exists d'. split; [|done]. replace (at_di s i (disk s) di) with s in E by (symmetry; exact (at_di_id s i Hi)). rewrite E. f_equal.
  - f_equal. rewrite bytes_at_content by lia.
    destruct (decide (n <= di_size di - off)) as [Hle|Hgt]; [by rewrite Z.min_l by lia|].
    rewrite Z.min_r by lia. pose proof (length_content (td_view a) di) as Hl.
    rewrite !take_ge; [done| |]; rewrite length_drop, Hl; lia.
  - destruct s as [d sb l ics p c]. unfold at_di, set_disk. cbn. f_equal.
    pose proof (at_di_id (FState d sb l ics p c) i Hi) as Eid. by injection Eid.
Qed.

(** C10. [writei] within the maximal file size, with room in the log and on the
    disk, returns the number of bytes, and the file is then the old one with
    these bytes replaced (or added at the end); the size and, when it grew, the
    inode on disk say so; blocks in use that are not this file's keep their
    contents, and no block is freed. *)
Theorem writei_writes (s : fstate S) i a src off :
  open_inode s i a → let di := i_di (icache s !!! i) in let n := Z.of_nat (length src) in
  0 <= off <= di_size di → off + n <= MAXFILE * BSIZE →
  budget (fs_sb s) a (1 + nturns off n + icost a di) →
  avail (fs_sb s) (td_view a) (nturns off n + ineed di) →
  ∃ d' a' di', writei i src off n s = Ret n (at_di s i d' di') ∧ open_inode (at_di s i d' di') i a' ∧
    content (td_view a') di' = overwrite (content (td_view a) di) (Z.to_nat off) src ∧
    di_size di' = Z.max (di_size di) (off + n) ∧
    (di_size di < off + n → get_dinode (td_view a' (IBLOCK (i_inum (icache s !!! i)) (fs_sb s)))
      (dip_off (i_inum (icache s !!! i))) = di') ∧
    (∀ k, is_data (fs_sb s) k → used (fs_sb s) (td_view a) k = true →
      used (fs_sb s) (td_view a') k = true ∧
      (¬ is_blk (td_view a) di k → td_view a' k = td_view a k)).
Proof.
  intros P di n Ho Hmax Hbud Hav. pose proof P as [Hi Hdev Hinum O Hh F D Ht]. pose proof (mo_geom _ _ _ _ O) as G.
  destruct (writei_run s i (fs_sb s) Hi Hdev eq_refl Hinum (disk s) a di src off O Hh F D Ht Ho Hmax Hbud Hav)
    as (d' & a' & di' & E & O' & F' & D' & (l & Hl) & C & Ev & Hg & _).
  replace (at_di s i (disk s) di) with s in E by (symmetry; exact (at_di_id s i Hi)). exists d', a', di'. split; [done|].
  split_and!; try done.
  - apply (open_inode_at s i a); try done; [by rewrite (ev_held _ _ _ _ Ev)|by rewrite Hl].
  - by rewrite Hl.
  - intros k Hk Hu. split; [apply (ev_used _ _ _ _ Ev); [by apply (is_data_range _ _ _ G)|done]|].
    intros Hnb. apply (ev_same _ _ _ _ Ev); [by right; right|]. intros [?| ->]; [done|].
    destruct (iblock_eq _ _ G _ Hinum) as [_ ?]. destruct (geom_nums _ _ G) as (? & ? & ?).
    unfold is_data, dstart in Hk. lia.
Qed.

End Claims.
