(* ===== verification/FsTrunc.v ===== *)
(** * Freeing a file: [itrunc] and [iput]

    [itrunc] gives back exactly the blocks of the file; [iput] of the last
    reference to an inode without links frees the inode as well. *)

From S2P Require Import Prelude Memory Spinlock BlockCache Layout TxDisk FsLayout Fs FsBlocks FsMap FsData.

(** From [a0] to [a] the blocks [F] were freed, and nothing else happened. *)
Record freed (sb : superblock) (F : gset Z) (a0 a : txdisk) : Prop := {
  fr_geom : geom sb a;
  fr_ok : blocks_ok sb (td_view a);
  fr_held : td_held a = td_held a0;
  fr_dirty : td_dirty a = ∅;
  fr_cap : td_cap a = td_cap a0;
  fr_logged : td_logged a ⊆ td_logged a0 ∪ bm_blocks sb;
  fr_same : ∀ k, k ∉ bm_blocks sb → td_view a k = td_view a0 k;
  fr_used : ∀ k, 0 <= k < sb_size sb →
    used sb (td_view a) k = used sb (td_view a0) k && bool_decide (k ∉ F) }.

Lemma bm_blocks_range sb a k : geom sb a → k ∈ bm_blocks sb → sb_bmapstart sb <= k < dstart sb.
Proof.
  intros G. destruct (geom_nums _ _ G) as (_ & ? & _). unfold bm_blocks, dstart.
  rewrite elem_of_list_to_set, list_elem_of_fmap. intros (j & -> & Hj%elem_of_seq). lia.
Qed.

Lemma data_not_bm sb a k : geom sb a → is_data sb k → k ∉ bm_blocks sb.
Proof. intros G Hk Hin%(bm_blocks_range _ _ _ G). unfold is_data in Hk. lia. Qed.

Lemma freed_refl sb a : geom sb a → idle sb a → blocks_ok sb (td_view a) → freed sb ∅ a a.
Proof.
  intros G I B. split; try done; [apply I|set_solver|]. intros k Hk.
  by rewrite bool_decide_eq_true_2, andb_true_r by set_solver.
Qed.

Lemma freed_budget sb F a0 a n : freed sb F a0 a → budget sb a0 n → budget sb a n.
Proof.
  intros R. unfold budget. rewrite (fr_cap _ _ _ _ R). intros Hb.
  pose proof (fr_logged _ _ _ _ R). pose proof (subseteq_size (td_logged a ∪ bm_blocks sb)
    (td_logged a0 ∪ bm_blocks sb) ltac:(set_solver)). lia.
Qed.

Lemma freed_one sb F a0 a b :
  geom sb a0 → freed sb F a0 a → is_data sb b → freed sb ({[b]} ∪ F) a0 (free_td sb b a).
Proof.
  intros G0 R Hb. pose proof (fr_geom _ _ _ _ R) as G. pose proof (fr_ok _ _ _ _ R) as B.
  pose proof (is_data_range _ _ _ G Hb) as Hr. pose proof (bblock_in _ _ G b Hr) as Hin.
  destruct (bblock_eq _ _ G b Hr) as [_ Hbb]. destruct (geom_nums _ _ G) as (? & ? & ?).
  assert (Hu : ∀ k, 0 <= k < sb_size sb → used sb (td_view (free_td sb b a)) k =
    if k =? b then false else used sb (td_view a) k) by (intros; by apply used_free).
  split; cbn [free_td td_held td_dirty td_cap td_logged td_write]; try apply R.
  - by apply geom_write.
  - split.
    + intros k. cbn. unfold put. destruct (k =? _); [rewrite length_bm_clear|]; apply B.
    + cbn. rewrite put_ne; [apply B|]. destruct G. lia.
    + intros k Hk. rewrite Hu by (destruct G; lia). destruct (Z.eqb_spec k b) as [->|]; [unfold is_data in Hb; lia|].
      by apply B.
  - rewrite (fr_dirty _ _ _ _ R). set_solver.
  - pose proof (fr_logged _ _ _ _ R). set_solver.
  - intros k Hk. cbn. rewrite put_ne by (by intros ->). by apply R.
  - intros k Hk. rewrite Hu, (fr_used _ _ _ _ R) by done. destruct (Z.eqb_spec k b) as [->|Hne].
    + rewrite bool_decide_eq_false_2 by set_solver. by rewrite andb_false_r.
    + f_equal. apply bool_decide_ext. set_solver.
Qed.

(** Only freed blocks that are not held keep the caller idle. *)
Lemma freed_idle sb F a0 a :
  geom sb a0 → freed sb F a0 a → idle sb a0 →
  (∀ k, k ∈@{gset Z} map_img (td_held a0) → k ∉ F) → idle sb a.
Proof.
  intros G R I HF. split; rewrite ?(fr_held _ _ _ _ R); [apply I| |apply R].
  intros k Hk. destruct (id_used _ _ I k Hk) as [Hd Hu]. split; [done|].
  rewrite (fr_used _ _ _ _ R) by (by apply (is_data_range _ _ _ G)).
  rewrite Hu, bool_decide_eq_true_2; [done|]. by apply HF.
Qed.

(** The nonzero addresses of a list, and the list of an indirect block. *)
Definition addr_set (l : list Z) : gset Z := list_to_set (filter (λ x, x ≠ 0) l).
Definition ind_list (d : block) : list Z := map (λ j, get32 d (4 * Z.of_nat j)) (seq 0 128).

Lemma elem_of_addr_set l x : x ∈ addr_set l ↔ x ≠ 0 ∧ x ∈ l.
Proof. unfold addr_set. rewrite elem_of_list_to_set. by rewrite list_elem_of_filter. Qed.

Lemma addr_set_snoc l n x :
  l !! n = Some x →
  addr_set (take (S n) l) = if x =? 0 then addr_set (take n l) else {[x]} ∪ addr_set (take n l).
Proof.
  intros Hx. rewrite (take_S_r _ _ _ Hx). apply set_eq. intros k.
  rewrite elem_of_addr_set, elem_of_app, list_elem_of_singleton.
  destruct (Z.eqb_spec x 0) as [->|]; rewrite ?elem_of_union, ?elem_of_singleton, elem_of_addr_set;
    intuition congruence.
Qed.

(** The blocks of the file as a set. *)
Definition blk_set (v : Z → block) (di : dinode) : gset Z :=
  addr_set (take 12 (di_addrs di)) ∪
  (if iaddr di NDIRECT =? 0 then ∅
   else addr_set (ind_list (v (iaddr di NDIRECT))) ∪ {[iaddr di NDIRECT]}).

Lemma lookup_addrs di n :
  length (di_addrs di) = 13%nat → (n < 13)%nat → di_addrs di !! n = Some (iaddr di (Z.of_nat n)).
Proof. intros Hl Hn. unfold iaddr. rewrite Nat2Z.id. apply list_lookup_lookup_total_lt. lia. Qed.

Lemma lookup_ind_list v di n :
  iaddr di NDIRECT ≠ 0 → (n < 128)%nat →
  ind_list (v (iaddr di NDIRECT)) !! n = Some (fblk v di (12 + Z.of_nat n)).
Proof.
  intros Hnz Hn. unfold ind_list. rewrite list_lookup_fmap, lookup_seq_lt by done. cbn [fmap option_fmap option_map].
  f_equal. unfold fblk. change MAXFILE with 140. unfold NDIRECT in *.
  destruct (Z.ltb_spec (12 + Z.of_nat n) 12); [lia|]. destruct (Z.eqb_spec (12 + Z.of_nat n) 140); [lia|].
  destruct (Z.eqb_spec (iaddr di 12) 0); [done|]. do 2 f_equal. lia.
Qed.

Lemma elem_of_blk_set sb v di k : imap_ok sb v di → k ∈ blk_set v di ↔ is_blk v di k.
Proof.
  intros W. pose proof (im_len _ _ _ W) as Hl. unfold blk_set. rewrite elem_of_union, elem_of_addr_set. split.
  - intros [[Hnz (n & Hn)%list_elem_of_lookup]|Hin].
    + pose proof (lookup_lt_Some _ _ _ Hn) as Hlt. rewrite length_take in Hlt.
      rewrite lookup_take_lt, lookup_addrs in Hn by lia. injection Hn as Hn.
      exists (Z.of_nat n). change MAXFILE with 140. split; [lia|]. split; [|done]. unfold fblk, NDIRECT.
      by destruct (Z.ltb_spec (Z.of_nat n) 12); [|lia].
    + destruct (Z.eqb_spec (iaddr di NDIRECT) 0) as [|Hi]; [set_solver|].
      rewrite elem_of_union, elem_of_addr_set, elem_of_singleton in Hin.
      destruct Hin as [[Hnz (n & Hn)%list_elem_of_lookup]| ->]; [|exists MAXFILE; by split; [apply maxfile_pos|]].
      pose proof (lookup_lt_Some _ _ _ Hn) as Hlt. unfold ind_list in Hlt. rewrite length_map, length_seq in Hlt.
      rewrite lookup_ind_list in Hn by done. injection Hn as Hn.
      exists (12 + Z.of_nat n). change MAXFILE with 140. split; [lia|done].
  - intros (j & Hj & Hk & Hnz). change MAXFILE with 140 in Hj.
    destruct (decide (j < 12)) as [Hlt|Hge].
    { left. split; [done|]. apply list_elem_of_lookup. exists (Z.to_nat j).
      rewrite lookup_take_lt, lookup_addrs, Z2Nat.id by lia. f_equal. rewrite <- Hk. unfold fblk, NDIRECT.
      by destruct (Z.ltb_spec j 12); [|lia]. }
    right. destruct (Z.eqb_spec (iaddr di NDIRECT) 0) as [Hz|Hi].
    { destruct Hnz. rewrite <- Hk. unfold fblk. rewrite Hz. unfold NDIRECT.
      destruct (Z.ltb_spec j 12); [lia|]. by destruct (j =? MAXFILE). }
    rewrite elem_of_union, elem_of_singleton, elem_of_addr_set.
    destruct (decide (j = 140)) as [->|Hne]; [right; by rewrite <- Hk|left].
    split; [done|]. apply list_elem_of_lookup. exists (Z.to_nat (j - 12)).
    rewrite lookup_ind_list by lia. f_equal. rewrite <- Hk. f_equal. lia.
Qed.

Lemma freed_hold sb F a0 a bp ib :
  freed sb F a0 a → freed sb F (td_hold bp ib a0) (td_hold bp ib a).
Proof.
  intros [[] [] Hh ? ? ? ? ?]. split; try done; [by split..|]. cbn. by rewrite Hh.
Qed.

Lemma freed_drop sb F a0 a bp ib :
  td_held a0 !! bp = None → freed sb F (td_hold bp ib a0) a → freed sb F a0 (td_drop bp a).
Proof.
  intros Hn [[] [] Hh ? ? ? ? ?]. split; try done; [by split..|]. cbn in *. rewrite Hh. by apply delete_insert_id.
Qed.

Lemma idle_hold sb a bp ib :
  idle sb a → td_held a = ∅ → is_data sb ib → used sb (td_view a) ib = true → idle sb (td_hold bp ib a).
Proof.
  intros I Hh Hd Hu. split; cbn [td_held td_hold td_view td_dirty].
  - rewrite Hh, insert_empty, map_size_singleton. done.
  - intros k. rewrite Hh, insert_empty, map_img_singleton_L, elem_of_singleton. by intros ->.
  - apply I.
Qed.

Section Trunc.
Context {S : Type} `{!TxDisk S} `{!Devsw S}.
Context (s : fstate S) (i : nat) (sb : superblock).
Context (Hi : (i < length (icache s))%nat) (Hdev : i_dev (icache s !!! i) = ROOTDEV).
Context (Hsb : fs_sb s = sb).

(** One more block of a set that is being freed. *)
Lemma bfree_more d a0 a di F b :
  d_ok d a → geom sb a0 → idle sb a0 → freed sb F a0 a → budget sb a0 0 →
  (∀ k, k ∈@{gset Z} map_img (td_held a0) → k ∉ F) →
  is_data sb b → used sb (td_view a0) b = true → b ∉ F →
  ∃ d', bfree ROOTDEV b (at_di s i d di) = Ret tt (at_di s i d' di) ∧
    d_ok d' (free_td sb b a) ∧ freed sb ({[b]} ∪ F) a0 (free_td sb b a).
Proof.
  intros H G I R Hbud HF Hb Hu Hnew. pose proof (is_data_range _ _ _ G Hb) as Hr.
  destruct (bfree_run (at_di s i d di) sb a b H (fr_geom _ _ _ _ R) (freed_idle _ _ _ _ G R I HF)
    (fr_ok _ _ _ _ R) (freed_budget _ _ _ _ _ R Hbud) Hr) as (d' & E & H').
  { rewrite (fr_used _ _ _ _ R), Hu by done. by apply bool_decide_eq_true_2. }
  exists d'. split_and!; [|done|by apply freed_one].
  rewrite E. unfold at_di, set_disk, set_sb, set_icache. cbn. by rewrite <- Hsb.
Qed.

(** The inode after the first [n] direct addresses have been cleared. *)
Definition cleared (n : nat) (di : dinode) : dinode :=
  DI (di_type di) (di_major di) (di_minor di) (di_nlink di) (di_size di)
    (replicate n 0 ++ drop n (di_addrs di)).

Lemma cleared_addr n di :
  length (di_addrs di) = 13%nat → (n < 13)%nat → iaddr (cleared n di) (Z.of_nat n) = iaddr di (Z.of_nat n).
Proof.
  intros Hl Hn. unfold iaddr, cleared. cbn. rewrite Nat2Z.id, !list_lookup_total_alt.
  rewrite lookup_app_r, length_replicate, Nat.sub_diag, lookup_drop by (rewrite length_replicate; lia).
  by rewrite Nat.add_0_r.
Qed.

Lemma cleared_S n di :
  length (di_addrs di) = 13%nat → (n < 13)%nat → set_addr n 0 (cleared n di) = cleared (Datatypes.S n) di.
Proof.
  intros Hl Hn. unfold set_addr, cleared. cbn [di_type di_major di_minor di_nlink di_size di_addrs]. f_equal.
  rewrite insert_app_r_alt, length_replicate, Nat.sub_diag by (rewrite length_replicate; lia).
  rewrite (drop_S _ _ _ (lookup_addrs di n Hl Hn)). by rewrite replicate_S_end, <- app_assoc.
Qed.

Lemma cleared_same n di :
  length (di_addrs di) = 13%nat → (n < 13)%nat → iaddr di (Z.of_nat n) = 0 → cleared n di = cleared (Datatypes.S n) di.
Proof.
  intros Hl Hn H0. rewrite <- cleared_S by done. unfold set_addr, cleared.
  cbn [di_type di_major di_minor di_nlink di_size di_addrs]. f_equal.
  rewrite list_insert_id; [done|]. rewrite lookup_app_r, length_replicate, Nat.sub_diag, lookup_drop by (rewrite length_replicate; lia).
  rewrite Nat.add_0_r, lookup_addrs, H0 by done. done.
Qed.

(** A direct block is freed once. *)
Lemma direct_new v di n :
  imap_ok sb v di → (n < 13)%nat → iaddr di (Z.of_nat n) ≠ 0 →
  is_data sb (iaddr di (Z.of_nat n)) ∧ used sb v (iaddr di (Z.of_nat n)) = true ∧
  (iaddr di (Z.of_nat n) ∉ addr_set (take n (di_addrs di))).
Proof.
  intros W Hn Hnz. pose proof (im_len _ _ _ W) as Hl.
  assert (Hidx : ∀ m, (m < 13)%nat → 0 <= addr_idx (Z.of_nat m) <= MAXFILE).
  { intros m Hm. unfold addr_idx, NDIRECT. change MAXFILE with 140. destruct (Z.of_nat m =? 12); lia. }
  pose proof (fblk_addr v di (Z.of_nat n) ltac:(unfold NDIRECT; lia)) as E.
  rewrite <- E in *. destruct (im_data _ _ _ W _ (Hidx n Hn) Hnz) as [Hd Hu]. split_and!; [done..|].
  rewrite elem_of_addr_set. intros [_ (m & Hm)%list_elem_of_lookup].
  pose proof (lookup_lt_Some _ _ _ Hm) as Hlt. rewrite length_take in Hlt.
  rewrite lookup_take_lt, lookup_addrs in Hm by lia. injection Hm as Hm.
  rewrite <- (fblk_addr v di (Z.of_nat m)) in Hm by (unfold NDIRECT; lia).
  assert (addr_idx (Z.of_nat n) = addr_idx (Z.of_nat m)) as Eq.
  { apply (im_inj _ _ _ W); [by apply Hidx|apply Hidx; lia|done|done]. }
  unfold addr_idx, NDIRECT in Eq. change MAXFILE with 140 in Eq.
  destruct (Z.eqb_spec (Z.of_nat n) 12), (Z.eqb_spec (Z.of_nat m) 12); lia.
Qed.

Lemma direct_loop_run d a0 di :
  d_ok d a0 → geom sb a0 → idle sb a0 → blocks_ok sb (td_view a0) → td_held a0 = ∅ →
  budget sb a0 0 → imap_ok sb (td_view a0) di →
  ∃ d' a', for_all (seq 0 (Z.to_nat NDIRECT)) (λ n,
      ip <- the i ;;
      when negb (addr ip (Z.of_nat n) =? 0) do
        (bfree (i_dev ip) (addr ip (Z.of_nat n)) ;;;
         upd i (set_di (set_addr n 0)))) (at_di s i d di) = Ret tt (at_di s i d' (cleared 12 di)) ∧
    d_ok d' a' ∧ freed sb (addr_set (take 12 (di_addrs di))) a0 a'.
Proof.
  intros H G I B Hh Hbud W. pose proof (im_len _ _ _ W) as Hl.
  destruct (for_all_inv (λ xs st, ∃ n d a, xs = seq n (12 - n) ∧ (n <= 12)%nat ∧
      st = at_di s i d (cleared n di) ∧ d_ok d a ∧ freed sb (addr_set (take n (di_addrs di))) a0 a)
    (λ n, ip <- the i ;;
      when negb (addr ip (Z.of_nat n) =? 0) do
        (bfree (i_dev ip) (addr ip (Z.of_nat n)) ;;;
         upd i (set_di (set_addr n 0)))) (seq 0 (Z.to_nat NDIRECT)) (at_di s i d di))
    as (st & E & n & d' & a' & Hxs & Hn & -> & H' & R).
  3: { exists d', a'. assert (n = 12%nat) as -> by (destruct (12 - n)%nat eqn:?; [lia|done]). done. }
  2: { exists 0%nat, d, a0. split_and!; [done|lia| |done|by apply freed_refl].
       f_equal. unfold cleared. rewrite drop_0. by destruct di. }
  clear d H. intros x ys st (n & d & a & Hxs & Hn & -> & H & R).
  destruct (12 - n)%nat as [|m] eqn:Em; [done|]. cbn in Hxs. injection Hxs as -> ->.
  assert (Hn13 : (n < 13)%nat) by lia. pose proof (addr_set_snoc _ _ _ (lookup_addrs di n Hl Hn13)) as HF.
  run (the_at s i d (cleared n di) Hi).
  change (addr (set_di (λ _, cleared n di) (icache s !!! i)) (Z.of_nat n)) with (iaddr (cleared n di) (Z.of_nat n)).
  rewrite cleared_addr by done. cbn [i_dev set_di]. rewrite Hdev.
  destruct (Z.eqb_spec (iaddr di (Z.of_nat n)) 0) as [Hz|Hz]; cbn [negb].
  - eexists. split; [reflexivity|]. exists (Datatypes.S n), d, a. rewrite HF.
    split_and!; [f_equal; lia|lia|by rewrite cleared_same|done|done].
  - destruct (direct_new _ _ _ W Hn13 Hz) as (Hd & Hu & Hnew).
    destruct (bfree_more d a0 a (cleared n di) (addr_set (take n (di_addrs di))) (iaddr di (Z.of_nat n))
      H G I R Hbud) as (d1 & E1 & H1 & R1); try done.
    { intros k. by rewrite Hh, map_img_empty_L. }
    run E1. rewrite upd_at by done. eexists. split; [reflexivity|].
    exists (Datatypes.S n), d1, (free_td sb (iaddr di (Z.of_nat n)) a). rewrite HF.
    split_and!; [f_equal; lia|lia|by rewrite cleared_S|done|done].
Qed.

(** The entries of the indirect block, while it is held. *)
Lemma ind_loop_run d a0 a di bp ib F0 :
  d_ok d a → geom sb a0 → idle sb a0 → freed sb F0 a0 a → budget sb a0 0 →
  td_held a0 = {[bp := ib]} → is_data sb ib → (ib ∉ F0) →
  let l := ind_list (td_view a0 ib) in
  (∀ n x, l !! n = Some x → x ≠ 0 → is_data sb x ∧ used sb (td_view a0) x = true ∧ (x ∉ F0) ∧ x ≠ ib ∧
    (x ∉ addr_set (take n l))) →
  ∃ d' a', for_all (seq 0 (Z.to_nat NINDIRECT)) (λ j,
      d <- data bp ;;
      when negb (get32 d (4 * Z.of_nat j) =? 0) do bfree ROOTDEV (get32 d (4 * Z.of_nat j)))
      (at_di s i d di) = Ret tt (at_di s i d' di) ∧
    d_ok d' a' ∧ freed sb (addr_set l ∪ F0) a0 a'.
Proof.
  intros H G I R Hbud Hh Hib HibF l Hl. set (body := λ j : nat,
    d <- data bp ;; when negb (get32 d (4 * Z.of_nat j) =? 0) do bfree ROOTDEV (get32 d (4 * Z.of_nat j))).
  assert (Hlen : length l = 128%nat) by (unfold l, ind_list; by rewrite length_map, length_seq).
  destruct (for_all_inv (λ xs st, ∃ n d a, xs = seq n (128 - n) ∧ (n <= 128)%nat ∧
      st = at_di s i d di ∧ d_ok d a ∧ freed sb (addr_set (take n l) ∪ F0) a0 a)
    body (seq 0 (Z.to_nat NINDIRECT)) (at_di s i d di))
    as (st & E & n & d' & a' & Hxs & Hn & -> & H' & R').
  3: { exists d', a'. assert (n = 128%nat) as -> by (destruct (128 - n)%nat eqn:?; [lia|done]).
       by rewrite take_ge in R' by lia. }
  2: { exists 0%nat, d, a. split_and!; [done|lia|done|done|]. cbn. by rewrite union_empty_l_L. }
  clear d a H R. intros x ys st (n & d & a & Hxs & Hn & -> & H & R).
  destruct (128 - n)%nat as [|m] eqn:Em; [done|]. cbn in Hxs. injection Hxs as -> ->.
  destruct (lookup_lt_is_Some_2 l n ltac:(lia)) as [x Hx].
  pose proof (addr_set_snoc _ _ _ Hx) as HF.
  assert (Ex : get32 (td_view a0 ib) (4 * Z.of_nat n) = x).
  { unfold l, ind_list in Hx. rewrite list_lookup_fmap, lookup_seq_lt in Hx by lia. by injection Hx. }
  assert (Ed : data bp (at_di s i d di) = Ret (td_view a0 ib) (at_di s i d di)).
  { unfold data, gets. cbn [disk at_di set_disk]. rewrite (d_data_ok d a bp ib H).
    - by rewrite (fr_same _ _ _ _ R) by (by apply (data_not_bm _ _ _ G)).
    - rewrite (fr_held _ _ _ _ R), Hh. apply lookup_singleton_eq. }
  unfold body. run Ed. rewrite Ex. destruct (Z.eqb_spec x 0) as [Hz|Hz]; cbn [negb].
  - eexists. split; [reflexivity|]. exists (Datatypes.S n), d, a. rewrite HF.
    split_and!; [f_equal; lia|lia|done..].
  - destruct (Hl n x Hx Hz) as (Hd & Hu & HnF & Hni & Hnew).
    destruct (bfree_more d a0 a di (addr_set (take n l) ∪ F0) x H G I R Hbud) as (d1 & E1 & H1 & R1); try done.
    + intros k. rewrite Hh, map_img_singleton_L, elem_of_singleton. intros -> [Hin|Hin]%elem_of_union; [|done].
      apply elem_of_addr_set in Hin as [Hk (q & Hq)%list_elem_of_lookup].
      pose proof (lookup_lt_Some _ _ _ Hq) as Hlt. rewrite length_take in Hlt.
      rewrite lookup_take_lt in Hq by lia. by destruct (Hl q ib Hq Hk) as (_ & _ & _ & ? & _).
    + rewrite not_elem_of_union. done.
    + rewrite E1. eexists. split; [reflexivity|].
      exists (Datatypes.S n), d1, (free_td sb x a). rewrite HF, <- (assoc_L (∪)).
      split_and!; [f_equal; lia|lia|done..].
Qed.

(** The entries are other blocks than the direct ones and the indirect one. *)
Lemma ind_new v di n x :
  imap_ok sb v di → iaddr di NDIRECT ≠ 0 → ind_list (v (iaddr di NDIRECT)) !! n = Some x → x ≠ 0 →
  is_data sb x ∧ used sb v x = true ∧ (x ∉ addr_set (take 12 (di_addrs di))) ∧ x ≠ iaddr di NDIRECT ∧
  (x ∉ addr_set (take n (ind_list (v (iaddr di NDIRECT))))).
Proof.
  intros W Hi0 Hn Hnz. pose proof (im_len _ _ _ W) as Hl. set (l := ind_list (v (iaddr di NDIRECT))) in *.
  assert (Hlen : length l = 128%nat) by (unfold l, ind_list; by rewrite length_map, length_seq).
  pose proof (lookup_lt_Some _ _ _ Hn) as Hlt. rewrite Hlen in Hlt.
  assert (E : ∀ q, (q < 128)%nat → l !! q = Some (fblk v di (12 + Z.of_nat q))).
  { intros q Hq. by apply lookup_ind_list. }
  rewrite E in Hn by done. injection Hn as <-.
  assert (Hinj : ∀ k, 0 <= k <= 140 → fblk v di (12 + Z.of_nat n) = fblk v di k → k = 12 + Z.of_nat n).
  { intros k Hk Eq. symmetry. apply (im_inj _ _ _ W); change MAXFILE with 140; done || lia. }
  destruct (im_data _ _ _ W (12 + Z.of_nat n) ltac:(change MAXFILE with 140; lia) Hnz) as [Hd Hu].
  split_and!; [done|done| | |].
  - rewrite elem_of_addr_set. intros [_ (m & Hm)%list_elem_of_lookup].
    pose proof (lookup_lt_Some _ _ _ Hm) as Hltm. rewrite length_take in Hltm.
    rewrite lookup_take_lt, lookup_addrs in Hm by lia. injection Hm as Hm.
    rewrite <- (fblk_addr v di (Z.of_nat m)) in Hm by (unfold NDIRECT; lia). symmetry in Hm.
    apply Hinj in Hm; unfold addr_idx, NDIRECT in *; change MAXFILE with 140 in *; destruct (Z.eqb_spec (Z.of_nat m) 12); lia.
  - intros Eq. change (iaddr di NDIRECT) with (fblk v di 140) in Eq. apply Hinj in Eq; lia.
  - rewrite elem_of_addr_set. intros [_ (m & Hm)%list_elem_of_lookup].
    pose proof (lookup_lt_Some _ _ _ Hm) as Hltm. rewrite length_take in Hltm.
    rewrite lookup_take_lt, E in Hm by lia. injection Hm as Hm. symmetry in Hm. apply Hinj in Hm; lia.
Qed.

Lemma trunc_ind_run d a0 a di :
  d_ok d a → geom sb a0 → idle sb a0 → td_held a0 = ∅ → budget sb a0 0 → imap_ok sb (td_view a0) di →
  freed sb (addr_set (take 12 (di_addrs di))) a0 a → iaddr di NDIRECT ≠ 0 →
  let ib := iaddr di NDIRECT in
  ∃ d' a', (bp <- bread ROOTDEV ib ;;
      for_all (seq 0 (Z.to_nat NINDIRECT)) (λ j,
        d <- data bp ;;
        when negb (get32 d (4 * Z.of_nat j) =? 0) do bfree ROOTDEV (get32 d (4 * Z.of_nat j))) ;;;
      brelse bp ;;;
      bfree ROOTDEV ib ;;;
      upd i (set_di (set_addr (Z.to_nat NDIRECT) 0))) (at_di s i d (cleared 12 di)) =
      Ret tt (at_di s i d' (cleared 13 di)) ∧
    d_ok d' a' ∧ freed sb (blk_set (td_view a0) di) a0 a'.
Proof.
  intros H G I Hh Hbud W R Hnz ib. pose proof (im_len _ _ _ W) as Hl.
  pose proof (fr_geom _ _ _ _ R) as G1. set (di1 := cleared 12 di).
  destruct (direct_new _ _ 12 W ltac:(lia) Hnz) as (Hd & Hu & Hnew).
  change (iaddr di (Z.of_nat 12)) with ib in Hd, Hu, Hnew.
  destruct (d_bread_ok d a ib H) as (bp & d1 & E1 & Hbp & H1).
  { apply (home_block _ _ G1). right. destruct (geom_nums _ _ G) as (? & ? & ?).
    destruct G. unfold is_data, dstart in *. lia. }
  { by rewrite (fr_held _ _ _ _ R), Hh, map_img_empty_L. }
  { rewrite (fr_held _ _ _ _ R), Hh, map_size_empty. unfold MAXHELD. lia. }
  pose proof (idle_hold sb a0 bp ib I Hh Hd Hu) as Ih.
  assert (Gh : geom sb (td_hold bp ib a0)) by (destruct G; by split).
  destruct (ind_loop_run d1 (td_hold bp ib a0) (td_hold bp ib a) di1 bp ib _ H1 Gh Ih (freed_hold _ _ _ _ bp ib R) Hbud)
    as (d2 & a2 & E2 & H2 & R2); try done.
  { cbn. by rewrite Hh, insert_empty. }
  { intros n x. by apply ind_new. }
  destruct (d_brelse_ok d2 a2 bp ib H2) as (d3 & E3 & H3).
  { rewrite (fr_held _ _ _ _ R2). apply lookup_insert_eq. }
  { rewrite (fr_dirty _ _ _ _ R2). apply not_elem_of_empty. }
  apply freed_drop in R2; [|by rewrite Hh].
  destruct (bfree_more d3 a0 (td_drop bp a2) di1 _ ib H3 G I R2 Hbud) as (d4 & E4 & H4 & R4); try done.
  { intros k. by rewrite Hh, map_img_empty_L. }
  { rewrite not_elem_of_union. split; [|done]. rewrite elem_of_addr_set. intros [Hz (q & Hq)%list_elem_of_lookup].
    by destruct (ind_new _ _ _ _ W Hnz Hq Hz) as (_ & _ & _ & ? & _). }
  exists d4, (free_td sb ib (td_drop bp a2)). split_and!; [|done|].
  - assert (B1 : bread ROOTDEV ib (at_di s i d di1) = Ret bp (at_di s i d1 di1))
      by (unfold bread, on_disk; cbn [disk at_di set_disk]; by rewrite E1).
    assert (B3 : brelse bp (at_di s i d2 di1) = Ret tt (at_di s i d3 di1))
      by (unfold brelse, on_disk; cbn [disk at_di set_disk]; by rewrite E3).
    run B1. run E2. run B3. run E4. rewrite upd_at by done.
    change (Z.to_nat NDIRECT) with 12%nat. unfold di1. by rewrite cleared_S by (done || lia).
  - unfold blk_set. fold ib. destruct (Z.eqb_spec ib 0); [done|].
    replace (_ ∪ (_ ∪ {[ib]})) with ({[ib]} ∪ (addr_set (ind_list (td_view a0 ib)) ∪
      addr_set (take 12 (di_addrs di)))) by set_solver. exact R4.
Qed.

Context (Hinum : 0 <= i_inum (icache s !!! i) < sb_ninodes sb).

(** What is left of the inode. *)
Definition empty_di (di : dinode) : dinode :=
  DI (di_type di) (di_major di) (di_minor di) (di_nlink di) 0 (replicate 13 0).

Lemma cleared_empty di : length (di_addrs di) = 13%nat → set_size 0 (cleared 13 di) = empty_di di.
Proof. intros Hl. unfold set_size, cleared, empty_di. cbn. by rewrite drop_ge by lia. Qed.

Lemma itrunc_run d a0 di :
  d_ok d a0 → geom sb a0 → idle sb a0 → blocks_ok sb (td_view a0) → td_held a0 = ∅ →
  budget sb a0 0 → imap_ok sb (td_view a0) di →
  ∃ d' a1, itrunc i (at_di s i d di) = Ret tt (at_di s i d' (empty_di di)) ∧
    freed sb (blk_set (td_view a0) di) a0 a1 ∧ d_ok d' (upd_td s i sb (empty_di di) a1).
Proof.
  intros H G I B Hh Hbud W. pose proof (im_len _ _ _ W) as Hl.
  destruct (direct_loop_run d a0 di H G I B Hh Hbud W) as (d1 & a1 & E1 & H1 & R1).
  assert (Hmid : ∃ d2 a2, (ip <- the i ;;
     when negb (addr ip NDIRECT =? 0) do
     (bp <- bread (i_dev ip) (addr ip NDIRECT) ;;
      for_all (seq 0 (Z.to_nat NINDIRECT)) (λ j,
        d <- data bp ;;
        when negb (get32 d (4 * Z.of_nat j) =? 0) do bfree (i_dev ip) (get32 d (4 * Z.of_nat j))) ;;;
      brelse bp ;;;
      bfree (i_dev ip) (addr ip NDIRECT) ;;;
      upd i (set_di (set_addr (Z.to_nat NDIRECT) 0)))) (at_di s i d1 (cleared 12 di)) =
      Ret tt (at_di s i d2 (cleared 13 di)) ∧ d_ok d2 a2 ∧ freed sb (blk_set (td_view a0) di) a0 a2).
  { rewrite (bind_run _ _ _ _ _ (the_at s i d1 (cleared 12 di) Hi)). cbn [i_dev set_di]. rewrite Hdev.
    change (addr (set_di (λ _, cleared 12 di) (icache s !!! i)) NDIRECT) with (iaddr (cleared 12 di) (Z.of_nat 12)).
    rewrite cleared_addr by (done || lia). change (iaddr di (Z.of_nat 12)) with (iaddr di NDIRECT).
    destruct (Z.eqb_spec (iaddr di NDIRECT) 0) as [Hz|Hz]; cbn [negb].
    - exists d1, a1. rewrite <- (cleared_same 12) by (done || lia). split_and!; [done..|].
      unfold blk_set. rewrite Hz. cbn [Z.eqb]. rewrite union_empty_r_L. exact R1.
    - by apply (trunc_ind_run d1 a0 a1). }
  destruct Hmid as (d2 & a2 & E2 & H2 & R2).
  destruct (iupdate_run s i sb Hi Hdev Hsb Hinum d2 a2 (empty_di di)) as (d3 & E3 & H3); try done.
  { apply R2. }
  { apply (freed_idle _ _ _ _ G R2 I). intros k. by rewrite Hh, map_img_empty_L. }
  { by apply (freed_budget _ _ _ _ _ R2). }
  exists d3, a2. split_and!; [|done|done]. unfold itrunc. run E1.
  unfold bind in E2 |- *. destruct (the i (at_di s i d1 (cleared 12 di))) as [ip st| | |] eqn:Et; try done.
  rewrite E2, upd_at, cleared_empty by done. exact E3.
Qed.

End Trunc.

Section Claims.
Context {S : Type} `{!TxDisk S} `{!Devsw S}.

(** C12. [itrunc] frees exactly the blocks of the file, each once: a block is
    in use afterwards when it was before and is not the file's; the inode, in
    memory and on disk, has size 0 and no addresses; no other block changes. *)
Theorem itrunc_frees (s : fstate S) i a :
  open_inode s i a → budget (fs_sb s) a 0 →
  let di := i_di (icache s !!! i) in let sb := fs_sb s in
  let inum := i_inum (icache s !!! i) in
  ∃ d' a', itrunc i s = Ret tt (at_di s i d' (empty_di di)) ∧ d_ok d' a' ∧
    (∀ k, 0 <= k < sb_size sb →
      used sb (td_view a') k = true ↔ used sb (td_view a) k = true ∧ ¬ is_blk (td_view a) di k) ∧
    get_dinode (td_view a' (IBLOCK inum sb)) (dip_off inum) = empty_di di ∧
    (∀ k, (k ∉ bm_blocks sb) → k ≠ IBLOCK inum sb → td_view a' k = td_view a k).
Proof.
  intros [Hi Hdev Hinum O Hh F D Ht] Hbud di sb inum. pose proof O as [H G I B W].
  destruct (itrunc_run s i sb Hi Hdev eq_refl Hinum (disk s) a di H G I B Hh Hbud W) as (d' & a1 & E & R & H').
  exists d', (upd_td s i sb (empty_di di) a1).
  pose proof (fr_geom _ _ _ _ R) as G1. pose proof (fr_ok _ _ _ _ R) as B1.
  destruct (iblock_eq _ _ G _ Hinum) as [_ Hib]. split_and!.
  - rewrite <- E. f_equal. symmetry. by apply at_di_id.
  - done.
  - intros k Hk. rewrite <- (elem_of_blk_set sb) by done.
    transitivity (used sb (td_view a1) k = true).
    { unfold used. cbn [upd_td td_view td_write]. destruct (bblock_eq _ _ G k Hk) as [_ ?].
      by rewrite put_ne by (unfold sb; lia). }
    rewrite (fr_used _ _ _ _ R) by done. rewrite andb_true_iff, bool_decide_eq_true. done.
  - cbn [upd_td td_view td_write]. rewrite put_eq. apply get_put_dinode; [|apply dip_off_range|].
    + destruct D. split; try done. by apply Forall_replicate.
    + rewrite (bo_len _ _ B1). apply dip_off_range.
  - intros k Hk Hne. cbn [upd_td td_view td_write]. rewrite put_ne by done. by apply R.
Qed.

End Claims.
