(* ===== verification/FsCache.v ===== *)
(** * The inode cache: [iget], [idup], [ilock], [iput]

    The cache as a table of reference counts: at most one entry per inode, and
    each call adds or drops one reference of one inode. [ilock] reads back what
    [iupdate] wrote. *)

From S2P Require Import Prelude Memory Spinlock BlockCache Layout TxDisk FsLayout Fs FsBlocks FsMap FsData.

(** An entry in use for inode [inum] of device [dev]. *)
Definition holds (dev inum : Z) (ip : inode) : bool :=
  (0 <? i_ref ip) && (i_dev ip =? dev) && (i_inum ip =? inum).

(** References to an inode: those of its entry. *)
Definition refs (ics : list inode) (dev inum : Z) : Z :=
  match list_find (λ ip, Is_true (holds dev inum ip)) ics with
  | Some (_, ip) => i_ref ip
  | None => 0
  end.

Record icache_ok (ics : list inode) : Prop := {
  ic_ref : Forall (λ ip, 0 <= i_ref ip < 2^31 - 1) ics;
  ic_uniq : ∀ i j ip jp dev inum, ics !! i = Some ip → ics !! j = Some jp →
    holds dev inum ip = true → holds dev inum jp = true → i = j }.

Lemma iget_scan_spec dev inum ics : ∀ n e,
  match iget_scan dev inum ics n e with
  | inl i => ∃ k ip, i = (n + k)%nat ∧ ics !! k = Some ip ∧ holds dev inum ip = true
  | inr r => (∀ k ip, ics !! k = Some ip → holds dev inum ip = false) ∧
      match e, r with
      | Some e, r => r = Some e
      | None, Some i => ∃ k ip, i = (n + k)%nat ∧ ics !! k = Some ip ∧ i_ref ip = 0
      | None, None => ∀ k ip, ics !! k = Some ip → i_ref ip ≠ 0
      end
  end.
Proof.
  induction ics as [|ip ics IH]; intros n e; cbn [iget_scan].
  { split; [done|]. by destruct e. }
  fold (holds dev inum ip). destruct (holds dev inum ip) eqn:Eh; [by exists 0%nat, ip; rewrite Nat.add_0_r|].
  specialize (IH (S n) (match e with Some e => Some e | None => if i_ref ip =? 0 then Some n else None end)).
  destruct (iget_scan _ _ _ _ _) as [i|r].
  - destruct IH as (k & jp & -> & Hk & Hh). exists (S k), jp. split; [lia|done].
  - destruct IH as [Hno Hr]. split; [by intros [|k] jp Hk; [injection Hk as <-|apply (Hno k)]|].
    destruct e as [e|]; [done|]. destruct (Z.eqb_spec (i_ref ip) 0) as [Hz|Hz].
    + subst r. exists 0%nat, ip. rewrite Nat.add_0_r. done.
    + destruct r as [i|].
      * destruct Hr as (k & jp & -> & Hk & Hj). exists (S k), jp. split; [lia|done].
      * intros [|k] jp Hk; [by injection Hk as <-|by apply (Hr k)].
Qed.

(** An inode has references exactly when it has an entry. *)
Lemma refs_hit ics i ip dev inum :
  icache_ok ics → ics !! i = Some ip → holds dev inum ip = true → refs ics dev inum = i_ref ip.
Proof.
  intros C Hi Hh. unfold refs.
  destruct (list_find _ ics) as [[j jp]|] eqn:E.
  - apply list_find_Some in E as (Hj & Hp & _). apply Is_true_true in Hp.
    assert (i = j) as <- by (by eapply ic_uniq). congruence.
  - apply list_find_None in E. pose proof (Forall_lookup_1 _ _ _ _ E Hi) as Hn. cbn in Hn. by rewrite Hh in Hn.
Qed.

Lemma refs_miss ics dev inum :
  (∀ k ip, ics !! k = Some ip → holds dev inum ip = false) → refs ics dev inum = 0.
Proof.
  intros H. unfold refs. destruct (list_find _ ics) as [[j jp]|] eqn:E; [|done].
  apply list_find_Some in E as (Hj & Hp & _). apply Is_true_true in Hp. by rewrite (H j) in Hp.
Qed.

Lemma refs_dec ics dev inum :
  icache_ok ics → (∃ i ip, ics !! i = Some ip ∧ holds dev inum ip = true) ∨
  (∀ k ip, ics !! k = Some ip → holds dev inum ip = false).
Proof.
  intros _. pose proof (iget_scan_spec dev inum ics 0 None) as H.
  destruct (iget_scan dev inum ics 0 None) as [i|r].
  - destruct H as (k & ip & _ & ? & ?). left. eauto.
  - right. apply H.
Qed.

(** Replacing one entry: [refs] changes for the inode it is for, and the one it
    was for. *)
Lemma insert_ok ics i ip ip' :
  icache_ok ics → ics !! i = Some ip → 0 <= i_ref ip' < 2^31 - 1 →
  (∀ dev inum j jp, holds dev inum ip' = true → j ≠ i → ics !! j = Some jp → holds dev inum jp = false) →
  icache_ok (<[i := ip']> ics).
Proof.
  intros [Hr Hu] Hi Hr' Hnew. split; [by apply Forall_insert|].
  intros j k jp kp dev inum Hj Hk Hhj Hhk. rewrite list_lookup_insert_Some in Hj, Hk.
  destruct Hj as [(<- & <- & _)|[Hne Hj]], Hk as [(<- & <- & _)|[Hne' Hk]].
  - done.
  - rewrite (Hnew dev inum k kp) in Hhk by done. done.
  - rewrite (Hnew dev inum j jp) in Hhj by done. done.
  - by apply (Hu j k jp kp dev inum).
Qed.

Lemma refs_insert_ne ics i ip ip' dev inum :
  icache_ok ics → icache_ok (<[i := ip']> ics) → ics !! i = Some ip →
  holds dev inum ip = false → holds dev inum ip' = false →
  refs (<[i := ip']> ics) dev inum = refs ics dev inum.
Proof.
  intros C C' Hi Hh Hh'. destruct (refs_dec ics dev inum C) as [(j & jp & Hj & Hhj)|Hno].
  - rewrite (refs_hit ics j jp) by done. apply (refs_hit _ j); [done| |done].
    rewrite list_lookup_insert_ne; [done|]. intros ->. congruence.
  - rewrite (refs_miss ics) by done. apply refs_miss. intros k kp Hk.
    apply list_lookup_insert_Some in Hk as [(<- & <- & _)|[_ Hk]]; [done|]. by apply (Hno k).
Qed.

Lemma alter_slot {A} (l : list A) i x f : l !! i = Some x → alter f i l = <[i := f x]> l.
Proof.
  intros Hi. apply list_eq. intros j. destruct (decide (j = i)) as [->|].
  - rewrite list_lookup_alter_eq, Hi, list_lookup_insert_eq; [done|by eapply lookup_lt_Some].
  - by rewrite list_lookup_alter_ne, list_lookup_insert_ne.
Qed.

Section Specs.
Context {S : Type} `{!TxDisk S} `{!Devsw S}.

Definition with_slot (i : nat) (ip : inode) (s : fstate S) : fstate S := set_icache (<[i := ip]>) s.

Lemma upd_run (s : fstate S) i ip f :
  icache s !! i = Some ip → upd i f s = Ret tt (with_slot i (f ip) s).
Proof.
  intros Hi. unfold upd, modify, with_slot, set_icache. do 2 f_equal. by apply alter_slot.
Qed.

Lemma iget_hit (s : fstate S) dev inum i ip :
  icache_lock s = false → icache_ok (icache s) → icache s !! i = Some ip → holds dev inum ip = true →
  iget dev inum s = Ret i (with_slot i (set_ref (i_ref ip + 1) ip) s).
Proof.
  intros Hl C Hi Hh. unfold iget, bind, acquire. cbn [lock_held icache_has_lock]. rewrite Hl.
  cbn [set_lock icache_has_lock gets icache].
  pose proof (iget_scan_spec dev inum (icache s) 0 None) as H.
  unfold gets. cbn [icache]. destruct (iget_scan dev inum (icache s) 0 None) as [k|r].
  - destruct H as (k' & jp & -> & Hk & Hhk). cbn [Nat.add].
    assert (i = k') as <- by (by eapply ic_uniq; [|exact Hi|exact Hk|exact Hh|exact Hhk]).
    assert (jp = ip) as -> by congruence.
    rewrite (upd_run _ i ip) by done. unfold release. cbn.
    pose proof (Forall_lookup_1 _ _ _ _ (ic_ref _ C) Hi) as Hr. cbn in Hr.
    rewrite s32_small by lia. unfold ret, with_slot, set_icache. cbn. by rewrite Hl.
  - destruct H as [Hno _]. by rewrite (Hno i ip) in Hh.
Qed.

Lemma iget_new (s : fstate S) dev inum i ip :
  icache_lock s = false → iget_scan dev inum (icache s) 0 None = inr (Some i) → icache s !! i = Some ip →
  iget dev inum s = Ret i (with_slot i (INode dev inum 1 (i_lock ip) false (i_di ip)) s).
Proof.
  intros Hl E Hi. unfold iget, bind, acquire. cbn [lock_held icache_has_lock]. rewrite Hl.
  cbn [set_lock icache_has_lock]. unfold gets. cbn [icache]. rewrite E.
  rewrite (upd_run _ i ip) by done. unfold release. cbn.
  unfold ret, with_slot, set_icache. cbn. by rewrite Hl.
Qed.

Lemma holds_eq dev inum dev' inum' ip :
  holds dev inum ip = true → holds dev' inum' ip = true → dev' = dev ∧ inum' = inum.
Proof. unfold holds. intros H1 H2. zbool. by subst. Qed.

(** Replacing the entry of an inode by one for the same inode. *)
Lemma refs_same_slot ics i ip ip' dev inum dev' inum' :
  icache_ok ics → ics !! i = Some ip → 0 <= i_ref ip' < 2^31 - 1 →
  holds dev inum ip = true → holds dev inum ip' = true →
  icache_ok (<[i := ip']> ics) ∧
  refs (<[i := ip']> ics) dev' inum' =
    refs ics dev' inum' + (if (dev' =? dev) && (inum' =? inum) then i_ref ip' - i_ref ip else 0).
Proof.
  intros C Hi Hr Hh Hh'.
  assert (C' : icache_ok (<[i := ip']> ics)).
  { apply (insert_ok _ _ ip); try done. intros d n j jp Hd Hne Hj.
    destruct (holds_eq _ _ _ _ _ Hh' Hd) as [-> ->]. destruct (holds dev inum jp) eqn:E; [|done].
    by destruct Hne; apply (ic_uniq _ C j i jp ip dev inum). }
  split; [done|]. pose proof (lookup_lt_Some _ _ _ Hi) as Hlt.
  destruct ((dev' =? dev) && (inum' =? inum)) eqn:Eb.
  - zbool. subst. rewrite (refs_hit ics i ip) by done.
    rewrite (refs_hit _ i ip') by (done || by apply list_lookup_insert_eq). lia.
  - rewrite Z.add_0_r. apply (refs_insert_ne _ _ ip); try done.
    + destruct (holds dev' inum' ip) eqn:E; [|done]. destruct (holds_eq _ _ _ _ _ Hh E) as [-> ->].
      by rewrite !Z.eqb_refl in Eb.
    + destruct (holds dev' inum' ip') eqn:E; [|done]. destruct (holds_eq _ _ _ _ _ Hh' E) as [-> ->].
      by rewrite !Z.eqb_refl in Eb.
Qed.

Lemma unused_holds dev inum ip : i_ref ip = 0 → holds dev inum ip = false.
Proof. intros E. unfold holds. by rewrite E. Qed.

(** Filling an empty entry. *)
Lemma refs_new_slot ics i ip ip' dev inum dev' inum' :
  icache_ok ics → ics !! i = Some ip → i_ref ip = 0 → i_ref ip' = 1 → holds dev inum ip' = true →
  (∀ k kp, ics !! k = Some kp → holds dev inum kp = false) →
  icache_ok (<[i := ip']> ics) ∧
  refs (<[i := ip']> ics) dev' inum' =
    refs ics dev' inum' + (if (dev' =? dev) && (inum' =? inum) then 1 else 0).
Proof.
  intros C Hi H0 H1 Hh' Hno.
  assert (C' : icache_ok (<[i := ip']> ics)).
  { apply (insert_ok _ _ ip); try done; [lia|]. intros d n j jp Hd Hne Hj.
    destruct (holds_eq _ _ _ _ _ Hh' Hd) as [-> ->]. by apply (Hno j). }
  split; [done|]. pose proof (lookup_lt_Some _ _ _ Hi) as Hlt.
  destruct ((dev' =? dev) && (inum' =? inum)) eqn:Eb.
  - zbool. subst. rewrite (refs_miss ics) by done.
    by rewrite (refs_hit _ i ip') by (done || by apply list_lookup_insert_eq).
  - rewrite Z.add_0_r. apply (refs_insert_ne _ _ ip); try done; [by apply unused_holds|].
    destruct (holds dev' inum' ip') eqn:E; [|done]. destruct (holds_eq _ _ _ _ _ Hh' E) as [-> ->].
    by rewrite !Z.eqb_refl in Eb.
Qed.

(** Every entry is in use. *)
Definition icache_full (ics : list inode) : Prop := ∀ i ip, ics !! i = Some ip → i_ref ip ≠ 0.

Lemma iget_cases (s : fstate S) dev inum :
  icache_lock s = false → icache_ok (icache s) → refs (icache s) dev inum < 2^31 - 2 →
  (∃ i ip, iget dev inum s = Ret i (with_slot i ip s) ∧ icache_ok (<[i := ip]> (icache s)) ∧
     holds dev inum ip = true ∧ (i < length (icache s))%nat ∧
     i_lock ip = i_lock (icache s !!! i) ∧ (refs (icache s) dev inum = 0 → i_valid ip = false) ∧
     (∀ dev' inum', refs (<[i := ip]> (icache s)) dev' inum' =
       refs (icache s) dev' inum' + (if (dev' =? dev) && (inum' =? inum) then 1 else 0))) ∧
     (refs (icache s) dev inum ≠ 0 ∨ ¬ icache_full (icache s)) ∨
  (iget dev inum s = Panic "iget: no inodes" ∧ refs (icache s) dev inum = 0 ∧ icache_full (icache s)).
Proof.
  intros Hl C Hmax. pose proof (iget_scan_spec dev inum (icache s) 0 None) as H.
  destruct (iget_scan dev inum (icache s) 0 None) as [k|[k|]] eqn:Es.
  - destruct H as (k' & ip & -> & Hk & Hh). left.
    split; [|left; rewrite (refs_hit _ k' ip) by done; unfold holds in Hh; zbool; lia].
    exists k', (set_ref (i_ref ip + 1) ip).
    pose proof (Forall_lookup_1 _ _ _ _ (ic_ref _ C) Hk) as Hr. cbn in Hr.
    rewrite (refs_hit _ k' ip) in Hmax |- * by done.
    assert (Hh' : holds dev inum (set_ref (i_ref ip + 1) ip) = true).
    { unfold holds in *. cbn. zbool. by rewrite (proj2 (Z.ltb_lt 0 (i_ref ip + 1)) ltac:(lia)), !(proj2 (Z.eqb_eq _ _)). }
    destruct (refs_same_slot _ k' ip (set_ref (i_ref ip + 1) ip) dev inum 0 0 C Hk) as [C' _]; try done; [cbn; lia|].
    split_and!; [by apply iget_hit|done|done|by eapply lookup_lt_Some| | |].
    + cbn. by rewrite (list_lookup_total_correct _ _ _ Hk).
    + intros Hz. unfold holds in Hh. zbool. lia.
    + intros dev' inum'. destruct (refs_same_slot _ k' ip (set_ref (i_ref ip + 1) ip) dev inum dev' inum' C Hk)
        as [_ ->]; try done; [cbn; lia|]. cbn. destruct (_ && _); lia.
  - destruct H as (Hno & k' & ip & -> & Hk & Hz). left. cbn [Nat.add] in Es.
    split; [|right; intros Hfull; by apply (Hfull k' ip Hk)].
    exists k', (INode dev inum 1 (i_lock ip) false (i_di ip)).
    assert (Hh' : holds dev inum (INode dev inum 1 (i_lock ip) false (i_di ip)) = true)
      by (unfold holds; cbn; by rewrite !Z.eqb_refl).
    split_and!; [by apply iget_new| |done|by eapply lookup_lt_Some| |done|].
    + by apply (refs_new_slot _ _ ip _ dev inum 0 0).
    + cbn. by rewrite (list_lookup_total_correct _ _ _ Hk).
    + intros dev' inum'. by apply (refs_new_slot _ _ ip).
  - destruct H as [Hno Hall]. right. split_and!; [|by apply refs_miss|done].
    unfold iget, bind, acquire. cbn [lock_held icache_has_lock]. rewrite Hl.
    cbn [set_lock icache_has_lock]. unfold gets. cbn [icache]. by rewrite Es.
Qed.

(** C14. [iget] keeps at most one entry per inode. It panics exactly when the
    inode has no entry and no entry is empty. Else it returns the entry of the
    inode, making one from an empty entry (to be read from disk by [ilock]) when
    there is none; the inode has one reference more, every other inode as many
    as before, and the disk, the locks and the other entries are as they were. *)
Theorem iget_references (s : fstate S) dev inum :
  icache_lock s = false → icache_ok (icache s) → refs (icache s) dev inum < 2^31 - 2 →
  (iget dev inum s = Panic "iget: no inodes" ↔ refs (icache s) dev inum = 0 ∧ icache_full (icache s)) ∧
  (refs (icache s) dev inum ≠ 0 ∨ ¬ icache_full (icache s) →
   ∃ i ip, iget dev inum s = Ret i (with_slot i ip s) ∧ icache_ok (<[i := ip]> (icache s)) ∧
     holds dev inum ip = true ∧ (i < length (icache s))%nat ∧
     i_lock ip = i_lock (icache s !!! i) ∧ (refs (icache s) dev inum = 0 → i_valid ip = false) ∧
     ∀ dev' inum', refs (<[i := ip]> (icache s)) dev' inum' =
       refs (icache s) dev' inum' + (if (dev' =? dev) && (inum' =? inum) then 1 else 0)).
Proof.
  intros Hl C Hmax. destruct (iget_cases s dev inum Hl C Hmax) as [[H Hc]|(E & H0 & Hf)].
  - split; [|done]. destruct H as (i & ip & E & _). rewrite E. split; [done|]. intros [H0 Hf]. by destruct Hc as [Hc|Hc].
  - split; [done|]. by intros [?|?].
Qed.

(** ** Reading an inode back *)

Lemma with_slot_the (s : fstate S) i ip :
  (i < length (icache s))%nat → the i (with_slot i ip s) = Ret ip (with_slot i ip s).
Proof. intros Hi. unfold the, gets, with_slot. cbn. by rewrite list_lookup_total_insert_eq. Qed.

Lemma with_slot_twice (s : fstate S) i ip ip' : with_slot i ip (with_slot i ip' s) = with_slot i ip s.
Proof. unfold with_slot, set_icache. cbn. by rewrite list_insert_insert_eq. Qed.

Lemma with_slot_upd (s : fstate S) i ip f :
  (i < length (icache s))%nat → upd i f (with_slot i ip s) = Ret tt (with_slot i (f ip) s).
Proof.
  intros Hi. rewrite (upd_run _ i ip), with_slot_twice; [done|]. cbn. by apply list_lookup_insert_eq.
Qed.

Lemma the_run (s : fstate S) i ip : icache s !! i = Some ip → the i s = Ret ip s.
Proof. intros Hi. unfold the, gets. by rewrite (list_lookup_total_correct _ _ _ Hi). Qed.

Lemma lock_inode_run (s : fstate S) i ip :
  icache s !! i = Some ip → sl_locked (i_lock ip) = false →
  lock_inode i s = Ret tt (with_slot i (set_ilock (SLk true (fs_pid s)) ip) s).
Proof.
  intros Hi Hl. unfold lock_inode. run (the_run s i ip Hi). runs. unfold acquiresleep. rewrite Hl.
  by apply upd_run.
Qed.

(** [ilock] of an entry that has not been read. *)
Lemma ilock_read_run (s : fstate S) a i ip :
  icache s !! i = Some ip → 1 <= i_ref ip → sl_locked (i_lock ip) = false → i_valid ip = false →
  i_dev ip = ROOTDEV → 0 <= i_inum ip < sb_ninodes (fs_sb s) →
  d_ok (disk s) a → geom (fs_sb s) a → idle (fs_sb s) a →
  let di := get_dinode (td_view a (IBLOCK (i_inum ip) (fs_sb s))) (dip_off (i_inum ip)) in
  di_type di ≠ 0 →
  ∃ d', ilock (Some i) s = Ret tt (set_disk d' (with_slot i
    (INode ROOTDEV (i_inum ip) (i_ref ip) (SLk true (fs_pid s)) true di) s)) ∧ d_ok d' a.
Proof.
  intros Hi Hr Hl Hv Hd Hn H G I di Ht. pose proof (lookup_lt_Some _ _ _ Hi) as Hlt.
  set (ip1 := set_ilock (SLk true (fs_pid s)) ip). set (s1 := with_slot i ip1 s).
  destruct (read_run s1 a (IBLOCK (i_inum ip) (fs_sb s)) H) as (b & d1 & d2 & E1 & Ed & E2 & H2).
  { by apply (free_ino _ _ G). }
  exists d2. split; [|done]. unfold ilock. run (the_run s i ip Hi).
  destruct (Z.ltb_spec (i_ref ip) 1); [lia|]. run (lock_inode_run s i ip Hi Hl).
  fold ip1 s1. run (with_slot_the s i ip1 Hlt). unfold ip1 at 1. cbn [i_valid set_ilock]. rewrite Hv. cbn [negb].
  runs. change (fs_sb s1) with (fs_sb s). change (i_dev ip1) with (i_dev ip). rewrite Hd.
  change (i_inum ip1) with (i_inum ip). run E1. run Ed.
  change (set_disk d1 s1) with (with_slot i ip1 (set_disk d1 s)).
  run (with_slot_upd (set_disk d1 s) i ip1 (set_di (λ _, di)) Hlt).
  run (E2 (with_slot i (set_di (λ _, di) ip1) (set_disk d1 s)) eq_refl).
  change (set_disk d2 (with_slot i (set_di (λ _, di) ip1) (set_disk d1 s)))
    with (with_slot i (set_di (λ _, di) ip1) (set_disk d2 s)).
  run (with_slot_upd (set_disk d2 s) i (set_di (λ _, di) ip1) (set_valid true) Hlt).
  run (with_slot_the (set_disk d2 s) i (set_valid true (set_di (λ _, di) ip1)) Hlt).
  cbn [i_di set_valid set_di]. destruct (Z.eqb_spec (di_type di) 0); [done|].
  unfold ret. f_equal. unfold ip1, set_valid, set_di, set_ilock. cbn. by rewrite Hd.
Qed.

End Specs.

Section Claims.
Context {S : Type} `{!TxDisk S} `{!Devsw S}.

(** Inodes are written through: after [iupdate] of an inode, [ilock] of
    an unread entry for the same inode, in whatever later state of the caches
    in which the inode's block has not been written again, returns with the
    inode locked and every field (type, device numbers, links, size, all block
    addresses) as [iupdate] found it. *)
Theorem ilock_reads_iupdate (s : fstate S) a i :
  open_inode s i a → budget (fs_sb s) a 0 → di_type (i_di (icache s !!! i)) ≠ 0 →
  let inum := i_inum (icache s !!! i) in
  ∃ d' a', iupdate i s = Ret tt (set_disk d' s) ∧ d_ok d' a' ∧ geom (fs_sb s) a' ∧ idle (fs_sb s) a' ∧
  (∀ (s2 : fstate S) a2 j jp, fs_sb s2 = fs_sb s → d_ok (disk s2) a2 → geom (fs_sb s) a2 → idle (fs_sb s) a2 →
   td_view a2 (IBLOCK inum (fs_sb s)) = td_view a' (IBLOCK inum (fs_sb s)) →
   icache s2 !! j = Some jp → i_dev jp = ROOTDEV → i_inum jp = inum → 1 <= i_ref jp →
   sl_locked (i_lock jp) = false → i_valid jp = false →
   ∃ d2 jp', ilock (Some j) s2 = Ret tt (set_disk d2 (with_slot j jp' s2)) ∧
     i_di jp' = i_di (icache s !!! i) ∧ i_valid jp' = true ∧
     holdingsleep (fs_pid s2) (i_lock jp') = true).
Proof.
  intros [Hi Hdev Hinum O Hh F D Ht] Hbud Hnz inum. pose proof O as [H G I B W].
  set (di := i_di (icache s !!! i)) in *.
  destruct (iupdate_run s i (fs_sb s) Hi Hdev eq_refl Hinum (disk s) a di H G I Hbud) as (d' & E & H').
  exists d', (upd_td s i (fs_sb s) di a).
  split_and!; [|done|by apply geom_write| |].
  2: { eapply evolves_idle; [exact G| |done]. apply upd_evolves; try done. apply D. }
  { replace (at_di s i (disk s) di) with s in E by (symmetry; exact (at_di_id s i Hi)). rewrite E. f_equal.
    pose proof (at_di_id s i Hi) as Eid. unfold at_di in *. destruct s. unfold set_disk, set_icache in *. cbn in *.
    injection Eid as Eid. f_equal. exact Eid. }
  intros s2 a2 j jp Hsb H2 G2 I2 Hv Hj Hjd Hjn Hjr Hjl Hjv.
  assert (Eg : get_dinode (td_view a2 (IBLOCK inum (fs_sb s))) (dip_off inum) = di).
  { rewrite Hv. cbn [upd_td td_view td_write]. rewrite put_eq.
    apply get_put_dinode; [done|apply dip_off_range|]. rewrite (bo_len _ _ B). apply dip_off_range. }
  destruct (ilock_read_run s2 a2 j jp) as (d2 & E2 & _); try done; rewrite ?Hsb, ?Hjn; try done.
  { fold inum. by rewrite Eg. }
  rewrite Hsb, Hjn, Eg in E2. exists d2, (INode ROOTDEV inum (i_ref jp) (SLk true (fs_pid s2)) true di).
  split; [exact E2|]. split; [done|]. split; [done|]. cbn. unfold holdingsleep. cbn. by rewrite Z.eqb_refl.
Qed.

End Claims.
