(* ===== verification/FsDir.v ===== *)
(** * Directories and path names: [dirlookup], [dirlink], [skipelem]

    A directory is its list of entries. [dirlookup] finds the first entry in use
    with the name, [dirlink] puts a new one into the first free place, and the
    two fit together. [skipelem] splits a path into its elements. *)

From S2P Require Import Prelude Memory Spinlock BlockCache Layout TxDisk FsLayout Fs FsBlocks FsMap FsData.

(** ** Names *)

Lemma str_ncmp_same n t : str_ncmp n t (str_ncpy n t) = 0.
Proof.
  revert t. induction n as [|n IH]; intros t; [done|]. cbn [str_ncmp str_ncpy].
  destruct (Z.eqb_spec (ch t) 0) as [E|E]; cbn [negb andb].
  - cbn. rewrite E. done.
  - change (ch (ch t :: str_ncpy n (tail t))) with (ch t). rewrite Z.eqb_refl.
    cbn [andb tail]. apply IH.
Qed.

Lemma length_str_ncpy n t : length (str_ncpy n t) = n.
Proof.
  revert t. induction n as [|n IH]; intros t; [done|]. cbn [str_ncpy].
  destruct (negb (ch t =? 0)); [cbn; by rewrite IH|]. apply length_replicate.
Qed.

(** ** Path elements *)

(** The reference: the non-empty pieces between slashes. *)
Fixpoint pieces (path : list Z) : list (list Z) :=
  match path with
  | [] => [[]]
  | c :: path' =>
      if c =? 47 then [] :: pieces path'
      else match pieces path' with
           | e :: es => (c :: e) :: es
           | [] => [[c]]
           end
  end.
Definition elements_of (path : list Z) : list (list Z) := filter (λ e, e ≠ []) (pieces path).

(** The string in a buffer: up to the first NUL. *)
Fixpoint cstr (s : list Z) : list Z :=
  match s with [] => [] | c :: s' => if c =? 0 then [] else c :: cstr s' end.

Lemma pieces_cons path : ∃ e es, pieces path = e :: es.
Proof.
  induction path as [|c path IH]; [by exists [], []|]. cbn.
  destruct (c =? 47); [by eexists _, _|]. destruct IH as (e & es & ->). by eexists _, _.
Qed.

Lemma skip_ne c path : c ≠ 47 → skip_slashes (c :: path) = c :: path.
Proof. intros Hc. cbn. repeat (case_match; try done). Qed.

Lemma elements_skip path : elements_of (skip_slashes path) = elements_of path.
Proof.
  induction path as [|c path IH]; [done|]. destruct (decide (c = 47)) as [->|Hc]; [|by rewrite skip_ne].
  change (skip_slashes (47 :: path)) with (skip_slashes path). rewrite IH. unfold elements_of.
  change (pieces (47 :: path)) with ([] :: pieces path). by rewrite filter_cons_False by (intros H; by apply H).
Qed.

Lemma skip_head path : ch (skip_slashes path) ≠ 47.
Proof.
  induction path as [|c path IH]; [done|]. destruct (decide (c = 47)) as [->|Hc]; [exact IH|].
  by rewrite skip_ne.
Qed.

Lemma skip_length path : (length (skip_slashes path) <= length path)%nat.
Proof.
  induction path as [|c path IH]; [done|]. destruct (decide (c = 47)) as [->|Hc]; [cbn; lia|].
  by rewrite skip_ne.
Qed.

(** The first element of a path that does not start with a slash. *)
Lemma take_elem_pieces path e rest :
  0 ∉ path → take_elem path = (e, rest) →
  path = e ++ rest ∧ (47 ∉ e) ∧ (0 ∉ e) ∧
  pieces path = e :: match rest with [] => [] | _ :: r => pieces r end ∧
  (rest = [] ∨ ∃ r, rest = 47 :: r).
Proof.
  revert e rest. induction path as [|c path IH]; intros e rest Hz E; cbn in E.
  { injection E as <- <-. split_and!; [done|apply not_elem_of_nil|apply not_elem_of_nil|done|by left]. }
  apply not_elem_of_cons in Hz as [Hc Hz]. destruct (Z.eqb_spec c 0); [congruence|].
  destruct (Z.eqb_spec c 47) as [->|Hne]; cbn in E.
  { injection E as <- <-. split_and!; [done|apply not_elem_of_nil|apply not_elem_of_nil|done|right; eauto]. }
  destruct (take_elem path) as [e' rest'] eqn:E'. injection E as <- <-.
  destruct (IH e' rest' Hz eq_refl) as (-> & H1 & H2 & H3 & H4).
  split_and!; [done|by apply not_elem_of_cons|by apply not_elem_of_cons| |done].
  cbn. destruct (Z.eqb_spec c 47); [done|]. by rewrite H3.
Qed.

Lemma cstr_app s t : 0 ∉ s → cstr (s ++ t) = s ++ cstr t.
Proof.
  induction s as [|c s IH]; intros Hz; [done|]. apply not_elem_of_cons in Hz as [Hc Hz].
  cbn. destruct (Z.eqb_spec c 0); [congruence|]. by rewrite IH.
Qed.

(** What [skipelem] leaves in the buffer. *)
Lemma splice_app d o bs :
  (o + length bs <= length d)%nat →
  splice d (Z.of_nat o) bs = take o d ++ bs ++ drop (o + length bs) d.
Proof.
  intros Hl. apply list_eq. intros i. unfold splice. rewrite list_lookup_imap.
  destruct (decide (i < o)%nat) as [H1|H1].
  { rewrite lookup_app_l by (rewrite length_take; lia). rewrite lookup_take_lt by done.
    destruct (d !! i); [|done]. cbn. f_equal. zcases. }
  rewrite lookup_app_r by (rewrite length_take; lia). rewrite length_take, Nat.min_l by lia.
  destruct (decide (i < o + length bs)%nat) as [H2|H2].
  - rewrite lookup_app_l by lia. destruct (lookup_lt_is_Some_2 d i ltac:(lia)) as [x ->]. cbn.
    replace (_ && _) with true by zcases. unfold gb. destruct (Z.ltb_spec (Z.of_nat i - Z.of_nat o) 0); [lia|].
    replace (Z.to_nat (Z.of_nat i - Z.of_nat o)) with (i - o)%nat by lia.
    symmetry. apply list_lookup_lookup_total_lt. lia.
  - rewrite lookup_app_r, lookup_drop by lia. replace (o + length bs + (i - o - length bs))%nat with i by lia.
    destruct (d !! i); [|done]. cbn. f_equal. zcases.
Qed.

Definition fill_name (name e : list Z) : list Z :=
  if DIRSIZ <=? Z.of_nat (length e) then splice name 0 (take (Z.to_nat DIRSIZ) e)
  else splice (splice name 0 e) (Z.of_nat (length e)) [0].

Lemma fill_name_spec name e :
  length name = 14%nat → 0 ∉ e → cstr (fill_name name e) = take 14 e ∧ length (fill_name name e) = 14%nat.
Proof.
  intros Hn Hz. unfold fill_name. change DIRSIZ with 14. change (Z.to_nat 14) with 14%nat.
  split; [|by destruct (14 <=? _); rewrite ?length_splice].
  destruct (Z.leb_spec 14 (Z.of_nat (length e))) as [Hl|Hl].
  - assert (Ht : length (take 14 e) = 14%nat) by (rewrite length_take; lia).
    rewrite (splice_app name 0) by lia. rewrite Ht, take_0, drop_ge by lia. cbn [app].
    rewrite cstr_app; [apply app_nil_r|]. intros Hin. by apply Hz, (subseteq_take 14 e).
  - rewrite (take_ge e) by lia.
    replace (splice (splice name 0 e) (Z.of_nat (length e)) [0]) with (splice name 0 (e ++ [0])).
    + rewrite (splice_app name 0) by (rewrite length_app; cbn; lia). rewrite take_0. cbn [app].
      rewrite <- app_assoc, cstr_app by done. cbn. apply app_nil_r.
    + symmetry. apply (splice_splice name 0); [lia|]. cbn. lia.
Qed.

Lemma elements_nil q : 0 ∉ q → ch q ≠ 47 → elements_of q = [] → q = [].
Proof.
  intros Hz Hc He. destruct (take_elem q) as [e rest] eqn:E.
  destruct (take_elem_pieces _ _ _ Hz E) as (Hq & H1 & H2 & H3 & H4). unfold elements_of in He.
  rewrite H3 in He. destruct e as [|c e].
  - cbn in Hq. subst q. destruct H4 as [->|[r ->]]; [done|]. by destruct Hc.
  - by rewrite filter_cons_True in He.
Qed.

Lemma skip_sub path : 0 ∉ path → 0 ∉ skip_slashes path.
Proof.
  induction path as [|c path IH]; intros Hz; [done|].
  destruct (decide (c = 47)) as [->|Hc]; [|by rewrite skip_ne].
  apply not_elem_of_cons in Hz as [_ Hz]. by apply IH.
Qed.

(** [skipelem] splits a path into its elements, as the reference that
    cuts the path at the slashes and drops the empty pieces: on a path with no
    elements it returns null; otherwise the buffer holds the first element
    (its first [DIRSIZ] bytes), and what is returned starts with no slash, has
    the remaining elements, is empty exactly when there are none, and is
    shorter than the path. *)
Theorem skipelem_splits path name :
  0 ∉ path → length name = 14%nat →
  match elements_of path with
  | [] => skipelem path name = None
  | e :: es => ∃ path' name', skipelem path name = Some (path', name') ∧
      cstr name' = take 14 e ∧ length name' = 14%nat ∧
      elements_of path' = es ∧ ch path' ≠ 47 ∧ (es = [] ↔ path' = []) ∧ (0 ∉ path') ∧
      (length path' < length path)%nat
  end.
Proof.
  intros Hz Hn. rewrite <- elements_skip. pose proof (skip_head path) as Hh.
  pose proof (skip_length path) as Hl. apply skip_sub in Hz. set (p := skip_slashes path) in *.
  assert (Es : skipelem path name = if ch p =? 0 then None else
    let '(s, r) := take_elem p in Some (skip_slashes r, fill_name name s)) by done.
  rewrite Es. destruct p as [|c p']; [done|]. cbn [ch] in Hh |- *. destruct (Z.eqb_spec c 0) as [->|Hc0].
  { destruct Hz. by left. }
  destruct (take_elem (c :: p')) as [e rest] eqn:E.
  destruct (take_elem_pieces _ _ _ Hz E) as (Hq & H1 & H2 & H3 & H4).
  assert (He : e ≠ []).
  { intros ->. cbn in Hq. destruct H4 as [->|[r ->]]; [done|]. by injection Hq as -> _. }
  assert (Hel : elements_of (c :: p') = e :: elements_of (skip_slashes rest)).
  { unfold elements_of at 1. rewrite H3, filter_cons_True by done. f_equal.
    destruct H4 as [->|[r ->]]; [done|]. change (skip_slashes (47 :: r)) with (skip_slashes r).
    by rewrite elements_skip. }
  rewrite Hel. destruct (fill_name_spec name e Hn H2) as [Hf1 Hf2].
  assert (Hzr : 0 ∉ skip_slashes rest).
  { apply skip_sub. intros Hin. apply Hz. rewrite Hq. by apply elem_of_app; right. }
  exists (skip_slashes rest), (fill_name name e). split_and!; try done.
  - apply skip_head.
  - split; [by apply elements_nil, skip_head|]. by intros ->.
  - pose proof (skip_length rest). rewrite Hq, length_app in Hl. destruct e; [done|]. cbn in Hl. lia.
Qed.

(** ** Directories *)

Definition ent (v : Z → block) (di : dinode) (k : nat) : dirent :=
  get_dirent (bytes_at v di (16 * Z.of_nat k) 16).

(** The entry [dirlookup] looks for. *)
Definition hit (name : list Z) (de : dirent) : bool :=
  negb (de_inum de =? 0) && (namecmp name (de_name de) =? 0).

Lemma lookup_overwrite bs off src x :
  (off <= length bs)%nat →
  overwrite bs off src !! x =
    if decide (off <= x < off + length src)%nat then src !! (x - off)%nat else bs !! x.
Proof.
  intros Ho. unfold overwrite. case_decide as Hx.
  - rewrite lookup_app_r by (rewrite length_take; lia). rewrite length_take, Nat.min_l by lia.
    by rewrite lookup_app_l by lia.
  - destruct (decide (x < off)%nat).
    + rewrite lookup_app_l by (rewrite length_take; lia). by rewrite lookup_take_lt.
    + rewrite lookup_app_r by (rewrite length_take; lia). rewrite length_take, Nat.min_l by lia.
      rewrite lookup_app_r, lookup_drop by lia. f_equal. lia.
Qed.

(** Entry by entry, writing one entry at place [j]. *)
Lemma ent_overwrite v di v' di' j de k :
  (16 * j <= Z.to_nat (di_size di))%nat → 0 <= di_size di → length (de_name de) = 14%nat → 0 <= de_inum de < 2^16 →
  content v' di' = overwrite (content v di) (16 * j) (dirent_bytes de) → 0 <= di_size di' →
  (16 * k + 16 <= Z.to_nat (di_size di'))%nat → (k ≠ j → 16 * k + 16 <= Z.to_nat (di_size di))%nat →
  ent v' di' k = if decide (k = j) then de else ent v di k.
Proof.
  intros Hj Hs Hn Hi C Hs' Hk Hk'. pose proof (length_dirent_bytes de Hn) as Hl. unfold ent.
  rewrite bytes_at_content, C by lia. case_decide as E.
  - subst k. etrans; [|by apply (get_dirent_bytes de)]. f_equal. apply list_eq. intros x.
    destruct (decide (x < 16)%nat) as [Hx|Hx].
    + rewrite lookup_take_lt, lookup_drop, lookup_overwrite by (rewrite ?length_content; lia).
      rewrite decide_True by lia. f_equal. lia.
    + rewrite lookup_take_ge by lia. symmetry. apply lookup_ge_None. lia.
  - rewrite bytes_at_content by (specialize (Hk' E); lia). f_equal. apply list_eq. intros x.
    destruct (decide (x < 16)%nat) as [Hx|Hx]; [|by rewrite !lookup_take_ge by lia].
    rewrite !lookup_take_lt, !lookup_drop, lookup_overwrite by (rewrite ?length_content; lia).
    rewrite decide_False by lia. done.
Qed.

Section Dir.
Context {S : Type} `{!TxDisk S} `{!Devsw S}.
Context (s : fstate S) (i : nat) (sb : superblock) (a : txdisk) (di : dinode) (n : nat).
Context (Hi : (i < length (icache s))%nat) (Hdev : i_dev (icache s !!! i) = ROOTDEV).
Context (Hh : td_held a = ∅) (F : file_ok sb (td_view a) di) (Ht : di_type di = T_DIR).
Context (Hn : di_size di = 16 * Z.of_nat n).

Abbreviation e k := (ent (td_view a) di k).

(** Reading one entry. *)
Lemma read_ent d k :
  map_ok sb d a di → (k < n)%nat →
  ∃ d' bs, readi i (16 * Z.of_nat k) DESZ (at_di s i d di) = Ret (DESZ, bs) (at_di s i d' di) ∧
    get_dirent bs = e k ∧ d_ok d' a.
Proof.
  intros O Hk. pose proof (fo_max _ _ _ F) as Hm. change (MAXFILE * BSIZE) with 71680 in Hm.
  destruct (readi_run s i sb Hi Hdev d a di (16 * Z.of_nat k) DESZ O Hh F) as (d' & E & H');
    unfold DESZ in *; try lia; [by rewrite Ht|].
  rewrite Z.min_l in E by lia. by eexists d', _.
Qed.

Lemma map_ok_disk d d' : map_ok sb d a di → d_ok d' a → map_ok sb d' a di.
Proof. intros [] H. by split. Qed.

Lemma dirlookup_loop_run name fuel : ∀ d k,
  map_ok sb d a di → (k <= n)%nat → (n - k < fuel)%nat →
  (∃ j d', (k <= j < n)%nat ∧ hit name (e j) = true ∧ (∀ m, (k <= m < j)%nat → hit name (e m) = false) ∧
     d_ok d' a ∧ dirlookup_loop i name (16 * Z.of_nat k) fuel (at_di s i d di) =
       (ip <- iget ROOTDEV (de_inum (e j)) ;; ret (Some (ip, 16 * Z.of_nat j))) (at_di s i d' di)) ∨
  ((∀ m, (k <= m < n)%nat → hit name (e m) = false) ∧
   ∃ d', dirlookup_loop i name (16 * Z.of_nat k) fuel (at_di s i d di) = Ret None (at_di s i d' di) ∧ d_ok d' a).
Proof.
  pose proof (fo_max _ _ _ F) as Hm. change (MAXFILE * BSIZE) with 71680 in Hm.
  induction fuel as [|fuel IH]; intros d k O Hk Hf; [lia|]. cbn [dirlookup_loop].
  rewrite (bind_run _ _ _ _ _ (the_at s i d di Hi)). cbn [i_di i_dev set_di]. rewrite Hdev.
  destruct (Z.ltb_spec (16 * Z.of_nat k) (di_size di)) as [Hlt|Hge]; cbn [negb].
  2: { right. split; [intros m ?; lia|]. exists d. split; [done|apply O]. }
  destruct (read_ent d k O ltac:(lia)) as (d1 & bs & E1 & Eb & H1).
  rewrite (bind_run _ _ _ _ _ E1). cbv beta iota. rewrite Z.eqb_refl. cbn [negb]. rewrite Eb.
  destruct (IH d1 (Datatypes.S k) (map_ok_disk _ _ O H1) ltac:(lia) ltac:(lia)) as [Hyes|Hno].
  all: replace (16 * Z.of_nat (Datatypes.S k)) with (u32 (16 * Z.of_nat k + DESZ)) in *
         by (rewrite u32_small; unfold DESZ; lia).
  all: destruct (hit name (e k)) eqn:Eh; unfold hit in Eh.
  1, 3: apply andb_true_iff in Eh as [Eh1 Eh2]; apply negb_true_iff in Eh1; rewrite Eh1, Eh2;
    left; exists k, d1; split_and!; try done; try lia;
    unfold hit; by rewrite Eh1, Eh2.
  - left. destruct Hyes as (j & d' & Hj & Hjh & Hlow & H' & E'). exists j, d'. split_and!; try done; try lia.
    + intros m Hmk. destruct (decide (m = k)) as [->|]; [exact Eh|]. apply Hlow. lia.
    + rewrite <- E'. destruct (de_inum (e k) =? 0); [done|]. cbn [negb andb] in Eh. by rewrite Eh.
  - right. destruct Hno as (Hlow & d' & E' & H'). split.
    + intros m Hmk. destruct (decide (m = k)) as [->|]; [exact Eh|]. apply Hlow. lia.
    + exists d'. split; [|done]. rewrite <- E'. destruct (de_inum (e k) =? 0); [done|]. cbn [negb andb] in Eh. by rewrite Eh.
Qed.

Lemma dirlink_loop_run fuel : ∀ d k,
  map_ok sb d a di → (k <= n)%nat → (n - k < fuel)%nat →
  ∃ j d', (k <= j <= n)%nat ∧ (∀ m, (k <= m < j)%nat → de_inum (e m) ≠ 0) ∧ ((j < n)%nat → de_inum (e j) = 0) ∧
    dirlink_loop i (16 * Z.of_nat k) fuel (at_di s i d di) = Ret (16 * Z.of_nat j) (at_di s i d' di) ∧ d_ok d' a.
Proof.
  pose proof (fo_max _ _ _ F) as Hm. change (MAXFILE * BSIZE) with 71680 in Hm.
  induction fuel as [|fuel IH]; intros d k O Hk Hf; [lia|]. cbn [dirlink_loop].
  rewrite (bind_run _ _ _ _ _ (the_at s i d di Hi)). cbn [i_di set_di].
  destruct (Z.ltb_spec (16 * Z.of_nat k) (di_size di)) as [Hlt|Hge]; cbn [negb].
  2: { exists k, d. split_and!; try lia; [done|apply O]. }
  destruct (read_ent d k O ltac:(lia)) as (d1 & bs & E1 & Eb & H1).
  rewrite (bind_run _ _ _ _ _ E1). cbv beta iota. rewrite Z.eqb_refl. cbn [negb]. rewrite Eb.
  destruct (Z.eqb_spec (de_inum (e k)) 0) as [Hz|Hz].
  { exists k, d1. split_and!; try lia; done. }
  destruct (IH d1 (Datatypes.S k) (map_ok_disk _ _ O H1) ltac:(lia) ltac:(lia)) as (j & d' & Hj & Hlow & Hfree & E' & H').
  replace (16 * Z.of_nat (Datatypes.S k)) with (u32 (16 * Z.of_nat k + DESZ)) in E'
    by (rewrite u32_small; unfold DESZ; lia).
  exists j, d'. split_and!; try done; try lia.
  intros m Hmk. destruct (decide (m = k)) as [->|]; [done|]. apply Hlow. lia.
Qed.

End Dir.

Lemma entries_enough n k : (n - k < entries (16 * Z.of_nat n))%nat.
Proof. unfold entries, DESZ. rewrite Z.mul_comm, Z.div_mul by lia. lia. Qed.

Section Claims.
Context {S : Type} `{!TxDisk S} `{!Devsw S}.

(** What [dirlookup] does, on a directory whose entries are known. *)
Lemma dirlookup_run (s : fstate S) i a name n :
  open_inode s i a → let di := i_di (icache s !!! i) in let e := ent (td_view a) di in
  di_type di = T_DIR → di_size di = 16 * Z.of_nat n →
  (∃ j d', (j < n)%nat ∧ hit name (e j) = true ∧ (∀ m, (m < j)%nat → hit name (e m) = false) ∧ d_ok d' a ∧
     dirlookup i name s =
       (ip <- iget ROOTDEV (de_inum (e j)) ;; ret (Some (ip, 16 * Z.of_nat j))) (at_di s i d' di)) ∨
  ((∀ m, (m < n)%nat → hit name (e m) = false) ∧
   ∃ d', dirlookup i name s = Ret None (at_di s i d' di) ∧ d_ok d' a).
Proof.
  intros P di e Ht Hn. pose proof P as [Hi Hdev _ O Hh F _ _]. fold di in O, F.
  assert (E : dirlookup i name s = dirlookup_loop i name 0 (entries (di_size di)) s).
  { unfold dirlookup. rewrite <- (at_di_id s i Hi) at 1. fold di.
    rewrite (bind_run _ _ _ _ _ (the_at s i (disk s) di Hi)). cbn [i_di set_di]. rewrite Ht.
    change (negb (T_DIR =? T_DIR)) with false. cbn iota. unfold di. by rewrite (at_di_id s i Hi). }
  rewrite E. clear E. rewrite Hn.
  destruct (dirlookup_loop_run s i (fs_sb s) a di n Hi Hdev Hh F Ht Hn name (entries (16 * Z.of_nat n)) (disk s) 0 O)
    as [(j & d' & Hj & Hhit & Hlow & H' & E)|(Hlow & d' & E & H')]; [lia|apply entries_enough| |].
  all: replace (at_di s i (disk s) di) with s in E by (symmetry; exact (at_di_id s i Hi)).
  - left. exists j, d'. split_and!; try done; [lia|]. intros m ?. apply Hlow. lia.
  - right. split; [|by exists d']. intros m ?. apply Hlow. lia.
Qed.

(** What [dirlink] does with a name the directory does not have. *)
Lemma dirlink_run (s : fstate S) i a name inum n :
  open_inode s i a → let di := i_di (icache s !!! i) in let e := ent (td_view a) di in
  di_type di = T_DIR → di_size di = 16 * Z.of_nat n → (n < 4480)%nat →
  (∀ k, (k < n)%nat → hit name (e k) = false) → 0 < inum < 2^16 →
  budget (fs_sb s) a (2 + icost a di) → avail (fs_sb s) (td_view a) (1 + ineed di) →
  ∃ d' a' di' j, dirlink i name inum s = Ret 0 (at_di s i d' di') ∧ open_inode (at_di s i d' di') i a' ∧
    (j <= n)%nat ∧ di_size di' = Z.max (di_size di) (16 * Z.of_nat j + 16) ∧
    (∀ k, (k < n ∨ k = j)%nat → ent (td_view a') di' k =
      if decide (k = j) then DE inum (str_ncpy 14 name) else e k) ∧
    (∀ k, (k < j)%nat → de_inum (e k) ≠ 0) ∧ ((j < n)%nat → de_inum (e j) = 0) ∧ di_type di' = T_DIR.
Proof.
  intros P di e Ht Hn Hn4 Hno Hinum Hb Hav. pose proof P as [Hi Hdev Hin O Hh F D _]. fold di in O, F, D.
  destruct (dirlookup_run s i a name n P Ht Hn) as [(j & d1 & Hj & Hhit & _)|(_ & d1 & E1 & H1)].
  { fold di in Hhit. by rewrite Hno in Hhit. }
  destruct (dirlink_loop_run s i (fs_sb s) a di n Hi Hdev Hh F Ht Hn (entries (16 * Z.of_nat n)) d1 0%nat)
    as (j & d2 & Hj & Hlow & Hfree & E2 & H2); [by apply (map_ok_disk _ _ _ (disk s))|lia|apply entries_enough|].
  set (de := DE inum (str_ncpy 14 name)).
  assert (Hde : length (dirent_bytes de) = 16%nat) by (apply length_dirent_bytes, length_str_ncpy).
  assert (Hnt : nturns (16 * Z.of_nat j) 16 = 1%nat).
  { unfold nturns, BSIZE. cbn [Z.ltb Z.compare]. Z.div_mod_to_equations. lia. }
  destruct (writei_run s i (fs_sb s) Hi Hdev eq_refl Hin d2 a di (dirent_bytes de) (16 * Z.of_nat j))
    as (d3 & a3 & di3 & E3 & O3 & F3 & D3 & (l & Hl) & C3 & Ev & _); rewrite ?Hde; try done.
  { by apply (map_ok_disk _ _ _ (disk s)). }
  { by rewrite Ht. }
  { lia. }
  { change (MAXFILE * BSIZE) with 71680. lia. }
  { change (Z.of_nat 16) with 16. rewrite Hnt. exact Hb. }
  { change (Z.of_nat 16) with 16. by rewrite Hnt. }
  rewrite Hde in E3, Hl. change (Z.of_nat 16) with 16 in E3, Hl.
  assert (Hs3 : di_size di3 = Z.max (di_size di) (16 * Z.of_nat j + 16)) by (by rewrite Hl).
  assert (P3 : open_inode (at_di s i d3 di3) i a3).
  { apply (open_inode_at s i a); try done; [by rewrite (ev_held _ _ _ _ Ev)|by rewrite Hl; cbn; rewrite Ht]. }
  assert (He : ∀ k, (k < n ∨ k = j)%nat → ent (td_view a3) di3 k = if decide (k = j) then de else e k).
  { intros k Hk. replace (Z.to_nat (16 * Z.of_nat j)) with (16 * j)%nat in C3 by lia.
    apply (ent_overwrite _ _ _ _ _ _ _) with (5 := C3); try lia; [apply length_str_ncpy|cbn; lia]. }
  exists d3, a3, di3, j. split_and!; try done; [|lia|intros k ?; apply Hlow; lia|by rewrite Hl].
  unfold dirlink. rewrite (bind_run _ _ _ _ _ E1). cbv beta iota.
  rewrite (bind_run _ _ _ _ _ (the_at s i d1 di Hi)). cbn [i_di set_di]. rewrite Hn.
  rewrite (bind_run _ _ _ _ _ E2). unfold u16. rewrite Z.mod_small by lia.
  rewrite (bind_run _ _ _ _ _ E3). done.
Qed.

(** C13. Linking a name that the directory does not have and looking it up:
    [dirlink] returns 0 and puts the entry into the first free place (or at the
    end), all other entries stay, and [dirlookup] of the name then finds the
    inode linked at the place of that entry. *)
Theorem dirlink_then_lookup (s : fstate S) i a name inum n :
  open_inode s i a → let di := i_di (icache s !!! i) in let e := ent (td_view a) di in
  di_type di = T_DIR → di_size di = 16 * Z.of_nat n → (n < 4480)%nat →
  (∀ k, (k < n)%nat → hit name (e k) = false) → 0 < inum < 2^16 →
  budget (fs_sb s) a (2 + icost a di) → avail (fs_sb s) (td_view a) (1 + ineed di) →
  ∃ d' a' di' j, dirlink i name inum s = Ret 0 (at_di s i d' di') ∧ open_inode (at_di s i d' di') i a' ∧
    (j <= n)%nat ∧ di_size di' = Z.max (di_size di) (16 * Z.of_nat j + 16) ∧
    (∀ k, (k < n ∨ k = j)%nat → ent (td_view a') di' k =
      if decide (k = j) then DE inum (str_ncpy 14 name) else e k) ∧
    (∀ k, (k < j)%nat → de_inum (e k) ≠ 0) ∧ ((j < n)%nat → de_inum (e j) = 0) ∧
    ∃ d2, d_ok d2 a' ∧ dirlookup i name (at_di s i d' di') =
      (ip <- iget ROOTDEV inum ;; ret (Some (ip, 16 * Z.of_nat j))) (at_di s i d2 di').
Proof.
  intros P di e Ht Hn Hn4 Hno Hinum Hb Hav.
  destruct (dirlink_run s i a name inum n P Ht Hn Hn4 Hno Hinum Hb Hav)
    as (d' & a' & di' & j & E & P' & Hj & Hs' & He & Hlow & Hfree & Ht'). fold di in Hs', Ht'. fold di e in He, Hlow, Hfree.
  exists d', a', di', j. split_and!; try done.
  assert (Hhit : hit name (ent (td_view a') di' j) = true).
  { rewrite He, decide_True by auto. unfold hit, namecmp. cbn [de_inum de_name].
    change (Z.to_nat DIRSIZ) with 14%nat. rewrite str_ncmp_same. apply andb_true_iff. split; [|done].
    apply negb_true_iff, Z.eqb_neq. lia. }
  assert (Hthe : i_di (icache (at_di s i d' di') !!! i) = di').
  { cbn. rewrite list_lookup_total_alter_eq by apply P. done. }
  destruct (dirlookup_run _ i a' name (Nat.max n (Datatypes.S j)) P') as [(k & d2 & Hk & Hkh & _ & H2 & E2)|(Hnone & _)];
    rewrite ?Hthe in *; try done; [lia| |].
  - assert (k = j) as ->.
    { destruct (decide (k = j)) as [|Hne]; [done|]. rewrite He, decide_False in Hkh by (done || lia).
      rewrite Hno in Hkh; [done|lia]. }
    exists d2. split; [done|]. rewrite He, decide_True in E2 by auto. rewrite E2.
    by rewrite at_di_at.
  - rewrite Hnone in Hhit; [done|lia].
Qed.

End Claims.
