(* ===== verification/FsExample.v ===== *)
(** * A small file system

    The disk of [mkfs_sb] with a root directory of two entries, over the log
    and the buffer cache of the kernel: the concrete state on which the file
    system's theorems are exercised. *)

From S2P Require Import Prelude Memory Spinlock BlockCache Layout Bio Log LogSpace TxDisk FsLayout.
From S2P Require Import Fs FsBlocks FsMap FsData FsTrunc FsCache FsDir.

(** Inode 1 is the root directory, with its entries in block 59; blocks 0 to 59
    are in use. *)
Definition root_di : dinode := DI T_DIR 0 0 1 32 (59 :: replicate 12 0).
Definition dot_name : list Z := 46 :: replicate 13 0.
Definition dotdot_name : list Z := 46 :: 46 :: replicate 12 0.
Definition img_ents : list Z := dirent_bytes (DE 1 dot_name) ++ dirent_bytes (DE 1 dotdot_name).

Definition img (k : Z) : block :=
  if k =? 1 then splice zeros 0 (sb_bytes mkfs_sb)
  else if k =? 32 then put_dinode zeros 64 root_di
  else if k =? 58 then splice zeros 0 (replicate 7 255 ++ [15])
  else if k =? 59 then splice zeros 0 img_ents
  else zeros.

Definition img_cache : bstate :=
  match binit (BState false boot_bufs img 1000 [] 1) with
  | Ret _ s => s
  | _ => BState false [] img 1000 [] 1
  end.

(** One operation has begun; the root inode is cached, referenced and locked. *)
Definition img_log : lstate bstate := LState false (Log 2 30 1 0 1 0 (replicate 30 0)) img_cache [].
Definition root_inode : inode := INode 1 1 1 (SLk true 1) true root_di.
Definition img_fs : fstate (lstate bstate) :=
  FState img_log mkfs_sb false (root_inode :: replicate 49 inhabitant) 1 0.
Definition img_td : txdisk := TD img ∅ ∅ ∅ 10 1000 2 30 1.

#[export] Instance no_devices : Devsw (lstate bstate) :=
  {| dev_read _ := None; dev_write _ := None |}.

Lemma length_img k : length (img k) = 512%nat.
Proof.
  unfold img. destruct (k =? 1); [by rewrite length_splice|].
  destruct (k =? 32); [by rewrite length_put_dinode|].
  by destruct (k =? 58), (k =? 59); rewrite ?length_splice.
Qed.

Lemma img_cache_ok : cache_ok img_cache (boot_cache img 1000).
Proof.
  destruct (binit_spec false img 1000 1) as (c & E & _ & H).
  unfold img_cache. rewrite E. exact H.
Qed.
#[global] Opaque img_cache.

Lemma img_log_wf : log_wf (lg img_log) [] (boot_cache img 1000).
Proof.
  split; try (cbn [lg img_log dev start size lh_n lh_block]; done || lia).
  - exists (replicate 30 0). done.
  - constructor.
  - by intros b ?%not_elem_of_nil.
Qed.

Lemma img_disk_ok : d_ok (disk img_fs) img_td.
Proof.
  refine (fresh_tx_ok img_log (boot_cache img 1000) 1 img_cache_ok img_log_wf _ _ _ _ _ _);
    cbn [lg img_log log_lock outstanding size ac_held ac_pinned boot_cache]; done || unfold MAXOPBLOCKS; lia.
Qed.

Lemma img_geom : geom mkfs_sb img_td.
Proof. split; vm_compute; done. Qed.

Lemma img_idle : idle mkfs_sb img_td.
Proof.
  split; [cbn; rewrite map_size_empty; unfold MAXHELD; lia| |done].
  intros k. cbn. rewrite map_img_empty_L. set_solver.
Qed.

(** A property of the numbers below a bound, decided. *)
Lemma below_check (P : Z → bool) n :
  forallb (λ k, P (Z.of_nat k)) (seq 0 n) = true → ∀ k, 0 <= k < Z.of_nat n → P k = true.
Proof.
  intros H k Hk. rewrite forallb_forall in H. rewrite <- (Z2Nat.id k) by lia. apply H, in_seq. lia.
Qed.

Lemma img_blocks : blocks_ok mkfs_sb img.
Proof.
  split; [apply length_img|vm_compute; done|].
  apply (below_check (used mkfs_sb img) 59). vm_compute. done.
Qed.

Lemma img_map : imap_ok mkfs_sb img root_di.
Proof.
  assert (Hz : ∀ j, 0 <= j <= MAXFILE → fblk img root_di j ≠ 0 → j = 0).
  { intros j Hj Hnz. assert (Hb : (fblk img root_di j =? 0) || (j =? 0) = true).
    { apply (below_check (λ j, (fblk img root_di j =? 0) || (j =? 0)) 141); [vm_compute; done|].
      change MAXFILE with 140 in Hj. lia. }
    destruct (Z.eqb_spec (fblk img root_di j) 0); [done|]. by apply Z.eqb_eq in Hb. }
  split; [done| |].
  - intros j Hj Hnz. rewrite (Hz j Hj Hnz). vm_compute. done.
  - intros j k Hj Hk E Hnz. rewrite (Hz j Hj Hnz), (Hz k Hk); [done|congruence].
Qed.

Lemma img_map_ok : map_ok mkfs_sb (disk img_fs) img_td root_di.
Proof. split; [apply img_disk_ok|apply img_geom|apply img_idle|apply img_blocks|apply img_map]. Qed.

Lemma img_file : file_ok mkfs_sb img root_di.
Proof.
  split; [apply img_map|vm_compute; done|].
  intros bn Hb Hs. cbn in Hs. unfold BSIZE in Hs. assert (bn = 0) as -> by lia. vm_compute. done.
Qed.

Lemma root_dinode_ok : dinode_ok root_di.
Proof.
  split; cbn [root_di di_type di_major di_minor di_nlink di_size di_addrs]; unfold is_s16, is_u32, T_DIR; try lia.
  - done.
  - apply Forall_cons. split; [lia|]. apply Forall_replicate. lia.
Qed.

Lemma img_open : open_inode img_fs 0 img_td.
Proof.
  split; [cbn; lia|done|vm_compute; done|exact img_map_ok|done|exact img_file|exact root_dinode_ok|done].
Qed.

Lemma img_avail n : (n <= 4)%nat → avail mkfs_sb img n.
Proof.
  intros Hn. exists {[60; 61; 62; 63]}. split.
  - etransitivity; [exact Hn|]. vm_compute. lia.
  - intros k Hk. assert (k = 60 ∨ k = 61 ∨ k = 62 ∨ k = 63) as [->|[->|[->| ->]]] by set_solver; vm_compute; done.
Qed.

Lemma img_budget n : (n <= 8)%nat → budget mkfs_sb img_td n.
Proof. intros Hn. unfold budget. change (card _) with 1%nat. cbn. lia. Qed.

(** ** Witnesses *)

Lemma balloc_allocates_witness :
  ∃ x d', balloc ROOTDEV img_fs = Ret x (set_disk d' img_fs) ∧ is_data mkfs_sb x.
Proof.
  destruct (balloc_allocates img_fs img_td img_disk_ok img_geom img_idle img_blocks (img_budget 1 ltac:(lia))
    (avail_some _ _ _ (img_avail 1 ltac:(lia)))) as (x & d' & a' & E & _ & Hx & _).
  exists x, d'. split; [exact E|exact Hx].
Defined.

Lemma bfree_undoes_balloc_witness :
  ∃ x d', (x <- balloc ROOTDEV ;; bfree ROOTDEV x ;;; ret x) img_fs = Ret x (set_disk d' img_fs).
Proof.
  destruct (bfree_undoes_balloc img_fs img_td img_disk_ok img_geom img_idle img_blocks
    (img_budget 1 ltac:(lia)) (avail_some _ _ _ (img_avail 1 ltac:(lia)))) as (x & d' & a' & E & _).
  exists x, d'. exact E.
Defined.

Lemma allocator_panics_witness : bfree ROOTDEV 60 img_fs = Panic "freeing free block".
Proof.
  apply (allocator_panics img_fs img_td img_disk_ok img_geom img_idle img_blocks); vm_compute; done.
Defined.

Lemma readi_reads_witness :
  ∃ d', readi 0 16 100 img_fs = Ret (16, dirent_bytes (DE 1 dotdot_name)) (set_disk d' img_fs).
Proof.
  destruct (readi_reads img_fs 0 img_td 16 100 img_open) as (d' & E & _); [vm_compute; done..|].
  exists d'. rewrite E. do 2 f_equal.
Defined.

Lemma writei_writes_witness :
  ∃ d' di', writei 0 (replicate 600 7) 32 600 img_fs = Ret 600 (at_di img_fs 0 d' di') ∧ di_size di' = 632.
Proof.
  destruct (writei_writes img_fs 0 img_td (replicate 600 7) 32 img_open) as (d' & a' & di' & E & _ & _ & Hs & _);
    [vm_compute; done..|apply img_budget; vm_compute; lia|apply img_avail; vm_compute; lia|].
  exists d', di'. split; [exact E|]. rewrite Hs. reflexivity.
Defined.

Lemma itrunc_frees_witness :
  ∃ d', itrunc 0 img_fs = Ret tt (at_di img_fs 0 d' (empty_di root_di)).
Proof.
  destruct (itrunc_frees img_fs 0 img_td img_open (img_budget 0 ltac:(lia))) as (d' & a' & E & _).
  exists d'. exact E.
Defined.

(** A second reference to the root inode, in an entry not yet read. *)
Definition img_fs2 (d : lstate bstate) : fstate (lstate bstate) :=
  FState d mkfs_sb false (root_inode :: INode 1 1 1 (SLk false 0) false root_di :: replicate 48 inhabitant) 1 0.

Lemma ilock_reads_iupdate_witness :
  ∃ d' d2 jp', iupdate 0 img_fs = Ret tt (set_disk d' img_fs) ∧
    ilock (Some 1%nat) (img_fs2 d') = Ret tt (set_disk d2 (with_slot 1 jp' (img_fs2 d'))) ∧ i_di jp' = root_di.
Proof.
  destruct (ilock_reads_iupdate img_fs img_td 0 img_open (img_budget 0 ltac:(lia)) ltac:(done))
    as (d' & a' & E & H & G & I & Hk).
  destruct (Hk (img_fs2 d') a' 1%nat (INode 1 1 1 (SLk false 0) false root_di) eq_refl H G I eq_refl eq_refl eq_refl
    eq_refl ltac:(done) eq_refl eq_refl) as (d2 & jp' & E2 & Hdi & _).
  exists d', d2, jp'. split; [exact E|]. split; [exact E2|exact Hdi].
Defined.

Definition two_inodes : fstate (lstate bstate) :=
  FState img_log mkfs_sb false [INode 1 1 2 (SLk false 0) true root_di; INode 0 0 0 (SLk false 0) false root_di] 1 0.

Definition full_icache : fstate (lstate bstate) :=
  FState img_log mkfs_sb false [INode 1 1 2 (SLk false 0) true root_di; INode 1 2 1 (SLk false 0) true root_di] 1 0.

Lemma two_inodes_ok : icache_ok (icache two_inodes) ∧ icache_ok (icache full_icache).
Proof.
  split; (split; [apply (bool_decide_unpack _); vm_compute; exact I|]); intros i j ip jp dv n Hi Hj H1 H2;
    destruct i as [|[|i]], j as [|[|j]]; cbn in Hi, Hj; simplify_eq; try done;
    unfold holds in H1, H2; rewrite !andb_true_iff, !Z.eqb_eq in H1, H2; cbn in H1, H2; lia.
Qed.

(** With one entry empty a new inode gets it; with none, only the inodes that
    have an entry can be had. *)
Lemma iget_references_witness :
  (∃ i ip, iget 1 7 two_inodes = Ret i (with_slot i ip two_inodes) ∧ i_inum ip = 7) ∧
  iget 1 7 full_icache = Panic "iget: no inodes" ∧
  (∃ i ip, iget 1 2 full_icache = Ret i (with_slot i ip full_icache) ∧ i_inum ip = 2).
Proof.
  destruct two_inodes_ok as [O1 O2].
  assert (Hf : icache_full (icache full_icache)) by (intros [|[|i]] ip Hi; cbn in Hi; by simplify_eq).
  split_and!.
  - destruct (iget_references two_inodes 1 7 eq_refl O1 eq_refl) as [_ H].
    destruct H as (i & ip & E & _ & Hh & _); [right; intros H; by apply (H 1%nat (INode 0 0 0 (SLk false 0) false root_di))|].
    exists i, ip. split; [exact E|]. unfold holds in Hh. zbool. done.
  - destruct (iget_references full_icache 1 7 eq_refl O2 eq_refl) as [H _]. by apply H.
  - destruct (iget_references full_icache 1 2 eq_refl O2 eq_refl) as [_ H].
    destruct H as (i & ip & E & _ & Hh & _); [by left|].
    exists i, ip. split; [exact E|]. unfold holds in Hh. zbool. done.
Defined.

(** "/a//bb" *)
Lemma skipelem_splits_witness :
  ∃ path' name', skipelem [47; 97; 47; 47; 98; 98] (replicate 14 9) = Some (path', name') ∧
    cstr name' = [97] ∧ elements_of path' = [[98; 98]].
Proof.
  destruct (skipelem_splits [47; 97; 47; 47; 98; 98] (replicate 14 9)) as (p & n & E & Hn & _ & He & _).
  - set_solver by lia.
  - done.
  - by exists p, n.
Defined.

(** Linking inode 5 as "x" into the root directory. *)
Lemma dirlink_then_lookup_witness :
  ∃ d' di', dirlink 0 [120] 5 img_fs = Ret 0 (at_di img_fs 0 d' di') ∧ di_size di' = 48.
Proof.
  destruct (dirlink_then_lookup img_fs 0 img_td [120] 5 2 img_open eq_refl eq_refl)
    as (d' & a' & di' & j & E & _ & Hj & Hs & He & Hlow & Hfree & _).
  - lia.
  - intros [|[|k]] Hk; [vm_compute; done..|lia].
  - lia.
  - apply img_budget. vm_compute. lia.
  - apply img_avail. vm_compute. lia.
  - exists d', di'. split; [exact E|]. rewrite Hs. destruct j as [|[|[|j]]]; [| |done|lia].
    + by discriminate (Hfree ltac:(lia)).
    + by discriminate (Hfree ltac:(lia)).
Defined.
