(* ===== verification/Args.v ===== *)
(** * System call arguments (xv6A1/syscall.c)

    [fetchint], [fetchstr], [argint], [argptr] and [argstr] on the memory of
    the calling process, and what they promise the system calls: a pointer
    they return is inside the process, whatever the process put on its stack. *)

From S2P Require Import Prelude Memory.

(** What the argument routines see of the calling process: its size, its saved
    stack pointer, and its memory, of which the first [u_sz] bytes are its own. *)
Record uproc := UProc {
  u_sz : Z;
  u_esp : Z;
  u_mem : mem }.

Definition set_umem (m : mem) (u : uproc) : uproc := UProc (u_sz u) (u_esp u) m.

(** A failed call returns -1: here [None]. *)
Definition fetchint (u : uproc) (addr : Z) : option Z :=
  if (u_sz u <=? addr) || (u_sz u <? u32 (addr + 4)) then None
  else Some (s32 (load32 (u_mem u) addr)).

(** The loop of [fetchstr] at [s], with [n] bytes up to the end of the process:
    the number of bytes before the NUL. *)
Fixpoint scan_nul (m : mem) (s : Z) (n : nat) : option Z :=
  match n with
  | O => None
  | S n' => if m s =? 0 then Some 0 else option_map (Z.add 1) (scan_nul m (s + 1) n')
  end.

(** The pointer and the length of the string. *)
Definition fetchstr (u : uproc) (addr : Z) : option (Z * Z) :=
  if u_sz u <=? addr then None
  else option_map (pair addr) (scan_nul (u_mem u) addr (Z.to_nat (u_sz u - addr))).

Definition argint (u : uproc) (n : Z) : option Z := fetchint u (u32 (u_esp u + 4 + 4 * n)).

Definition argptr (u : uproc) (n size : Z) : option Z :=
  match argint u n with
  | None => None
  | Some i =>
      if (size <? 0) || (u_sz u <=? u32 i) || (u_sz u <? u32 (u32 i + size)) then None
      else Some (u32 i)
  end.

Definition argstr (u : uproc) (n : Z) : option (Z * Z) :=
  match argint u n with
  | None => None
  | Some addr => fetchstr u (u32 addr)
  end.

(** ** Bytes of memory as lists *)

Definition peek (m : mem) (a : Z) (n : nat) : list Z := map (λ k, m (a + Z.of_nat k)) (seq 0 n).
Definition poke (m : mem) (a : Z) (bs : list Z) : mem := λ x,
  if (a <=? x) && (x <? a + Z.of_nat (length bs)) then bs !!! Z.to_nat (x - a) else m x.

(** The string [argstr] found. *)
Definition str_at (u : uproc) (p : Z * Z) : list Z := peek (u_mem u) p.1 (Z.to_nat p.2).

Lemma length_peek m a n : length (peek m a n) = n.
Proof. unfold peek. by rewrite length_map, length_seq. Qed.

Lemma peek_S m a n : peek m a (S n) = m a :: peek m (a + 1) n.
Proof.
  unfold peek. cbn [seq map]. rewrite Z.add_0_r. f_equal. rewrite <- seq_shift, map_map.
  apply map_ext. intros k. f_equal. lia.
Qed.

Lemma peek_poke m a bs : peek (poke m a bs) a (length bs) = bs.
Proof.
  apply list_eq. intros k. unfold peek, poke. rewrite list_lookup_fmap.
  destruct (decide (k < length bs)%nat) as [Hk|Hk].
  - rewrite lookup_seq_lt by done. cbn. rewrite (proj2 (Z.leb_le _ _)), (proj2 (Z.ltb_lt _ _)) by lia. cbn.
    replace (Z.to_nat (a + Z.of_nat k - a)) with k by lia.
    symmetry. apply list_lookup_lookup_total_lt. done.
  - rewrite lookup_seq_ge by lia. cbn. symmetry. apply lookup_ge_None. lia.
Qed.

(** ** What the routines promise *)

(** What a call returns for the string at [p] of a process of [sz] bytes. *)
Record cstring_at (m : mem) (sz p len : Z) : Prop := {
  cs_len : 0 <= len;
  cs_in : p + len < sz;
  cs_nul : m (p + len) = 0;
  cs_first : ∀ k, 0 <= k < len → m (p + k) ≠ 0 }.

Lemma scan_nul_iff m sz n : ∀ s len, s + Z.of_nat n = sz →
  scan_nul m s n = Some len ↔ cstring_at m sz s len.
Proof.
  induction n as [|n IH]; intros s len Hs; cbn [scan_nul].
  - split; [done|]. intros []. lia.
  - destruct (Z.eqb_spec (m s) 0) as [E|E].
    + split.
      * intros [= <-]. split; rewrite ?Z.add_0_r; (done || lia).
      * intros [Hl _ _ Hf]. destruct (decide (len = 0)) as [->|]; [done|].
        destruct (Hf 0); [lia|]. by rewrite Z.add_0_r.
    + specialize (IH (s + 1)). split.
      * destruct (scan_nul m (s + 1) n) as [l|]; [|done]. intros [= <-].
        destruct (proj1 (IH l ltac:(lia)) eq_refl) as [Hl Hi Hn Hf].
        split; [lia|lia|by replace (s + (1 + l)) with (s + 1 + l) by lia|].
        intros k Hk. destruct (decide (k = 0)) as [->|]; [by rewrite Z.add_0_r|].
        replace (s + k) with (s + 1 + (k - 1)) by lia. apply Hf. lia.
      * intros [Hl Hi Hn Hf].
        assert (len ≠ 0) by (intros ->; by rewrite Z.add_0_r in Hn).
        rewrite (proj2 (IH (len - 1) ltac:(lia))); [cbn; f_equal; lia|].
        split; [lia|lia|by replace (s + 1 + (len - 1)) with (s + len) by lia|].
        intros k Hk. replace (s + 1 + k) with (s + (k + 1)) by lia. apply Hf. lia.
Qed.

(** C18. The system calls may use what the argument routines return. For a
    process of at most [KERNBASE] bytes: [fetchint] succeeds exactly when the
    whole word is inside the process (no wrap-around of [addr + 4] gets past
    the test); [argptr] exactly when the word is readable and the block it
    points to, of non-negative size, is inside the process; [argstr] exactly
    when the string, up to and including its NUL, is inside the process, and
    the length is that of the string. *)
Theorem arguments_in_process (u : uproc) :
  0 <= u_sz u <= 2^31 →
  (∀ a v, 0 <= a < 2^32 → fetchint u a = Some v ↔ a + 4 <= u_sz u ∧ v = s32 (load32 (u_mem u) a)) ∧
  (∀ n size p, size < 2^31 → argptr u n size = Some p ↔
     ∃ i, argint u n = Some i ∧ p = u32 i ∧ 0 <= size ∧ p < u_sz u ∧ p + size <= u_sz u) ∧
  (∀ n p len, argstr u n = Some (p, len) ↔
     ∃ i, argint u n = Some i ∧ p = u32 i ∧ cstring_at (u_mem u) (u_sz u) p len).
Proof.
  intros Hsz. split_and!.
  - intros a v Ha. unfold fetchint.
    destruct (Z.leb_spec (u_sz u) a); cbn [orb]; [split; [done|lia]|].
    rewrite u32_small by lia. destruct (Z.ltb_spec (u_sz u) (a + 4)); split; try done; try lia.
    + by intros [= <-].
    + by intros [_ ->].
  - intros n size p Hs. unfold argptr. destruct (argint u n) as [i|]; [|split; [done|by intros (? & ? & _)]].
    pose proof (u32_range i). destruct (Z.ltb_spec size 0); cbn [orb].
    { split; [done|]. intros (j & [= <-] & -> & ?). lia. }
    destruct (Z.leb_spec (u_sz u) (u32 i)); cbn [orb]; [split; [done|intros (j & [= <-] & -> & ?); lia]|].
    rewrite (u32_small (u32 i + size)) by lia.
    destruct (Z.ltb_spec (u_sz u) (u32 i + size)); split; try done.
    + intros (j & [= <-] & -> & ?). lia.
    + intros [= <-]. exists i. split_and!; done || lia.
    + by intros (j & [= <-] & -> & ?).
  - intros n p len. unfold argstr. destruct (argint u n) as [i|]; [|split; [done|by intros (? & ? & _)]].
    pose proof (u32_range i). unfold fetchstr. destruct (Z.leb_spec (u_sz u) (u32 i)) as [Hge|Hlt].
    { split; [done|]. intros (j & [= <-] & -> & [? ? _ _]). lia. }
    pose proof (scan_nul_iff (u_mem u) (u_sz u) (Z.to_nat (u_sz u - u32 i)) (u32 i)) as HS. split.
    + destruct (scan_nul _ _ _) as [l|] eqn:E; [|done]. intros [= <- <-]. exists i.
      split_and!; try done. apply HS; [lia|done].
    + intros (j & [= <-] & -> & Hc). by rewrite (proj2 (HS len ltac:(lia)) Hc).
Qed.

(** A process of 64 bytes with a string "hi" at 32 and a pointer to it as its
    argument. *)
Definition u_example : uproc :=
  UProc 64 0 (store (store (store (store32 (λ _, 7) 4 32) 32 104) 33 105) 34 0).

Lemma arguments_in_process_witness :
  argstr u_example 0 = Some (32, 2) ∧ argptr u_example 0 33 = None ∧ fetchint u_example (2^32 - 4) = None.
Proof.
  destruct (arguments_in_process u_example ltac:(done)) as (H1 & H2 & H3). split_and!.
  - apply H3. exists 32. split_and!; [done..|]. split; [done..|]. intros k Hk.
    assert (k = 0 ∨ k = 1) as [->| ->] by lia; done.
  - destruct (argptr u_example 0 33) as [p|] eqn:E; [|done].
    apply H2 in E as (i & Hi & -> & _ & _ & Hle); [|done]. vm_compute in Hi. injection Hi as <-. done.
  - destruct (fetchint u_example (2^32 - 4)) as [v|] eqn:E; [|done].
    apply H1 in E as [Hle _]; [|done]. done.
Defined.
