(* ===== verification/Ring.v ===== *)
(** * Ring buffers

    A buffer of [size] bytes whose positions are free-running 32-bit counters
    taken modulo the size: the representation of pipes (pipe.c) and of the
    console's input (console.c). The size divides [2^32], so the wrap-around of
    a counter does not disturb the position. *)

From S2P Require Import Prelude.

Section Ring.
Context (size : Z) (Hsize : 0 < size) (Hdiv : (size | 2^32)).

(** The position of a counter. *)
Definition slot (x : Z) : nat := Z.to_nat (x mod size).

(** The [n] bytes from the counter [from] on. *)
Definition slice (buf : list Z) (from : Z) (n : nat) : list Z :=
  map (λ i, buf !!! slot (from + Z.of_nat i)) (seq 0 n).

Lemma length_slice buf from n : length (slice buf from n) = n.
Proof. unfold slice. by rewrite length_map, length_seq. Qed.

Lemma u32_mod_size x : u32 x mod size = x mod size.
Proof.
  unfold u32. destruct Hdiv as [k Hk]. rewrite (Z.mod_eq x (2^32)), Hk by lia.
  replace (x - k * size * (x / (k * size))) with (x + - (k * (x / (k * size))) * size) by ring.
  by rewrite Z.mod_add by lia.
Qed.

Lemma slot_u32 x : slot (u32 x) = slot x.
Proof. unfold slot. by rewrite u32_mod_size. Qed.

Lemma slot_u32_add x y : slot (u32 x + y) = slot (x + y).
Proof. unfold slot. by rewrite <- Zplus_mod_idemp_l, u32_mod_size, Zplus_mod_idemp_l. Qed.

Lemma slot_range x : (slot x < Z.to_nat size)%nat.
Proof. unfold slot. pose proof (Z.mod_pos_bound x size Hsize). lia. Qed.

(** Counters that are less than the size apart have different positions. *)
Lemma slot_neq x y : 0 < y - x < size → slot x ≠ slot y.
Proof.
  unfold slot. intros H E. pose proof (Z.mod_pos_bound x size Hsize). pose proof (Z.mod_pos_bound y size Hsize).
  assert (Em : x mod size = y mod size) by lia.
  assert (Hz : (y - x) mod size = 0) by (rewrite Zminus_mod, Em, Z.sub_diag; done).
  rewrite Z.mod_small in Hz; lia.
Qed.

Lemma slice_snoc buf from n : slice buf from (S n) = slice buf from n ++ [buf !!! slot (from + Z.of_nat n)].
Proof. unfold slice. by rewrite seq_S, map_app. Qed.

Lemma slice_app buf from a b :
  slice buf from (a + b) = slice buf from a ++ slice buf (u32 (from + Z.of_nat a)) b.
Proof.
  induction b as [|b IH]; [by rewrite Nat.add_0_r, app_nil_r|].
  rewrite Nat.add_succ_r, !slice_snoc, IH, <- app_assoc, slot_u32_add.
  by replace (from + Z.of_nat (a + b)) with (from + Z.of_nat a + Z.of_nat b) by lia.
Qed.

Lemma slice_cons buf from n : slice buf from (S n) = buf !!! slot from :: slice buf (u32 (from + 1)) n.
Proof.
  change (S n) with (1 + n)%nat. rewrite slice_app. unfold slice at 1. cbn. by rewrite Z.add_0_r.
Qed.

(** Storing one byte behind a slice that is not the whole ring. *)
Lemma slice_put buf from n c : length buf = Z.to_nat size → Z.of_nat n < size →
  slice (<[slot (from + Z.of_nat n) := c]> buf) from (S n) = slice buf from n ++ [c].
Proof.
  intros Hl Hn. rewrite slice_snoc. f_equal.
  - apply map_ext_in. intros i Hi%list_elem_of_In%elem_of_seq.
    apply list_lookup_total_insert_ne. apply not_eq_sym, slot_neq. lia.
  - f_equal. apply list_lookup_total_insert_eq. rewrite Hl. apply slot_range.
Qed.

(** A slice starts at the position of its counter only. *)
Lemma slice_mod buf x n : slice buf (x mod size) n = slice buf x n.
Proof. unfold slice, slot. apply map_ext. intros i. by rewrite Zplus_mod_idemp_l. Qed.

Lemma slice_next buf from n : slice buf from (S n) = buf !!! slot from :: slice buf (from + 1) n.
Proof.
  induction n as [|n IH]; [unfold slice; cbn; by rewrite Z.add_0_r|].
  rewrite slice_snoc, IH, (slice_snoc buf (from + 1)). cbn. by replace (from + 1 + Z.of_nat n) with (from + Z.of_nat (S n)) by lia.
Qed.

(** ** Queues

    A queue in the ring with its counters kept reduced: empty when they are
    equal, so it holds at most [size - 1] elements. *)

Definition qlen (h t : Z) : Z := (t - h) mod size.
Definition qitems (buf : list Z) (h t : Z) : list Z := slice buf h (Z.to_nat (qlen h t)).

Lemma qlen_range h t : 0 <= qlen h t < size.
Proof. by apply Z.mod_pos_bound. Qed.

Lemma length_qitems buf h t : Z.of_nat (length (qitems buf h t)) = qlen h t.
Proof. unfold qitems. rewrite length_slice. pose proof (qlen_range h t). lia. Qed.

Lemma qitems_nil buf h t : 0 <= h < size → 0 <= t < size → qitems buf h t = [] ↔ h = t.
Proof.
  intros Hh Ht. rewrite <- length_zero_iff_nil. pose proof (length_qitems buf h t) as Hl.
  assert (length (qitems buf h t) = 0%nat ↔ qlen h t = 0) as -> by lia. unfold qlen.
  split; [|intros ->; by rewrite Z.sub_diag, Z.mod_0_l by lia].
  intros E. apply Z.mod_divide in E as [k E]; [|lia]. assert (k = 0) by nia. lia.
Qed.

Lemma qlen_put h t : qlen h t + 1 < size → qlen h ((t + 1) mod size) = qlen h t + 1.
Proof.
  intros H. pose proof (qlen_range h t). unfold qlen in *. rewrite Zminus_mod_idemp_l.
  replace (t + 1 - h) with (t - h + 1) by lia. rewrite <- Zplus_mod_idemp_l. apply Z.mod_small. lia.
Qed.

Lemma qitems_put buf h t v : length buf = Z.to_nat size → 0 <= t < size → qlen h t + 1 < size →
  qitems (<[Z.to_nat t := v]> buf) h ((t + 1) mod size) = qitems buf h t ++ [v].
Proof.
  intros Hl Ht H. pose proof (qlen_range h t). unfold qitems. rewrite qlen_put by done.
  rewrite Z2Nat.inj_add, Nat.add_1_r by lia.
  replace (Z.to_nat t) with (slot (h + Z.of_nat (Z.to_nat (qlen h t)))); [apply slice_put; [done|lia]|].
  unfold slot. rewrite Z2Nat.id by lia. unfold qlen. rewrite Zplus_mod_idemp_r.
  replace (h + (t - h)) with t by lia. by rewrite Z.mod_small.
Qed.

Lemma qitems_get buf h t : 0 <= h < size → 0 <= t < size → h ≠ t →
  qitems buf h t = buf !!! Z.to_nat h :: qitems buf ((h + 1) mod size) t.
Proof.
  intros Hh Ht Hne. pose proof (qlen_range h t) as Hq.
  assert (Hpos : qlen h t ≠ 0).
  { intros E. apply Hne. apply (qitems_nil buf); [done..|]. unfold qitems. by rewrite E. }
  assert (Hs : qlen ((h + 1) mod size) t = qlen h t - 1).
  { unfold qlen in *. rewrite Zminus_mod_idemp_r. replace (t - (h + 1)) with (t - h + -1) by lia.
    rewrite <- Zplus_mod_idemp_l. apply Z.mod_small. lia. }
  unfold qitems. rewrite Hs. replace (Z.to_nat (qlen h t)) with (S (Z.to_nat (qlen h t - 1))) by lia.
  rewrite slice_next, slice_mod. f_equal. unfold slot. by rewrite Z.mod_small.
Qed.

End Ring.
