(* ===== verification/Pipe.v ===== *)
(** * Pipes (xv6A1/pipe.c)

    The ring buffer with its wrapping 32-bit counters; [pipewrite], [piperead]
    and [pipeclose] as the turns they run under the pipe's lock (a turn ends
    when the call returns or goes to sleep); and a step relation that
    interleaves the turns of any number of reading and writing processes with
    kills and wake-ups. The theorems: bytes come out in the order they went
    in, whatever the interleaving, and no wake-up is lost. *)

From S2P Require Import Prelude Memory Spinlock Ring.

Definition PIPESIZE : Z := 512.

Record pipe := Pipe {
  p_data : list Z;
  nread : Z;
  nwrite : Z;
  readopen : bool;
  writeopen : bool }.

(** The pipe, its lock, [myproc()->killed], the wake-ups issued, and whether
    the page of the pipe has been freed. *)
Record pstate := PState {
  p_lock : bool;
  pp : pipe;
  killed : bool;
  p_woken : list chan;
  p_freed : bool }.

Inductive PipeLock : Set := .

#[export] Instance pipe_has_lock : HasLock PipeLock pstate.
Proof.
  refine {| lock_held := p_lock;
            set_lock b s := PState b (pp s) (killed s) (p_woken s) (p_freed s) |};
    by intros; destruct s.
Defined.

(** The channels [&p->nread] and [&p->nwrite] of the pipe. *)
Definition RCH : chan := ChPipeR 0.
Definition WCH : chan := ChPipeW 0.

Definition set_pipe (p : pipe) (s : pstate) : pstate :=
  PState (p_lock s) p (killed s) (p_woken s) (p_freed s).

Definition wake (ch : chan) : M pstate unit :=
  modify (λ s, PState (p_lock s) (pp s) (killed s) (p_woken s ++ [ch]) (p_freed s)).

(** How a turn ends: the call returns, or goes to sleep. *)
Inductive turn := Returned (r : Z) | Slept (ch : chan).

Definition pipe_new : pipe := Pipe (replicate 512 0) 0 0 true true.

Definition pipeclose (writable : bool) : M pstate unit :=
  acquire PipeLock ;;;
  (if writable then
     modify (λ s, set_pipe (Pipe (p_data (pp s)) (nread (pp s)) (nwrite (pp s))
                              (readopen (pp s)) false) s) ;;;
     wake RCH
   else
     modify (λ s, set_pipe (Pipe (p_data (pp s)) (nread (pp s)) (nwrite (pp s))
                              false (writeopen (pp s))) s) ;;;
     wake WCH) ;;;
  p <- gets pp ;;
  release PipeLock ;;;
  when negb (readopen p) && negb (writeopen p) do
    modify (λ s, PState (p_lock s) (pp s) (killed s) (p_woken s) true).

(** [p->data[p->nwrite++ % PIPESIZE] = c] *)
Definition put_byte (c : Z) (p : pipe) : pipe :=
  Pipe (<[Z.to_nat (nwrite p mod PIPESIZE) := c]> (p_data p)) (nread p) (u32 (nwrite p + 1))
    (readopen p) (writeopen p).

Definition full (p : pipe) : bool := nwrite p =? u32 (nread p + PIPESIZE).
Definition empty (p : pipe) : bool := nread p =? nwrite p.

(** The loop of [pipewrite] on the bytes [addr + i .. addr + n - 1]; also the
    bytes that are left when it stops. Entered with the lock held. *)
Fixpoint write_loop (n : Z) (addr : list Z) : M pstate (turn * list Z) :=
  match addr with
  | [] =>
      wake RCH ;;;
      release PipeLock ;;;
      ret (Returned n, [])
  | c :: addr' =>
      s <- gets id ;;
      if full (pp s) then
        if negb (readopen (pp s)) || killed s then
          release PipeLock ;;;
          ret (Returned (-1), addr)
        else
          wake RCH ;;;
          release PipeLock ;;;
          ret (Slept WCH, addr)
      else
        modify (set_pipe (put_byte c (pp s))) ;;;
        write_loop n addr'
  end.

Definition pipewrite (n : Z) (addr : list Z) : M pstate (turn * list Z) :=
  acquire PipeLock ;;;
  write_loop n addr.

(** [addr[i] = p->data[p->nread++ % PIPESIZE]] *)
Definition get_byte (p : pipe) : Z * pipe :=
  (p_data p !!! Z.to_nat (nread p mod PIPESIZE),
   Pipe (p_data p) (u32 (nread p + 1)) (nwrite p) (readopen p) (writeopen p)).

Fixpoint read_loop (n : nat) (p : pipe) : list Z * pipe :=
  match n with
  | O => ([], p)
  | S n' =>
      if empty p then ([], p)
      else let '(c, p1) := get_byte p in let '(cs, p2) := read_loop n' p1 in (c :: cs, p2)
  end.

(** [piperead]: the number of bytes and the bytes stored at [addr]. *)
Definition piperead (n : Z) : M pstate (turn * list Z) :=
  acquire PipeLock ;;;
  s <- gets id ;;
  if empty (pp s) && writeopen (pp s) then
    release PipeLock ;;;
    if killed s then ret (Returned (-1), [])
    else ret (Slept RCH, [])
  else
    let '(cs, p) := read_loop (Z.to_nat n) (pp s) in
    modify (set_pipe p) ;;;
    wake WCH ;;;
    release PipeLock ;;;
    ret (Returned (Z.of_nat (length cs)), cs).

(** ** The contents of a pipe *)

Definition count (p : pipe) : Z := u32 (nwrite p - nread p).

Definition contents (p : pipe) : list Z :=
  slice PIPESIZE (p_data p) (nread p) (Z.to_nat (count p)).

Record pipe_wf (p : pipe) : Prop := {
  pw_len : length (p_data p) = 512%nat;
  pw_read : 0 <= nread p < 2^32;
  pw_write : 0 <= nwrite p < 2^32;
  pw_count : count p <= PIPESIZE }.

Lemma count_range p : 0 <= count p < 2^32.
Proof. apply u32_range. Qed.

Lemma length_contents p : Z.of_nat (length (contents p)) = count p.
Proof. unfold contents. rewrite length_slice. pose proof (count_range p). lia. Qed.

Lemma pipesize_divides : (PIPESIZE | 2^32).
Proof. by exists (2^23). Qed.

Lemma full_count p : pipe_wf p → full p = (count p =? PIPESIZE).
Proof.
  intros [_ Hr Hw Hc]. unfold full, count, PIPESIZE, u32 in *.
  apply Bool.eq_iff_eq_true. rewrite !Z.eqb_eq. Z.div_mod_to_equations. lia.
Qed.

Lemma empty_count p : pipe_wf p → empty p = (count p =? 0).
Proof.
  intros [_ Hr Hw Hc]. unfold empty, count, PIPESIZE, u32 in *.
  apply Bool.eq_iff_eq_true. rewrite !Z.eqb_eq. Z.div_mod_to_equations. lia.
Qed.

Lemma count_put c p : pipe_wf p → full p = false → count (put_byte c p) = count p + 1.
Proof.
  intros W Hf. rewrite full_count in Hf by done. apply Z.eqb_neq in Hf.
  destruct W as [_ Hr Hw Hc]. unfold count, put_byte, PIPESIZE, u32 in *. cbn [nread nwrite].
  Z.div_mod_to_equations. lia.
Qed.

Lemma count_get p : pipe_wf p → empty p = false → count (get_byte p).2 = count p - 1.
Proof.
  intros W Hf. rewrite empty_count in Hf by done. apply Z.eqb_neq in Hf.
  destruct W as [_ Hr Hw Hc]. unfold count, get_byte, PIPESIZE, u32 in *. cbn [nread nwrite snd].
  Z.div_mod_to_equations. lia.
Qed.

Lemma wf_put c p : pipe_wf p → full p = false → pipe_wf (put_byte c p).
Proof.
  intros W Hf. pose proof (count_put c p W Hf) as Hc. rewrite full_count in Hf by done.
  apply Z.eqb_neq in Hf. destruct W as [Hl Hr Hw Hn].
  split; cbn [put_byte p_data nread nwrite]; [by rewrite length_insert|done|apply u32_range|lia].
Qed.

Lemma wf_get p : pipe_wf p → empty p = false → pipe_wf (get_byte p).2.
Proof.
  intros W Hf. pose proof (count_get p W Hf) as Hc. destruct W as [Hl Hr Hw Hn].
  split; cbn [get_byte snd p_data nread nwrite]; [done|apply u32_range|done|].
  pose proof (count_range p). unfold get_byte in Hc. cbn [snd] in Hc. lia.
Qed.

(** The write position, relative to the read position. *)
Lemma write_pos p : slot PIPESIZE (nwrite p) = slot PIPESIZE (nread p + count p).
Proof.
  unfold count. rewrite Z.add_comm, slot_u32_add by (done || apply pipesize_divides). f_equal. lia.
Qed.

Lemma contents_put c p :
  pipe_wf p → full p = false → contents (put_byte c p) = contents p ++ [c].
Proof.
  intros W Hf. pose proof (count_put c p W Hf) as Hc. pose proof (count_range p) as Hr.
  assert (Hlt : count p < PIPESIZE).
  { rewrite full_count in Hf by done. apply Z.eqb_neq in Hf. pose proof (pw_count _ W). lia. }
  unfold contents. rewrite Hc, Z2Nat.inj_add, Nat.add_1_r by lia. cbn [put_byte p_data nread].
  change (Z.to_nat (nwrite p mod PIPESIZE)) with (slot PIPESIZE (nwrite p)). rewrite write_pos.
  rewrite <- (Z2Nat.id (count p)) at 1 by lia. apply slice_put; [done|apply W|lia].
Qed.

Lemma contents_get p :
  pipe_wf p → empty p = false → contents p = (get_byte p).1 :: contents (get_byte p).2.
Proof.
  intros W Hf. pose proof (count_get p W Hf) as Hc.
  assert (Hpos : 0 < count p).
  { rewrite empty_count in Hf by done. apply Z.eqb_neq in Hf. pose proof (count_range p). lia. }
  unfold contents. replace (Z.to_nat (count p)) with (S (Z.to_nat (count (get_byte p).2))) by (rewrite Hc; lia).
  apply slice_cons; [done|apply pipesize_divides].
Qed.

(** ** What a turn does *)

Lemma read_loop_spec n : ∀ p,
  pipe_wf p →
  let '(cs, p') := read_loop n p in
  pipe_wf p' ∧ contents p = cs ++ contents p' ∧ length cs = Nat.min n (length (contents p)) ∧
  readopen p' = readopen p ∧ writeopen p' = writeopen p.
Proof.
  induction n as [|n IH]; intros p W; cbn [read_loop]; [done|].
  destruct (empty p) eqn:E.
  - split_and!; try done. rewrite empty_count in E by done. apply Z.eqb_eq in E.
    assert (Hl : length (contents p) = 0%nat) by (pose proof (length_contents p); lia). by rewrite Hl.
  - specialize (IH _ (wf_get p W E)). pose proof (contents_get p W E) as Hc.
    destruct (get_byte p) as [c p1] eqn:Eg. cbn [fst snd] in *.
    destruct (read_loop n p1) as [cs p2]. destruct IH as (W2 & Hc2 & Hl & Hr & Hw).
    assert (readopen p1 = readopen p ∧ writeopen p1 = writeopen p) as [Er Ew] by (by injection Eg as <- <-).
    split_and!; try congruence.
    + rewrite Hc, Hc2. done.
    + rewrite Hc. cbn. lia.
Qed.

(** A turn of [pipewrite]: it appends the bytes it consumes; it wakes the
    readers unless it gives up; it stops short only when the pipe is full. *)
Lemma write_loop_spec n addr : ∀ s,
  p_lock s = true → pipe_wf (pp s) →
  ∃ out left done_ s', write_loop n addr s = Ret (out, left) s' ∧
    addr = done_ ++ left ∧ contents (pp s') = contents (pp s) ++ done_ ∧
    pipe_wf (pp s') ∧ p_lock s' = false ∧ killed s' = killed s ∧ p_freed s' = p_freed s ∧
    readopen (pp s') = readopen (pp s) ∧ writeopen (pp s') = writeopen (pp s) ∧
    match out with
    | Returned r => r = n ∧ left = [] ∧ p_woken s' = p_woken s ++ [RCH] ∨
        r = -1 ∧ full (pp s') = true ∧ (readopen (pp s') = false ∨ killed s = true) ∧
        p_woken s' = p_woken s
    | Slept ch => ch = WCH ∧ left ≠ [] ∧ full (pp s') = true ∧ readopen (pp s') = true ∧
        killed s = false ∧ p_woken s' = p_woken s ++ [RCH]
    end.
Proof.
  induction addr as [|c addr IH]; intros s Hlk W.
  - eexists (Returned n), [], [], _. split.
    { cbn. unfold release, wake, bind, modify. cbn. by rewrite Hlk. }
    cbn. rewrite app_nil_r. split_and!; try done. by left.
  - cbn [write_loop]. unfold bind, gets. cbn [id].
    destruct (full (pp s)) eqn:Ef.
    + destruct (negb (readopen (pp s)) || killed s) eqn:Ek.
      * eexists (Returned (-1)), (c :: addr), [], _. split.
        { unfold release. cbn. by rewrite Hlk. }
        cbn. rewrite app_nil_r. split_and!; try done. right. split_and!; try done.
        apply orb_true_iff in Ek as [Ek%negb_true_iff|Ek]; auto.
      * apply orb_false_iff in Ek as [Er%negb_false_iff Ek].
        eexists (Slept WCH), (c :: addr), [], _. split.
        { unfold release, wake, modify. cbn. by rewrite Hlk. }
        cbn. rewrite app_nil_r. split_and!; done.
    + destruct (IH (set_pipe (put_byte c (pp s)) s)) as (out & left & dn & s' & E & Ha & Hc & R);
        [done|by apply wf_put|].
      exists out, left, (c :: dn), s'. split; [exact E|]. split; [by rewrite Ha|].
      split; [|exact R]. rewrite Hc. cbn [pp set_pipe]. rewrite contents_put by done.
      by rewrite <- app_assoc.
Qed.

(** ** Processes on a pipe *)

(** The call a process is in, with what is left of it. *)
Inductive pcall := PIdle | PWrite (n : Z) (addr : list Z) | PRead (n : Z).

Record thr := Thr {
  t_call : pcall;
  t_sleep : option chan;
  t_killed : bool }.

(** The pipe, the processes, and all the bytes written and read so far. *)
Record sys := Sys {
  y_pipe : pipe;
  y_thr : list thr;
  y_in : list Z;
  y_out : list Z;
  y_freed : bool }.

Definition wakes (chs : list chan) (t : thr) : thr :=
  match t_sleep t with
  | Some ch => if decide (ch ∈ chs) then Thr (t_call t) None (t_killed t) else t
  | None => t
  end.

(** The state in which process [t] runs a turn, and the system after it. *)
Definition enter (y : sys) (t : thr) : pstate :=
  PState false (y_pipe y) (t_killed t) [] (y_freed y).

Definition leave (y : sys) (i : nat) (s : pstate) (t : thr) : sys :=
  Sys (pp s) (<[i := t]> (wakes (p_woken s) <$> y_thr y)) (y_in y) (y_out y) (p_freed s).

Definition after (out : turn) (c : pcall) (t : thr) : thr :=
  match out with
  | Returned _ => Thr PIdle None (t_killed t)
  | Slept ch => Thr c (Some ch) (t_killed t)
  end.

Definition writing (t : thr) : bool := match t_call t with PWrite _ _ => true | _ => false end.
Definition reading (t : thr) : bool := match t_call t with PRead _ => true | _ => false end.

(** A file that refers to an end of the pipe keeps it open: calls start, and
    an end is closed, only while it is open and no call uses it. *)
Inductive pstep (y : sys) : sys → Prop :=
  | P_write (i : nat) t addr :
      y_thr y !! i = Some t → t_call t = PIdle → writeopen (y_pipe y) = true →
      pstep y (Sys (y_pipe y) (<[i := Thr (PWrite (Z.of_nat (length addr)) addr) None (t_killed t)]>
        (y_thr y)) (y_in y) (y_out y) (y_freed y))
  | P_read (i : nat) t n :
      y_thr y !! i = Some t → t_call t = PIdle → readopen (y_pipe y) = true →
      pstep y (Sys (y_pipe y) (<[i := Thr (PRead n) None (t_killed t)]> (y_thr y))
        (y_in y) (y_out y) (y_freed y))
  | P_write_turn (i : nat) t n addr out left s :
      y_thr y !! i = Some t → t_call t = PWrite n addr → t_sleep t = None →
      pipewrite n addr (enter y t) = Ret (out, left) s →
      pstep y (let y' := leave y i s (after out (PWrite n left) t) in
        Sys (y_pipe y') (y_thr y') (y_in y ++ take (length addr - length left) addr) (y_out y)
          (y_freed y'))
  | P_read_turn (i : nat) t n out cs s :
      y_thr y !! i = Some t → t_call t = PRead n → t_sleep t = None →
      piperead n (enter y t) = Ret (out, cs) s →
      pstep y (let y' := leave y i s (after out (PRead n) t) in
        Sys (y_pipe y') (y_thr y') (y_in y) (y_out y ++ cs) (y_freed y'))
  | P_kill (i : nat) t :
      y_thr y !! i = Some t →
      pstep y (Sys (y_pipe y) (<[i := Thr (t_call t) None true]> (y_thr y)) (y_in y) (y_out y)
        (y_freed y))
  | P_close (i : nat) t (w : bool) s :
      y_thr y !! i = Some t → t_call t = PIdle →
      (if w then writeopen (y_pipe y) else readopen (y_pipe y)) = true →
      Forall (λ t : thr, (if w then writing t else reading t) = false) (y_thr y) →
      pipeclose w (enter y t) = Ret tt s →
      pstep y (leave y i s t).

(** Some process has been killed. *)
Definition any_killed (ts : list thr) : bool := existsb t_killed ts.

(** A process asleep has a reason to be: the pipe gives it nothing to do. For a
    reader this is known as long as no process has been killed ([k]). *)
Definition sleep_ok (k : bool) (p : pipe) (t : thr) : Prop :=
  match t_sleep t with
  | None => True
  | Some ch =>
      match t_call t with
      | PIdle => False
      | PWrite _ addr => ch = WCH ∧ full p = true ∧ readopen p = true
      | PRead _ => ch = RCH ∧ (k = false → empty p = true) ∧ writeopen p = true
      end
  end.

(** Nobody is in a call on an end that is closed. *)
Definition end_ok (p : pipe) (t : thr) : Prop :=
  (writing t = true → writeopen p = true) ∧ (reading t = true → readopen p = true).

Record sys_ok (y : sys) : Prop := {
  sy_pipe : pipe_wf (y_pipe y);
  sy_fifo : y_in y = y_out y ++ contents (y_pipe y);
  sy_sleep : Forall (sleep_ok (any_killed (y_thr y)) (y_pipe y)) (y_thr y);
  sy_end : Forall (end_ok (y_pipe y)) (y_thr y);
  sy_freed : y_freed y = negb (readopen (y_pipe y)) && negb (writeopen (y_pipe y)) }.

Lemma wakes_call chs t : t_call (wakes chs t) = t_call t.
Proof. unfold wakes. destruct (t_sleep t); [|done]. by case_decide. Qed.

Lemma wakes_killed chs t : t_killed (wakes chs t) = t_killed t.
Proof. unfold wakes. destruct (t_sleep t); [|done]. by case_decide. Qed.

Lemma any_killed_wakes chs ts : any_killed (wakes chs <$> ts) = any_killed ts.
Proof. induction ts as [|t ts IH]; [done|]. unfold any_killed. cbn. rewrite wakes_killed. f_equal. exact IH. Qed.

Lemma any_killed_insert ts i t u :
  ts !! i = Some t → t_killed u = t_killed t → any_killed (<[i := u]> ts) = any_killed ts.
Proof.
  revert i. induction ts as [|x ts IH]; intros [|i] Hi Hk; try done; cbn in *.
  - injection Hi as ->. by rewrite Hk.
  - f_equal. by apply IH.
Qed.

Lemma any_killed_lookup ts i t : ts !! i = Some t → t_killed t = true → any_killed ts = true.
Proof.
  revert i. induction ts as [|x ts IH]; intros [|i] Hi Hk; try done; cbn in *.
  - injection Hi as ->. by rewrite Hk.
  - apply orb_true_iff. right. by apply (IH i).
Qed.

Lemma wakes_end p chs t : end_ok p t → end_ok p (wakes chs t).
Proof. unfold end_ok, writing, reading. by rewrite wakes_call. Qed.

(** A process that stays asleep through a turn slept on the other channel. *)
Lemma wakes_sleep k p p' chs t :
  sleep_ok k p t → end_ok p t →
  (RCH ∈ chs ∨ readopen p = false ∨ (k = false → empty p = true → empty p' = true) ∧
     (writeopen p = true → writeopen p' = true)) →
  (WCH ∈ chs ∨ (full p = true → full p' = true) ∧ (readopen p = true → readopen p' = true)) →
  sleep_ok k p' (wakes chs t).
Proof.
  unfold sleep_ok, wakes. destruct (t_sleep t) as [ch|] eqn:E; [|by rewrite E].
  intros Hc He HR HW. case_decide as Hin; [done|]. rewrite E. unfold end_ok, reading in He.
  destruct (t_call t) as [|n addr|n]; [done| |].
  - destruct Hc as (-> & Hf & Hr). destruct HW as [?|[H1 H2]]; [done|]. auto.
  - destruct Hc as (-> & Hm & Hw). destruct He as [_ Hro]. specialize (Hro eq_refl).
    destruct HR as [?|[?|[H1 H2]]]; [done|congruence|]. auto.
Qed.

Section Leave.
Variables (y : sys) (i : nat) (s : pstate) (t u : thr).
Hypothesis Hy : sys_ok y.
Hypothesis Hi : y_thr y !! i = Some t.
Hypothesis Hk : t_killed u = t_killed t.

Lemma leave_killed : any_killed (y_thr (leave y i s u)) = any_killed (y_thr y).
Proof.
  cbn. rewrite (any_killed_insert _ _ (wakes (p_woken s) t)); [apply any_killed_wakes| |].
  - by rewrite list_lookup_fmap, Hi.
  - by rewrite wakes_killed.
Qed.

Lemma leave_sleep :
  sleep_ok (any_killed (y_thr y)) (pp s) u →
  (RCH ∈ p_woken s ∨ readopen (y_pipe y) = false ∨
     (any_killed (y_thr y) = false → empty (y_pipe y) = true → empty (pp s) = true) ∧
     (writeopen (y_pipe y) = true → writeopen (pp s) = true)) →
  (WCH ∈ p_woken s ∨ (full (y_pipe y) = true → full (pp s) = true) ∧
     (readopen (y_pipe y) = true → readopen (pp s) = true)) →
  Forall (sleep_ok (any_killed (y_thr (leave y i s u))) (pp s)) (y_thr (leave y i s u)).
Proof.
  intros Hu HR HW. rewrite leave_killed. cbn. apply Forall_insert; [|done]. apply Forall_fmap.
  eapply Forall_impl; [apply Forall_and, (conj (sy_sleep _ Hy) (sy_end _ Hy))|].
  intros v [Hv Hve]. by apply (wakes_sleep _ (y_pipe y)).
Qed.

Lemma leave_end :
  end_ok (pp s) u →
  readopen (pp s) = readopen (y_pipe y) → writeopen (pp s) = writeopen (y_pipe y) →
  Forall (end_ok (pp s)) (y_thr (leave y i s u)).
Proof.
  intros Hu Hr Hw. cbn. apply Forall_insert; [|done]. apply Forall_fmap.
  eapply Forall_impl; [exact (sy_end _ Hy)|]. intros v Hv. apply wakes_end. unfold end_ok in *. by rewrite Hr, Hw.
Qed.

End Leave.

Lemma full_empty p : pipe_wf p → full p = true → empty p = false.
Proof.
  intros W. rewrite full_count, empty_count by done. intros E%Z.eqb_eq. by rewrite E.
Qed.

(** ** Every step keeps the invariant *)

Lemma step_write_turn y i t n addr out left s :
  sys_ok y → y_thr y !! i = Some t → t_call t = PWrite n addr → t_sleep t = None →
  pipewrite n addr (enter y t) = Ret (out, left) s →
  let y' := leave y i s (after out (PWrite n left) t) in
  sys_ok (Sys (y_pipe y') (y_thr y') (y_in y ++ take (length addr - length left) addr) (y_out y)
    (y_freed y')).
Proof.
  intros Hy Hi Hc Hsl E.
  destruct (write_loop_spec n addr (set_lock (T := PipeLock) true (enter y t)))
    as (out' & left' & dn & s' & E' & Ha & Hct & W & Hlk & Hkl & Hfr & Hro & Hwo & Hout);
    [done|apply Hy|].
  unfold pipewrite, bind, acquire in E. cbn in E', E. rewrite E' in E. injection E as <- <- <-.
  cbn in Hct, Hfr, Hro, Hwo, Hout.
  assert (Hfull : full (y_pipe y) = true → full (pp s') = true).
  { rewrite !full_count by (done || apply Hy). intros Hf%Z.eqb_eq. apply Z.eqb_eq.
    pose proof (length_contents (pp s')). pose proof (length_contents (y_pipe y)).
    pose proof (pw_count _ W). rewrite Hct, length_app in *. lia. }
  assert (Hcall : end_ok (y_pipe y) t) by (by apply (Forall_lookup_1 _ _ _ _ (sy_end _ Hy) Hi)).
  assert (Hk : t_killed (after out' (PWrite n left') t) = t_killed t) by (by destruct out').
  split; cbn [y_pipe y_thr y_in y_out y_freed leave].
  - done.
  - rewrite Ha at 2. rewrite Ha at 1. rewrite length_app, Nat.add_sub, take_app_length.
    rewrite Hct, (sy_fifo _ Hy). by rewrite app_assoc.
  - apply (leave_sleep y i s' t _ Hy Hi Hk).
    + destruct out' as [r|ch]; [done|]. cbn. destruct Hout as (-> & _ & Hf & Hr & _). done.
    + destruct out' as [r|ch].
      * destruct Hout as [(_ & _ & ->)|(_ & Hf & [Hr|Hkd] & ->)]; [left; set_solver| |].
        -- right. left. by rewrite Hro in Hr.
        -- right. right. split; [|by rewrite Hwo]. intros Hak. cbn in Hkd.
           by rewrite (any_killed_lookup _ _ _ Hi Hkd) in Hak.
      * destruct Hout as (_ & _ & _ & _ & _ & ->). left. set_solver.
    + right. split; [done|by rewrite Hro].
  - apply (leave_end y i s' _ Hy); [|done..]. unfold end_ok, writing, reading in *. rewrite Hro, Hwo.
    rewrite Hc in Hcall. destruct out'; cbn; [done|]. tauto.
  - rewrite Hfr, Hro, Hwo. apply Hy.
Qed.

Lemma piperead_spec n s :
  p_lock s = false → pipe_wf (pp s) →
  ∃ out cs s', piperead n s = Ret (out, cs) s' ∧
    contents (pp s) = cs ++ contents (pp s') ∧ pipe_wf (pp s') ∧ p_lock s' = false ∧
    p_freed s' = p_freed s ∧ readopen (pp s') = readopen (pp s) ∧
    writeopen (pp s') = writeopen (pp s) ∧
    match out with
    | Slept ch => ch = RCH ∧ pp s' = pp s ∧ empty (pp s) = true ∧ writeopen (pp s) = true ∧
        p_woken s' = p_woken s
    | Returned r =>
        r = -1 ∧ killed s = true ∧ pp s' = pp s ∧ p_woken s' = p_woken s ∨
        r = Z.of_nat (length cs) ∧ length cs = Nat.min (Z.to_nat n) (length (contents (pp s))) ∧
        p_woken s' = p_woken s ++ [WCH]
    end.
Proof.
  intros Hlk W. unfold piperead, bind, acquire, gets, release, modify, wake, ret. cbn [lock_held pipe_has_lock].
  rewrite Hlk. cbn. destruct (empty (pp s) && writeopen (pp s)) eqn:E; cbn.
  - apply andb_true_iff in E as [Ee Ew]. destruct (killed s) eqn:Ek.
    + eexists (Returned (-1)), [], _. split; [done|]. cbn. split_and!; try done. left. done.
    + eexists (Slept RCH), [], _. split; [done|]. cbn. split_and!; done.
  - pose proof (read_loop_spec (Z.to_nat n) (pp s) W) as R.
    destruct (read_loop (Z.to_nat n) (pp s)) as [cs p'] eqn:Er. destruct R as (W' & Hc & Hl & Hro & Hwo).
    eexists (Returned (Z.of_nat (length cs))), cs, _. split; [done|]. cbn. split_and!; try done. by right.
Qed.

Lemma contents_empty p : pipe_wf p → empty p = true ↔ contents p = [].
Proof.
  intros W. rewrite empty_count by done. rewrite Z.eqb_eq, <- length_contents.
  rewrite <- length_zero_iff_nil. lia.
Qed.

Lemma step_read_turn y i t n out cs s :
  sys_ok y → y_thr y !! i = Some t → t_call t = PRead n → t_sleep t = None →
  piperead n (enter y t) = Ret (out, cs) s →
  let y' := leave y i s (after out (PRead n) t) in
  sys_ok (Sys (y_pipe y') (y_thr y') (y_in y) (y_out y ++ cs) (y_freed y')).
Proof.
  intros Hy Hi Hc Hsl E.
  destruct (piperead_spec n (enter y t)) as (out' & cs' & s' & E' & Hct & W & Hlk & Hfr & Hro & Hwo & Hout);
    [done|apply Hy|].
  rewrite E' in E. injection E as <- <- <-. cbn in Hct, Hfr, Hro, Hwo, Hout.
  assert (Hcall : end_ok (y_pipe y) t) by (by apply (Forall_lookup_1 _ _ _ _ (sy_end _ Hy) Hi)).
  assert (Hk : t_killed (after out' (PRead n) t) = t_killed t) by (by destruct out').
  split; cbn [y_pipe y_thr y_in y_out y_freed leave].
  - done.
  - rewrite (sy_fifo _ Hy), Hct. apply app_assoc.
  - apply (leave_sleep y i s' t _ Hy Hi Hk).
    + destruct out' as [r|ch]; [done|]. cbn. by destruct Hout as (-> & -> & He & Hw & _).
    + right. right. split; [|by rewrite Hwo]. intros _. rewrite !contents_empty by (done || apply Hy).
      rewrite Hct. intros [_ ->]%app_eq_nil. done.
    + destruct out' as [r|ch].
      * destruct Hout as [(_ & _ & -> & _)|(_ & _ & ->)]; [by right|left; set_solver].
      * destruct Hout as (_ & -> & _). by right.
  - apply (leave_end y i s' _ Hy); [|done..]. unfold end_ok, writing, reading in *. rewrite Hro, Hwo.
    rewrite Hc in Hcall. destruct out'; cbn; [done|]. tauto.
  - rewrite Hfr, Hro, Hwo. apply Hy.
Qed.

(** [pipeclose] closes one end, wakes the other side, and frees the pipe when
    both ends are closed. *)
Lemma pipeclose_spec (w : bool) s :
  p_lock s = false → p_freed s = negb (readopen (pp s)) && negb (writeopen (pp s)) →
  ∃ s', pipeclose w s = Ret tt s' ∧
    pp s' = Pipe (p_data (pp s)) (nread (pp s)) (nwrite (pp s))
      (readopen (pp s) && w) (writeopen (pp s) && negb w) ∧
    p_woken s' = p_woken s ++ [if w then RCH else WCH] ∧
    p_freed s' = negb (readopen (pp s')) && negb (writeopen (pp s')).
Proof.
  intros Hlk Hfr. unfold pipeclose, bind, acquire, gets, release, modify, wake, ret.
  cbn [lock_held pipe_has_lock]. rewrite Hlk. cbn. destruct s as [lk [d nr nw ro wo] k wk fr]. cbn in *.
  destruct w, ro, wo; cbn in *; eexists; split; try done; cbn; by rewrite ?Hfr.
Qed.

Lemma step_close y i t (w : bool) s :
  sys_ok y → y_thr y !! i = Some t → t_call t = PIdle →
  Forall (λ t, (if w then writing t else reading t) = false) (y_thr y) →
  pipeclose w (enter y t) = Ret tt s → sys_ok (leave y i s t).
Proof.
  intros Hy Hi Hc Hno E.
  destruct (pipeclose_spec w (enter y t)) as (s' & E' & Hp & Hw & Hf); [done|apply Hy|].
  rewrite E' in E. injection E as <-. cbn in Hp, Hw, Hf.
  assert (Hsl : t_sleep t = None).
  { pose proof (Forall_lookup_1 _ _ _ _ (sy_sleep _ Hy) Hi) as Hs. unfold sleep_ok in Hs.
    rewrite Hc in Hs. by destruct (t_sleep t). }
  split; cbn [y_pipe y_in y_out y_freed leave].
  - rewrite Hp. split; cbn; apply Hy.
  - rewrite (sy_fifo _ Hy), Hp. done.
  - apply (leave_sleep y i s' t t Hy Hi eq_refl).
    + unfold sleep_ok. by rewrite Hsl.
    + rewrite Hw, Hp. destruct w; cbn; [left; set_solver|]. right. right. split; [done|].
      by rewrite andb_true_r.
    + rewrite Hw, Hp. destruct w; cbn; [|left; set_solver]. right. split; [done|]. by rewrite andb_true_r.
  - apply Forall_insert.
    + apply Forall_fmap. apply Forall_forall. intros u Hu. apply wakes_end.
      pose proof (proj1 (Forall_forall _ _) (sy_end _ Hy) u Hu) as [Hu1 Hu2].
      pose proof (proj1 (Forall_forall _ _) Hno u Hu) as Hu3. rewrite Hp.
      destruct w; split; intros H; cbn; rewrite ?andb_true_r; auto; congruence.
    + unfold end_ok, writing, reading. by rewrite Hc.
  - exact Hf.
Qed.

Lemma step_ok y y' : pstep y y' → sys_ok y → sys_ok y'.
Proof.
  intros Hst Hy. destruct Hst as [i t addr Hi Hc Ho|i t n Hi Hc Ho|i t n addr out left s Hi Hc Hs E
    |i t n out cs s Hi Hc Hs E|i t Hi|i t w s Hi Hc Ho Hno E].
  - assert (Hk : any_killed (<[i := Thr (PWrite (Z.of_nat (length addr)) addr) None (t_killed t)]> (y_thr y))
      = any_killed (y_thr y)) by (by eapply any_killed_insert).
    split; cbn [y_pipe y_thr y_in y_out y_freed]; rewrite ?Hk; try apply Hy.
    + apply Forall_insert; [apply Hy|done].
    + apply Forall_insert; [apply Hy|]. by split.
  - assert (Hk : any_killed (<[i := Thr (PRead n) None (t_killed t)]> (y_thr y))
      = any_killed (y_thr y)) by (by eapply any_killed_insert).
    split; cbn [y_pipe y_thr y_in y_out y_freed]; rewrite ?Hk; try apply Hy.
    + apply Forall_insert; [apply Hy|done].
    + apply Forall_insert; [apply Hy|]. by split.
  - by apply (step_write_turn y i t n addr).
  - by apply (step_read_turn y i t n out).
  - assert (Hk : any_killed (<[i := Thr (t_call t) None true]> (y_thr y)) = true).
    { apply (any_killed_lookup _ i (Thr (t_call t) None true)); [|done].
      apply list_lookup_insert_eq. by apply lookup_lt_Some in Hi. }
    split; cbn [y_pipe y_thr y_in y_out y_freed]; try apply Hy; rewrite ?Hk.
    + apply Forall_insert; [|done]. eapply Forall_impl; [exact (sy_sleep _ Hy)|].
      intros u. unfold sleep_ok. destruct (t_sleep u); [|done]. destruct (t_call u); [done..|]. by intros (-> & _ & ?).
    + apply Forall_insert; [apply Hy|]. apply (Forall_lookup_1 _ _ _ _ (sy_end _ Hy) Hi).
  - by apply (step_close y i t w).
Qed.

(** ** The theorems *)

(** A new pipe with [n] processes that are not using it yet. *)
Definition sys_new (n : nat) : sys := Sys pipe_new (replicate n (Thr PIdle None false)) [] [] false.

Lemma sys_new_ok n : sys_ok (sys_new n).
Proof.
  split; cbn; try done.
  - apply Forall_replicate. done.
  - apply Forall_replicate. by split.
Qed.

Lemma reachable_ok n y : rtc pstep (sys_new n) y → sys_ok y.
Proof.
  intros Hs. pose proof (sys_new_ok n) as H. revert H. induction Hs; eauto using step_ok.
Qed.

(** C19. A pipe is a queue: over every interleaving of reads, writes, closes and
    kills, the bytes read so far followed by the bytes in the pipe are the
    bytes written so far, in order; there are never more than [PIPESIZE] bytes
    in it; and its page is freed exactly when both ends are closed. *)
Theorem pipe_fifo n y :
  rtc pstep (sys_new n) y →
  y_in y = y_out y ++ contents (y_pipe y) ∧
  Z.of_nat (length (contents (y_pipe y))) <= PIPESIZE ∧
  y_freed y = negb (readopen (y_pipe y)) && negb (writeopen (y_pipe y)).
Proof.
  intros Hs. apply reachable_ok in Hs as [W Hf _ _ Hfr]. split; [done|]. split; [|done].
  rewrite length_contents. apply W.
Qed.

(** Process 1 writes two bytes and process 0 reads them. *)
Lemma two_bytes_run : ∃ y, rtc pstep (sys_new 2) y ∧ y_out y = [65; 66] ∧ contents (y_pipe y) = [].
Proof.
  eexists. split; [|split].
  - eapply rtc_l; [eapply (P_write _ 1 _ [65; 66]); reflexivity|].
    eapply rtc_l; [eapply (P_write_turn _ 1); reflexivity|].
    eapply rtc_l; [eapply (P_read _ 0 _ 10); reflexivity|].
    eapply rtc_l; [eapply (P_read_turn _ 0); reflexivity|]. reflexivity.
  - vm_compute. reflexivity.
  - vm_compute. reflexivity.
Qed.

Lemma pipe_fifo_witness :
  ∃ y, rtc pstep (sys_new 2) y ∧ y_in y = [65; 66] ∧ y_out y = [65; 66].
Proof.
  destruct two_bytes_run as (y & Hs & Ho & Hc). exists y.
  destruct (pipe_fifo 2 y Hs) as [Hf _]. rewrite Ho, Hc in Hf. done.
Defined.

(** C20. No wake-up is lost while no process is killed: a process that sleeps in
    [piperead] finds the pipe empty with the write end open, and one that
    sleeps in [pipewrite] finds it full with the read end open; so a reader and
    a writer are never asleep at the same time. *)
Theorem pipe_no_lost_wakeup n y i t ch :
  rtc pstep (sys_new n) y → any_killed (y_thr y) = false →
  y_thr y !! i = Some t → t_sleep t = Some ch →
  (ch = RCH ∧ reading t = true ∧ contents (y_pipe y) = [] ∧ writeopen (y_pipe y) = true ∧
     (∀ j u, y_thr y !! j = Some u → t_sleep u ≠ Some WCH)) ∨
  (ch = WCH ∧ writing t = true ∧ Z.of_nat (length (contents (y_pipe y))) = PIPESIZE ∧
     readopen (y_pipe y) = true).
Proof.
  intros Hs Hk Hi Hsl. apply reachable_ok in Hs as Hy. pose proof (sy_pipe _ Hy) as W.
  assert (Hall : ∀ j u, y_thr y !! j = Some u → sleep_ok false (y_pipe y) u).
  { intros j u Hu. rewrite <- Hk. apply (Forall_lookup_1 _ _ _ _ (sy_sleep _ Hy) Hu). }
  pose proof (Hall i t Hi) as Ht. unfold sleep_ok in Ht. rewrite Hsl in Ht.
  unfold reading, writing. destruct (t_call t) as [|m addr|m]; [done|right|left].
  - destruct Ht as (-> & Hf & Hr). split_and!; try done.
    rewrite length_contents. rewrite full_count in Hf by done. by apply Z.eqb_eq.
  - destruct Ht as (-> & He & Hw). specialize (He eq_refl). split_and!; try done.
    + by apply contents_empty.
    + intros j u Hu Hu'. pose proof (Hall j u Hu) as Hsu. unfold sleep_ok in Hsu. rewrite Hu' in Hsu.
      destruct (t_call u); [done| |by destruct Hsu].
      destruct Hsu as (_ & Hf & _). rewrite (full_empty _ W Hf) in He. done.
Qed.

Lemma pipe_no_lost_wakeup_witness :
  ∃ y, rtc pstep (sys_new 2) y ∧ contents (y_pipe y) = [] ∧ writeopen (y_pipe y) = true.
Proof.
  assert (Hs : ∃ y, rtc pstep (sys_new 2) y ∧ any_killed (y_thr y) = false ∧
    y_thr y !! 0%nat = Some (Thr (PRead 10) (Some RCH) false)).
  { eexists. split; [|split].
    - eapply rtc_l; [eapply (P_read _ 0 _ 10); reflexivity|].
      eapply rtc_l; [eapply (P_read_turn _ 0); reflexivity|]. reflexivity.
    - reflexivity.
    - reflexivity. }
  destruct Hs as (y & Hs & Hk & Hi). exists y. split; [done|].
  destruct (pipe_no_lost_wakeup 2 y 0 _ RCH Hs Hk Hi eq_refl) as [(_ & _ & Hc & Hw & _)|(E & _)]; [done|].
  discriminate E.
Defined.

(** A killed writer can leave a reader asleep beside a full pipe: when the
    pipe fills up, [pipewrite] returns -1 without waking the readers of the
    bytes it has put in; a second writer keeps the write end open. *)
Theorem killed_writer_loses_wakeup :
  ∃ y, rtc pstep (sys_new 3) y ∧
    y_thr y !! 0%nat = Some (Thr (PRead 1) (Some RCH) false) ∧
    length (contents (y_pipe y)) = 512%nat ∧ readopen (y_pipe y) = true.
Proof.
  eexists. split_and!.
  - eapply rtc_l; [eapply (P_read _ 0 _ 1); reflexivity|].
    eapply rtc_l; [eapply (P_read_turn _ 0); reflexivity|].
    eapply rtc_l; [eapply (P_write _ 1 _ (replicate 513 65)); reflexivity|].
    eapply rtc_l; [eapply (P_kill _ 1); reflexivity|].
    eapply rtc_l; [eapply (P_write_turn _ 1); [reflexivity..|vm_compute; reflexivity]|]. reflexivity.
  - vm_compute. reflexivity.
  - vm_compute. reflexivity.
  - vm_compute. reflexivity.
Qed.
