(* ===== verification/File.v ===== *)
(** * Open files (xv6A1/file.c, [pipealloc] of pipe.c)

    The table of open files on top of the inodes, the log's operations and the
    pipes. The state has the file system, the file table, the pipes by the
    address of their page, the page allocator, and of the running process its
    descriptors and its memory. A call that sleeps ends in the state it leaves
    behind; resuming a pipe call is the step relation of Pipe.v. *)

From S2P Require Import Prelude Memory Spinlock Kalloc BlockCache Layout Log TxDisk FsLayout Fs Pipe Args.

Definition NFILE : nat := 100.

Inductive fdtype := FD_NONE | FD_PIPE | FD_INODE.

#[export] Instance fdtype_eq_dec : EqDecision fdtype.
Proof. solve_decision. Defined.

Record file := File {
  f_type : fdtype;
  f_ref : Z;
  readable : bool;
  writable : bool;
  f_pipe : Z;
  f_ip : nat;
  f_off : Z }.

#[export] Instance file_inhabited : Inhabited file := populate (File FD_NONE 0 false false 0 0 0).

Definition set_fref (v : Z) (f : file) : file :=
  File (f_type f) v (readable f) (writable f) (f_pipe f) (f_ip f) (f_off f).
Definition set_ftype (v : fdtype) (f : file) : file :=
  File v (f_ref f) (readable f) (writable f) (f_pipe f) (f_ip f) (f_off f).
Definition set_off (v : Z) (f : file) : file :=
  File (f_type f) (f_ref f) (readable f) (writable f) (f_pipe f) (f_ip f) v.
(** The assignments of [pipealloc] and of [sys_open]. *)
Definition as_pipe (r w : bool) (p : Z) (f : file) : file :=
  File FD_PIPE (f_ref f) r w p (f_ip f) (f_off f).
Definition as_inode (ip : nat) (r w : bool) (f : file) : file :=
  File FD_INODE (f_ref f) r w (f_pipe f) ip 0.

Record kst (S : Type) := KSt {
  fsys : fstate S;
  ft_lock : bool;
  ftable : list file;
  pipes : gmap Z pstate;
  pages : kstate;
  ofile : list (option nat);
  uproc_of : uproc;
  is_killed : bool }.
Arguments KSt {S} _ _ _ _ _ _ _ _.
Arguments fsys {S} _.
Arguments ft_lock {S} _.
Arguments ftable {S} _.
Arguments pipes {S} _.
Arguments pages {S} _.
Arguments ofile {S} _.
Arguments uproc_of {S} _.
Arguments is_killed {S} _.

Inductive FtableLock : Set := .

#[export] Instance ftable_has_lock S : HasLock FtableLock (kst S).
Proof.
  refine {| lock_held := ft_lock;
            set_lock b s := KSt (fsys s) b (ftable s) (pipes s) (pages s) (ofile s) (uproc_of s) (is_killed s) |};
    by intros; destruct s.
Defined.

Definition set_fsys {S} (v : fstate S) (s : kst S) : kst S :=
  KSt v (ft_lock s) (ftable s) (pipes s) (pages s) (ofile s) (uproc_of s) (is_killed s).
Definition set_ftable {S} (f : list file → list file) (s : kst S) : kst S :=
  KSt (fsys s) (ft_lock s) (f (ftable s)) (pipes s) (pages s) (ofile s) (uproc_of s) (is_killed s).
Definition set_pipes {S} (v : gmap Z pstate) (s : kst S) : kst S :=
  KSt (fsys s) (ft_lock s) (ftable s) v (pages s) (ofile s) (uproc_of s) (is_killed s).
Definition set_pages {S} (v : kstate) (s : kst S) : kst S :=
  KSt (fsys s) (ft_lock s) (ftable s) (pipes s) v (ofile s) (uproc_of s) (is_killed s).
Definition set_ofiles {S} (f : list (option nat) → list (option nat)) (s : kst S) : kst S :=
  KSt (fsys s) (ft_lock s) (ftable s) (pipes s) (pages s) (f (ofile s)) (uproc_of s) (is_killed s).
Definition set_uproc {S} (f : uproc → uproc) (s : kst S) : kst S :=
  KSt (fsys s) (ft_lock s) (ftable s) (pipes s) (pages s) (ofile s) (f (uproc_of s)) (is_killed s).

(** A routine on a part of the state. *)
Definition on_part {S T A} (get : S → T) (set : T → S → S) (m : M T A) : M S A := λ s,
  match m (get s) with
  | Ret a t => Ret a (set t s)
  | Panic e => Panic e
  | Sleep ch t => Sleep ch (set t s)
  | Fault e => Fault e
  end.

Section File.
Context {S : Type} `{!TxDisk S} `{!TxOps S} `{!Devsw S}.
(** The end of the kernel image, for the page allocator. *)
Context (kend : Z).

Definition on_fs {A} (m : M (fstate S) A) : M (kst S) A := on_part fsys set_fsys m.
Definition on_pages {A} (m : M kstate A) : M (kst S) A := on_part pages set_pages m.

Definition begin_op : M (kst S) unit := on_fs (on_disk d_begin).
Definition end_op : M (kst S) unit := on_fs (on_disk d_end).

Definition the_file (f : nat) : M (kst S) file := gets (λ s, ftable s !!! f).
Definition upd_file (f : nat) (g : file → file) : M (kst S) unit := modify (set_ftable (alter g f)).

(** The current process writes the bytes into its memory. *)
Definition poke_user (a : Z) (bs : list Z) : M (kst S) unit :=
  modify (set_uproc (λ u, set_umem (poke (u_mem u) a bs) u)).
Definition peek_user (a n : Z) : M (kst S) (list Z) :=
  gets (λ s, peek (u_mem (uproc_of s)) a (Z.to_nat n)).

(** A call on the pipe at address [p]; a pipe whose page is freed is gone. *)
Definition on_pipe {A} (p : Z) (m : M pstate A) : M (kst S) A := λ s,
  match pipes s !! p with
  | None => Fault "no pipe"
  | Some ps =>
      match m (PState (p_lock ps) (pp ps) (is_killed s) (p_woken ps) (p_freed ps)) with
      | Ret a ps' => Ret a (set_pipes (<[p := ps']> (pipes s)) s)
      | Panic e => Panic e
      | Sleep ch ps' => Sleep ch (set_pipes (<[p := ps']> (pipes s)) s)
      | Fault e => Fault e
      end
  end.

(** The channel a pipe call sleeps on, for the pipe at [p]. *)
Definition pipe_chan (p : Z) (ch : chan) : chan :=
  match ch with ChPipeR _ => ChPipeR p | ChPipeW _ => ChPipeW p | _ => ch end.

Definition end_turn (p : Z) (t : turn) : M (kst S) Z :=
  match t with
  | Returned r => ret r
  | Slept ch => sleep_on (pipe_chan p ch)
  end.

(** [pipeclose], with the page of a closed pipe given back. *)
Definition close_pipe (p : Z) (w : bool) : M (kst S) unit :=
  on_pipe p (pipeclose w) ;;;
  freed <- gets (λ s, match pipes s !! p with Some ps => p_freed ps | None => false end) ;;
  when freed do
    (on_pages (kfree kend p) ;;;
     modify (λ s, set_pipes (delete p (pipes s)) s)).

Definition fileinit : M (kst S) unit := modify (set_lock (T := FtableLock) false).

Definition filealloc : M (kst S) (option nat) :=
  acquire FtableLock ;;;
  fs <- gets ftable ;;
  match list_find (λ f, f_ref f = 0) fs with
  | Some (i, _) =>
      upd_file i (set_fref 1) ;;;
      release FtableLock ;;;
      ret (Some i)
  | None =>
      release FtableLock ;;;
      ret None
  end.

Definition filedup (f : nat) : M (kst S) nat :=
  acquire FtableLock ;;;
  ff <- the_file f ;;
  if f_ref ff <? 1 then panic "filedup" else
  upd_file f (set_fref (f_ref ff + 1)) ;;;
  release FtableLock ;;;
  ret f.

Definition fileclose (f : nat) : M (kst S) unit :=
  acquire FtableLock ;;;
  ff <- the_file f ;;
  if f_ref ff <? 1 then panic "fileclose" else
  upd_file f (set_fref (f_ref ff - 1)) ;;;
  if 0 <? f_ref ff - 1 then release FtableLock else
  upd_file f (λ f, set_ftype FD_NONE (set_fref 0 f)) ;;;
  release FtableLock ;;;
  match f_type ff with
  | FD_PIPE => close_pipe (f_pipe ff) (writable ff)
  | FD_INODE =>
      begin_op ;;;
      on_fs (iput (f_ip ff)) ;;;
      end_op
  | FD_NONE => ret tt
  end.

(** The fields of [struct stat] at their offsets. *)
Definition poke_stat (st : Z) (t : stat) : M (kst S) unit :=
  poke_user st (bytes16 (st_type t)) ;;;
  poke_user (st + 4) (bytes32 (st_dev t)) ;;;
  poke_user (st + 8) (bytes32 (st_ino t)) ;;;
  poke_user (st + 12) (bytes16 (st_nlink t)) ;;;
  poke_user (st + 16) (bytes32 (st_size t)).

Definition filestat (f : nat) (st : Z) : M (kst S) Z :=
  ff <- the_file f ;;
  match f_type ff with
  | FD_INODE =>
      on_fs (ilock (Some (f_ip ff))) ;;;
      t <- on_fs (stati (f_ip ff)) ;;
      poke_stat st t ;;;
      on_fs (iunlock (Some (f_ip ff))) ;;;
      ret 0
  | _ => ret (-1)
  end.

Definition fileread (f : nat) (addr n : Z) : M (kst S) Z :=
  ff <- the_file f ;;
  if negb (readable ff) then ret (-1) else
  match f_type ff with
  | FD_PIPE =>
      p <- on_pipe (f_pipe ff) (piperead n) ;;
      let '(t, bs) := p in
      poke_user addr bs ;;;
      end_turn (f_pipe ff) t
  | FD_INODE =>
      on_fs (ilock (Some (f_ip ff))) ;;;
      p <- on_fs (readi (f_ip ff) (f_off ff) n) ;;
      let '(r, bs) := p in
      poke_user addr bs ;;;
      (when 0 <? r do upd_file f (set_off (u32 (f_off ff + r)))) ;;;
      on_fs (iunlock (Some (f_ip ff))) ;;;
      ret r
  | FD_NONE => panic "fileread"
  end.

(** [max] of [filewrite]. *)
Definition WRMAX : Z := (MAXOPBLOCKS - 1 - 1 - 2) / 2 * 512.

(** The loop of [filewrite] with [i] bytes written: the final [i]. *)
Fixpoint filewrite_loop (f : nat) (addr n i : Z) (fuel : nat) : M (kst S) Z :=
  if negb (i <? n) then ret i else
  match fuel with
  | O => fault "filewrite: fuel"
  | Datatypes.S fuel' =>
      let n1 := if WRMAX <? n - i then WRMAX else n - i in
      begin_op ;;;
      ff <- the_file f ;;
      on_fs (ilock (Some (f_ip ff))) ;;;
      ff <- the_file f ;;
      src <- peek_user (addr + i) n1 ;;
      r <- on_fs (writei (f_ip ff) src (f_off ff) n1) ;;
      (when 0 <? r do upd_file f (set_off (u32 (f_off ff + r)))) ;;;
      on_fs (iunlock (Some (f_ip ff))) ;;;
      end_op ;;;
      if r <? 0 then ret i else
      if negb (r =? n1) then panic "short filewrite" else
      filewrite_loop f addr n (i + r) fuel'
  end.

(** Every turn but the last writes [WRMAX] bytes. *)
Definition filewrite (f : nat) (addr n : Z) : M (kst S) Z :=
  ff <- the_file f ;;
  if negb (writable ff) then ret (-1) else
  match f_type ff with
  | FD_PIPE =>
      src <- peek_user addr n ;;
      p <- on_pipe (f_pipe ff) (pipewrite n src) ;;
      let '(t, _) := p in
      end_turn (f_pipe ff) t
  | FD_INODE =>
      i <- filewrite_loop f addr n 0 (Z.to_nat (n / WRMAX + 1)) ;;
      ret (if i =? n then n else -1)
  | FD_NONE => panic "filewrite"
  end.

(** [bad:] of [pipealloc]. *)
Definition pipealloc_bad (p : Z) (f0 f1 : option nat) : M (kst S) (option (nat * nat)) :=
  (when negb (p =? 0) do on_pages (kfree kend p)) ;;;
  match f0 with Some f => fileclose f | None => ret tt end ;;;
  match f1 with Some f => fileclose f | None => ret tt end ;;;
  ret None.

(** The contents of the fresh page stay in [p_data]. *)
Definition pipealloc : M (kst S) (option (nat * nat)) :=
  f0 <- filealloc ;;
  match f0 with
  | None => pipealloc_bad 0 None None
  | Some i0 =>
      f1 <- filealloc ;;
      match f1 with
      | None => pipealloc_bad 0 (Some i0) None
      | Some i1 =>
          p <- on_pages kalloc ;;
          if p =? 0 then pipealloc_bad 0 (Some i0) (Some i1) else
          k <- gets (λ s, kmem (pages s)) ;;
          modify (λ s, set_pipes
            (<[p := PState false (Pipe (peek k (p + 52) 512) 0 0 true true) false [] false]> (pipes s)) s) ;;;
          upd_file i0 (as_pipe true false p) ;;;
          upd_file i1 (as_pipe false true p) ;;;
          ret (Some (i0, i1))
      end
  end.

End File.
