(* ===== verification/FileProps.v ===== *)
(** * Writing a file through its descriptor

    [filewrite] splits a write into transactions. A file at rest (no operation
    running, its inode cached and unlocked) is at rest again after each of
    them; each fits the log; together they write all the bytes. Proved against
    the interface of the disk with transactions, which the log implements. *)

From S2P Require Import Prelude Memory Spinlock Kalloc BlockCache Layout Log TxDisk FsLayout.
From S2P Require Import Fs FsBlocks FsMap FsData FsCache FsDir Pipe Args File.

(** ** Bytes *)

Lemma peek_app m a n k : peek m a (n + k) = peek m a n ++ peek m (a + Z.of_nat n) k.
Proof.
  revert a. induction n as [|n IH]; intros a; [by rewrite Z.add_0_r|].
  rewrite Nat.add_succ_l, !peek_S, IH. cbn [app]. do 3 f_equal. lia.
Qed.

Lemma overwrite_app bs off s1 s2 :
  (off <= length bs)%nat →
  overwrite (overwrite bs off s1) (off + length s1) s2 = overwrite bs off (s1 ++ s2).
Proof.
  intros Ho. unfold overwrite. set (A := take off bs ++ s1).
  assert (HA : length A = (off + length s1)%nat) by (unfold A; rewrite length_app, length_take; lia).
  rewrite (app_assoc (take off bs) s1), (take_app_length' A), drop_app_ge by (fold A; lia).
  fold A. unfold A at 1. rewrite <- !app_assoc. do 3 f_equal.
  rewrite drop_drop, length_app. f_equal. lia.
Qed.

Lemma overwrite_nil bs off : (off <= length bs)%nat → overwrite bs off [] = bs.
Proof. intros Ho. unfold overwrite. cbn [length app]. rewrite Nat.add_0_r. apply take_drop. Qed.

(** ** A file at rest *)

Section Rest.
Context {S : Type} `{!TxDisk S} `{!TxOps S} `{!Devsw S}.

Record at_rest (s : fstate S) (i : nat) (ip : inode) (a : txdisk) : Prop := {
  ar_slot : icache s !! i = Some ip;
  ar_ref : 1 <= i_ref ip;
  ar_lock : sl_locked (i_lock ip) = false;
  ar_valid : i_valid ip = true;
  ar_dev : i_dev ip = ROOTDEV;
  ar_inum : 0 <= i_inum ip < sb_ninodes (fs_sb s);
  ar_disk : d_ok (disk s) a;
  ar_quiet : td_quiet a;
  ar_geom : geom (fs_sb s) a;
  ar_blocks : blocks_ok (fs_sb s) (td_view a);
  ar_file : file_ok (fs_sb s) (td_view a) (i_di ip);
  ar_di : dinode_ok (i_di ip);
  ar_type : di_type (i_di ip) ≠ T_DEV }.

Lemma at_di_slot (s : fstate S) i ip d di :
  icache s !! i = Some ip → at_di s i d di = set_disk d (with_slot i (set_di (λ _, di) ip) s).
Proof.
  intros Hi. unfold at_di, with_slot, set_icache. by rewrite (alter_slot _ _ _ _ Hi).
Qed.

(** Locking and unlocking an inode that has been read. *)
Lemma ilock_valid_run (s : fstate S) i ip :
  icache s !! i = Some ip → 1 <= i_ref ip → sl_locked (i_lock ip) = false → i_valid ip = true →
  ilock (Some i) s = Ret tt (with_slot i (set_ilock (SLk true (fs_pid s)) ip) s).
Proof.
  intros Hi Hr Hl Hv. unfold ilock. run (the_run s i ip Hi). rewrite (proj2 (Z.ltb_ge _ _)) by lia.
  run (lock_inode_run s i ip Hi Hl).
  run (the_run (with_slot i (set_ilock (SLk true (fs_pid s)) ip) s) i (set_ilock (SLk true (fs_pid s)) ip)
    (list_lookup_insert_eq _ _ _ (lookup_lt_Some _ _ _ Hi))).
  cbn [i_valid set_ilock]. by rewrite Hv.
Qed.

Lemma iunlock_run (s : fstate S) i ip :
  icache s !! i = Some ip → 1 <= i_ref ip → i_lock ip = SLk true (fs_pid s) →
  iunlock (Some i) s = Ret tt (with_slot i (set_ilock (SLk false 0) ip) s).
Proof.
  intros Hi Hr Hl. unfold iunlock. run (the_run s i ip Hi). runs. unfold holdingsleep. rewrite Hl. cbn.
  rewrite Z.eqb_refl, (proj2 (Z.ltb_ge _ _)) by lia. by apply upd_run.
Qed.

Lemma budget_begin sb a n :
  (card (bm_blocks sb) + n < Z.to_nat MAXOPBLOCKS)%nat → budget sb (td_begin a) n.
Proof. intros Hn. unfold budget. cbn [td_begin td_logged td_cap]. by rewrite union_empty_l_L. Qed.

(** Beginning and ending an operation changes no file. *)
Lemma begin_map sb d (a : txdisk) di :
  geom sb a → blocks_ok sb (td_view a) → file_ok sb (td_view a) di → d_ok d (td_begin a) →
  map_ok sb d (td_begin a) di.
Proof.
  intros G B F H. split; [done|by destruct G| |done|apply F].
  split; cbn; [rewrite map_size_empty; unfold MAXHELD; lia|rewrite map_img_empty_L; set_solver|done].
Qed.

Lemma end_files sb (a : txdisk) (v : Z → block) :
  geom sb a → blocks_ok sb (td_view a) →
  (∀ k, ¬ (td_log a <= k < td_log a + td_nlog a) → v k = td_view a k) → (∀ k, length (v k) = 512%nat) →
  geom sb (td_end v a) ∧ blocks_ok sb v ∧
  (∀ di, file_ok sb (td_view a) di → file_ok sb v di ∧ content v di = content (td_view a) di) ∧
  (∀ n, avail sb (td_view a) n → avail sb v n).
Proof.
  intros G B A Hlen. destruct (geom_nums _ _ G) as (? & ? & ?). destruct (g_log _ _ G) as [El En].
  assert (A' : ∀ k, sb_bmapstart sb <= k < sb_size sb → v k = td_view a k)
    by (intros k Hk; apply A; rewrite El, En; destruct G; lia).
  split_and!.
  - destruct G. by split.
  - split; [done| |].
    + rewrite A; [apply B|]. rewrite El. destruct G. lia.
    + intros k Hk. rewrite (used_agree sb a (td_view a) v) by (done || destruct G; lia). by apply B.
  - intros di. by apply (file_agree sb a).
  - intros n. by apply (avail_agree sb a).
Qed.

(** One turn of [filewrite]'s loop, up to the file offset: the state after each
    of its five calls, and the file at rest again. *)
Lemma write_turn (s : fstate S) i ip a src off :
  at_rest s i ip a → let sb := fs_sb s in let n := Z.of_nat (length src) in
  0 <= off <= di_size (i_di ip) → off + n <= MAXFILE * BSIZE →
  (card (bm_blocks sb) + (2 + nturns off n) < Z.to_nat MAXOPBLOCKS)%nat →
  avail sb (td_view a) (nturns off n + ineed (i_di ip)) →
  ∃ s1 s2 s3 s4 d5 ip' a', on_disk d_begin s = Ret tt s1 ∧ ilock (Some i) s1 = Ret tt s2 ∧
    writei i src off n s2 = Ret n s3 ∧ iunlock (Some i) s3 = Ret tt s4 ∧
    let s5 := set_disk d5 (with_slot i ip' s) in
    on_disk d_end s4 = Ret tt s5 ∧ at_rest s5 i ip' a' ∧
    content (td_view a') (i_di ip') = overwrite (content (td_view a) (i_di ip)) (Z.to_nat off) src ∧
    di_size (i_di ip') = Z.max (di_size (i_di ip)) (off + n) ∧
    (∀ m, avail sb (td_view a) (m + nturns off n + ineed (i_di ip)) →
      avail sb (td_view a') (m + ineed (i_di ip'))).
Proof.
  intros [Hi Hr Hl Hv Hd Hn H Q G B F D Ht] sb n Ho Hmax Hbud Hav.
  destruct (d_begin_ok _ _ H Q) as (d1 & E1 & H1).
  set (ip1 := set_ilock (SLk true (fs_pid s)) ip).
  set (s2 := with_slot i ip1 (set_disk d1 s)). pose proof (lookup_lt_Some _ _ _ Hi) as Hlt.
  assert (H2 : icache s2 !!! i = ip1) by (cbn; by rewrite list_lookup_total_insert_eq).
  assert (Hlt2 : (i < length (icache s2))%nat) by (cbn; by rewrite length_insert).
  destruct (writei_run s2 i sb Hlt2) with (d := d1) (a := td_begin a) (di := i_di ip) (src := src) (off := off)
    as (d3 & a3 & di3 & E3 & O3 & F3 & D3 & (l & Hdi) & C3 & Ev & _ & Hav3); rewrite ?H2; try done.
  { by apply begin_map. }
  { eapply budget_le; [|exact (budget_begin sb a _ Hbud)]. fold n. unfold icost. destruct (_ && _); lia. }
  set (ip3 := set_di (λ _, di3) ip1). set (ip4 := set_ilock (SLk false 0) ip3).
  assert (Es2 : at_di s2 i d1 (i_di ip) = s2) by (rewrite <- (at_di_id s2 i Hlt2) at 2; by rewrite H2).
  assert (Es3 : at_di s2 i d3 di3 = set_disk d3 (with_slot i ip3 s2)).
  { apply at_di_slot. cbn. by apply list_lookup_insert_eq. }
  rewrite Es2, Es3 in E3. destruct (d_end_ok _ _ (mo_disk _ _ _ _ O3)) as (d5 & v & E5 & H5 & A5 & L5).
  { by rewrite (ev_ops _ _ _ _ Ev). }
  { by rewrite (ev_held _ _ _ _ Ev). }
  { by rewrite (ev_dirty _ _ _ _ Ev). }
  pose proof (ev_geom _ _ _ _ Ev) as G3. pose proof (ev_ok _ _ _ _ Ev) as B3.
  destruct (end_files sb a3 v G3 B3 A5 (L5 (bo_len _ _ B3))) as (G5 & B5 & F5 & Av5).
  destruct (F5 di3 F3) as [F5' C5].
  exists (set_disk d1 s), s2, (set_disk d3 (with_slot i ip3 s2)), (with_slot i ip4 (set_disk d3 (with_slot i ip3 s2))),
    d5, ip4, (td_end v a3).
  assert (Es5 : set_disk d5 (with_slot i ip4 (set_disk d3 (with_slot i ip3 s2))) = set_disk d5 (with_slot i ip4 s)).
  { destruct s. unfold s2, with_slot, set_icache, set_disk. cbn. by rewrite !list_insert_insert_eq. }
  cbv zeta. split_and!.
  - unfold on_disk. by rewrite E1.
  - exact (ilock_valid_run (set_disk d1 s) i ip Hi Hr Hl Hv).
  - exact E3.
  - refine (iunlock_run (set_disk d3 (with_slot i ip3 s2)) i ip3 _ Hr eq_refl).
    apply list_lookup_insert_eq. cbn. by rewrite !length_insert.
  - unfold on_disk. cbn [disk with_slot set_icache set_disk]. rewrite E5. f_equal. exact Es5.
  - split; try done; cbn [icache fs_sb disk set_disk with_slot set_icache].
    + by apply list_lookup_insert_eq.
    + split; try done. cbn. destruct (g_log _ _ G3) as [_ ->]. unfold sb. destruct (g_log _ _ G) as [_ <-]. apply Q.
    + cbn. by rewrite Hdi.
  - etrans; [exact C5|exact C3].
  - change (i_di ip4) with di3. by rewrite Hdi.
  - intros m Hm. apply Av5, Hav3. exact Hm.
Qed.

End Rest.

(** ** The loop of [filewrite] *)

Lemma nturns_max off n : 0 <= off → 0 <= n <= WRMAX → (nturns off n <= 4)%nat.
Proof.
  intros Ho Hn. change WRMAX with 1536 in Hn. unfold nturns, BSIZE. destruct (0 <? n); [|lia].
  Z.div_mod_to_equations. lia.
Qed.

Section Write.
Context {S : Type} `{!TxDisk S} `{!TxOps S} `{!Devsw S}.

(** The state with the file system replaced and the offset of file [f] set. *)
Definition at_file (s : kst S) (F : fstate S) (f : nat) (off : Z) : kst S :=
  set_fsys F (set_ftable (alter (set_off off) f) s).

Lemma on_fs_run {A} (m : M (fstate S) A) (s : kst S) x F :
  m (fsys s) = Ret x F → on_fs m s = Ret x (set_fsys F s).
Proof. intros E. unfold on_fs, on_part. by rewrite E. Qed.

Lemma at_file_twice (s : kst S) F1 F2 f o1 o2 :
  at_file (at_file s F1 f o1) F2 f o2 = at_file s F2 f o2.
Proof.
  destruct s as [fs fl ft pi pa ofs u k]. unfold at_file, set_fsys, set_ftable. cbn. f_equal.
  apply list_eq. intros j. destruct (decide (j = f)) as [->|].
  - rewrite !list_lookup_alter_eq. by destruct (ft !! f) as [[]|].
  - by rewrite !list_lookup_alter_ne.
Qed.

Lemma at_file_id (s : kst S) f ff : ftable s !! f = Some ff → at_file s (fsys s) f (f_off ff) = s.
Proof.
  intros Hf. destruct s as [fs fl ft pi pa ofs u k]. unfold at_file, set_fsys, set_ftable. cbn in *. f_equal.
  rewrite (alter_slot _ _ _ _ Hf). apply list_insert_id. rewrite Hf. by destruct ff.
Qed.

Lemma filewrite_step (s : kst S) f ff addr n pos fuel ip a :
  ftable s !! f = Some ff → at_rest (fsys s) (f_ip ff) ip a → 0 <= pos < n →
  let sb := fs_sb (fsys s) in let n1 := Z.min WRMAX (n - pos) in let off := f_off ff in
  let src := peek (u_mem (uproc_of s)) (addr + pos) (Z.to_nat n1) in
  0 <= off <= di_size (i_di ip) → off + n1 <= MAXFILE * BSIZE → (card (bm_blocks sb) <= 3)%nat →
  avail sb (td_view a) (4 + ineed (i_di ip)) →
  ∃ d' ip' a', let F := set_disk d' (with_slot (f_ip ff) ip' (fsys s)) in
    filewrite_loop f addr n pos (Datatypes.S fuel) s =
      filewrite_loop f addr n (pos + n1) fuel (at_file s F f (off + n1)) ∧
    at_rest F (f_ip ff) ip' a' ∧
    content (td_view a') (i_di ip') = overwrite (content (td_view a) (i_di ip)) (Z.to_nat off) src ∧
    di_size (i_di ip') = Z.max (di_size (i_di ip)) (off + n1) ∧
    (∀ m, avail sb (td_view a) (m + 4 + ineed (i_di ip)) → avail sb (td_view a') (m + ineed (i_di ip'))).
Proof.
  intros Hf R Hpos sb n1 off src Ho Hmax Hbm Hav. change (MAXFILE * BSIZE) with 71680 in Hmax.
  assert (Hn1 : 0 < n1 <= WRMAX) by (unfold n1; change WRMAX with 1536; lia).
  assert (Hsrc : Z.of_nat (length src) = n1) by (unfold src; rewrite length_peek; lia).
  pose proof (nturns_max off n1 ltac:(lia) ltac:(lia)) as Ht.
  destruct (write_turn (fsys s) (f_ip ff) ip a src off R)
    as (s1 & s2 & s3 & s4 & d5 & ip' & a' & E1 & E2 & E3 & E4 & E5 & R' & C' & Hs' & Hav'); rewrite ?Hsrc in *; try done.
  { change (Z.to_nat MAXOPBLOCKS) with 10%nat. fold sb. lia. }
  { refine (avail_le _ _ _ _ _ Hav). lia. }
  exists d5, ip', a'. cbv zeta. split_and!; try done.
  2: { intros m Hm. apply Hav'. refine (avail_le _ _ _ _ _ Hm). lia. }
  cbn [filewrite_loop]. rewrite (proj2 (Z.ltb_lt _ _)) by lia. cbn [negb].
  replace (if WRMAX <? n - pos then WRMAX else n - pos) with n1
    by (unfold n1; destruct (Z.ltb_spec WRMAX (n - pos)); lia).
  assert (Hft : ∀ G, the_file f (set_fsys G s) = Ret ff (set_fsys G s))
    by (intros G; unfold the_file, gets; cbn; by rewrite (list_lookup_total_correct _ _ _ Hf)).
  run (on_fs_run _ s _ _ E1 : begin_op s = _). run (Hft s1).
  run (on_fs_run (ilock (Some (f_ip ff))) (set_fsys s1 s) _ _ E2). run (Hft s2).
  assert (Ep : peek_user (addr + pos) n1 (set_fsys s2 s) = Ret src (set_fsys s2 s)) by done. run Ep.
  run (on_fs_run (writei (f_ip ff) src off n1) (set_fsys s2 s) _ _ E3).
  rewrite (proj2 (Z.ltb_lt 0 n1)), u32_small by (fold off; lia).
  assert (Eu : upd_file f (set_off (off + n1)) (set_fsys s3 s) = Ret tt (at_file s s3 f (off + n1))) by done. run Eu.
  run (on_fs_run (iunlock (Some (f_ip ff))) (at_file s s3 f (off + n1)) _ _ E4).
  run (on_fs_run _ (at_file s s4 f (off + n1)) _ _ E5 : end_op _ = _).
  rewrite (proj2 (Z.ltb_ge n1 0)), Z.eqb_refl by lia. cbn [negb]. done.
Qed.

Lemma filewrite_loop_run addr n fuel : ∀ (s : kst S) f ff pos ip a,
  ftable s !! f = Some ff → at_rest (fsys s) (f_ip ff) ip a → 0 <= pos <= n →
  let sb := fs_sb (fsys s) in let off := f_off ff in
  let src := peek (u_mem (uproc_of s)) (addr + pos) (Z.to_nat (n - pos)) in
  0 <= off <= di_size (i_di ip) → off + (n - pos) <= MAXFILE * BSIZE → (card (bm_blocks sb) <= 3)%nat →
  n - pos <= Z.of_nat fuel * WRMAX → avail sb (td_view a) (4 * fuel + ineed (i_di ip)) →
  ∃ F ip' a', filewrite_loop f addr n pos fuel s = Ret n (at_file s F f (off + (n - pos))) ∧
    at_rest F (f_ip ff) ip' a' ∧ (∀ j, j ≠ f_ip ff → icache F !! j = icache (fsys s) !! j) ∧
    content (td_view a') (i_di ip') = overwrite (content (td_view a) (i_di ip)) (Z.to_nat off) src ∧
    di_size (i_di ip') = Z.max (di_size (i_di ip)) (off + (n - pos)).
Proof.
  induction fuel as [|fuel IH]; intros s f ff pos ip a Hf R Hpos sb off src Ho Hmax Hbm Hfu Hav.
  all: destruct (decide (pos = n)) as [->|Hne].
  2: change WRMAX with 1536 in Hfu; lia.
  1, 2: exists (fsys s), ip, a; unfold src, off; rewrite Z.sub_diag, Z.add_0_r, (at_file_id s f ff Hf);
    cbn [filewrite_loop]; rewrite Z.ltb_irrefl; cbn [negb]; split_and!; try done;
    [rewrite overwrite_nil; [done|rewrite length_content; fold off; lia]|fold off; lia].
  set (n1 := Z.min WRMAX (n - pos)).
  assert (Hn1 : 0 < n1 <= n - pos) by (unfold n1; change WRMAX with 1536; lia).
  destruct (filewrite_step s f ff addr n pos fuel ip a Hf R) as (d1 & ip1 & a1 & E1 & R1 & C1 & Hs1 & Hav1);
    fold n1; try done; try lia.
  { refine (avail_le _ _ _ _ _ Hav). lia. }
  fold n1 off in E1, C1, Hs1. set (F1 := set_disk d1 (with_slot (f_ip ff) ip1 (fsys s))) in *.
  destruct (IH (at_file s F1 f (off + n1)) f (set_off (off + n1) ff) (pos + n1) ip1 a1)
    as (F & ip' & a' & E & R' & Ho' & C' & Hs'); cbn [f_off f_ip set_off fsys at_file set_fsys] in *; try done; try lia.
  { cbn. by rewrite list_lookup_alter_eq, Hf. }
  { unfold n1 in *. change WRMAX with 1536 in *. lia. }
  { apply Hav1. refine (avail_le _ _ _ _ _ Hav). lia. }
  exists F, ip', a'. split_and!.
  - rewrite E1, E, at_file_twice. do 2 f_equal. lia.
  - exact R'.
  - intros j Hj. rewrite Ho' by done. cbn. by rewrite list_lookup_insert_ne.
  - rewrite C', C1. cbn [uproc_of at_file set_fsys set_ftable].
    replace (Z.to_nat (off + n1)) with (Z.to_nat off + Z.to_nat n1)%nat by lia.
    rewrite <- (length_peek (u_mem (uproc_of s)) (addr + pos) (Z.to_nat n1)) at 2.
    rewrite overwrite_app by (rewrite length_content; lia). f_equal. unfold src.
    replace (Z.to_nat (n - pos)) with (Z.to_nat n1 + Z.to_nat (n - (pos + n1)))%nat by lia.
    rewrite peek_app. do 2 f_equal. lia.
  - rewrite Hs', Hs1. lia.
Qed.

(** C15. [filewrite] on a file writes all the bytes, in transactions that fit
    the log. For an offset within the file, a length that keeps the file within
    the [MAXFILE] blocks an inode can have, enough free blocks on the disk and a
    free map of up to three blocks, no turn of the loop needs more than the
    [MAXOPBLOCKS] blocks an operation may log, whatever the alignment of the
    offset. It returns [n]; the file's contents from its offset
    on are the bytes at [addr]; the offset moved by [n]; no other file
    structure, no other cached inode and nothing of the process changed; and
    no operation is left running. *)
Theorem filewrite_writes (s : kst S) f ff addr n ip a :
  ftable s !! f = Some ff → f_type ff = FD_INODE → writable ff = true → at_rest (fsys s) (f_ip ff) ip a →
  let sb := fs_sb (fsys s) in let off := f_off ff in
  let src := peek (u_mem (uproc_of s)) addr (Z.to_nat n) in
  0 <= n → 0 <= off <= di_size (i_di ip) → off + n <= MAXFILE * BSIZE → (card (bm_blocks sb) <= 3)%nat →
  avail sb (td_view a) (4 * Z.to_nat (n / WRMAX + 1) + ineed (i_di ip)) →
  ∃ F ip' a', filewrite f addr n s = Ret n (at_file s F f (off + n)) ∧
    at_rest F (f_ip ff) ip' a' ∧ (∀ j, j ≠ f_ip ff → icache F !! j = icache (fsys s) !! j) ∧
    content (td_view a') (i_di ip') = overwrite (content (td_view a) (i_di ip)) (Z.to_nat off) src ∧
    di_size (i_di ip') = Z.max (di_size (i_di ip)) (off + n).
Proof.
  intros Hf Ht Hw R sb off src Hn Ho Hmax Hbm Hav.
  destruct (filewrite_loop_run addr n (Z.to_nat (n / WRMAX + 1)) s f ff 0 ip a Hf R)
    as (F & ip' & a' & E & R' & Hj & C' & Hs'); rewrite ?Z.sub_0_r, ?Z.add_0_r in *; try done; try lia.
  { change WRMAX with 1536. Z.div_mod_to_equations. lia. }
  exists F, ip', a'. split_and!; try done.
  unfold filewrite. assert (Eft : the_file f s = Ret ff s)
    by (unfold the_file, gets; by rewrite (list_lookup_total_correct _ _ _ Hf)).
  run Eft. rewrite Hw, Ht. cbn [negb]. run E. by rewrite Z.eqb_refl.
Qed.

End Write.
