(* ===== verification/Sysfile.v ===== *)
(** * File-system calls (xv6A1/sysfile.c)

    Every call of sysfile.c, with the checks of its arguments, on the state of
    File.v. A call returns the number that goes into [eax]. [exec] itself is
    Exec's: [sys_exec] ends with the path and the argument vector it passes. *)

From S2P Require Import Prelude Memory Spinlock Kalloc BlockCache Layout Log TxDisk FsLayout.
From S2P Require Import Fs Pipe Args File.

Definition NOFILE : nat := 16.
Definition MAXARG : nat := 32.
Definition O_RDONLY : Z := 0x000.
Definition O_WRONLY : Z := 0x001.
Definition O_RDWR : Z := 0x002.
Definition O_CREATE : Z := 0x200.

Section Sysfile.
Context {S : Type} `{!TxDisk S} `{!TxOps S} `{!Devsw S}.
Context (kend : Z).
(** The bytes a name buffer on the stack has before it is filled. *)
Context (junk : list Z).

(** The descriptor and the file of argument [n]. *)
Definition argfd (n : Z) : M (kst S) (option (nat * nat)) :=
  s <- gets id ;;
  match argint (uproc_of s) n with
  | None => ret None
  | Some fd =>
      if (fd <? 0) || (Z.of_nat NOFILE <=? fd) then ret None else
      match ofile s !! Z.to_nat fd with
      | Some (Some f) => ret (Some (Z.to_nat fd, f))
      | _ => ret None
      end
  end.

Definition arg_int (n : Z) : M (kst S) (option Z) := gets (λ s, argint (uproc_of s) n).
Definition arg_ptr (n size : Z) : M (kst S) (option Z) := gets (λ s, argptr (uproc_of s) n size).
Definition arg_str (n : Z) : M (kst S) (option (list Z)) :=
  gets (λ s, option_map (str_at (uproc_of s)) (argstr (uproc_of s) n)).

Definition set_fd (fd : nat) (f : option nat) : M (kst S) unit := modify (set_ofiles (<[fd := f]>)).

Definition fdalloc (f : nat) : M (kst S) (option nat) :=
  fds <- gets ofile ;;
  match list_find (λ o, o = None) fds with
  | Some (fd, _) => set_fd fd (Some f) ;;; ret (Some fd)
  | None => ret None
  end.

Definition sys_dup : M (kst S) Z :=
  a <- argfd 0 ;;
  match a with
  | None => ret (-1)
  | Some (_, f) =>
      r <- fdalloc f ;;
      match r with
      | None => ret (-1)
      | Some fd => filedup f ;;; ret (Z.of_nat fd)
      end
  end.

Definition sys_read : M (kst S) Z :=
  a <- argfd 0 ;;
  match a with None => ret (-1) | Some (_, f) =>
  n <- arg_int 2 ;;
  match n with None => ret (-1) | Some n =>
  p <- arg_ptr 1 n ;;
  match p with None => ret (-1) | Some p => fileread f p n end end end.

Definition sys_write : M (kst S) Z :=
  a <- argfd 0 ;;
  match a with None => ret (-1) | Some (_, f) =>
  n <- arg_int 2 ;;
  match n with None => ret (-1) | Some n =>
  p <- arg_ptr 1 n ;;
  match p with None => ret (-1) | Some p => filewrite f p n end end end.

Definition sys_close : M (kst S) Z :=
  a <- argfd 0 ;;
  match a with
  | None => ret (-1)
  | Some (fd, f) =>
      set_fd fd None ;;;
      fileclose kend f ;;;
      ret 0
  end.

(** [sizeof(struct stat)] is 20. *)
Definition sys_fstat : M (kst S) Z :=
  a <- argfd 0 ;;
  match a with None => ret (-1) | Some (_, f) =>
  st <- arg_ptr 1 20 ;;
  match st with None => ret (-1) | Some st => filestat f st end end.

Definition the_ip (i : nat) : M (kst S) inode := on_fs (the i).

(** [ip->nlink += d] with [ip] a short. *)
Definition add_nlink (i : nat) (d : Z) : M (kst S) unit :=
  on_fs (upd i (set_di (λ di, set_nlink (s16 (di_nlink di + d)) di))).

(** [bad:] of [sys_link]. *)
Definition link_bad (ip : nat) : M (kst S) Z :=
  on_fs (ilock (Some ip)) ;;;
  add_nlink ip (-1) ;;;
  on_fs (iupdate ip) ;;;
  on_fs (iunlockput ip) ;;;
  end_op ;;;
  ret (-1).

Definition sys_link : M (kst S) Z :=
  o <- arg_str 0 ;;
  match o with None => ret (-1) | Some old =>
  o <- arg_str 1 ;;
  match o with None => ret (-1) | Some new =>
  begin_op ;;;
  r <- on_fs (namei old junk) ;;
  match r with None => end_op ;;; ret (-1) | Some ip =>
  on_fs (ilock (Some ip)) ;;;
  p <- the_ip ip ;;
  if di_type (i_di p) =? T_DIR then on_fs (iunlockput ip) ;;; end_op ;;; ret (-1) else
  add_nlink ip 1 ;;;
  on_fs (iupdate ip) ;;;
  on_fs (iunlock (Some ip)) ;;;
  r <- on_fs (nameiparent new junk) ;;
  match r with
  | (None, _) => link_bad ip
  | (Some dp, name) =>
      on_fs (ilock (Some dp)) ;;;
      d <- the_ip dp ;;
      p <- the_ip ip ;;
      r <- (if negb (i_dev d =? i_dev p) then ret (-1) else on_fs (dirlink dp name (i_inum p))) ;;
      if r <? 0 then on_fs (iunlockput dp) ;;; link_bad ip else
      on_fs (iunlockput dp) ;;;
      on_fs (iput ip) ;;;
      end_op ;;;
      ret 0
  end end end end.

(** The loop of [isdirempty] at offset [off]; [dp->size] is a uint. *)
Fixpoint isdirempty_loop (dp : nat) (off : Z) (fuel : nat) : M (kst S) bool :=
  match fuel with
  | O => fault "isdirempty: fuel"
  | Datatypes.S fuel' =>
      d <- the_ip dp ;;
      if negb (off <? di_size (i_di d)) then ret true else
      p <- on_fs (readi dp off DESZ) ;;
      let '(r, bs) := p in
      if negb (r =? DESZ) then panic "isdirempty: readi" else
      if negb (de_inum (get_dirent bs) =? 0) then ret false
      else isdirempty_loop dp (off + DESZ) fuel'
  end.

Definition isdirempty (dp : nat) : M (kst S) bool :=
  d <- the_ip dp ;;
  isdirempty_loop dp (2 * DESZ) (entries (di_size (i_di d))).

Definition dot : list Z := [46].
Definition dotdot : list Z := [46; 46].

(** [bad:] of [sys_unlink]. *)
Definition unlink_bad (dp : nat) : M (kst S) Z :=
  on_fs (iunlockput dp) ;;;
  end_op ;;;
  ret (-1).

Definition sys_unlink : M (kst S) Z :=
  o <- arg_str 0 ;;
  match o with None => ret (-1) | Some path =>
  begin_op ;;;
  r <- on_fs (nameiparent path junk) ;;
  match r with (None, _) => end_op ;;; ret (-1) | (Some dp, name) =>
  on_fs (ilock (Some dp)) ;;;
  if (namecmp name dot =? 0) || (namecmp name dotdot =? 0) then unlink_bad dp else
  r <- on_fs (dirlookup dp name) ;;
  match r with None => unlink_bad dp | Some (ip, off) =>
  on_fs (ilock (Some ip)) ;;;
  p <- the_ip ip ;;
  if di_nlink (i_di p) <? 1 then panic "unlink: nlink < 1" else
  full <- (if di_type (i_di p) =? T_DIR then e <- isdirempty ip ;; ret (negb e) else ret false) ;;
  if (full : bool) then on_fs (iunlockput ip) ;;; unlink_bad dp else
  r <- on_fs (writei dp (replicate (Z.to_nat DESZ) 0) off DESZ) ;;
  if negb (r =? DESZ) then panic "unlink: writei" else
  p <- the_ip ip ;;
  (when di_type (i_di p) =? T_DIR do
     (add_nlink dp (-1) ;;;
      on_fs (iupdate dp))) ;;;
  on_fs (iunlockput dp) ;;;
  add_nlink ip (-1) ;;;
  on_fs (iupdate ip) ;;;
  on_fs (iunlockput ip) ;;;
  end_op ;;;
  ret 0
  end end end.

(** The entries "." and ".." of the new directory [ip] in [dp]. *)
Definition create_dots (ip dp : nat) : M (kst S) unit :=
  add_nlink dp 1 ;;;
  on_fs (iupdate dp) ;;;
  p <- the_ip ip ;;
  r <- on_fs (dirlink ip dot (i_inum p)) ;;
  d <- the_ip dp ;;
  r <- (if r <? 0 then ret r else on_fs (dirlink ip dotdot (i_inum d))) ;;
  if r <? 0 then panic "create dots" else ret tt.

Definition create (path : list Z) (type major minor : Z) : M (kst S) (option nat) :=
  r <- on_fs (nameiparent path junk) ;;
  match r with (None, _) => ret None | (Some dp, name) =>
  on_fs (ilock (Some dp)) ;;;
  r <- on_fs (dirlookup dp name) ;;
  match r with
  | Some (ip, _) =>
      on_fs (iunlockput dp) ;;;
      on_fs (ilock (Some ip)) ;;;
      p <- the_ip ip ;;
      if (type =? T_FILE) && (di_type (i_di p) =? T_FILE) then ret (Some ip) else
      on_fs (iunlockput ip) ;;;
      ret None
  | None =>
      d <- the_ip dp ;;
      ip <- on_fs (ialloc (i_dev d) type) ;;
      on_fs (ilock (Some ip)) ;;;
      on_fs (upd ip (set_di (λ di, set_nlink 1 (set_dev_nums (s16 major) (s16 minor) di)))) ;;;
      on_fs (iupdate ip) ;;;
      (when type =? T_DIR do create_dots ip dp) ;;;
      p <- the_ip ip ;;
      r <- on_fs (dirlink dp name (i_inum p)) ;;
      if r <? 0 then panic "create: dirlink" else
      on_fs (iunlockput dp) ;;;
      ret (Some ip)
  end end.

(** The inode [sys_open] opens, locked. *)
Definition open_inode_of (path : list Z) (omode : Z) : M (kst S) (option nat) :=
  if negb (Z.land omode O_CREATE =? 0) then create path T_FILE 0 0 else
  r <- on_fs (namei path junk) ;;
  match r with None => ret None | Some ip =>
  on_fs (ilock (Some ip)) ;;;
  p <- the_ip ip ;;
  if (di_type (i_di p) =? T_DIR) && negb (omode =? O_RDONLY) then
    on_fs (iunlockput ip) ;;;
    ret None
  else ret (Some ip)
  end.

Definition sys_open : M (kst S) Z :=
  o <- arg_str 0 ;;
  match o with None => ret (-1) | Some path =>
  m <- arg_int 1 ;;
  match m with None => ret (-1) | Some omode =>
  begin_op ;;;
  r <- open_inode_of path omode ;;
  match r with None => end_op ;;; ret (-1) | Some ip =>
  f <- filealloc ;;
  fd <- match f with None => ret None | Some f => fdalloc f end ;;
  match f, fd with
  | Some f, Some fd =>
      on_fs (iunlock (Some ip)) ;;;
      end_op ;;;
      upd_file f (as_inode ip (Z.land omode O_WRONLY =? 0)
        (negb (Z.land omode O_WRONLY =? 0) || negb (Z.land omode O_RDWR =? 0))) ;;;
      ret (Z.of_nat fd)
  | _, _ =>
      match f with Some f => fileclose kend f | None => ret tt end ;;;
      on_fs (iunlockput ip) ;;;
      end_op ;;;
      ret (-1)
  end end end end.

Definition sys_mkdir : M (kst S) Z :=
  begin_op ;;;
  o <- arg_str 0 ;;
  r <- match o with None => ret None | Some path => create path T_DIR 0 0 end ;;
  match r with
  | None => end_op ;;; ret (-1)
  | Some ip => on_fs (iunlockput ip) ;;; end_op ;;; ret 0
  end.

Definition sys_mknod : M (kst S) Z :=
  begin_op ;;;
  o <- arg_str 0 ;;
  a <- arg_int 1 ;;
  b <- arg_int 2 ;;
  r <- match o, a, b with
       | Some path, Some major, Some minor => create path T_DEV major minor
       | _, _, _ => ret None
       end ;;
  match r with
  | None => end_op ;;; ret (-1)
  | Some ip => on_fs (iunlockput ip) ;;; end_op ;;; ret 0
  end.

Definition set_cwd_of (i : nat) : M (kst S) unit :=
  modify (λ s, set_fsys (FState (disk (fsys s)) (fs_sb (fsys s)) (icache_lock (fsys s)) (icache (fsys s))
    (fs_pid (fsys s)) i) s).

Definition sys_chdir : M (kst S) Z :=
  begin_op ;;;
  o <- arg_str 0 ;;
  r <- match o with None => ret None | Some path => on_fs (namei path junk) end ;;
  match r with None => end_op ;;; ret (-1) | Some ip =>
  on_fs (ilock (Some ip)) ;;;
  p <- the_ip ip ;;
  if negb (di_type (i_di p) =? T_DIR) then on_fs (iunlockput ip) ;;; end_op ;;; ret (-1) else
  on_fs (iunlock (Some ip)) ;;;
  cwd <- gets (λ s, fs_cwd (fsys s)) ;;
  on_fs (iput cwd) ;;;
  end_op ;;;
  set_cwd_of ip ;;;
  ret 0
  end.

(** The argument vector at [uargv] from entry [i] on, up to its null pointer. *)
Fixpoint fetch_argv (u : uproc) (uargv : Z) (i : nat) (n : nat) : option (list (list Z)) :=
  match n with
  | O => None
  | Datatypes.S n' =>
      match fetchint u (u32 (uargv + 4 * Z.of_nat i)) with
      | None => None
      | Some uarg =>
          if u32 uarg =? 0 then Some [] else
          match fetchstr u (u32 uarg) with
          | None => None
          | Some p => option_map (cons (str_at u p)) (fetch_argv u uargv (Datatypes.S i) n')
          end
      end
  end.

(** What [sys_exec] calls [exec] with, or [None] when it returns -1. *)
Definition sys_exec_args (u : uproc) : option (list Z * list (list Z)) :=
  match argstr u 0, argint u 1 with
  | Some p, Some uargv => option_map (pair (str_at u p)) (fetch_argv u (u32 uargv) 0 MAXARG)
  | _, _ => None
  end.

(** The two descriptors go to the two words at the argument. *)
Definition sys_pipe : M (kst S) Z :=
  p <- arg_ptr 0 8 ;;
  match p with None => ret (-1) | Some fd =>
  r <- pipealloc kend ;;
  match r with None => ret (-1) | Some (rf, wf) =>
  fd0 <- fdalloc rf ;;
  fd1 <- match fd0 with None => ret None | Some _ => fdalloc wf end ;;
  match fd0, fd1 with
  | Some fd0, Some fd1 =>
      poke_user fd (bytes32 (Z.of_nat fd0)) ;;;
      poke_user (fd + 4) (bytes32 (Z.of_nat fd1)) ;;;
      ret 0
  | _, _ =>
      match fd0 with Some fd0 => set_fd fd0 None | None => ret tt end ;;;
      fileclose kend rf ;;;
      fileclose kend wf ;;;
      ret (-1)
  end end end.

End Sysfile.
