(* ===== verification/SysfileProps.v ===== *)
(** * Descriptors and file structures

    The reference counts of the file table: each file structure has as many
    references as descriptors of processes refer to it. The calls of sysfile.c
    that make and close descriptors keep this, on every path through them,
    whatever the file system answers. *)

From S2P Require Import Prelude Memory Spinlock Kalloc BlockCache Layout Log TxDisk FsLayout.
From S2P Require Import Fs FsBlocks Pipe Args File Sysfile.

(** ** Reasoning about calls that return *)

Definition triple {S A} (P : S → Prop) (m : M S A) (Q : A → S → Prop) : Prop :=
  ∀ s r s', P s → m s = Ret r s' → Q r s'.

Section Triple.
Context {S : Type}.

Lemma t_ret {A} (P : S → Prop) (x : A) (Q : A → S → Prop) : (∀ s, P s → Q x s) → triple P (ret x) Q.
Proof. intros H s r s' HP [= <- <-]. auto. Qed.

Lemma t_bind {A B} (P : S → Prop) (m : M S A) (R : A → S → Prop) (k : A → M S B) Q :
  triple P m R → (∀ x, triple (R x) (k x) Q) → triple P (bind m k) Q.
Proof.
  intros Hm Hk s r s' HP. unfold bind. destruct (m s) as [x s1|?|? ?|?] eqn:E; try done.
  apply (Hk x). by apply (Hm s).
Qed.

Lemma t_gets {A} (P : S → Prop) (f : S → A) : triple P (gets f) (λ x s, P s ∧ x = f s).
Proof. by intros s r s' HP [= <- <-]. Qed.

Lemma t_modify (P : S → Prop) (f : S → S) (Q : unit → S → Prop) :
  (∀ s, P s → Q tt (f s)) → triple P (modify f) Q.
Proof. intros H s r s' HP [= <- <-]. auto. Qed.

Lemma t_panic {A} (P : S → Prop) msg (Q : A → S → Prop) : triple P (panic msg) Q.
Proof. by intros s r s' HP. Qed.

Lemma t_conseq {A} (P P' : S → Prop) (m : M S A) (Q Q' : A → S → Prop) :
  triple P' m Q' → (∀ s, P s → P' s) → (∀ x s, Q' x s → Q x s) → triple P m Q.
Proof. intros H HP HQ s r s' Hs E. apply HQ. eapply H; [|exact E]. auto. Qed.

End Triple.

(** ** Counting references *)

Definition fd_count (fds : list (option nat)) (f : nat) : Z := Z.of_nat (length (filter (λ o, o = Some f) fds)).
Definition one (f : nat) : nat → Z := λ g, if decide (g = f) then 1 else 0.
(** One reference more, or less, to [f]. *)
Definition more (f : nat) (o : nat → Z) : nat → Z := λ g, o g + one f g.
Definition less (f : nat) (o : nat → Z) : nat → Z := λ g, o g - one f g.

(** The references of the running process are its descriptors; [o] counts all
    others. *)
Record fd_ok {S} (o : nat → Z) (s : kst S) : Prop := {
  fk_len : length (ofile s) = NOFILE;
  fk_nfile : length (ftable s) = NFILE;
  fk_open : ∀ fd f, ofile s !! fd = Some (Some f) → (f < NFILE)%nat;
  fk_ref : ∀ f ff, ftable s !! f = Some ff → f_ref ff = o f + fd_count (ofile s) f }.

Lemma fd_count_insert fds fd old new f :
  fds !! fd = Some old →
  fd_count (<[fd := new]> fds) f =
    fd_count fds f - (if decide (old = Some f) then 1 else 0) + (if decide (new = Some f) then 1 else 0).
Proof.
  intros Hfd. rewrite <- (take_drop_middle fds fd old Hfd) at 2.
  rewrite insert_take_drop by (by eapply lookup_lt_Some). unfold fd_count.
  rewrite !filter_app, !filter_cons, !length_app. repeat case_decide; cbn [length]; lia.
Qed.

Lemma fd_count_pos fds fd f : fds !! fd = Some (Some f) → 1 <= fd_count fds f.
Proof.
  intros Hfd. pose proof (fd_count_insert fds fd (Some f) None f Hfd) as E.
  rewrite decide_True, decide_False in E by done. unfold fd_count in *. lia.
Qed.

Section Refs.
Context {S : Type} `{!TxDisk S} `{!TxOps S} `{!Devsw S}.
Context (kend : Z) (junk : list Z).

Lemma fd_ok_ext o o' (s : kst S) : (∀ f, o f = o' f) → fd_ok o s → fd_ok o' s.
Proof. intros E [Hl Hn Ho Hr]. split; [done..|]. intros f ff Hf. rewrite <- E. by apply Hr. Qed.

(** Only the descriptors and the reference counts matter. *)
Lemma fd_ok_same o (s s' : kst S) :
  ofile s' = ofile s → f_ref <$> ftable s' = f_ref <$> ftable s → fd_ok o s → fd_ok o s'.
Proof.
  intros Eo Ef [Hl Hn Ho Hr]. split; rewrite ?Eo; try done.
  - by rewrite <- (length_fmap f_ref (ftable s')), Ef, length_fmap.
  - intros f ff Hf. assert (Hf' : (f_ref <$> ftable s') !! f = Some (f_ref ff)) by (by rewrite list_lookup_fmap, Hf).
    rewrite Ef, list_lookup_fmap in Hf'. destruct (ftable s !! f) as [ff'|] eqn:E; [|done].
    injection Hf' as <-. by apply Hr.
Qed.

(** Setting the reference count of one file. *)
Lemma fd_ok_fref o (s : kst S) f g v :
  fd_ok o s → (∀ ff, f_ref (g ff) = v) →
  fd_ok (λ h, o h + (v - f_ref (ftable s !!! f)) * one f h) (set_ftable (alter g f) s).
Proof.
  intros [Hl Hn Ho Hr] Hg. split; cbn; [done|by rewrite length_alter|done|].
  - intros h hh Hh. unfold one. case_decide as E.
    + subst h. rewrite list_lookup_alter_eq in Hh. destruct (ftable s !! f) as [ff|] eqn:Ef; [|done].
      injection Hh as <-. rewrite Hg. rewrite (list_lookup_total_correct _ _ _ Ef).
      rewrite (Hr f ff Ef). lia.
    + rewrite list_lookup_alter_ne in Hh by done. rewrite (Hr h hh Hh). lia.
Qed.

Lemma t_on_fs {A} o (m : M (fstate S) A) : triple (fd_ok o) (on_fs m) (λ _, fd_ok o).
Proof.
  intros s r s' H. unfold on_fs, on_part. destruct (m (fsys s)); try done. intros [= <- <-].
  by apply (fd_ok_same o s).
Qed.

Lemma t_on_pages {A} o (m : M kstate A) : triple (fd_ok o) (on_pages (S := S) m) (λ _, fd_ok o).
Proof.
  intros s r s' H. unfold on_pages, on_part. destruct (m (pages s)); try done. intros [= <- <-].
  by apply (fd_ok_same o s).
Qed.

Lemma t_on_pipe {A} o p (m : M pstate A) : triple (fd_ok o) (on_pipe (S := S) p m) (λ _, fd_ok o).
Proof.
  intros s r s' H. unfold on_pipe. destruct (pipes s !! p) as [ps|]; [|done].
  destruct (m _); try done. intros [= <- <-]. by apply (fd_ok_same o s).
Qed.

Lemma t_acquire o : triple (fd_ok o) (acquire (S := kst S) FtableLock) (λ _, fd_ok o).
Proof. intros s r s' H. unfold acquire. destruct (lock_held s); [done|]. intros [= <- <-]. by apply (fd_ok_same o s). Qed.

Lemma t_release o : triple (fd_ok o) (release (S := kst S) FtableLock) (λ _, fd_ok o).
Proof. intros s r s' H. unfold release. destruct (lock_held s); [|done]. intros [= <- <-]. by apply (fd_ok_same o s). Qed.

Lemma t_keep o (f : kst S → kst S) :
  (∀ s, ofile (f s) = ofile s) → (∀ s, ftable (f s) = ftable s) → triple (fd_ok o) (modify f) (λ _, fd_ok o).
Proof. intros Ho Hf. apply t_modify. intros s H. apply (fd_ok_same o s); [done|by rewrite Hf|done]. Qed.

Lemma t_upd_file o f g : (∀ ff, f_ref (g ff) = f_ref ff) → triple (fd_ok o) (upd_file (S := S) f g) (λ _, fd_ok o).
Proof.
  intros Hg. apply t_modify. intros s H. apply (fd_ok_same o s); [done| |done]. cbn.
  apply list_eq. intros h. rewrite !list_lookup_fmap. destruct (decide (h = f)) as [->|].
  - rewrite list_lookup_alter_eq. destruct (ftable s !! f); cbn; [by rewrite Hg|done].
  - by rewrite list_lookup_alter_ne.
Qed.

(** Setting the count of [f] to [v]. *)
Lemma t_fref o f g v w :
  (∀ ff, f_ref (g ff) = v) →
  triple (λ s, fd_ok o s ∧ f_ref (ftable s !!! f) = w) (upd_file (S := S) f g)
    (λ _ s, fd_ok (λ h, o h + (v - w) * one f h) s).
Proof. intros Hg. apply t_modify. intros s [H <-]. by apply fd_ok_fref. Qed.

Lemma t_filealloc o :
  triple (fd_ok o) (filealloc (S := S)) (λ r s, fd_ok (match r with Some f => more f o | None => o end) s ∧
    match r with Some f => (f < NFILE)%nat | None => True end).
Proof.
  unfold filealloc. eapply t_bind; [apply t_acquire|intros ?; cbv beta]. eapply t_bind; [apply t_gets|].
  intros fs. cbv beta. destruct (list_find (λ f, f_ref f = 0) fs) as [[i f]|] eqn:E.
  - eapply t_bind with (R := λ _ s, fd_ok (more i o) s ∧ (i < NFILE)%nat).
    + intros s r s' [H ->] E'. apply list_find_Some in E as (Hi & H0 & _). split.
      * eapply fd_ok_ext; [|eapply (t_fref o i (set_fref 1) 1 0); [done| |exact E']].
        -- intros g. unfold more. lia.
        -- split; [done|]. by rewrite (list_lookup_total_correct _ _ _ Hi).
      * rewrite <- (fk_nfile _ _ H). by eapply lookup_lt_Some.
    + intros ?. cbv beta. eapply t_bind with (R := λ _ s, fd_ok (more i o) s ∧ (i < NFILE)%nat).
      * intros s r s' [H Hi] E'. split; [by apply (t_release _ s r s')|done].
      * intros ?. cbv beta. by apply t_ret.
  - eapply t_bind with (R := λ _, fd_ok o).
    + eapply t_conseq; [apply t_release|by intros s [? _]|done].
    + intros ?. cbv beta. apply t_ret. auto.
Qed.

Lemma t_filedup o f : triple (fd_ok o) (filedup (S := S) f) (λ _, fd_ok (more f o)).
Proof.
  unfold filedup. eapply t_bind; [apply t_acquire|intros ?; cbv beta]. eapply t_bind; [apply t_gets|].
  intros ff. cbv beta. destruct (f_ref ff <? 1); [apply t_panic|].
  eapply t_bind; [|intros ?; cbv beta; eapply t_bind; [apply t_release|intros ?; cbv beta; by apply t_ret]].
  eapply t_conseq; [apply (t_fref o f _ (f_ref ff + 1) (f_ref ff)); done|by intros s [? ->]|].
  intros ? s. apply fd_ok_ext. intros g. unfold more. lia.
Qed.

Lemma t_close_pipe o p w : triple (fd_ok o) (close_pipe (S := S) kend p w) (λ _, fd_ok o).
Proof.
  unfold close_pipe. eapply t_bind; [apply t_on_pipe|intros ?; cbv beta]. eapply t_bind; [apply t_gets|].
  intros []; cbv beta; [|apply t_ret; by intros s [? _]].
  eapply t_bind; [eapply t_conseq; [apply t_on_pages|by intros s [? _]|done]|intros ?; cbv beta]. by apply t_keep.
Qed.

(** Clearing the type of a file whose count is already 0. *)
Lemma t_clear o f :
  triple (λ s, fd_ok o s ∧ ∀ ff, ftable s !! f = Some ff → f_ref ff = 0)
    (upd_file (S := S) f (λ f, set_ftype FD_NONE (set_fref 0 f))) (λ _, fd_ok o).
Proof.
  apply t_modify. intros s [H Hz]. apply (fd_ok_same o s); [done| |done]. cbn.
  apply list_eq. intros h. rewrite !list_lookup_fmap. destruct (decide (h = f)) as [->|].
  - rewrite list_lookup_alter_eq. destruct (ftable s !! f); cbn; [by rewrite Hz|done].
  - by rewrite list_lookup_alter_ne.
Qed.

(** The last part of [fileclose]. *)
Lemma t_close_last o ff :
  triple (fd_ok o)
    match f_type ff with
    | FD_PIPE => close_pipe (S := S) kend (f_pipe ff) (writable ff)
    | FD_INODE => begin_op ;;; on_fs (iput (f_ip ff)) ;;; end_op
    | FD_NONE => ret tt
    end (λ _, fd_ok o).
Proof.
  destruct (f_type ff); [by apply t_ret|apply t_close_pipe|].
  eapply t_bind; [apply t_on_fs|intros ?; cbv beta]. eapply t_bind; [apply t_on_fs|intros ?; cbv beta]. apply t_on_fs.
Qed.

Lemma t_fileclose o f : triple (fd_ok (more f o)) (fileclose (S := S) kend f) (λ _, fd_ok o).
Proof.
  unfold fileclose. eapply t_bind; [apply t_acquire|intros ?; cbv beta]. eapply t_bind; [apply t_gets|].
  intros ff. cbv beta. destruct (Z.ltb_spec (f_ref ff) 1) as [|Hge]; [apply t_panic|].
  eapply t_bind with (R := λ _ s, fd_ok o s ∧ ∀ gg, ftable s !! f = Some gg → f_ref gg = f_ref ff - 1).
  { intros s r s' [H ->] E'. split.
    - eapply fd_ok_ext; [|eapply (t_fref (more f o) f (set_fref (f_ref (ftable s !!! f) - 1)) (f_ref (ftable s !!! f) - 1) (f_ref (ftable s !!! f)));
        [done|by split|exact E']].
      intros g. unfold more. lia.
    - injection E' as <- <-. cbn. intros gg. rewrite list_lookup_alter_eq. destruct (ftable s !! f) as [hh|] eqn:Ef; [|done].
      intros [= <-]. by rewrite (list_lookup_total_correct _ _ _ Ef). }
  intros ?. cbv beta. destruct (Z.ltb_spec 0 (f_ref ff - 1)).
  { eapply t_conseq; [apply t_release|by intros s [? _]|done]. }
  eapply t_bind.
  { eapply t_conseq; [apply (t_clear o f)| |done]. intros s [H0 Hz]. split; [done|]. intros gg Hg. rewrite (Hz gg Hg). lia. }
  intros ?. cbv beta. eapply t_bind; [apply t_release|intros ?; cbv beta]. apply t_close_last.
Qed.

Lemma t_set_fd o fd old new :
  triple (λ s, fd_ok o s ∧ ofile s !! fd = Some old ∧ match new with Some f => (f < NFILE)%nat | None => True end)
    (set_fd (S := S) fd new)
    (λ _, fd_ok (match old with Some f => more f | None => id end
      (match new with Some f => less f | None => id end o))).
Proof.
  apply t_modify. intros s ([Hl Hn Ho Hr] & Hfd & Hnew). split; cbn.
  - by rewrite length_insert.
  - done.
  - intros fd' f Hf. apply list_lookup_insert_Some in Hf as [(-> & -> & _)|[_ Hf]]; [done|]. by apply (Ho fd').
  - intros f ff Hf. rewrite (fd_count_insert _ _ _ _ _ Hfd), (Hr f ff Hf).
    destruct old as [g|], new as [h|]; unfold more, less, one, id; repeat case_decide; simplify_eq; lia.
Qed.

Lemma t_fdalloc o f :
  triple (λ s, fd_ok o s ∧ (f < NFILE)%nat) (fdalloc (S := S) f)
    (λ r s, match r with
            | Some fd => fd_ok (less f o) s ∧ ofile s !! fd = Some (Some f)
            | None => fd_ok o s
            end).
Proof.
  unfold fdalloc. eapply t_bind; [apply t_gets|]. intros fds. cbv beta.
  destruct (list_find (λ o, o = None) fds) as [[fd x]|] eqn:E; [|apply t_ret; by intros s [[? _] _]].
  apply list_find_Some in E as (Hfd & -> & _).
  eapply t_bind with (R := λ _ s, fd_ok (less f o) s ∧ ofile s !! fd = Some (Some f)); [|intros ?; by apply t_ret].
  intros s r s' [[H Hf] ->] E'. split; [by apply (t_set_fd o fd None (Some f) s r s')|].
  injection E' as <- <-. cbn. apply list_lookup_insert_eq. by eapply lookup_lt_Some.
Qed.

(** Calls that do not touch descriptors or counts. *)
Definition keeps {A} (o : nat → Z) (m : M (kst S) A) : Prop := triple (fd_ok o) m (λ _, fd_ok o).

Lemma k_bind {A B} o (m : M (kst S) A) (k : A → M (kst S) B) :
  keeps o m → (∀ x, keeps o (k x)) → keeps o (bind m k).
Proof. apply t_bind. Qed.

Lemma k_ret {A} o (x : A) : keeps o (ret x).
Proof. by apply t_ret. Qed.

Lemma k_gets {A} o (f : kst S → A) : keeps o (gets f).
Proof. eapply t_conseq; [apply t_gets|done|by intros x s [? _]]. Qed.

Lemma k_panic {A} o msg : keeps (A := A) o (panic msg).
Proof. apply t_panic. Qed.

Lemma k_fault {A} o msg : keeps (A := A) o (fault msg).
Proof. by intros s r s' HP. Qed.

Lemma k_sleep {A} o ch : keeps (A := A) o (sleep_on ch).
Proof. by intros s r s' HP. Qed.

Lemma k_off o f v : keeps o (upd_file f (set_off v)).
Proof. by apply t_upd_file. Qed.

Lemma k_poke o a bs : keeps o (poke_user a bs).
Proof. by apply t_keep. Qed.

Lemma k_argfd o n : keeps o (argfd n).
Proof.
  unfold argfd. apply k_bind; [apply k_gets|]. intros s. repeat (case_match; try apply k_ret).
Qed.

End Refs.

(** [keep_by tac] proves that a call keeps the counts, with [tac] for the calls
    in it that have a lemma. *)
Ltac keep_by tac := repeat first
  [ tac | apply k_ret | apply t_on_fs | apply k_gets | apply t_on_pipe | apply t_on_pages | apply k_off | apply k_poke
  | apply k_argfd | apply k_panic | apply k_fault | apply k_sleep | (apply t_keep; done) | apply k_bind; [|intros ?] | case_match ].
Ltac keep := keep_by fail.

Section Keep.
Context {S : Type} `{!TxDisk S} `{!TxOps S} `{!Devsw S}.
Context (kend : Z) (junk : list Z).

Lemma k_filewrite_loop o f addr n fuel : ∀ i, keeps o (filewrite_loop (S := S) f addr n i fuel).
Proof.
  induction fuel as [|fuel IH]; intros i; cbn [filewrite_loop]; (destruct (negb (i <? n)); [apply k_ret|]).
  - apply k_fault.
  - unfold begin_op, end_op, the_file, peek_user. keep_by ltac:(apply IH).
Qed.

Lemma k_isdirempty o dp fuel : ∀ off, keeps o (isdirempty_loop (S := S) dp off fuel).
Proof.
  induction fuel as [|fuel IH]; intros off; cbn [isdirempty_loop].
  - apply k_fault.
  - unfold the_ip. keep_by ltac:(apply IH).
Qed.

Lemma k_create o path t a b : keeps o (create (S := S) junk path t a b).
Proof. unfold create, create_dots, add_nlink, the_ip. keep. Qed.

Lemma k_fileread o f addr n : keeps o (fileread (S := S) f addr n).
Proof. unfold fileread, the_file, end_turn. keep. Qed.

Lemma k_filewrite o f addr n : keeps o (filewrite (S := S) f addr n).
Proof. unfold filewrite, the_file, end_turn, peek_user. keep_by ltac:(apply k_filewrite_loop). Qed.

Lemma k_filestat o f st : keeps o (filestat (S := S) f st).
Proof. unfold filestat, the_file, poke_stat. keep. Qed.

Lemma k_rw o : keeps o (sys_read (S := S)) ∧ keeps o (sys_write (S := S)) ∧ keeps o (sys_fstat (S := S)).
Proof.
  unfold sys_read, sys_write, sys_fstat, arg_int, arg_ptr.
  split_and!; keep_by ltac:(first [apply k_fileread|apply k_filewrite|apply k_filestat]).
Qed.

Lemma k_link o : keeps o (sys_link (S := S) junk).
Proof. unfold sys_link, link_bad, arg_str, begin_op, end_op, the_ip, add_nlink. keep. Qed.

Lemma k_unlink o : keeps o (sys_unlink (S := S) junk).
Proof.
  unfold sys_unlink, unlink_bad, isdirempty, arg_str, begin_op, end_op, the_ip, add_nlink. keep_by ltac:(apply k_isdirempty).
Qed.

Lemma k_make o : keeps o (sys_mkdir (S := S) junk) ∧ keeps o (sys_mknod (S := S) junk) ∧ keeps o (sys_chdir (S := S) junk).
Proof.
  unfold sys_mkdir, sys_mknod, sys_chdir, arg_str, arg_int, begin_op, end_op, the_ip, set_cwd_of.
  split_and!; keep_by ltac:(apply k_create).
Qed.

(** ** Calls that make and close descriptors *)

Lemma t_argfd o n :
  triple (fd_ok o) (argfd (S := S) n) (λ r s, fd_ok o s ∧
    match r with Some (fd, f) => ofile s !! fd = Some (Some f) ∧ (f < NFILE)%nat | None => True end).
Proof.
  intros s r s' H. unfold argfd, bind, gets, ret. destruct (argint _ _); [|by intros [= <- <-]].
  destruct (_ || _); [by intros [= <- <-]|]. cbn [id].
  destruct (ofile s !! _) as [[f|]|] eqn:E; intros [= <- <-]; try done.
  split_and!; try done. by eapply fk_open.
Qed.

Lemma less_more o f g : less f (more f o) g = o g.
Proof. unfold less, more. lia. Qed.

Lemma more_less o f g : more f (less f o) g = o g.
Proof. unfold less, more. lia. Qed.

Lemma k_dup o : keeps o (sys_dup (S := S)).
Proof.
  unfold sys_dup. eapply t_bind; [apply t_argfd|]. intros [[fd f]|]; cbv beta; [|by apply t_ret; intros s [? _]].
  eapply t_bind; [eapply t_conseq; [apply t_fdalloc|by intros s (? & ? & ?)|done]|].
  intros [fd'|]; cbv beta; [|by apply t_ret].
  eapply t_bind; [eapply t_conseq; [apply t_filedup|by intros s [? _]|done]|].
  intros ?. cbv beta. apply t_ret. intros s. apply fd_ok_ext. intros g. apply more_less.
Qed.

Lemma k_close o : keeps o (sys_close (S := S) kend).
Proof.
  unfold sys_close. eapply t_bind; [apply t_argfd|]. intros [[fd f]|]; cbv beta; [|by apply t_ret; intros s [? _]].
  eapply t_bind; [eapply t_conseq; [apply (t_set_fd o fd (Some f) None)|by intros s (? & ? & ?)|done]|].
  intros ?. cbv beta. eapply t_bind; [apply t_fileclose|]. intros ?. cbv beta. by apply t_ret.
Qed.

Lemma k_open_inode o path omode : keeps o (open_inode_of (S := S) junk path omode).
Proof. unfold open_inode_of, the_ip. keep_by ltac:(apply k_create). Qed.

Lemma k_open o : keeps o (sys_open (S := S) kend junk).
Proof.
  unfold sys_open. apply k_bind; [apply k_gets|]. intros [path|]; [|apply k_ret].
  apply k_bind; [apply k_gets|]. intros [omode|]; [|apply k_ret].
  apply k_bind; [apply t_on_fs|intros _]. apply k_bind; [apply k_open_inode|]. intros [ip|]; [|unfold end_op; keep].
  eapply t_bind; [apply t_filealloc|]. intros [f|]; cbv beta.
  - eapply t_bind; [apply t_fdalloc|]. intros [fd|]; cbv beta.
    + eapply t_conseq with (P' := fd_ok o); [| |by intros ? ? H; exact H].
      * unfold end_op. keep_by ltac:(apply t_upd_file; done).
      * intros s [H _]. eapply fd_ok_ext; [|exact H]. apply less_more.
    + eapply t_bind; [apply t_fileclose|]. intros ?. cbv beta. unfold end_op. change (keeps o (on_fs (iunlockput ip) ;;; on_fs (on_disk d_end) ;;; ret (-1))). keep.
  - eapply t_bind; [by apply (t_ret _ None (λ _, fd_ok o)); intros s [? _]|]. intros ?. cbv beta.
    unfold end_op. change (keeps o (ret tt ;;; on_fs (iunlockput ip) ;;; on_fs (on_disk d_end) ;;; ret (-1))). keep.
Qed.

Lemma t_pipealloc_bad o p f0 f1 :
  triple (fd_ok (match f0 with Some f => more f | None => id end (match f1 with Some f => more f | None => id end o)))
    (pipealloc_bad (S := S) kend p f0 f1) (λ r s, r = None ∧ fd_ok o s).
Proof.
  unfold pipealloc_bad. eapply t_bind; [|intros ?; cbv beta].
  { destruct (negb (p =? 0)); [apply t_on_pages|apply k_ret]. }
  eapply t_bind with (R := λ _, fd_ok (match f1 with Some f => more f | None => id end o)); [|intros ?; cbv beta].
  { destruct f0; [apply t_fileclose|by apply t_ret]. }
  eapply t_bind with (R := λ _, fd_ok o); [|intros ?; cbv beta].
  { destruct f1; [apply t_fileclose|by apply t_ret]. }
  by apply t_ret.
Qed.

Lemma t_pipealloc o :
  triple (fd_ok o) (pipealloc (S := S) kend) (λ r s, match r with
    | Some (f0, f1) => fd_ok (more f1 (more f0 o)) s ∧ (f0 < NFILE)%nat ∧ (f1 < NFILE)%nat
    | None => fd_ok o s
    end).
Proof.
  assert (Hbad : ∀ (x : option (nat * nat)) (s : kst S), x = None ∧ fd_ok o s → match x with
    | Some (f0, f1) => fd_ok (more f1 (more f0 o)) s ∧ (f0 < NFILE)%nat ∧ (f1 < NFILE)%nat
    | None => fd_ok o s end) by (by intros ? ? [-> ?]).
  unfold pipealloc. eapply t_bind; [apply t_filealloc|]. intros [f0|]; cbv beta.
  2: { eapply t_conseq; [apply (t_pipealloc_bad o 0 None None)|by intros s [? _]|done]. }
  eapply t_bind with (R := λ r s, fd_ok (match r with Some f => more f | None => id end (more f0 o)) s ∧
    (f0 < NFILE)%nat ∧ match r with Some f => (f < NFILE)%nat | None => True end).
  { intros s r s' [H Hf] E. destruct (t_filealloc (more f0 o) s r s' H E) as [H' Hr].
    split_and!; [by destruct r|done|by destruct r]. }
  intros [f1|]; cbv beta.
  2: { eapply t_conseq; [apply (t_pipealloc_bad o 0 (Some f0) None)|by intros s [? _]|done]. }
  eapply t_bind with (R := λ _ s, fd_ok (more f1 (more f0 o)) s ∧ (f0 < NFILE)%nat ∧ (f1 < NFILE)%nat).
  { intros s r s' (H & ? & ?) E. split; [by apply (t_on_pages _ kalloc s r s')|done]. }
  intros p. cbv beta. destruct (p =? 0).
  { eapply t_conseq; [apply (t_pipealloc_bad o 0 (Some f0) (Some f1))| |done].
    intros s [H _]. eapply fd_ok_ext; [|exact H]. intros g. unfold more. lia. }
  intros s r s' (H & ? & ?) E. unfold bind, gets, modify, ret in E.
  assert (HK : keeps (S := S) (more f1 (more f0 o)) (upd_file f0 (as_pipe true false p) ;;; upd_file f1 (as_pipe false true p)))
    by (apply k_bind; [|intros ?]; by apply t_upd_file).
  injection E as <- <-. split_and!; try done. eapply HK; [|done]. by apply (fd_ok_same _ s).
Qed.

Lemma k_pipe o : keeps o (sys_pipe (S := S) kend).
Proof.
  unfold sys_pipe. apply k_bind; [apply k_gets|]. intros [p|]; [|apply k_ret].
  eapply t_bind; [apply t_pipealloc|]. intros [[f0 f1]|]; cbv beta; [|by apply t_ret].
  eapply t_bind with (R := λ r s, (f1 < NFILE)%nat ∧ match r with
    | Some fd => fd_ok (more f1 o) s ∧ ofile s !! fd = Some (Some f0) | None => fd_ok (more f1 (more f0 o)) s end).
  { intros s r s' (H & H0 & H1) E. split; [done|]. pose proof (t_fdalloc _ f0 s r s' (conj H H0) E) as H'.
    destruct r; [|done]. destruct H'. split; [|done]. eapply fd_ok_ext; [|done]. intros g. unfold more, less. lia. }
  intros [fd0|]; cbv beta.
  - eapply t_bind with (R := λ r s, match r with
      | Some _ => fd_ok o s | None => fd_ok (more f1 o) s ∧ ofile s !! fd0 = Some (Some f0) end).
    { intros s r s' (H1 & H & Hfd) E. pose proof (t_fdalloc _ f1 s r s' (conj H H1) E) as H'.
      destruct r; [destruct H'; eapply fd_ok_ext; [apply less_more|done]|]. split; [done|].
      unfold fdalloc, bind, gets in E. destruct (list_find _ _) as [[? ?]|]; [done|]. by injection E as <-. }
    intros [fd1|]; cbv beta.
    + change (keeps (S := S) o (poke_user p (bytes32 (Z.of_nat fd0)) ;;; poke_user (p + 4) (bytes32 (Z.of_nat fd1)) ;;; ret 0)). keep.
    + eapply t_bind; [eapply t_conseq; [apply (t_set_fd (more f1 o) fd0 (Some f0) None)|by intros s [? ?]|done]|]. intros ?. cbv beta.
      eapply t_bind; [apply t_fileclose|intros ?; cbv beta]. eapply t_bind; [apply t_fileclose|intros ?; cbv beta].
      by apply t_ret.
  - eapply t_bind; [by apply (t_ret _ None (λ _, fd_ok (more f1 (more f0 o)))); intros s [_ ?]|]. intros ?; cbv beta.
    eapply t_bind; [apply k_ret|intros ?; cbv beta].
    eapply t_bind; [eapply t_conseq; [apply (t_fileclose _ (more f1 o) f0)| |done]|intros ?; cbv beta].
    { intros s. apply fd_ok_ext. intros g. unfold more. lia. }
    eapply t_bind; [apply t_fileclose|intros ?; cbv beta]. by apply t_ret.
Qed.

End Keep.

(** ** All calls *)

Section Claims.
Context {S : Type} `{!TxDisk S} `{!TxOps S} `{!Devsw S}.
Context (kend : Z) (junk : list Z).

(** The calls of sysfile.c that return to the process. *)
Definition sysfile_calls : list (M (kst S) Z) :=
  [sys_dup; sys_read; sys_write; sys_close kend; sys_fstat; sys_link junk; sys_unlink junk;
   sys_open kend junk; sys_mkdir junk; sys_mknod junk; sys_chdir junk; sys_pipe kend].

(** A process runs: it makes a call that returns, or changes its memory, stack
    pointer or size, or is killed. *)
Inductive sys_step (s : kst S) : kst S → Prop :=
  | step_call m r s' : m ∈ sysfile_calls → m s = Ret r s' → sys_step s s'
  | step_user u k : sys_step s
      (KSt (fsys s) (ft_lock s) (ftable s) (pipes s) (pages s) (ofile s) u k).

Lemma sysfile_keeps o : Forall (keeps o) sysfile_calls.
Proof.
  destruct (k_rw (S := S) o) as (? & ? & ?). destruct (k_make (S := S) junk o) as (? & ? & ?).
  unfold sysfile_calls. repeat (apply Forall_cons; split); try done.
  - apply k_dup.
  - apply k_close.
  - apply k_link.
  - apply k_unlink.
  - apply k_open.
  - apply k_pipe.
Qed.

(** C17. Open files are counted: whatever calls of sysfile.c a process makes,
    with whatever arguments and whatever the file system, the pipes and the
    page allocator answer, each file structure has exactly one reference for
    each of its descriptors and of those counted before; so a file that a
    descriptor refers to is never free. *)
Theorem descriptors_counted o (s s' : kst S) :
  fd_ok o s → (∀ f, 0 <= o f) → rtc sys_step s s' →
  fd_ok o s' ∧ ∀ fd f, ofile s' !! fd = Some (Some f) → ∃ ff, ftable s' !! f = Some ff ∧ 1 <= f_ref ff.
Proof.
  intros H Ho Hr. assert (H' : fd_ok o s').
  { induction Hr as [s|s s1 s' Hs _ IH]; [done|]. apply IH. destruct Hs as [m r s1 Hm E|u k].
    - pose proof (proj1 (Forall_forall _ _) (sysfile_keeps o) m Hm) as HK. by apply (HK s r s1).
    - by apply (fd_ok_same o s). }
  split; [done|]. intros fd f Hfd. pose proof (fk_open _ _ H' fd f Hfd) as Hlt. rewrite <- (fk_nfile _ _ H') in Hlt.
  apply lookup_lt_is_Some in Hlt as [ff Hff]. exists ff. split; [done|].
  rewrite (fk_ref _ _ H' f ff Hff). pose proof (fd_count_pos _ _ _ Hfd). pose proof (Ho f). lia.
Qed.

End Claims.
