(* ===== verification/FileExample.v ===== *)
(** * A file being written

    An empty file of the example disk, open for writing: the state on which the
    theorems on open files are exercised. *)

From S2P Require Import Prelude Memory Spinlock Kalloc BlockCache Layout Bio Log LogSpace TxDisk FsLayout.
From S2P Require Import Fs FsBlocks FsMap FsData FsCache FsExample Pipe Args File FileProps Sysfile SysfileProps.

(** No operation runs. *)
Definition rest_log : lstate bstate := LState false (Log 2 30 0 0 1 0 (replicate 30 0)) img_cache [].
Definition rest_td : txdisk := TD img ∅ ∅ ∅ 0 1000 2 30 0.

Definition file_di : dinode := DI T_FILE 0 0 1 0 (replicate 13 0).
Definition file_inode : inode := INode 1 2 1 (SLk false 0) true file_di.

Definition ex_state : kst (lstate bstate) :=
  KSt (FState rest_log mkfs_sb false (file_inode :: replicate 49 inhabitant) 1 0)
    false (File FD_INODE 1 true true 0 0 0 :: replicate 99 inhabitant) ∅ (KState false true 0 (λ _, 0))
    (Some 0%nat :: replicate 15 None) (UProc 4096 4000 (λ x, x mod 256)) false.

Lemma rest_log_wf : log_wf (lg rest_log) [] (boot_cache img 1000).
Proof. pose proof img_log_wf as W. split; apply W. Qed.

Lemma rest_disk_ok : d_ok (disk (fsys ex_state)) rest_td.
Proof.
  refine (fresh_tx_ok rest_log (boot_cache img 1000) 0 img_cache_ok rest_log_wf _ _ _ _ _ _);
    cbn [lg rest_log log_lock outstanding committing size ac_held ac_pinned boot_cache]; done || unfold MAXOPBLOCKS; lia.
Qed.

Lemma fblk_file j : 0 <= j <= MAXFILE → fblk img file_di j = 0.
Proof.
  intros Hj. apply Z.eqb_eq. apply (below_check (λ j, fblk img file_di j =? 0) 141); [vm_compute; done|].
  change MAXFILE with 140 in Hj. lia.
Qed.

Lemma file_di_ok : file_ok mkfs_sb img file_di.
Proof.
  split; [|vm_compute; done|].
  - split; [done| |].
    + intros j Hj Hnz. by rewrite fblk_file in Hnz.
    + intros j k Hj Hk _ Hnz. by rewrite fblk_file in Hnz.
  - intros bn Hb Hs. cbn in Hs. unfold BSIZE in Hs. lia.
Qed.

Lemma file_dinode_ok : dinode_ok file_di.
Proof.
  split; cbn [file_di di_type di_major di_minor di_nlink di_size di_addrs]; unfold is_s16, is_u32, T_FILE; try lia.
  - done.
  - apply Forall_replicate. lia.
Qed.

Lemma rest_geom : geom mkfs_sb rest_td.
Proof. split; vm_compute; done. Qed.

Lemma ex_at_rest : at_rest (fsys ex_state) 0 file_inode rest_td.
Proof.
  split; [reflexivity|cbn; lia|reflexivity|reflexivity|reflexivity|vm_compute; done|exact rest_disk_ok| |
    exact rest_geom|exact img_blocks|exact file_di_ok|exact file_dinode_ok|discriminate].
  split; [reflexivity..|vm_compute; reflexivity].
Qed.

Lemma rest_avail n : (n <= 40)%nat → avail mkfs_sb img n.
Proof.
  intros Hn. exists (list_to_set (map Z.of_nat (seq 60 40))). split.
  - etransitivity; [exact Hn|]. vm_compute. lia.
  - intros k Hk. apply elem_of_list_to_set, list_elem_of_fmap in Hk as (j & -> & Hj%elem_of_seq).
    split; [cbn; lia|]. apply negb_true_iff.
    replace (Z.of_nat j) with (60 + (Z.of_nat j - 60)) by lia.
    apply (below_check (λ k, negb (used mkfs_sb img (60 + k))) 40); [vm_compute; done|lia].
Qed.

(** Writing 3000 bytes, in two transactions. *)
Lemma filewrite_writes_witness :
  ∃ F ip', filewrite 0 100 3000 ex_state = Ret 3000 (at_file ex_state F 0 3000) ∧ di_size (i_di ip') = 3000 ∧
    icache F !! 0%nat = Some ip'.
Proof.
  destruct (filewrite_writes ex_state 0 (File FD_INODE 1 true true 0 0 0) 100 3000 file_inode rest_td
    eq_refl eq_refl eq_refl ex_at_rest) as (F & ip' & a' & E & R & _ & _ & Hs).
  - lia.
  - cbn. lia.
  - vm_compute. done.
  - vm_compute. lia.
  - apply rest_avail. vm_compute. lia.
  - exists F, ip'. split; [exact E|]. split; [exact Hs|apply R].
Defined.

(** A process whose first argument is 0, before and after [dup]. *)
Definition dup_before : kst (lstate bstate) :=
  KSt (fsys ex_state) false (ftable ex_state) ∅ (pages ex_state) (ofile ex_state) (UProc 4096 0 (λ _, 0)) false.
Definition dup_after : kst (lstate bstate) :=
  KSt (fsys ex_state) false (File FD_INODE 2 true true 0 0 0 :: replicate 99 inhabitant) ∅ (pages ex_state)
    (Some 0%nat :: Some 0%nat :: replicate 14 None) (UProc 4096 0 (λ _, 0)) false.

Lemma dup_before_ok : fd_ok (λ _, 0) dup_before.
Proof.
  split; [reflexivity|reflexivity| |].
  - intros [|fd] f Hf; [injection Hf as <-; unfold NFILE; lia|].
    apply (lookup_replicate_1 15) in Hf as [[=] _].
  - intros [|f] ff Hf; [by injection Hf as <-|].
    apply (lookup_replicate_1 99) in Hf as [-> _]. reflexivity.
Qed.

Lemma descriptors_counted_witness :
  fd_ok (λ _, 0) dup_after ∧ sys_dup dup_before = Ret 1 dup_after.
Proof.
  assert (E : sys_dup dup_before = Ret 1 dup_after) by reflexivity.
  split; [|exact E].
  apply (descriptors_counted 0 [] (λ _, 0) dup_before dup_after dup_before_ok); [intros f; lia|].
  apply rtc_once. eapply step_call; [|exact E]. left.
Defined.
