(* ===== verification/Proc.v ===== *)
(** * The process table (xv6A1/proc.c, proc.h)

    Processes are entries of a table of [NPROC]; a pointer to a process is its
    index, a null pointer [None]. The memory, file and directory routines that
    proc.c calls are the class [ProcRes]. [allocproc] and [fork] are divided
    where they do not hold the table's lock: the parts are steps of their own of
    the machine of Machine.v, in which the CPUs are interleaved. *)

From S2P Require Import Prelude Memory KString Spinlock.

Definition NPROC : nat := 64.
Definition NOFILE : nat := 16.
Definition KSTACKSIZE : Z := 4096.
Definition MSGSIZE : Z := 8.

Inductive procstate := UNUSED | EMBRYO | SLEEPING | RUNNABLE | RUNNING | ZOMBIE.

#[export] Instance procstate_eq_dec : EqDecision procstate.
Proof. solve_decision. Defined.

(** [struct trapframe]; the 16-bit segment registers are kept with their
    padding as the 32-bit slots they occupy. *)
Record trapframe := TF {
  tf_edi : Z;
  tf_esi : Z;
  tf_ebp : Z;
  tf_oesp : Z;
  tf_ebx : Z;
  tf_edx : Z;
  tf_ecx : Z;
  tf_eax : Z;
  tf_gs : Z;
  tf_fs : Z;
  tf_es : Z;
  tf_ds : Z;
  tf_trapno : Z;
  tf_err : Z;
  tf_eip : Z;
  tf_cs : Z;
  tf_eflags : Z;
  tf_esp : Z;
  tf_ss : Z }.

(** [struct context] *)
Record context := Context { c_edi : Z; c_esi : Z; c_ebx : Z; c_ebp : Z; c_eip : Z }.

Definition tf_zero : trapframe := TF 0 0 0 0 0 0 0 0 0 0 0 0 0 0 0 0 0 0 0.

Definition tf_set_eax (v : Z) (t : trapframe) : trapframe :=
  TF (tf_edi t) (tf_esi t) (tf_ebp t) (tf_oesp t) (tf_ebx t) (tf_edx t) (tf_ecx t) v (tf_gs t) (tf_fs t) (tf_es t) (tf_ds t) (tf_trapno t) (tf_err t) (tf_eip t) (tf_cs t) (tf_eflags t) (tf_esp t) (tf_ss t).

(** [struct proc]: [tf] and [ctx] are the addresses in the kernel stack,
    [frame], [ret_addr] and [cregs] what is stored there; [ofile] and [cwd]
    hold pointers, 0 when null. *)
Record proc := Proc {
  sz : Z;
  pgdir : Z;
  kstack : Z;
  state : procstate;
  pid : Z;
  parent : option nat;
  tf : Z;
  frame : trapframe;
  ctx : Z;
  ret_addr : Z;
  cregs : context;
  chan_of : chan;
  killed : bool;
  ofile : list Z;
  cwd : Z;
  name : list Z;
  handler : Z;
  dis_sig : Z;
  prev_tf : Z;
  intr : Z;
  message : list Z }.

(** Assignments to one field. *)
Definition set_sz (v : Z) (p : proc) : proc :=
  Proc v (pgdir p) (kstack p) (state p) (pid p) (parent p) (tf p) (frame p) (ctx p)
    (ret_addr p) (cregs p) (chan_of p) (killed p) (ofile p) (cwd p) (name p) (handler p)
    (dis_sig p) (prev_tf p) (intr p) (message p).
Definition set_pgdir (v : Z) (p : proc) : proc :=
  Proc (sz p) v (kstack p) (state p) (pid p) (parent p) (tf p) (frame p) (ctx p) (ret_addr p) (cregs p) (chan_of p) (killed p) (ofile p) (cwd p) (name p) (handler p) (dis_sig p)
    (prev_tf p) (intr p) (message p).
Definition set_kstack (v : Z) (p : proc) : proc :=
  Proc (sz p) (pgdir p) v (state p) (pid p) (parent p) (tf p) (frame p) (ctx p) (ret_addr p)
    (cregs p) (chan_of p) (killed p) (ofile p) (cwd p) (name p) (handler p) (dis_sig p)
    (prev_tf p) (intr p) (message p).
Definition set_state (v : procstate) (p : proc) : proc :=
  Proc (sz p) (pgdir p) (kstack p) v (pid p) (parent p) (tf p) (frame p) (ctx p) (ret_addr p) (cregs p) (chan_of p) (killed p) (ofile p) (cwd p) (name p) (handler p) (dis_sig p)
    (prev_tf p) (intr p) (message p).
Definition set_pid (v : Z) (p : proc) : proc :=
  Proc (sz p) (pgdir p) (kstack p) (state p) v (parent p) (tf p) (frame p) (ctx p) (ret_addr p) (cregs p) (chan_of p) (killed p) (ofile p) (cwd p) (name p) (handler p) (dis_sig p)
    (prev_tf p) (intr p) (message p).
Definition set_parent (v : option nat) (p : proc) : proc :=
  Proc (sz p) (pgdir p) (kstack p) (state p) (pid p) v (tf p) (frame p) (ctx p) (ret_addr p)
    (cregs p) (chan_of p) (killed p) (ofile p) (cwd p) (name p) (handler p) (dis_sig p)
    (prev_tf p) (intr p) (message p).
Definition set_tf (v : Z) (p : proc) : proc :=
  Proc (sz p) (pgdir p) (kstack p) (state p) (pid p) (parent p) v (frame p) (ctx p)
    (ret_addr p) (cregs p) (chan_of p) (killed p) (ofile p) (cwd p) (name p) (handler p)
    (dis_sig p) (prev_tf p) (intr p) (message p).
Definition set_frame (v : trapframe) (p : proc) : proc :=
  Proc (sz p) (pgdir p) (kstack p) (state p) (pid p) (parent p) (tf p) v (ctx p) (ret_addr p) (cregs p) (chan_of p) (killed p) (ofile p) (cwd p) (name p) (handler p) (dis_sig p)
    (prev_tf p) (intr p) (message p).
Definition set_ctx (v : Z) (p : proc) : proc :=
  Proc (sz p) (pgdir p) (kstack p) (state p) (pid p) (parent p) (tf p) (frame p) v (ret_addr p) (cregs p) (chan_of p) (killed p) (ofile p) (cwd p) (name p) (handler p) (dis_sig p)
    (prev_tf p) (intr p) (message p).
Definition set_ret_addr (v : Z) (p : proc) : proc :=
  Proc (sz p) (pgdir p) (kstack p) (state p) (pid p) (parent p) (tf p) (frame p) (ctx p) v
    (cregs p) (chan_of p) (killed p) (ofile p) (cwd p) (name p) (handler p) (dis_sig p)
    (prev_tf p) (intr p) (message p).
Definition set_cregs (v : context) (p : proc) : proc :=
  Proc (sz p) (pgdir p) (kstack p) (state p) (pid p) (parent p) (tf p) (frame p) (ctx p)
    (ret_addr p) v (chan_of p) (killed p) (ofile p) (cwd p) (name p) (handler p) (dis_sig p)
    (prev_tf p) (intr p) (message p).
Definition set_chan_of (v : chan) (p : proc) : proc :=
  Proc (sz p) (pgdir p) (kstack p) (state p) (pid p) (parent p) (tf p) (frame p) (ctx p)
    (ret_addr p) (cregs p) v (killed p) (ofile p) (cwd p) (name p) (handler p) (dis_sig p)
    (prev_tf p) (intr p) (message p).
Definition set_killed (v : bool) (p : proc) : proc :=
  Proc (sz p) (pgdir p) (kstack p) (state p) (pid p) (parent p) (tf p) (frame p) (ctx p)
    (ret_addr p) (cregs p) (chan_of p) v (ofile p) (cwd p) (name p) (handler p) (dis_sig p)
    (prev_tf p) (intr p) (message p).
Definition set_ofile (v : list Z) (p : proc) : proc :=
  Proc (sz p) (pgdir p) (kstack p) (state p) (pid p) (parent p) (tf p) (frame p) (ctx p)
    (ret_addr p) (cregs p) (chan_of p) (killed p) v (cwd p) (name p) (handler p) (dis_sig p)
    (prev_tf p) (intr p) (message p).
Definition set_cwd (v : Z) (p : proc) : proc :=
  Proc (sz p) (pgdir p) (kstack p) (state p) (pid p) (parent p) (tf p) (frame p) (ctx p)
    (ret_addr p) (cregs p) (chan_of p) (killed p) (ofile p) v (name p) (handler p) (dis_sig p) (prev_tf p) (intr p) (message p).
Definition set_name (v : list Z) (p : proc) : proc :=
  Proc (sz p) (pgdir p) (kstack p) (state p) (pid p) (parent p) (tf p) (frame p) (ctx p)
    (ret_addr p) (cregs p) (chan_of p) (killed p) (ofile p) (cwd p) v (handler p) (dis_sig p) (prev_tf p) (intr p) (message p).
Definition set_handler (v : Z) (p : proc) : proc :=
  Proc (sz p) (pgdir p) (kstack p) (state p) (pid p) (parent p) (tf p) (frame p) (ctx p)
    (ret_addr p) (cregs p) (chan_of p) (killed p) (ofile p) (cwd p) (name p) v (dis_sig p)
    (prev_tf p) (intr p) (message p).
Definition set_dis_sig (v : Z) (p : proc) : proc :=
  Proc (sz p) (pgdir p) (kstack p) (state p) (pid p) (parent p) (tf p) (frame p) (ctx p)
    (ret_addr p) (cregs p) (chan_of p) (killed p) (ofile p) (cwd p) (name p) (handler p) v
    (prev_tf p) (intr p) (message p).
Definition set_prev_tf (v : Z) (p : proc) : proc :=
  Proc (sz p) (pgdir p) (kstack p) (state p) (pid p) (parent p) (tf p) (frame p) (ctx p)
    (ret_addr p) (cregs p) (chan_of p) (killed p) (ofile p) (cwd p) (name p) (handler p)
    (dis_sig p) v (intr p) (message p).
Definition set_intr (v : Z) (p : proc) : proc :=
  Proc (sz p) (pgdir p) (kstack p) (state p) (pid p) (parent p) (tf p) (frame p) (ctx p)
    (ret_addr p) (cregs p) (chan_of p) (killed p) (ofile p) (cwd p) (name p) (handler p)
    (dis_sig p) (prev_tf p) v (message p).
Definition set_message (v : list Z) (p : proc) : proc :=
  Proc (sz p) (pgdir p) (kstack p) (state p) (pid p) (parent p) (tf p) (frame p) (ctx p)
    (ret_addr p) (cregs p) (chan_of p) (killed p) (ofile p) (cwd p) (name p) (handler p)
    (dis_sig p) (prev_tf p) (intr p) v.

(** A slot of the zeroed table. *)
Definition proc_zero : proc :=
  Proc 0 0 0 UNUSED 0 None 0 tf_zero 0 0 (Context 0 0 0 0 0) ChNone false (replicate NOFILE 0) 0
    (replicate 16 0) 0 0 0 0 (replicate 8 0).

#[export] Instance proc_inhabited : Inhabited proc := populate proc_zero.

(** ** What proc.c calls

    Page allocation (kalloc.c), address spaces (vm.c), open files (file.c) and
    directories (fs.c, log.c). A null result is 0; a panic is its message.
    Where [fileclose] or [iput] would sleep, the process sleeps first (a step
    of its own below) and the call here is the one that gets through. *)
Definition call (E A : Type) : Type := E → string + (A * E).

Class ProcRes (E : Type) := {
  r_kalloc : call E Z;
  r_kfree : Z → call E unit;
  r_setupkvm : call E Z;
  r_inituvm : Z → call E unit;
  r_copyuvm : Z → Z → call E Z;
  r_freevm : Z → call E unit;
  r_allocuvm : Z → Z → Z → call E Z;
  r_deallocuvm : Z → Z → Z → call E Z;
  r_filedup : Z → call E Z;
  r_fileclose : Z → call E unit;
  r_idup : Z → call E Z;
  (** [begin_op(); iput(ip); end_op()] *)
  r_iput_op : Z → call E unit;
  r_namei_root : call E Z;
  (** [switchuvm(p)], from the page directory and kernel stack of [p] *)
  r_switchuvm : Z → Z → call E unit;
  r_switchkvm : call E unit }.

(** [ptable], [initproc], [nextpid], [forkret]'s [first], the CPU that runs
    the code (its interrupt state and [c->proc]), and the rest of the kernel. *)
Record ptst (E : Type) := PT {
  pt_lock : bool;
  procs : list proc;
  initproc : option nat;
  nextpid : Z;
  mycpu : cpu;
  cproc : option nat;
  env : E }.
Arguments PT {E} _ _ _ _ _ _ _.
Arguments pt_lock {E} _.
Arguments procs {E} _.
Arguments initproc {E} _.
Arguments nextpid {E} _.
Arguments mycpu {E} _.
Arguments cproc {E} _.
Arguments env {E} _.

Inductive PtLock : Set := .

#[export] Instance pt_has_lock E : HasLock PtLock (ptst E).
Proof.
  refine {| lock_held := pt_lock;
            set_lock b s := PT b (procs s) (initproc s) (nextpid s) (mycpu s) (cproc s) (env s) |};
    by intros; destruct s.
Defined.

Section Routines.
Context {E : Type} `{!ProcRes E}.

Definition on_procs (f : list proc → list proc) : M (ptst E) unit :=
  modify (λ s, PT (pt_lock s) (f (procs s)) (initproc s) (nextpid s) (mycpu s) (cproc s) (env s)).

Definition on_proc (i : nat) (f : proc → proc) : M (ptst E) unit := on_procs (alter f i).

Definition the_proc (i : nat) : M (ptst E) proc := gets (λ s, procs s !!! i).

Definition set_cproc (p : option nat) : M (ptst E) unit :=
  modify (λ s, PT (pt_lock s) (procs s) (initproc s) (nextpid s) (mycpu s) p (env s)).

Definition on_cpu {A} (m : M cpu A) : M (ptst E) A := λ s,
  match m (mycpu s) with
  | Ret v c => Ret v (PT (pt_lock s) (procs s) (initproc s) (nextpid s) c (cproc s) (env s))
  | Panic e => Panic e
  | Sleep ch c => Sleep ch (PT (pt_lock s) (procs s) (initproc s) (nextpid s) c (cproc s) (env s))
  | Fault e => Fault e
  end.

Definition on_env {A} (m : call E A) : M (ptst E) A := λ s,
  match m (env s) with
  | inr (v, e) => Ret v (PT (pt_lock s) (procs s) (initproc s) (nextpid s) (mycpu s) (cproc s) e)
  | inl e => Panic e
  end.

(** [acquire(&ptable.lock)] and [release(&ptable.lock)] with their effect on
    the CPU's interrupt state. *)
Definition acquire_pt : M (ptst E) unit := on_cpu pushcli ;;; acquire PtLock.
Definition release_pt : M (ptst E) unit := release PtLock ;;; on_cpu popcli.

(** [myproc()] of a running process. *)
Definition myproc : M (ptst E) nat :=
  on_cpu pushcli ;;;
  c <- gets mycpu ;;
  if fl_if c then panic "mycpu called with interrupts enabled" else
  p <- gets cproc ;;
  on_cpu popcli ;;;
  match p with
  | Some i => ret i
  | None => fault "myproc: no process"
  end.

(** ** Creating processes *)

(** The first slot that passes [P]. *)
Definition find_proc (P : proc → bool) (ps : list proc) : option nat :=
  List.find (λ i, P (ps !!! i)) (seq 0 NPROC).

Definition is_state (st : procstate) (p : proc) : bool := bool_decide (state p = st).

(** Addresses of [forkret] and [trapret]. *)
Definition forkret_addr : Z := 0x80104000.
Definition trapret_addr : Z := 0x80105000.

Definition sizeof_trapframe : Z := 76.
Definition sizeof_context : Z := 20.

(** [allocproc] in two parts: the slot and its pid, with the table locked, and
    the kernel stack, when other CPUs may use the table again. [nextpid] is an
    [int]. *)
Definition alloc_slot : M (ptst E) (option nat) :=
  acquire_pt ;;;
  ps <- gets procs ;;
  match find_proc (is_state UNUSED) ps with
  | None =>
      release_pt ;;;
      ret None
  | Some i =>
      on_proc i (set_state EMBRYO) ;;;
      n <- gets nextpid ;;
      modify (λ s, PT (pt_lock s) (procs s) (initproc s) (s32 (n + 1)) (mycpu s) (cproc s) (env s)) ;;;
      on_proc i (set_pid n) ;;;
      release_pt ;;;
      ret (Some i)
  end.

Definition alloc_stack (i : nat) : M (ptst E) (option nat) :=
  k <- on_env r_kalloc ;;
  on_proc i (set_kstack k) ;;;
  if k =? 0 then
    on_proc i (set_state UNUSED) ;;;
    ret None
  else
    let sp := k + KSTACKSIZE - sizeof_trapframe in
    on_proc i (set_tf sp) ;;;
    on_proc i (set_ret_addr trapret_addr) ;;;
    on_proc i (set_ctx (sp - 4 - sizeof_context)) ;;;
    on_proc i (set_cregs (Context 0 0 0 0 forkret_addr)) ;;;
    on_proc i (set_dis_sig 0) ;;;
    on_proc i (set_handler (-1)) ;;;
    ret (Some i).

Definition allocproc : M (ptst E) (option nat) :=
  r <- alloc_slot ;;
  match r with
  | None => ret None
  | Some i => alloc_stack i
  end.

(** Selectors [(SEG_UCODE << 3) | DPL_USER] and [(SEG_UDATA << 3) | DPL_USER]. *)
Definition user_cs : Z := Z.lor (Z.shiftl 3 3) 3.
Definition user_ds : Z := Z.lor (Z.shiftl 4 3) 3.
Definition FL_IF : Z := 0x200.

Definition init_frame : trapframe :=
  TF 0 0 0 0 0 0 0 0 0 0 user_ds user_ds 0 0 0 user_cs FL_IF PGSIZE user_ds.

(** The characters of a C string. *)
Fixpoint until_nul (s : list Z) : list Z :=
  match s with
  | [] => []
  | c :: s' => if c =? 0 then [] else c :: until_nul s'
  end.

(** [safestrcpy(p->name, s, sizeof(p->name))] *)
Definition copy_name (s : list Z) (p : proc) : proc :=
  let cs := take 15 (until_nul s) in
  set_name (cs ++ [0] ++ drop (length cs + 1) (name p)) p.

(** [*(p->message) = -1] *)
Definition no_message (p : proc) : proc := set_message (<[0%nat := 255]> (message p)) p.

Definition initcode_name : list Z := [105; 110; 105; 116; 99; 111; 100; 101].

Definition userinit : M (ptst E) unit :=
  r <- allocproc ;;
  modify (λ s, PT (pt_lock s) (procs s) r (nextpid s) (mycpu s) (cproc s) (env s)) ;;;
  match r with
  | None => fault "userinit: null process"
  | Some i =>
      d <- on_env r_setupkvm ;;
      on_proc i (set_pgdir d) ;;;
      if d =? 0 then panic "userinit: out of memory?" else
      on_env (r_inituvm d) ;;;
      on_proc i (set_sz PGSIZE) ;;;
      on_proc i (set_frame init_frame) ;;;
      on_proc i (set_handler (-1)) ;;;
      on_proc i (set_dis_sig 0) ;;;
      on_proc i (set_intr 0) ;;;
      on_proc i no_message ;;;
      on_proc i (copy_name initcode_name) ;;;
      w <- on_env r_namei_root ;;
      on_proc i (set_cwd w) ;;;
      acquire_pt ;;;
      on_proc i (set_state RUNNABLE) ;;;
      release_pt
  end.

(** The loop of [fork] over the parent's open files. *)
Definition dup_files (fs : list Z) (np : nat) : M (ptst E) unit :=
  for_all (seq 0 NOFILE) (λ i,
    when negb (fs !!! i =? 0) do
      (f <- on_env (r_filedup (fs !!! i)) ;;
       on_proc np (λ q, set_ofile (<[i := f]> (ofile q)) q))).

(** [fork] after [allocproc], in three parts: the address space, with what is
    undone when there is no memory, up to the pointer to the parent; the copy of
    the rest, which returns the pid; and the new state, with the table locked. *)
Definition fork_memory (cur np : nat) : M (ptst E) bool :=
  p <- the_proc cur ;;
  d <- on_env (r_copyuvm (pgdir p) (sz p)) ;;
  on_proc np (set_pgdir d) ;;;
  if d =? 0 then
    k <- gets (λ s, kstack (procs s !!! np)) ;;
    on_env (r_kfree k) ;;;
    on_proc np (set_kstack 0) ;;;
    on_proc np (set_state UNUSED) ;;;
    ret false
  else
    on_proc np (set_sz (sz p)) ;;;
    on_proc np (set_parent (Some cur)) ;;;
    ret true.

Definition fork_copy (cur np : nat) : M (ptst E) Z :=
  p <- the_proc cur ;;
  on_proc np (set_frame (frame p)) ;;;
  on_proc np (set_handler (handler p)) ;;;
  on_proc np (set_dis_sig 0) ;;;
  on_proc np (set_intr 0) ;;;
  on_proc np no_message ;;;
  on_proc np (λ q, set_frame (tf_set_eax 0 (frame q)) q) ;;;
  dup_files (ofile p) np ;;;
  w <- on_env (r_idup (cwd p)) ;;
  on_proc np (set_cwd w) ;;;
  on_proc np (copy_name (name p)) ;;;
  gets (λ s, pid (procs s !!! np)).

Definition fork_start (np : nat) : M (ptst E) unit :=
  acquire_pt ;;;
  on_proc np (set_state RUNNABLE) ;;;
  release_pt.

Definition fork : M (ptst E) Z :=
  cur <- myproc ;;
  r <- allocproc ;;
  match r with
  | None => ret (-1)
  | Some np =>
      b <- fork_memory cur np ;;
      if negb b then ret (-1)
      else
        n <- fork_copy cur np ;;
        fork_start np ;;;
        ret n
  end.

Definition growproc (n : Z) : M (ptst E) Z :=
  cur <- myproc ;;
  p <- the_proc cur ;;
  sz' <- (if 0 <? n then on_env (r_allocuvm (pgdir p) (sz p) (u32 (sz p + n)))
          else if n <? 0 then on_env (r_deallocuvm (pgdir p) (sz p) (u32 (sz p + n)))
          else ret (sz p)) ;;
  if negb (n =? 0) && (sz' =? 0) then ret (-1)
  else
    on_proc cur (set_sz sz') ;;;
    on_env (r_switchuvm (pgdir p) (kstack p)) ;;;
    ret 0.

(** ** Sleeping and waking *)

(** [sched]: the checks, then the switch to the scheduler. The process stops
    here; [Sleep] carries the state the scheduler continues in. *)
Definition sched : M (ptst E) unit :=
  cur <- myproc ;;
  l <- gets pt_lock ;;
  c <- gets mycpu ;;
  p <- the_proc cur ;;
  if negb l then panic "sched ptable.lock" else
  if negb (ncli c =? 1) then panic "sched locks" else
  if is_state RUNNING p then panic "sched running" else
  if fl_if c then panic "sched interruptible" else
  sleep_on (chan_of p).

Definition yield : M (ptst E) unit :=
  acquire_pt ;;;
  cur <- myproc ;;
  on_proc cur (set_state RUNNABLE) ;;;
  sched.

(** [sleep(chan, lk)] up to the switch; [own] says that [lk] is
    [ptable.lock], which the caller then holds. *)
Definition sleep (ch : chan) (own : bool) : M (ptst E) unit :=
  cur <- myproc ;;
  (if own then ret tt else acquire_pt) ;;;
  on_proc cur (set_chan_of ch) ;;;
  on_proc cur (set_state SLEEPING) ;;;
  sched.

Definition wake_one (ch : chan) (p : proc) : proc :=
  if is_state SLEEPING p && bool_decide (chan_of p = ch) then set_state RUNNABLE p else p.

Definition wakeup1 (ch : chan) : M (ptst E) unit := on_procs (map (wake_one ch)).

Definition wakeup (ch : chan) : M (ptst E) unit :=
  acquire_pt ;;;
  wakeup1 ch ;;;
  release_pt.

Definition kill (n : Z) : M (ptst E) Z :=
  acquire_pt ;;;
  ps <- gets procs ;;
  match find_proc (λ p, pid p =? n) ps with
  | Some i =>
      on_proc i (set_killed true) ;;;
      p <- the_proc i ;;
      when is_state SLEEPING p do on_proc i (set_state RUNNABLE) ;;;
      release_pt ;;;
      ret 0
  | None =>
      release_pt ;;;
      ret (-1)
  end.

(** ** Exit and wait *)

Definition is_child (cur : nat) (p : proc) : bool := bool_decide (parent p = Some cur).

(** The first part of [exit]: the process gives up its files. *)
Definition exit_files (cur : nat) : M (ptst E) unit :=
  for_all (seq 0 NOFILE) (λ fd,
    p <- the_proc cur ;;
    when negb (ofile p !!! fd =? 0) do
      (on_env (r_fileclose (ofile p !!! fd)) ;;;
       on_proc cur (λ q, set_ofile (<[fd := 0]> (ofile q)) q))) ;;;
  p <- the_proc cur ;;
  on_env (r_iput_op (cwd p)) ;;;
  on_proc cur (set_cwd 0).

(** The wake-up channel of a process pointer. *)
Definition proc_chan (p : option nat) : chan :=
  match p with Some i => ChProc i | None => ChNone end.

(** The loop of [exit] that passes abandoned children to init. *)
Definition reparent (cur : nat) (init : option nat) : M (ptst E) unit :=
  for_all (seq 0 NPROC) (λ i,
    p <- the_proc i ;;
    when is_child cur p do
      (on_proc i (set_parent init) ;;;
       when is_state ZOMBIE p do wakeup1 (proc_chan init))).

Definition exit_ : M (ptst E) unit :=
  cur <- myproc ;;
  init <- gets initproc ;;
  if bool_decide (init = Some cur) then panic "init exiting" else
  exit_files cur ;;;
  acquire_pt ;;;
  p <- the_proc cur ;;
  wakeup1 (proc_chan (parent p)) ;;;
  reparent cur init ;;;
  on_proc cur (set_state ZOMBIE) ;;;
  sched ;;;
  panic "zombie exit".

Definition wait : M (ptst E) Z :=
  cur <- myproc ;;
  acquire_pt ;;;
  ps <- gets procs ;;
  match find_proc (λ p, is_child cur p && is_state ZOMBIE p) ps with
  | Some i =>
      p <- the_proc i ;;
      on_env (r_kfree (kstack p)) ;;;
      on_proc i (set_kstack 0) ;;;
      on_env (r_freevm (pgdir p)) ;;;
      on_proc i (set_pid 0) ;;;
      on_proc i (set_parent None) ;;;
      on_proc i (λ q, set_name (<[0%nat := 0]> (name q)) q) ;;;
      on_proc i (set_killed false) ;;;
      on_proc i (set_state UNUSED) ;;;
      release_pt ;;;
      ret (pid p)
  | None =>
      if negb (existsb (is_child cur) ps) || killed (ps !!! cur) then
        release_pt ;;;
        ret (-1)
      else sleep (ChProc cur) true ;;; ret (-1)
  end.

(** ** The scheduler *)

(** The first runnable process from slot [k] on. *)
Definition next_runnable (k : nat) (ps : list proc) : option nat :=
  List.find (λ i, is_state RUNNABLE (ps !!! i)) (seq k (NPROC - k)).

(** The scheduler's loop from slot [k] up to its next switch: to the next
    runnable process, or, past the last slot, to the end of the loop's body. A
    process that was asleep clears its [chan] as it continues in [sleep]; in a
    process that was not, it is clear already. *)
Definition scheduler (k : nat) : M (ptst E) (option nat) :=
  ps <- gets procs ;;
  match next_runnable k ps with
  | Some i =>
      set_cproc (Some i) ;;;
      p <- the_proc i ;;
      on_env (r_switchuvm (pgdir p) (kstack p)) ;;;
      on_proc i (set_state RUNNING) ;;;
      on_proc i (set_chan_of ChNone) ;;;
      ret (Some i)
  | None => ret None
  end.

(** The scheduler continues after a process switched back to it. *)
Definition scheduler_resume (k : nat) : M (ptst E) (option nat) :=
  on_env r_switchkvm ;;;
  set_cproc None ;;;
  scheduler k.

(** ** Listings *)

(** The lines of [list_running]. *)
Definition list_running : M (ptst E) (list (Z * list Z)) :=
  acquire_pt ;;;
  ps <- gets procs ;;
  release_pt ;;;
  ret (map (λ p, (pid p, until_nul (name p))) (List.filter (λ p, negb (is_state UNUSED p)) ps)).

End Routines.
