(* ===== verification/ProcInv.v ===== *)
(** * Invariants of the process table

    An abstract table (state, pid, parent and channel of each slot) with one
    transition per kernel operation, the invariant that all of them keep, and
    the proof that the routines of Proc.v, run by processes on any number of
    CPUs, are such transitions. *)

From S2P Require Import Prelude Memory KString Spinlock Proc.

(** ** The abstract table *)

Record core := Core { k_state : procstate; k_pid : Z; k_parent : option nat; k_chan : chan }.

Definition table : Type := nat → core.

Definition upd1 (T : table) (i : nat) (c : core) : table := λ j, if decide (j = i) then c else T j.

Lemma upd1_eq T i c : upd1 T i c i = c.
Proof. unfold upd1. by rewrite decide_True. Qed.

Lemma upd1_ne T i c j : j ≠ i → upd1 T i c j = T j.
Proof. intros. unfold upd1. by rewrite decide_False. Qed.

Definition alive (st : procstate) : Prop := st = SLEEPING ∨ st = RUNNABLE ∨ st = RUNNING.

Definition k_set_state (st : procstate) (c : core) : core := Core st (k_pid c) (k_parent c) (k_chan c).
Definition k_set_chan (ch : chan) (c : core) : core := Core (k_state c) (k_pid c) (k_parent c) ch.
Definition k_set_parent (p : option nat) (c : core) : core := Core (k_state c) (k_pid c) p (k_chan c).

Definition k_wake (ch : chan) (c : core) : core :=
  if bool_decide (k_state c = SLEEPING ∧ k_chan c = ch) then k_set_state RUNNABLE c else c.

(** The table, [initproc], the process each CPU runs, and the calls of [fork]
    under way: for the process that forks, the slot of the child and whether
    its parent has been set. *)
Record kst := K { k_tab : table; k_init : option nat; k_run : list (option nat); k_fork : gmap nat (nat * bool) }.

Record tinv (s : kst) : Prop := {
  ti_cpu : ∀ c i, k_run s !! c = Some (Some i) → k_state (k_tab s i) = RUNNING;
  ti_inj : ∀ c c' i, k_run s !! c = Some (Some i) → k_run s !! c' = Some (Some i) → c = c';
  ti_run : ∀ i, k_state (k_tab s i) = RUNNING → ∃ c, k_run s !! c = Some (Some i);
  ti_unused : ∀ i, k_state (k_tab s i) = UNUSED → k_parent (k_tab s i) = None;
  ti_init : ∃ q, k_init s = Some q ∧ alive (k_state (k_tab s q));
  ti_parent : ∀ i, k_state (k_tab s i) ≠ UNUSED → k_state (k_tab s i) ≠ EMBRYO → k_init s ≠ Some i →
    ∃ q, k_parent (k_tab s i) = Some q ∧ alive (k_state (k_tab s q));
  ti_wait : ∀ q i, k_state (k_tab s q) = SLEEPING → k_chan (k_tab s q) = ChProc q →
    k_parent (k_tab s i) = Some q → k_state (k_tab s i) ≠ ZOMBIE;
  ti_noself : ∀ i, k_parent (k_tab s i) ≠ Some i;
  ti_initpar : ∀ q, k_init s = Some q → k_parent (k_tab s q) = None;
  ti_fork : ∀ i np b, k_fork s !! i = Some (np, b) →
    (k_state (k_tab s i) = RUNNING ∨ k_state (k_tab s i) = RUNNABLE) ∧
    k_state (k_tab s np) = EMBRYO ∧ k_parent (k_tab s np) = (if b : bool then Some i else None);
  ti_forkinj : ∀ i j np b b', k_fork s !! i = Some (np, b) → k_fork s !! j = Some (np, b') → i = j;
  ti_embryo : ∀ np, k_state (k_tab s np) = EMBRYO → ∃ i b, k_fork s !! i = Some (np, b) }.

(** Pids, as long as [nextpid] has not wrapped around. *)
Record pinv (T : table) (next : Z) : Prop := {
  pi_next : 0 < next;
  pi_pid : ∀ i, k_state (T i) ≠ UNUSED → 0 < k_pid (T i) < next;
  pi_inj : ∀ i j, k_state (T i) ≠ UNUSED → k_state (T j) ≠ UNUSED → k_pid (T i) = k_pid (T j) → i = j }.

(** Used slots of [T'] were used in [T], with the same pid. *)
Definition pid_sub (T T' : table) : Prop := ∀ i,
  k_state (T' i) ≠ UNUSED → k_state (T i) ≠ UNUSED ∧ k_pid (T' i) = k_pid (T i).

Lemma pinv_sub T T' next : pid_sub T T' → pinv T next → pinv T' next.
Proof.
  intros H [Hn Hp Hi]. split; [done| |].
  - intros i Hu. destruct (H i Hu) as [Hu' ->]. by apply Hp.
  - intros i j Hui Huj. destruct (H i Hui) as [Hi' ->], (H j Huj) as [Hj' ->]. by apply Hi.
Qed.

Lemma pid_sub_refl T : pid_sub T T.
Proof. done. Qed.

Lemma pid_sub_trans T1 T2 T3 : pid_sub T1 T2 → pid_sub T2 T3 → pid_sub T1 T3.
Proof. intros H1 H2 i Hi. destruct (H2 i Hi) as [Hi2 ->]. by apply H1. Qed.

Lemma pid_sub_upd T i c :
  (k_state c ≠ UNUSED → k_state (T i) ≠ UNUSED ∧ k_pid c = k_pid (T i)) → pid_sub T (upd1 T i c).
Proof.
  intros H j. destruct (decide (j = i)) as [->|]; [by rewrite upd1_eq|by rewrite upd1_ne].
Qed.

(** A slot gets the next pid. *)
Lemma pinv_take T i c next : pinv T next → k_pid c = next → pinv (upd1 T i c) (next + 1).
Proof.
  intros [Hn Hp Hi] Hc. split; [lia| |].
  - intros j. destruct (decide (j = i)) as [->|]; [rewrite upd1_eq; lia|]. rewrite upd1_ne by done. intros Hu%Hp. lia.
  - intros j j'. destruct (decide (j = i)) as [->|Hj], (decide (j' = i)) as [->|Hj'];
      rewrite ?upd1_eq, ?upd1_ne by done; try done.
    + intros _ Hu%Hp. lia.
    + intros Hu%Hp _. lia.
    + apply Hi.
Qed.

(** ** Transitions *)

(** Is slot [j] the one that was updated? *)
Ltac slot j i :=
  destruct (decide (j = i)) as [->|?];
  [rewrite ?upd1_eq in *|rewrite ?(upd1_ne _ i _ j) in * by done];
  cbn [k_state k_pid k_parent k_chan] in *.

(** Changing the state (and channel) of a live slot to another live state,
    keeping pid and parent. *)
Lemma tinv_live s i st ch run :
  tinv s → alive (k_state (k_tab s i)) → alive st →
  (∀ c j, run !! c = Some (Some j) → k_state (upd1 (k_tab s) i (Core st (k_pid (k_tab s i)) (k_parent (k_tab s i)) ch) j) = RUNNING) →
  (∀ c c' j, run !! c = Some (Some j) → run !! c' = Some (Some j) → c = c') →
  (∀ j, k_state (upd1 (k_tab s) i (Core st (k_pid (k_tab s i)) (k_parent (k_tab s i)) ch) j) = RUNNING → ∃ c, run !! c = Some (Some j)) →
  (st = SLEEPING → k_fork s !! i = None) →
  (st = SLEEPING → ch = ChProc i → ∀ j, k_parent (k_tab s j) = Some i → k_state (k_tab s j) ≠ ZOMBIE) →
  tinv (K (upd1 (k_tab s) i (Core st (k_pid (k_tab s i)) (k_parent (k_tab s i)) ch)) (k_init s) run (k_fork s)).
Proof.
  intros H Hi Hst H1 H2 H3 Hnf H4. destruct H.
  assert (Hu : k_state (k_tab s i) ≠ UNUSED ∧ k_state (k_tab s i) ≠ EMBRYO) by (destruct Hi as [->|[->| ->]]; done).
  destruct Hu as [Hu He].
  assert (Hz : st ≠ UNUSED ∧ st ≠ ZOMBIE ∧ st ≠ EMBRYO) by (destruct Hst as [->|[->| ->]]; done).
  destruct Hz as (Hz1 & Hz2 & Hz3).
  assert (Hal : ∀ q, alive (k_state (k_tab s q)) →
    alive (k_state (upd1 (k_tab s) i (Core st (k_pid (k_tab s i)) (k_parent (k_tab s i)) ch) q))).
  { intros q Hq. by slot q i. }
  split; cbn [k_tab k_init k_run k_fork]; try done.
  - intros j Hj. slot j i; auto; done.
  - destruct ti_init0 as (q & Eq & Hq). eauto.
  - intros j Hj Hje Hnj. destruct (ti_parent0 j) as (q & Hq & Hqa); [by slot j i|by slot j i|done|].
    exists q. split; [|auto]. by slot j i.
  - intros q j Hq Hc Hp. slot q i; slot j i; eauto.
  - intros j. slot j i; auto.
  - intros q Hq. slot q i; auto.
  - intros j np b Hj. destruct (ti_fork0 j np b Hj) as (Hs & Hnp & Hpar).
    assert (np ≠ i) by (intros ->; done). rewrite (upd1_ne _ i _ np) by done. split; [|done].
    slot j i; [|done]. destruct Hst as [->|[->| ->]]; auto. by rewrite Hnf in Hj.
  - intros np Hnp. slot np i; [done|auto].
Qed.

(** Process [i] gives up CPU [c]. *)
Lemma tinv_leave s i c st ch :
  tinv s → k_run s !! c = Some (Some i) → alive st → st ≠ RUNNING → (st = SLEEPING → k_fork s !! i = None) →
  (st = SLEEPING → ch = ChProc i → ∀ j, k_parent (k_tab s j) = Some i → k_state (k_tab s j) ≠ ZOMBIE) →
  tinv (K (upd1 (k_tab s) i (Core st (k_pid (k_tab s i)) (k_parent (k_tab s i)) ch)) (k_init s)
         (<[c := None]> (k_run s)) (k_fork s)).
Proof.
  intros H Hc Hst Hnr Hnf Hw. pose proof (ti_cpu _ H _ _ Hc) as Hi.
  apply tinv_live; try done.
  - by right; right.
  - intros c' j Hj. destruct (decide (c' = c)) as [->|Hcc].
    { rewrite list_lookup_insert_eq in Hj by (by eapply lookup_lt_Some). done. }
    rewrite list_lookup_insert_ne in Hj by done. slot j i.
    + by destruct Hcc; apply (ti_inj _ H _ _ i).
    + by apply (ti_cpu _ H c').
  - intros c1 c2 j H1 H2.
    assert (Hne : ∀ c', <[c := None]> (k_run s) !! c' = Some (Some j) → k_run s !! c' = Some (Some j)).
    { intros c'. destruct (decide (c' = c)) as [->|Hcc].
      - rewrite list_lookup_insert_eq by (by eapply lookup_lt_Some). done.
      - by rewrite list_lookup_insert_ne. }
    by apply (ti_inj _ H _ _ j); apply Hne.
  - intros j Hj. slot j i; [done|]. destruct (ti_run _ H j Hj) as [c' Hc']. exists c'.
    rewrite list_lookup_insert_ne; [done|]. intros ->. congruence.
Qed.

(** CPU [c], which has no process, switches to the runnable process [i]. *)
Lemma tinv_enter s i c ch :
  tinv s → k_run s !! c = Some None → k_state (k_tab s i) = RUNNABLE →
  tinv (K (upd1 (k_tab s) i (Core RUNNING (k_pid (k_tab s i)) (k_parent (k_tab s i)) ch)) (k_init s)
         (<[c := Some i]> (k_run s)) (k_fork s)).
Proof.
  intros H Hc Hi. pose proof (lookup_lt_Some _ _ _ Hc) as Hlt.
  assert (Hrun : ∀ c' j, <[c := Some i]> (k_run s) !! c' = Some (Some j) →
    c' = c ∧ j = i ∨ c' ≠ c ∧ j ≠ i ∧ k_run s !! c' = Some (Some j)).
  { intros c' j. destruct (decide (c' = c)) as [->|Hcc].
    - rewrite list_lookup_insert_eq by done. intros [= ->]. auto.
    - rewrite list_lookup_insert_ne by done. intros Hj. right. split_and!; try done.
      intros ->. pose proof (ti_cpu _ H _ _ Hj). congruence. }
  apply tinv_live; try done.
  - by right; left.
  - by right; right.
  - intros c' j [[-> ->]|(_ & Hji & Hj)]%Hrun; [by rewrite upd1_eq|].
    rewrite upd1_ne by done. by apply (ti_cpu _ H c').
  - intros c1 c2 j H1%Hrun H2%Hrun. destruct H1 as [[-> ->]|(H11 & H12 & H13)], H2 as [[-> ?]|(H21 & H22 & H23)];
      try done. by apply (ti_inj _ H _ _ j).
  - intros j Hj. slot j i.
    + exists c. by apply list_lookup_insert_eq.
    + destruct (ti_run _ H j Hj) as [c' Hc']. exists c'. rewrite list_lookup_insert_ne; [done|].
      intros ->. congruence.
Qed.

(** Waking the processes asleep on a channel. *)
Lemma k_wake_cases ch c :
  k_pid (k_wake ch c) = k_pid c ∧ k_parent (k_wake ch c) = k_parent c ∧ k_chan (k_wake ch c) = k_chan c ∧
  (k_state (k_wake ch c) = k_state c ∧ ¬ (k_state c = SLEEPING ∧ k_chan c = ch) ∨
   k_state (k_wake ch c) = RUNNABLE ∧ k_state c = SLEEPING ∧ k_chan c = ch).
Proof. unfold k_wake. case_bool_decide; cbn; tauto. Qed.

(** Some sleepers become runnable; the rest stays. *)
Definition woken_of (T T' : table) : Prop := ∀ i,
  k_pid (T' i) = k_pid (T i) ∧ k_parent (T' i) = k_parent (T i) ∧ k_chan (T' i) = k_chan (T i) ∧
  (k_state (T' i) = k_state (T i) ∨ k_state (T' i) = RUNNABLE ∧ k_state (T i) = SLEEPING).

Lemma woken_alive T T' i : woken_of T T' → alive (k_state (T i)) → alive (k_state (T' i)).
Proof.
  intros Hw. destruct (Hw i) as (_ & _ & _ & [->|[-> _]]); [done|]. intros _. by right; left.
Qed.

Lemma tinv_woken s T' : tinv s → woken_of (k_tab s) T' → tinv (K T' (k_init s) (k_run s) (k_fork s)).
Proof.
  intros H Hw.
  assert (Hst : ∀ i, k_state (T' i) = k_state (k_tab s i) ∨
    k_state (T' i) = RUNNABLE ∧ k_state (k_tab s i) = SLEEPING) by (intros i; apply Hw).
  assert (Hun : ∀ i, k_state (T' i) ≠ UNUSED → k_state (k_tab s i) ≠ UNUSED).
  { intros i. destruct (Hst i) as [->|[_ ->]]; done. }
  assert (Hpar : ∀ i, k_parent (T' i) = k_parent (k_tab s i)) by (intros i; apply Hw).
  split; cbn [k_tab k_init k_run k_fork]; try apply H.
  - intros c i Hc. pose proof (ti_cpu _ H c i Hc). destruct (Hst i) as [->|[_ ?]]; congruence.
  - intros i Hi. destruct (Hst i) as [Ei|[Ei _]]; [|congruence]. apply (ti_run _ H). congruence.
  - intros i Hi. rewrite Hpar. apply (ti_unused _ H). destruct (Hst i) as [Ei|[Ei _]]; congruence.
  - destruct (ti_init _ H) as (q & Eq & Hq). exists q. split; [done|]. by apply (woken_alive (k_tab s)).
  - intros i Hi Hie Hni. destruct (ti_parent _ H i (Hun i Hi)) as (q & Hq & Hqa); [|done|].
    { destruct (Hst i) as [<-|[_ ->]]; done. }
    exists q. rewrite Hpar. split; [done|]. by apply (woken_alive (k_tab s)).
  - intros q i Hq Hc Hp. rewrite Hpar in Hp. destruct (Hw q) as (_ & _ & Ech & _). rewrite Ech in Hc.
    assert (Hqs : k_state (k_tab s q) = SLEEPING) by (destruct (Hst q) as [E|[E _]]; congruence).
    pose proof (ti_wait _ H q i Hqs Hc Hp). destruct (Hst i) as [->|[-> _]]; done.
  - intros i. rewrite Hpar. apply H.
  - intros q Hq. rewrite Hpar. by apply (ti_initpar _ H).
  - intros i np b Hi. destruct (ti_fork _ H i np b Hi) as (Hs & Hnp & Hp). rewrite Hpar. split_and!; [| |done].
    + destruct (Hst i) as [->|[-> _]]; [done|by right].
    + destruct (Hst np) as [->|[_ ?]]; [done|congruence].
  - intros np Hnp. apply (ti_embryo _ H). destruct (Hst np) as [<-|[? _]]; congruence.
Qed.

Lemma woken_pids T T' : woken_of T T' → pid_sub T T'.
Proof. intros Hw i Hi. destruct (Hw i) as (-> & _ & _ & [E|[_ E]]); split; congruence. Qed.

Lemma woken_wake ch T : woken_of T (λ i, k_wake ch (T i)).
Proof. intros i. pose proof (k_wake_cases ch (T i)). intuition. Qed.

(** What the running process [cur] does in [fork] to the slot [i] of its child:
    it takes the slot and prepares it, gives it back, or makes it runnable. *)
Inductive fork_slot (cur i : nat) (F : gmap nat (nat * bool)) : core → gmap nat (nat * bool) → Prop :=
  | slot_back n ch : fork_slot cur i F (Core UNUSED n None ch) (delete cur F)
  | slot_taken n ch b : fork_slot cur i F (Core EMBRYO n (if b : bool then Some cur else None) ch) (<[cur := (i, b)]> F)
  | slot_started n ch : fork_slot cur i F (Core RUNNABLE n (Some cur) ch) (delete cur F).

Lemma fork_slot_other cur i F c F' j : fork_slot cur i F c F' → j ≠ cur → F' !! j = F !! j.
Proof. intros [] Hj; by rewrite ?lookup_delete_ne, ?lookup_insert_ne. Qed.

Lemma tinv_fork s cur i c F' :
  tinv s → k_state (k_tab s cur) = RUNNING →
  k_state (k_tab s i) = UNUSED ∧ k_fork s !! cur = None ∨ (∃ b, k_fork s !! cur = Some (i, b)) →
  fork_slot cur i (k_fork s) c F' →
  tinv (K (upd1 (k_tab s) i c) (k_init s) (k_run s) F').
Proof.
  intros H Hcur Hi Hc.
  assert (Hst : k_state (k_tab s i) = UNUSED ∨ k_state (k_tab s i) = EMBRYO).
  { destruct Hi as [[? _]|[b Hb]]; [by left|right]. by apply (ti_fork _ H cur i b). }
  assert (Hal : ∀ q, alive (k_state (k_tab s q)) → q ≠ i).
  { intros q Hq ->. destruct Hst as [E|E]; rewrite E in Hq; by destruct Hq as [?|[?|?]]. }
  assert (Hci : cur ≠ i) by (apply Hal; by right; right).
  assert (Hoth : ∀ j np b, j ≠ cur → F' !! j = Some (np, b) → k_fork s !! j = Some (np, b) ∧ np ≠ i).
  { intros j np b Hj. rewrite (fork_slot_other _ _ _ _ _ _ Hc Hj). intros Hf. split; [done|]. intros ->.
    destruct Hi as [[Hu _]|[b' Hb]]; [|by apply Hj, (ti_forkinj _ H j cur i b b')].
    destruct (ti_fork _ H j i b Hf) as (_ & ? & _). congruence. }
  assert (Hnew : ∀ np b, F' !! cur = Some (np, b) → np = i ∧ k_state c = EMBRYO ∧ k_parent c = if b : bool then Some cur else None).
  { destruct Hc; intros np b'; rewrite ?lookup_delete_eq, ?lookup_insert_eq; try done. by intros [= <- <-]. }
  assert (Hcs : k_state c = UNUSED ∧ k_parent c = None ∨ k_state c = EMBRYO ∧ F' !! cur = Some (i, bool_decide (k_parent c = Some cur)) ∨
    k_state c = RUNNABLE ∧ k_parent c = Some cur).
  { destruct Hc as [| |]; cbn; auto. right; left. rewrite lookup_insert_eq. split; [done|].
    destruct b; [by rewrite bool_decide_true|by rewrite bool_decide_false]. }
  assert (Hcp : k_parent c = None ∨ k_parent c = Some cur) by (destruct Hc as [|? ? []|]; cbn; auto).
  split; cbn [k_tab k_init k_run k_fork].
  - intros c' j Hj. pose proof (ti_cpu _ H c' j Hj). slot j i; [|done]. destruct Hst; congruence.
  - apply H.
  - intros j Hj. slot j i; [|by apply (ti_run _ H)]. destruct Hcs as [[? _]|[[? _]|[? _]]]; congruence.
  - intros j Hj. slot j i; [|by apply (ti_unused _ H)]. destruct Hcs as [[_ ?]|[[? _]|[? _]]]; congruence.
  - destruct (ti_init _ H) as (q & Eq & Hq). exists q. split; [done|]. by rewrite upd1_ne by (by apply Hal).
  - intros j Hj Hje Hnj. slot j i.
    + exists cur. rewrite upd1_ne, Hcur by done. split; [|by right; right].
      destruct Hcs as [[? _]|[[? _]|[_ ?]]]; congruence.
    + destruct (ti_parent _ H j Hj Hje Hnj) as (q & Hq & Hqa). exists q. split; [done|]. by rewrite upd1_ne by (by apply Hal).
  - intros q j Hq Hch Hp. slot q i.
    { destruct Hcs as [[? _]|[[? _]|[? _]]]; congruence. }
    slot j i; [|by apply (ti_wait _ H q)]. destruct Hcs as [[-> _]|[[-> _]|[-> _]]]; done.
  - intros j. slot j i; [|apply H]. destruct Hcp as [->| ->]; congruence.
  - intros q Hq. destruct (ti_init _ H) as (q' & Eq & Hqa). assert (q' = q) as -> by congruence.
    rewrite upd1_ne by (by apply Hal). by apply (ti_initpar _ H).
  - intros j np b Hj. destruct (decide (j = cur)) as [->|Hjc].
    + destruct (Hnew np b Hj) as (-> & Hs & Hp). rewrite upd1_eq, (upd1_ne _ i _ cur) by done. auto.
    + destruct (Hoth j np b Hjc Hj) as [Hf Hnp]. destruct (ti_fork _ H j np b Hf) as (Hs & He & Hp).
      rewrite (upd1_ne _ i _ np) by done. split; [|done].
      rewrite upd1_ne; [done|]. intros ->. destruct Hst as [E|E]; rewrite E in Hs; destruct Hs; done.
  - intros j j' np b b' Hj Hj'. destruct (decide (j = cur)) as [->|Hjc], (decide (j' = cur)) as [->|Hjc']; [done| | |].
    + destruct (Hnew np b Hj) as [-> _]. by destruct (Hoth j' i b' Hjc' Hj').
    + destruct (Hnew np b' Hj') as [-> _]. by destruct (Hoth j i b Hjc Hj).
    + apply (ti_forkinj _ H j j' np b b'); [by apply Hoth|by apply Hoth].
  - intros np Hnp. slot np i.
    + destruct Hcs as [[? _]|[[_ Hf]|[? _]]]; [congruence| |congruence]. eauto.
    + destruct (ti_embryo _ H np Hnp) as (j & b & Hj). exists j, b.
      rewrite (fork_slot_other _ _ _ _ _ _ Hc); [done|]. intros ->. destruct Hi as [[_ Hn]|[b' Hb]]; [congruence|].
      rewrite Hb in Hj. by injection Hj as <- _.
Qed.

(** A zombie is reaped. *)
Lemma tinv_reap s i ch :
  tinv s → k_state (k_tab s i) = ZOMBIE →
  tinv (K (upd1 (k_tab s) i (Core UNUSED 0 None ch)) (k_init s) (k_run s) (k_fork s)).
Proof.
  intros H Hi.
  assert (Hal : ∀ q, alive (k_state (k_tab s q)) → q ≠ i).
  { intros q Hq ->. rewrite Hi in Hq. by destruct Hq as [?|[?|?]]. }
  split; cbn [k_tab k_init k_run k_fork]; try apply H.
  - intros c j Hj. pose proof (ti_cpu _ H c j Hj). slot j i; congruence.
  - intros j Hj. slot j i; [done|]. by apply (ti_run _ H).
  - intros j Hj. slot j i; [done|]. by apply (ti_unused _ H).
  - destruct (ti_init _ H) as (q & Eq & Hq). exists q. split; [done|]. by rewrite upd1_ne by (by apply Hal).
  - intros j Hj Hje Hnj. slot j i; [done|].
    destruct (ti_parent _ H j Hj Hje Hnj) as (q & Hq & Hqa). exists q. split; [done|].
    by rewrite upd1_ne by (by apply Hal).
  - intros q j Hq Hc Hp. slot q i; [done|]. slot j i; [done|]. by apply (ti_wait _ H q).
  - intros j. slot j i; [done|]. apply H.
  - intros q Hq. slot q i; [done|]. by apply (ti_initpar _ H).
  - intros j np b Hj. destruct (ti_fork _ H j np b Hj) as (Hs & He & Hp).
    rewrite !upd1_ne by (intros ->; rewrite Hi in *; first [done|by destruct Hs]). done.
  - intros np Hnp. slot np i; [done|]. by apply (ti_embryo _ H).
Qed.

(** The running process [cur] exits: its children pass to init, its parent (and
    init, when it gets a zombie) is woken, and it becomes a zombie. *)
Definition exited (T T' : table) (cur q0 : nat) : Prop := ∀ j,
  k_pid (T' j) = k_pid (T j) ∧ k_chan (T' j) = k_chan (T j) ∧
  k_parent (T' j) = (if decide (k_parent (T j) = Some cur) then Some q0 else k_parent (T j)) ∧
  (if decide (j = cur) then k_state (T' j) = ZOMBIE else
     (k_state (T' j) = k_state (T j) ∨ k_state (T' j) = RUNNABLE ∧ k_state (T j) = SLEEPING) ∧
     (k_parent (T cur) = Some j → k_chan (T j) = ChProc j → k_state (T' j) ≠ SLEEPING) ∧
     (j = q0 → (∃ i, k_parent (T i) = Some cur ∧ k_state (T i) = ZOMBIE) →
        k_chan (T j) = ChProc j → k_state (T' j) ≠ SLEEPING)).

Lemma tinv_exit s cur c q0 T' :
  tinv s → k_run s !! c = Some (Some cur) → k_fork s !! cur = None → k_init s = Some q0 → cur ≠ q0 →
  exited (k_tab s) T' cur q0 →
  tinv (K T' (k_init s) (<[c := None]> (k_run s)) (k_fork s)).
Proof.
  intros H Hc Hnf Hq0 Hne Hex. pose proof (ti_cpu _ H _ _ Hc) as Hcur.
  assert (Hz : k_state (T' cur) = ZOMBIE) by (destruct (Hex cur) as (_ & _ & _ & E); by rewrite decide_True in E).
  assert (Hst : ∀ j, j ≠ cur → k_state (T' j) = k_state (k_tab s j) ∨
    k_state (T' j) = RUNNABLE ∧ k_state (k_tab s j) = SLEEPING).
  { intros j Hj. destruct (Hex j) as (_ & _ & _ & E). rewrite decide_False in E by done. apply E. }
  assert (Hun : ∀ j, k_state (T' j) ≠ UNUSED → k_state (k_tab s j) ≠ UNUSED).
  { intros j Hj. destruct (decide (j = cur)) as [->|Hjc]; [by rewrite Hcur|].
    destruct (Hst j Hjc) as [E|[_ ->]]; [by rewrite <- E|done]. }
  assert (Hal : ∀ q, alive (k_state (k_tab s q)) → q ≠ cur → alive (k_state (T' q))).
  { intros q Hq Hqc. destruct (Hst q Hqc) as [->|[-> _]]; [done|]. by right; left. }
  destruct (ti_init _ H) as (q1 & Eq1 & Hq0a). assert (q1 = q0) as -> by congruence.
  assert (Hpar : ∀ j, k_parent (T' j) =
    (if decide (k_parent (k_tab s j) = Some cur) then Some q0 else k_parent (k_tab s j))) by (intros j; apply Hex).
  split; cbn [k_tab k_init k_run k_fork]; try apply H.
  - intros c' j Hj. destruct (decide (c' = c)) as [->|Hcc].
    { rewrite list_lookup_insert_eq in Hj by (by eapply lookup_lt_Some). done. }
    rewrite list_lookup_insert_ne in Hj by done. pose proof (ti_cpu _ H _ _ Hj) as Hr.
    destruct (decide (j = cur)) as [->|Hjc]; [by destruct Hcc; apply (ti_inj _ H _ _ cur)|].
    destruct (Hst j Hjc) as [->|[_ ?]]; congruence.
  - intros c1 c2 j H1 H2.
    assert (Hrun : ∀ c', <[c := None]> (k_run s) !! c' = Some (Some j) → k_run s !! c' = Some (Some j)).
    { intros c'. destruct (decide (c' = c)) as [->|Hcc].
      - rewrite list_lookup_insert_eq by (by eapply lookup_lt_Some). done.
      - by rewrite list_lookup_insert_ne. }
    by apply (ti_inj _ H _ _ j); apply Hrun.
  - intros j Hj. destruct (decide (j = cur)) as [->|Hjc]; [congruence|].
    destruct (Hst j Hjc) as [E|[E _]]; [|congruence].
    destruct (ti_run _ H j) as [c' Hc']; [congruence|]. exists c'.
    rewrite list_lookup_insert_ne; [done|]. intros ->. congruence.
  - intros j Hj. assert (Hju : k_state (k_tab s j) = UNUSED).
    { destruct (decide (j = cur)) as [->|Hjc]; [congruence|]. destruct (Hst j Hjc) as [<-|[? _]]; congruence. }
    rewrite Hpar, (ti_unused _ H j Hju). done.
  - exists q0. split; [done|]. by apply Hal.
  - intros j Hj Hje Hnj. rewrite Hpar. case_decide; [exists q0; split; [done|by apply Hal]|].
    destruct (ti_parent _ H j (Hun j Hj)) as (q & Hq & Hqa); [|done|].
    { destruct (decide (j = cur)) as [->|Hjc]; [by rewrite Hcur|]. destruct (Hst j Hjc) as [<-|[_ ->]]; done. } exists q. split; [done|].
    apply Hal; [done|]. intros ->. done.
  - intros q j Hq Hch Hp Hjz.
    assert (Hqc : q ≠ cur) by (intros ->; congruence).
    destruct (Hex q) as (_ & Ech & _ & E). rewrite decide_False in E by done.
    destruct E as (Eq & Ewp & Ewi). rewrite Ech in Hch.
    assert (Hqs : k_state (k_tab s q) = SLEEPING) by (destruct Eq as [<-|[? _]]; congruence).
    rewrite Hpar in Hp. case_decide as Hpc.
    + injection Hp as <-. destruct (decide (j = cur)) as [->|Hjc]; [by apply (ti_noself _ H cur)|].
      apply Ewi; try done. exists j. split; [done|]. destruct (Hst j Hjc) as [<-|[? _]]; [done|congruence].
    + destruct (decide (j = cur)) as [->|Hjc]; [by apply Ewp|].
      apply (ti_wait _ H q j); try done. destruct (Hst j Hjc) as [<-|[? _]]; [done|congruence].
  - intros j. rewrite Hpar. case_decide as Hjc; [|apply H]. intros [= <-].
    pose proof (ti_initpar _ H _ Hq0). congruence.
  - intros q Hq. assert (q = q0) as -> by congruence. rewrite Hpar, (ti_initpar _ H _ Hq0). done.
  - intros j np b Hj. destruct (ti_fork _ H j np b Hj) as (Hs & He & Hp).
    assert (Hjc : j ≠ cur) by congruence. assert (Hnc : np ≠ cur) by (intros ->; congruence). split_and!.
    + destruct (Hst j Hjc) as [->|[-> _]]; [done|by right].
    + destruct (Hst np Hnc) as [->|[_ ?]]; [done|congruence].
    + rewrite Hpar, Hp. by destruct b; rewrite decide_False by congruence.
  - intros np Hnp. apply (ti_embryo _ H). destruct (decide (np = cur)) as [->|Hnc]; [congruence|].
    destruct (Hst np Hnc) as [<-|[? _]]; congruence.
Qed.

Lemma exited_pids T T' cur q0 : k_state (T cur) ≠ UNUSED → exited T T' cur q0 → pid_sub T T'.
Proof.
  intros Hc H j Hj. destruct (H j) as (-> & _ & _ & Hs). split; [|done].
  destruct (decide (j = cur)) as [->|Hjc]; [done|]. destruct Hs as ([E|[_ E]] & _); congruence.
Qed.
