(* ===== verification/ProcSteps.v ===== *)
(** * The routines of proc.c as transitions of the process table

    Each routine, called by the process [cur] that a CPU runs (interrupts on,
    no lock held), is computed down to what it does to the table; the results
    are the transitions of ProcInv.v. *)

From Stdlib Require Import FunctionalExtensionality.
From S2P Require Import Prelude Memory KString Spinlock Proc ProcInv.

Definition core_of (p : proc) : core := Core (state p) (pid p) (parent p) (chan_of p).

Definition tab (ps : list proc) : table := λ i, core_of (ps !!! i).

Lemma tab_alter ps i f :
  (i < length ps)%nat → tab (alter f i ps) = upd1 (tab ps) i (core_of (f (ps !!! i))).
Proof.
  intros Hi. extensionality j. unfold tab, upd1. rewrite list_lookup_total_alter.
  destruct (decide (j = i)) as [->|Hne]; [by rewrite decide_True by lia|].
  rewrite decide_False; [done|]. by intros [? _].
Qed.

Lemma upd1_same T i : upd1 T i (T i) = T.
Proof. extensionality j. unfold upd1. by case_decide; subst. Qed.

Lemma find_proc_spec P (ps : list proc) i :
  find_proc P ps = Some i → (i < NPROC)%nat ∧ P (ps !!! i) = true.
Proof. intros [Hin HP]%find_some. apply in_seq in Hin. split; [lia|done]. Qed.

Lemma find_proc_none P (ps : list proc) i :
  find_proc P ps = None → (i < NPROC)%nat → P (ps !!! i) = false.
Proof. intros H Hi. apply (find_none _ _ H), in_seq. lia. Qed.

Lemma is_state_true st p : is_state st p = true ↔ state p = st.
Proof. apply bool_decide_eq_true. Qed.

Lemma is_state_false st p : is_state st p = false ↔ state p ≠ st.
Proof. apply bool_decide_eq_false. Qed.

(** Interrupts on and no lock held; interrupts off with one lock held. *)
Abbreviation cpu_on := (Cpu true 0 true).
Abbreviation cpu_off := (Cpu false 1 true).

Section Steps.
Context {E : Type} `{!ProcRes E}.
Implicit Types (ps : list proc) (e : E) (c : option nat).

Lemma popcli_run lk ps init nx c e :
  on_cpu popcli (PT lk ps init nx cpu_off c e) = Ret tt (PT lk ps init nx cpu_on c e).
Proof. done. Qed.

Lemma acquire_run ps init nx c e :
  acquire_pt (PT false ps init nx cpu_on c e) = Ret tt (PT true ps init nx cpu_off c e).
Proof. done. Qed.

Lemma release_run ps init nx c e :
  release_pt (PT true ps init nx cpu_off c e) = Ret tt (PT false ps init nx cpu_on c e).
Proof. done. Qed.

Lemma myproc_run lk ps init nx k cur e :
  k = cpu_on ∨ k = cpu_off →
  myproc (PT lk ps init nx k (Some cur) e) = Ret cur (PT lk ps init nx k (Some cur) e).
Proof. by intros [-> | ->]. Qed.

(** ** allocproc *)

(** The slot with its pid, and after a failed and a successful [allocproc]. *)
Definition taken (nx : Z) (p : proc) : proc := set_pid nx (set_state EMBRYO p).

Definition bumped (p : proc) : proc := set_state UNUSED (set_kstack 0 p).

Definition embryo (k : Z) (p : proc) : proc :=
  let sp := k + KSTACKSIZE - sizeof_trapframe in
  set_handler (-1) (set_dis_sig 0 (set_cregs (Context 0 0 0 0 forkret_addr)
    (set_ctx (sp - 4 - sizeof_context) (set_ret_addr trapret_addr (set_tf sp (set_kstack k p)))))).

Lemma alloc_slot_run ps init nx c e :
  alloc_slot (PT false ps init nx cpu_on c e) =
  match find_proc (is_state UNUSED) ps with
  | None => Ret None (PT false ps init nx cpu_on c e)
  | Some i => Ret (Some i) (PT false (alter (taken nx) i ps) init (s32 (nx + 1)) cpu_on c e)
  end.
Proof.
  unfold alloc_slot, bind at 1. rewrite acquire_run. unfold bind at 1, gets. cbn [procs].
  destruct (find_proc (is_state UNUSED) ps) as [i|]; [|done].
  unfold bind, on_proc, on_procs, modify, gets. cbn -[s32].
  rewrite popcli_run. cbn -[s32]. unfold ret. by rewrite list_alter_alter_eq.
Qed.

Lemma alloc_stack_run ps init nx c e i :
  alloc_stack i (PT false ps init nx cpu_on c e) =
  match r_kalloc e with
  | inl msg => Panic msg
  | inr (k, e') =>
      if k =? 0 then Ret None (PT false (alter bumped i ps) init nx cpu_on c e')
      else Ret (Some i) (PT false (alter (embryo k) i ps) init nx cpu_on c e')
  end.
Proof.
  unfold alloc_stack, bind, on_proc, on_procs, modify, gets, on_env. cbn.
  destruct (r_kalloc e) as [|[k e']]; [done|]. cbn.
  destruct (Z.eqb_spec k 0) as [->|Hk]; cbn; unfold ret; rewrite !list_alter_alter_eq; done.
Qed.

Lemma allocproc_run ps init nx c e :
  allocproc (PT false ps init nx cpu_on c e) =
  match find_proc (is_state UNUSED) ps with
  | None => Ret None (PT false ps init nx cpu_on c e)
  | Some i =>
      match r_kalloc e with
      | inl msg => Panic msg
      | inr (k, e') =>
          if k =? 0 then Ret None (PT false (alter bumped i (alter (taken nx) i ps)) init (s32 (nx + 1)) cpu_on c e')
          else Ret (Some i) (PT false (alter (embryo k) i (alter (taken nx) i ps)) init (s32 (nx + 1)) cpu_on c e')
      end
  end.
Proof.
  unfold allocproc, bind at 1. rewrite alloc_slot_run. destruct (find_proc _ _); [|done]. apply alloc_stack_run.
Qed.

(** ** fork *)

(** The loop over the open files changes nothing but the child's [ofile]. *)
Lemma dup_loop_run (fs : list Z) np init nx c ks : ∀ ps e s',
  for_all ks (λ i, when negb (fs !!! i =? 0) do
    (f <- on_env (r_filedup (fs !!! i)) ;;
     on_proc np (λ q, set_ofile (<[i := f]> (ofile q)) q))) (PT false ps init nx cpu_on c e) = Ret tt s' →
  ∃ h e', s' = PT false (alter (λ q, set_ofile (h (ofile q)) q) np ps) init nx cpu_on c e'.
Proof.
  induction ks as [|i ks IH]; intros ps e s'; cbn [for_all].
  - intros [= <-]. exists id, e. f_equal. symmetry. apply list_alter_id. by intros [].
  - unfold bind at 1. destruct (negb (fs !!! i =? 0)).
    + unfold bind at 1, on_env. cbn [env]. destruct (r_filedup (fs !!! i) e) as [|[f e1]]; [done|].
      cbn. intros (h & e' & ->)%IH. exists (λ o, h (<[i := f]> o)), e'.
      by rewrite list_alter_alter_eq.
    + cbn. apply IH.
Qed.

Lemma dup_files_run fs np init nx c ps e s' :
  dup_files fs np (PT false ps init nx cpu_on c e) = Ret tt s' →
  ∃ h e', s' = PT false (alter (λ q, set_ofile (h (ofile q)) q) np ps) init nx cpu_on c e'.
Proof. apply dup_loop_run. Qed.

(** The child with its address space, without memory for it, and with all that
    is copied from the parent. *)
Definition given_space (cur : nat) (p : proc) (d : Z) (q : proc) : proc :=
  set_parent (Some cur) (set_sz (sz p) (set_pgdir d q)).

Definition no_space (q : proc) : proc := set_state UNUSED (set_kstack 0 (set_pgdir 0 q)).

Definition copied_rest (p : proc) (h : list Z → list Z) (w : Z) (q : proc) : proc :=
  let q := no_message (set_intr 0 (set_dis_sig 0 (set_handler (handler p) (set_frame (frame p) q)))) in
  let q := set_frame (tf_set_eax 0 (frame q)) q in
  copy_name (name p) (set_cwd w (set_ofile (h (ofile q)) q)).

Lemma fork_memory_run ps init nx c cur np e b s' :
  fork_memory cur np (PT false ps init nx cpu_on c e) = Ret b s' →
  ∃ d e', s' = PT false (alter (if b then given_space cur (ps !!! cur) d else no_space) np ps) init nx cpu_on c e' ∧
    (b = true → d ≠ 0).
Proof.
  unfold fork_memory, bind at 1, the_proc, gets at 1. cbn [procs]. unfold bind at 1, on_env at 1. cbn [env].
  destruct (r_copyuvm _ _ e) as [|[d e1]]; [done|]. unfold bind at 1, on_proc at 1, on_procs, modify at 1. cbn.
  destruct (Z.eqb_spec d 0) as [->|Hd].
  - unfold bind, gets, on_env. cbn. destruct (r_kfree _ e1) as [|[[] e2]]; [done|]. cbn.
    intros [= <- <-]. rewrite !list_alter_alter_eq. by exists 0, e2.
  - unfold bind, on_proc, on_procs, modify. cbn. intros [= <- <-]. rewrite !list_alter_alter_eq. by exists d, e1.
Qed.

Lemma fork_copy_run ps init nx c cur np e n s' :
  (np < length ps)%nat → fork_copy cur np (PT false ps init nx cpu_on c e) = Ret n s' →
  ∃ h w e', s' = PT false (alter (copied_rest (ps !!! cur) h w) np ps) init nx cpu_on c e' ∧ n = pid (ps !!! np).
Proof.
  intros Hn. unfold fork_copy, bind at 1, the_proc, gets at 1. cbn [procs].
  unfold bind at 1 2 3 4 5 6. cbn -[dup_files]. rewrite !list_alter_alter_eq. unfold bind at 1.
  match goal with |- context [dup_files ?l ?b ?s] => destruct (dup_files l b s) as [[] s1| | |] eqn:Eloop end;
    [|done..].
  apply dup_files_run in Eloop as (h & e1 & ->).
  unfold bind at 1, on_env at 1. cbn [env]. destruct (r_idup _ e1) as [|[w e2]]; [done|].
  unfold bind, on_proc, on_procs, modify, gets. cbn. rewrite !list_alter_alter_eq. intros [= <- <-].
  exists h, w, e2. split; [done|]. by rewrite list_lookup_total_alter_eq.
Qed.

Lemma fork_start_run ps init nx c np e :
  fork_start np (PT false ps init nx cpu_on c e) = Ret tt (PT false (alter (set_state RUNNABLE) np ps) init nx cpu_on c e).
Proof. done. Qed.

(** The child when [fork] returns. *)
Definition child (cur : nat) (p p' : proc) (d : Z) (h : list Z → list Z) (w : Z) (q : proc) : proc :=
  set_state RUNNABLE (copied_rest p' h w (given_space cur p d q)).

(** What [fork] can do: fail without a free slot, fail without memory, or make
    a runnable child in a free slot. *)
Inductive forked (ps : list proc) (nx : Z) (cur : nat) : Z → list proc → Z → Prop :=
  | forked_full : find_proc (is_state UNUSED) ps = None → forked ps nx cur (-1) ps nx
  | forked_nomem i f :
      find_proc (is_state UNUSED) ps = Some i →
      (∀ p, core_of (f p) = Core UNUSED nx (parent p) (chan_of p)) →
      forked ps nx cur (-1) (alter f i ps) (s32 (nx + 1))
  | forked_child i k p p' d h w :
      find_proc (is_state UNUSED) ps = Some i → k ≠ 0 → d ≠ 0 →
      (i ≠ cur → p = ps !!! cur ∧ p' = ps !!! cur) →
      forked ps nx cur nx
        (alter (λ q, child cur p p' d h w (embryo k (taken nx q))) i ps) (s32 (nx + 1)).

Lemma fork_run ps init nx cur e r s' :
  length ps = NPROC →
  fork (PT false ps init nx cpu_on (Some cur) e) = Ret r s' →
  ∃ ps' nx' e', s' = PT false ps' init nx' cpu_on (Some cur) e' ∧ forked ps nx cur r ps' nx'.
Proof.
  intros Hl. unfold fork, bind at 1. rewrite myproc_run by auto. unfold bind at 1.
  rewrite allocproc_run. destruct (find_proc (is_state UNUSED) ps) as [i|] eqn:Ef.
  2:{ intros [= <- <-]. do 3 eexists. split; [done|]. by constructor. }
  apply find_proc_spec in Ef as Hi. destruct Hi as [Hi _].
  destruct (r_kalloc e) as [|[k e1]]; [done|]. rewrite !list_alter_alter_eq. destruct (Z.eqb_spec k 0) as [->|Hk].
  { intros [= <- <-]. do 3 eexists. split; [done|]. by constructor. }
  set (ps1 := alter (embryo k ∘ taken nx) i ps). unfold bind at 1.
  destruct (fork_memory cur i _) as [b s1| | |] eqn:Em; [|done..].
  apply fork_memory_run in Em as (d & e2 & -> & Hd). destruct b; cbn [negb].
  2:{ intros [= <- <-]. unfold ps1. rewrite list_alter_alter_eq. do 3 eexists. split; [done|]. by constructor. }
  unfold bind at 1. destruct (fork_copy cur i _) as [n s2| | |] eqn:Ec; [|done..].
  assert (Hl1 : length ps1 = NPROC) by (unfold ps1; by rewrite length_alter).
  apply fork_copy_run in Ec as (h & w & e3 & -> & ->); [|rewrite length_alter; lia].
  unfold bind. rewrite fork_start_run. intros [= <- <-]. rewrite list_lookup_total_alter_eq by lia.
  assert (Hp : i ≠ cur → ps1 !!! cur = ps !!! cur ∧ alter (given_space cur (ps1 !!! cur) d) i ps1 !!! cur = ps !!! cur).
  { intros Hne. unfold ps1. by rewrite !list_lookup_total_alter_ne. }
  revert Hp. generalize (alter (given_space cur (ps1 !!! cur) d) i ps1 !!! cur). generalize (ps1 !!! cur). intros p p' Hp.
  unfold ps1. rewrite !list_alter_alter_eq, list_lookup_total_alter_eq by lia.
  eexists _, _, _. split; [reflexivity|]. exact (forked_child ps nx cur i k p p' d h w Ef Hk (Hd eq_refl) Hp).
Qed.

(** ** Sleeping, waking, waiting *)

Lemma sched_run ps init nx cur e :
  state (ps !!! cur) ≠ RUNNING →
  sched (PT true ps init nx cpu_off (Some cur) e) =
    Sleep (chan_of (ps !!! cur)) (PT true ps init nx cpu_off (Some cur) e).
Proof.
  intros Hs. unfold sched, the_proc, bind at 1. rewrite myproc_run by auto. steps. cbn [pt_lock mycpu procs negb ncli fl_if].
  apply is_state_false in Hs. by rewrite Hs.
Qed.

Definition asleep (ch : chan) (p : proc) : proc := set_state SLEEPING (set_chan_of ch p).

Lemma sleep_run ps init nx cur e ch own :
  (cur < length ps)%nat →
  sleep ch own (if own then PT true ps init nx cpu_off (Some cur) e
                else PT false ps init nx cpu_on (Some cur) e) =
    Sleep ch (PT true (alter (asleep ch) cur ps) init nx cpu_off (Some cur) e).
Proof.
  intros Hc. destruct own; unfold sleep, bind at 1; rewrite myproc_run by auto; unfold bind, ret;
    rewrite ?acquire_run; unfold on_proc, on_procs, modify; cbn [procs pt_lock initproc nextpid mycpu cproc env];
    rewrite list_alter_alter_eq;
    rewrite sched_run; rewrite list_lookup_total_alter_eq by done; done.
Qed.

Lemma yield_run ps init nx cur e :
  (cur < length ps)%nat →
  yield (PT false ps init nx cpu_on (Some cur) e) =
    Sleep (chan_of (ps !!! cur))
      (PT true (alter (set_state RUNNABLE) cur ps) init nx cpu_off (Some cur) e).
Proof.
  intros Hc. unfold yield, bind. rewrite acquire_run, myproc_run by auto.
  unfold on_proc, on_procs, modify. cbn [procs pt_lock initproc nextpid mycpu cproc env].
  rewrite sched_run; by rewrite list_lookup_total_alter_eq by done.
Qed.

Lemma wakeup_run ps init nx c e ch :
  wakeup ch (PT false ps init nx cpu_on c e) =
    Ret tt (PT false (map (wake_one ch) ps) init nx cpu_on c e).
Proof. done. Qed.

Definition kill_one (p : proc) : proc :=
  if is_state SLEEPING p then set_state RUNNABLE (set_killed true p) else set_killed true p.

Lemma kill_run ps init nx c e n :
  length ps = NPROC →
  kill n (PT false ps init nx cpu_on c e) =
  match find_proc (λ p, pid p =? n) ps with
  | Some i => Ret 0 (PT false (alter kill_one i ps) init nx cpu_on c e)
  | None => Ret (-1) (PT false ps init nx cpu_on c e)
  end.
Proof.
  intros Hl. unfold kill, bind at 1. rewrite acquire_run. unfold bind at 1, gets. cbn [procs].
  destruct (find_proc _ ps) as [i|] eqn:Ef; [|done]. apply find_proc_spec in Ef as [Hi _].
  unfold bind, on_proc, on_procs, modify, the_proc, gets. cbn.
  rewrite list_lookup_total_alter_eq by lia.
  assert (Hs : is_state SLEEPING (set_killed true (ps !!! i)) = is_state SLEEPING (ps !!! i)) by done.
  rewrite Hs. destruct (is_state SLEEPING (ps !!! i)) eqn:Es; cbn; rewrite popcli_run; cbn;
    rewrite ?list_alter_alter_eq; unfold ret; do 2 f_equal;
    apply list_alter_ext; try done; intros p Hp; apply list_lookup_total_correct in Hp; subst p;
    unfold kill_one; by rewrite Es.
Qed.

Definition reaped (p : proc) : proc :=
  let p := set_parent None (set_pid 0 (set_kstack 0 p)) in
  set_state UNUSED (set_killed false (set_name (<[0%nat := 0]> (name p)) p)).

(** What [wait] does: it reaps the first zombie child and returns its pid,
    fails when there is no child or the caller is killed, or sleeps. *)
Lemma wait_run ps init nx cur e :
  length ps = NPROC → (cur < NPROC)%nat →
  wait (PT false ps init nx cpu_on (Some cur) e) =
  match find_proc (λ p, is_child cur p && is_state ZOMBIE p) ps with
  | Some i =>
      match r_kfree (kstack (ps !!! i)) e with
      | inl msg => Panic msg
      | inr (_, e1) =>
          match r_freevm (pgdir (ps !!! i)) e1 with
          | inl msg => Panic msg
          | inr (_, e2) =>
              Ret (pid (ps !!! i)) (PT false (alter reaped i ps) init nx cpu_on (Some cur) e2)
          end
      end
  | None =>
      if negb (existsb (is_child cur) ps) || killed (ps !!! cur)
      then Ret (-1) (PT false ps init nx cpu_on (Some cur) e)
      else Sleep (ChProc cur)
        (PT true (alter (asleep (ChProc cur)) cur ps) init nx cpu_off (Some cur) e)
  end.
Proof.
  intros Hl Hc. unfold wait, bind at 1. rewrite myproc_run by auto. unfold bind at 1. rewrite acquire_run.
  unfold bind at 1, gets. cbn [procs]. destruct (find_proc _ ps) as [i|].
  - unfold bind at 1, the_proc, gets. cbn [procs]. unfold bind at 1, on_env at 1. cbn [env].
    destruct (r_kfree _ e) as [|[[] e1]]; [done|]. unfold bind, on_env, on_proc, on_procs, modify. cbn.
    destruct (r_freevm _ e1) as [|[[] e2]]; [done|]. cbn. rewrite popcli_run. cbn.
    by rewrite !list_alter_alter_eq.
  - destruct (negb _ || _); [done|]. unfold bind. rewrite (sleep_run ps init nx cur e (ChProc cur) true); [done|lia].
Qed.

(** ** exit *)

(** Giving up the files changes nothing but the process's [ofile] and [cwd]. *)
Lemma close_loop_run cur init nx c ks : ∀ ps e r,
  for_all ks (λ fd,
    p <- the_proc cur ;;
    when negb (ofile p !!! fd =? 0) do
      (on_env (r_fileclose (ofile p !!! fd)) ;;;
       on_proc cur (λ q, set_ofile (<[fd := 0]> (ofile q)) q))) (PT false ps init nx cpu_on c e) = r →
  (∃ msg, r = Panic msg) ∨
  ∃ h e', r = Ret tt (PT false (alter (λ q, set_ofile (h (ofile q)) q) cur ps) init nx cpu_on c e').
Proof.
  induction ks as [|fd ks IH]; intros ps e r; cbn [for_all].
  - intros <-. right. exists id, e. unfold ret. do 2 f_equal. symmetry. apply list_alter_id. by intros [].
  - unfold bind at 1, bind at 1, the_proc at 1, gets at 1. cbn [procs].
    destruct (negb _); [|apply IH].
    unfold bind at 1, on_env at 1. cbn [env]. destruct (r_fileclose _ e) as [msg|[[] e1]].
    + intros <-. left. by exists msg.
    + cbn -[for_all]. intros [?|(h & e' & ->)]%IH; [by left|right].
      exists (λ o, h (<[fd := 0]> o)), e'. by rewrite list_alter_alter_eq.
Qed.

Lemma exit_files_run cur init nx c ps e r :
  exit_files cur (PT false ps init nx cpu_on c e) = r →
  (∃ msg, r = Panic msg) ∨
  ∃ f e', r = Ret tt (PT false (alter f cur ps) init nx cpu_on c e') ∧ ∀ p, core_of (f p) = core_of p.
Proof.
  unfold exit_files, bind at 1.
  destruct (close_loop_run cur init nx c (seq 0 NOFILE) ps e _ eq_refl) as [[msg ->]|(h & e1 & ->)];
    [intros <-; left; eauto|].
  unfold bind, the_proc, gets, on_env. cbn.
  destruct (r_iput_op _ e1) as [msg|[[] e2]]; cbn; [intros <-; left; eauto|].
  unfold on_proc, on_procs, modify. cbn. rewrite list_alter_alter_eq. intros <-. right.
  eexists _, _. split; [done|]. done.
Qed.

(** The loop of [reparent] on the table. *)
Definition reparent_one (cur : nat) (init : option nat) (i : nat) (ps : list proc) : list proc :=
  if is_child cur (ps !!! i) then
    let ps' := alter (set_parent init) i ps in
    if is_state ZOMBIE (ps !!! i) then map (wake_one (proc_chan init)) ps' else ps'
  else ps.

Lemma reparent_run cur init nx c ks : ∀ ps k e,
  for_all ks (λ i,
    p <- the_proc i ;;
    when is_child cur p do
      (on_proc i (set_parent init) ;;;
       when is_state ZOMBIE p do wakeup1 (proc_chan init))) (PT true ps init nx k c e) =
  Ret tt (PT true (foldl (λ ps i, reparent_one cur init i ps) ps ks) init nx k c e).
Proof.
  induction ks as [|i ks IH]; intros ps k e; [done|]. cbn [for_all foldl].
  unfold bind at 1, bind at 1, the_proc, gets. cbn [procs]. unfold reparent_one at 2.
  destruct (is_child cur (ps !!! i)); [|apply IH].
  unfold bind, on_proc, on_procs, modify. cbn [procs pt_lock initproc nextpid mycpu cproc env].
  destruct (is_state ZOMBIE (ps !!! i)); apply IH.
Qed.

End Steps.

Lemma core_wake ch p : core_of (wake_one ch p) = k_wake ch (core_of p).
Proof.
  unfold wake_one, k_wake, is_state. cbn. repeat case_bool_decide; cbn; tauto || done.
Qed.

Lemma tab_wake ch ps : tab (map (wake_one ch) ps) = λ i, k_wake ch (tab ps i).
Proof.
  extensionality i. unfold tab. rewrite !list_lookup_total_alt, list_lookup_fmap.
  destruct (ps !! i); cbn; [apply core_wake|done].
Qed.

(** What the loop of [reparent] does: children of [cur] among [ks] pass to
    [q0], which is awake afterwards if one of them is a zombie. *)
Definition reparented (cur q0 : nat) (ks : list nat) (T T' : table) : Prop := ∀ j,
  k_pid (T' j) = k_pid (T j) ∧ k_chan (T' j) = k_chan (T j) ∧
  k_parent (T' j) =
    (if decide (j ∈ ks ∧ k_parent (T j) = Some cur) then Some q0 else k_parent (T j)) ∧
  (k_state (T' j) = k_state (T j) ∨ k_state (T' j) = RUNNABLE ∧ k_state (T j) = SLEEPING) ∧
  (k_chan (T j) = ChProc q0 →
     (∃ i, i ∈ ks ∧ k_parent (T i) = Some cur ∧ k_state (T i) = ZOMBIE) → k_state (T' j) ≠ SLEEPING).

Lemma reparent_step cur q0 i ps :
  cur ≠ q0 → (i < length ps)%nat →
  reparented cur q0 [i] (tab ps) (tab (reparent_one cur (Some q0) i ps)).
Proof.
  intros Hne Hi j. unfold reparent_one, is_child, is_state. cbn [proc_chan].
  assert (Hex : ∀ P : Prop, (∃ i', i' ∈ [i] ∧ k_parent (tab ps i') = Some cur ∧ k_state (tab ps i') = ZOMBIE) →
    (k_parent (tab ps i) = Some cur → k_state (tab ps i) = ZOMBIE → P) → P).
  { intros P (i' & ->%list_elem_of_singleton & H1 & H2) HP. auto. }
  case_bool_decide as Hp; [case_bool_decide as Hz|].
  - rewrite tab_wake, tab_alter by done. pose proof (k_wake_cases (ChProc q0)
      (upd1 (tab ps) i (core_of (set_parent (Some q0) (ps !!! i))) j)) as (E1 & E2 & E3 & E4).
    rewrite E1, E2, E3. destruct (decide (j = i)) as [->|Hji].
    + rewrite upd1_eq in *. cbn in *. rewrite decide_True by (split; [apply list_elem_of_singleton|]; done).
      split_and!; try done; [tauto|]. intros Hc _. destruct E4 as [[E4 Hn]|[E4 _]]; rewrite E4; [|done].
      unfold tab. cbn. congruence.
    + rewrite upd1_ne in * by done. rewrite decide_False by (intros [?%list_elem_of_singleton _]; done).
      split_and!; try done; [tauto|]. intros Hc _. destruct E4 as [[-> Hn]|[-> _]]; [tauto|done].
  - rewrite tab_alter by done. destruct (decide (j = i)) as [->|Hji].
    + rewrite upd1_eq. cbn. rewrite decide_True by (split; [apply list_elem_of_singleton|]; done).
      split_and!; try done; [by left|]. intros _ Hx. apply (Hex _ Hx). done.
    + rewrite upd1_ne by done. rewrite decide_False by (intros [?%list_elem_of_singleton _]; done).
      split_and!; try done; [by left|]. intros _ Hx. apply (Hex _ Hx). done.
  - rewrite decide_False. 2:{ intros [->%list_elem_of_singleton ?]. done. }
    split_and!; try done; [by left|]. intros _ Hx. apply (Hex _ Hx). done.
Qed.

Lemma reparent_one_length cur init i ps : length (reparent_one cur init i ps) = length ps.
Proof.
  unfold reparent_one. destruct (is_child _ _); [|done].
  destruct (is_state _ _); by rewrite ?length_map, length_alter.
Qed.

Lemma reparented_trans cur q0 ks1 ks2 T1 T2 T3 :
  cur ≠ q0 → reparented cur q0 ks1 T1 T2 → reparented cur q0 ks2 T2 T3 →
  reparented cur q0 (ks1 ++ ks2) T1 T3.
Proof.
  intros Hne H1 H2 j. destruct (H1 j) as (P1 & C1 & R1 & S1 & W1), (H2 j) as (P2 & C2 & R2 & S2 & W2).
  split_and!; [congruence|congruence| | |].
  - rewrite R2, R1. repeat case_decide; try done; destruct_and?;
      rewrite ?elem_of_app in *; try tauto; try congruence.
  - destruct S1 as [S1|[S1 S1']], S2 as [S2|[S2 S2']]; rewrite S2; auto; try congruence;
      right; split; congruence.
  - intros Hc (i & Hi & Hp & Hz). apply elem_of_app in Hi.
    assert (Hzi : k_state (T2 i) = ZOMBIE) by (destruct (H1 i) as (_ & _ & _ & [->|[_ ?]] & _); congruence).
    assert (Hslp : k_state (T2 j) ≠ SLEEPING → k_state (T3 j) ≠ SLEEPING)
      by (destruct S2 as [->|[-> _]]; done).
    destruct (decide (i ∈ ks1)) as [Hi1|Hi1]; [apply Hslp, W1; eauto|].
    apply W2; [congruence|]. exists i. split_and!; [tauto| |done].
    destruct (H1 i) as (_ & _ & -> & _). rewrite decide_False; [done|tauto].
Qed.

Lemma reparent_fold cur q0 ks : ∀ ps,
  cur ≠ q0 → Forall (λ i, (i < length ps)%nat) ks →
  reparented cur q0 ks (tab ps) (tab (foldl (λ ps i, reparent_one cur (Some q0) i ps) ps ks)) ∧
  length (foldl (λ ps i, reparent_one cur (Some q0) i ps) ps ks) = length ps.
Proof.
  induction ks as [|i ks IH]; intros ps Hne Hks; cbn [foldl].
  - split; [|done]. intros j. rewrite decide_False by (by intros [?%not_elem_of_nil _]).
    split_and!; try done; [by left|]. by intros _ (? & ?%not_elem_of_nil & _).
  - apply Forall_cons in Hks as [Hi Hks].
    destruct (IH (reparent_one cur (Some q0) i ps)) as [H1 H2]; [done|by rewrite reparent_one_length|].
    rewrite reparent_one_length in H2. split; [|done].
    apply (reparented_trans cur q0 [i] ks _ (tab (reparent_one cur (Some q0) i ps))); [done| |done].
    by apply reparent_step.
Qed.

Definition reparent_all (cur : nat) (init : option nat) (ps : list proc) : list proc :=
  foldl (λ ps i, reparent_one cur init i ps) ps (seq 0 NPROC).

Lemma reparent_eq {E} cur init nx c k ps (e : E) :
  reparent cur init (PT true ps init nx k c e) =
    Ret tt (PT true (reparent_all cur init ps) init nx k c e).
Proof. apply reparent_run. Qed.

Lemma reparent_all_spec cur q0 ps :
  cur ≠ q0 → length ps = NPROC →
  reparented cur q0 (seq 0 NPROC) (tab ps) (tab (reparent_all cur (Some q0) ps)) ∧
  length (reparent_all cur (Some q0) ps) = NPROC.
Proof.
  intros Hne Hl. destruct (reparent_fold cur q0 (seq 0 NPROC) ps Hne) as [H1 H2].
  { apply Forall_forall. intros i Hi%elem_of_seq. lia. }
  split; [exact H1|]. rewrite <- Hl. exact H2.
Qed.
#[global] Opaque reparent_all.

(** The table after waking the parent, passing the children on, and becoming a
    zombie. *)
Lemma exited_compose cur q0 T T2 c :
  cur ≠ q0 → (∀ j, c = ChProc j ↔ k_parent (T cur) = Some j) →
  (∀ i, k_parent (T i) = Some cur → (i < NPROC)%nat) →
  reparented cur q0 (seq 0 NPROC) (λ i, k_wake c (T i)) T2 →
  exited T (upd1 T2 cur (k_set_state ZOMBIE (T2 cur))) cur q0.
Proof.
  intros Hne Hc Hlt H j. destruct (H j) as (P & C & R & S & W).
  destruct (k_wake_cases c (T j)) as (E1 & E2 & E3 & E4). rewrite E1 in P. rewrite E2 in R. rewrite E3 in C, W.
  assert (Hpar : k_parent (T2 j) = (if decide (k_parent (T j) = Some cur) then Some q0 else k_parent (T j))).
  { rewrite R. destruct (decide (k_parent (T j) = Some cur)) as [Hp|Hp].
    - rewrite decide_True; [done|]. split; [|done]. apply elem_of_seq. pose proof (Hlt j Hp). lia.
    - rewrite decide_False; [done|]. tauto. }
  destruct (decide (j = cur)) as [->|Hj].
  - rewrite upd1_eq. cbn. by rewrite P, C, Hpar.
  - rewrite upd1_ne by done. split_and!; [done..| | |].
    + destruct S as [S|[S S']]; [rewrite S; destruct E4 as [[-> _]|[-> [-> _]]]; auto|].
      rewrite S. right. split; [done|]. destruct E4 as [[E4 _]|[E4 _]]; congruence.
    + intros Hp Hch. destruct S as [->|[-> _]]; [|done]. destruct E4 as [[-> Hn]|[-> _]]; [|done].
      intros Hs. apply Hn. split; [done|]. rewrite Hch. symmetry. by apply Hc.
    + intros -> (i & Hi & Hz) Hch. apply W; [done|]. exists i.
      destruct (k_wake_cases c (T i)) as (_ & Ei2 & _ & Ei4). rewrite Ei2. split_and!; [|done|].
      * apply elem_of_seq. pose proof (Hlt i Hi). lia.
      * destruct Ei4 as [[-> _]|[_ [? _]]]; congruence.
Qed.

Lemma exit_noret {E} `{!ProcRes E} (s : ptst E) v s' : exit_ s ≠ Ret v s'.
Proof.
  unfold exit_, bind. destruct (myproc s) as [cur s0| | |]; try done. unfold gets at 1.
  destruct (bool_decide _); [done|]. destruct (exit_files cur s0) as [[] s1| | |]; try done.
  destruct (acquire_pt s1) as [[] s2| | |]; try done. unfold the_proc, gets.
  destruct (wakeup1 _ s2) as [[] s3| | |]; try done.
  destruct (reparent cur _ s3) as [[] s4| | |]; try done.
  destruct (on_proc cur _ s4) as [[] s5| | |]; try done. by destruct (sched s5).
Qed.

(** [exit] of a process other than init does not return (short of a panic in
    the file system): it ends in the scheduler with the process a zombie. *)
Lemma exit_run {E} `{!ProcRes E} ps q0 nx cur (e : E) r :
  length ps = NPROC → (cur < NPROC)%nat → cur ≠ q0 →
  (∀ i, k_parent (tab ps i) = Some cur → (i < NPROC)%nat) →
  exit_ (PT false ps (Some q0) nx cpu_on (Some cur) e) = r →
  (∃ msg, r = Panic msg) ∨
  ∃ ch ps' e', r = Sleep ch (PT true ps' (Some q0) nx cpu_off (Some cur) e') ∧
    length ps' = NPROC ∧ exited (tab ps) (tab ps') cur q0.
Proof.
  intros Hl Hc Hne Hlt. unfold exit_, bind at 1. rewrite myproc_run by auto. unfold bind at 1, gets at 1.
  cbn [initproc]. rewrite bool_decide_false by congruence. unfold bind at 1.
  destruct (exit_files_run cur (Some q0) nx (Some cur) ps e _ eq_refl) as [[msg ->]|(f & e1 & -> & Hf)];
    [intros <-; left; eauto|].
  unfold bind at 1. rewrite acquire_run. unfold bind at 1, the_proc, gets. cbn [procs].
  set (ps1 := alter f cur ps).
  assert (T1 : tab ps1 = tab ps).
  { unfold ps1. rewrite tab_alter, Hf by lia. apply upd1_same. }
  assert (L1 : length ps1 = NPROC) by (unfold ps1; by rewrite length_alter).
  unfold bind at 1, wakeup1, on_procs, modify. cbn [procs pt_lock initproc nextpid mycpu cproc env].
  set (c := proc_chan (parent (ps1 !!! cur))). set (ps2 := map (wake_one c) ps1).
  assert (L2 : length ps2 = NPROC) by (unfold ps2; by rewrite length_map).
  unfold bind at 1. rewrite reparent_eq.
  destruct (reparent_all_spec cur q0 ps2) as [Hr L3]; [done..|].
  set (ps3 := reparent_all cur (Some q0) ps2) in *. clearbody ps3. unfold bind, on_proc, on_procs, modify.
  cbn [procs pt_lock initproc nextpid mycpu cproc env].
  rewrite sched_run by (rewrite list_lookup_total_alter_eq by lia; done).
  intros <-. right. eexists _, _, e1. split; [reflexivity|]. split; [rewrite length_alter; lia|].
  rewrite tab_alter by lia. change (core_of (set_state ZOMBIE (ps3 !!! cur)))
    with (k_set_state ZOMBIE (tab ps3 cur)).
  apply (exited_compose cur q0 (tab ps) (tab ps3) c); [done| |done|].
  - intros j. unfold c. assert (parent (ps1 !!! cur) = k_parent (tab ps cur)) as -> by (by rewrite <- T1).
    destruct (k_parent (tab ps cur)); cbn; split; intros [= ->]; done.
  - unfold ps2 in Hr. by rewrite tab_wake, T1 in Hr.
Qed.

Section Scheduler.
Context {E : Type} `{!ProcRes E}.

Definition scheduled (p : proc) : proc := set_chan_of ChNone (set_state RUNNING p).

Lemma scheduler_run lk ps init nx k c e j r s :
  scheduler (E := E) j (PT lk ps init nx k c e) = Ret r s →
  ∃ c' e', s = PT lk (match next_runnable j ps with Some i => alter scheduled i ps | None => ps end) init nx k c' e' ∧
    r = next_runnable j ps.
Proof.
  unfold scheduler, bind at 1, gets. cbn [procs]. destruct (next_runnable j ps) as [i|].
  - unfold bind at 1 2 3, set_cproc, the_proc, gets, modify, on_env. cbn.
    destruct (r_switchuvm _ _ e) as [|[[] e']]; [done|]. unfold bind, on_proc, on_procs, modify. cbn.
    rewrite list_alter_alter_eq. intros [= <- <-]. eauto.
  - intros [= <- <-]. eauto.
Qed.

Lemma scheduler_resume_run lk ps init nx k c e j r s :
  scheduler_resume (E := E) j (PT lk ps init nx k c e) = Ret r s →
  ∃ c' e', s = PT lk (match next_runnable j ps with Some i => alter scheduled i ps | None => ps end) init nx k c' e' ∧
    r = next_runnable j ps.
Proof.
  unfold scheduler_resume, bind at 1, on_env. cbn [env]. destruct (r_switchkvm e) as [|[[] e']]; [done|].
  apply scheduler_run.
Qed.

Lemma next_runnable_spec j ps i :
  next_runnable j ps = Some i → (j <= i < NPROC)%nat ∧ state (ps !!! i) = RUNNABLE.
Proof. intros [Hin HP%is_state_true]%find_some. apply in_seq in Hin. split; [lia|done]. Qed.

End Scheduler.
