(* ===== verification/Machine.v ===== *)
(** * Processes on all CPUs

    The whole machine: the process table, the process each CPU runs, and the
    calls of [fork] under way. A step is a call of proc.c by a running process,
    with the turn of the scheduler that follows when the process gives up its
    CPU; a turn of the scheduler on a CPU without a process; or a wake-up from an
    interrupt there. [fork], which works on the new slot with the table unlocked,
    takes five steps, between which everything else can happen. *)

From S2P Require Import Prelude Memory KString Spinlock Proc ProcInv ProcSteps.

(** How far a [fork] is: it has a slot, with the kernel stack, with the address
    space and the pointer to the parent, with all the rest (and returns [n]). *)
Inductive fphase := FSlot (np : nat) | FStack (np : nat) | FMem (np : nat) | FCopied (np : nat) (n : Z).

(** The slot, and whether its parent is set. *)
Definition ph_core (ph : fphase) : nat * bool :=
  match ph with FSlot np | FStack np => (np, false) | FMem np | FCopied np _ => (np, true) end.

(** [m_pids] is the number of pids given since the machine started. *)
Record machine (E : Type) := Mach {
  m_procs : list proc;
  m_init : option nat;
  m_next : Z;
  m_env : E;
  m_run : list (option nat);
  m_fork : gmap nat fphase;
  m_pids : Z }.
Arguments Mach {E} _ _ _ _ _ _ _.
Arguments m_procs {E} _.
Arguments m_init {E} _.
Arguments m_next {E} _.
Arguments m_env {E} _.
Arguments m_run {E} _.
Arguments m_fork {E} _.
Arguments m_pids {E} _.

Inductive kcall :=
  | KExit | KWait | KYield | KSleep (ch : chan) | KWakeup (ch : chan) | KKill (n : Z)
  | KGrow (n : Z).

(** Only [wait] sleeps on the address of a process. *)
Definition call_ok (k : kcall) : Prop :=
  match k with KSleep ch => ∀ i, ch ≠ ChProc i | _ => True end.

(** What interrupts do to the process they stop: the clock takes its CPU, and
    devices wake others. *)
Definition from_interrupt (k : kcall) : Prop :=
  match k with KYield | KWakeup _ => True | _ => False end.

Section Machine.
Context {E : Type} `{!ProcRes E}.

Definition run_call (k : kcall) : M (ptst E) Z :=
  match k with
  | KExit => exit_ ;;; ret 0
  | KWait => wait
  | KYield => yield ;;; ret 0
  | KSleep ch => sleep ch false ;;; ret 0
  | KWakeup ch => wakeup ch ;;; ret 0
  | KKill n => kill n
  | KGrow n => growproc n
  end.

(** The next part of a [fork] by [cur]; [None] when it returns. *)
Definition fork_next (cur : nat) (ph : fphase) : M (ptst E) (option fphase) :=
  match ph with
  | FSlot np => r <- alloc_stack np ;; ret (FStack <$> r)
  | FStack np => b <- fork_memory cur np ;; ret (if b : bool then Some (FMem np) else None)
  | FMem np => n <- fork_copy cur np ;; ret (Some (FCopied np n))
  | FCopied np n => fork_start np ;;; ret None
  end.

(** What a CPU sees of the machine. *)
Definition view (m : machine E) (lk : bool) (k : cpu) (c : option nat) : ptst E :=
  PT lk (m_procs m) (m_init m) (m_next m) k c (m_env m).

Definition put_back (m : machine E) (s : ptst E) (run : list (option nat)) : machine E :=
  Mach (procs s) (initproc s) (nextpid s) (env s) run (m_fork m) (m_pids m).

Definition put_fork (m : machine E) (s : ptst E) (f : gmap nat fphase) (n : Z) : machine E :=
  Mach (procs s) (initproc s) (nextpid s) (env s) (m_run m) f n.

(** A process in the middle of [fork] goes on with it, unless it is interrupted. *)
Inductive mstep (m : machine E) : machine E → Prop :=
  | MS_call c i k v s :
      m_run m !! c = Some (Some i) → call_ok k → m_fork m !! i = None ∨ from_interrupt k →
      run_call k (view m false cpu_on (Some i)) = Ret v s →
      mstep m (put_back m s (m_run m))
  | MS_switch c i k ch s r s' :
      m_run m !! c = Some (Some i) → call_ok k → m_fork m !! i = None ∨ from_interrupt k →
      run_call k (view m false cpu_on (Some i)) = Sleep ch s →
      scheduler_resume (Datatypes.S i) s = Ret r s' →
      mstep m (put_back m s' (<[c := r]> (m_run m)))
  | MS_fork c i r s :
      m_run m !! c = Some (Some i) → m_fork m !! i = None →
      alloc_slot (view m false cpu_on (Some i)) = Ret r s →
      mstep m (match r with
               | None => put_back m s (m_run m)
               | Some np => put_fork m s (<[i := FSlot np]> (m_fork m)) (m_pids m + 1)
               end)
  | MS_fork_next c i ph r s :
      m_run m !! c = Some (Some i) → m_fork m !! i = Some ph →
      fork_next i ph (view m false cpu_on (Some i)) = Ret r s →
      mstep m (put_fork m s (match r with None => delete i (m_fork m) | Some ph' => <[i := ph']> (m_fork m) end) (m_pids m))
  | MS_idle c r s :
      m_run m !! c = Some None →
      scheduler 0 (view m true cpu_off None) = Ret r s →
      mstep m (put_back m s (<[c := r]> (m_run m)))
  | MS_interrupt c ch s :
      m_run m !! c = Some None →
      wakeup ch (view m false cpu_on None) = Ret tt s →
      mstep m (put_back m s (m_run m)).

Definition kst_of (m : machine E) : kst := K (tab (m_procs m)) (m_init m) (m_run m) (ph_core <$> m_fork m).

(** [nextpid] counts the pids given, and wraps around. *)
Record mach_ok (m : machine E) : Prop := {
  mo_len : length (m_procs m) = NPROC;
  mo_inv : tinv (kst_of m);
  mo_next : m_next m = s32 (1 + m_pids m);
  mo_count : 0 < m_pids m;
  mo_pids : m_pids m < 2^31 - 1 → pinv (tab (m_procs m)) (m_next m) }.

(** A state of the table that leaves [fork]s and [nextpid] alone. *)
Record keeps (m : machine E) (s : ptst E) (run : list (option nat)) : Prop := {
  ke_len : length (procs s) = NPROC;
  ke_init : initproc s = m_init m;
  ke_next : nextpid s = m_next m;
  ke_inv : tinv (K (tab (procs s)) (m_init m) run (ph_core <$> m_fork m));
  ke_pids : pid_sub (tab (m_procs m)) (tab (procs s)) }.

Lemma keeps_ok m s run : mach_ok m → keeps m s run → mach_ok (put_back m s run).
Proof.
  intros [Hl Hi Hn Hc Hp] [Hl' Ei En Hi' Hs]. split; cbn; try done.
  - unfold kst_of. cbn. by rewrite Ei.
  - by rewrite En.
  - intros Hlt. rewrite En. by apply (pinv_sub (tab (m_procs m))), Hp.
Qed.

Lemma tab_out ps i : (length ps <= i)%nat → tab ps i = core_of proc_zero.
Proof. intros Hi. unfold tab. by rewrite list_lookup_total_alt, lookup_ge_None_2. Qed.

Lemma tab_used ps i : k_state (tab ps i) ≠ UNUSED → (i < length ps)%nat.
Proof. intros Hs. destruct (decide (i < length ps)%nat); [done|]. by rewrite tab_out in Hs by lia. Qed.

Lemma tab_child ps i q : k_parent (tab ps i) = Some q → (i < length ps)%nat.
Proof. intros Hs. destruct (decide (i < length ps)%nat); [done|]. by rewrite tab_out in Hs by lia. Qed.

(** A turn of the scheduler on a CPU that has no process. *)
Lemma sched_keeps m ps run c lk k j r (s : ptst E) :
  length ps = NPROC → tinv (K (tab ps) (m_init m) run (ph_core <$> m_fork m)) →
  pid_sub (tab (m_procs m)) (tab ps) → run !! c = Some None →
  (∃ c' e', s = PT lk (match next_runnable j ps with Some i => alter scheduled i ps | None => ps end) (m_init m) (m_next m) k c' e' ∧
    r = next_runnable j ps) →
  keeps m s (<[c := r]> run).
Proof.
  intros Hl H Hs Hc (c' & e' & -> & ->). destruct (next_runnable j ps) as [i|] eqn:En.
  - apply next_runnable_spec in En as [Hi Hst]. split; cbn; try done; [by rewrite length_alter| |].
    + rewrite tab_alter by lia. exact (tinv_enter (K (tab ps) (m_init m) run (ph_core <$> m_fork m)) i c ChNone H Hc Hst).
    + eapply pid_sub_trans; [done|]. rewrite tab_alter by lia. apply pid_sub_upd. cbn. intros _. split; [congruence|done].
  - split; try done. cbn. by rewrite list_insert_id.
Qed.

(** A process that gives up its CPU, and the scheduler's turn after it. *)
Lemma switch_keeps m ps' c i st ch k j lk (e : E) p r s f :
  mach_ok m → m_run m !! c = Some (Some i) →
  alive st → st ≠ RUNNING → (st = SLEEPING → m_fork m !! i = None) →
  (st = SLEEPING → ch = ChProc i → ∀ j, k_parent (tab (m_procs m) j) = Some i → k_state (tab (m_procs m) j) ≠ ZOMBIE) →
  ps' = alter f i (m_procs m) →
  core_of (f (m_procs m !!! i)) = Core st (pid (m_procs m !!! i)) (parent (m_procs m !!! i)) ch →
  scheduler_resume j (PT lk ps' (m_init m) (m_next m) k p e) = Ret r s →
  keeps m s (<[c := r]> (m_run m)).
Proof.
  intros [Hl H _ _ _] Hc Hst Hnr Hnf Hw -> Hf Hs.
  assert (Hrun : k_state (tab (m_procs m) i) = RUNNING) by exact (ti_cpu _ H _ _ Hc).
  assert (Hi : (i < length (m_procs m))%nat) by (apply tab_used; by rewrite Hrun).
  rewrite <- (list_insert_insert_eq (m_run m) c r None).
  eapply sched_keeps; [| | | |exact (scheduler_resume_run _ _ _ _ _ _ _ _ _ _ Hs)].
  - by rewrite length_alter.
  - rewrite tab_alter, Hf by done. apply (tinv_leave (kst_of m) i c st ch); try done.
    intros Est. cbn. by rewrite lookup_fmap, (Hnf Est).
  - rewrite tab_alter, Hf by done. apply pid_sub_upd. intros _. split; [by rewrite Hrun|done].
  - apply list_lookup_insert_eq. by eapply lookup_lt_Some.
Qed.

Lemma running_lt m c i : mach_ok m → m_run m !! c = Some (Some i) → (i < NPROC)%nat.
Proof.
  intros [Hl H _ _ _] Hc. rewrite <- Hl. apply tab_used.
  rewrite (ti_cpu _ H _ _ Hc : k_state (tab (m_procs m) i) = _). done.
Qed.

Lemma kill_core p : ∃ b, core_of (kill_one p) = (if (b : bool) then k_set_state RUNNABLE (core_of p) else core_of p) ∧
  (b = true → state p = SLEEPING).
Proof.
  unfold kill_one. destruct (is_state SLEEPING p) eqn:Es; [exists true|exists false]; split; try done.
  intros _. by apply is_state_true.
Qed.

Lemma tab_kill ps i : (i < length ps)%nat → woken_of (tab ps) (tab (alter kill_one i ps)).
Proof.
  intros Hi j. rewrite tab_alter by done. slot j i; [|by split_and!; auto].
  destruct (kill_core (ps !!! i)) as ([] & -> & Hb); cbn; split_and!; auto.
Qed.

(** The parts of [fork]. *)
Lemma fork_slot_ok m c i r s :
  mach_ok m → m_run m !! c = Some (Some i) → m_fork m !! i = None →
  alloc_slot (view m false cpu_on (Some i)) = Ret r s →
  mach_ok (match r with
           | None => put_back m s (m_run m)
           | Some np => put_fork m s (<[i := FSlot np]> (m_fork m)) (m_pids m + 1)
           end).
Proof.
  intros Hm Hc Hnf. pose proof Hm as [Hl H Hn Hp Hpid]. unfold view. rewrite alloc_slot_run.
  destruct (find_proc _ _) as [j|] eqn:Ef; intros [= <- <-]; [|by destruct m].
  apply find_proc_spec in Ef as [Hj Hu%is_state_true].
  assert (Hcore : core_of (taken (m_next m) (m_procs m !!! j)) =
    Core EMBRYO (m_next m) (if false then Some i else None) (chan_of (m_procs m !!! j))).
  { unfold core_of. cbn. f_equal. exact (ti_unused _ H j Hu). }
  split; cbn; [by rewrite length_alter| | | |].
  - unfold kst_of. cbn. rewrite tab_alter, Hcore, fmap_insert by lia.
    apply (tinv_fork (kst_of m) i j); [done|exact (ti_cpu _ H _ _ Hc)| |exact (slot_taken i j _ _ _ false)].
    left. split; [done|]. cbn. by rewrite lookup_fmap, Hnf.
  - rewrite Hn. unfold s32, u32. Z.div_mod_to_equations. repeat case_match; lia.
  - lia.
  - intros Hlt. assert (Hsm : m_next m = 1 + m_pids m) by (rewrite Hn; apply s32_small; lia).
    rewrite s32_small by lia. rewrite tab_alter by lia. apply pinv_take; [apply Hpid; lia|done].
Qed.

Lemma fork_part_ok m c i ph r s np f e' :
  mach_ok m → m_run m !! c = Some (Some i) → m_fork m !! i = Some ph → (ph_core ph).1 = np →
  s = PT false (alter f np (m_procs m)) (m_init m) (m_next m) cpu_on (Some i) e' →
  (let q := m_procs m !!! np in
   match r with
   | None => core_of (f q) = Core UNUSED (pid q) (parent q) (chan_of q) ∧ (ph_core ph).2 = false ∨
             core_of (f q) = Core RUNNABLE (pid q) (parent q) (chan_of q) ∧ (ph_core ph).2 = true
   | Some ph' => (ph_core ph').1 = np ∧ core_of (f q) = Core EMBRYO (pid q) (if (ph_core ph').2 then Some i else None) (chan_of q)
   end) →
  mach_ok (put_fork m s (match r with None => delete i (m_fork m) | Some ph' => <[i := ph']> (m_fork m) end) (m_pids m)).
Proof.
  intros Hm Hc Hf <- -> Hr. pose proof Hm as [Hl H Hn Hp Hpid]. set (np := (ph_core ph).1) in *.
  assert (Hfk : k_fork (kst_of m) !! i = Some (np, (ph_core ph).2)) by (cbn; rewrite lookup_fmap, Hf; by destruct ph).
  destruct (ti_fork _ H _ _ _ Hfk) as (_ & He & Hpar). cbn in He, Hpar.
  assert (Hnp : (np < length (m_procs m))%nat) by (apply tab_used; unfold tab; cbn; by rewrite He).
  split; cbn; try done; [by rewrite length_alter| |].
  - unfold kst_of. cbn. rewrite tab_alter by done.
    apply (tinv_fork (kst_of m) i np); [done|exact (ti_cpu _ H _ _ Hc)|right; eauto|]. cbn.
    destruct r as [ph'|].
    + destruct Hr as [Enp ->]. rewrite fmap_insert. destruct (ph_core ph') as [np' b] eqn:Eph. cbn in Enp |- *. subst np'. constructor.
    + rewrite fmap_delete. destruct Hr as [[-> Eb]|[-> Eb]]; rewrite Eb in Hpar; rewrite Hpar; constructor.
  - intros Hlt. eapply pinv_sub; [|by apply Hpid]. rewrite tab_alter by done. apply pid_sub_upd. cbn.
    split; [by rewrite He|]. destruct r as [ph'|]; [by destruct Hr as [_ [= _ ->]]|by destruct Hr as [[[= _ ->] _]|[[= _ ->] _]]].
Qed.

Lemma fork_next_ok m c i ph r s :
  mach_ok m → m_run m !! c = Some (Some i) → m_fork m !! i = Some ph →
  fork_next i ph (view m false cpu_on (Some i)) = Ret r s →
  mach_ok (put_fork m s (match r with None => delete i (m_fork m) | Some ph' => <[i := ph']> (m_fork m) end) (m_pids m)).
Proof.
  intros Hm Hc Hf. pose proof Hm as [Hl H Hn Hp Hpid].
  assert (Hfk : k_fork (kst_of m) !! i = Some (ph_core ph)) by (cbn; by rewrite lookup_fmap, Hf).
  destruct (ph_core ph) as [np b] eqn:Eph. destruct (ti_fork _ H _ _ _ Hfk) as (_ & He & Hpar).
  change (state (m_procs m !!! np) = EMBRYO) in He. change (parent (m_procs m !!! np) = if b then Some i else None) in Hpar.
  assert (Hnp : (np < length (m_procs m))%nat) by (apply tab_used; cbn; by rewrite He).
  assert (Eslot : (ph_core ph).1 = np) by (by rewrite Eph).
  assert (Ecore : core_of (m_procs m !!! np) = Core EMBRYO (pid (m_procs m !!! np)) (if b then Some i else None) (chan_of (m_procs m !!! np))).
  { unfold core_of. by rewrite He, Hpar. }
  destruct ph as [np'|np'|np'|np' n]; cbn [ph_core] in Eph; injection Eph as -> <-; cbn [fork_next]; unfold bind, ret, view.
  - rewrite alloc_stack_run. destruct (r_kalloc _) as [|[k e1]]; [done|]. destruct (k =? 0); intros [= <- <-].
    + eapply (fork_part_ok m c i (FSlot np) None); [done..|]. by left.
    + eapply (fork_part_ok m c i (FSlot np) (Some (FStack np))); [done..|]. split; [done|exact Ecore].
  - destruct (fork_memory _ _ _) as [b s1| | |] eqn:Em; [|done..]. apply fork_memory_run in Em as (d & e1 & -> & _).
    intros [= <- <-]. destruct b.
    + eapply (fork_part_ok m c i (FStack np) (Some (FMem np))); [done..|]. split; [done|]. unfold core_of. cbn. by rewrite He.
    + eapply (fork_part_ok m c i (FStack np) None); [done..|]. by left.
  - destruct (fork_copy _ _ _) as [n s1| | |] eqn:Em; [|done..]. apply fork_copy_run in Em as (h & w & e1 & -> & _); [|done].
    intros [= <- <-]. eapply (fork_part_ok m c i (FMem np) (Some (FCopied np n))); [done..|]. split; [done|exact Ecore].
  - rewrite fork_start_run. intros [= <- <-]. eapply (fork_part_ok m c i (FCopied np n) None); [done..|]. by right.
Qed.

(** The parts one after the other are the call. *)
Fixpoint run_fork (fuel cur : nat) (ph : fphase) : M (ptst E) Z :=
  match fuel with
  | O => fault "fork"
  | S f =>
      r <- fork_next cur ph ;;
      match r with
      | Some ph' => run_fork f cur ph'
      | None => ret (match ph with FCopied _ n => n | _ => -1 end)
      end
  end.

Theorem fork_in_parts s :
  fork s = (cur <- myproc ;;
            r <- alloc_slot ;;
            match r with None => ret (-1) | Some np => run_fork 4 cur (FSlot np) end) s.
Proof.
  unfold fork, allocproc, bind. cbn [run_fork fork_next]. unfold bind, ret.
  destruct (myproc s) as [cur s1| | |]; try done. destruct (alloc_slot s1) as [[np|] s2| | |]; try done.
  destruct (alloc_stack np s2) as [[np'|] s3| | |] eqn:Ea; try done.
  change (FStack <$> Some np') with (Some (FStack np')). cbn [fork_next]. unfold bind, ret.
  destruct (fork_memory cur np' s3) as [[] s4| | |]; [|done..]. cbn [negb fork_next]. unfold bind, ret.
  destruct (fork_copy cur np' s4) as [n s5| | |]; [|done..]. cbn [fork_next]. unfold bind, ret.
  by destruct (fork_start np' s5) as [[]| | |].
Qed.

(** Calls that have no point at which they sleep. *)
Definition nosleep {S A} (m : M S A) : Prop := ∀ s ch s', m s ≠ Sleep ch s'.

Lemma nosleep_bind {S A B} (m : M S A) (k : A → M S B) :
  nosleep m → (∀ v, nosleep (k v)) → nosleep (bind m k).
Proof. intros Hm Hk s ch s'. unfold bind. destruct (m s) eqn:Em; try done; [apply Hk|]. by apply Hm in Em. Qed.

Lemma nosleep_for_all {S A} (f : A → M S unit) xs : (∀ x, nosleep (f x)) → nosleep (for_all xs f).
Proof. intros Hf. induction xs; [done|]. by apply nosleep_bind. Qed.

Lemma nosleep_if {S A} (b : bool) (m m' : M S A) : nosleep m → nosleep m' → nosleep (if b then m else m').
Proof. by destruct b. Qed.

Lemma nosleep_env {A} (f : call E A) : nosleep (on_env f).
Proof. intros s ch s'. unfold on_env. by destruct (f (env s)) as [|[]]. Qed.

Lemma nosleep_cpu (b : bool) : nosleep (on_cpu (E := E) (if b then pushcli else popcli)).
Proof.
  intros s ch s'. unfold on_cpu. destruct b, (mycpu s) as [[] n []]; try done; unfold popcli; steps;
    cbn [fl_if ncli intena]; repeat (case_match; try done).
Qed.

Lemma nosleep_acquire : nosleep (acquire_pt (E := E)).
Proof.
  apply nosleep_bind; [apply (nosleep_cpu true)|]. intros _ s ch s'. unfold acquire. steps.
  by destruct (lock_held s).
Qed.

Lemma nosleep_release : nosleep (release_pt (E := E)).
Proof.
  apply nosleep_bind; [|intros _; apply (nosleep_cpu false)]. intros s ch s'. unfold release. steps.
  by destruct (lock_held s).
Qed.

Lemma nosleep_myproc : nosleep (myproc (E := E)).
Proof.
  apply nosleep_bind; [apply (nosleep_cpu true)|]. intros _. apply nosleep_bind; [done|]. intros c.
  apply nosleep_if; [done|]. apply nosleep_bind; [done|]. intros p.
  apply nosleep_bind; [apply (nosleep_cpu false)|]. by destruct p.
Qed.

Ltac nosleep :=
  repeat (first [apply nosleep_if | apply nosleep_env | apply nosleep_acquire | apply nosleep_release
               | apply nosleep_myproc | apply nosleep_for_all; intros ? | apply nosleep_bind; [|intros ?]
               | progress case_match]); try done.

Lemma nosleep_grow n : nosleep (growproc (E := E) n).
Proof. unfold growproc. nosleep. Qed.

Lemma wait_ret_ok m c i v s :
  mach_ok m → m_run m !! c = Some (Some i) → wait (view m false cpu_on (Some i)) = Ret v s →
  keeps m s (m_run m).
Proof.
  intros Hm Hc. pose proof (running_lt _ _ _ Hm Hc) as Hi. destruct Hm as [Hl H _ _ _].
  unfold view. rewrite wait_run by done. destruct (find_proc _ _) as [j|] eqn:Ef.
  2:{ destruct (_ || _); [|done]. by intros [= <- <-]. }
  apply find_proc_spec in Ef as [Hj [_ Hz%is_state_true]%andb_true_iff].
  destruct (r_kfree _ _) as [|[_ e1]]; [done|]. destruct (r_freevm _ e1) as [|[_ e2]]; [done|].
  intros [= <- <-]. split; cbn; try done; [by rewrite length_alter| |]; rewrite tab_alter by lia.
  - by apply (tinv_reap (kst_of m) j).
  - by apply pid_sub_upd.
Qed.

Lemma growproc_run ps init nx i (e : E) n v s :
  (i < length ps)%nat →
  growproc n (PT false ps init nx cpu_on (Some i) e) = Ret v s →
  ∃ ps' e', s = PT false ps' init nx cpu_on (Some i) e' ∧ length ps' = length ps ∧ tab ps' = tab ps.
Proof.
  intros Hi. unfold growproc, bind at 1. rewrite myproc_run by auto. unfold bind at 1, the_proc, gets. cbn [procs].
  assert (Hset : ∀ z, tab (alter (set_sz z) i ps) = tab ps).
  { intros z. rewrite tab_alter by done. apply (upd1_same (tab ps)). }
  set (m := if 0 <? n then _ else _). unfold bind at 1.
  assert (Hz : (∃ msg, m (PT false ps init nx cpu_on (Some i) e) = Panic msg) ∨
    ∃ z e', m (PT false ps init nx cpu_on (Some i) e) = Ret z (PT false ps init nx cpu_on (Some i) e')).
  { unfold m, on_env, ret. cbn [env]. repeat case_match; eauto. }
  destruct Hz as [[msg ->]|(z & e' & ->)]; [done|]. destruct (_ && _).
  - intros [= <- <-]. by exists ps, e'.
  - unfold bind, on_proc, on_procs, modify, on_env. cbn. destruct (r_switchuvm _ _ e') as [|[[] e2]]; [done|].
    intros [= <- <-]. eexists _, e2. split; [done|]. by rewrite length_alter.
Qed.

Lemma woken_keeps m s :
  mach_ok m → length (procs s) = NPROC → initproc s = m_init m → nextpid s = m_next m →
  woken_of (tab (m_procs m)) (tab (procs s)) → keeps m s (m_run m).
Proof.
  intros [Hl H _ _ _] Hl' Ei En Hw. split; try done; [by apply (tinv_woken (kst_of m))|by apply woken_pids].
Qed.

Lemma wakeup_keeps m ch c s :
  mach_ok m → wakeup ch (view m false cpu_on c) = Ret tt s → keeps m s (m_run m).
Proof.
  intros Hm. unfold view. rewrite wakeup_run. intros [= <-]. apply woken_keeps; try done; cbn.
  - rewrite length_map. apply Hm.
  - rewrite tab_wake. apply woken_wake.
Qed.

Lemma call_ret_ok m c i k v s :
  mach_ok m → m_run m !! c = Some (Some i) → run_call k (view m false cpu_on (Some i)) = Ret v s →
  keeps m s (m_run m).
Proof.
  intros Hm Hc. pose proof (running_lt _ _ _ Hm Hc) as Hi. pose proof Hm as [Hl H _ _ _].
  unfold run_call. destruct k as [ | | |ch|ch|n|n].
  - unfold bind. destruct (exit_ _) as [[] s1| | |] eqn:Ee; try done. by apply exit_noret in Ee.
  - by apply (wait_ret_ok m c i).
  - unfold bind, view. by rewrite yield_run by lia.
  - unfold bind, view. by rewrite (sleep_run _ _ _ i _ ch false) by lia.
  - unfold bind. destruct (wakeup ch _) as [[] s1| | |] eqn:Ew; [|done..]. intros [= <- <-]. by eapply wakeup_keeps.
  - unfold view. rewrite kill_run by done. destruct (find_proc _ _) as [j|] eqn:Ef; intros [= <- <-].
    + apply find_proc_spec in Ef as [Hj _]. apply woken_keeps; try done; cbn; [by rewrite length_alter|].
      apply tab_kill. lia.
    + by apply woken_keeps; try done; intros j; auto.
  - intros (ps' & e' & -> & Hl' & Ht)%growproc_run; [|lia]. apply woken_keeps; try done; cbn; [congruence|].
    rewrite Ht. intros j. auto.
Qed.

Lemma exit_switch_ok m c i ch s r s' :
  mach_ok m → m_run m !! c = Some (Some i) → m_fork m !! i = None →
  exit_ (view m false cpu_on (Some i)) = Sleep ch s → scheduler_resume (Datatypes.S i) s = Ret r s' →
  keeps m s' (<[c := r]> (m_run m)).
Proof.
  intros Hm Hc Hnf He Hs. pose proof (running_lt _ _ _ Hm Hc) as Hi. destruct Hm as [Hl H _ _ _].
  destruct (ti_init _ H) as (q0 & Hq0 & _). cbn in Hq0. unfold view in He. rewrite Hq0 in He.
  assert (Hne : i ≠ q0).
  { intros ->. revert He. unfold exit_, bind at 1. rewrite myproc_run by auto. unfold bind, gets.
    cbn [initproc]. by rewrite bool_decide_true. }
  apply exit_run in He as [[msg [=]]|(ch' & ps' & e' & [= -> ->] & Hl' & Hx)]; [|done..|].
  2:{ intros j Hj. rewrite <- Hl. by eapply tab_child. }
  rewrite <- (list_insert_insert_eq (m_run m) c r None).
  rewrite <- Hq0 in Hs. eapply sched_keeps; [done| | | |exact (scheduler_resume_run _ _ _ _ _ _ _ _ _ _ Hs)].
  - apply (tinv_exit (kst_of m) i c q0); try done. cbn. by rewrite lookup_fmap, Hnf.
  - apply (exited_pids _ _ i q0); [|done]. by rewrite (ti_cpu _ H _ _ Hc : k_state (tab (m_procs m) i) = _).
  - apply list_lookup_insert_eq. by eapply lookup_lt_Some.
Qed.

Lemma wait_switch_ok m c i ch s r s' :
  mach_ok m → m_run m !! c = Some (Some i) → m_fork m !! i = None →
  wait (view m false cpu_on (Some i)) = Sleep ch s → scheduler_resume (Datatypes.S i) s = Ret r s' →
  keeps m s' (<[c := r]> (m_run m)).
Proof.
  intros Hm Hc Hnf. pose proof (running_lt _ _ _ Hm Hc) as Hi. pose proof Hm as [Hl H _ _ _].
  unfold view. rewrite wait_run by done. destruct (find_proc _ _) as [j|] eqn:Ef.
  { destruct (r_kfree _ _) as [|[_ e1]]; [done|]. by destruct (r_freevm _ e1) as [|[_ e2]]. }
  destruct (_ || _); [done|]. intros [= <- <-] Hs.
  eapply (switch_keeps _ _ _ _ SLEEPING (ChProc i)); [done..|by left|done|done| |done| |exact Hs]; [|done].
  intros _ _ j Hp Hz. pose proof (tab_child _ _ _ Hp) as Hjl. rewrite Hl in Hjl.
  apply (find_proc_none _ _ j) in Ef; [|done]. apply andb_false_iff in Ef as [Ef|Ef].
  - by apply bool_decide_eq_false in Ef.
  - by apply is_state_false in Ef.
Qed.

Lemma call_switch_ok m c i k ch s r s' :
  mach_ok m → m_run m !! c = Some (Some i) → call_ok k → m_fork m !! i = None ∨ from_interrupt k →
  run_call k (view m false cpu_on (Some i)) = Sleep ch s → scheduler_resume (Datatypes.S i) s = Ret r s' →
  keeps m s' (<[c := r]> (m_run m)).
Proof.
  intros Hm Hc Hk Hnf. pose proof (running_lt _ _ _ Hm Hc) as Hi. pose proof Hm as [Hl H _ _ _].
  unfold run_call. destruct k as [ | | |ch'|ch'|n|n]; cbn [call_ok from_interrupt] in Hk, Hnf.
  - destruct Hnf as [Hnf|[]]. unfold bind at 1. destruct (exit_ _) as [| |ch1 s1|] eqn:Ee; try done. intros [= -> ->].
    by apply (exit_switch_ok m c i ch).
  - destruct Hnf as [Hnf|[]]. by apply (wait_switch_ok m c i ch).
  - unfold bind, view. rewrite yield_run by lia. intros [= <- <-] Hs.
    eapply (switch_keeps _ _ _ _ RUNNABLE); [done..|by right;left|done|done|done|done| |exact Hs]. done.
  - destruct Hnf as [Hnf|[]]. unfold bind, view. rewrite (sleep_run _ _ _ i _ ch' false) by lia. intros [= <- <-] Hs.
    eapply (switch_keeps _ _ _ _ SLEEPING ch'); [done..|by left|done|done| |done| |exact Hs]; [|done].
    intros _ ->. by destruct (Hk i).
  - unfold bind, view. by rewrite wakeup_run.
  - unfold view. rewrite kill_run by done. by destruct (find_proc _ _).
  - intros Hg. by apply nosleep_grow in Hg.
Qed.

Lemma mstep_ok m m' : mach_ok m → mstep m m' → mach_ok m'.
Proof.
  intros Hm Hs. destruct Hs as [c i k v s Hc Hk Hf E0|c i k ch s r s' Hc Hk Hf E0 Er|c i r s Hc Hf E0|c i ph r s Hc Hf E0|c r s Hc E0|c ch s Hc E0].
  - apply keeps_ok; [done|]. by eapply call_ret_ok.
  - apply keeps_ok; [done|]. by eapply call_switch_ok.
  - by eapply fork_slot_ok.
  - by eapply fork_next_ok.
  - apply keeps_ok; [done|]. pose proof Hm as [Hl Hi _ _ _]. eapply sched_keeps; [done|done|apply pid_sub_refl|done|].
    by eapply scheduler_run.
  - apply keeps_ok; [done|]. by eapply wakeup_keeps.
Qed.

(** ** Boot *)

(** [main] calls [userinit] on the zeroed table; then every CPU enters its
    scheduler. *)
Definition boot_state (e : E) : ptst E := PT false (replicate NPROC proc_zero) None 1 cpu_on None e.

Definition booted (m : machine E) : Prop :=
  ∃ e s ncpu, userinit (boot_state e) = Ret tt s ∧
    m = Mach (procs s) (initproc s) (nextpid s) (env s) (replicate ncpu None) ∅ 1.

Lemma tab_zero i : tab (replicate NPROC proc_zero) i = core_of proc_zero.
Proof.
  unfold tab. rewrite list_lookup_total_alt. destruct (replicate NPROC proc_zero !! i) eqn:Ei; [|done].
  by apply lookup_replicate in Ei as [-> _].
Qed.

Lemma on_proc_bind {A} i f (k : unit → M (ptst E) A) l ps init nx c p e :
  bind (on_proc i f) k (PT l ps init nx c p e) = k tt (PT l (alter f i ps) init nx c p e).
Proof. done. Qed.

Lemma userinit_run ps (e : E) s :
  find_proc (is_state UNUSED) ps = Some 0%nat →
  userinit (PT false ps None 1 cpu_on None e) = Ret tt s →
  ∃ f e', s = PT false (alter f 0%nat ps) (Some 0%nat) 2 cpu_on None e' ∧
    ∀ p, core_of (f p) = Core RUNNABLE 1 (parent p) (chan_of p).
Proof.
  intros Hf. unfold userinit, bind at 1. rewrite allocproc_run, Hf.
  destruct (r_kalloc e) as [|[k e1]]; [done|]. destruct (k =? 0); [done|].
  unfold bind at 1, modify at 1. cbn [procs pt_lock nextpid mycpu cproc env].
  unfold bind at 1, on_env at 1. cbn [env]. destruct (r_setupkvm e1) as [|[d e2]]; [done|].
  rewrite on_proc_bind. destruct (d =? 0); [done|].
  unfold bind at 1, on_env at 1. cbn [env]. destruct (r_inituvm d e2) as [|[[] e3]]; [done|].
  rewrite !on_proc_bind. unfold bind at 1, on_env at 1. cbn [env].
  destruct (r_namei_root e3) as [|[w e4]]; [done|]. cbn [procs pt_lock initproc nextpid mycpu cproc env].
  rewrite on_proc_bind. unfold bind at 1. rewrite acquire_run, on_proc_bind, release_run.
  intros [= <-]. rewrite !list_alter_alter_eq. eexists _, _. split; [reflexivity|]. done.
Qed.

(** The table with init in slot 0. *)
Lemma init_table f j :
  (∀ p, core_of (f p) = Core RUNNABLE 1 (parent p) (chan_of p)) →
  tab (alter f 0%nat (replicate NPROC proc_zero)) j =
    if decide (j = 0%nat) then Core RUNNABLE 1 None ChNone else core_of proc_zero.
Proof.
  intros Hf. rewrite tab_alter by (rewrite length_replicate; unfold NPROC; lia).
  rewrite lookup_total_replicate_2, Hf by (unfold NPROC; lia). unfold upd1. case_decide; [done|]. apply tab_zero.
Qed.

Lemma booted_ok m : booted m → mach_ok m.
Proof.
  intros (e & s & ncpu & (f & e' & -> & Hf)%userinit_run & ->); [|by vm_compute].
  pose proof (λ j, init_table f j Hf) as Ht. cbn [procs initproc nextpid env].
  assert (Hu : ∀ j, k_state (tab (alter f 0%nat (replicate NPROC proc_zero)) j) ≠ UNUSED → j = 0%nat)
    by (intros j; rewrite Ht; by case_decide).
  assert (Hr : ∀ c (i : nat), replicate ncpu None !! c = Some (Some i) → False)
    by (intros c i [? _]%lookup_replicate; done).
  assert (Hp : ∀ j, k_parent (tab (alter f 0%nat (replicate NPROC proc_zero)) j) = None)
    by (intros j; rewrite Ht; by case_decide).
  split; cbn [m_procs m_next m_pids]; [by rewrite length_alter, length_replicate| |done|done|].
  - split; unfold kst_of; cbn [m_procs m_init m_run m_fork k_tab k_init k_run k_fork].
    + by intros c i ?%Hr.
    + by intros c c' i ?%Hr.
    + intros i. rewrite Ht. by case_decide.
    + done.
    + exists 0%nat. split; [done|]. rewrite Ht. by right; left.
    + intros i ->%Hu. done.
    + intros q i _ _. by rewrite Hp.
    + intros i. by rewrite Hp.
    + intros q _. apply Hp.
    + intros i np b. by rewrite lookup_fmap, lookup_empty.
    + intros i j np b b'. by rewrite lookup_fmap, lookup_empty.
    + intros np. rewrite Ht. by case_decide.
  - intros _. split; [lia| |].
    + intros i ->%Hu. rewrite Ht, decide_True by done. cbn [k_pid]. lia.
    + by intros i j ->%Hu ->%Hu.
Qed.

Lemma machine_reachable_ok m m' : booted m → rtc mstep m m' → mach_ok m'.
Proof. intros Hb Hs. apply booted_ok in Hb. induction Hs; eauto using mstep_ok. Qed.

(** C5. On any number of CPUs, whatever the processes call and in whatever
    order, with the parts of their [fork]s interleaved: a process is RUNNING
    exactly when one CPU, and only one, runs it; a slot is EMBRYO exactly while
    one process, which is running or runnable, forks into it; every other process
    but init has a parent that is alive; no process sleeps in [wait] while one of
    its children is a zombie; and until [nextpid] has gone through all positive
    integers, pids of used slots are positive and distinct. *)
Theorem process_table_invariant m m' :
  booted m → rtc mstep m m' →
  (∀ i, state (m_procs m' !!! i) = RUNNING ↔ ∃ c, m_run m' !! c = Some (Some i)) ∧
  (∀ c c' i, m_run m' !! c = Some (Some i) → m_run m' !! c' = Some (Some i) → c = c') ∧
  (∀ np, state (m_procs m' !!! np) = EMBRYO ↔
    ∃ i ph, m_fork m' !! i = Some ph ∧ (ph_core ph).1 = np ∧
      (state (m_procs m' !!! i) = RUNNING ∨ state (m_procs m' !!! i) = RUNNABLE) ∧
      ∀ j ph', m_fork m' !! j = Some ph' → (ph_core ph').1 = np → j = i) ∧
  (∀ i, state (m_procs m' !!! i) ≠ UNUSED → state (m_procs m' !!! i) ≠ EMBRYO → m_init m' ≠ Some i →
    ∃ q, parent (m_procs m' !!! i) = Some q ∧ alive (state (m_procs m' !!! q))) ∧
  (∀ q i, state (m_procs m' !!! q) = SLEEPING → chan_of (m_procs m' !!! q) = ChProc q →
    parent (m_procs m' !!! i) = Some q → state (m_procs m' !!! i) ≠ ZOMBIE) ∧
  (m_pids m' < 2^31 - 1 →
    (∀ i, state (m_procs m' !!! i) ≠ UNUSED → 0 < pid (m_procs m' !!! i) < m_next m') ∧
    (∀ i j, state (m_procs m' !!! i) ≠ UNUSED → state (m_procs m' !!! j) ≠ UNUSED →
      pid (m_procs m' !!! i) = pid (m_procs m' !!! j) → i = j)).
Proof.
  intros Hb Hs. destruct (machine_reachable_ok _ _ Hb Hs) as [_ H _ _ Hp].
  assert (Hfork : ∀ i ph, m_fork m' !! i = Some ph → k_fork (kst_of m') !! i = Some ((ph_core ph).1, (ph_core ph).2)).
  { intros i ph Hi. cbn. rewrite lookup_fmap, Hi. cbn. by destruct (ph_core ph). }
  split_and!.
  - intros i. split; [apply (ti_run _ H)|]. intros [c Hc]. by apply (ti_cpu _ H c).
  - apply (ti_inj _ H).
  - intros np. split.
    + intros (i & b & Hi)%(ti_embryo _ H). destruct (ti_fork _ H _ _ _ Hi) as [Hst _]. pose proof Hi as Hi'.
      cbn in Hi. rewrite lookup_fmap in Hi. destruct (m_fork m' !! i) as [ph|] eqn:Ef; [|done]. injection Hi as Hph.
      exists i, ph. rewrite Hph. split_and!; try done.
      intros j ph' Hj Enp. apply Hfork in Hj. rewrite Enp in Hj. by apply (ti_forkinj _ H _ _ _ _ _ Hj Hi').
    + intros (i & ph & Hi & <- & _). apply Hfork in Hi. by apply (ti_fork _ H _ _ _ Hi).
  - apply (ti_parent _ H).
  - apply (ti_wait _ H).
  - intros Hlt. specialize (Hp Hlt). split; apply Hp.
Qed.

Lemma until_nul_app cs r : Forall (λ c, c ≠ 0) cs → until_nul (cs ++ 0 :: r) = cs.
Proof.
  induction 1 as [|c cs Hc Hcs IH]; [done|]. cbn. destruct (Z.eqb_spec c 0); [done|]. by rewrite IH.
Qed.

Lemma until_nul_nonzero s : Forall (λ c, c ≠ 0) (until_nul s).
Proof. induction s as [|c s IH]; [constructor|]. cbn. destruct (Z.eqb_spec c 0); by constructor. Qed.

Lemma until_nul_copy s p : until_nul (name (copy_name s p)) = take 15 (until_nul s).
Proof. apply (until_nul_app (take 15 (until_nul s))). apply Forall_take, until_nul_nonzero. Qed.

Lemma find_proc_alter P f i (ps : list proc) :
  (∀ p, P (f p) = P p) → find_proc P (alter f i ps) = find_proc P ps.
Proof.
  intros HP. unfold find_proc. induction (seq 0 NPROC) as [|j js IH]; [done|]. cbn [List.find].
  rewrite IH, list_lookup_total_alter. case_decide as Hj; [|done]. destruct Hj as [-> _]. by rewrite HP.
Qed.

Lemma name_set_state st p : name (set_state st p) = name p.
Proof. done. Qed.

Lemma child_spec cur p d h w nx k q : let c := child cur p p d h w (embryo k (taken nx q)) in
  state c = RUNNABLE ∧ pid c = nx ∧ parent c = Some cur ∧ sz c = sz p ∧
  frame c = tf_set_eax 0 (frame p) ∧ until_nul (name c) = take 15 (until_nul (name p)) ∧
  handler c = handler p ∧ dis_sig c = 0 ∧ ctx c = tf c - 4 - sizeof_context ∧
  c_eip (cregs c) = forkret_addr ∧ ret_addr c = trapret_addr.
Proof.
  intros c. assert (until_nul (name c) = take 15 (until_nul (name p))) as Hn.
  { unfold c, child. cbv zeta. rewrite name_set_state. apply until_nul_copy. }
  split_and!; first [exact Hn|reflexivity].
Qed.

(** C23. [fork] by a running process: with a free slot and memory for the
    stack and the address space it returns the new pid, and the child, in the
    first free slot, is runnable, has the caller as parent, and is a copy of
    it (registers except [eax], which is 0 so that the child's call returns 0;
    size, working name, signal handler); the caller's slot does not change. *)
Theorem fork_makes_copy ps init nx cur (e : E) r s :
  length ps = NPROC → (cur < NPROC)%nat → state (ps !!! cur) = RUNNING →
  fork (PT false ps init nx cpu_on (Some cur) e) = Ret r s → r ≠ -1 →
  ∃ i, find_proc (is_state UNUSED) ps = Some i ∧ r = nx ∧ nextpid s = s32 (nx + 1) ∧
    ∀ p q, p = ps !!! cur → q = procs s !!! i →
    state q = RUNNABLE ∧ pid q = nx ∧ parent q = Some cur ∧ sz q = sz p ∧
    frame q = tf_set_eax 0 (frame p) ∧ until_nul (name q) = take 15 (until_nul (name p)) ∧
    handler q = handler p ∧ dis_sig q = 0 ∧ ctx q = tf q - 4 - sizeof_context ∧
    c_eip (cregs q) = forkret_addr ∧ ret_addr q = trapret_addr ∧
    ∀ j, j ≠ i → procs s !!! j = ps !!! j.
Proof.
  intros Hl Hc Hr (ps' & nx' & e' & -> & Hf)%fork_run Hne; [|done].
  destruct Hf as [|i f|i k p p' d h w Hi Hk Hd Hp]; [done..|]. exists i. split; [done|]. split; [done|]. split; [done|].
  apply find_proc_spec in Hi as [Hil Hiu%is_state_true].
  destruct Hp as [-> ->]; [intros ->; congruence|]. cbn [procs]. intros p q -> ->.
  rewrite list_lookup_total_alter_eq by lia.
  destruct (child_spec cur (ps !!! cur) d h w nx k (ps !!! i))
    as (H1 & H2 & H3 & H4 & H5 & H6 & H7 & H8 & H9 & H10 & H11).
  split_and!; [assumption..|]. intros j Hj. by rewrite list_lookup_total_alter_ne.
Qed.

(** Pid 0 is the pid of free slots, and [kill] does not look at the state
    of the slot it finds: [kill(0)] marks a free slot, [allocproc] does not
    clear the mark, and the next child starts out killed. *)
Theorem kill_free_slot_kills_next_child ps init nx cur (e : E) i r s s' :
  length ps = NPROC → (cur < NPROC)%nat →
  find_proc (is_state UNUSED) ps = Some i → find_proc (λ p, pid p =? 0) ps = Some i →
  kill 0 (PT false ps init nx cpu_on (Some cur) e) = Ret 0 s → fork s = Ret r s' → r ≠ -1 →
  state (procs s' !!! i) = RUNNABLE ∧ pid (procs s' !!! i) = r ∧ killed (procs s' !!! i) = true.
Proof.
  intros Hl Hc Hu Hp. rewrite kill_run, Hp by done. intros [= <-].
  intros (ps' & nx' & e' & -> & Hf)%fork_run Hne; [|by rewrite length_alter].
  assert (Hun : find_proc (is_state UNUSED) (alter kill_one i ps) = Some i).
  { rewrite find_proc_alter; [done|]. intros p. unfold kill_one, is_state. repeat case_bool_decide; cbn in *; congruence. }
  destruct Hf as [|j f|j k p p' d h w Hj Hk Hd _]; [done..|]. assert (j = i) as -> by congruence.
  apply find_proc_spec in Hj as [Hi _]. cbn [procs]. rewrite list_alter_alter_eq, list_lookup_total_alter_eq by lia.
  cbn. split_and!; [done..|]. unfold kill_one. by destruct (is_state _ _).
Qed.

End Machine.

(** ** A concrete kernel around the table

    Memory is a counter of pages below [limit]; copying and freeing address
    spaces, files and directories always succeed. *)
Definition page_res (limit : Z) : ProcRes Z := {|
  r_kalloc e := inr (if e <? limit then (4096 * e, e + 1) else (0, e));
  r_kfree _ e := inr (tt, e);
  r_setupkvm e := inr (if e <? limit then (4096 * e, e + 1) else (0, e));
  r_inituvm _ e := inr (tt, e);
  r_copyuvm _ _ e := inr (if e <? limit then (4096 * e, e + 1) else (0, e));
  r_freevm _ e := inr (tt, e);
  r_allocuvm _ _ n e := inr (n, e);
  r_deallocuvm _ _ n e := inr (n, e);
  r_filedup f e := inr (f, e);
  r_fileclose _ e := inr (tt, e);
  r_idup w e := inr (w, e);
  r_iput_op _ e := inr (tt, e);
  r_namei_root e := inr (1, e);
  r_switchuvm _ _ e := inr (tt, e);
  r_switchkvm e := inr (tt, e) |}.

Definition ret_state {S A} (r : res S A) (d : S) : S :=
  match r with Ret _ s => s | Sleep _ s => s | _ => d end.

(** The machine with two CPUs after [userinit], then after the first CPU picked
    init, and while init forks. *)
Definition m_boot : machine Z :=
  let s := ret_state (userinit (ProcRes0 := page_res 100) (boot_state 1)) (boot_state 1) in
  Mach (procs s) (initproc s) (nextpid s) (env s) [None; None] ∅ 1.

Definition m_first : machine Z :=
  put_back m_boot (ret_state (scheduler (ProcRes0 := page_res 100) 0 (view m_boot true cpu_off None)) (boot_state 1))
    [Some 0%nat; None].

Definition m_slot : machine Z :=
  put_fork m_first (ret_state (alloc_slot (view m_first false cpu_on (Some 0%nat))) (boot_state 1))
    (<[0%nat := FSlot 1]> (m_fork m_first)) 2.

Definition forks_on (ph : fphase) (next : option fphase) (m : machine Z) : machine Z :=
  put_fork m (ret_state (fork_next (ProcRes0 := page_res 100) 0 ph (view m false cpu_on (Some 0%nat))) (boot_state 1))
    (match next with None => delete 0%nat (m_fork m) | Some ph' => <[0%nat := ph']> (m_fork m) end) (m_pids m).

Definition m_stack : machine Z := forks_on (FSlot 1) (Some (FStack 1)) m_slot.
Definition m_mem : machine Z := forks_on (FStack 1) (Some (FMem 1)) m_stack.
Definition m_copied : machine Z := forks_on (FMem 1) (Some (FCopied 1 2)) m_mem.
Definition m_forked : machine Z := forks_on (FCopied 1 2) None m_copied.

Lemma boot_ok : booted (ProcRes0 := page_res 100) m_boot.
Proof.
  exists 1, (ret_state (userinit (ProcRes0 := page_res 100) (boot_state 1)) (boot_state 1)), 2%nat.
  split; [vm_compute; reflexivity|reflexivity].
Qed.

Lemma slot_reached : rtc (mstep (ProcRes0 := page_res 100)) m_boot m_slot.
Proof.
  apply (rtc_l _ _ m_first).
  - apply (MS_idle (ProcRes0 := page_res 100) m_boot 0 (Some 0%nat)); vm_compute; reflexivity.
  - apply rtc_once. apply (MS_fork (ProcRes0 := page_res 100) m_first 0 0 (Some 1%nat)); vm_compute; reflexivity.
Qed.

Lemma forked_reached : rtc (mstep (ProcRes0 := page_res 100)) m_slot m_forked.
Proof.
  apply (rtc_l _ _ m_stack), (rtc_l _ _ m_mem), (rtc_l _ _ m_copied), rtc_once.
  - apply (MS_fork_next (ProcRes0 := page_res 100) m_slot 0 0 (FSlot 1) (Some (FStack 1))); vm_compute; reflexivity.
  - apply (MS_fork_next (ProcRes0 := page_res 100) m_stack 0 0 (FStack 1) (Some (FMem 1))); vm_compute; reflexivity.
  - apply (MS_fork_next (ProcRes0 := page_res 100) m_mem 0 0 (FMem 1) (Some (FCopied 1 2))); vm_compute; reflexivity.
  - apply (MS_fork_next (ProcRes0 := page_res 100) m_copied 0 0 (FCopied 1 2) None); vm_compute; reflexivity.
Qed.

Lemma process_table_invariant_witness :
  (∃ i ph, m_fork m_slot !! i = Some ph ∧ (ph_core ph).1 = 1%nat) ∧
  parent (m_procs m_forked !!! 1%nat) = Some 0%nat ∧ alive (state (m_procs m_forked !!! 0%nat)) ∧
  0 < pid (m_procs m_forked !!! 1%nat) < m_next m_forked.
Proof.
  split.
  - destruct (process_table_invariant (ProcRes0 := page_res 100) m_boot m_slot boot_ok slot_reached) as (_ & _ & He & _).
    destruct (He 1%nat) as [H _]. destruct H as (i & ph & Hi & Hph & _); [vm_compute; reflexivity|]. by exists i, ph.
  - destruct (process_table_invariant (ProcRes0 := page_res 100) m_boot m_forked boot_ok
      (transitivity slot_reached forked_reached)) as (_ & _ & _ & Hpar & _ & Hpid).
    assert (state (m_procs m_forked !!! 1%nat) ≠ UNUSED) as Hu by (vm_compute; discriminate).
    destruct (Hpar 1%nat) as (q & Hq & Ha); [done|vm_compute; discriminate|vm_compute; discriminate|].
    assert (q = 0%nat) as -> by (revert Hq; vm_compute; congruence).
    destruct Hpid as [Hp _]; [vm_compute; reflexivity|]. auto.
Defined.

Lemma fork_makes_copy_witness :
  state (procs (ret_state (fork (ProcRes0 := page_res 100) (view m_first false cpu_on (Some 0%nat))) (boot_state 1)) !!! 1%nat) = RUNNABLE.
Proof.
  destruct (fork_makes_copy (ProcRes0 := page_res 100) (m_procs m_first) (m_init m_first) (m_next m_first) 0
    (m_env m_first) 2 (ret_state (fork (ProcRes0 := page_res 100) (view m_first false cpu_on (Some 0%nat))) (boot_state 1)))
    as (i & Hi & _ & _ & Hs); [vm_compute; reflexivity|unfold NPROC; lia|vm_compute; reflexivity..|lia|].
  assert (i = 1%nat) as -> by (revert Hi; vm_compute; congruence). apply (Hs _ _ eq_refl eq_refl).
Defined.

Definition m_poisoned : ptst Z :=
  ret_state (kill 0 (view m_first false cpu_on (Some 0%nat))) (boot_state 1).

Lemma kill_free_slot_witness :
  killed (procs (ret_state (fork (ProcRes0 := page_res 100) m_poisoned) (boot_state 1)) !!! 1%nat) = true.
Proof.
  apply (kill_free_slot_kills_next_child (ProcRes0 := page_res 100) (m_procs m_first) (m_init m_first)
    (m_next m_first) 0 (m_env m_first) 1 2 m_poisoned); [vm_compute; reflexivity|unfold NPROC; lia| | | | |lia];
    vm_compute; reflexivity.
Defined.
