(* ===== verification/Ipc.v ===== *)
(** * Process calls, messages and signals (xv6A1/sysproc.c, proc.c from 576)

    The calls of sysproc.c on the process table and the memory of the calling
    process: arguments, the mailbox of [sys_send] and [sys_recv], the signal
    calls, and [checkTraps], which runs a signal handler on the way back to
    user mode. A call that sleeps stops there; its remainder after the wake-up
    is a definition of its own. *)

From S2P Require Import Prelude Memory Spinlock Args Proc.

Definition MSG_SP : nat := 1024.

(** [locs]: the mailbox. *)
Record locs := Locs {
  memLock : bool;
  msgs : list (list Z);
  from : list Z;
  dest : list Z;
  waiting : list Z;
  wait_msgs : list Z }.

(** [buf] as it is initialised: the first message and [wait_msgs] have the text
    of seven spaces, everything else is 0. *)
Definition empty_msg : list Z := [32; 32; 32; 32; 32; 32; 32; 0].
Definition locs_init : locs :=
  Locs false (empty_msg :: replicate 1023 (replicate 8 0)) (replicate MSG_SP 0) (replicate MSG_SP 0)
    (replicate NPROC 0) (empty_msg ++ replicate 56 0).

(** The process table, the memory of the running process, the mailbox, the
    clock, the call counters and what [cprintf] printed. *)
Record xst (E : Type) := XSt {
  xpt : ptst E;
  xmem : mem;
  buf : locs;
  ticks_lock : bool;
  ticks : Z;
  trace : Z;
  countCalls : list Z;
  printed : list (list Z) }.
Arguments XSt {E} _ _ _ _ _ _ _ _.
Arguments xpt {E} _.
Arguments xmem {E} _.
Arguments buf {E} _.
Arguments ticks_lock {E} _.
Arguments ticks {E} _.
Arguments trace {E} _.
Arguments countCalls {E} _.
Arguments printed {E} _.

Inductive MailLock : Set := .
Inductive TicksLock : Set := .

Definition set_buf {E} (f : locs → locs) (s : xst E) : xst E :=
  XSt (xpt s) (xmem s) (f (buf s)) (ticks_lock s) (ticks s) (trace s) (countCalls s) (printed s).
Definition set_mem {E} (f : mem → mem) (s : xst E) : xst E :=
  XSt (xpt s) (f (xmem s)) (buf s) (ticks_lock s) (ticks s) (trace s) (countCalls s) (printed s).
Definition set_ticks {E} (v : Z) (s : xst E) : xst E :=
  XSt (xpt s) (xmem s) (buf s) (ticks_lock s) v (trace s) (countCalls s) (printed s).
Definition set_calls {E} (t : Z) (c : list Z) (s : xst E) : xst E :=
  XSt (xpt s) (xmem s) (buf s) (ticks_lock s) (ticks s) t c (printed s).
Definition cprintf {E} (line : list Z) : M (xst E) unit :=
  modify (λ s, XSt (xpt s) (xmem s) (buf s) (ticks_lock s) (ticks s) (trace s) (countCalls s) (printed s ++ [line])).

#[export] Instance mail_has_lock E : HasLock MailLock (xst E).
Proof.
  refine {| lock_held s := memLock (buf s);
            set_lock b := set_buf (λ l, Locs b (msgs l) (from l) (dest l) (waiting l) (wait_msgs l)) |};
    intros; destruct s as [? ? [] ? ? ? ? ?]; done.
Defined.

#[export] Instance ticks_has_lock E : HasLock TicksLock (xst E).
Proof.
  refine {| lock_held := ticks_lock;
            set_lock b s := XSt (xpt s) (xmem s) (buf s) b (ticks s) (trace s) (countCalls s) (printed s) |};
    by intros; destruct s.
Defined.

Section Ipc.
Context {E : Type} `{!ProcRes E}.
(** What an [int] has that no argument was stored into. *)
Context (junk : Z).

Definition on_pt {A} (m : M (ptst E) A) : M (xst E) A := λ s,
  match m (xpt s) with
  | Ret a t => Ret a (XSt t (xmem s) (buf s) (ticks_lock s) (ticks s) (trace s) (countCalls s) (printed s))
  | Panic e => Panic e
  | Sleep ch t => Sleep ch (XSt t (xmem s) (buf s) (ticks_lock s) (ticks s) (trace s) (countCalls s) (printed s))
  | Fault e => Fault e
  end.

(** [acquire] and [release] with their effect on the interrupt state. *)
Definition acquire_lk (T : Type) `{!HasLock T (xst E)} : M (xst E) unit := on_pt (on_cpu pushcli) ;;; acquire T.
Definition release_lk (T : Type) `{!HasLock T (xst E)} : M (xst E) unit := release T ;;; on_pt (on_cpu popcli).

(** [sleep(ch, lk)] with [lk] not [ptable.lock]: the lock is given up between
    taking [ptable.lock] and the switch, with nothing in between. *)
Definition sleep_lk (T : Type) `{!HasLock T (xst E)} (ch : chan) : M (xst E) unit :=
  release_lk T ;;;
  on_pt (sleep ch false).

Definition curproc : M (xst E) proc := i <- on_pt myproc ;; on_pt (the_proc i).

(** What the argument routines see of the running process. *)
Definition uargs : M (xst E) uproc :=
  p <- curproc ;;
  m <- gets xmem ;;
  ret (UProc (sz p) (tf_esp (frame p)) m).

(** An [int] argument whose failure is not tested, and a pointer argument. *)
Definition int_arg (n : Z) : M (xst E) Z := u <- uargs ;; ret (default junk (argint u n)).
Definition ptr_arg (n size : Z) : M (xst E) (option Z) := u <- uargs ;; ret (argptr u n size).

(** Bytes at a pointer that may not have been set. *)
Definition bytes_of (p : option Z) (n : nat) : M (xst E) (list Z) :=
  match p with
  | None => fault "uninitialised pointer"
  | Some a => gets (λ s, peek (xmem s) a n)
  end.

(** ** sysproc.c *)

Definition sys_fork : M (xst E) Z := on_pt fork.

Definition sys_exit : M (xst E) Z := on_pt exit_ ;;; ret 0.

Definition sys_wait : M (xst E) Z := on_pt wait.

Definition sys_kill : M (xst E) Z :=
  u <- uargs ;;
  match argint u 0 with
  | None => ret (-1)
  | Some n => on_pt (kill n)
  end.

Definition sys_getpid : M (xst E) Z := p <- curproc ;; ret (pid p).

Definition sys_sbrk : M (xst E) Z :=
  u <- uargs ;;
  match argint u 0 with
  | None => ret (-1)
  | Some n =>
      p <- curproc ;;
      let addr := s32 (sz p) in
      r <- on_pt (growproc n) ;;
      if r <? 0 then ret (-1) else ret addr
  end.

(** The loop of [sys_sleep], entered with [tickslock] held: also what it runs
    after a wake-up. [ticks - ticks0 < n] compares two [uint]s. *)
Definition sleep_turn (ticks0 n : Z) : M (xst E) Z :=
  t <- gets ticks ;;
  if u32 (t - ticks0) <? u32 n then
    p <- curproc ;;
    if killed p then release_lk TicksLock ;;; ret (-1)
    else sleep_lk TicksLock ChTicks ;;; ret (-1)
  else
    release_lk TicksLock ;;;
    ret 0.

Definition sys_sleep : M (xst E) Z :=
  u <- uargs ;;
  match argint u 0 with
  | None => ret (-1)
  | Some n =>
      acquire_lk TicksLock ;;;
      ticks0 <- gets ticks ;;
      sleep_turn ticks0 n
  end.

Definition sys_uptime : M (xst E) Z :=
  acquire_lk TicksLock ;;;
  xticks <- gets ticks ;;
  release_lk TicksLock ;;;
  ret (s32 xticks).

Definition sys_add : M (xst E) Z :=
  x <- int_arg 0 ;;
  y <- int_arg 1 ;;
  ret (s32 (x + y)).

Definition sys_ps : M (xst E) Z :=
  ps <- on_pt list_running ;;
  for_all ps (λ p, cprintf (p.1 :: p.2)) ;;;
  ret 0.

(** ** Messages *)

(** Stores into the arrays of [buf]; outside of them is undefined. *)
Definition box_set (get : locs → list Z) (set : list Z → locs → locs) (i v : Z) : M (xst E) unit :=
  l <- gets (λ s, get (buf s)) ;;
  if (0 <=? i) && (i <? Z.of_nat (length l)) then modify (set_buf (λ b, set (<[Z.to_nat i := v]> (get b)) b))
  else fault "index".
Definition set_waiting (v : list Z) (b : locs) : locs := Locs (memLock b) (msgs b) (from b) (dest b) v (wait_msgs b).
Definition set_from (v : list Z) (b : locs) : locs := Locs (memLock b) (msgs b) v (dest b) (waiting b) (wait_msgs b).
Definition set_dest (v : list Z) (b : locs) : locs := Locs (memLock b) (msgs b) (from b) v (waiting b) (wait_msgs b).
Definition set_wait_msgs (v : list Z) (b : locs) : locs := Locs (memLock b) (msgs b) (from b) (dest b) (waiting b) v.
Definition set_msg (i : nat) (v : list Z) (b : locs) : locs :=
  Locs (memLock b) (<[i := v]> (msgs b)) (from b) (dest b) (waiting b) (wait_msgs b).

(** [buf.waiting[i]] *)
Definition get_waiting (i : Z) : M (xst E) Z :=
  l <- gets (λ s, waiting (buf s)) ;;
  if (0 <=? i) && (i <? Z.of_nat (length l)) then ret (l !!! Z.to_nat i) else fault "index".

(** Bytes into [wait_msgs], from index [i] on. *)
Definition put_wait_msgs (i : Z) (bs : list Z) : M (xst E) unit :=
  for_all (seq 0 (length bs)) (λ k,
    box_set wait_msgs set_wait_msgs (i + Z.of_nat k) (bs !!! k)).

(** The first slot whose destination is not a process, or is [me]. *)
Definition free_slot (l : list Z) : option nat := fst <$> list_find (λ d, d <= 0) l.
Definition my_slot (me : Z) (l : list Z) : option nat := fst <$> list_find (λ d, d = me) l.

Definition sys_send : M (xst E) Z :=
  sender_pid <- int_arg 0 ;;
  rec_pid <- int_arg 1 ;;
  str <- ptr_arg 2 MSGSIZE ;;
  acquire_lk MailLock ;;;
  w <- get_waiting rec_pid ;;
  if w =? 1 then
    m <- bytes_of str 8 ;;
    put_wait_msgs rec_pid m ;;;
    box_set waiting set_waiting rec_pid 0 ;;;
    on_pt (wakeup (ChPid rec_pid)) ;;;
    release_lk MailLock ;;;
    ret 0
  else
    ds <- gets (λ s, dest (buf s)) ;;
    match free_slot ds with
    | Some i =>
        m <- bytes_of str 8 ;;
        modify (set_buf (set_msg i m)) ;;;
        box_set from set_from (Z.of_nat i) sender_pid ;;;
        box_set dest set_dest (Z.of_nat i) rec_pid ;;;
        release_lk MailLock ;;;
        ret 0
    | None => ret (-1)
    end.

Definition sys_recv : M (xst E) Z :=
  str <- ptr_arg 0 MSGSIZE ;;
  p <- curproc ;;
  let caller_pid := pid p in
  acquire_lk MailLock ;;;
  ds <- gets (λ s, dest (buf s)) ;;
  match my_slot caller_pid ds with
  | Some i =>
      m <- gets (λ s, msgs (buf s) !!! i) ;;
      (match str with
       | None => fault "uninitialised pointer"
       | Some a => modify (set_mem (λ k, poke k a m))
       end) ;;;
      box_set dest set_dest (Z.of_nat i) (-1) ;;;
      modify (set_buf (set_msg i empty_msg)) ;;;
      release_lk MailLock ;;;
      ret 0
  | None =>
      box_set waiting set_waiting caller_pid 1 ;;;
      q <- ptr_arg 0 4 ;;
      (match q with
       | None => ret tt
       | Some a => put_wait_msgs caller_pid (map (byte_at a) [0; 1; 2; 3])
       end) ;;;
      sleep_lk MailLock (ChPid caller_pid) ;;;
      ret 0
  end.

(** [sys_recv] from the return of [sleep] on. *)
Definition sys_recv_resume : M (xst E) Z :=
  acquire_lk MailLock ;;;
  release_lk MailLock ;;;
  ret 0.

(** ** Signals *)

Definition proc_sigset (sh : Z) : M (xst E) Z :=
  cur <- on_pt myproc ;;
  p <- on_pt (the_proc cur) ;;
  on_pt acquire_pt ;;;
  on_pt (on_proc cur (set_handler sh)) ;;;
  on_pt release_pt ;;;
  ret (handler p).

(** [&ptable.proc[to_pid]] is the slot with index [to_pid]. *)
Definition proc_sigsend (to_pid : Z) (msg : list Z) : M (xst E) Z :=
  if (to_pid <? 0) || (Z.of_nat NPROC <=? to_pid) then fault "ptable.proc" else
  on_pt acquire_pt ;;;
  on_pt (on_proc (Z.to_nat to_pid) (set_intr 1)) ;;;
  on_pt (on_proc (Z.to_nat to_pid) (set_message msg)) ;;;
  on_pt release_pt ;;;
  ret 0.

Definition end_multi : list Z :=
  [69; 78; 68; 32; 77; 85; 76; 84; 73; 32; 83; 69; 78; 68; 32; 83; 89; 83; 32; 67; 65; 76; 76; 32; 10].

(** The loop of [sys_send_multi] at receiver [i], with [n] receivers to go. *)
Fixpoint multi_loop (rec_p str : option Z) (i : Z) (n : nat) : M (xst E) bool :=
  match n with
  | O => ret true
  | S n' =>
      rp <- (match rec_p with None => fault "uninitialised pointer" | Some a => ret a end) ;;
      to <- gets (λ s, s32 (load32 (xmem s) (rp + 4 * i))) ;;
      m <- bytes_of str 8 ;;
      r <- proc_sigsend to m ;;
      if r <? 0 then ret false else multi_loop rec_p str (i + 1) n'
  end.

Definition sys_send_multi : M (xst E) Z :=
  _ <- int_arg 0 ;;
  rec_p <- ptr_arg 1 (8 * MSGSIZE) ;;
  str <- ptr_arg 2 MSGSIZE ;;
  num <- int_arg 3 ;;
  _ <- curproc ;;
  acquire_lk MailLock ;;;
  ok <- multi_loop rec_p str 0 (Z.to_nat num) ;;
  if negb ok then release_lk MailLock ;;; ret (-1)
  else
    release_lk MailLock ;;;
    cprintf end_multi ;;;
    ret 0.

Definition sys_sigset : M (xst E) Z :=
  addr <- int_arg 0 ;;
  proc_sigset addr.

Definition sigsend_text : list Z :=
  [78; 111; 116; 104; 105; 110; 103; 32; 104; 97; 112; 112; 101; 110; 101; 100; 32; 105; 110; 32;
   115; 121; 115; 95; 115; 105; 103; 115; 101; 110; 100].

Definition sys_sigsend : M (xst E) Z := cprintf sigsend_text ;;; ret 0.

(** A trap frame in memory: nineteen words. *)
Definition tf_words (t : trapframe) : list Z :=
  [tf_edi t; tf_esi t; tf_ebp t; tf_oesp t; tf_ebx t; tf_edx t; tf_ecx t; tf_eax t; tf_gs t; tf_fs t;
   tf_es t; tf_ds t; tf_trapno t; tf_err t; tf_eip t; tf_cs t; tf_eflags t; tf_esp t; tf_ss t].

Definition tf_bytes (t : trapframe) : list Z :=
  concat (map (λ w, map (byte_at w) [0; 1; 2; 3]) (tf_words t)).

Definition load_tf (m : mem) (a : Z) : trapframe :=
  let w k := load32 m (a + 4 * k) in
  TF (w 0) (w 1) (w 2) (w 3) (w 4) (w 5) (w 6) (w 7) (w 8) (w 9) (w 10) (w 11) (w 12) (w 13) (w 14)
    (w 15) (w 16) (w 17) (w 18).

(** The kernel reads and writes user addresses without a check; an address that
    is not in the process is a fault in the kernel. *)
Definition user_range (a n : Z) : M (xst E) unit :=
  p <- curproc ;;
  if (0 <=? a) && (a + n <=? sz p) then ret tt else fault "page fault".

Definition user_put (a : Z) (bs : list Z) : M (xst E) unit :=
  user_range a (Z.of_nat (length bs)) ;;;
  modify (set_mem (λ m, poke m a bs)).

Definition proc_sigret : M (xst E) unit :=
  cur <- on_pt myproc ;;
  p <- on_pt (the_proc cur) ;;
  user_range (prev_tf p) sizeof_trapframe ;;;
  m <- gets xmem ;;
  on_pt (on_proc cur (set_frame (load_tf m (prev_tf p)))) ;;;
  on_pt (on_proc cur (set_dis_sig 0)).

Definition sys_sigret : M (xst E) Z := proc_sigret ;;; ret 0.

(** invSigret.S: [movl $SYS_sigret, %eax; int $T_SYSCALL]. *)
Definition invoke_sigret : list Z := [0xb8; 30; 0; 0; 0; 0xcd; 64].

(** [(sig_handler)(-1)]; a handler is kept as the [int] with its bits. *)
Definition NOHANDLER : Z := -1.

Definition tf_set_esp_eip (esp eip : Z) (t : trapframe) : trapframe :=
  TF (tf_edi t) (tf_esi t) (tf_ebp t) (tf_oesp t) (tf_ebx t) (tf_edx t) (tf_ecx t) (tf_eax t) (tf_gs t)
    (tf_fs t) (tf_es t) (tf_ds t) (tf_trapno t) (tf_err t) eip (tf_cs t) (tf_eflags t) esp (tf_ss t).

(** [checkTraps(tf)], from [trapret]; [tf] is the frame [p->tf] points to. *)
Definition checkTraps (cs : Z) : M (xst E) unit :=
  if negb (Z.land cs 3 =? 3) then ret tt else
  c <- gets (λ s, cproc (xpt s)) ;;
  match c with None => on_pt acquire_pt ;;; on_pt release_pt | Some _ =>
  cur <- on_pt myproc ;;
  on_pt acquire_pt ;;;
  p <- on_pt (the_proc cur) ;;
  if (dis_sig p =? 1) || (handler p =? NOHANDLER) then on_pt release_pt else
  if (s8 (message p !!! 0%nat) =? -1) || negb (intr p =? 1) then on_pt release_pt else
  on_pt (on_proc cur (set_dis_sig 1)) ;;;
  on_pt (on_proc cur (set_intr 0)) ;;;
  user_put (prev_tf p) (tf_bytes (frame p)) ;;;
  let esp := u32 (tf_esp (frame p) - Z.of_nat (length invoke_sigret)) in
  user_put esp invoke_sigret ;;;
  user_put (u32 (esp - 4)) (message p) ;;;
  user_put (u32 (esp - 8)) (map (byte_at esp) [0; 1; 2; 3]) ;;;
  on_pt (on_proc cur (set_frame (tf_set_esp_eip (u32 (esp - 8)) (u32 (handler p)) (frame p)))) ;;;
  on_pt (on_proc cur (λ q, set_message (<[0%nat := 255]> (message q)) q)) ;;;
  on_pt release_pt
  end.

End Ipc.
