(* ===== verification/Trap.v ===== *)
(** * System calls and traps (xv6A1/syscall.c from 85, xv6A1/trap.c)

    The dispatch of system calls with the call counters, the counter calls, and
    [trap]. The handlers of the calls, and of the interrupts of devices, are
    what the other components provide: a table and a class. *)

From S2P Require Import Prelude Memory Spinlock Args Proc Ipc.

(** [NELEM(syscalls)]: the largest call number is 31. *)
Definition NCALLS : Z := 32.

Definition T_SYSCALL : Z := 64.
Definition T_IRQ0 : Z := 32.
Definition IRQ_TIMER : Z := 0.
Definition IRQ_KBD : Z := 1.
Definition IRQ_COM1 : Z := 4.
Definition IRQ_IDE : Z := 14.
Definition IRQ_SPURIOUS : Z := 31.
Definition DPL_USER : Z := 3.

(** The interrupt handlers of the devices: [ideintr], [kbdintr], [uartintr],
    and [lapiceoi]; [cpuid]. *)
Class Devices (E : Type) := {
  ideintr : M (xst E) unit;
  kbdintr : M (xst E) unit;
  uartintr : M (xst E) unit;
  lapiceoi : M (xst E) unit;
  cpuid : xst E → Z }.

(** An entry of the interrupt descriptor table: [SETGATE(gate, istrap, sel,
    off, dpl)]. *)
Record gate := Gate { g_trap : bool; g_sel : Z; g_off : Z; g_dpl : Z }.

Definition SEG_KCODE : Z := 1.

(** [tvinit], from the addresses in [vectors]. *)
Definition tvinit (vectors : list Z) : list gate :=
  <[Z.to_nat T_SYSCALL := Gate true (Z.shiftl SEG_KCODE 3) (vectors !!! Z.to_nat T_SYSCALL) DPL_USER]>
    (map (λ i, Gate false (Z.shiftl SEG_KCODE 3) (vectors !!! i) 0) (seq 0 256)).

Section Trap.
Context {E : Type} `{!ProcRes E} `{!Devices E}.
(** [syscalls]: the handler of each call number, [None] for a null pointer. *)
Context (syscalls : Z → option (M (xst E) Z)).
(** [syscallnames] and the text of numbers and messages that [cprintf] makes. *)
Context (count_line : Z → Z → list Z) (unknown_line : proc → Z → list Z).
Context (spurious_line : trapframe → list Z) (kill_line : proc → trapframe → list Z).

Definition set_eax (v : Z) : M (xst E) unit :=
  cur <- on_pt myproc ;;
  on_pt (on_proc cur (λ p, set_frame (tf_set_eax (u32 v) (frame p)) p)).

Definition syscall : M (xst E) unit :=
  p <- curproc ;;
  let num := s32 (tf_eax (frame p)) in
  match (if (0 <? num) && (num <? NCALLS) then syscalls num else None) with
  | Some f =>
      t <- gets trace ;;
      (when t =? 1 do
         modify (λ s, set_calls (trace s) (alter (λ c, s32 (c + 1)) (Z.to_nat num) (countCalls s)) s)) ;;;
      r <- f ;;
      set_eax r
  | None =>
      cprintf (unknown_line p num) ;;;
      set_eax (-1)
  end.

Definition sys_toggle : M (xst E) Z :=
  modify (λ s, set_calls (s32 (1 - trace s)) (countCalls s) s) ;;;
  t <- gets trace ;;
  (when t =? 1 do modify (λ s, set_calls (trace s) (replicate (Z.to_nat NCALLS) 0) s)) ;;;
  ret 0.

Definition sys_print_count : M (xst E) Z :=
  for_all (map Z.of_nat (seq 1 (Z.to_nat NCALLS - 1))) (λ i,
    c <- gets (λ s, countCalls s !!! Z.to_nat i) ;;
    when 0 <? c do cprintf (count_line i c)) ;;;
  ret 0.

(** [myproc() && myproc()->killed] *)
Definition is_dead : M (xst E) bool :=
  c <- gets (λ s, cproc (xpt s)) ;;
  match c with
  | None => ret false
  | Some i => p <- on_pt (the_proc i) ;; ret (killed p)
  end.

Definition exit_if (b : bool) : M (xst E) unit := when b do on_pt exit_.

(** The clock interrupt. *)
Definition tick : M (xst E) unit :=
  c <- gets cpuid ;;
  when c =? 0 do
    (acquire_lk TicksLock ;;;
     t <- gets ticks ;;
     modify (set_ticks (u32 (t + 1))) ;;;
     on_pt (wakeup ChTicks) ;;;
     release_lk TicksLock).

(** The [default] case: a fault of the kernel, or of the process. *)
Definition bad_trap (tf : trapframe) : M (xst E) unit :=
  c <- gets (λ s, cproc (xpt s)) ;;
  match c with
  | None => panic "trap"
  | Some i =>
      if Z.land (tf_cs tf) 3 =? 0 then panic "trap" else
      p <- on_pt (the_proc i) ;;
      cprintf (kill_line p tf) ;;;
      on_pt (on_proc i (set_killed true))
  end.

(** The [switch] on the trap number. *)
Definition trap_cause (tf : trapframe) : M (xst E) unit :=
  let n := tf_trapno tf in
  if n =? T_IRQ0 + IRQ_TIMER then tick ;;; lapiceoi
  else if n =? T_IRQ0 + IRQ_IDE then ideintr ;;; lapiceoi
  else if n =? T_IRQ0 + IRQ_IDE + 1 then ret tt
  else if n =? T_IRQ0 + IRQ_KBD then kbdintr ;;; lapiceoi
  else if n =? T_IRQ0 + IRQ_COM1 then uartintr ;;; lapiceoi
  else if (n =? T_IRQ0 + 7) || (n =? T_IRQ0 + IRQ_SPURIOUS) then cprintf (spurious_line tf) ;;; lapiceoi
  else bad_trap tf.

(** The end of [trap], also where the process continues after [yield]. *)
Definition trap_end (tf : trapframe) : M (xst E) unit :=
  k <- is_dead ;;
  exit_if (k && (Z.land (tf_cs tf) 3 =? DPL_USER)).

(** [myproc()->state == RUNNING] *)
Definition is_running : M (xst E) bool :=
  c <- gets (λ s, cproc (xpt s)) ;;
  match c with
  | None => ret false
  | Some i => p <- on_pt (the_proc i) ;; ret (is_state RUNNING p)
  end.

(** [alltraps] has built the frame [t] on the kernel stack at [a]. It is the
    frame of the process if [p->tf] is that place, as it is for every trap from
    user mode: the stack is empty then, and [p->tf] is its top. *)
Definition trap_frame (a : Z) (t : trapframe) : M (xst E) unit :=
  c <- gets (λ s, cproc (xpt s)) ;;
  match c with
  | None => ret tt
  | Some i => p <- on_pt (the_proc i) ;; when tf p =? a do on_pt (on_proc i (set_frame t))
  end.

(** [trap(tf)], with [tf] at address [a] of the kernel stack. *)
Definition trap (a : Z) (tf : trapframe) : M (xst E) unit :=
  trap_frame a tf ;;;
  if tf_trapno tf =? T_SYSCALL then
    k <- is_dead ;;
    exit_if k ;;;
    cur <- on_pt myproc ;;
    on_pt (on_proc cur (λ p, set_frame tf (set_tf a p))) ;;;
    syscall ;;;
    k <- is_dead ;;
    exit_if k
  else
    trap_cause tf ;;;
    trap_end tf ;;;
    r <- is_running ;;
    (when r && (tf_trapno tf =? T_IRQ0 + IRQ_TIMER) do on_pt yield) ;;;
    trap_end tf.

End Trap.
