(* ===== verification/IpcProps.v ===== *)
(** * Messages and signals: what the calls do

    The mailbox is a bag of addressed messages, [sys_send] puts one in and
    [sys_recv] takes one of the caller's out; and the paths on which the calls
    do not do what they are for. *)

From S2P Require Import Prelude Memory Spinlock Args Proc ProcInv ProcSteps FsBlocks Ipc.

(** ** The mailbox as a bag *)

(** The messages that are waiting to be received, with their addressee. *)
Definition slot_msg (x : Z * list Z) : option (Z * list Z) := if 0 <? x.1 then Some x else None.
Definition pending (b : locs) : list (Z * list Z) := omap slot_msg (zip (dest b) (msgs b)).

Record box_ok (b : locs) : Prop := {
  bx_msgs : length (msgs b) = MSG_SP;
  bx_from : length (from b) = MSG_SP;
  bx_dest : length (dest b) = MSG_SP;
  bx_waiting : length (waiting b) = NPROC;
  bx_wait_msgs : length (wait_msgs b) = NPROC }.



Section Box.
Context {E : Type} `{!ProcRes E} (junk : Z).
Implicit Types (b : locs).

(** The running process [cur] with interrupts on and no lock held. *)
Record running (s : xst E) (cur : nat) (p : proc) : Prop := {
  ru_cpu : mycpu (xpt s) = cpu_on;
  ru_cur : cproc (xpt s) = Some cur;
  ru_proc : procs (xpt s) !! cur = Some p;
  ru_lock : pt_lock (xpt s) = false;
  ru_mail : memLock (buf s) = false }.

Definition uproc_at (s : xst E) (p : proc) : uproc := UProc (sz p) (tf_esp (frame p)) (xmem s).

Definition with_cpu (k : cpu) (s : xst E) : xst E :=
  XSt (PT (pt_lock (xpt s)) (procs (xpt s)) (initproc (xpt s)) (nextpid (xpt s)) k (cproc (xpt s)) (env (xpt s)))
    (xmem s) (buf s) (ticks_lock s) (ticks s) (trace s) (countCalls s) (printed s).

Lemma curproc_any (s : xst E) cur p :
  mycpu (xpt s) = cpu_on ∨ mycpu (xpt s) = cpu_off → cproc (xpt s) = Some cur → procs (xpt s) !! cur = Some p →
  curproc s = Ret p s.
Proof.
  intros Hc Hu Hp. destruct s as [[lk ps init nx k c e] m b tl tk tr cc out].
  cbn [xpt mycpu cproc procs] in *. subst c.
  unfold curproc, bind, on_pt. cbn [xpt]. rewrite myproc_run by auto.
  unfold the_proc, gets. cbn [xpt procs xmem buf ticks_lock ticks trace countCalls printed].
  by rewrite (list_lookup_total_correct _ _ _ Hp).
Qed.

Lemma curproc_run (s : xst E) cur p : running s cur p → curproc s = Ret p s.
Proof. intros [Hc Hu Hp Hl _]. apply (curproc_any s cur); auto. Qed.

Lemma uargs_run (s : xst E) cur p : running s cur p → uargs s = Ret (uproc_at s p) s.
Proof. intros R. unfold uargs. run (curproc_run s cur p R). runs. done. Qed.

Lemma int_arg_run (s : xst E) cur p n v :
  running s cur p → argint (uproc_at s p) n = Some v → int_arg junk n s = Ret v s.
Proof. intros R Hv. unfold int_arg. run (uargs_run s cur p R). by rewrite Hv. Qed.

Lemma ptr_arg_run (s : xst E) cur p n size :
  running s cur p → ptr_arg n size s = Ret (argptr (uproc_at s p) n size) s.
Proof. intros R. unfold ptr_arg. run (uargs_run s cur p R). done. Qed.

(** Taking and giving back the mailbox lock. *)
Definition lock_box (v : bool) (b : locs) : locs := Locs v (msgs b) (from b) (dest b) (waiting b) (wait_msgs b).

Lemma mail_acquire_run (s : xst E) cur p :
  running s cur p → acquire_lk MailLock s = Ret tt (with_cpu cpu_off (set_buf (lock_box true) s)).
Proof.
  intros [Hc _ _ _ Hm]. destruct s as [[lk ps init nx k c e] m b tl tk tr cc out]. cbn in *. subst.
  unfold acquire_lk, bind, on_pt, acquire. cbn. by rewrite Hm.
Qed.

Lemma mail_release_run (s : xst E) :
  mycpu (xpt s) = cpu_off → memLock (buf s) = true →
  release_lk MailLock s = Ret tt (with_cpu cpu_on (set_buf (lock_box false) s)).
Proof.
  intros Hc Hm. destruct s as [[lk ps init nx k c e] m b tl tk tr cc out]. cbn in *. subst.
  unfold release_lk, bind, on_pt, release. cbn. by rewrite Hm.
Qed.

(** A store into one of the arrays, in range. *)
Lemma box_set_run get set i v (s : xst E) :
  0 <= i < Z.of_nat (length (get (buf s))) →
  box_set get set i v s = Ret tt (set_buf (λ b, set (<[Z.to_nat i := v]> (get b)) b) s).
Proof.
  intros Hi. unfold box_set. runs. by rewrite (proj2 (Z.leb_le _ _)), (proj2 (Z.ltb_lt _ _)) by lia.
Qed.

Lemma get_waiting_run i (s : xst E) :
  0 <= i < Z.of_nat (length (waiting (buf s))) → get_waiting i s = Ret (waiting (buf s) !!! Z.to_nat i) s.
Proof.
  intros Hi. unfold get_waiting. runs. by rewrite (proj2 (Z.leb_le _ _)), (proj2 (Z.ltb_lt _ _)) by lia.
Qed.







(** ** Claims *)




(** ** Where messages are lost *)

Lemma put_loop_run i bs n : ∀ j (s : xst E),
  0 <= i → i + Z.of_nat (j + n) <= Z.of_nat (length (wait_msgs (buf s))) → (j + n <= length bs)%nat →
  ∃ w, for_all (seq j n) (λ k, box_set wait_msgs set_wait_msgs (i + Z.of_nat k) (bs !!! k)) s =
      Ret tt (set_buf (set_wait_msgs w) s) ∧ length w = length (wait_msgs (buf s)) ∧
    (∀ k, w !! k = if decide (Z.to_nat i + j <= k < Z.to_nat i + j + n)%nat then bs !! (k - Z.to_nat i)%nat
                   else wait_msgs (buf s) !! k).
Proof.
  induction n as [|n IH]; intros j s Hi Hlen Hbs; cbn [seq for_all].
  - exists (wait_msgs (buf s)). split; [by destruct s as [? ? [] ? ? ? ? ?]|]. split; [done|].
    intros k. by rewrite decide_False by lia.
  - erewrite bind_run; [|apply box_set_run; lia]. cbv beta.
    replace (Z.to_nat (i + Z.of_nat j)) with (Z.to_nat i + j)%nat by lia.
    destruct (IH (Datatypes.S j) (set_buf (λ b, set_wait_msgs (<[(Z.to_nat i + j)%nat := bs !!! j]> (wait_msgs b)) b) s))
      as (w & Ew & Hl & Hw); [lia|cbn; rewrite length_insert; lia|lia|].
    exists w. split; [|split].
    + rewrite Ew. by destruct s as [? ? [] ? ? ? ? ?].
    + rewrite Hl. cbn. by rewrite length_insert.
    + intros k. rewrite Hw. cbn [wait_msgs buf set_buf set_wait_msgs]. destruct (decide (k = Z.to_nat i + j)%nat) as [->|Hk].
      * rewrite decide_False, decide_True, list_lookup_insert_eq by lia.
        replace (Z.to_nat i + j - Z.to_nat i)%nat with j by lia. symmetry. apply list_lookup_lookup_total_lt. lia.
      * rewrite list_lookup_insert_ne by done. do 2 case_decide; (done || lia).
Qed.

Lemma put_wait_run i bs (s : xst E) :
  0 <= i → i + Z.of_nat (length bs) <= Z.of_nat (length (wait_msgs (buf s))) →
  ∃ w, put_wait_msgs i bs s = Ret tt (set_buf (set_wait_msgs w) s) ∧ length w = length (wait_msgs (buf s)) ∧
    take (length bs) (drop (Z.to_nat i) w) = bs.
Proof.
  intros Hi Hlen. destruct (put_loop_run i bs (length bs) 0 s Hi ltac:(lia) ltac:(lia)) as (w & Ew & Hl & Hw).
  exists w. split; [exact Ew|]. split; [done|]. apply list_eq. intros k.
  destruct (decide (k < length bs)%nat) as [Hk|Hk].
  - rewrite lookup_take_lt, lookup_drop, Hw, decide_True by lia. f_equal. lia.
  - rewrite lookup_take_ge by lia. symmetry. apply lookup_ge_None. lia.
Qed.

(** [sys_recv] of a process without messages. *)
Lemma recv_sleeps_run (s : xst E) cur p a :
  running s cur p → box_ok (buf s) → argptr (uproc_at s p) 0 MSGSIZE = Some a → argptr (uproc_at s p) 0 4 = Some a →
  my_slot (pid p) (dest (buf s)) = None → 0 <= pid p → pid p + 4 <= Z.of_nat NPROC →
  ∃ t w, sys_recv s = Sleep (ChPid (pid p)) (XSt t (xmem s)
      (set_wait_msgs w (set_waiting (<[Z.to_nat (pid p) := 1]> (waiting (buf s))) (buf s)))
      (ticks_lock s) (ticks s) (trace s) (countCalls s) (printed s)) ∧ length w = NPROC.
Proof.
  intros R B Ha Ha4 Hn H0 H1. unfold sys_recv. run (ptr_arg_run s cur p 0 MSGSIZE R). rewrite Ha.
  run (curproc_run s cur p R). run (mail_acquire_run s cur p R). runs.
  cbn [dest buf with_cpu set_buf lock_box]. rewrite Hn.
  erewrite bind_run; [|apply box_set_run; cbn; rewrite (bx_waiting _ B); lia]. cbv beta.
  set (s1 := set_buf _ _).
  assert (Ep : ptr_arg 0 4 s1 = Ret (Some a) s1).
  { pose proof (curproc_any s1 cur p (or_intror eq_refl) (ru_cur _ _ _ R) (ru_proc _ _ _ R)) as Ec.
    rewrite <- Ha4. unfold ptr_arg, uargs. run Ec. runs. done. }
  erewrite bind_run; [|exact Ep]. cbv beta iota.
  destruct (put_wait_run (pid p) (map (byte_at a) [0; 1; 2; 3]) s1 H0) as (w & Ew & Hw & _).
  { cbn. rewrite (bx_wait_msgs _ B). unfold NPROC in *. lia. }
  erewrite bind_run; [|exact Ew]. cbv beta. unfold sleep_lk. runs.
  erewrite bind_run; [|by apply mail_release_run]. cbv beta.
  destruct R as [Hc Hu Hp Hl Hm]. pose proof (lookup_lt_Some _ _ _ Hp) as Hlt. unfold s1.
  destruct s as [[lk ps init nx k c e] m [] tl tk tr cc out]. cbn in Hc, Hu, Hp, Hl, Hm, Hlt. subst.
  eexists _, w. split; [|rewrite Hw; apply B].
  unfold bind, on_pt. cbn [xpt with_cpu set_buf pt_lock procs initproc nextpid mycpu cproc env].
  rewrite (sleep_run ps init nx cur e _ false Hlt). reflexivity.
Qed.

(** [sys_send] to a process that is waiting. *)
Lemma send_wakes_run (s : xst E) cur p sender rec a :
  running s cur p → box_ok (buf s) →
  argint (uproc_at s p) 0 = Some sender → argint (uproc_at s p) 1 = Some rec →
  argptr (uproc_at s p) 2 MSGSIZE = Some a → 0 <= rec → rec + 8 <= Z.of_nat NPROC →
  waiting (buf s) !!! Z.to_nat rec = 1 →
  ∃ t w, sys_send junk s = Ret 0 (XSt t (xmem s)
      (set_waiting (<[Z.to_nat rec := 0]> (waiting (buf s))) (set_wait_msgs w (buf s)))
      (ticks_lock s) (ticks s) (trace s) (countCalls s) (printed s)) ∧
    procs t = map (wake_one (ChPid rec)) (procs (xpt s)) ∧
    take 8 (drop (Z.to_nat rec) w) = peek (xmem s) a 8.
Proof.
  intros R B H0 H1 H2 Hr0 Hr8 Hw. unfold sys_send.
  run (int_arg_run s cur p 0 sender R H0). run (int_arg_run s cur p 1 rec R H1).
  run (ptr_arg_run s cur p 2 MSGSIZE R). rewrite H2. run (mail_acquire_run s cur p R).
  erewrite bind_run; [|apply get_waiting_run; cbn; rewrite (bx_waiting _ B); lia].
  cbn [waiting buf with_cpu set_buf lock_box]. rewrite Hw. cbn [Z.eqb Pos.eqb].
  unfold bytes_of. runs. cbn [xmem with_cpu set_buf].
  destruct (put_wait_run rec (peek (xmem s) a 8) (with_cpu cpu_off (set_buf (lock_box true) s)) Hr0)
    as (w & Ew & Hl & Hb); [cbn; rewrite (bx_wait_msgs _ B); lia|].
  erewrite bind_run; [|exact Ew]. cbv beta.
  erewrite bind_run; [|apply box_set_run; cbn; rewrite (bx_waiting _ B); lia]. cbv beta.
  destruct R as [Hc Hu Hp Hlk Hm].
  destruct s as [[lk ps init nx k c e] m [] tl tk tr cc out]. cbn in Hc, Hu, Hp, Hlk, Hm. subst.
  eexists (PT false (map (wake_one (ChPid rec)) ps) init nx cpu_on (Some cur) e), w.
  split; [reflexivity|]. split; [done|exact Hb].
Qed.

Lemma recv_resume_run (s : xst E) cur p : running s cur p → sys_recv_resume s = Ret 0 s.
Proof.
  intros R. unfold sys_recv_resume. run (mail_acquire_run s cur p R).
  erewrite bind_run; [|by apply mail_release_run]. cbv beta. unfold ret. f_equal.
  destruct R as [Hc _ _ _ Hm]. destruct s as [[] ? [] ? ? ? ? ?]. cbn in Hc, Hm. by subst.
Qed.

(** C40. A blocked receiver never gets its message. When [sys_recv] finds no
    message it sleeps; the [sys_send] that wakes it puts the message into
    [wait_msgs] and not into the mailbox; and the resumed [sys_recv] returns 0,
    success, without changing anything: the caller's memory is what it was. *)
Theorem blocked_recv_gets_nothing (s : xst E) cur p a :
  running s cur p → box_ok (buf s) → argptr (uproc_at s p) 0 MSGSIZE = Some a → argptr (uproc_at s p) 0 4 = Some a →
  my_slot (pid p) (dest (buf s)) = None → 0 <= pid p → pid p + 8 <= Z.of_nat NPROC →
  ∃ s1, sys_recv s = Sleep (ChPid (pid p)) s1 ∧ xmem s1 = xmem s ∧
    (∀ t cur' q sender c, running t cur' q → buf t = buf s1 →
       argint (uproc_at t q) 0 = Some sender → argint (uproc_at t q) 1 = Some (pid p) →
       argptr (uproc_at t q) 2 MSGSIZE = Some c →
       ∃ t1, sys_send junk t = Ret 0 t1 ∧ xmem t1 = xmem t ∧ pending (buf t1) = pending (buf s)) ∧
    (∀ r cur' q, running r cur' q → sys_recv_resume r = Ret 0 r).
Proof.
  intros R B Ha Ha4 Hn H0 H8.
  destruct (recv_sleeps_run s cur p a R B Ha Ha4 Hn H0 ltac:(lia)) as (t & w & E1 & Hw).
  eexists. split; [exact E1|]. split; [done|]. split; [|intros r cur' q; apply recv_resume_run].
  intros t' cur' q sender c R' Hb A0 A1 A2. cbn in Hb.
  assert (B' : box_ok (buf t')) by (rewrite Hb; split; cbn; rewrite ?length_insert; try apply B; done).
  destruct (send_wakes_run t' cur' q sender (pid p) c R' B' A0 A1 A2 H0 H8) as (t1 & w1 & E2 & _).
  { rewrite Hb. cbn. apply list_lookup_total_insert_eq. rewrite (bx_waiting _ B). lia. }
  eexists. split; [exact E2|]. split; [done|]. cbn. by rewrite Hb.
Qed.

(** [sys_send] with a full mailbox. *)
Lemma send_full_run (s : xst E) cur p sender rec :
  running s cur p → box_ok (buf s) →
  argint (uproc_at s p) 0 = Some sender → argint (uproc_at s p) 1 = Some rec → 0 <= rec < Z.of_nat NPROC →
  waiting (buf s) !!! Z.to_nat rec ≠ 1 → free_slot (dest (buf s)) = None →
  sys_send junk s = Ret (-1) (with_cpu cpu_off (set_buf (lock_box true) s)).
Proof.
  intros R B H0 H1 Hr Hw Hf. unfold sys_send. run (int_arg_run s cur p 0 sender R H0). run (int_arg_run s cur p 1 rec R H1).
  run (ptr_arg_run s cur p 2 MSGSIZE R). run (mail_acquire_run s cur p R).
  erewrite bind_run; [|apply get_waiting_run; cbn; rewrite (bx_waiting _ B); lia].
  cbn [waiting buf with_cpu set_buf lock_box]. rewrite (proj2 (Z.eqb_neq _ _) Hw). runs.
  cbn [dest buf with_cpu set_buf lock_box]. by rewrite Hf.
Qed.





(** A full mailbox stops the system: [sys_send] to a process that is not
    waiting returns -1 without giving up the mailbox lock and with interrupts
    off, so that the next [sys_send] of this process panics in [acquire]. *)
Theorem full_mailbox_keeps_lock (s : xst E) cur p sender rec :
  running s cur p → box_ok (buf s) →
  argint (uproc_at s p) 0 = Some sender → argint (uproc_at s p) 1 = Some rec → 0 <= rec < Z.of_nat NPROC →
  waiting (buf s) !!! Z.to_nat rec ≠ 1 → free_slot (dest (buf s)) = None →
  ∃ s', sys_send junk s = Ret (-1) s' ∧ memLock (buf s') = true ∧ fl_if (mycpu (xpt s')) = false ∧
    sys_send junk s' = Panic "acquire".
Proof.
  intros R B H0 H1 Hr Hw Hf. exists (with_cpu cpu_off (set_buf (lock_box true) s)). split_and!; try done.
  - by apply (send_full_run s cur p sender rec).
  - set (s1 := with_cpu _ _).
    pose proof (curproc_any s1 cur p (or_intror eq_refl) (ru_cur _ _ _ R) (ru_proc _ _ _ R)) as Ec.
    assert (Eu : ∀ n, int_arg junk n s1 = Ret (default junk (argint (uproc_at s1 p) n)) s1)
      by (intros n; unfold int_arg, uargs; run Ec; by runs).
    unfold sys_send. run (Eu 0). run (Eu 1). unfold ptr_arg, uargs. run Ec. runs.
    unfold acquire_lk, s1. destruct R as [Hc _ _ _ _]. destruct s as [[] ? [] ? ? ? ? ?]. reflexivity.
Qed.

End Box.

(** ** Examples *)

(** A process with pid [n] of one page, its stack at 0, and nothing in the
    mailbox. *)
Definition ex_proc (n : Z) : proc :=
  set_pid n (set_sz 4096 (set_state RUNNING proc_zero)).
Definition ex_ipc (n : Z) (m : mem) (b : locs) : xst Z :=
  XSt (PT false [ex_proc n] None 7 cpu_on (Some 0%nat) 0) m b false 0 0 [] [].

(** [send(3, 5, 100)], with "AAAAAAAA" at 100, and [recv(200)]. *)
Definition send_mem : mem := store32 (store32 (store32 (λ _, 65) 4 3) 8 5) 12 100.
Definition recv_mem : mem := store32 (λ _, 0) 4 200.

Lemma ex_running n m b : memLock b = false → running (ex_ipc n m b) 0 (ex_proc n).
Proof. by split. Qed.

Lemma init_box_ok : box_ok locs_init.
Proof. split; vm_compute; reflexivity. Qed.



Lemma blocked_recv_gets_nothing_witness :
  ∃ s1, sys_recv (ex_ipc 5 recv_mem locs_init) = Sleep (ChPid 5) s1 ∧ xmem s1 = recv_mem.
Proof.
  destruct (blocked_recv_gets_nothing 0 (ex_ipc 5 recv_mem locs_init) 0 (ex_proc 5) 200
    (ex_running 5 recv_mem locs_init eq_refl) init_box_ok) as (s1 & E & Hm & _); [vm_compute; done..|].
  exists s1. split; [exact E|exact Hm].
Defined.

Definition full_box : locs :=
  Locs false (replicate MSG_SP empty_msg) (replicate MSG_SP 1) (replicate MSG_SP 1) (replicate NPROC 0) (replicate NPROC 0).

Lemma full_mailbox_keeps_lock_witness :
  ∃ s', sys_send 0 (ex_ipc 3 send_mem full_box) = Ret (-1) s' ∧ memLock (buf s') = true.
Proof.
  destruct (full_mailbox_keeps_lock 0 (ex_ipc 3 send_mem full_box) 0 (ex_proc 3) 3 5 (ex_running 3 send_mem full_box eq_refl))
    as (s' & E & Hl & _); [split; vm_compute; done|vm_compute; done..|].
  exists s'. split; [exact E|exact Hl].
Defined.
