(* ===== verification/SignalProps.v ===== *)
(** * Signals: delivery and return

    What [checkTraps] does to a process it delivers a signal to, and what the
    call at the end of the handler makes of it. *)

From S2P Require Import Prelude Memory Spinlock Args Proc ProcInv ProcSteps FsBlocks Ipc Trap IpcProps.

(** ** Bytes of a trap frame *)

Definition tf_ok (t : trapframe) : Prop := Forall is_u32 (tf_words t).

Lemma length_tf_bytes t : length (tf_bytes t) = 76%nat.
Proof. done. Qed.

(** Two memories with the same [n] bytes at [a]. *)
Definition same_at (a n : Z) (m m' : mem) : Prop := ∀ x, a <= x < a + n → m' x = m x.

Lemma load_tf_ext m m' a : same_at a 76 m m' → load_tf m' a = load_tf m a.
Proof.
  intros H. unfold load_tf.
  f_equal; apply load32_ext; intros i Hi; apply H; lia.
Qed.

Lemma poke_in m a bs x :
  a <= x < a + Z.of_nat (length bs) → poke m a bs x = bs !!! Z.to_nat (x - a).
Proof. intros. unfold poke. by rewrite (proj2 (Z.leb_le _ _)), (proj2 (Z.ltb_lt _ _)) by lia. Qed.

Lemma poke_out m a bs x :
  x < a ∨ a + Z.of_nat (length bs) <= x → poke m a bs x = m x.
Proof. intros. unfold poke. zcases. Qed.

(** Word [k] of a list of words laid out in bytes. *)
Lemma words_lookup (ws : list Z) k i : (k < length ws)%nat → (i < 4)%nat →
  concat (map (λ w, map (byte_at w) [0; 1; 2; 3]) ws) !!! (4 * k + i)%nat = byte_at (ws !!! k) (Z.of_nat i).
Proof.
  revert k. induction ws as [|w ws IH]; intros k Hk Hi; [cbn in Hk; lia|].
  destruct k as [|k].
  - by destruct i as [|[|[|[|]]]]; try lia.
  - replace (4 * S k + i)%nat with (S (S (S (S (4 * k + i))))) by lia. cbn in Hk. apply IH; lia.
Qed.

Lemma load32_poke_words m a ws k : (k < length ws)%nat →
  load32 (poke m a (concat (map (λ w, map (byte_at w) [0; 1; 2; 3]) ws))) (a + 4 * Z.of_nat k) = u32 (ws !!! k).
Proof.
  intros Hk. rewrite <- bytes_of_word.
  assert (Hl : length (concat (map (λ w, map (byte_at w) [0; 1; 2; 3]) ws)) = (4 * length ws)%nat).
  { clear. induction ws as [|w ws IH]; [done|]. cbn in *. lia. }
  assert (H : ∀ i, 0 <= i < 4 → poke m a (concat (map (λ w, map (byte_at w) [0; 1; 2; 3]) ws))
    (a + 4 * Z.of_nat k + i) = byte_at (ws !!! k) i).
  { intros i Hi. rewrite poke_in by lia. replace i with (Z.of_nat (Z.to_nat i)) at 2 by lia.
    rewrite <- words_lookup by lia. f_equal. lia. }
  pose proof (H 0 ltac:(lia)) as H0. rewrite Z.add_0_r in H0.
  unfold load32. by rewrite H0, (H 1), (H 2), (H 3) by lia.
Qed.

(** A frame written to memory is read back. *)
Lemma load_tf_poke m a t : tf_ok t → load_tf (poke m a (tf_bytes t)) a = t.
Proof.
  intros Ht. unfold tf_ok in Ht.
  assert (H : ∀ k, (k < 19)%nat → load32 (poke m a (tf_bytes t)) (a + 4 * Z.of_nat k) = tf_words t !!! k).
  { intros k Hk. unfold tf_bytes. rewrite load32_poke_words by done. apply u32_small.
    rewrite Forall_lookup in Ht. apply (Ht k). by apply list_lookup_lookup_total_lt. }
  destruct t. unfold load_tf. cbv zeta.
  let go k := exact (H k ltac:(lia)) in
  f_equal; [go 0%nat|go 1%nat|go 2%nat|go 3%nat|go 4%nat|go 5%nat|go 6%nat|go 7%nat|go 8%nat|go 9%nat|go 10%nat|
    go 11%nat|go 12%nat|go 13%nat|go 14%nat|go 15%nat|go 16%nat|go 17%nat|go 18%nat].
Qed.

(** ** Running the calls *)

Section Signals.
Context {E : Type} `{!ProcRes E}.

Definition upd_proc (cur : nat) (f : proc → proc) (s : xst E) : xst E :=
  XSt (PT (pt_lock (xpt s)) (alter f cur (procs (xpt s))) (initproc (xpt s)) (nextpid (xpt s)) (mycpu (xpt s))
        (cproc (xpt s)) (env (xpt s)))
    (xmem s) (buf s) (ticks_lock s) (ticks s) (trace s) (countCalls s) (printed s).

Lemma upd_proc_run cur f (s : xst E) : on_pt (on_proc cur f) s = Ret tt (upd_proc cur f s).
Proof. by destruct s. Qed.

(** What the calls of this file need of the state: who runs, and on which side
    of [ptable.lock]. *)
Record at_proc (c : cpu) (s : xst E) (cur : nat) (p : proc) : Prop := {
  ap_cpu : mycpu (xpt s) = c;
  ap_ok : c = cpu_on ∨ c = cpu_off;
  ap_cur : cproc (xpt s) = Some cur;
  ap_proc : procs (xpt s) !! cur = Some p }.

Lemma running_at (s : xst E) cur p : running s cur p → at_proc cpu_on s cur p.
Proof. intros [? ? ? ? _]. split; auto. Qed.

Lemma myproc_at c (s : xst E) cur p : at_proc c s cur p → on_pt myproc s = Ret cur s.
Proof.
  intros [Hc Ho Hu _]. destruct s as [[] ? ? ? ? ? ? ?]. cbn in Hc, Hu. subst.
  unfold on_pt. cbn [xpt]. by rewrite myproc_run.
Qed.

Lemma the_proc_at c (s : xst E) cur p : at_proc c s cur p → on_pt (the_proc cur) s = Ret p s.
Proof.
  intros [_ _ _ Hp]. destruct s. unfold on_pt, the_proc, gets. cbn in *.
  by rewrite (list_lookup_total_correct _ _ _ Hp).
Qed.

Lemma at_upd c (s : xst E) cur p f : at_proc c s cur p → at_proc c (upd_proc cur f s) cur (f p).
Proof. intros [? ? ? Hp]. split; try done. cbn. by rewrite list_lookup_alter_eq, Hp. Qed.

Lemma at_mem c (s : xst E) cur p g : at_proc c s cur p → at_proc c (set_mem g s) cur p.
Proof. intros []. by split. Qed.

Lemma upd_set_mem cur f g (s : xst E) : upd_proc cur f (set_mem g s) = set_mem g (upd_proc cur f s).
Proof. done. Qed.

Lemma set_mem_twice f g (s : xst E) : set_mem f (set_mem g s) = set_mem (λ m, f (g m)) s.
Proof. done. Qed.

Lemma upd_twice cur f g (s : xst E) : upd_proc cur f (upd_proc cur g s) = upd_proc cur (λ p, f (g p)) s.
Proof.
  unfold upd_proc. cbn. do 2 f_equal. apply list_eq. intros i.
  destruct (decide (i = cur)) as [->|]; [|by rewrite !list_lookup_alter_ne].
  rewrite !list_lookup_alter_eq. by destruct (procs (xpt s) !! cur).
Qed.

Lemma upd_const c (s : xst E) cur p f : at_proc c s cur p → upd_proc cur f s = upd_proc cur (λ _, f p) s.
Proof.
  intros [_ _ _ Hp]. unfold upd_proc. do 2 f_equal. apply list_eq. intros i.
  destruct (decide (i = cur)) as [->|]; [|by rewrite !list_lookup_alter_ne].
  by rewrite !list_lookup_alter_eq, Hp.
Qed.

Lemma user_put_at c (s : xst E) cur p a bs :
  at_proc c s cur p → 0 <= a → a + Z.of_nat (length bs) <= sz p →
  user_put a bs s = Ret tt (set_mem (λ m, poke m a bs) s).
Proof.
  intros [Hc Ho Hu Hp] H0 Hsz. unfold user_put, user_range.
  assert (curproc s = Ret p s) as Ec by (apply (curproc_any s cur); [by subst c|done..]).
  rewrite (bind_run _ _ _ tt s); [done|]. run Ec. by rewrite !(proj2 (Z.leb_le _ _)) by lia.
Qed.

(** Where [checkTraps] puts things: the saved frame at [a], and below the
    stack pointer [e] the code of [invoke_sigret], the message and the return
    address of the handler, in this order of writing. *)
Definition sig_mem (p : proc) (m : mem) : mem :=
  let e := tf_esp (frame p) in
  poke (poke (poke (poke m (prev_tf p) (tf_bytes (frame p))) (e - 7) invoke_sigret) (e - 11) (message p))
    (e - 15) (map (byte_at (e - 7)) [0; 1; 2; 3]).

Definition sig_proc (p : proc) : proc :=
  set_message (<[0%nat := 255]> (message p))
    (set_frame (tf_set_esp_eip (tf_esp (frame p) - 15) (u32 (handler p)) (frame p)) (set_intr 0 (set_dis_sig 1 p))).

(** A signal is due, and the process has room for it. *)
Record sig_due (p : proc) : Prop := {
  sd_on : dis_sig p ≠ 1;
  sd_handler : handler p ≠ NOHANDLER;
  sd_new : s8 (message p !!! 0%nat) ≠ -1;
  sd_intr : intr p = 1;
  sd_len : length (message p) = 8%nat;
  sd_prev : 0 <= prev_tf p;
  sd_room : prev_tf p + 76 <= tf_esp (frame p) - 15;
  sd_stack : tf_esp (frame p) <= sz p;
  sd_sz : sz p < 2^32 }.

Lemma acquire_at (s : xst E) cur p :
  running s cur p → ∃ s1, on_pt acquire_pt s = Ret tt s1 ∧ at_proc cpu_off s1 cur p ∧ xmem s1 = xmem s ∧
    ∀ f g, on_pt release_pt (set_mem g (upd_proc cur f s1)) = Ret tt (set_mem g (upd_proc cur f s)).
Proof.
  intros [Hc Hu Hp Hl _]. destruct s as [[] ? ? ? ? ? ? ?]. cbn in Hc, Hu, Hp, Hl. subst.
  eexists. split; [unfold on_pt; cbn [xpt]; by rewrite acquire_run|]. split; [by split; auto|]. done.
Qed.

Lemma deliver_run (s : xst E) cur p cs :
  running s cur p → Z.land cs 3 = 3 → sig_due p →
  checkTraps cs s = Ret tt (set_mem (λ _, sig_mem p (xmem s)) (upd_proc cur (λ _, sig_proc p) s)).
Proof.
  intros R Hcs [D1 D2 D3 D4 D5 D6 D7 D8 D9].
  destruct (acquire_at s cur p R) as (s1 & Ea & A1 & Hm & Er). unfold checkTraps. rewrite Hcs. cbn [Z.eqb negb Pos.eqb].
  runs. rewrite (ru_cur _ _ _ R). run (myproc_at _ _ _ _ (running_at _ _ _ R)). run Ea. run (the_proc_at _ _ _ _ A1).
  rewrite (proj2 (Z.eqb_neq _ _) D1), (proj2 (Z.eqb_neq _ _) D2), (proj2 (Z.eqb_neq _ _) D3), D4. cbn [orb negb Z.eqb Pos.eqb].
  run (upd_proc_run cur (set_dis_sig 1) s1). run (upd_proc_run cur (set_intr 0) (upd_proc cur (set_dis_sig 1) s1)).
  change (Z.of_nat (length invoke_sigret)) with 7. cbv zeta.
  rewrite !(u32_small (tf_esp (frame p) - 7)) by lia.
  replace (tf_esp (frame p) - 7 - 4) with (tf_esp (frame p) - 11) by lia.
  replace (tf_esp (frame p) - 7 - 8) with (tf_esp (frame p) - 15) by lia. rewrite !u32_small by lia.
  pose proof (at_upd _ _ _ _ (set_intr 0) (at_upd _ _ _ _ (set_dis_sig 1) A1)) as A2.
  erewrite bind_run; [|eapply user_put_at; [exact A2|rewrite ?length_tf_bytes; cbn; lia..]]. apply (at_mem _ _ _ _ (λ m, poke m (prev_tf p) (tf_bytes (frame p)))) in A2.
  erewrite bind_run; [|eapply user_put_at; [exact A2|cbn; lia..]]. apply (at_mem _ _ _ _ (λ m, poke m (tf_esp (frame p) - 7) invoke_sigret)) in A2.
  erewrite bind_run; [|eapply user_put_at; [exact A2|cbn; lia..]]. apply (at_mem _ _ _ _ (λ m, poke m (tf_esp (frame p) - 11) (message p))) in A2.
  erewrite bind_run; [|eapply user_put_at; [exact A2|cbn; lia..]]. cbv beta.
  erewrite bind_run; [|apply upd_proc_run]. erewrite bind_run; [|apply upd_proc_run]. cbv beta.
  rewrite <- Er, !upd_set_mem, !set_mem_twice, !upd_twice, (upd_const _ _ _ _ _ A1), <- Hm. done.
Qed.

Lemma sigret_run (s : xst E) cur q :
  at_proc cpu_on s cur q → 0 <= prev_tf q → prev_tf q + 76 <= sz q →
  sys_sigret s = Ret 0 (upd_proc cur (λ _, set_dis_sig 0 (set_frame (load_tf (xmem s) (prev_tf q)) q)) s).
Proof.
  intros A H0 Hsz. unfold sys_sigret, proc_sigret.
  assert (Hr : user_range (prev_tf q) sizeof_trapframe s = Ret tt s).
  { destruct A as [Hc Ho Hu Hp]. unfold user_range.
    assert (curproc s = Ret q s) as Ec by (apply (curproc_any s cur); [by rewrite Hc|done..]).
    run Ec. by rewrite !(proj2 (Z.leb_le _ _)) by (unfold sizeof_trapframe; lia). }
  rewrite (bind_run _ _ _ tt (upd_proc cur (λ _, set_dis_sig 0 (set_frame (load_tf (xmem s) (prev_tf q)) q)) s)); [done|].
  run (myproc_at _ _ _ _ A). run (the_proc_at _ _ _ _ A). run Hr. runs.
  erewrite bind_run; [|apply upd_proc_run]. rewrite upd_proc_run, upd_twice. by rewrite (upd_const _ _ _ _ _ A).
Qed.

Lemma disabled_run (s : xst E) cur p cs : running s cur p → dis_sig p = 1 → checkTraps cs s = Ret tt s.
Proof.
  intros R Hd. unfold checkTraps. destruct (Z.land cs 3 =? 3); [|done]. cbn [negb]. runs.
  rewrite (ru_cur _ _ _ R). run (myproc_at _ _ _ _ (running_at _ _ _ R)).
  destruct (acquire_at s cur p R) as (s1 & Ea & A1 & Hm & Er). run Ea. run (the_proc_at _ _ _ _ A1). rewrite Hd.
  specialize (Er id id). cbn [Z.eqb Pos.eqb orb].
  replace (set_mem id (upd_proc cur id s1)) with s1 in Er; [rewrite Er|];
    (unfold upd_proc, set_mem, id; cbn; rewrite list_alter_id by done; by destruct s as [[]], s1 as [[]]).
Qed.

(** What the memory of the process has after delivery. *)
Lemma sig_mem_frame p m : sig_due p → tf_ok (frame p) → load_tf (sig_mem p m) (prev_tf p) = frame p.
Proof.
  intros [] Ht. etransitivity; [|exact (load_tf_poke m (prev_tf p) (frame p) Ht)]. apply load_tf_ext.
  intros x Hx. unfold sig_mem. by do 3 (rewrite poke_out; [|cbn; lia]).
Qed.

Lemma peek_ext m m' a n : (∀ k, (k < n)%nat → m' (a + Z.of_nat k) = m (a + Z.of_nat k)) → peek m' a n = peek m a n.
Proof. intros H. unfold peek. apply map_ext_in. intros k Hk. apply H. apply in_seq in Hk. lia. Qed.

Lemma sig_mem_stack p m : sig_due p →
  let e := tf_esp (frame p) in
  load32 (sig_mem p m) (e - 15) = e - 7 ∧ peek (sig_mem p m) (e - 11) 8 = message p ∧
  peek (sig_mem p m) (e - 3) 3 = [0; 0xcd; 64].
Proof.
  intros [D1 D2 D3 D4 D5 D6 D7 D8 D9] e. unfold sig_mem. fold e in D7, D8 |- *. split_and!.
  - pose proof (load32_poke_words
      (poke (poke (poke m (prev_tf p) (tf_bytes (frame p))) (e - 7) invoke_sigret) (e - 11) (message p))
      (e - 15) [e - 7] 0 ltac:(cbn; lia)) as H.
    rewrite Z.add_0_r in H. cbn [map concat app] in H. cbn [map]. rewrite H. apply u32_small. cbn. lia.
  - etransitivity; [|exact (peek_poke (poke (poke m (prev_tf p) (tf_bytes (frame p))) (e - 7) invoke_sigret)
      (e - 11) (message p))]. rewrite D5. apply peek_ext. intros k Hk. apply poke_out. cbn. lia.
  - erewrite peek_ext; [|intros k Hk; do 2 (rewrite poke_out; [|cbn; lia]); reflexivity].
    unfold peek. cbn [seq map]. rewrite !poke_in by (cbn; lia).
    replace (e - 3 + Z.of_nat 0 - (e - 7)) with 4 by lia. replace (e - 3 + Z.of_nat 1 - (e - 7)) with 5 by lia.
    replace (e - 3 + Z.of_nat 2 - (e - 7)) with 6 by lia. done.
Qed.

(** The running process after a step that changes it and its memory. *)
Lemma running_upd (s : xst E) cur p q g :
  running s cur p → running (set_mem g (upd_proc cur (λ _, q) s)) cur q.
Proof. intros [? ? Hp ? ?]. split; try done. cbn. by rewrite list_lookup_alter_eq, Hp. Qed.

(** The system call of [invoke_sigret], in a state whose memory has [t] where
    the frame was saved. *)
Definition SYS_sigret : Z := 30.

Lemma sigret_call_run (syscalls : Z → option (M (xst E) Z)) unknown (s : xst E) cur q t :
  running s cur q → 0 <= prev_tf q → prev_tf q + 76 <= sz q → load_tf (xmem s) (prev_tf q) = t →
  tf_eax (frame q) = SYS_sigret → syscalls SYS_sigret = Some sys_sigret →
  ∃ s', syscall syscalls unknown s = Ret tt s' ∧ xmem s' = xmem s ∧
    running s' cur (set_frame (tf_set_eax 0 t) (set_dis_sig 0 (set_frame t q))).
Proof.
  intros R H0 Hsz Ht Hn Hs. unfold syscall. run (curproc_run s cur q R). rewrite Hn.
  change (s32 SYS_sigret) with SYS_sigret. cbv zeta. change (_ && _) with true. cbv iota. rewrite Hs. runs.
  assert (∃ s1, (when trace s =? 1 do modify (λ s, set_calls (trace s)
      (alter (λ c, s32 (c + 1)) (Z.to_nat SYS_sigret) (countCalls s)) s)) s = Ret tt s1 ∧
    xmem s1 = xmem s ∧ running s1 cur q) as (s1 & E1 & Hm & R1).
  { destruct (trace s =? 1); eexists; (split; [reflexivity|]); [|done]. split; [done|]. by destruct R. }
  run E1. rewrite (bind_run _ _ _ _ _ (sigret_run s1 cur q (running_at _ _ _ R1) H0 Hsz)). rewrite Hm, Ht.
  unfold set_eax. pose proof (running_upd s1 cur q (set_dis_sig 0 (set_frame t q)) id R1) as R2.
  change (set_mem id (upd_proc cur (λ _, set_dis_sig 0 (set_frame t q)) s1))
    with (upd_proc cur (λ _, set_dis_sig 0 (set_frame t q)) s1) in R2.
  run (myproc_at _ _ _ _ (running_at _ _ _ R2)). rewrite upd_proc_run.
  eexists. split; [reflexivity|]. split; [done|].
  rewrite (upd_const _ _ _ _ _ (running_at _ _ _ R2)). exact (running_upd _ _ _ _ id R2).
Qed.

(** ** Claims *)

(** C38. A signal interrupts a process and the process goes on afterwards. A
    process that returns to user mode with a signal due starts its handler
    instead, with the stack pointer moved below what was written there, and
    gets no further signal; when the handler's code makes the [sigret] call
    with the saved frame intact, the process has the registers it was
    interrupted with again, except that [eax] is 0, the value the call
    returned: the frame [syscall] stores its result into is the restored one. *)
Theorem signal_interrupts_and_resumes (syscalls : Z → option (M (xst E) Z)) unknown (s : xst E) cur p cs :
  running s cur p → Z.land cs 3 = 3 → sig_due p → tf_ok (frame p) → syscalls SYS_sigret = Some sys_sigret →
  ∃ s1 p1, checkTraps cs s = Ret tt s1 ∧ running s1 cur p1 ∧
    tf_eip (frame p1) = u32 (handler p) ∧ tf_esp (frame p1) = tf_esp (frame p) - 15 ∧ dis_sig p1 = 1 ∧ intr p1 = 0 ∧
    (∀ x, tf_esp (frame p) <= x → xmem s1 x = xmem s x) ∧
    (∀ cs', checkTraps cs' s1 = Ret tt s1) ∧
    (∀ s2 q, running s2 cur q → prev_tf q = prev_tf p → sz q = sz p → tf_eax (frame q) = SYS_sigret →
       same_at (prev_tf p) 76 (xmem s1) (xmem s2) →
       ∃ s3 q3, syscall syscalls unknown s2 = Ret tt s3 ∧ xmem s3 = xmem s2 ∧ running s3 cur q3 ∧
         frame q3 = tf_set_eax 0 (frame p) ∧ dis_sig q3 = 0).
Proof.
  intros R Hcs D Ht Hs. pose proof (running_upd s cur p (sig_proc p) (λ _, sig_mem p (xmem s)) R) as R1.
  exists (set_mem (λ _, sig_mem p (xmem s)) (upd_proc cur (λ _, sig_proc p) s)), (sig_proc p).
  split; [exact (deliver_run s cur p cs R Hcs D)|]. split; [exact R1|]. do 4 (split; [done|]).
  split; [|split; [intros cs'; by eapply disabled_run|]].
  - intros x Hx. destruct D. cbn. unfold sig_mem. by do 4 (rewrite poke_out; [|rewrite ?length_tf_bytes; cbn; lia]).
  - intros s2 q R2 Hp Hz Ha Hm. pose proof (sig_mem_frame p (xmem s) D Ht) as Hf.
    destruct (sigret_call_run syscalls unknown s2 cur q (frame p)) as (s3 & E3 & Hm3 & R3); try done.
    + rewrite Hp. apply D.
    + destruct D. rewrite Hp, Hz. lia.
    + rewrite Hp, (load_tf_ext _ _ _ Hm). done.
    + by eexists s3, _.
Qed.

(** The handler of a signal returns into the message. Its return address
    is where the code of [invoke_sigret] was put, but the eight bytes of the
    message were written four bytes below it and cover the first four of that
    code: what is there is the second half of the message and the last three
    bytes of the code. It is the code of the call only for the one message
    text that repeats it. The word the handler takes for its [char *] argument
    is the first four bytes of the message themselves. *)
Theorem handler_returns_into_message (s : xst E) cur p cs :
  running s cur p → Z.land cs 3 = 3 → sig_due p →
  ∃ s1 p1, checkTraps cs s = Ret tt s1 ∧ running s1 cur p1 ∧
    let e := tf_esp (frame p1) in let r := load32 (xmem s1) e in
    peek (xmem s1) r 7 = drop 4 (message p) ++ [0; 0xcd; 64] ∧
    (peek (xmem s1) r 7 = invoke_sigret ↔ drop 4 (message p) = take 4 invoke_sigret) ∧
    peek (xmem s1) (e + 4) 4 = take 4 (message p).
Proof.
  intros R Hcs D. pose proof (running_upd s cur p (sig_proc p) (λ _, sig_mem p (xmem s)) R) as R1.
  exists (set_mem (λ _, sig_mem p (xmem s)) (upd_proc cur (λ _, sig_proc p) s)), (sig_proc p).
  split; [exact (deliver_run s cur p cs R Hcs D)|]. split; [exact R1|]. cbv zeta.
  change (tf_esp (frame (sig_proc p))) with (tf_esp (frame p) - 15).
  change (xmem (set_mem _ _)) with (sig_mem p (xmem s)).
  destruct (sig_mem_stack p (xmem s) D) as (Hr & Hm & Hc). rewrite Hr.
  replace (tf_esp (frame p) - 15 + 4) with (tf_esp (frame p) - 11) by lia.
  assert (H7 : peek (sig_mem p (xmem s)) (tf_esp (frame p) - 7) 7 = drop 4 (message p) ++ [0; 0xcd; 64]).
  { rewrite <- Hm, <- Hc. unfold peek. cbn [seq map drop app]. by repeat (apply f_equal2; [apply f_equal; lia|]). }
  split; [exact H7|]. split.
  - rewrite H7. change invoke_sigret with (take 4 invoke_sigret ++ [0; 0xcd; 64]) at 1. split; [|by intros ->].
    intros H. by apply app_inv_tail in H.
  - rewrite <- Hm. unfold peek. done.
Qed.

(** C39. [sigret] trusts the process: whatever nineteen words the process has
    at the address where its frame would be saved become its trap frame, code
    segment and flags included, whether or not a signal was delivered. *)
Theorem sigret_takes_any_frame (s : xst E) cur p t :
  running s cur p → 0 <= prev_tf p → prev_tf p + 76 <= sz p → tf_ok t →
  ∃ s', sys_sigret (set_mem (λ m, poke m (prev_tf p) (tf_bytes t)) s) = Ret 0 s' ∧
    ∃ q, running s' cur q ∧ frame q = t.
Proof.
  intros R H0 Hsz Ht. pose proof (at_mem _ _ _ _ (λ m, poke m (prev_tf p) (tf_bytes t)) (running_at _ _ _ R)) as A.
  eexists. split; [exact (sigret_run _ cur p A H0 Hsz)|]. cbn [xmem set_mem]. rewrite (load_tf_poke _ _ _ Ht).
  eexists. split; [exact (running_upd s cur p _ (λ m, poke m (prev_tf p) (tf_bytes t)) R)|]. done.
Qed.

End Signals.

(** ** Examples *)

(** A process of one page that loops at 0x40 with its stack at 0x800 and has
    the message "MultMsg" due for its handler at 0x100. *)
Definition ex_frame : trapframe := TF 0 0 0 0 0 0 0 7 0 0 0x23 0x23 32 0 0x40 0x1b 0x200 0x800 0x23.
Definition ex_sig : proc :=
  set_message [77; 117; 108; 116; 77; 115; 103; 0]
    (set_intr 1 (set_handler 0x100 (set_dis_sig 0 (set_frame ex_frame (ex_proc 5))))).
Definition ex_sig_state : xst Z :=
  XSt (PT false [ex_sig] None 7 cpu_on (Some 0%nat) 0) (λ _, 0) locs_init false 0 0 [] [].

Lemma ex_sig_running : running ex_sig_state 0 ex_sig.
Proof. by split. Qed.

Lemma ex_sig_due : sig_due ex_sig.
Proof. by split; vm_compute. Qed.

Lemma ex_frame_ok : tf_ok ex_frame.
Proof. unfold tf_ok. repeat constructor; vm_compute; done. Qed.

Lemma signal_interrupts_and_resumes_witness :
  ∃ s1 p1, checkTraps 0x1b ex_sig_state = Ret tt s1 ∧ running s1 0 p1 ∧ tf_eip (frame p1) = 0x100.
Proof.
  destruct (signal_interrupts_and_resumes (λ n, if n =? 30 then Some sys_sigret else None) (λ _ _, [])
    ex_sig_state 0 ex_sig 0x1b ex_sig_running eq_refl ex_sig_due ex_frame_ok eq_refl) as (s1 & p1 & E1 & R1 & He & _).
  exists s1, p1. split; [exact E1|]. split; [exact R1|exact He].
Defined.

Lemma handler_returns_into_message_witness :
  ∃ s1 p1, checkTraps 0x1b ex_sig_state = Ret tt s1 ∧ running s1 0 p1 ∧
    peek (xmem s1) (load32 (xmem s1) (tf_esp (frame p1))) 7 = [77; 115; 103; 0; 0; 0xcd; 64].
Proof.
  destruct (handler_returns_into_message ex_sig_state 0 ex_sig 0x1b ex_sig_running eq_refl ex_sig_due)
    as (s1 & p1 & E1 & R1 & H7 & _).
  exists s1, p1. split; [exact E1|]. split; [exact R1|exact H7].
Defined.

(** A frame with the kernel's code segment and every I/O privilege. *)
Lemma sigret_takes_any_frame_witness :
  ∃ s' q, sys_sigret (set_mem (λ m, poke m 0
      (tf_bytes (TF 0 0 0 0 0 0 0 0 0 0 0x10 0x10 0 0 0x40 8 0x3200 0x800 0x10))) ex_sig_state) = Ret 0 s' ∧
    running s' 0 q ∧ tf_cs (frame q) = 8.
Proof.
  destruct (sigret_takes_any_frame ex_sig_state 0 ex_sig
    (TF 0 0 0 0 0 0 0 0 0 0 0x10 0x10 0 0 0x40 8 0x3200 0x800 0x10) ex_sig_running) as (s' & E1 & q & R & Hf).
  - vm_compute. done.
  - vm_compute. done.
  - unfold tf_ok. repeat constructor; vm_compute; done.
  - exists s', q. split; [exact E1|]. split; [exact R|]. by rewrite Hf.
Defined.
