(* ===== verification/Vm.v ===== *)
(** * Address spaces (xv6A1/vm.c, mmu.h)

    Two-level page tables in the byte memory of the page allocator. A page
    directory and its page tables are pages like any other; an entry is a
    32-bit word holding a physical page address and flags. *)

From S2P Require Import Prelude Memory KString Spinlock Kalloc Proc.

Definition PTXSHIFT : Z := 12.
Definition PDXSHIFT : Z := 22.
Definition NPDENTRIES : Z := 1024.

Definition PDX (va : Z) : Z := Z.land (Z.shiftr (u32 va) PDXSHIFT) 0x3FF.
Definition PTX (va : Z) : Z := Z.land (Z.shiftr (u32 va) PTXSHIFT) 0x3FF.
Definition PGADDR (d t o : Z) : Z := u32 (Z.lor (Z.lor (Z.shiftl d PDXSHIFT) (Z.shiftl t PTXSHIFT)) o).

Definition PTE_P : Z := 0x001.
Definition PTE_W : Z := 0x002.
Definition PTE_U : Z := 0x004.

Definition PTE_ADDR (pte : Z) : Z := Z.land (u32 pte) (u32 (Z.lnot 0xFFF)).
Definition PTE_FLAGS (pte : Z) : Z := Z.land (u32 pte) 0xFFF.

(** [pte & f] as a condition. *)
Definition has (pte f : Z) : bool := negb (Z.land pte f =? 0).

Section Vm.

(** The linker's [end] and [data]. *)
Context (kend data : Z).

Definition word (a : Z) : M kstate Z := gets (λ s, load32 (kmem s) a).

Definition on_mem (f : mem → mem) : M kstate unit :=
  modify (λ s, KState (kmem_lock s) (use_lock s) (freelist s) (f (kmem s))).

Definition set_word (a v : Z) : M kstate unit := on_mem (λ m, store32 m a v).

Definition walkpgdir (pgdir va : Z) (alloc : bool) : M kstate Z :=
  let pde := pgdir + 4 * PDX va in
  e <- word pde ;;
  if has e PTE_P then
    ret (P2V (PTE_ADDR e) + 4 * PTX va)
  else if negb alloc then ret 0
  else
    pgtab <- kalloc ;;
    if pgtab =? 0 then ret 0 else
    on_mem (λ m, memset m pgtab 0 PGSIZE) ;;;
    set_word pde (Z.lor (Z.lor (Z.lor (V2P pgtab) PTE_P) PTE_W) PTE_U) ;;;
    ret (pgtab + 4 * PTX va).

Fixpoint mappages_loop (fuel : nat) (pgdir a last pa perm : Z) : M kstate Z :=
  match fuel with
  | O => fault "out of fuel"
  | S fuel' =>
      pte <- walkpgdir pgdir a true ;;
      if pte =? 0 then ret (-1) else
      e <- word pte ;;
      if has e PTE_P then panic "remap" else
      set_word pte (Z.lor (Z.lor pa perm) PTE_P) ;;;
      if a =? last then ret 0
      else mappages_loop fuel' pgdir (u32 (a + PGSIZE)) last (u32 (pa + PGSIZE)) perm
  end.

(** The loop visits at most the 2^20 pages of the address space. *)
Definition mappages (pgdir va size pa perm : Z) : M kstate Z :=
  let a := PGROUNDDOWN va in
  let last := PGROUNDDOWN (u32 (va + size - 1)) in
  mappages_loop (Z.to_nat (1 + u32 (last - a) / PGSIZE)) pgdir a last pa perm.

Fixpoint deallocuvm_loop (fuel : nat) (pgdir a oldsz : Z) : M kstate unit :=
  if a <? oldsz then
    match fuel with
    | O => fault "out of fuel"
    | S fuel' =>
        pte <- walkpgdir pgdir a false ;;
        if pte =? 0 then
          deallocuvm_loop fuel' pgdir (u32 (u32 (PGADDR (PDX a + 1) 0 0 - PGSIZE) + PGSIZE)) oldsz
        else
          e <- word pte ;;
          (if has e PTE_P then
             let pa := PTE_ADDR e in
             if pa =? 0 then panic "kfree" else
             kfree kend (P2V pa) ;;;
             set_word pte 0
           else ret tt) ;;;
          deallocuvm_loop fuel' pgdir (u32 (a + PGSIZE)) oldsz
    end
  else ret tt.

Definition deallocuvm (pgdir oldsz newsz : Z) : M kstate Z :=
  if oldsz <=? newsz then ret oldsz else
  let a := PGROUNDUP newsz in
  deallocuvm_loop (Z.to_nat (1 + oldsz / PGSIZE)) pgdir a oldsz ;;;
  ret newsz.

Fixpoint allocuvm_loop (fuel : nat) (pgdir oldsz newsz a : Z) : M kstate Z :=
  if a <? newsz then
    match fuel with
    | O => fault "out of fuel"
    | S fuel' =>
        mem <- kalloc ;;
        if mem =? 0 then
          deallocuvm pgdir newsz oldsz ;;;
          ret 0
        else
        on_mem (λ m, memset m mem 0 PGSIZE) ;;;
        r <- mappages pgdir a PGSIZE (V2P mem) (Z.lor PTE_W PTE_U) ;;
        if r <? 0 then
          deallocuvm pgdir newsz oldsz ;;;
          kfree kend mem ;;;
          ret 0
        else allocuvm_loop fuel' pgdir oldsz newsz (u32 (a + PGSIZE))
    end
  else ret newsz.

Definition allocuvm (pgdir oldsz newsz : Z) : M kstate Z :=
  if KERNBASE <=? newsz then ret 0 else
  if newsz <? oldsz then ret oldsz else
  allocuvm_loop (Z.to_nat (1 + newsz / PGSIZE)) pgdir oldsz newsz (PGROUNDUP oldsz).

(** The loop of [freevm] over the directory. *)
Definition free_tables (pgdir : Z) : M kstate unit :=
  for_all (seqZ 0 NPDENTRIES) (λ i,
    e <- word (pgdir + 4 * i) ;;
    when has e PTE_P do kfree kend (P2V (PTE_ADDR e))).

Definition freevm (pgdir : Z) : M kstate unit :=
  if pgdir =? 0 then panic "freevm: no pgdir" else
  deallocuvm pgdir KERNBASE 0 ;;;
  free_tables pgdir ;;;
  kfree kend pgdir.

(** [struct kmap] and the table of the kernel's mappings. *)
Record kmap_entry := Kmap { virt : Z; phys_start : Z; phys_end : Z; kperm : Z }.

Definition kmap : list kmap_entry :=
  [ Kmap KERNBASE 0 EXTMEM PTE_W;
    Kmap KERNLINK (V2P KERNLINK) (V2P data) 0;
    Kmap data (V2P data) PHYSTOP PTE_W;
    Kmap DEVSPACE DEVSPACE 0 PTE_W ].

(** The loop of [setupkvm] over [kmap]. *)
Fixpoint map_kernel (pgdir : Z) (ks : list kmap_entry) : M kstate Z :=
  match ks with
  | [] => ret pgdir
  | k :: ks' =>
      r <- mappages pgdir (virt k) (u32 (phys_end k - phys_start k)) (phys_start k) (kperm k) ;;
      if r <? 0 then freevm pgdir ;;; ret 0
      else map_kernel pgdir ks'
  end.

Definition setupkvm : M kstate Z :=
  pgdir <- kalloc ;;
  if pgdir =? 0 then ret 0 else
  on_mem (λ m, memset m pgdir 0 PGSIZE) ;;;
  if DEVSPACE <? P2V PHYSTOP then panic "PHYSTOP too high" else
  map_kernel pgdir kmap.

(** [init] is the initial program, in memory at address [init]. *)
Definition inituvm (pgdir init sz : Z) : M kstate unit :=
  if PGSIZE <=? sz then panic "inituvm: more than a page" else
  mem <- kalloc ;;
  on_mem (λ m, memset m mem 0 PGSIZE) ;;;
  mappages pgdir 0 PGSIZE (V2P mem) (Z.lor PTE_W PTE_U) ;;;
  on_mem (λ m, memmove m mem init sz).

(** [readi] reads [n] bytes of the program file from an offset to an address. *)
Fixpoint loaduvm_loop (fuel : nat) (readi : Z → Z → Z → M kstate Z) (pgdir addr offset sz i : Z) : M kstate Z :=
  if i <? sz then
    match fuel with
    | O => fault "out of fuel"
    | S fuel' =>
        pte <- walkpgdir pgdir (u32 (addr + i)) false ;;
        if pte =? 0 then panic "loaduvm: address should exist" else
        e <- word pte ;;
        let pa := PTE_ADDR e in
        let n := if sz - i <? PGSIZE then sz - i else PGSIZE in
        r <- readi (P2V pa) (u32 (offset + i)) n ;;
        if negb (r =? n) then ret (-1)
        else loaduvm_loop fuel' readi pgdir addr offset sz (u32 (i + PGSIZE))
    end
  else ret 0.

Definition loaduvm (readi : Z → Z → Z → M kstate Z) (pgdir addr offset sz : Z) : M kstate Z :=
  if negb (addr mod PGSIZE =? 0) then panic "loaduvm: addr must be page aligned" else
  loaduvm_loop (Z.to_nat (1 + sz / PGSIZE)) readi pgdir addr offset sz 0.

Definition clearpteu (pgdir uva : Z) : M kstate unit :=
  pte <- walkpgdir pgdir uva false ;;
  if pte =? 0 then panic "clearpteu" else
  e <- word pte ;;
  set_word pte (Z.land e (u32 (Z.lnot PTE_U))).

Fixpoint copyuvm_loop (fuel : nat) (pgdir sz d i : Z) : M kstate Z :=
  if i <? sz then
    match fuel with
    | O => fault "out of fuel"
    | S fuel' =>
        pte <- walkpgdir pgdir i false ;;
        if pte =? 0 then panic "copyuvm: pte should exist" else
        e <- word pte ;;
        if negb (has e PTE_P) then panic "copyuvm: page not present" else
        let pa := PTE_ADDR e in
        let flags := PTE_FLAGS e in
        mem <- kalloc ;;
        if mem =? 0 then freevm d ;;; ret 0 else
        on_mem (λ m, memmove m mem (P2V pa) PGSIZE) ;;;
        r <- mappages d i PGSIZE (V2P mem) flags ;;
        if r <? 0 then
          kfree kend mem ;;;
          freevm d ;;;
          ret 0
        else copyuvm_loop fuel' pgdir sz d (u32 (i + PGSIZE))
    end
  else ret d.

Definition copyuvm (pgdir sz : Z) : M kstate Z :=
  d <- setupkvm ;;
  if d =? 0 then ret 0 else
  copyuvm_loop (Z.to_nat (1 + sz / PGSIZE)) pgdir sz d 0.

(** A null result of [walkpgdir] is dereferenced. *)
Definition uva2ka (pgdir uva : Z) : M kstate Z :=
  pte <- walkpgdir pgdir uva false ;;
  if pte =? 0 then fault "uva2ka: null pte" else
  e <- word pte ;;
  if negb (has e PTE_P) then ret 0 else
  if negb (has e PTE_U) then ret 0 else
  ret (P2V (PTE_ADDR e)).

Fixpoint copyout_loop (fuel : nat) (pgdir va buf len : Z) : M kstate Z :=
  if 0 <? len then
    match fuel with
    | O => fault "out of fuel"
    | S fuel' =>
        let va0 := PGROUNDDOWN va in
        pa0 <- uva2ka pgdir va0 ;;
        if pa0 =? 0 then ret (-1) else
        let n := PGSIZE - (va - va0) in
        let n := if len <? n then len else n in
        on_mem (λ m, memmove m (pa0 + (va - va0)) buf n) ;;;
        copyout_loop fuel' pgdir (u32 (va0 + PGSIZE)) (buf + n) (len - n)
    end
  else ret 0.

(** Every iteration but the first and the last copies a whole page. *)
Definition copyout (pgdir va p len : Z) : M kstate Z :=
  copyout_loop (Z.to_nat (2 + len / PGSIZE)) pgdir va p len.

End Vm.
