(* ===== verification/VmTables.v ===== *)
(** * Page tables: representation and invariant

    What the words of a page directory and its tables mean, which pages an
    address space owns, and how storing an entry or adding a table changes
    that. *)

From S2P Require Import Prelude Memory KString Spinlock Kalloc Proc Vm.

(** ** Entries *)

Lemma land_3ff x : 0 <= x → Z.land x 0x3FF = x mod 1024.
Proof. intros. change 0x3FF with (Z.ones 10). by rewrite Z.land_ones by lia. Qed.

Lemma PDX_eq va : 0 <= va < 2^32 → PDX va = va / PGSIZE / 1024.
Proof.
  intros H. unfold PDX, PDXSHIFT. rewrite u32_small, Z.shiftr_div_pow2 by lia.
  rewrite land_3ff by (apply Z.div_pos; lia). unfold PGSIZE. Z.div_mod_to_equations. lia.
Qed.

Lemma PTX_eq va : 0 <= va < 2^32 → PTX va = (va / PGSIZE) mod 1024.
Proof.
  intros H. unfold PTX, PTXSHIFT. rewrite u32_small, Z.shiftr_div_pow2 by lia.
  by rewrite land_3ff by (apply Z.div_pos; lia).
Qed.

Lemma PTE_ADDR_eq e : 0 <= e < 2^32 → PTE_ADDR e = e / PGSIZE * PGSIZE.
Proof. intros H. unfold PTE_ADDR. rewrite u32_small by lia. by apply land_page_mask. Qed.

Lemma PTE_ADDR_lor pa f :
  0 <= pa < 2^32 → pa mod PGSIZE = 0 → 0 <= f < PGSIZE → PTE_ADDR (Z.lor pa f) = pa.
Proof.
  intros Hpa Ha Hf. unfold PTE_ADDR, PGSIZE in *.
  assert (0 <= Z.lor pa f < 2^32) as Hr.
  { split; [apply Z.lor_nonneg; lia|]. apply Z.log2_lt_cancel. rewrite Z.log2_lor by lia.
    change (Z.log2 (2^32)) with 32. apply Z.max_lub_lt.
    - destruct (Z.eq_dec pa 0) as [->|]; [done|]. apply Z.log2_lt_pow2; lia.
    - destruct (Z.eq_dec f 0) as [->|]; [done|]. apply Z.log2_lt_pow2; lia. }
  rewrite u32_small by done. rewrite Z.land_lor_distr_l.
  change 0xFFF with (PGSIZE - 1). rewrite !land_page_mask by lia. unfold PGSIZE.
  rewrite (Z.div_small f 4096) by lia. rewrite Z.lor_0_r. Z.div_mod_to_equations. lia.
Qed.

Lemma PTE_FLAGS_lor pa f :
  0 <= pa < 2^32 → pa mod PGSIZE = 0 → 0 <= f < PGSIZE → PTE_FLAGS (Z.lor pa f) = f.
Proof.
  intros Hpa Ha Hf. unfold PTE_FLAGS, u32, PGSIZE in *.
  change 0xFFF with (Z.ones 12). rewrite <- (Z.land_ones (Z.lor pa f) 32), <- Z.land_assoc by lia.
  change (Z.land (Z.ones 32) (Z.ones 12)) with (Z.ones 12).
  rewrite Z.land_lor_distr_l, !Z.land_ones by lia. change (2^12) with 4096.
  by rewrite Ha, Z.lor_0_l, Z.mod_small.
Qed.

Lemma has_testbit e : has e PTE_P = Z.testbit e 0.
Proof.
  unfold has, PTE_P. change 1 with (Z.ones 1). rewrite Z.land_ones by lia. change (2^1) with 2.
  rewrite Zmod_odd, Z.bit0_odd. by destruct (Z.odd e).
Qed.

Lemma has_lor_P x : has (Z.lor x PTE_P) PTE_P = true.
Proof. by rewrite has_testbit, Z.lor_spec, orb_true_r. Qed.

Lemma has_zero : has 0 PTE_P = false.
Proof. done. Qed.

(** Flags that fit the low bits of an entry. *)
Definition flags_ok (f : Z) : Prop := 0 <= f < PGSIZE.

Lemma flags_ok_lor f g : flags_ok f → flags_ok g → flags_ok (Z.lor f g).
Proof.
  unfold flags_ok, PGSIZE. intros Hf Hg. split; [apply Z.lor_nonneg; lia|].
  apply Z.log2_lt_cancel. rewrite Z.log2_lor by lia. change (Z.log2 4096) with 12.
  apply Z.max_lub_lt.
  - destruct (Z.eq_dec f 0) as [->|]; [done|]. apply (Z.log2_lt_pow2 f 12); lia.
  - destruct (Z.eq_dec g 0) as [->|]; [done|]. apply (Z.log2_lt_pow2 g 12); lia.
Qed.

Lemma entry_range pa f : 0 <= pa < 2^32 → flags_ok f → 0 <= Z.lor pa f < 2^32.
Proof.
  unfold flags_ok, PGSIZE. intros Hp Hf. split; [apply Z.lor_nonneg; lia|].
  apply Z.log2_lt_cancel. rewrite Z.log2_lor by lia. change (Z.log2 (2^32)) with 32.
  apply Z.max_lub_lt.
  - destruct (Z.eq_dec pa 0) as [->|]; [done|]. apply Z.log2_lt_pow2; lia.
  - destruct (Z.eq_dec f 0) as [->|]; [done|]. apply Z.log2_lt_pow2; lia.
Qed.

(** ** The tables in memory *)

Definition pde (m : mem) (dir d : Z) : Z := load32 m (dir + 4 * d).
Definition tabof (m : mem) (dir d : Z) : Z := P2V (PTE_ADDR (pde m dir d)).

(** The entry for page number [v], as the MMU finds it; 0 without a table. *)
Definition pte (m : mem) (dir v : Z) : Z :=
  if has (pde m dir (v / 1024)) PTE_P then load32 m (tabof m dir (v / 1024) + 4 * (v mod 1024)) else 0.

Definition upg (m : mem) (dir v : Z) : Z := P2V (PTE_ADDR (pte m dir v)).

(** Directory and tables; user pages; both. *)
Definition tpage (m : mem) (dir p : Z) : Prop :=
  p = dir ∨ ∃ d, 0 <= d < 1024 ∧ has (pde m dir d) PTE_P = true ∧ p = tabof m dir d.

Definition upage (m : mem) (dir v p : Z) : Prop :=
  0 <= v < 2^19 ∧ has (pte m dir v) PTE_P = true ∧ p = upg m dir v.

Definition owns (m : mem) (dir p : Z) : Prop := tpage m dir p ∨ ∃ v, upage m dir v p.

Section Tables.
Context (kend : Z).

Record vm_ok (s : kstate) (free : list Z) (dir : Z) : Prop := {
  vo_k : kinv kend s free;
  vo_page : ∀ p, owns (kmem s) dir p → page_ok kend p ∧ p ∉ free;
  vo_tdir : ∀ d, 0 <= d < 1024 → has (pde (kmem s) dir d) PTE_P = true → tabof (kmem s) dir d ≠ dir;
  vo_tinj : ∀ d d', 0 <= d < 1024 → 0 <= d' < 1024 →
    has (pde (kmem s) dir d) PTE_P = true → has (pde (kmem s) dir d') PTE_P = true →
    tabof (kmem s) dir d = tabof (kmem s) dir d' → d = d';
  vo_uinj : ∀ v v' p, upage (kmem s) dir v p → upage (kmem s) dir v' p → v = v';
  vo_disj : ∀ v p, upage (kmem s) dir v p → ¬ tpage (kmem s) dir p }.

Lemma page_ok_kern v :
  page_ok kend v → v mod PGSIZE = 0 ∧ KERNBASE <= v < KERNBASE + PHYSTOP ∧ V2P v = v - KERNBASE.
Proof.
  intros (Ha & _ & Hp & Hr). unfold V2P, u32, KERNBASE, PHYSTOP in *. split; [done|].
  Z.div_mod_to_equations. lia.
Qed.

Lemma frame_of_entry v f : page_ok kend v → flags_ok f → P2V (PTE_ADDR (Z.lor (V2P v) f)) = v.
Proof.
  intros (Ha & Hv & ->)%page_ok_kern Hf. unfold KERNBASE, PHYSTOP, PGSIZE in *.
  rewrite PTE_ADDR_lor; unfold PGSIZE; [|Z.div_mod_to_equations; lia..|done].
  unfold P2V, u32, KERNBASE. Z.div_mod_to_equations; lia.
Qed.

Lemma V2P_range v : page_ok kend v → 0 <= V2P v < 2^32 ∧ V2P v mod PGSIZE = 0.
Proof.
  intros (Ha & Hv & ->)%page_ok_kern. unfold KERNBASE, PHYSTOP, PGSIZE in *. Z.div_mod_to_equations; lia.
Qed.

(** ** Memory changes *)

(** [m'] has the words of [m] in page [p]. *)
Definition same_page (m m' : mem) (p : Z) : Prop := ∀ x, in_page p x → m' x = m x.

Lemma same_page_load m m' p i :
  same_page m m' p → 0 <= i < 1024 → load32 m' (p + 4 * i) = load32 m (p + 4 * i).
Proof. intros H Hi. apply load32_ext. intros j Hj. apply H. unfold in_page, PGSIZE. lia. Qed.

Lemma vdiv v : 0 <= v < 2^20 → 0 <= v / 1024 < 1024 ∧ 0 <= v mod 1024 < 1024.
Proof. intros. Z.div_mod_to_equations. lia. Qed.

Lemma same_pde m m' dir d : same_page m m' dir → 0 <= d < 1024 → pde m' dir d = pde m dir d.
Proof. apply same_page_load. Qed.

Lemma same_tables m m' dir :
  (∀ p, tpage m dir p → same_page m m' p) →
  (∀ d, 0 <= d < 1024 → pde m' dir d = pde m dir d) ∧
  (∀ d, 0 <= d < 1024 → tabof m' dir d = tabof m dir d) ∧
  (∀ v, 0 <= v < 2^20 → pte m' dir v = pte m dir v) ∧
  (∀ p, tpage m' dir p ↔ tpage m dir p) ∧ (∀ v p, upage m' dir v p ↔ upage m dir v p).
Proof.
  intros H.
  assert (Hd : ∀ d, 0 <= d < 1024 → pde m' dir d = pde m dir d).
  { intros d Hd. apply same_pde; [|done]. apply H. by left. }
  assert (Ht : ∀ d, 0 <= d < 1024 → tabof m' dir d = tabof m dir d).
  { intros d ?. unfold tabof. by rewrite Hd. }
  assert (Hv : ∀ v, 0 <= v < 2^20 → pte m' dir v = pte m dir v).
  { intros v Hv. destruct (vdiv v Hv) as [H1 H2]. unfold pte. rewrite Hd, Ht by done.
    destruct (has _ _) eqn:Eh; [|done]. apply same_page_load; [|done]. apply H. right. eauto. }
  split_and!; try done.
  - intros p. unfold tpage. split; (intros [->|(d & Hr & Hp & ->)]; [by left|right; exists d]);
      [rewrite Hd in Hp by done; rewrite Ht by done|rewrite Hd, Ht by done]; done.
  - intros v p. unfold upage, upg. split; intros (Hr & Hp & ->);
      [rewrite Hv in Hp |- * by lia|rewrite Hv by lia]; done.
Qed.

(** Two distinct owned or free pages do not overlap. *)
Lemma page_apart p q x : page_ok kend p → page_ok kend q → p ≠ q → in_page p x → ¬ in_page q x.
Proof. intros (Hp & _) (Hq & _). by apply pages_disjoint. Qed.

Lemma store_same_page m a e p q :
  page_ok kend p → page_ok kend q → p ≠ q → (∀ j, 0 <= j < 4 → in_page q (a + j)) → same_page m (store32 m a e) p.
Proof.
  intros Hp Hq Hne Ha x Hx. unfold store32.
  destruct (Z.leb_spec a x), (Z.ltb_spec x (a + 4)); cbn; try done.
  destruct (page_apart p q x Hp Hq Hne Hx). replace x with (a + (x - a)) by lia. apply Ha. lia.
Qed.

(** [m'] differs from [m] only in pages in [P]. *)
Definition only_pages (P : Z → Prop) (m m' : mem) : Prop :=
  ∀ x, (∀ p, P p → ¬ in_page p x) → m' x = m x.

Lemma only_same (P : Z → Prop) m m' q :
  only_pages P m m' → page_ok kend q → (∀ p, P p → page_ok kend p ∧ p ≠ q) → same_page m m' q.
Proof.
  intros Ho Hq HP x Hx. apply Ho. intros p Hp. destruct (HP p Hp) as [Hpo Hne].
  by apply (page_apart q p).
Qed.

Lemma only_trans P Q R m1 m2 m3 :
  only_pages P m1 m2 → only_pages Q m2 m3 → (∀ p, P p ∨ Q p → R p) → only_pages R m1 m3.
Proof. intros H1 H2 HR x Hx. rewrite H2, H1; [done|..]; intros p Hp; apply Hx, HR; auto. Qed.

Lemma only_store m a e q : (∀ j, 0 <= j < 4 → in_page q (a + j)) → only_pages (λ p, p = q) m (store32 m a e).
Proof.
  intros Ha x Hx. unfold store32. destruct (Z.leb_spec a x), (Z.ltb_spec x (a + 4)); cbn; try done.
  destruct (Hx q eq_refl). replace x with (a + (x - a)) by lia. apply Ha. lia.
Qed.

Lemma only_memset m p c : only_pages (λ q, q = p) m (memset m p c PGSIZE).
Proof. intros x Hx. rewrite memset_lookup. pose proof (Hx p eq_refl) as Hn. unfold in_page in Hn. zcases. Qed.

Lemma slot_in_page p i j : 0 <= i < 1024 → 0 <= j < 4 → in_page p (p + 4 * i + j).
Proof. unfold in_page, PGSIZE. lia. Qed.

Lemma tab_page s free dir d :
  vm_ok s free dir → 0 <= d < 1024 → has (pde (kmem s) dir d) PTE_P = true →
  page_ok kend (tabof (kmem s) dir d) ∧ tabof (kmem s) dir d ∉ free.
Proof. intros H Hd Hp. apply (vo_page _ _ _ H). left. right. eauto. Qed.

Lemma dir_page s free dir : vm_ok s free dir → page_ok kend dir ∧ dir ∉ free.
Proof. intros H. apply (vo_page _ _ _ H). left. by left. Qed.

(** The address of the entry for page number [v]. *)
Definition pte_addr (m : mem) (dir v : Z) : Z := tabof m dir (v / 1024) + 4 * (v mod 1024).

(** Storing the entry [e] for page number [v]. *)
Lemma set_pte_spec s free dir v e :
  vm_ok s free dir → 0 <= v < 2^20 → has (pde (kmem s) dir (v / 1024)) PTE_P = true → 0 <= e < 2^32 →
  ∀ m', m' = store32 (kmem s) (pte_addr (kmem s) dir v) e →
  (∀ d, 0 <= d < 1024 → pde m' dir d = pde (kmem s) dir d) ∧
  (∀ v', 0 <= v' < 2^20 → pte m' dir v' = if v' =? v then e else pte (kmem s) dir v') ∧
  (∀ p, page_ok kend p → p ≠ tabof (kmem s) dir (v / 1024) → same_page (kmem s) m' p).
Proof.
  intros H Hv Hpr He m' ->. destruct (vdiv v Hv) as [Hd Ht].
  destruct (tab_page _ _ _ _ H Hd Hpr) as [Htp _]. destruct (dir_page _ _ _ H) as [Hdp _].
  assert (Hsame : ∀ p, page_ok kend p → p ≠ tabof (kmem s) dir (v / 1024) →
    same_page (kmem s) (store32 (kmem s) (pte_addr (kmem s) dir v) e) p).
  { intros p Hp Hne. eapply store_same_page; [done|exact Htp|done|]. intros j Hj. by apply slot_in_page. }
  assert (Hpde : ∀ d, 0 <= d < 1024 →
    pde (store32 (kmem s) (pte_addr (kmem s) dir v) e) dir d = pde (kmem s) dir d).
  { intros d ?. apply same_pde; [|done]. apply Hsame; [done|]. intros E. by apply (vo_tdir _ _ _ H _ Hd Hpr). }
  split_and!; [done| |done]. intros v' Hv'. destruct (vdiv v' Hv') as [Hd' Ht'].
  unfold pte, tabof. rewrite Hpde by done. fold (tabof (kmem s) dir (v' / 1024)).
  destruct (Z.eqb_spec v' v) as [->|Hne].
  - rewrite Hpr. unfold pte_addr. rewrite load32_store32_eq. by apply u32_small.
  - destruct (has (pde (kmem s) dir (v' / 1024)) PTE_P) eqn:Eh; [|done].
    destruct (Z.eq_dec (v' / 1024) (v / 1024)) as [E|E].
    + unfold pte_addr. rewrite E. apply load32_store32_ne. Z.div_mod_to_equations; lia.
    + apply same_page_load; [|done]. apply Hsame; [by apply (tab_page _ _ _ _ H)|].
      intros E2. by apply E, (vo_tinj _ _ _ H).
Qed.

Definition tab_entry (p : Z) : Z := Z.lor (Z.lor (Z.lor (V2P p) PTE_P) PTE_W) PTE_U.

Lemma tab_entry_eq p : tab_entry p = Z.lor (V2P p) 7.
Proof. unfold tab_entry. by rewrite <- !Z.lor_assoc. Qed.

Lemma tab_entry_has p : has (tab_entry p) PTE_P = true.
Proof. rewrite tab_entry_eq. rewrite has_testbit, Z.lor_spec. by rewrite orb_true_r. Qed.

Lemma memset_same_page m p c q :
  page_ok kend p → page_ok kend q → q ≠ p → same_page m (memset m p c PGSIZE) q.
Proof.
  intros Hp Hq Hne x Hx. rewrite memset_lookup. pose proof (page_apart q p x Hq Hp Hne Hx) as Hn.
  unfold in_page in Hn. zcases.
Qed.

Lemma load32_zero m a : (∀ j, 0 <= j < 4 → m (a + j) = 0) → load32 m a = 0.
Proof.
  intros H. unfold load32. pose proof (H 0 ltac:(lia)) as H0. rewrite Z.add_0_r in H0.
  by rewrite H0, (H 1), (H 2), (H 3) by lia.
Qed.

(** Adding the zeroed page [p] as the table number [d]. *)
Lemma add_table_spec s free dir d p :
  vm_ok s free dir → 0 <= d < 1024 → has (pde (kmem s) dir d) PTE_P = false →
  page_ok kend p → ¬ owns (kmem s) dir p →
  ∀ m', m' = store32 (memset (kmem s) p 0 PGSIZE) (dir + 4 * d) (tab_entry p) →
  (∀ d', 0 <= d' < 1024 → pde m' dir d' = if d' =? d then tab_entry p else pde (kmem s) dir d') ∧
  tabof m' dir d = p ∧
  (∀ v, 0 <= v < 2^20 → pte m' dir v = pte (kmem s) dir v) ∧
  (∀ q, page_ok kend q → q ≠ p → q ≠ dir → same_page (kmem s) m' q).
Proof.
  intros H Hd Hnp Hp Hown m' ->. destruct (dir_page _ _ _ H) as [Hdp _].
  assert (Hpd : p ≠ dir) by (intros ->; apply Hown; left; by left).
  destruct (V2P_range p Hp) as [Hvp _].
  assert (He : 0 <= tab_entry p < 2^32) by (rewrite tab_entry_eq; by apply entry_range).
  set (m' := store32 _ _ _).
  assert (Hpde : ∀ d', 0 <= d' < 1024 → pde m' dir d' = if d' =? d then tab_entry p else pde (kmem s) dir d').
  { intros d' Hd'. unfold pde, m'. destruct (Z.eqb_spec d' d) as [->|Hne].
    - rewrite load32_store32_eq. by apply u32_small.
    - rewrite load32_store32_ne by lia. apply same_page_load; [|done]. by apply memset_same_page. }
  assert (Htab : tabof m' dir d = p).
  { unfold tabof. rewrite Hpde, Z.eqb_refl, tab_entry_eq by done. by apply frame_of_entry. }
  assert (Hsame : ∀ q, page_ok kend q → q ≠ p → q ≠ dir → same_page (kmem s) m' q).
  { intros q Hq H1 H2 x Hx. unfold m'. rewrite (store_same_page _ _ _ q dir) by (try done; by intros; apply slot_in_page).
    by apply (memset_same_page _ p 0 q). }
  split_and!; [done..| |done]. intros v Hv. destruct (vdiv v Hv) as [Hd' Ht']. unfold pte. rewrite Hpde by done.
  destruct (Z.eqb_spec (v / 1024) d) as [E|E].
  - rewrite tab_entry_has, E, Hnp, Htab. apply load32_zero. intros j Hj. unfold m'.
    rewrite (store_same_page _ _ _ p dir) by (try done; by intros; apply slot_in_page || by apply slot_in_page).
    rewrite memset_lookup. unfold PGSIZE. zcases.
  - unfold tabof. rewrite Hpde by done. destruct (Z.eqb_spec (v / 1024) d); [done|].
    destruct (has (pde (kmem s) dir (v / 1024)) PTE_P) eqn:Eh; [|done].
    apply same_page_load; [|done]. apply Hsame.
    + by apply (tab_page _ _ _ _ H).
    + intros E2. apply Hown. left. right. exists (v / 1024). by rewrite <- E2.
    + by apply (vo_tdir _ _ _ H).
Qed.

(** ** Keeping the invariant *)

(** The free list survives changes to pages that are not on it. *)
Lemma kinv_only s s' free (P : Z → Prop) :
  kinv kend s free → freelist s' = freelist s → kmem_lock s' = kmem_lock s → byte_mem (kmem s') →
  only_pages P (kmem s) (kmem s') → (∀ p, P p → page_ok kend p ∧ p ∉ free) → kinv kend s' free.
Proof.
  intros [Hc Hnd Hp Hb Hl] Ef El Hb' Ho HP. split; [|done..|congruence].
  rewrite Ef. eapply chain_ext; [|done]. intros x Hx. rewrite Forall_forall in Hp.
  replace x with (x + 4 * 0) by lia. apply same_page_load; [|lia].
  apply (only_same P); [done|by apply Hp|]. intros p Hpp. destruct (HP p Hpp) as [? Hn]. split; [done|].
  by intros ->.
Qed.

Lemma vm_ok_frame s s' free free' dir :
  vm_ok s free dir → kinv kend s' free' → (∀ p, tpage (kmem s) dir p → same_page (kmem s) (kmem s') p) →
  (∀ p, owns (kmem s) dir p → p ∉ free') →
  vm_ok s' free' dir ∧ (∀ p, owns (kmem s') dir p ↔ owns (kmem s) dir p).
Proof.
  intros H Hk Hs Hf. destruct (same_tables _ _ _ Hs) as (Hd & Ht & Hv & Htp & Hup).
  assert (Hown : ∀ p, owns (kmem s') dir p ↔ owns (kmem s) dir p).
  { intros p. unfold owns. rewrite Htp. by setoid_rewrite Hup. }
  split; [|done]. split; [done|..].
  - intros p Hp%Hown. split; [by apply (vo_page _ _ _ H)|auto].
  - intros d ?. rewrite Hd, Ht by done. by apply (vo_tdir _ _ _ H).
  - intros d d' ??. rewrite !Hd, !Ht by done. by apply (vo_tinj _ _ _ H).
  - intros v v' p. rewrite !Hup. apply (vo_uinj _ _ _ H).
  - intros v p. rewrite Hup, Htp. apply (vo_disj _ _ _ H).
Qed.

(** [m'] has the tables of [m] with the entry [e] for page number [v]. *)
Definition pte_set (m m' : mem) (dir v e : Z) : Prop :=
  (∀ d, 0 <= d < 1024 → pde m' dir d = pde m dir d) ∧
  (∀ v', 0 <= v' < 2^20 → pte m' dir v' = if v' =? v then e else pte m dir v').

Lemma pte_set_tpage m m' dir v e p : pte_set m m' dir v e → tpage m' dir p ↔ tpage m dir p.
Proof.
  intros [Hd _]. unfold tpage, tabof. split; (intros [->|(d & Hr & Hp & ->)]; [by left|right; exists d]);
    rewrite Hd in * by done; done.
Qed.

Lemma pte_set_upage m m' dir v e v' q :
  pte_set m m' dir v e →
  upage m' dir v' q ↔ v' ≠ v ∧ upage m dir v' q ∨
    v' = v ∧ 0 <= v < 2^19 ∧ has e PTE_P = true ∧ q = P2V (PTE_ADDR e).
Proof.
  intros [_ Hv]. unfold upage, upg. split.
  - intros (Hr & Hp & ->). rewrite Hv in * by lia. destruct (Z.eqb_spec v' v) as [->|Hne]; [by right|by left].
  - intros [(Hne & Hr & Hp & ->)|(-> & Hr & Hp & ->)]; rewrite Hv by lia.
    + by destruct (Z.eqb_spec v' v).
    + by rewrite Z.eqb_refl.
Qed.

(** A new user page (or kernel mapping) is entered. *)
Lemma install_ok s s' free dir v e :
  vm_ok s free dir → pte_set (kmem s) (kmem s') dir v e → kinv kend s' free →
  has (pte (kmem s) dir v) PTE_P = false →
  (v < 2^19 → page_ok kend (P2V (PTE_ADDR e)) ∧ (P2V (PTE_ADDR e) ∉ free) ∧ ¬ owns (kmem s) dir (P2V (PTE_ADDR e))) →
  vm_ok s' free dir ∧
  (∀ q, owns (kmem s') dir q ↔ owns (kmem s) dir q ∨ (0 <= v < 2^19 ∧ has e PTE_P = true ∧ q = P2V (PTE_ADDR e))).
Proof.
  intros H Hset Hk Hnp Hnew. assert (Htp := λ q, pte_set_tpage _ _ _ _ _ q Hset).
  assert (Hup := λ v' q, pte_set_upage _ _ _ _ _ v' q Hset).
  assert (Hnv : ∀ q, ¬ upage (kmem s) dir v q) by (intros q (_ & Hp & _); congruence).
  assert (Hown : ∀ q, owns (kmem s') dir q ↔ owns (kmem s) dir q ∨ (0 <= v < 2^19 ∧ has e PTE_P = true ∧ q = P2V (PTE_ADDR e))).
  { intros q. unfold owns. rewrite (Htp q). split.
    - intros [?|[v' [[? ?]|(-> & ? & ? & ?)]%Hup]]; eauto 6.
    - intros [[?|[v' Hu]]|Hq]; [auto|right; exists v'; apply Hup; left|right; exists v; apply Hup; auto].
      split; [|done]. intros ->. by apply (Hnv q). }
  split; [|done]. destruct Hset as [Hd Hv]. assert (Htab : ∀ d, 0 <= d < 1024 → tabof (kmem s') dir d = tabof (kmem s) dir d).
  { intros d ?. unfold tabof. by rewrite Hd. }
  split; [done|..].
  - intros p [Hp|(Hr & _ & ->)]%Hown; [by apply (vo_page _ _ _ H)|]. by destruct Hnew as (? & ? & _); [lia|].
  - intros d ?. rewrite Hd, Htab by done. by apply (vo_tdir _ _ _ H).
  - intros d d' ??. rewrite !Hd, !Htab by done. by apply (vo_tinj _ _ _ H).
  - intros v1 v2 p [[N1 H1]|(-> & R1 & P1 & E1)]%Hup [[N2 H2]|(-> & R2 & P2 & E2)]%Hup; [by apply (vo_uinj _ _ _ H v1 v2 p)|..|done];
      exfalso; (destruct Hnew as (_ & _ & Hn); [lia|]); apply Hn; right; eexists; subst p; eassumption.
  - intros v1 p Hu Ht. apply (Htp p) in Ht. apply Hup in Hu as [[N1 H1]|(-> & R1 & P1 & ->)].
    + by apply (vo_disj _ _ _ H v1 p).
    + destruct Hnew as (_ & _ & Hn); [lia|]. apply Hn. by left.
Qed.

(** A user page is freed and its entry cleared. *)
Lemma clear_ok s s' free dir v p :
  vm_ok s free dir → upage (kmem s) dir v p → pte_set (kmem s) (kmem s') dir v 0 → kinv kend s' (p :: free) →
  vm_ok s' (p :: free) dir ∧ (∀ q, owns (kmem s') dir q ↔ owns (kmem s) dir q ∧ q ≠ p).
Proof.
  intros H Hvp Hset Hk. assert (Htp := λ q, pte_set_tpage _ _ _ _ _ q Hset).
  assert (Hup : ∀ v' q, upage (kmem s') dir v' q ↔ v' ≠ v ∧ upage (kmem s) dir v' q).
  { intros v' q. rewrite (pte_set_upage _ _ _ _ _ v' q Hset), has_zero.
    split; [intros [?|(_ & _ & [=] & _)]; done|auto]. }
  assert (Hown : ∀ q, owns (kmem s') dir q ↔ owns (kmem s) dir q ∧ q ≠ p).
  { intros q. unfold owns. rewrite (Htp q). split.
    - intros [Ht|[v' [Hne Hu]%Hup]].
      + split; [by left|]. intros ->. by apply (vo_disj _ _ _ H v p).
      + split; [eauto|]. intros ->. by apply Hne, (vo_uinj _ _ _ H v' v p).
    - intros [[?|[v' Hu]] Hne]; [by left|right; exists v'; apply Hup]. split; [|done]. intros ->.
      apply Hne. destruct Hu as (_ & _ & ->), Hvp as (_ & _ & ->). done. }
  split; [|done]. destruct Hset as [Hd Hv]. assert (Htab : ∀ d, 0 <= d < 1024 → tabof (kmem s') dir d = tabof (kmem s) dir d).
  { intros d ?. unfold tabof. by rewrite Hd. }
  split; [done|..].
  - intros q [Hq Hne]%Hown. apply (vo_page _ _ _ H) in Hq as [? Hn]. split; [done|].
    by intros [->|?]%elem_of_cons.
  - intros d ?. rewrite Hd, Htab by done. by apply (vo_tdir _ _ _ H).
  - intros d d' ??. rewrite !Hd, !Htab by done. by apply (vo_tinj _ _ _ H).
  - intros v1 v2 q [_ H1]%Hup [_ H2]%Hup. by apply (vo_uinj _ _ _ H v1 v2 q).
  - intros v1 q [_ H1]%Hup Ht. apply (Htp q) in Ht. by apply (vo_disj _ _ _ H v1 q).
Qed.

Definition no_pages (p : Z) : Prop := False.

(** What an operation that adds tables, and the pages [N], does. *)
Record grows (N : Z → Prop) (s s' : kstate) (free free' : list Z) (dir : Z) : Prop := {
  g_ok : vm_ok s' free' dir;
  g_owns : ∀ p, p ∈ free' ∨ owns (kmem s') dir p ↔ p ∈ free ∨ owns (kmem s) dir p ∨ N p;
  g_tabs : ∀ p, tpage (kmem s) dir p → tpage (kmem s') dir p;
  g_new : ∀ p, tpage (kmem s') dir p → tpage (kmem s) dir p ∨ p ∈ free;
  g_free : ∀ p, p ∈ free' → p ∈ free;
  g_only : only_pages (λ p, p ∈ free ∨ tpage (kmem s) dir p) (kmem s) (kmem s');
  g_lock : use_lock s' = use_lock s }.

Lemma add_table_ok s s' free p dir d :
  vm_ok s (p :: free) dir → 0 <= d < 1024 → has (pde (kmem s) dir d) PTE_P = false →
  kinv kend s' free → use_lock s' = use_lock s →
  kmem s' = store32 (memset (kmem s) p 0 PGSIZE) (dir + 4 * d) (tab_entry p) →
  grows no_pages s s' (p :: free) free dir ∧ (∀ v, 0 <= v < 2^20 → pte (kmem s') dir v = pte (kmem s) dir v) ∧
  has (pde (kmem s') dir d) PTE_P = true ∧ tabof (kmem s') dir d = p.
Proof.
  intros H Hd Hnp Hk Hul Hm. destruct (dir_page _ _ _ H) as [Hdp Hdf].
  pose proof (kinv_pages _ _ _ (vo_k _ _ _ H)) as Hpp. apply Forall_cons in Hpp as [Hp _].
  pose proof (kinv_nodup _ _ _ (vo_k _ _ _ H)) as Hnd. apply NoDup_cons in Hnd as [Hpf _].
  assert (Hown : ¬ owns (kmem s) dir p).
  { intros Ho. apply (vo_page _ _ _ H) in Ho as [_ Ho]. apply Ho. by left. }
  destruct (add_table_spec _ _ _ _ _ H Hd Hnp Hp Hown _ Hm) as (Hpde & Htab & Hpte & Hsame).
  assert (Htab' : ∀ d', 0 <= d' < 1024 → d' ≠ d → tabof (kmem s') dir d' = tabof (kmem s) dir d').
  { intros d' ??. unfold tabof. rewrite Hpde by done. by destruct (Z.eqb_spec d' d). }
  assert (Hhas : has (pde (kmem s') dir d) PTE_P = true) by (rewrite Hpde, Z.eqb_refl by done; apply tab_entry_has).
  assert (Hhas' : ∀ d', 0 <= d' < 1024 → d' ≠ d → pde (kmem s') dir d' = pde (kmem s) dir d').
  { intros d' ??. rewrite Hpde by done. by destruct (Z.eqb_spec d' d). }
  assert (Htp : ∀ q, tpage (kmem s') dir q ↔ q = p ∨ tpage (kmem s) dir q).
  { intros q. split.
    - intros [->|(d' & Hd' & Hh & ->)]; [right; by left|]. destruct (Z.eq_dec d' d) as [->|Hne]; [by left|right; right].
      exists d'. by rewrite Hhas', Htab' in * by done.
    - intros [->|[->|(d' & Hd' & Hh & ->)]]; [right; by exists d|by left|right]. exists d'.
      assert (d' ≠ d) by (intros ->; congruence). by rewrite Hhas', Htab'. }
  assert (Hup : ∀ v q, upage (kmem s') dir v q ↔ upage (kmem s) dir v q).
  { intros v q. unfold upage, upg. split; intros (? & ? & ?); rewrite Hpte in * by lia; done. }
  assert (Hownq : ∀ q, owns (kmem s') dir q ↔ q = p ∨ owns (kmem s) dir q).
  { intros q. unfold owns. rewrite Htp. setoid_rewrite Hup. tauto. }
  split_and!; [|done..]. split.
  - split; [done|..].
    + intros q [->|Hq]%Hownq; [done|]. apply (vo_page _ _ _ H) in Hq as [Hqo Hqf]. split; [done|].
      intros ?. apply Hqf. by right.
    + intros d' Hd' Hh. destruct (Z.eq_dec d' d) as [->|Hne].
      * rewrite Htab. intros ->. apply Hdf. by left.
      * rewrite Hhas' in Hh by done. rewrite Htab' by done. by apply (vo_tdir _ _ _ H).
    + assert (Hnt : ∀ d', 0 <= d' < 1024 → d' ≠ d → has (pde (kmem s') dir d') PTE_P = true → tabof (kmem s') dir d' ≠ p).
      { intros d' Hd' Hne Hh E. apply Hown. left. right. exists d'. rewrite Hhas' in Hh by done. by rewrite <- Htab', E. }
      intros d1 d2 H1 H2 Hh1 Hh2 E. destruct (Z.eq_dec d1 d) as [->|N1], (Z.eq_dec d2 d) as [->|N2]; [done|..].
      * destruct (Hnt d2); [done..|]. by rewrite <- E.
      * destruct (Hnt d1); [done..|]. by rewrite E.
      * rewrite !Hhas' in * by done. rewrite !Htab' in E by done. by apply (vo_tinj _ _ _ H).
    + intros v v' q. rewrite !Hup. apply (vo_uinj _ _ _ H).
    + intros v q. rewrite Hup, Htp. intros Hu [->|Ht].
      * apply Hown. right. eauto.
      * by apply (vo_disj _ _ _ H v q).
  - intros q. unfold no_pages. rewrite Hownq, elem_of_cons. tauto.
  - intros q Hq. apply Htp. by right.
  - intros q [->|?]%Htp; [right; by left|by left].
  - intros q Hq. by right.
  - rewrite Hm. apply (only_trans (λ q, q = p) (λ q, q = dir) _ _ (memset (kmem s) p 0 PGSIZE)).
    + apply only_memset.
    + apply only_store. intros. by apply slot_in_page.
    + intros q [->| ->]; [left; by left|right; by left].
  - done.
Qed.

Lemma grows_refl s free dir : vm_ok s free dir → grows no_pages s s free free dir.
Proof. unfold no_pages. split; auto; [intros p; tauto|by intros x]. Qed.

Lemma grows_trans (P Q R : Z → Prop) s1 s2 s3 f1 f2 f3 dir :
  grows P s1 s2 f1 f2 dir → grows Q s2 s3 f2 f3 dir → (∀ p, R p ↔ P p ∨ Q p) → grows R s1 s3 f1 f3 dir.
Proof.
  intros [O1 W1 T1 E1 F1 N1 L1] [O2 W2 T2 E2 F2 N2 L2] HR. split; [done| |auto| |auto| |congruence].
  - intros p. rewrite W2, HR. specialize (W1 p). tauto.
  - intros p [Hp|Hp]%E2; [auto|]. right. auto.
  - apply (only_trans _ _ _ _ _ _ N1 N2). intros p [Hp|[Hp|Hp%E1]]; [done|by left; apply F1|tauto].
Qed.

(** The same memory, and no more free pages. *)
Lemma grows_same s s' free dir :
  vm_ok s free dir → kinv kend s' free → kmem s' = kmem s → use_lock s' = use_lock s →
  grows no_pages s s' free free dir.
Proof.
  intros H Hk Hm Hu. destruct (vm_ok_frame s s' free free dir H Hk) as [Hok Hown].
  - intros p _ x _. by rewrite Hm.
  - intros p Hp. by apply (vo_page _ _ _ H).
  - unfold no_pages. split; try done; rewrite ?Hm; auto; [intros p; tauto|by intros x].
Qed.

(** The entry address for page number [v] when there is a table. *)
Lemma walk_noalloc s free dir va v :
  vm_ok s free dir → 0 <= v < 2^20 → va / PGSIZE = v → 0 <= va < 2^32 →
  walkpgdir dir va false s =
    Ret (if has (pde (kmem s) dir (v / 1024)) PTE_P then pte_addr (kmem s) dir v else 0) s.
Proof.
  intros H Hv Hva Hr. unfold walkpgdir, word, gets, bind, ret. rewrite PDX_eq, PTX_eq, Hva by done.
  fold (pde (kmem s) dir (v / 1024)). by destruct (has _ _).
Qed.

Lemma pte_addr_pos s free dir v :
  vm_ok s free dir → 0 <= v < 2^20 → has (pde (kmem s) dir (v / 1024)) PTE_P = true →
  pte_addr (kmem s) dir v ≠ 0.
Proof.
  intros H Hv Hp. destruct (vdiv v Hv) as [Hd Ht]. destruct (tab_page _ _ _ _ H Hd Hp) as [(_ & _ & _ & ?) _].
  unfold pte_addr. lia.
Qed.

(** [walkpgdir] with allocation: it fails only without memory, and else
    returns the address of the entry and changes no entry. *)
Lemma walk_alloc s free dir va v :
  vm_ok s free dir → 0 <= v < 2^20 → va / PGSIZE = v → 0 <= va < 2^32 →
  ∃ a s' free', walkpgdir dir va true s = Ret a s' ∧ grows no_pages s s' free free' dir ∧
    (∀ v, 0 <= v < 2^20 → pte (kmem s') dir v = pte (kmem s) dir v) ∧
    (a = 0 ∧ free' = [] ∨
     a = pte_addr (kmem s') dir v ∧ has (pde (kmem s') dir (v / 1024)) PTE_P = true).
Proof.
  intros H Hv Hva Hr. destruct (vdiv v Hv) as [Hd Ht].
  unfold walkpgdir, bind at 1, word, gets. rewrite PDX_eq, PTX_eq, Hva by done.
  fold (pde (kmem s) dir (v / 1024)). destruct (has (pde (kmem s) dir (v / 1024)) PTE_P) eqn:Eh.
  { do 3 eexists. split; [done|]. split; [by apply grows_refl|]. auto. }
  cbn [negb]. unfold bind at 1. destruct (kalloc_spec kend s free (vo_k _ _ _ H)) as (s1 & -> & Hk1 & Hu1 & Hm1).
  destruct free as [|p free]; cbn [hd tl] in *.
  { exists 0, s1, []. split; [done|]. rewrite Hm1. split; [by apply grows_same|]. auto. }
  pose proof (kinv_pages _ _ _ (vo_k _ _ _ H)) as Hpp. apply Forall_cons in Hpp as [Hp _].
  destruct (Z.eqb_spec p 0) as [->|Hp0]; [destruct Hp; lia|].
  set (s2 := KState (kmem_lock s1) (use_lock s1) (freelist s1)
    (store32 (memset (kmem s1) p 0 PGSIZE) (dir + 4 * (v / 1024)) (tab_entry p))).
  assert (Hk2 : kinv kend s2 free).
  { apply (kinv_only s1 s2 free (λ q, q = p ∨ q = dir)); try done.
    - unfold s2. cbn. apply store32_byte_mem, memset_byte_mem, Hk1.
    - apply (only_trans (λ q, q = p) (λ q, q = dir) _ _ (memset (kmem s1) p 0 PGSIZE)).
      + apply only_memset.
      + apply only_store. intros. by apply slot_in_page.
      + auto.
    - destruct (dir_page _ _ _ H) as [Hdp Hdf]. pose proof (kinv_nodup _ _ _ (vo_k _ _ _ H)) as Hnd.
      apply NoDup_cons in Hnd as [? _]. intros q [->| ->]; [done|]. split; [done|].
      intros ?. apply Hdf. by right. }
  destruct (add_table_ok s s2 free p dir (v / 1024) H Hd Eh Hk2) as (Hg & Hpte & Hh & Htab); [done|by cbn; rewrite Hm1|].
  exists (pte_addr (kmem s2) dir v), s2, free. split; [|split_and!; auto].
  unfold pte_addr. rewrite Htab. done.
Qed.

End Tables.
