(* ===== verification/VmSpec.v ===== *)
(** * Address spaces: what the operations of vm.c do

    Mapping, growing, shrinking, copying and freeing an address space, on the
    invariant of VmTables.v: which entries change, which pages change hands,
    and that the rest of memory stays as it is. *)

From S2P Require Import Prelude Memory KString Spinlock Kalloc Proc Vm VmTables.

Section Spec.
Context (kend data : Z).
Abbreviation vm_ok := (vm_ok kend).
Abbreviation grows := (grows kend).

(** The page [p] is in the caller's hands. *)
Definition spare (s : kstate) (free : list Z) (dir p : Z) : Prop :=
  page_ok kend p ∧ (p ∉ free) ∧ ¬ owns (kmem s) dir p.

Lemma grows_spare N s s' free free' dir p :
  grows N s s' free free' dir → spare s free dir p → ¬ N p → spare s' free' dir p.
Proof.
  intros [Ho Hw _ _ _ _ _] (Hp & Hf & Hn) HN. specialize (Hw p). unfold spare. tauto.
Qed.

Definition page_entry (pa perm : Z) : Z := Z.lor (Z.lor pa perm) PTE_P.

Lemma page_entry_eq pa perm : page_entry pa perm = Z.lor pa (Z.lor perm PTE_P).
Proof. unfold page_entry. by rewrite Z.lor_assoc. Qed.

Lemma page_entry_flags perm : flags_ok perm → flags_ok (Z.lor perm PTE_P).
Proof. intros. by apply flags_ok_lor. Qed.

Lemma P2V_range x : 0 <= P2V x < 2^32.
Proof. apply u32_range. Qed.

(** Storing a word of a table. *)
Lemma set_word_kinv s free a e q :
  kinv kend s free → (∀ j, 0 <= j < 4 → in_page q (a + j)) → page_ok kend q → q ∉ free →
  kinv kend (KState (kmem_lock s) (use_lock s) (freelist s) (store32 (kmem s) a e)) free.
Proof.
  intros Hk Ha Hq Hf. apply (kinv_only kend s _ free (λ p, p = q)); try done.
  - apply store32_byte_mem, Hk.
  - by apply only_store.
  - by intros p ->.
Qed.

(** One iteration of [mappages]. *)
Lemma map_step f s free dir v last pa perm :
  vm_ok s free dir → 0 <= v < 2^20 → has (pte (kmem s) dir v) PTE_P = false →
  0 <= pa < 2^32 → pa mod PGSIZE = 0 → flags_ok perm → (v < 2^19 → spare s free dir (P2V pa)) →
  ∃ s' free',
    (mappages_loop (S f) dir (PGSIZE * v) last pa perm s = Ret (-1) s' ∧ grows no_pages s s' free free' dir ∧ free' = [] ∧
     (∀ v, 0 <= v < 2^20 → pte (kmem s') dir v = pte (kmem s) dir v)) ∨
    (mappages_loop (S f) dir (PGSIZE * v) last pa perm s =
       (if PGSIZE * v =? last then Ret 0 s'
        else mappages_loop f dir (u32 (PGSIZE * v + PGSIZE)) last (u32 (pa + PGSIZE)) perm s') ∧
     grows (λ p, v < 2^19 ∧ p = P2V pa) s s' free free' dir ∧
     (∀ v', 0 <= v' < 2^20 → pte (kmem s') dir v' = if v' =? v then page_entry pa perm else pte (kmem s) dir v')).
Proof.
  intros H Hv Hnp Hpa Hal Hperm Hsp.
  destruct (walk_alloc kend s free dir (PGSIZE * v) v) as (a & s1 & free1 & Ew & Hg & Hpte & Ha);
    [done..|unfold PGSIZE; Z.div_mod_to_equations; lia|unfold PGSIZE; lia|].
  pose proof (g_ok _ _ _ _ _ _ _ Hg) as Hok1.
  destruct Ha as [[-> Hnil]|[-> Hh]].
  { exists s1, free1. left. split; [|done]. cbn [mappages_loop]. unfold bind at 1. by rewrite Ew. }
  assert (Eload : load32 (kmem s1) (pte_addr (kmem s1) dir v) = pte (kmem s1) dir v) by (unfold pte; by rewrite Hh).
  set (s2 := KState (kmem_lock s1) (use_lock s1) (freelist s1)
    (store32 (kmem s1) (pte_addr (kmem s1) dir v) (page_entry pa perm))).
  assert (He : 0 <= page_entry pa perm < 2^32) by (rewrite page_entry_eq; by apply entry_range, page_entry_flags).
  destruct (set_pte_spec kend s1 free1 dir v (page_entry pa perm) Hok1 Hv Hh He _ eq_refl) as (Hd & Hp & _).
  destruct (vdiv v Hv) as [Hvd Hvt]. destruct (tab_page kend s1 free1 dir (v / 1024) Hok1 Hvd Hh) as [Htp Htf].
  assert (Hslot : ∀ j, 0 <= j < 4 → in_page (tabof (kmem s1) dir (v / 1024)) (pte_addr (kmem s1) dir v + j))
    by (intros; by apply slot_in_page).
  assert (Hk2 : kinv kend s2 free1) by (by apply (set_word_kinv s1 free1 _ _ _ (vo_k _ _ _ _ Hok1) Hslot)).
  assert (Eaddr : P2V (PTE_ADDR (page_entry pa perm)) = P2V pa).
  { rewrite page_entry_eq, PTE_ADDR_lor; [done..|by apply page_entry_flags]. }
  destruct (install_ok kend s1 s2 free1 dir v (page_entry pa perm)) as [Hok2 Hown2]; try done.
  { by rewrite Hpte. }
  { rewrite Eaddr. intros Hu. apply (grows_spare _ _ _ _ _ _ _ Hg (Hsp Hu)). auto. }
  exists s2, free1. right. split; [|split].
  - cbn [mappages_loop]. unfold bind at 1. rewrite Ew.
    destruct (Z.eqb_spec (pte_addr (kmem s1) dir v) 0) as [E|_]; [by destruct (pte_addr_pos kend _ _ _ _ Hok1 Hv Hh)|].
    unfold bind at 1, word, gets. rewrite Eload, Hpte, Hnp by done. unfold bind at 1, set_word, on_mem, modify.
    by destruct (Z.eqb_spec (PGSIZE * v) last).
  - apply (grows_trans kend no_pages (λ p, v < 2^19 ∧ p = P2V pa) _ s s1 s2 free free1 free1 dir); [done| |unfold no_pages; tauto].
    assert (Ht : ∀ p, tpage (kmem s2) dir p ↔ tpage (kmem s1) dir p) by (intros p; by apply (pte_set_tpage _ _ _ v (page_entry pa perm))).
    split; try done.
    + intros p. rewrite Hown2, Eaddr. unfold page_entry. rewrite has_lor_P. intuition lia.
    + intros p. by rewrite Ht.
    + intros p. rewrite Ht. auto.
    + apply (only_trans (λ p, False) (λ p, p = tabof (kmem s1) dir (v / 1024)) _ _ (kmem s1)); [by intros x|by apply only_store|].
      intros p [[]| ->]. right. right. eauto.
  - intros v' Hv'. rewrite Hp, Hpte by done. done.
Qed.

(** Mapping one page, as the user-memory routines do. *)
Lemma mappages_one s free dir v p perm :
  vm_ok s free dir → 0 <= v < 2^19 → has (pte (kmem s) dir v) PTE_P = false →
  flags_ok perm → spare s free dir p →
  ∃ r s' free', mappages dir (PGSIZE * v) PGSIZE (V2P p) perm s = Ret r s' ∧
    (r = -1 ∧ grows no_pages s s' free free' dir ∧ free' = [] ∧
       (∀ v, 0 <= v < 2^20 → pte (kmem s') dir v = pte (kmem s) dir v) ∨
     r = 0 ∧ grows (λ q, q = p) s s' free free' dir ∧
       ∀ v', 0 <= v' < 2^20 → pte (kmem s') dir v' = if v' =? v then page_entry (V2P p) perm else pte (kmem s) dir v').
Proof.
  intros H Hv Hnp Hf Hsp. destruct Hsp as (Hp & Hpf & Hpo). destruct (V2P_range kend p Hp) as [Hr Ha].
  assert (Hinv : P2V (V2P p) = p).
  { destruct (page_ok_kern kend p Hp) as (_ & ? & _). apply P2V_V2P. unfold KERNBASE, PHYSTOP in *. lia. }
  unfold mappages. rewrite (PGROUNDDOWN_eq (PGSIZE * v)) by (unfold PGSIZE; lia).
  assert (E1 : PGSIZE * v / PGSIZE * PGSIZE = PGSIZE * v) by (unfold PGSIZE; Z.div_mod_to_equations; lia).
  assert (E2 : PGROUNDDOWN (u32 (PGSIZE * v + PGSIZE - 1)) = PGSIZE * v).
  { rewrite u32_small by (unfold PGSIZE; lia). rewrite PGROUNDDOWN_eq by (unfold PGSIZE; lia).
    unfold PGSIZE. Z.div_mod_to_equations; lia. }
  rewrite E1, E2, Z.sub_diag. change (Z.to_nat (1 + u32 0 / PGSIZE)) with 1%nat.
  destruct (map_step 0 s free dir v (PGSIZE * v) (V2P p) perm) as (s' & free' & Hcase); try done; [lia|by rewrite Hinv|].
  rewrite Z.eqb_refl in Hcase. rewrite Hinv in Hcase. destruct Hcase as [(E & Hg & Hnil & Hpt)|(E & Hg & Hpt)].
  - exists (-1), s', free'. rewrite E. split; [done|]. left. done.
  - exists 0, s', free'. rewrite E. split; [done|]. right. split_and!; [done| |done].
    destruct Hg as [O W T En F N L]. split; try done. intros q. rewrite W. intuition lia.
Qed.

(** ** Shrinking *)

Context (Hkend : KERNLINK < kend).

Lemma pte_set_agree m m1 m2 dir v e :
  pte_set m m1 dir v e → (∀ p, tpage m dir p → same_page m1 m2 p) → pte_set m m2 dir v e.
Proof.
  intros Hset Hs. destruct (same_tables m1 m2 dir) as (Hd & _ & Hp & _).
  { intros p Hp. apply Hs. by apply (pte_set_tpage _ _ _ _ _ _ Hset). }
  destruct Hset as [Hd1 Hp1]. split; intros; [by rewrite Hd, Hd1|by rewrite Hp, Hp1].
Qed.

Lemma store_same m m1 a e p : same_page m m1 p → same_page (store32 m a e) (store32 m1 a e) p.
Proof. intros H x Hx. unfold store32. destruct (_ && _); [done|]. by apply H. Qed.

(** What freeing the user pages with numbers in [P] does. *)
Record shrinks (P : Z → Prop) (s s' : kstate) (free free' : list Z) (dir : Z) : Prop := {
  sh_ok : vm_ok s' free' dir;
  sh_owns : ∀ p, p ∈ free' ∨ owns (kmem s') dir p ↔ p ∈ free ∨ owns (kmem s) dir p;
  sh_tabs : ∀ p, tpage (kmem s') dir p ↔ tpage (kmem s) dir p;
  sh_pte : ∀ v, 0 <= v < 2^20 → ¬ P v → pte (kmem s') dir v = pte (kmem s) dir v;
  sh_gone : ∀ v, 0 <= v < 2^20 → P v → has (pte (kmem s') dir v) PTE_P = false;
  sh_only : only_pages (λ p, tpage (kmem s) dir p ∨ ∃ v, P v ∧ upage (kmem s) dir v p) (kmem s) (kmem s');
  sh_free : ∀ p, p ∈ free → p ∈ free';
  sh_lock : use_lock s' = use_lock s }.

Lemma shrinks_none P s free dir :
  vm_ok s free dir → (∀ v, 0 <= v < 2^20 → P v → has (pte (kmem s) dir v) PTE_P = false) →
  shrinks P s s free free dir.
Proof. intros H HP. split; auto. by intros x. Qed.

Lemma shrinks_trans P Q R s1 s2 s3 f1 f2 f3 dir :
  shrinks P s1 s2 f1 f2 dir → shrinks Q s2 s3 f2 f3 dir → (∀ v, R v ↔ P v ∨ Q v) →
  shrinks R s1 s3 f1 f3 dir.
Proof.
  intros [O1 W1 T1 E1 G1 N1 F1 L1] [O2 W2 T2 E2 G2 N2 F2 L2] HR. split; [done|..|congruence].
  - intros p. by rewrite W2.
  - intros p. by rewrite T2.
  - intros v Hv Hn. rewrite E2, E1; [done|..]; try done; intros ?; apply Hn, HR; auto.
  - intros v Hv [HP|HQ]%HR; [|auto]. destruct (has (pte (kmem s3) dir v) PTE_P) eqn:Eh; [exfalso|done].
    assert (Hn : ¬ Q v) by (intros HQ; by rewrite G2 in Eh).
    rewrite E2 in Eh by done. by rewrite G1 in Eh.
  - apply (only_trans _ _ _ _ _ _ N1 N2). intros p [[Hp|(v & HP & Hu)]|[Hp%T1|(v & HQ & Hu)]]; [by left|..|by left|];
      right; exists v; (split; [apply HR; auto|]); [done|].
    destruct Hu as (Hr & Hh & ->). assert (Hn : ¬ P v) by (intros HP; rewrite G1 in Hh; [done|lia|done]).
    unfold upage, upg in *. rewrite E1 in * by (done || lia). done.
  - auto.
Qed.

Lemma shrinks_spare P s s' free free' dir p :
  shrinks P s s' free free' dir → spare s free dir p → spare s' free' dir p.
Proof.
  intros Hs (Hp & Hf & Ho). pose proof (sh_owns _ _ _ _ _ _ Hs p) as [Hw _].
  split_and!; [done|..]; intros ?; (destruct Hw; [auto|done|done]).
Qed.

(** One page is freed. *)
Lemma free_step s free dir v :
  vm_ok s free dir → 0 <= v < 2^19 → has (pte (kmem s) dir v) PTE_P = true →
  PTE_ADDR (pte (kmem s) dir v) ≠ 0 ∧
  ∃ s', (kfree kend (P2V (PTE_ADDR (pte (kmem s) dir v))) ;;; set_word (pte_addr (kmem s) dir v) 0) s = Ret tt s' ∧
    shrinks (λ v', v' = v) s s' free (upg (kmem s) dir v :: free) dir.
Proof.
  intros H Hv Hh. set (p := upg (kmem s) dir v).
  assert (Hu : upage (kmem s) dir v p) by done.
  assert (Hv20 : 0 <= v < 2^20) by lia.
  destruct (vo_page _ _ _ _ H p) as [Hp Hpf]; [right; eauto|].
  assert (Hd : has (pde (kmem s) dir (v / 1024)) PTE_P = true).
  { revert Hh. unfold pte. by destruct (has (pde _ _ _) _). }
  split.
  { intros E. destruct Hp as (_ & Hge & _). unfold p, upg in Hge. rewrite E in Hge.
    change (P2V 0) with KERNBASE in Hge. unfold KERNLINK, KERNBASE, EXTMEM in *. lia. }
  destruct (vdiv v Hv20) as [Hvd Hvt]. destruct (tab_page kend s free dir (v / 1024) H Hvd Hd) as [Htp Htf].
  destruct (kfree_spec kend s free p (vo_k _ _ _ _ H) Hp Hpf) as (s1 & E1 & Hk1 & Hu1 & Ho1).
  set (a := pte_addr (kmem s) dir v).
  set (s2 := KState (kmem_lock s1) (use_lock s1) (freelist s1) (store32 (kmem s1) a 0)).
  exists s2. split; [unfold bind; fold (upg (kmem s) dir v); fold p; by rewrite E1|].
  assert (Hslot : ∀ j, 0 <= j < 4 → in_page (tabof (kmem s) dir (v / 1024)) (a + j)) by (intros; by apply slot_in_page).
  assert (Htne : ∀ q, tpage (kmem s) dir q → page_ok kend q ∧ q ≠ p).
  { intros q Hq. split; [apply (vo_page _ _ _ _ H); by left|]. intros ->. by apply (vo_disj _ _ _ _ H v p). }
  assert (Hsame : ∀ q, tpage (kmem s) dir q → same_page (kmem s) (kmem s1) q).
  { intros q [Hq Hne]%Htne x Hx. apply Ho1. by apply (page_apart kend q p). }
  assert (Hset : pte_set (kmem s) (kmem s2) dir v 0).
  { destruct (set_pte_spec kend s free dir v 0 H Hv20 Hd ltac:(lia) _ eq_refl) as (Hd1 & Hp1 & _).
    apply (pte_set_agree _ _ _ _ _ _ (conj Hd1 Hp1)). intros q Hq. by apply store_same, Hsame. }
  assert (Hk2 : kinv kend s2 (p :: free)).
  { apply (set_word_kinv s1 _ a 0 (tabof (kmem s) dir (v / 1024))); [done..|]. intros [E|?]%elem_of_cons; [|done].
    destruct (Htne (tabof (kmem s) dir (v / 1024))) as [_ []]; [right; eauto|done]. }
  destruct (clear_ok kend s s2 free dir v p H Hu Hset Hk2) as [Hok2 Hown2].
  destruct Hset as [Hsd Hsp]. split; try done.
  - intros q. rewrite Hown2, elem_of_cons. destruct (decide (q = p)) as [->|]; [|tauto].
    split; [intros _; right; right; eauto|auto].
  - intros q. by apply (pte_set_tpage _ _ _ v 0).
  - intros v' Hv' Hne. rewrite Hsp by done. by destruct (Z.eqb_spec v' v).
  - intros v' Hv' ->. by rewrite Hsp, Z.eqb_refl.
  - apply (only_trans (λ q, q = p) (λ q, q = tabof (kmem s) dir (v / 1024)) _ _ (kmem s1)).
    + intros x Hx. apply Ho1. by apply Hx.
    + by apply only_store.
    + intros q [->| ->]; [right; by exists v|left; right; eauto].
  - intros q ?. by right.
Qed.

Lemma PGADDR_next v :
  0 <= v < 2^19 → u32 (u32 (PGADDR (v / 1024 + 1) 0 0 - PGSIZE) + PGSIZE) = PGSIZE * (1024 * (v / 1024 + 1)).
Proof.
  intros Hv. unfold PGADDR, PDXSHIFT, PTXSHIFT. rewrite Z.shiftl_0_l, !Z.lor_0_r, Z.shiftl_mul_pow2 by lia.
  rewrite u32_add_l. replace (_ - PGSIZE + PGSIZE) with (u32 ((v / 1024 + 1) * 2^22)) by lia.
  rewrite u32_idem, u32_small; unfold PGSIZE; [lia|]. Z.div_mod_to_equations; lia.
Qed.

Lemma no_table_no_page s free dir v v' :
  vm_ok s free dir → has (pde (kmem s) dir (v / 1024)) PTE_P = false → v' / 1024 = v / 1024 →
  has (pte (kmem s) dir v') PTE_P = false.
Proof. intros H Hn E. unfold pte. by rewrite E, Hn. Qed.

Lemma dealloc_loop_spec dir oldsz fuel : ∀ v s free,
  vm_ok s free dir → 0 <= v <= 2^19 → 0 <= oldsz <= KERNBASE → oldsz <= PGSIZE * (v + Z.of_nat fuel) →
  ∃ s' free', deallocuvm_loop kend fuel dir (PGSIZE * v) oldsz s = Ret tt s' ∧
    shrinks (λ v', v <= v' ∧ PGSIZE * v' < oldsz) s s' free free' dir.
Proof.
  induction fuel as [|fuel IH]; intros v s free H Hv Ho Hf; cbn [deallocuvm_loop];
    (destruct (Z.ltb_spec (PGSIZE * v) oldsz) as [Hlt|Hge];
     [|exists s, free; split; [done|]; apply shrinks_none; [done|]; intros v' ? [? ?]; unfold PGSIZE in *; lia]).
  { unfold PGSIZE in *. lia. }
  assert (Hv19 : 0 <= v < 2^19) by (unfold KERNBASE, PGSIZE in *; lia).
  assert (Hv20 : 0 <= v < 2^20) by lia.
  unfold bind at 1. rewrite (walk_noalloc kend s free dir (PGSIZE * v) v) by
    (try done; unfold PGSIZE; Z.div_mod_to_equations; lia).
  rewrite PDX_eq by (unfold PGSIZE; lia).
  replace (PGSIZE * v / PGSIZE) with v by (unfold PGSIZE; Z.div_mod_to_equations; lia).
  destruct (has (pde (kmem s) dir (v / 1024)) PTE_P) eqn:Ed.
  - destruct (Z.eqb_spec (pte_addr (kmem s) dir v) 0) as [E|_]; [by destruct (pte_addr_pos kend _ _ _ _ H Hv20 Ed)|].
    assert (Eload : load32 (kmem s) (pte_addr (kmem s) dir v) = pte (kmem s) dir v) by (unfold pte; by rewrite Ed).
    assert (Enext : u32 (PGSIZE * v + PGSIZE) = PGSIZE * (v + 1)).
    { rewrite u32_small; unfold PGSIZE; lia. }
    unfold bind at 1, word, gets. rewrite Eload, Enext. unfold bind at 1.
    assert (Hstep : ∃ s1 free1, (if has (pte (kmem s) dir v) PTE_P then
        if PTE_ADDR (pte (kmem s) dir v) =? 0 then panic "kfree" else
        kfree kend (P2V (PTE_ADDR (pte (kmem s) dir v))) ;;; set_word (pte_addr (kmem s) dir v) 0
      else ret tt) s = Ret tt s1 ∧ shrinks (λ v', v' = v) s s1 free free1 dir).
    { destruct (has (pte (kmem s) dir v) PTE_P) eqn:Eh.
      - destruct (free_step s free dir v H Hv19 Eh) as (Ha & s1 & E1 & Hs1).
        destruct (Z.eqb_spec (PTE_ADDR (pte (kmem s) dir v)) 0); [done|]. eauto.
      - exists s, free. split; [done|]. apply shrinks_none; [done|]. by intros ? ? ->. }
    destruct Hstep as (s1 & free1 & -> & Hs1).
    destruct (IH (v + 1) s1 free1 (sh_ok _ _ _ _ _ _ Hs1)) as (s2 & free2 & E2 & Hs2); [lia|done|unfold PGSIZE in *; lia|].
    exists s2, free2. split; [done|]. apply (shrinks_trans _ _ _ _ _ _ _ _ _ _ Hs1 Hs2).
    intros v'. unfold PGSIZE in *. lia.
  - rewrite PGADDR_next by done.
    destruct (IH (1024 * (v / 1024 + 1)) s free H) as (s2 & free2 & E2 & Hs2);
      [Z.div_mod_to_equations; lia|done|unfold PGSIZE in *; Z.div_mod_to_equations; lia|].
    assert (Hs1 : shrinks (λ v', v' / 1024 = v / 1024 ∧ v <= v' ∧ PGSIZE * v' < oldsz) s s free free dir).
    { apply shrinks_none; [done|]. intros v' ? [? _]. by apply (no_table_no_page s free dir v). }
    exists s2, free2. split; [done|]. apply (shrinks_trans _ _ _ _ _ _ _ _ _ _ Hs1 Hs2).
    intros v'. unfold PGSIZE in *. Z.div_mod_to_equations. lia.
Qed.

Lemma dealloc_spec s free dir oldsz newsz :
  vm_ok s free dir → 0 <= newsz < oldsz → oldsz <= KERNBASE →
  ∃ s' free', deallocuvm kend dir oldsz newsz s = Ret newsz s' ∧
    shrinks (λ v', PGROUNDUP newsz <= PGSIZE * v' < oldsz) s s' free free' dir.
Proof.
  intros H Hn Ho. unfold deallocuvm. destruct (Z.leb_spec oldsz newsz) as [Hle|_]; [lia|].
  rewrite PGROUNDUP_eq by (unfold KERNBASE, PGSIZE in *; lia). set (v0 := (newsz + PGSIZE - 1) / PGSIZE).
  assert (0 <= v0 <= 2^19) by (unfold v0, PGSIZE, KERNBASE in *; Z.div_mod_to_equations; lia).
  destruct (dealloc_loop_spec dir oldsz (Z.to_nat (1 + oldsz / PGSIZE)) v0 s free H) as (s' & free' & E & Hs); [done|lia|..].
  { unfold PGSIZE in *. Z.div_mod_to_equations. lia. }
  exists s', free'. unfold bind. rewrite (Z.mul_comm v0), E. split; [done|].
  assert (Hn0 : shrinks (λ _, False) s' s' free' free' dir) by (apply shrinks_none; [apply Hs|done]).
  apply (shrinks_trans _ _ _ _ _ _ _ _ _ _ Hs Hn0). intros v'. unfold PGSIZE. lia.
Qed.

(** ** Growing *)

(** Memory that is not a free page or a table keeps its contents, so user pages
    keep theirs. *)
Lemma grows_user N s s' free free' dir v p :
  grows N s s' free free' dir → vm_ok s free dir → upage (kmem s) dir v p → same_page (kmem s) (kmem s') p.
Proof.
  intros Hg H Hu. destruct (vo_page _ _ _ _ H p) as [Hp Hf]; [right; eauto|].
  apply (only_same kend _ _ _ _ (g_only _ _ _ _ _ _ _ Hg)); [done|].
  intros q [Hq|Hq]; (split; [|intros ->]).
  - pose proof (kinv_pages _ _ _ (vo_k _ _ _ _ H)) as Hpp. rewrite Forall_forall in Hpp. auto.
  - done.
  - apply (vo_page _ _ _ _ H). by left.
  - by apply (vo_disj _ _ _ _ H v p).
Qed.

(** [kalloc] hands out a page. *)
Lemma kalloc_vm s free dir :
  vm_ok s free dir →
  (∃ s', kalloc s = Ret 0 s' ∧ free = [] ∧ grows no_pages s s' [] [] dir ∧ kmem s' = kmem s) ∨
  ∃ p free' s', kalloc s = Ret p s' ∧ free = p :: free' ∧ vm_ok s' free' dir ∧ spare s' free' dir p ∧
    p ≠ 0 ∧ kmem s' = kmem s ∧ use_lock s' = use_lock s.
Proof.
  intros H. destruct (kalloc_spec kend s free (vo_k _ _ _ _ H)) as (s1 & E & Hk & Hu & Hm).
  destruct free as [|p free]; cbn in *.
  - left. exists s1. split_and!; try done. by apply grows_same.
  - right. exists p, free, s1. pose proof (kinv_pages _ _ _ (vo_k _ _ _ _ H)) as Hpp. apply Forall_cons in Hpp as [Hp _].
    pose proof (kinv_nodup _ _ _ (vo_k _ _ _ _ H)) as Hnd. apply NoDup_cons in Hnd as [Hpf _].
    destruct (vm_ok_frame kend s s1 (p :: free) free dir H Hk) as [Hok Hown].
    { intros q _ x _. by rewrite Hm. }
    { intros q Hq. apply (vo_page _ _ _ _ H) in Hq as [_ Hq]. intros ?. apply Hq. by right. }
    split_and!; try done.
    + split_and!; try done. intros Ho%Hown. apply (vo_page _ _ _ _ H) in Ho as [_ Ho]. apply Ho. by left.
    + destruct Hp as (_ & _ & _ & ?). lia.
Qed.

(** Writing to a spare page changes nothing of an address space. *)
Lemma spare_write s free dir p m' :
  vm_ok s free dir → spare s free dir p → only_pages (λ q, q = p) (kmem s) m' → byte_mem m' →
  ∀ s', s' = KState (kmem_lock s) (use_lock s) (freelist s) m' →
  vm_ok s' free dir ∧ spare s' free dir p ∧ (∀ q, owns m' dir q ↔ owns (kmem s) dir q) ∧
  (∀ q, tpage m' dir q ↔ tpage (kmem s) dir q) ∧
  (∀ v, 0 <= v < 2^20 → pte m' dir v = pte (kmem s) dir v).
Proof.
  intros H (Hp & Hf & Ho) Honly Hb s' ->.
  assert (Hs : ∀ q, tpage (kmem s) dir q → same_page (kmem s) m' q).
  { intros q Hq. apply (only_same kend _ _ _ _ Honly); [apply (vo_page _ _ _ _ H); by left|]. intros q' ->.
    split; [done|]. intros ->. apply Ho. by left. }
  destruct (vm_ok_frame kend s (KState (kmem_lock s) (use_lock s) (freelist s) m') free free dir H) as [Hok Hown]; [|done|..].
  - apply (kinv_only kend s _ free (λ q, q = p)); try done; [apply H|by intros q ->].
  - intros q Hq. by apply (vo_page _ _ _ _ H).
  - destruct (same_tables _ _ _ Hs) as (_ & _ & Hv & Ht & _). split_and!; try done.
    split_and!; try done. by rewrite Hown.
Qed.

(** A fresh page, filled with [m p], entered for page number [v]. *)
Lemma map_fresh s free dir p v m1 perm s1 :
  vm_ok s (p :: free) dir → vm_ok s1 free dir → spare s1 free dir p → kmem s1 = kmem s → use_lock s1 = use_lock s →
  only_pages (λ q, q = p) (kmem s) m1 → byte_mem m1 → 0 <= v < 2^19 → flags_ok perm →
  has (pte (kmem s) dir v) PTE_P = false →
  ∀ s1', s1' = KState (kmem_lock s1) (use_lock s1) (freelist s1) m1 →
  ∃ r s2 free2, mappages dir (PGSIZE * v) PGSIZE (V2P p) perm s1' = Ret r s2 ∧
    (r = -1 ∧ grows no_pages s1' s2 free free2 dir ∧ free2 = [] ∧ spare s2 free2 dir p ∧
       (∀ v, 0 <= v < 2^20 → pte (kmem s2) dir v = pte (kmem s) dir v) ∨
     r = 0 ∧ grows no_pages s s2 (p :: free) free2 dir ∧
       (∀ v', 0 <= v' < 2^20 → pte (kmem s2) dir v' = if v' =? v then page_entry (V2P p) perm else pte (kmem s) dir v') ∧
       upg (kmem s2) dir v = p ∧ same_page m1 (kmem s2) p).
Proof.
  intros H H1 Hsp Hm1 Hul Honly Hb Hv Hf Hnp s1' Es1'. rewrite <- Hm1 in Honly.
  destruct (spare_write s1 free dir p m1 H1 Hsp Honly Hb s1' Es1') as (H1' & Hsp' & Hown1 & Ht1 & Hp1).
  assert (Em1 : kmem s1' = m1) by (by subst). rewrite Hm1 in Hown1, Ht1, Hp1, Honly.
  destruct (mappages_one s1' free dir v p perm) as (r & s2 & free2 & E & Hr); try done.
  { rewrite Em1, Hp1; [done|lia]. }
  exists r, s2, free2. split; [done|]. rewrite Em1 in Hr. destruct Hr as [(-> & Hg & Hnil & Hp)|(-> & Hg & Hp)]; [left|right].
  - split_and!; [done|done|done| |].
    + apply (grows_spare _ _ _ _ _ _ _ Hg Hsp'). by intros [].
    + intros v' Hv'. by rewrite Hp, Hp1.
  - assert (Eu : upg (kmem s2) dir v = p).
    { unfold upg. rewrite Hp, Z.eqb_refl, page_entry_eq by lia. apply (frame_of_entry kend); [apply Hsp|by apply page_entry_flags]. }
    destruct Hg as [O W T En F N L]. rewrite Em1 in *. split_and!; [done| | |done|].
    + split; try done.
      * intros q. rewrite W, Hown1, elem_of_cons. unfold no_pages. tauto.
      * intros q Hq. by apply T, Ht1.
      * intros q [Hq|Hq]%En; [left; by apply Ht1|right; by right].
      * intros q Hq. right. auto.
      * apply (only_trans _ _ _ _ _ _ Honly N). intros q [->|[?|?%Ht1]]; [left; by left|left; by right|by right].
      * subst s1'. cbn in L. congruence.
    + intros v' Hv'. by rewrite Hp, Hp1.
    + apply (only_same kend _ _ _ _ N); [apply Hsp|]. destruct Hsp' as (Hpo & Hpf & Hpn). intros q [Hq|Hq].
      * split; [|by intros ->]. pose proof (kinv_pages _ _ _ (vo_k _ _ _ _ H1')) as Hpp. rewrite Forall_forall in Hpp. auto.
      * split; [apply (vo_page _ _ _ _ H1'); rewrite Em1; by left|]. intros ->. apply Hpn. rewrite Em1. by left.
Qed.

(** Tables and pages were taken from the free list, and the pages in [Hd] are
    held back by the caller. *)
Record took (Hd : Z → Prop) (s s' : kstate) (free free' : list Z) (dir : Z) : Prop := {
  tk_ok : vm_ok s' free' dir;
  tk_owns : ∀ p, p ∈ free' ∨ owns (kmem s') dir p ∨ Hd p ↔ p ∈ free ∨ owns (kmem s) dir p;
  tk_tabs : ∀ p, tpage (kmem s) dir p → tpage (kmem s') dir p;
  tk_new : ∀ p, tpage (kmem s') dir p → tpage (kmem s) dir p ∨ p ∈ free;
  tk_free : ∀ p, p ∈ free' → p ∈ free;
  tk_only : only_pages (λ p, p ∈ free ∨ tpage (kmem s) dir p) (kmem s) (kmem s') }.

Lemma took_grows s1 s2 s3 f1 f2 f3 dir :
  took no_pages s1 s2 f1 f2 dir → grows no_pages s2 s3 f2 f3 dir → took no_pages s1 s3 f1 f3 dir.
Proof.
  unfold no_pages. intros [O1 W1 T1 E1 F1 N1] [O2 W2 T2 E2 F2 N2 _]. split; [done| |auto| |auto|].
  - intros p. rewrite <- (W1 p), <- (W2 p), (assoc (∨)). by rewrite (right_id False (∨)).
  - intros p [Hp|Hp]%E2; [auto|]. right. auto.
  - apply (only_trans _ _ _ _ _ _ N1 N2). intros p [Hp|[Hp|Hp%E1]]; [done|by left; apply F1|tauto].
Qed.

(** The pages of [allocuvm] so far: those with numbers from [v0] to [v]. *)
Record allocated (Hd : Z → Prop) (v0 v : Z) (s s' : kstate) (free free' : list Z) (dir : Z) : Prop := {
  al_took : took Hd s s' free free' dir;
  al_old : ∀ v', 0 <= v' < 2^20 → ¬ v0 <= v' < v → pte (kmem s') dir v' = pte (kmem s) dir v';
  al_new : ∀ v', v0 <= v' < v →
    upg (kmem s') dir v' ∈ free ∧ pte (kmem s') dir v' = page_entry (V2P (upg (kmem s') dir v')) (Z.lor PTE_W PTE_U) ∧
    ∀ x, in_page (upg (kmem s') dir v') x → kmem s' x = 0 }.

Lemma page_entry_has pa perm : has (page_entry pa perm) PTE_P = true.
Proof. apply has_lor_P. Qed.

(** Pages already allocated stay as they are while the tables grow. *)
Lemma allocated_keep Hd v0 v s s1 s2 free free1 (f1 : Z → Prop) dir :
  0 <= v0 → v <= 2^19 → allocated Hd v0 v s s1 free free1 dir →
  (∀ v', v0 <= v' < v → upage (kmem s1) dir v' (upg (kmem s1) dir v') →
     same_page (kmem s1) (kmem s2) (upg (kmem s1) dir v')) →
  (∀ v', 0 <= v' < 2^20 → ¬ f1 v' → pte (kmem s2) dir v' = pte (kmem s1) dir v') →
  (∀ v', f1 v' → ¬ v0 <= v' < v) →
  ∀ v', v0 <= v' < v →
    upg (kmem s2) dir v' ∈ free ∧ pte (kmem s2) dir v' = page_entry (V2P (upg (kmem s2) dir v')) (Z.lor PTE_W PTE_U) ∧
    ∀ x, in_page (upg (kmem s2) dir v') x → kmem s2 x = 0.
Proof.
  intros Hv0 Hv [_ _ Hn] Hsame Hp Hf v' Hin. destruct (Hn v' Hin) as (Hfr & He & Hz).
  assert (Ep : pte (kmem s2) dir v' = pte (kmem s1) dir v') by (apply Hp; [lia|intros ?; by eapply Hf]).
  assert (Eu : upg (kmem s2) dir v' = upg (kmem s1) dir v') by (unfold upg; by rewrite Ep).
  rewrite Eu, Ep. split_and!; [done|done|]. intros x Hx. rewrite Hsame; [by apply Hz|done| |done].
  unfold upage. split; [lia|]. split; [|done]. rewrite He. apply page_entry_has.
Qed.

Lemma allocated_step v0 v s s1 s2 free free1 free2 dir p :
  0 <= v0 <= v → v < 2^19 →
  allocated no_pages v0 v s s1 free (p :: free1) dir → grows no_pages s1 s2 (p :: free1) free2 dir →
  (∀ v', 0 <= v' < 2^20 → pte (kmem s2) dir v' =
    if v' =? v then page_entry (V2P p) (Z.lor PTE_W PTE_U) else pte (kmem s1) dir v') →
  upg (kmem s2) dir v = p → (∀ x, in_page p x → kmem s2 x = 0) →
  allocated no_pages v0 (v + 1) s s2 free free2 dir.
Proof.
  intros Hv0 Hv Ha Hg2 Hp Hup Hz. pose proof Ha as [Ht Ho Hn]. split.
  - by apply (took_grows _ _ _ _ _ _ _ Ht).
  - intros v' Hv' Hout. rewrite Hp by done. destruct (Z.eqb_spec v' v); [lia|]. apply Ho; [done|lia].
  - intros v' Hin. destruct (Z.eq_dec v' v) as [->|Hne].
    + rewrite Hup. split_and!; [|by rewrite Hp, Z.eqb_refl by lia|done]. apply (tk_free _ _ _ _ _ _ Ht). by left.
    + apply (allocated_keep no_pages v0 v s s1 s2 free (p :: free1) (λ v', v' = v) dir); try done; try lia.
      * intros v1 _ Hu. by apply (grows_user _ _ _ _ _ _ v1 _ Hg2 (tk_ok _ _ _ _ _ _ Ht)).
      * intros v1 Hv1 Hne1. rewrite Hp by done. by destruct (Z.eqb_spec v1 v).
Qed.

(** ** The failing path of [allocuvm] *)

(** Everything as before, apart from tables that stay. *)
Record undone (Hd : Z → Prop) (P : Z → Prop) (s s' : kstate) (free free' : list Z) (dir : Z) : Prop := {
  un_ok : vm_ok s' free' dir;
  un_owns : ∀ p, p ∈ free' ∨ owns (kmem s') dir p ∨ Hd p ↔ p ∈ free ∨ owns (kmem s) dir p;
  un_pte : ∀ v, 0 <= v < 2^20 → ¬ P v → pte (kmem s') dir v = pte (kmem s) dir v;
  un_gone : ∀ v, 0 <= v < 2^20 → P v → has (pte (kmem s') dir v) PTE_P = false;
  un_only : only_pages (λ p, p ∈ free ∨ tpage (kmem s) dir p) (kmem s) (kmem s') }.

Lemma alloc_undo Hd v0 v s s1 s2 free free1 free2 dir newsz :
  0 <= v0 <= v → PGSIZE * v < newsz + PGSIZE → newsz < KERNBASE →
  (∀ v', PGSIZE * v0 <= PGSIZE * v' < newsz → has (pte (kmem s) dir v') PTE_P = false) →
  allocated Hd v0 v s s1 free free1 dir →
  shrinks (λ v', PGSIZE * v0 <= PGSIZE * v' < newsz) s1 s2 free1 free2 dir →
  undone Hd (λ v', PGSIZE * v0 <= PGSIZE * v' < newsz) s s2 free free2 dir.
Proof.
  intros Hv0 Hvn Hnk Habs [[O W T En F N] Ho Hn] [O2 W2 T2 E2 G2 N2 F2 L2]. split; [done|..].
  - intros p. by rewrite <- (W p), !(assoc (∨)), (W2 p).
  - intros v' Hv' Hout. rewrite E2, Ho; try done. intros Hin. apply Hout. unfold PGSIZE in *. lia.
  - done.
  - apply (only_trans _ _ _ _ _ _ N N2). intros p [?|[[?|?]%En|(v' & HP & Hu)]]; [done|by right|by left|].
    destruct (decide (v0 <= v' < v)) as [Hin|Hout].
    + destruct (Hn v' Hin) as (Hf & _ & _). destruct Hu as (_ & _ & ->). by left.
    + destruct Hu as (Hr & Hh & _). rewrite Ho in Hh by lia. by rewrite Habs in Hh.
Qed.

(** A page is given back. *)
Lemma kfree_vm s free dir p :
  vm_ok s free dir → spare s free dir p →
  ∃ s', kfree kend p s = Ret tt s' ∧ vm_ok s' (p :: free) dir ∧ (∀ q, owns (kmem s') dir q ↔ owns (kmem s) dir q) ∧
    (∀ v, 0 <= v < 2^20 → pte (kmem s') dir v = pte (kmem s) dir v) ∧ only_pages (λ q, q = p) (kmem s) (kmem s').
Proof.
  intros H (Hp & Hf & Ho). destruct (kfree_spec kend s free p (vo_k _ _ _ _ H) Hp Hf) as (s' & E & Hk & Hu & Hm).
  assert (Hs : ∀ q, tpage (kmem s) dir q → same_page (kmem s) (kmem s') q).
  { intros q Hq x Hx. apply Hm. apply (page_apart kend q p); [apply (vo_page _ _ _ _ H); by left|done| |done].
    intros ->. apply Ho. by left. }
  destruct (vm_ok_frame kend s s' free (p :: free) dir H Hk Hs) as [Hok Hown].
  { intros q Hq [->|?]%elem_of_cons; [done|]. by apply (vo_page _ _ _ _ H) in Hq as [_ ?]. }
  exists s'. split_and!; try done; [by destruct (same_tables _ _ _ Hs) as (_ & _ & ? & _)|].
  intros x Hx. apply Hm. by apply Hx.
Qed.

Lemma undone_free P s s1 s2 free free1 dir p :
  undone (λ q, q = p) P s s1 free free1 dir → p ∈ free → vm_ok s2 (p :: free1) dir →
  (∀ q, owns (kmem s2) dir q ↔ owns (kmem s1) dir q) →
  (∀ v, 0 <= v < 2^20 → pte (kmem s2) dir v = pte (kmem s1) dir v) → only_pages (λ q, q = p) (kmem s1) (kmem s2) →
  undone no_pages P s s2 free (p :: free1) dir.
Proof.
  intros [O W E G N] Hpf H2 Hown Hp Ho. split; [done|..].
  - intros q. rewrite Hown, !elem_of_cons. specialize (W q). unfold no_pages. tauto.
  - intros v Hv Hn. by rewrite Hp, E.
  - intros v Hv HP. rewrite Hp by done. auto.
  - apply (only_trans _ _ _ _ _ _ N Ho). by intros q [?| ->]; [|left].
Qed.

Lemma took_refl s free dir : vm_ok s free dir → took no_pages s s free free dir.
Proof. unfold no_pages. intros H. split; auto; [|by intros x]. intros p. by rewrite (right_id False (∨)). Qed.

Lemma allocated_same v0 v s s1 s2 free dir :
  allocated no_pages v0 v s s1 free [] dir → grows no_pages s1 s2 [] [] dir → kmem s2 = kmem s1 →
  allocated no_pages v0 v s s2 free [] dir.
Proof.
  intros [Ht Ho Hn] Hg Hm. split; rewrite ?Hm; try done. by apply (took_grows _ _ _ _ _ _ _ Ht).
Qed.

(** The page [p] was taken from the free list, the tables grew, and [p] is still
    in hand. *)
Lemma took_held s s1 s1' s2 free free1 free2 dir p :
  took no_pages s s1 free (p :: free1) dir →
  (∀ q, owns (kmem s1') dir q ↔ owns (kmem s1) dir q) → (∀ q, tpage (kmem s1') dir q ↔ tpage (kmem s1) dir q) →
  only_pages (λ q, q = p) (kmem s1) (kmem s1') →
  grows no_pages s1' s2 free1 free2 dir → took (λ q, q = p) s s2 free free2 dir.
Proof.
  unfold no_pages. intros [O1 W1 T1 E1 F1 N1] Hown Htp Ho [O2 W2 T2 E2 F2 N2 _]. split; [done|..].
  - intros q. specialize (W1 q). rewrite elem_of_cons, (right_id False (∨)) in W1. rewrite <- W1.
    specialize (W2 q). rewrite Hown, (right_id False (∨)) in W2. rewrite (assoc (∨)), W2. clear. tauto.
  - intros q Hq. by apply T2, Htp, T1.
  - intros q [Hq%Htp|Hq]%E2; [auto|]. right. apply F1. by right.
  - intros q Hq%F2. apply F1. by right.
  - apply (only_trans _ (λ q, q ∈ free ∨ tpage (kmem s) dir q) _ _ _ _ N1); [|tauto].
    apply (only_trans _ _ _ _ _ _ Ho N2). intros q [->|[Hq|Hq%Htp%E1]]; [left; apply F1; by left|left; apply F1; by right|tauto].
Qed.

Lemma zero_page m p : only_pages (λ q, q = p) m (memset m p 0 PGSIZE) ∧ ∀ x, in_page p x → memset m p 0 PGSIZE x = 0.
Proof.
  split; [apply only_memset|]. intros x Hx. rewrite memset_lookup. unfold in_page in Hx. zcases.
Qed.

Lemma allocated_held v0 v s s1 s2 s3 free free1 free3 dir p m1 :
  0 <= v0 → v <= 2^19 → allocated no_pages v0 v s s1 free (p :: free1) dir → vm_ok s2 free1 dir → spare s2 free1 dir p →
  kmem s2 = kmem s1 → only_pages (λ q, q = p) (kmem s1) m1 → byte_mem m1 →
  grows no_pages (KState (kmem_lock s2) (use_lock s2) (freelist s2) m1) s3 free1 free3 dir →
  (∀ v, 0 <= v < 2^20 → pte (kmem s3) dir v = pte (kmem s1) dir v) →
  allocated (λ q, q = p) v0 v s s3 free free3 dir.
Proof.
  intros Hv0 Hv Ha H2 Hsp Hm Ho Hb Hg Hp. rewrite <- Hm in Ho.
  destruct (spare_write s2 free1 dir p m1 H2 Hsp Ho Hb _ eq_refl) as (H2' & _ & Hown & Htp & Hpte).
  rewrite Hm in *. pose proof Ha as [Ht Hold Hnew]. split.
  - by apply (took_held s s1 (KState (kmem_lock s2) (use_lock s2) (freelist s2) m1) s3 free free1 free3 dir p).
  - intros v' ??. rewrite Hp by done. auto.
  - apply (allocated_keep no_pages v0 v s s1 s3 free (p :: free1) (λ _, False) dir); try done; [|auto].
    intros v' _ Hu x Hx. pose proof (tk_ok _ _ _ _ _ _ Ht) as H1.
    destruct (vo_page _ _ _ _ H1 (upg (kmem s1) dir v')) as [Hup Hupf]; [right; eauto|].
    rewrite (grows_user _ _ _ _ _ _ v' (upg (kmem s1) dir v') Hg H2'); [|cbn|done].
    + apply Ho. intros q ->. apply (page_apart kend (upg (kmem s1) dir v') p); [done|apply Hsp| |done].
      intros E. apply Hupf. rewrite E. by left.
    + destruct Hu as (Hr & Hh & _). unfold upage, upg. rewrite Hpte by lia. done.
Qed.

(** An address space whose user pages have numbers below [n] has at most [n]
    pages besides its directory and tables. *)
Lemma owns_bound m dir n l :
  0 <= n → (∀ v, n <= v < 2^19 → has (pte m dir v) PTE_P = false) →
  NoDup l → (∀ p, p ∈ l → owns m dir p) → Z.of_nat (length l) <= 1025 + n.
Proof.
  intros Hn Habs Hnd Hl.
  set (all := dir :: (tabof m dir <$> seqZ 0 1024) ++ (upg m dir <$> seqZ 0 n)).
  assert (Hsub : l ⊆+ all).
  { apply NoDup_submseteq; [done|]. intros p [[->|(d & Hd & _ & ->)]|(v & Hv & Hh & ->)]%Hl; unfold all.
    - by left.
    - right. apply elem_of_app. left. apply list_elem_of_fmap_2. by apply elem_of_seqZ.
    - right. apply elem_of_app. right. apply list_elem_of_fmap_2. apply elem_of_seqZ.
      destruct (Z.lt_ge_cases v n); [lia|]. by rewrite Habs in Hh by lia. }
  apply submseteq_length in Hsub. revert Hsub. unfold all. cbn [length]. rewrite length_app, !length_fmap, !length_seqZ. lia.
Qed.

(** Out of memory: no more pages than [n], the tables and one in hand. *)
Definition few_pages (s : kstate) (free : list Z) (dir n : Z) : Prop :=
  ∀ l, NoDup l → (∀ p, p ∈ l → p ∈ free ∨ owns (kmem s) dir p) → Z.of_nat (length l) <= 1026 + n.

Lemma few_pages_grows s s1 free free1 dir n :
  grows no_pages s s1 free free1 dir → few_pages s1 free1 dir n → few_pages s free dir n.
Proof.
  intros Hg Hf l Hnd Hl. apply Hf; [done|]. intros p Hp. apply (g_owns _ _ _ _ _ _ _ Hg).
  apply Hl in Hp as [?|?]; auto.
Qed.

Lemma few_pages_none s dir n :
  0 <= n → (∀ v, n <= v < 2^19 → has (pte (kmem s) dir v) PTE_P = false) → few_pages s [] dir n.
Proof.
  intros Hn Habs l Hnd Hl. assert (Z.of_nat (length l) <= 1025 + n); [|lia]. apply (owns_bound (kmem s) dir); try done.
  intros p Hp. by apply Hl in Hp as [?%elem_of_nil|?].
Qed.

Lemma few_pages_held (Hd : Z → Prop) v0 v s s1 free dir p :
  0 <= v0 <= v → allocated Hd v0 v s s1 free [] dir → (∀ q, Hd q → q = p) →
  (∀ v', v0 <= v' < 2^19 → has (pte (kmem s) dir v') PTE_P = false) → few_pages s free dir v.
Proof.
  intros Hv Ha HHd Habs l Hnd Hl. pose proof Ha as [Ht Ho Hn].
  assert (Hb : Z.of_nat (length (filter (λ q, q ≠ p) l)) <= 1025 + v).
  { apply (owns_bound (kmem s1) dir v); [lia| |by apply NoDup_filter|].
    - intros v' Hv'. rewrite Ho by lia. apply Habs. lia.
    - intros q [Hne Hq]%list_elem_of_filter. apply Hl, (tk_owns _ _ _ _ _ _ Ht) in Hq as [Hq|[Hq|Hq%HHd]]; [set_solver|done|done]. }
  assert (Hsub : l ⊆+ p :: filter (λ q, q ≠ p) l).
  { apply NoDup_submseteq; [done|]. intros q Hq. destruct (decide (q = p)) as [->|]; [by left|right].
    by apply list_elem_of_filter. }
  apply submseteq_length in Hsub. cbn in Hsub. lia.
Qed.

Lemma alloc_loop_spec dir oldsz newsz v0 s free :
  vm_ok s free dir → 0 <= oldsz <= newsz → newsz < KERNBASE → PGROUNDUP oldsz = PGSIZE * v0 → 0 <= v0 →
  (∀ v', PGSIZE * v0 <= PGSIZE * v' < newsz → has (pte (kmem s) dir v') PTE_P = false) →
  ∀ fuel v s1 free1, v0 <= v → PGSIZE * v < newsz + PGSIZE ∨ v = v0 → newsz <= PGSIZE * (v + Z.of_nat fuel) →
  allocated no_pages v0 v s s1 free free1 dir →
  ∃ r s' free', allocuvm_loop kend fuel dir oldsz newsz (PGSIZE * v) s1 = Ret r s' ∧
    (r = newsz ∧ (∃ v1, newsz <= PGSIZE * v1 ∧ (PGSIZE * v1 < newsz + PGSIZE ∨ v1 = v0) ∧
                   allocated no_pages v0 v1 s s' free free' dir) ∨
     r = 0 ∧ undone no_pages (λ v', PGSIZE * v0 <= PGSIZE * v' < newsz) s s' free free' dir ∧
       ((∀ v', v0 <= v' < 2^19 → has (pte (kmem s) dir v') PTE_P = false) →
        ∃ n, PGSIZE * n < newsz ∧ few_pages s free dir n)).
Proof.
  intros H Ho Hk Hup Hv0 Habs. assert (Hov : oldsz <= PGSIZE * v0).
  { rewrite <- Hup, PGROUNDUP_eq by (unfold KERNBASE, PGSIZE in *; lia). unfold PGSIZE. Z.div_mod_to_equations; lia. }
  induction fuel as [|fuel IH]; intros v s1 free1 Hv Hvn Hf Ha; cbn [allocuvm_loop];
    (destruct (Z.ltb_spec (PGSIZE * v) newsz) as [Hlt|Hge];
     [|exists newsz, s1, free1; split; [done|]; left; split; [done|]; exists v; done]).
  { unfold PGSIZE in *. lia. }
  assert (Hv19 : 0 <= v < 2^19) by (unfold KERNBASE, PGSIZE in *; lia).
  pose proof Ha as [Ht Hold Hnew]. pose proof (tk_ok _ _ _ _ _ _ Ht) as H1.
  assert (Hdealloc : ∀ Hd s2 free2, allocated Hd v0 v s s2 free free2 dir →
    ∃ s3 free3, deallocuvm kend dir newsz oldsz s2 = Ret oldsz s3 ∧ (∀ p, spare s2 free2 dir p → spare s3 free3 dir p) ∧
      undone Hd (λ v', PGSIZE * v0 <= PGSIZE * v' < newsz) s s3 free free3 dir).
  { intros Hd s2 free2 Ha2. destruct (dealloc_spec s2 free2 dir newsz oldsz) as (s3 & free3 & E3 & Hs3);
      [apply Ha2|unfold PGSIZE in *; lia|lia|].
    exists s3, free3. split; [done|]. split; [by intros p; apply (shrinks_spare _ _ _ _ _ _ _ Hs3)|]. rewrite Hup in Hs3. apply (alloc_undo Hd v0 v s s2 s3 free free2 free3 dir newsz); try done; unfold PGSIZE in *; lia. }
  unfold bind at 1. destruct (kalloc_vm s1 free1 dir H1) as [(s2 & -> & -> & Hg2 & Hm2)|
    (p & free2 & s2 & -> & -> & H2 & Hsp & Hp0 & Hm2 & Hul2)].
  { destruct (Hdealloc no_pages s2 []) as (s3 & free3 & E3 & _ & Hun); [by apply (allocated_same v0 v s s1)|].
    exists 0, s3, free3. split; [rewrite Z.eqb_refl; unfold bind; by rewrite E3|]. right. split; [done|]. split; [done|].
    intros Habs2. exists v. split; [done|]. by apply (few_pages_held no_pages v0 v s s1 free dir 0). }
  destruct (Z.eqb_spec p 0); [done|]. unfold bind at 1, on_mem, modify.
  destruct (zero_page (kmem s2) p) as [Hzo Hz]. set (m1 := memset (kmem s2) p 0 PGSIZE) in *.
  assert (Hb : byte_mem m1) by (apply memset_byte_mem; apply H2). rewrite Hm2 in Hzo.
  destruct (map_fresh s1 free2 dir p v m1 (Z.lor PTE_W PTE_U) s2) with (s1' := KState (kmem_lock s2) (use_lock s2) (freelist s2) m1)
    as (r & s3 & free3 & E3 & Hr); try done.
  { rewrite Hold by (try lia). apply Habs. unfold PGSIZE in *. lia. }
  unfold bind at 1. rewrite E3. destruct Hr as [(-> & Hg3 & Hnil3 & Hsp3 & Hp3)|(-> & Hg3 & Hp3 & Hu3 & Hz3)]; cbn [Z.ltb Z.compare].
  - assert (Ha3 : allocated (λ q, q = p) v0 v s s3 free free3 dir).
    { apply (allocated_held v0 v s s1 s2 s3 free free2 free3 dir p m1); try done; lia. }
    destruct (Hdealloc _ s3 free3 Ha3) as (s4 & free4 & E4 & Hsp4 & Hun). unfold bind at 1. rewrite E4.
    destruct (kfree_vm s4 free4 dir p) as (s5 & E5 & H5 & Hown5 & Hpte5 & Ho5); [apply Hun|by apply Hsp4|].
    unfold bind. rewrite E5. exists 0, s5, (p :: free4). split; [done|]. right. split; [done|]. subst free3. split.
    2:{ intros Habs2. exists v. split; [done|]. by apply (few_pages_held (λ q, q = p) v0 v s s3 free dir p). }
    apply (undone_free _ s s4 s5 free free4 dir p); try done. apply (tk_free _ _ _ _ _ _ Ht). by left.
  - rewrite u32_small by (unfold PGSIZE; lia). replace (PGSIZE * v + PGSIZE) with (PGSIZE * (v + 1)) by lia.
    apply (IH (v + 1) s3 free3); [lia|left; unfold PGSIZE in *; lia|unfold PGSIZE in *; lia|].
    apply (allocated_step v0 v s s1 s3 free free2 free3 dir p); try done; try lia.
    intros x Hx. rewrite Hz3 by done. by apply Hz.
Qed.

End Spec.
