(* ===== verification/VmFree.v ===== *)
(** * Address spaces: freeing, the kernel part, and copying *)

From S2P Require Import Prelude Memory KString Spinlock Kalloc Proc Vm VmTables VmSpec.

Section Free.
Context (kend data : Z) (Hkend : KERNLINK < kend).
Abbreviation vm_ok := (vm_ok kend).
Abbreviation grows := (grows kend).

(** ** freevm *)

(** The tables with numbers below [i] have been freed. *)
Record tables_freed (s0 s : kstate) (free0 free : list Z) (dir i : Z) : Prop := {
  tf_kinv : kinv kend s free;
  tf_dir : same_page (kmem s0) (kmem s) dir;
  tf_free : ∀ p, p ∈ free ↔ p ∈ free0 ∨
    ∃ d, 0 <= d < i ∧ has (pde (kmem s0) dir d) PTE_P = true ∧ p = tabof (kmem s0) dir d;
  tf_only : only_pages (tpage (kmem s0) dir) (kmem s0) (kmem s) }.

Lemma free_table_step s0 s free0 free dir i :
  vm_ok s0 free0 dir → 0 <= i < 1024 → tables_freed s0 s free0 free dir i →
  ∃ s' free', (e <- word (dir + 4 * i) ;; when has e PTE_P do kfree kend (P2V (PTE_ADDR e))) s = Ret tt s' ∧
    tables_freed s0 s' free0 free' dir (i + 1).
Proof.
  intros H Hi [Hk Hd Hf Ho]. unfold bind, word, gets.
  assert (E : load32 (kmem s) (dir + 4 * i) = pde (kmem s0) dir i) by (by apply same_pde).
  rewrite E. destruct (has (pde (kmem s0) dir i) PTE_P) eqn:Eh.
  - fold (tabof (kmem s0) dir i). set (t := tabof (kmem s0) dir i).
    destruct (tab_page kend s0 free0 dir i H Hi Eh) as [Ht Htf]. fold t in Ht, Htf.
    assert (Hnin : t ∉ free).
    { intros [?|(d & Hd' & Hh & Et)]%Hf; [done|]. assert (i = d) as -> by (apply (vo_tinj _ _ _ _ H); try done; lia). lia. }
    destruct (kfree_spec kend s free t Hk Ht Hnin) as (s' & Es & Hk' & _ & Hm).
    exists s', (t :: free). split; [done|]. split; [done|..].
    + intros x Hx. rewrite Hm; [by apply Hd|]. apply (page_apart kend dir t); [by eapply dir_page|done| |done].
      intros Edir. by apply (vo_tdir _ _ _ _ H i).
    + intros p. rewrite elem_of_cons, Hf. split.
      * intros [->|[?|(d & ? & ? & ?)]]; [right; exists i|by left|right; exists d]; (split; [lia|done]).
      * intros [?|(d & Hd' & Hh & ->)]; [by right; left|]. destruct (Z.eq_dec d i) as [->|]; [by left|].
        right. right. exists d. split; [lia|done].
    + apply (only_trans _ (λ q, q = t) _ _ _ _ Ho); [intros x Hx; apply Hm; by apply Hx|].
      intros p [?| ->]; [done|]. right. exists i. done.
  - exists s, free. split; [done|]. split; try done. intros p. rewrite Hf. split.
    + intros [?|(d & ? & ? & ?)]; [by left|right; exists d]. split; [lia|done].
    + intros [?|(d & Hd' & Hh & ->)]; [by left|right; exists d]. assert (d ≠ i) by (intros ->; congruence).
      split; [lia|done].
Qed.

Lemma free_tables_spec s free dir :
  vm_ok s free dir →
  ∃ s' free', free_tables kend dir s = Ret tt s' ∧ tables_freed s s' free free' dir 1024.
Proof.
  intros H.
  destruct (for_all_inv (λ ys s', ∃ i free', ys = seqZ i (1024 - i) ∧ 0 <= i <= 1024 ∧ tables_freed s s' free free' dir i)
    (λ i, e <- word (dir + 4 * i) ;; when has e PTE_P do kfree kend (P2V (PTE_ADDR e))) (seqZ 0 NPDENTRIES) s)
    as (s' & E & (i & free' & Ei & Hi & Ht)).
  - intros x ys s1 (i & free1 & Ei & Hi & Ht). destruct (decide (i = 1024)) as [->|]; [done|].
    rewrite seqZ_cons in Ei by lia. injection Ei as -> ->.
    destruct (free_table_step s s1 free free1 dir i H) as (s2 & free2 & E2 & Ht2); [lia|done|].
    exists s2. split; [done|]. exists (i + 1), free2. split_and!; [|lia|lia|done]. f_equal; lia.
  - exists 0, free. split_and!; [done|lia|lia|]. split; [apply H|done| |by intros x].
    intros p. split; [auto|]. intros [?|(d & ? & _)]; [done|lia].
  - assert (i = 1024) as ->.
    { destruct (decide (i = 1024)); [done|]. rewrite seqZ_cons in Ei by lia. done. }
    exists s', free'. done.
Qed.

(** [freevm] returns every page of the address space, and touches no other. *)
Lemma freevm_spec s free dir :
  vm_ok s free dir →
  ∃ s' free', freevm kend dir s = Ret tt s' ∧ kinv kend s' free' ∧
    (∀ p, p ∈ free' ↔ p ∈ free ∨ owns (kmem s) dir p) ∧ only_pages (owns (kmem s) dir) (kmem s) (kmem s').
Proof.
  intros H. unfold freevm. destruct (dir_page kend _ _ _ H) as [Hdp Hdf].
  destruct (Z.eqb_spec dir 0) as [->|_]; [destruct Hdp; lia|].
  destruct (dealloc_spec kend Hkend s free dir KERNBASE 0 H) as (s1 & free1 & E1 & Hs1); [unfold KERNBASE; lia|lia|].
  pose proof (sh_ok _ _ _ _ _ _ _ Hs1) as H1.
  assert (Hnu : ∀ v p, ¬ upage (kmem s1) dir v p).
  { intros v p (Hv & Hh & _). rewrite (sh_gone _ _ _ _ _ _ _ Hs1) in Hh; [done|lia|].
    change (PGROUNDUP 0) with 0. unfold PGSIZE, KERNBASE. lia. }
  destruct (free_tables_spec s1 free1 dir H1) as (s2 & free2 & E2 & [Hk2 Hd2 Hf2 Ho2]).
  assert (Hdn : dir ∉ free2).
  { intros [?|(d & Hd & Hh & E)]%Hf2; [by apply (dir_page kend _ _ _ H1)|]. by apply (vo_tdir _ _ _ _ H1 d). }
  destruct (kfree_spec kend s2 free2 dir Hk2 Hdp Hdn) as (s3 & E3 & Hk3 & _ & Hm3).
  exists s3, (dir :: free2). unfold bind. rewrite E1, E2, E3. split_and!; [done..| |].
  - intros p. rewrite <- (sh_owns _ _ _ _ _ _ _ Hs1), elem_of_cons, Hf2. unfold owns, tpage. split.
    + intros [->|[?|?]]; eauto 6.
    + intros [?|[[->|?]|[v Hu]]]; auto. by apply Hnu in Hu.
  - apply (only_trans (owns (kmem s) dir) (λ p, p = dir) (owns (kmem s) dir) _ (kmem s2)).
    + apply (only_trans _ _ (owns (kmem s) dir) _ _ _ (sh_only _ _ _ _ _ _ _ Hs1) Ho2).
      intros p [[?|(v & _ & ?)]|?%(sh_tabs _ _ _ _ _ _ _ Hs1)]; [by left|right; eauto|by left].
    + intros x Hx. apply Hm3. by apply Hx.
    + intros p [?| ->]; [done|]. left. by left.
Qed.

(** ** The kernel part of an address space *)

(** Mapping [n] pages from number [v] up, above user memory. *)
Lemma mappages_loop_kernel dir perm n : ∀ s free v pa,
  vm_ok s free dir → 2^19 <= v → v + Z.of_nat n < 2^20 → flags_ok perm →
  (∀ v', v <= v' <= v + Z.of_nat n → has (pte (kmem s) dir v') PTE_P = false) →
  0 <= pa → pa mod PGSIZE = 0 → pa + PGSIZE * (Z.of_nat n + 1) <= 2^32 →
  ∃ r s' free', mappages_loop (S n) dir (PGSIZE * v) (PGSIZE * (v + Z.of_nat n)) pa perm s = Ret r s' ∧
    grows no_pages s s' free free' dir ∧
    (∀ v', 0 <= v' < 2^20 → ¬ v <= v' <= v + Z.of_nat n → pte (kmem s') dir v' = pte (kmem s) dir v') ∧
    (r = -1 ∧ free' = [] ∨ r = 0 ∧
      ∀ v', v <= v' <= v + Z.of_nat n → pte (kmem s') dir v' = page_entry (pa + PGSIZE * (v' - v)) perm).
Proof.
  induction n as [|n IH]; intros s free v pa H Hv Hn Hf Habs Hpa Hal Hmax;
    (match goal with |- context [mappages_loop (S ?k)] =>
       destruct (map_step kend k s free dir v (PGSIZE * (v + Z.of_nat k)) pa perm) as (s1 & free1 & Hc) end;
     [done|lia|apply Habs; lia|unfold PGSIZE in *; lia|done|done|lia|]);
    (destruct Hc as [(E & Hg & Hnil & Hp)|(E & Hg & Hp)];
     [exists (-1), s1, free1; rewrite E; split_and!; auto|]).
  - replace (v + Z.of_nat 0) with v in * by lia. rewrite Z.eqb_refl in E. exists 0, s1, free1. split; [done|].
    split; [|split].
    + destruct Hg as [O W T En F N L]. split; try done. intros q. rewrite W. unfold no_pages. intuition lia.
    + intros v' ? ?. rewrite Hp by done. destruct (Z.eqb_spec v' v); [lia|done].
    + right. split; [done|]. intros v' ?. assert (v' = v) as -> by lia. rewrite Hp, Z.eqb_refl by lia. f_equal. lia.
  - destruct (Z.eqb_spec (PGSIZE * v) (PGSIZE * (v + Z.of_nat (S n)))) as [?|_]; [unfold PGSIZE in *; lia|].
    rewrite !u32_small in E by (unfold PGSIZE in *; lia).
    replace (PGSIZE * v + PGSIZE) with (PGSIZE * (v + 1)) in E by lia.
    replace (v + Z.of_nat (S n)) with (v + 1 + Z.of_nat n) in * by lia.
    assert (Hg' : grows no_pages s s1 free free1 dir).
    { destruct Hg as [O W T En F N L]. split; try done. intros q. rewrite W. unfold no_pages. intuition lia. }
    destruct (IH s1 free1 (v + 1) (pa + PGSIZE)) as (r & s2 & free2 & E2 & Hg2 & Hout & Hr).
    + apply Hg.
    + lia.
    + lia.
    + done.
    + intros v' ?. rewrite Hp by lia. destruct (Z.eqb_spec v' v); [lia|]. apply Habs. lia.
    + unfold PGSIZE. lia.
    + unfold PGSIZE in *. Z.div_mod_to_equations. lia.
    + unfold PGSIZE in *. lia.
    + exists r, s2, free2. rewrite E, E2. split; [done|]. split; [|split].
      * apply (grows_trans kend _ _ _ _ _ _ _ _ _ _ Hg' Hg2). unfold no_pages. tauto.
      * intros v' ? ?. rewrite Hout, Hp by lia. destruct (Z.eqb_spec v' v); [lia|done].
      * destruct Hr as [?|[-> Hin]]; [by left|right]. split; [done|]. intros v' ?.
        destruct (Z.eq_dec v' v) as [->|].
        -- rewrite Hout, Hp, Z.eqb_refl by lia. f_equal. lia.
        -- rewrite Hin by lia. f_equal. lia.
Qed.

(** A region of [n] pages at page number [v], as [kmap] lists them. *)
Record region (k : kmap_entry) (v n : Z) : Prop := {
  rg_virt : virt k = PGSIZE * v;
  rg_range : 2^19 <= v ∧ 0 < n ∧ v + n <= 2^20;
  rg_size : u32 (phys_end k - phys_start k) = PGSIZE * n;
  rg_phys : 0 <= phys_start k ∧ phys_start k mod PGSIZE = 0 ∧ phys_start k + PGSIZE * n <= 2^32;
  rg_perm : flags_ok (kperm k) }.

Lemma mappages_region s free dir k v n :
  vm_ok s free dir → region k v n →
  (∀ v', v <= v' < v + n → has (pte (kmem s) dir v') PTE_P = false) →
  ∃ r s' free', mappages dir (virt k) (u32 (phys_end k - phys_start k)) (phys_start k) (kperm k) s = Ret r s' ∧
    grows no_pages s s' free free' dir ∧
    (∀ v', 0 <= v' < 2^20 → ¬ v <= v' < v + n → pte (kmem s') dir v' = pte (kmem s) dir v') ∧
    (r = -1 ∧ free' = [] ∨ r = 0 ∧
      ∀ v', v <= v' < v + n → pte (kmem s') dir v' = page_entry (phys_start k + PGSIZE * (v' - v)) (kperm k)).
Proof.
  intros H [Hvirt Hr Hsz Hph Hpm] Habs. unfold mappages. rewrite Hvirt, Hsz.
  assert (E1 : PGROUNDDOWN (PGSIZE * v) = PGSIZE * v).
  { rewrite PGROUNDDOWN_eq by (unfold PGSIZE; lia). unfold PGSIZE. Z.div_mod_to_equations; lia. }
  assert (E2 : PGROUNDDOWN (u32 (PGSIZE * v + PGSIZE * n - 1)) = PGSIZE * (v + (n - 1))).
  { rewrite u32_small by (unfold PGSIZE; lia). rewrite PGROUNDDOWN_eq by (unfold PGSIZE; lia).
    unfold PGSIZE. Z.div_mod_to_equations; lia. }
  rewrite E1, E2.
  assert (Z.to_nat (1 + u32 (PGSIZE * (v + (n - 1)) - PGSIZE * v) / PGSIZE) = S (Z.to_nat (n - 1))) as ->.
  { rewrite u32_small by (unfold PGSIZE; lia).
    replace ((PGSIZE * (v + (n - 1)) - PGSIZE * v) / PGSIZE) with (n - 1) by (unfold PGSIZE; Z.div_mod_to_equations; lia).
    lia. }
  destruct (mappages_loop_kernel dir (kperm k) (Z.to_nat (n - 1)) s free v (phys_start k)) as (r & s' & free' & E & Hg & Hout & Hin);
    [done|lia|lia|done|intros v' ?; apply Habs; lia|lia|lia|unfold PGSIZE in *; lia|].
  rewrite Z2Nat.id in * by lia. exists r, s', free'. split; [done|]. split; [done|]. split.
  - intros v' ??. apply Hout; lia.
  - destruct Hin as [?|[? Hin]]; [by left|right]. split; [done|]. intros v' ?. apply Hin. lia.
Qed.

Fixpoint regions (lo : Z) (ks : list kmap_entry) (rs : list (Z * Z)) : Prop :=
  match ks, rs with
  | [], [] => True
  | k :: ks', (v, n) :: rs' => region k v n ∧ lo <= v ∧ regions (v + n) ks' rs'
  | _, _ => False
  end.

(** The entries of every region. *)
Definition mapped (m : mem) (dir : Z) (ks : list kmap_entry) (rs : list (Z * Z)) : Prop :=
  Forall2 (λ k '(v, n), ∀ v', v <= v' < v + n → pte m dir v' = page_entry (phys_start k + PGSIZE * (v' - v)) (kperm k)) ks rs.

Lemma regions_above ks : ∀ rs lo, regions lo ks rs →
  Forall (λ r : Z * Z, lo <= r.1 ∧ 2^19 <= r.1 ∧ r.1 + r.2 <= 2^20) rs.
Proof.
  induction ks as [|k ks IH]; intros [|[v n] rs] lo; cbn; try done.
  intros (Hr & Hlo & Hrs). pose proof (rg_range _ _ _ Hr). constructor; [cbn; lia|].
  eapply Forall_impl; [by apply IH|]. intros [v' n']; cbn. lia.
Qed.

Lemma mapped_keep m m' dir ks rs :
  mapped m dir ks rs → (∀ r, r ∈ rs → ∀ v', r.1 <= v' < r.1 + r.2 → pte m' dir v' = pte m dir v') →
  mapped m' dir ks rs.
Proof.
  unfold mapped. induction 1 as [|k [v n] ks rs Hkv Hm IH]; intros Hp; constructor.
  - intros v' Hv'. rewrite (Hp (v, n)); [auto|by left|done].
  - apply IH. intros r Hr. apply Hp. by right.
Qed.

Lemma map_kernel_spec dir ks : ∀ rs lo s free,
  vm_ok s free dir → 2^19 <= lo → regions lo ks rs →
  (∀ v', lo <= v' < 2^20 → has (pte (kmem s) dir v') PTE_P = false) →
  ∃ r s' free', map_kernel kend dir ks s = Ret r s' ∧
    (r = dir ∧ grows no_pages s s' free free' dir ∧
       (∀ v', 0 <= v' < lo → pte (kmem s') dir v' = pte (kmem s) dir v') ∧ mapped (kmem s') dir ks rs ∨
     r = 0 ∧ kinv kend s' free' ∧ (∀ p, p ∈ free' ↔ p ∈ free ∨ owns (kmem s) dir p) ∧
       only_pages (λ p, p ∈ free ∨ owns (kmem s) dir p) (kmem s) (kmem s') ∧
       ((∀ v', 0 <= v' < 2^19 → has (pte (kmem s) dir v') PTE_P = false) → few_pages s free dir 0)).
Proof.
  induction ks as [|k ks IH]; intros [|[v n] rs] lo s free H Hlo Hrs Habs; cbn in Hrs; try done.
  { exists dir, s, free. split; [done|]. left. split_and!; [done|by apply grows_refl|done|constructor]. }
  destruct Hrs as (Hr & Hv & Hrs). pose proof (rg_range _ _ _ Hr) as Hrange. cbn [map_kernel].
  destruct (mappages_region s free dir k v n H Hr) as (r & s1 & free1 & E & Hg & Hout & Hin).
  { intros v' ?. apply Habs. lia. }
  pose proof (g_ok _ _ _ _ _ _ _ Hg) as H1. unfold bind at 1. rewrite E. destruct Hin as [[-> Hnil]|[-> Hin]]; cbn [Z.ltb Z.compare].
  - destruct (freevm_spec s1 free1 dir H1) as (s2 & free2 & E2 & Hk2 & Hf2 & Ho2).
    exists 0, s2, free2. unfold bind. rewrite E2. split; [done|]. right. split_and!; try done.
    + intros p. rewrite Hf2, (g_owns _ _ _ _ _ _ _ Hg). unfold no_pages. tauto.
    + apply (only_trans _ _ _ _ _ _ (g_only _ _ _ _ _ _ _ Hg) Ho2). intros p [[?|?]|?]; [by left|right; by left|].
      assert (Hp : p ∈ free1 ∨ owns (kmem s1) dir p) by auto. apply (g_owns _ _ _ _ _ _ _ Hg) in Hp.
      unfold no_pages in Hp. tauto.
    + intros Hu. subst free1. apply (few_pages_grows kend _ _ _ _ _ _ Hg), few_pages_none; [lia|].
      intros v' ?. rewrite Hout by lia. by apply Hu.
  - destruct (IH rs (v + n) s1 free1 H1) as (r & s2 & free2 & E2 & Hc); [lia|done| |].
    { intros v' ?. rewrite Hout by lia. apply Habs. lia. }
    exists r, s2, free2. rewrite E2. split; [done|]. destruct Hc as [(-> & Hg2 & Hlow & Hm)|(-> & Hk2 & Hf2 & Ho2 & Hfew)]; [left|right].
    + split_and!; [done| | |].
      * apply (grows_trans kend _ _ _ _ _ _ _ _ _ _ Hg Hg2). unfold no_pages. tauto.
      * intros v' ?. rewrite Hlow, Hout by lia. done.
      * constructor; [|done]. intros v' ?. rewrite Hlow by lia. by apply Hin.
    + split_and!; try done.
      * intros p. rewrite Hf2, (g_owns _ _ _ _ _ _ _ Hg). unfold no_pages. tauto.
      * apply (only_trans _ _ _ _ _ _ (g_only _ _ _ _ _ _ _ Hg) Ho2). intros p [[?|?]|Hp]; [by left|right; by left|].
        apply (g_owns _ _ _ _ _ _ _ Hg) in Hp. unfold no_pages in Hp. tauto.
      * intros Hu. apply (few_pages_grows kend _ _ _ _ _ _ Hg), Hfew. intros v' ?. rewrite Hout by lia. by apply Hu.
Qed.

(** ** setupkvm *)

(** The linker script starts the kernel's data on a page of its own. *)
Definition data_ok : Prop := data mod PGSIZE = 0 ∧ KERNLINK < data < KERNBASE + PHYSTOP.

Definition kregions : list (Z * Z) :=
  [(0x80000, 0x100); (0x80100, data / PGSIZE - 0x80100); (data / PGSIZE, 0x8E000 - data / PGSIZE); (0xFE000, 0x2000)].

Lemma kmap_regions : data_ok → regions (2^19) (kmap data) kregions.
Proof.
  intros [Ha Hd]. unfold kmap, kregions. cbn [regions].
  assert (HD : data = PGSIZE * (data / PGSIZE)) by (unfold PGSIZE in *; Z.div_mod_to_equations; lia).
  set (D := data / PGSIZE) in *.
  assert (Hb : 0x80100 < D < 0x8E000) by (unfold KERNLINK, KERNBASE, EXTMEM, PHYSTOP, PGSIZE in *; lia).
  assert (EV : V2P data = PGSIZE * (D - 0x80000)).
  { unfold V2P. rewrite u32_small; unfold KERNBASE, PGSIZE in *; lia. }
  assert (EK : V2P KERNLINK = 0x100000) by done.
  split_and!; try (split; cbn [virt phys_start phys_end kperm]); try done; try lia;
    rewrite ?EV, ?EK; unfold u32, flags_ok, PTE_W, PHYSTOP, EXTMEM, PGSIZE in *; try lia;
    rewrite ?Z.mod_small by lia; try lia; split_and!; try lia; Z.div_mod_to_equations; lia.
Qed.

Lemma empty_vm s free p :
  kinv kend s free → page_ok kend p → p ∉ free → (∀ x, in_page p x → kmem s x = 0) →
  vm_ok s free p ∧ (∀ v, 0 <= v < 2^20 → pte (kmem s) p v = 0) ∧ (∀ q, owns (kmem s) p q ↔ q = p) ∧
  (∀ q, tpage (kmem s) p q ↔ q = p).
Proof.
  intros Hk Hp Hf Hz. assert (Hd : ∀ d, 0 <= d < 1024 → pde (kmem s) p d = 0).
  { intros d Hd. apply load32_zero. intros j Hj. apply Hz. by apply slot_in_page. }
  assert (Hv : ∀ v, 0 <= v < 2^20 → pte (kmem s) p v = 0).
  { intros v Hv. unfold pte. rewrite Hd; [done|]. by apply vdiv. }
  assert (Ht : ∀ q, tpage (kmem s) p q ↔ q = p).
  { intros q. split; [|by left]. intros [->|(d & ? & Hh & _)]; [done|]. by rewrite Hd in Hh. }
  assert (Hu : ∀ v q, ¬ upage (kmem s) p v q) by (intros v q (? & Hh & _); rewrite Hv in Hh by lia; done).
  assert (Ho : ∀ q, owns (kmem s) p q ↔ q = p).
  { intros q. unfold owns. rewrite Ht. split; [|by left]. intros [?|[v ?%Hu]]; done. }
  split_and!; try done. split; try done.
  - by intros q ->%Ho.
  - intros d ? Hh. by rewrite Hd in Hh.
  - intros d d' ?? Hh. by rewrite Hd in Hh.
  - by intros v v' q ?%Hu.
  - by intros v q ?%Hu.
Qed.

(** A new address space made of pages that were free, or none and the same free
    pages as before. *)
Record from_free (s s' : kstate) (free free' : list Z) (d : Z) : Prop := {
  ff_ok : vm_ok s' free' d;
  ff_owns : ∀ p, p ∈ free' ∨ owns (kmem s') d p ↔ p ∈ free;
  ff_only : only_pages (λ p, p ∈ free) (kmem s) (kmem s') }.

Record given_back (s s' : kstate) (free free' : list Z) : Prop := {
  gb_kinv : kinv kend s' free';
  gb_free : ∀ p, p ∈ free' ↔ p ∈ free;
  gb_only : only_pages (λ p, p ∈ free) (kmem s) (kmem s') }.

Lemma setupkvm_spec s free :
  data_ok → kinv kend s free →
  ∃ r s' free', setupkvm kend data s = Ret r s' ∧
    (r ≠ 0 ∧ from_free s s' free free' r ∧ (∀ v, 0 <= v < 2^19 → has (pte (kmem s') r v) PTE_P = false) ∧
       mapped (kmem s') r (kmap data) kregions ∨
     r = 0 ∧ given_back s s' free free' ∧ (length free <= 1026)%nat).
Proof.
  intros Hdata Hk. unfold setupkvm, bind at 1.
  destruct (kalloc_spec kend s free Hk) as (s1 & -> & Hk1 & _ & Hm1). destruct free as [|p free]; cbn [hd tl] in *.
  { exists 0, s1, []. split; [done|]. right. split; [done|]. split; [|cbn; lia]. split; [done|done|]. intros x _. by rewrite Hm1. }
  pose proof (kinv_pages _ _ _ Hk) as Hpp. apply Forall_cons in Hpp as [Hp _].
  pose proof (kinv_nodup _ _ _ Hk) as Hnd. apply NoDup_cons in Hnd as [Hpf _].
  destruct (Z.eqb_spec p 0) as [->|Hp0]; [destruct Hp; lia|].
  unfold bind at 1, on_mem, modify. destruct (zero_page (kmem s1) p) as [Hzo Hz].
  set (s2 := KState _ _ _ _). assert (Hk2 : kinv kend s2 free).
  { apply (kinv_only kend s1 s2 free (λ q, q = p)); try done; [apply memset_byte_mem, Hk1|by intros q ->]. }
  destruct (empty_vm s2 free p Hk2 Hp Hpf Hz) as (H2 & Hv2 & Ho2 & Ht2).
  change (DEVSPACE <? P2V PHYSTOP) with false. cbv iota.
  destruct (map_kernel_spec p (kmap data) kregions (2^19) s2 free H2) as (r & s3 & free3 & E3 & Hc);
    [lia|by apply kmap_regions|intros v' ?; by rewrite Hv2 by lia|].
  assert (Hset : ∀ q, q ∈ free ∨ q = p ↔ q ∈ p :: free) by (intros q; rewrite elem_of_cons; tauto).
  exists r, s3, free3. split; [done|]. destruct Hc as [(-> & Hg & Hlow & Hm)|(-> & Hk3 & Hf3 & Ho3 & Hfew)]; [left|right].
  - split_and!; [done| | |done].
    + split; [apply Hg|..].
      * intros q. rewrite (g_owns _ _ _ _ _ _ _ Hg), Ho2, <- Hset. unfold no_pages. tauto.
      * rewrite <- Hm1. apply (only_trans _ _ _ _ _ _ Hzo (g_only _ _ _ _ _ _ _ Hg)).
        intros q [->|[?|?%Ht2]]; apply Hset; auto.
    + intros v ?. rewrite Hlow, Hv2 by lia. done.
  - split; [done|]. split.
    2:{ apply Nat2Z.inj_le. apply (Hfew ltac:(intros v' ?; by rewrite Hv2 by lia) (p :: free)); [apply Hk|].
        intros q Hq%Hset. by rewrite Ho2. }
    split; [done|..].
    + intros q. by rewrite Hf3, Ho2.
    + rewrite <- Hm1. apply (only_trans _ _ _ _ _ _ Hzo Ho3). intros q [->|[?|?%Ho2]]; apply Hset; auto.
Qed.

(** ** copyuvm *)

Lemma flags_present e : has e PTE_P = true → Z.lor (PTE_FLAGS e) PTE_P = PTE_FLAGS e.
Proof.
  rewrite has_testbit. intros He. unfold PTE_FLAGS, PTE_P, u32. change 0xFFF with (Z.ones 12).
  rewrite <- (Z.land_ones e 32), <- Z.land_assoc by lia. change (Z.land (Z.ones 32) (Z.ones 12)) with (Z.ones 12).
  apply Z.bits_inj'. intros n Hn. rewrite Z.lor_spec, Z.land_spec. destruct (Z.eq_dec n 0) as [->|].
  - by rewrite He.
  - assert (Z.testbit 1 n = false) as -> by (apply (Z.bits_above_log2 1 n); cbn; lia). by rewrite orb_false_r.
Qed.

Lemma PTE_FLAGS_ok e : flags_ok (PTE_FLAGS e).
Proof.
  unfold flags_ok, PTE_FLAGS. change 0xFFF with (Z.ones 12). rewrite Z.land_ones by lia.
  unfold PGSIZE. change (2^12) with 4096. apply Z.mod_pos_bound. lia.
Qed.

(** The pages of [copyuvm] so far: the first [n] pages of the child [d] have the
    flags and contents of the parent's. *)
Record copied (s0 s : kstate) (free0 free : list Z) (pgdir d n : Z) : Prop := {
  cp_from : from_free s0 s free0 free d;
  cp_rest : ∀ v, n <= v < 2^19 → has (pte (kmem s) d v) PTE_P = false;
  cp_done : ∀ v, 0 <= v < n → has (pte (kmem s) d v) PTE_P = true ∧
    PTE_FLAGS (pte (kmem s) d v) = PTE_FLAGS (pte (kmem s0) pgdir v) ∧
    ∀ o, 0 <= o < PGSIZE → kmem s (upg (kmem s) d v + o) = kmem s0 (upg (kmem s0) pgdir v + o) }.

(** The parent is untouched while the child is built from free pages. *)
Lemma parent_ok s0 s free0 free pgdir :
  vm_ok s0 free0 pgdir → kinv kend s free → (∀ p, p ∈ free → p ∈ free0) → only_pages (λ p, p ∈ free0) (kmem s0) (kmem s) →
  vm_ok s free pgdir ∧ (∀ v, 0 <= v < 2^20 → pte (kmem s) pgdir v = pte (kmem s0) pgdir v) ∧
  (∀ p, owns (kmem s0) pgdir p → same_page (kmem s0) (kmem s) p).
Proof.
  intros H Hk Hsub Ho.
  assert (Hsame : ∀ p, owns (kmem s0) pgdir p → same_page (kmem s0) (kmem s) p).
  { intros p Hp. apply (vo_page _ _ _ _ H) in Hp as [Hpo Hpf]. apply (only_same kend _ _ _ _ Ho Hpo).
    intros q Hq. split; [|by intros ->]. pose proof (kinv_pages _ _ _ (vo_k _ _ _ _ H)) as Hpp.
    rewrite Forall_forall in Hpp. auto. }
  destruct (vm_ok_frame kend s0 s free0 free pgdir H Hk) as [Hok _].
  - intros p Hp. apply Hsame. by left.
  - intros p Hp Hf. apply (vo_page _ _ _ _ H) in Hp as [_ Hp]. auto.
  - split_and!; try done. destruct (same_tables (kmem s0) (kmem s) pgdir) as (_ & _ & Hv & _); [|done].
    intros p Hp. apply Hsame. by left.
Qed.

Lemma memmove_page m p q : 
  byte_mem m → byte_mem (memmove m p q PGSIZE) ∧ only_pages (λ r, r = p) m (memmove m p q PGSIZE) ∧
  ∀ o, 0 <= o < PGSIZE → memmove m p q PGSIZE (p + o) = m (q + o).
Proof.
  intros Hb. split_and!.
  - intros x. rewrite memmove_lookup by (unfold PGSIZE; lia). zcases; apply Hb.
  - intros x Hx. rewrite memmove_lookup by (unfold PGSIZE; lia). pose proof (Hx p eq_refl) as Hn.
    unfold in_page in Hn. zcases.
  - intros o Ho. rewrite memmove_lookup by (unfold PGSIZE; lia). replace (q + (p + o - p)) with (q + o) by lia. zcases.
Qed.

Lemma from_free_sub s s' free free' d p : from_free s s' free free' d → p ∈ free' → p ∈ free.
Proof. intros H Hp. apply (ff_owns _ _ _ _ _ H). by left. Qed.

(** Giving the child up. *)
Lemma drop_child s0 s free0 free d :
  from_free s0 s free0 free d →
  ∃ s' free', freevm kend d s = Ret tt s' ∧ given_back s0 s' free0 free'.
Proof.
  intros [H Hw Ho]. destruct (freevm_spec s free d H) as (s' & free' & E & Hk & Hf & Ho').
  exists s', free'. split; [done|]. split; [done|..].
  - intros p. by rewrite Hf.
  - apply (only_trans _ _ _ _ _ _ Ho Ho'). intros p [?|?]; [done|]. apply Hw. by right.
Qed.

Lemma copied_step s0 s s2 free0 free free2 pgdir d n p m1 :
  vm_ok s0 free0 pgdir → 0 <= n < 2^19 → has (pte (kmem s0) pgdir n) PTE_P = true →
  copied s0 s free0 (p :: free) pgdir d n → page_ok kend p →
  grows no_pages s s2 (p :: free) free2 d →
  (∀ v', 0 <= v' < 2^20 → pte (kmem s2) d v' =
    if v' =? n then page_entry (V2P p) (PTE_FLAGS (pte (kmem s0) pgdir n)) else pte (kmem s) d v') →
  upg (kmem s2) d n = p → same_page m1 (kmem s2) p →
  (∀ o, 0 <= o < PGSIZE → m1 (p + o) = kmem s0 (upg (kmem s0) pgdir n + o)) →
  copied s0 s2 free0 free2 pgdir d (n + 1).
Proof.
  intros H0 Hn Hpr [[Hok Hw Ho] Hrest Hdone] Hp Hg Hpte Hup Hsame Hm1. split.
  - split; [apply Hg|..].
    + intros q. rewrite (g_owns _ _ _ _ _ _ _ Hg), <- (Hw q). unfold no_pages. tauto.
    + apply (only_trans _ _ _ _ _ _ Ho (g_only _ _ _ _ _ _ _ Hg)). intros q [?|[?|?]]; [done|..]; apply Hw; [by left|].
      right. by left.
  - intros v ?. rewrite Hpte by lia. destruct (Z.eqb_spec v n); [lia|]. apply Hrest. lia.
  - intros v ?. rewrite Hpte by lia. destruct (Z.eqb_spec v n) as [->|Hne].
    + split; [apply page_entry_has|]. rewrite page_entry_eq, flags_present by done. destruct (V2P_range kend p Hp) as [? ?].
      split; [apply PTE_FLAGS_lor; [done..|apply PTE_FLAGS_ok]|]. rewrite Hup. intros o Hoo. rewrite <- Hm1 by done.
      apply Hsame. unfold in_page. lia.
    + destruct (Hdone v) as (Hh & Hf & Hc); [lia|]. split_and!; [done..|]. intros o Hoo. rewrite <- Hc by done.
      assert (Eu : upg (kmem s2) d v = upg (kmem s) d v).
      { unfold upg. rewrite Hpte by lia. by destruct (Z.eqb_spec v n). }
      rewrite Eu. apply (grows_user kend _ _ _ _ _ _ v (upg (kmem s) d v) Hg Hok); [|unfold in_page; lia].
      unfold upage. split; [lia|done].
Qed.

(** The page in hand and the child are given up. *)
Lemma copy_undo s0 s s1 s2 free0 free1 free2 d p m1 :
  from_free s0 s free0 (p :: free1) d → vm_ok s1 free1 d → spare kend s1 free1 d p → kmem s1 = kmem s →
  only_pages (λ q, q = p) (kmem s) m1 → byte_mem m1 →
  grows no_pages (KState (kmem_lock s1) (use_lock s1) (freelist s1) m1) s2 free1 free2 d → spare kend s2 free2 d p →
  ∃ s' free', (kfree kend p ;;; freevm kend d) s2 = Ret tt s' ∧ given_back s0 s' free0 free'.
Proof.
  intros [Hok Hw Ho] H1 Hsp Hm Hmo Hb Hg Hsp2. rewrite <- Hm in Hmo.
  destruct (spare_write kend s1 free1 d p m1 H1 Hsp Hmo Hb _ eq_refl) as (_ & _ & Hown1 & Ht1 & _).
  rewrite Hm in *. destruct Hg as [O2 W2 T2 E2 F2 N2 _]. cbn [kmem] in *.
  destruct (kfree_vm kend s2 free2 d p O2 Hsp2) as (s3 & E3 & H3 & Hown3 & _ & Ho3).
  assert (Hff : from_free s0 s3 free0 (p :: free2) d).
  { split; [done|..].
    - intros q. rewrite Hown3, elem_of_cons, <- (Hw q), elem_of_cons, <- (Hown1 q).
      specialize (W2 q). unfold no_pages in W2. rewrite (right_id False (∨)) in W2. rewrite <- !(assoc (∨)), W2. done.
    - apply (only_trans _ (λ q, q ∈ free0) _ _ _ _ Ho); [|tauto].
      apply (only_trans _ (λ q, q ∈ free0) _ _ _ _ Hmo); [|intros q [->|?]; [apply Hw; left; by left|done]].
      apply (only_trans _ _ _ _ _ _ N2 Ho3). intros q [[?|?%Ht1]| ->]; apply Hw;
        [left; by right|right; by left|left; by left]. }
  destruct (drop_child s0 s3 free0 (p :: free2) d Hff) as (s4 & free4 & E4 & Hgb).
  exists s4, free4. unfold bind. by rewrite E3, E4.
Qed.

Lemma copy_loop_spec s0 free0 pgdir sz d :
  vm_ok s0 free0 pgdir → 0 <= sz < KERNBASE →
  (∀ v, 0 <= v → PGSIZE * v < sz → has (pte (kmem s0) pgdir v) PTE_P = true) →
  ∀ fuel n s free, 0 <= n → PGSIZE * n < sz + PGSIZE → sz <= PGSIZE * (n + Z.of_nat fuel) →
  copied s0 s free0 free pgdir d n →
  ∃ r s' free', copyuvm_loop kend fuel pgdir sz d (PGSIZE * n) s = Ret r s' ∧
    (r = d ∧ (∃ n', sz <= PGSIZE * n' < sz + PGSIZE ∧ copied s0 s' free0 free' pgdir d n') ∨
     r = 0 ∧ given_back s0 s' free0 free').
Proof.
  intros H0 Hsz Hpres. induction fuel as [|fuel IH]; intros n s free Hn Hns Hf Hc; cbn [copyuvm_loop];
    (destruct (Z.ltb_spec (PGSIZE * n) sz) as [Hlt|Hge];
     [|exists d, s, free; split; [done|]; left; split; [done|]; exists n; done]).
  { unfold PGSIZE in *. lia. }
  assert (Hn19 : 0 <= n < 2^19) by (unfold KERNBASE, PGSIZE in *; lia).
  pose proof Hc as [Hff Hrest Hdone]. pose proof (ff_ok _ _ _ _ _ Hff) as Hd.
  destruct (parent_ok s0 s free0 free pgdir H0 (vo_k _ _ _ _ Hd)) as (Hpar & Hppte & Hpsame).
  { intros p. by apply (from_free_sub _ _ _ _ _ _ Hff). }
  { apply Hff. }
  pose proof (Hpres n Hn Hlt) as Hpr. rewrite <- (Hppte n) in Hpr by lia.
  assert (Hpd : has (pde (kmem s) pgdir (n / 1024)) PTE_P = true).
  { revert Hpr. unfold pte. by destruct (has (pde _ _ _) _). }
  unfold bind at 1. rewrite (walk_noalloc kend s free pgdir (PGSIZE * n) n) by
    (try done; try lia; unfold PGSIZE; Z.div_mod_to_equations; lia).
  rewrite Hpd. destruct (Z.eqb_spec (pte_addr (kmem s) pgdir n) 0) as [E|_].
  { by destruct (pte_addr_pos kend s free pgdir n Hpar); [lia|done|]. }
  assert (Eload : load32 (kmem s) (pte_addr (kmem s) pgdir n) = pte (kmem s) pgdir n) by (unfold pte; by rewrite Hpd).
  unfold bind at 1, word, gets. rewrite Eload, Hpr. cbn [negb]. rewrite (Hppte n) in Hpr |- * by lia.
  unfold bind at 1. destruct (kalloc_vm kend s free d Hd) as [(s1 & -> & -> & Hg1 & Hm1)|
    (p & free1 & s1 & -> & -> & H1 & Hsp & Hp0 & Hm1 & Hul1)].
  { destruct (drop_child s0 s1 free0 [] d) as (s' & free' & E' & Hgb).
    { destruct Hff as [_ Hw Ho]. split; [apply Hg1| |by rewrite Hm1].
      intros q. by rewrite Hm1. }
    exists 0, s', free'. rewrite Z.eqb_refl. unfold bind. rewrite E'. split; [done|]. by right. }
  destruct (Z.eqb_spec p 0); [done|]. unfold bind at 1, on_mem, modify. fold (upg (kmem s0) pgdir n).
  destruct (memmove_page (kmem s1) p (upg (kmem s0) pgdir n)) as (Hb & Hmo & Hmc); [apply H1|].
  set (m1 := memmove (kmem s1) p (upg (kmem s0) pgdir n) PGSIZE) in *. rewrite Hm1 in Hmo.
  destruct (map_fresh kend s free1 d p n m1 (PTE_FLAGS (pte (kmem s0) pgdir n)) s1)
    with (s1' := KState (kmem_lock s1) (use_lock s1) (freelist s1) m1) as (r & s2 & free2 & E2 & Hr); try done.
  { apply PTE_FLAGS_ok. } { apply Hrest. lia. }
  unfold bind at 1. rewrite E2. destruct Hr as [(-> & Hg2 & _ & Hsp2 & Hp2)|(-> & Hg2 & Hp2 & Hu2 & Hs2)]; cbn [Z.ltb Z.compare].
  - destruct (copy_undo s0 s s1 s2 free0 free1 free2 d p m1) as (s' & free' & E' & Hgb); try done.
    exists 0, s', free'. unfold bind in E' |- *. destruct (kfree kend p s2) as [[] s3| | |]; try done.
    rewrite E'. split; [done|]. by right.
  - rewrite u32_small by (unfold PGSIZE; lia). replace (PGSIZE * n + PGSIZE) with (PGSIZE * (n + 1)) by lia.
    apply (IH (n + 1) s2 free2); [lia|unfold PGSIZE in *; lia|unfold PGSIZE in *; lia|].
    apply (copied_step s0 s s2 free0 free1 free2 pgdir d n p m1); try done; [apply Hsp|].
    intros o Hoo. rewrite Hmc by done. rewrite Hm1.
    assert (Hown : owns (kmem s0) pgdir (upg (kmem s0) pgdir n)) by (right; exists n; unfold upage; split; [lia|done]).
    apply (Hpsame _ Hown). unfold in_page. lia.
Qed.

Lemma copyuvm_spec s free pgdir sz :
  data_ok → vm_ok s free pgdir → 0 <= sz < KERNBASE →
  (∀ v, 0 <= v → PGSIZE * v < sz → has (pte (kmem s) pgdir v) PTE_P = true) →
  ∃ r s' free', copyuvm kend data pgdir sz s = Ret r s' ∧
    (r ≠ 0 ∧ (∃ n, sz <= PGSIZE * n < sz + PGSIZE ∧ copied s s' free free' pgdir r n) ∨
     r = 0 ∧ given_back s s' free free').
Proof.
  intros Hdata H Hsz Hpres. unfold copyuvm, bind at 1.
  destruct (setupkvm_spec s free Hdata (vo_k _ _ _ _ H)) as (d & s1 & free1 & -> & Hc).
  destruct Hc as [(Hd0 & Hff & Hlow & _)|(-> & Hgb & _)].
  2:{ exists 0, s1, free1. split; [done|]. by right. }
  destruct (Z.eqb_spec d 0); [done|].
  destruct (copy_loop_spec s free pgdir sz d H Hsz Hpres (Z.to_nat (1 + sz / PGSIZE)) 0 s1 free1) as (r & s' & free' & E & Hr).
  - lia.
  - unfold PGSIZE. lia.
  - unfold PGSIZE. Z.div_mod_to_equations. lia.
  - split; [done|intros v ?; apply Hlow; lia|lia].
  - exists r, s', free'. split; [done|]. destruct Hr as [(-> & Hr)|?]; [by left|by right].
Qed.

End Free.
