(* ===== verification/VmProps.v ===== *)
(** * Address spaces: properties of vm.c *)

From S2P Require Import Prelude Memory KString Spinlock Kalloc Proc Vm VmTables VmSpec VmFree.

(** ** copyout *)

(** The kernel address of the user address [va]. *)
Definition uaddr (m : mem) (dir va : Z) : Z := upg m dir (va / PGSIZE) + va mod PGSIZE.

Definition user_page (e : Z) : bool := has e PTE_P && has e PTE_U.

Section Copyout.
Context (kend : Z).

Lemma user_write s free dir v m' :
  vm_ok kend s free dir → 0 <= v < 2^19 → has (pte (kmem s) dir v) PTE_P = true →
  only_pages (λ q, q = upg (kmem s) dir v) (kmem s) m' → byte_mem m' →
  vm_ok kend (KState (kmem_lock s) (use_lock s) (freelist s) m') free dir ∧
  (∀ v', 0 <= v' < 2^20 → pte m' dir v' = pte (kmem s) dir v') ∧
  (∀ q, owns m' dir q ↔ owns (kmem s) dir q).
Proof.
  intros H Hv Hh Ho Hb. assert (Hu : upage (kmem s) dir v (upg (kmem s) dir v)) by done.
  destruct (vo_page _ _ _ _ H (upg (kmem s) dir v)) as [Hp Hf]; [right; eauto|].
  assert (Hs : ∀ q, tpage (kmem s) dir q → same_page (kmem s) m' q).
  { intros q Hq. apply (only_same kend _ _ _ _ Ho); [apply (vo_page _ _ _ _ H); by left|].
    intros q' ->. split; [done|]. intros <-. by apply (vo_disj _ _ _ _ H v (upg (kmem s) dir v)). }
  destruct (vm_ok_frame kend s (KState (kmem_lock s) (use_lock s) (freelist s) m') free free dir H) as [Hok Hown]; [|done|..].
  - apply (kinv_only kend s _ free (λ q, q = upg (kmem s) dir v)); try done; [apply H|by intros q ->].
  - intros q Hq. by apply (vo_page _ _ _ _ H).
  - split_and!; try done. by destruct (same_tables _ _ _ Hs) as (_ & _ & Hv' & _).
Qed.

Lemma uva2ka_run s free dir v :
  vm_ok kend s free dir → 0 <= v < 2^19 → user_page (pte (kmem s) dir v) = true →
  uva2ka dir (PGSIZE * v) s = Ret (upg (kmem s) dir v) s ∧ upg (kmem s) dir v ≠ 0.
Proof.
  intros H Hv [Hp Hu]%andb_true_iff.
  assert (Hd : has (pde (kmem s) dir (v / 1024)) PTE_P = true).
  { revert Hp. unfold pte. by destruct (has (pde _ _ _) _). }
  assert (Eload : load32 (kmem s) (pte_addr (kmem s) dir v) = pte (kmem s) dir v) by (unfold pte; by rewrite Hd).
  split.
  - unfold uva2ka, bind at 1. rewrite (walk_noalloc kend s free dir (PGSIZE * v) v) by
      (try done; try lia; unfold PGSIZE; Z.div_mod_to_equations; lia). rewrite Hd.
    destruct (Z.eqb_spec (pte_addr (kmem s) dir v) 0) as [E|_].
    { by destruct (pte_addr_pos kend s free dir v H); [lia|done|]. }
    unfold bind, word, gets. rewrite Eload, Hp, Hu. done.
  - destruct (vo_page _ _ _ _ H (upg (kmem s) dir v)) as [(_ & _ & _ & ?) _]; [right; by exists v|lia].
Qed.

Lemma page_split v o : 0 <= o < PGSIZE → (PGSIZE * v + o) / PGSIZE = v ∧ (PGSIZE * v + o) mod PGSIZE = o.
Proof. unfold PGSIZE. intros. Z.div_mod_to_equations. lia. Qed.

(** Addresses in different user pages are different. *)
Lemma user_apart s free dir v a x :
  vm_ok kend s free dir → 0 <= v < 2^19 → has (pte (kmem s) dir v) PTE_P = true →
  PGSIZE * (v + 1) <= a < KERNBASE → user_page (pte (kmem s) dir (a / PGSIZE)) = true →
  in_page (upg (kmem s) dir v) x → uaddr (kmem s) dir a ≠ x.
Proof.
  intros H Hv Hp Ha [Hp' _]%andb_true_iff Hx <-. set (w := a / PGSIZE) in *.
  assert (Hw : 0 <= w < 2^19 ∧ w ≠ v) by (unfold w, KERNBASE, PGSIZE in *; Z.div_mod_to_equations; lia).
  assert (Hu : upage (kmem s) dir v (upg (kmem s) dir v)) by done.
  assert (Hu' : upage (kmem s) dir w (upg (kmem s) dir w)) by (by unfold upage; destruct Hw).
  apply (page_apart kend (upg (kmem s) dir w) (upg (kmem s) dir v) (uaddr (kmem s) dir a)).
  - apply (vo_page _ _ _ _ H). right; eauto.
  - apply (vo_page _ _ _ _ H). right; eauto.
  - intros E. rewrite E in Hu'. destruct Hw as [_ []]. by apply (vo_uinj _ _ _ _ H w v (upg (kmem s) dir v)).
  - unfold in_page, uaddr. fold w. pose proof (Z.mod_pos_bound a PGSIZE ltac:(done)). lia.
  - done.
Qed.

Lemma copyout_loop_spec dir free fuel : ∀ s va buf len,
  vm_ok kend s free dir → 0 <= va → 0 <= len → va + len <= KERNBASE →
  (∀ v, va / PGSIZE <= v → PGSIZE * v < va + len → user_page (pte (kmem s) dir v) = true) →
  (∀ i p, 0 <= i < len → owns (kmem s) dir p → ¬ in_page p (buf + i)) →
  va mod PGSIZE + len <= PGSIZE * Z.of_nat fuel →
  ∃ s', copyout_loop fuel dir va buf len s = Ret 0 s' ∧ vm_ok kend s' free dir ∧
    (∀ v, 0 <= v < 2^20 → pte (kmem s') dir v = pte (kmem s) dir v) ∧
    (∀ i, 0 <= i < len → kmem s' (uaddr (kmem s) dir (va + i)) = kmem s (buf + i)) ∧
    (∀ x, (∀ i, 0 <= i < len → x ≠ uaddr (kmem s) dir (va + i)) → kmem s' x = kmem s x).
Proof.
  induction fuel as [|fuel IH]; intros s va buf len H Hva Hlen Hmax Hpg Hsrc Hf; cbn [copyout_loop];
    (destruct (Z.ltb_spec 0 len) as [Hpos|Hz]; [|exists s; split_and!; try done; lia]).
  { assert (0 <= va mod PGSIZE) by (apply Z.mod_pos_bound; done). lia. }
  rewrite PGROUNDDOWN_eq by (unfold KERNBASE in *; lia). set (v := va / PGSIZE) in *. set (o := va mod PGSIZE) in *.
  assert (Hdm : va = PGSIZE * v + o ∧ 0 <= o < PGSIZE).
  { unfold v, o. split; [apply Z.div_mod; done|apply Z.mod_pos_bound; done]. }
  destruct Hdm as [Edm Ho]. assert (Hv : 0 <= v < 2^19) by (unfold KERNBASE, PGSIZE in *; lia).
  pose proof (Hpg v ltac:(lia) ltac:(lia)) as Hu. destruct (uva2ka_run s free dir v H Hv Hu) as [Er Hne0].
  unfold bind at 1. rewrite (Z.mul_comm v), Er. destruct (Z.eqb_spec (upg (kmem s) dir v) 0) as [?|_]; [done|].
  replace (va - PGSIZE * v) with o by lia. set (n := if len <? PGSIZE - o then len else PGSIZE - o).
  assert (Hn : 0 < n <= len ∧ n <= PGSIZE - o ∧ (n < len → n = PGSIZE - o)).
  { unfold n. destruct (Z.ltb_spec len (PGSIZE - o)); lia. }
  unfold bind at 1, on_mem, modify. set (P := upg (kmem s) dir v). set (m1 := memmove (kmem s) (P + o) buf n).
  assert (Hm1 : ∀ x, m1 x = if (P + o <=? x) && (x <? P + o + n) then kmem s (buf + (x - (P + o))) else kmem s x).
  { intros x. apply memmove_lookup. lia. }
  apply andb_true_iff in Hu as Hpp. destruct Hpp as [Hpres _].
  destruct (user_write s free dir v m1 H Hv Hpres) as (H1 & Hpte1 & Hown1).
  { intros x Hx. rewrite Hm1. pose proof (Hx P eq_refl) as Hnp. unfold in_page in Hnp. zcases. }
  { intros x. rewrite Hm1. destruct (_ && _); apply H. }
  set (s1 := KState (kmem_lock s) (use_lock s) (freelist s) m1) in *.
  rewrite u32_small by (unfold KERNBASE, PGSIZE in *; lia). replace (PGSIZE * v + PGSIZE) with (PGSIZE * (v + 1)) by lia.
  assert (Hua : ∀ a, 0 <= a < KERNBASE → uaddr m1 dir a = uaddr (kmem s) dir a).
  { intros a Ha. unfold uaddr, upg. rewrite Hpte1; [done|]. unfold KERNBASE, PGSIZE in *. Z.div_mod_to_equations; lia. }
  assert (Hfirst : ∀ i, 0 <= i < n → uaddr (kmem s) dir (va + i) = P + o + i).
  { intros i Hi. unfold uaddr. destruct (page_split v (o + i)) as [E1 E2]; [lia|].
    replace (va + i) with (PGSIZE * v + (o + i)) by lia. rewrite E1, E2. unfold P. lia. }
  destruct (IH s1 (PGSIZE * (v + 1)) (buf + n) (len - n) H1) as (s' & E' & H' & Hp' & Hc' & Hr').
  - unfold PGSIZE. lia.
  - lia.
  - unfold KERNBASE, PGSIZE in *. lia.
  - intros v' Hv' Hlt. cbn [kmem s1]. destruct (page_split (v + 1) 0) as [E1 _]; [unfold PGSIZE; lia|].
    rewrite Z.add_0_r in E1. rewrite E1 in Hv'. rewrite Hpte1 by (unfold KERNBASE, PGSIZE in *; lia).
    apply Hpg; [lia|]. unfold PGSIZE in *. lia.
  - intros i p Hi Hp%Hown1. rewrite <- Z.add_assoc. apply Hsrc; [lia|done].
  - destruct (page_split (v + 1) 0) as [_ E2]; [unfold PGSIZE; lia|]. rewrite Z.add_0_r in E2. rewrite E2.
    unfold PGSIZE in *. lia.
  - assert (Hlater : ∀ i, 0 <= i < len - n → uaddr m1 dir (PGSIZE * (v + 1) + i) = uaddr (kmem s) dir (va + (n + i)) ∧
      ∀ j, 0 <= j < n → uaddr (kmem s) dir (va + (n + i)) ≠ P + o + j).
    { intros i Hi. assert (n = PGSIZE - o) by lia. replace (PGSIZE * (v + 1) + i) with (va + (n + i)) by lia.
      split; [apply Hua; lia|]. intros j Hj.
      apply (user_apart s free dir v); try done; [lia| |unfold in_page; fold P; lia].
      apply Hpg; unfold PGSIZE in *; Z.div_mod_to_equations; lia. }
    exists s'. split; [done|]. split; [done|]. split; [|split].
    + intros v' ?. by rewrite Hp', Hpte1.
    + intros i Hi. destruct (Z.lt_ge_cases i n) as [Hin|Hge].
      * rewrite Hfirst by lia. rewrite Hr'.
        -- cbn [kmem s1]. rewrite Hm1. replace (buf + (P + o + i - (P + o))) with (buf + i) by lia. zcases.
        -- intros j Hj. cbn [kmem s1]. destruct (Hlater j Hj) as [-> Hd]. intros E. apply (Hd i); [lia|by symmetry].
      * destruct (Hlater (i - n)) as [E1 Hd]; [lia|]. specialize (Hc' (i - n) ltac:(lia)). cbn [kmem s1] in Hc'.
        rewrite E1 in Hc'. replace (n + (i - n)) with i in Hc' by lia. rewrite Hc', Hm1.
        replace (buf + n + (i - n)) with (buf + i) by lia. destruct (_ && _) eqn:Eb; [|done]. zbool.
        exfalso. apply (Hsrc i P Hi); [right; exists v; done|]. unfold in_page. lia.
    + intros x Hx. rewrite Hr'.
      * cbn [kmem s1]. rewrite Hm1. destruct (_ && _) eqn:Eb; [|done]. zbool. exfalso.
        apply (Hx (x - (P + o))); [lia|]. rewrite Hfirst by lia. lia.
      * intros i Hi. cbn [kmem s1]. destruct (Hlater i Hi) as [-> _]. apply Hx. lia.
Qed.

End Copyout.

(** ** Growing and shrinking *)

Lemma page_range oldsz newsz v0 v1 v :
  PGROUNDUP oldsz = PGSIZE * v0 → newsz <= PGSIZE * v1 → PGSIZE * v1 < newsz + PGSIZE ∨ v1 = v0 →
  v0 <= v < v1 ↔ PGROUNDUP oldsz <= PGSIZE * v < newsz.
Proof. intros -> H1 H2. unfold PGSIZE in *. lia. Qed.

(** All that a call of [allocuvm] does. *)
Lemma allocuvm_run kend s free dir oldsz newsz :
  KERNLINK < kend → vm_ok kend s free dir → 0 <= oldsz <= newsz → newsz < KERNBASE →
  (∀ v, PGROUNDUP oldsz <= PGSIZE * v < newsz → has (pte (kmem s) dir v) PTE_P = false) →
  ∃ r s' free', allocuvm kend dir oldsz newsz s = Ret r s' ∧ vm_ok kend s' free' dir ∧
    (∀ p, p ∈ free' ∨ owns (kmem s') dir p ↔ p ∈ free ∨ owns (kmem s) dir p) ∧
    (∀ v, 0 <= v < 2^20 → ¬ PGROUNDUP oldsz <= PGSIZE * v < newsz → pte (kmem s') dir v = pte (kmem s) dir v) ∧
    (∀ v p x, upage (kmem s) dir v p → in_page p x → kmem s' x = kmem s x) ∧
    only_pages (λ p, p ∈ free ∨ tpage (kmem s) dir p) (kmem s) (kmem s') ∧
    (r = newsz ∧ (∀ v, PGROUNDUP oldsz <= PGSIZE * v < newsz →
        upg (kmem s') dir v ∈ free ∧
        pte (kmem s') dir v = page_entry (V2P (upg (kmem s') dir v)) (Z.lor PTE_W PTE_U) ∧
        ∀ x, in_page (upg (kmem s') dir v) x → kmem s' x = 0) ∨
     r = 0 ∧ (∀ v, 0 <= v < 2^20 → PGROUNDUP oldsz <= PGSIZE * v < newsz → has (pte (kmem s') dir v) PTE_P = false) ∧
       ((∀ v, PGROUNDUP oldsz <= PGSIZE * v → v < 2^19 → has (pte (kmem s) dir v) PTE_P = false) →
        ∃ n, PGSIZE * n < newsz ∧ few_pages s free dir n)).
Proof.
  intros Hkend H Ho Hk Habs. unfold allocuvm.
  destruct (Z.leb_spec KERNBASE newsz) as [?|_]; [lia|]. destruct (Z.ltb_spec newsz oldsz) as [?|_]; [lia|].
  assert (Hup : PGROUNDUP oldsz = PGSIZE * ((oldsz + PGSIZE - 1) / PGSIZE)).
  { rewrite PGROUNDUP_eq by (unfold KERNBASE, PGSIZE in *; lia). lia. }
  set (v0 := (oldsz + PGSIZE - 1) / PGSIZE) in *. assert (Hv0 : 0 <= v0) by (apply Z.div_pos; unfold PGSIZE; lia).
  rewrite Hup in Habs |- *.
  assert (Hold : ∀ s', only_pages (λ p, p ∈ free ∨ tpage (kmem s) dir p) (kmem s) (kmem s') →
    ∀ v p x, upage (kmem s) dir v p → in_page p x → kmem s' x = kmem s x).
  { intros s' Hon v p x Hu. destruct (vo_page _ _ _ _ H p) as [Hp Hf]; [right; eauto|].
    apply (only_same kend _ _ _ _ Hon Hp). intros q [Hq|Hq].
    - split; [|by intros ->]. pose proof (kinv_pages _ _ _ (vo_k _ _ _ _ H)) as Hpp. rewrite Forall_forall in Hpp. auto.
    - split; [apply (vo_page _ _ _ _ H); by left|]. intros ->. by apply (vo_disj _ _ _ _ H v p). }
  destruct (alloc_loop_spec kend Hkend dir oldsz newsz v0 s free H Ho Hk Hup Hv0 Habs (Z.to_nat (1 + newsz / PGSIZE)) v0 s free)
    as (r & s' & free' & E & Hr); [lia|by right|unfold PGSIZE in *; Z.div_mod_to_equations; lia| |].
  { split; [by apply took_refl|done|lia]. }
  exists r, s', free'. split; [done|]. destruct Hr as [(-> & v1 & H1 & H2 & [Ht Hout Hin])|(-> & Hun & Hfew)].
  - assert (Hrng : ∀ v, v0 <= v < v1 ↔ PGSIZE * v0 <= PGSIZE * v < newsz).
    { intros v. rewrite <- Hup. by apply page_range. }
    split_and!; [apply Ht| | | |apply Ht|left; split; [done|]].
    + intros p. rewrite <- (tk_owns _ _ _ _ _ _ _ Ht p). unfold no_pages. by rewrite (right_id False (∨)).
    + intros v Hv Hn. apply Hout; [done|]. by rewrite Hrng.
    + apply Hold, Ht.
    + intros v Hv%Hrng. by apply Hin.
  - split_and!; [apply Hun| |apply Hun|apply Hold, Hun|apply Hun|right; split; [done|split; [apply Hun|]]].
    2:{ intros Hab. apply Hfew. intros v ?. apply Hab; unfold PGSIZE; lia. }
    intros p. rewrite <- (un_owns _ _ _ _ _ _ _ _ Hun p). unfold no_pages. by rewrite (right_id False (∨)).
Qed.

(** C7. [allocuvm] grows an address space from [oldsz] to [newsz]: it returns
    [newsz] with every new page mapped user-writable to a zeroed page from the
    free list, or 0 with none of them mapped. Either way no other entry and no
    existing user page changes, and no page is lost: the free pages and the
    pages of the address space together are what they were. *)
Theorem allocuvm_grows kend s free dir oldsz newsz :
  KERNLINK < kend → vm_ok kend s free dir → 0 <= oldsz <= newsz → newsz < KERNBASE →
  (∀ v, PGROUNDUP oldsz <= PGSIZE * v < newsz → has (pte (kmem s) dir v) PTE_P = false) →
  ∃ r s' free', allocuvm kend dir oldsz newsz s = Ret r s' ∧ vm_ok kend s' free' dir ∧
    (∀ p, p ∈ free' ∨ owns (kmem s') dir p ↔ p ∈ free ∨ owns (kmem s) dir p) ∧
    (∀ v, 0 <= v < 2^20 → ¬ PGROUNDUP oldsz <= PGSIZE * v < newsz → pte (kmem s') dir v = pte (kmem s) dir v) ∧
    (∀ v p x, upage (kmem s) dir v p → in_page p x → kmem s' x = kmem s x) ∧
    (r = newsz ∧ (∀ v, PGROUNDUP oldsz <= PGSIZE * v < newsz →
        upg (kmem s') dir v ∈ free ∧
        pte (kmem s') dir v = page_entry (V2P (upg (kmem s') dir v)) (Z.lor PTE_W PTE_U) ∧
        ∀ x, in_page (upg (kmem s') dir v) x → kmem s' x = 0) ∨
     r = 0 ∧ ∀ v, 0 <= v < 2^20 → PGROUNDUP oldsz <= PGSIZE * v < newsz → has (pte (kmem s') dir v) PTE_P = false).
Proof.
  intros Hkend H Ho Hk Habs.
  destruct (allocuvm_run kend s free dir oldsz newsz Hkend H Ho Hk Habs) as (r & s' & free' & E & Hok & Hw & Hp & Hu & _ & Hr).
  exists r, s', free'. split_and!; try done. destruct Hr as [?|(-> & ? & _)]; [by left|by right].
Qed.

(** [deallocuvm] shrinks an address space: it returns the new size, the
    pages between the two sizes are unmapped and back on the free list (holes
    without a page table are skipped), no other entry changes, and the user
    pages that stay keep their contents. *)
Theorem deallocuvm_shrinks kend s free dir oldsz newsz :
  KERNLINK < kend → vm_ok kend s free dir → 0 <= newsz < oldsz → oldsz <= KERNBASE →
  ∃ s' free', deallocuvm kend dir oldsz newsz s = Ret newsz s' ∧ vm_ok kend s' free' dir ∧
    (∀ v, 0 <= v < 2^20 → ¬ PGROUNDUP newsz <= PGSIZE * v < oldsz → pte (kmem s') dir v = pte (kmem s) dir v) ∧
    (∀ v, 0 <= v < 2^20 → PGROUNDUP newsz <= PGSIZE * v < oldsz → has (pte (kmem s') dir v) PTE_P = false) ∧
    (∀ v p, upage (kmem s) dir v p → PGROUNDUP newsz <= PGSIZE * v < oldsz → p ∈ free') ∧
    (∀ v p x, upage (kmem s) dir v p → ¬ PGROUNDUP newsz <= PGSIZE * v < oldsz → in_page p x → kmem s' x = kmem s x).
Proof.
  intros Hkend H Hn Ho. destruct (dealloc_spec kend Hkend s free dir oldsz newsz H Hn Ho) as (s' & free' & E & Hs).
  destruct Hs as [Hok Hw Ht Hp Hg Hon Hf _]. exists s', free'. split_and!; try done.
  - intros v p Hu Hin. destruct (Hw p) as [_ [?|Hown]]; [right; right; eauto|done|]. exfalso.
    destruct Hown as [Htp|[v' Hu']].
    + apply (vo_disj _ _ _ _ H v p Hu). by apply Ht.
    + assert (Hv' : ¬ PGROUNDUP newsz <= PGSIZE * v' < oldsz).
      { intros Hin'. destruct Hu' as (? & Hh & _). rewrite Hg in Hh; [done|lia|done]. }
      assert (Hu2 : upage (kmem s) dir v' p).
      { destruct Hu' as (? & Hh & ->). unfold upage, upg. rewrite Hp in * by (done || lia). done. }
      apply Hv'. by rewrite (vo_uinj _ _ _ _ H v' v p Hu2 Hu).
  - intros v p x Hu Hin. destruct (vo_page _ _ _ _ H p) as [Hpo Hpf]; [right; eauto|].
    apply (only_same kend _ _ _ _ Hon Hpo). intros q [Hq|(v' & Hv' & Hq)].
    + split; [apply (vo_page _ _ _ _ H); by left|]. intros ->. by apply (vo_disj _ _ _ _ H v p).
    + split; [apply (vo_page _ _ _ _ H); right; eauto|]. intros ->. apply Hin.
      by rewrite (vo_uinj _ _ _ _ H v v' p Hu Hq).
Qed.

(** ** Freeing and copying *)

(** [freevm] puts every page of the address space on the free list, user
    pages, page tables and directory, each once, and changes no other page. *)
Theorem freevm_returns_pages kend s free dir :
  KERNLINK < kend → vm_ok kend s free dir →
  ∃ s' free', freevm kend dir s = Ret tt s' ∧ kinv kend s' free' ∧
    (∀ p, p ∈ free' ↔ p ∈ free ∨ owns (kmem s) dir p) ∧ only_pages (owns (kmem s) dir) (kmem s) (kmem s').
Proof. intros Hkend H. by apply freevm_spec. Qed.

(** C6. [copyuvm]: the child's first [sz] bytes are mapped page by page with
    the parent's flags and contents, in pages of its own that came from the free
    list; the parent's address space is untouched. Out of memory, the call
    returns 0 and the free pages are the same as before. *)
Theorem copyuvm_copies kend data s free pgdir sz :
  KERNLINK < kend → data_ok data → vm_ok kend s free pgdir → 0 <= sz < KERNBASE →
  (∀ v, 0 <= v → PGSIZE * v < sz → has (pte (kmem s) pgdir v) PTE_P = true) →
  ∃ d s' free', copyuvm kend data pgdir sz s = Ret d s' ∧
    vm_ok kend s' free' pgdir ∧
    (∀ p x, owns (kmem s) pgdir p → in_page p x → kmem s' x = kmem s x) ∧
    (d ≠ 0 ∧ vm_ok kend s' free' d ∧ (∀ p, p ∈ free' ∨ owns (kmem s') d p ↔ p ∈ free) ∧
       (∀ v, 0 <= v → PGSIZE * v < sz → has (pte (kmem s') d v) PTE_P = true ∧
          PTE_FLAGS (pte (kmem s') d v) = PTE_FLAGS (pte (kmem s) pgdir v) ∧
          ∀ o, 0 <= o < PGSIZE → kmem s' (upg (kmem s') d v + o) = kmem s (upg (kmem s) pgdir v + o)) ∧
       (∀ v, sz <= PGSIZE * v → v < 2^19 → has (pte (kmem s') d v) PTE_P = false) ∨
     d = 0 ∧ ∀ p, p ∈ free' ↔ p ∈ free).
Proof.
  intros Hkend Hdata H Hsz Hpres.
  destruct (copyuvm_spec kend data Hkend s free pgdir sz Hdata H Hsz Hpres) as (d & s' & free' & E & Hc).
  exists d, s', free'. split; [done|].
  assert (Hpar : kinv kend s' free' → (∀ p, p ∈ free' → p ∈ free) → only_pages (λ p, p ∈ free) (kmem s) (kmem s') →
    vm_ok kend s' free' pgdir ∧ ∀ p x, owns (kmem s) pgdir p → in_page p x → kmem s' x = kmem s x).
  { intros Hk Hsub Ho. destruct (parent_ok kend s s' free free' pgdir H Hk Hsub Ho) as (Hok & _ & Hsame).
    split; [done|]. intros p x Hp. by apply Hsame. }
  destruct Hc as [(Hd & n & Hn & [[Hok Hw Ho] Hrest Hdone])|(-> & [Hk Hf Ho])].
  - destruct Hpar as [Hp1 Hp2]; [apply Hok| |done|].
    { intros p Hp. apply Hw. by left. }
    split; [done|]. split; [done|]. left. split_and!; try done.
    + intros v ??. apply Hdone. unfold PGSIZE in *. lia.
    + intros v ??. apply Hrest. unfold PGSIZE in *. lia.
  - destruct Hpar as [Hp1 Hp2]; [done|by intros p; rewrite Hf|done|]. split; [done|]. split; [done|]. by right.
Qed.

(** C21. [copyout] writes the [len] bytes at [p] to the user addresses from [va]
    on, across page boundaries, and nothing else. *)
Theorem copyout_copies kend s free dir va p len :
  vm_ok kend s free dir → 0 <= va → 0 <= len → va + len <= KERNBASE →
  (∀ v, va / PGSIZE <= v → PGSIZE * v < va + len → user_page (pte (kmem s) dir v) = true) →
  (∀ i q, 0 <= i < len → owns (kmem s) dir q → ¬ in_page q (p + i)) →
  ∃ s', copyout dir va p len s = Ret 0 s' ∧ vm_ok kend s' free dir ∧
    (∀ v, 0 <= v < 2^20 → pte (kmem s') dir v = pte (kmem s) dir v) ∧
    (∀ i, 0 <= i < len → kmem s' (uaddr (kmem s) dir (va + i)) = kmem s (p + i)) ∧
    (∀ x, (∀ i, 0 <= i < len → x ≠ uaddr (kmem s) dir (va + i)) → kmem s' x = kmem s x).
Proof.
  intros H Hva Hlen Hmax Hpg Hsrc. apply (copyout_loop_spec kend dir free); try done.
  unfold PGSIZE. Z.div_mod_to_equations. lia.
Qed.

(** For an address without a page table [walkpgdir] returns a null pointer,
    which [uva2ka] dereferences: [copyout] does not return -1 there. *)
Theorem copyout_null_pte kend s free dir va p len :
  vm_ok kend s free dir → 0 <= va < 2^32 → 0 < len →
  has (pde (kmem s) dir (va / PGSIZE / 1024)) PTE_P = false →
  copyout dir va p len s = Fault "uva2ka: null pte".
Proof.
  intros H Hva Hlen Hh. unfold copyout.
  assert (∃ n, Z.to_nat (2 + len / PGSIZE) = S n) as [n ->].
  { exists (Z.to_nat (1 + len / PGSIZE)). assert (0 <= len / PGSIZE) by (apply Z.div_pos; unfold PGSIZE; lia). lia. }
  cbn [copyout_loop]. destruct (Z.ltb_spec 0 len); [|lia]. unfold bind at 1, uva2ka, bind at 1.
  rewrite PGROUNDDOWN_eq by lia.
  assert (E : va / PGSIZE * PGSIZE / PGSIZE = va / PGSIZE) by (unfold PGSIZE; Z.div_mod_to_equations; lia).
  rewrite (walk_noalloc kend s free dir _ (va / PGSIZE)); try done.
  - by rewrite Hh.
  - unfold PGSIZE. Z.div_mod_to_equations. lia.
  - unfold PGSIZE. Z.div_mod_to_equations. lia.
Qed.

(** ** A small address space

    Directory, one table, one user page and two free pages. *)
Definition pgD : Z := 0x80400000.
Definition pgT : Z := 0x80401000.
Definition pgP : Z := 0x80402000.
Definition pgF : Z := 0x80403000.
Definition pgG : Z := 0x80404000.
Definition kend0 : Z := 0x80200000.
Definition data0 : Z := 0x80180000.

Definition mem_empty : mem := store32 (store32 (λ _, 0) pgF pgG) pgT pgF.
Definition vm_empty : kstate := KState false true pgT mem_empty.
Definition mem_table : mem := store32 (memset mem_empty pgT 0 PGSIZE) (pgD + 4 * 0) (tab_entry pgT).
Definition vm_table : kstate := KState false true pgF mem_table.
Definition vm_user : kstate :=
  KState false true pgF (store32 mem_table (pte_addr mem_table pgD 0) (page_entry (V2P pgP) (Z.lor PTE_W PTE_U))).

Lemma small_byte_mem : byte_mem mem_empty.
Proof. unfold mem_empty. apply store32_byte_mem, store32_byte_mem. by intros x. Qed.

Lemma nodup_free : NoDup [pgF; pgG].
Proof.
  apply NoDup_cons. split; [|apply NoDup_singleton]. rewrite not_elem_of_cons. split; [done|apply not_elem_of_nil].
Qed.

Lemma small_pages : Forall (page_ok kend0) [pgT; pgF; pgG].
Proof. repeat constructor; done. Qed.

Lemma vm_empty_ok :
  vm_ok kend0 vm_empty [pgT; pgF; pgG] pgD ∧ (∀ v, 0 <= v < 2^20 → pte mem_empty pgD v = 0) ∧
  (∀ q, owns mem_empty pgD q ↔ q = pgD) ∧ (∀ q, tpage mem_empty pgD q ↔ q = pgD).
Proof.
  apply (empty_vm kend0 vm_empty).
  - split; [vm_compute; done| |apply small_pages|apply small_byte_mem|done].
    apply NoDup_cons. split; [|apply nodup_free].
    rewrite !not_elem_of_cons. split_and!; [done|done|apply not_elem_of_nil].
  - repeat split; done.
  - rewrite !not_elem_of_cons. split_and!; [done|done|done|apply not_elem_of_nil].
  - intros x Hx. unfold in_page, PGSIZE, pgD in Hx. cbn [kmem vm_empty]. unfold mem_empty, store32, pgF, pgT. zcases.
Qed.

Lemma vm_table_ok :
  vm_ok kend0 vm_table [pgF; pgG] pgD ∧ (∀ v, 0 <= v < 2^20 → pte mem_table pgD v = 0) ∧
  has (pde mem_table pgD 0) PTE_P = true ∧ tabof mem_table pgD 0 = pgT ∧
  ∀ p, p ∈ [pgF; pgG] ∨ owns mem_table pgD p ↔ p ∈ [pgT; pgF; pgG] ∨ p = pgD.
Proof.
  destruct vm_empty_ok as (H & Hp & Ho & Ht).
  assert (Hk : kinv kend0 vm_table [pgF; pgG]).
  { split; [vm_compute; done|apply nodup_free|by apply (Forall_cons_1 _ pgT), small_pages| |done].
    apply store32_byte_mem, memset_byte_mem, small_byte_mem. }
  destruct (add_table_ok kend0 vm_empty vm_table [pgF; pgG] pgT pgD 0 H ltac:(lia) ltac:(by vm_compute) Hk eq_refl eq_refl)
    as (Hg & Hpte & Hh & Htab).
  split; [apply (g_ok _ _ _ _ _ _ _ Hg)|]. split; [|split; [exact Hh|split; [exact Htab|]]].
  - intros v Hv. etrans; [exact (Hpte v Hv)|exact (Hp v Hv)].
  - intros p. etrans; [exact (g_owns _ _ _ _ _ _ _ Hg p)|]. unfold no_pages. rewrite (right_id False (∨)).
    by rewrite (Ho p : owns (kmem vm_empty) pgD p ↔ p = pgD).
Qed.

Lemma vm_user_ok :
  vm_ok kend0 vm_user [pgF; pgG] pgD ∧
  (∀ v, 0 <= v < 2^20 → pte (kmem vm_user) pgD v = if v =? 0 then page_entry (V2P pgP) (Z.lor PTE_W PTE_U) else 0) ∧
  (∀ q, owns (kmem vm_user) pgD q → q = pgP ∨ q = pgD ∨ q = pgT ∨ q ∈ [pgF; pgG]).
Proof.
  destruct vm_table_ok as (H & Hp & Hh & Htab & Hown).
  set (e := page_entry (V2P pgP) (Z.lor PTE_W PTE_U)).
  destruct (set_pte_spec kend0 vm_table [pgF; pgG] pgD 0 e H ltac:(lia) Hh ltac:(by vm_compute) (kmem vm_user) eq_refl)
    as (Hd1 & Hp1 & _).
  assert (Ee : P2V (PTE_ADDR e) = pgP) by (by vm_compute).
  destruct (install_ok kend0 vm_table vm_user [pgF; pgG] pgD 0 e H (conj Hd1 Hp1)) as [Hok Hown2].
  - apply (set_word_kinv kend0 vm_table [pgF; pgG] _ e pgT); [apply H| |repeat split; done|].
    + intros j Hj. unfold pte_addr. change (kmem vm_table) with mem_table. change (0 / 1024) with 0. rewrite Htab.
      apply (slot_in_page pgT 0 j); lia.
    + rewrite !not_elem_of_cons. split_and!; [done|done|apply not_elem_of_nil].
  - change (kmem vm_table) with mem_table. by rewrite Hp by lia.
  - intros _. rewrite Ee. split; [repeat split; done|]. split.
    + rewrite !not_elem_of_cons. split_and!; [done|done|apply not_elem_of_nil].
    + intros Ho. assert (Hx : pgP ∈ [pgT; pgF; pgG] ∨ pgP = pgD) by (apply Hown; by right).
      destruct Hx as [Hx|Hx]; [|done]. rewrite !elem_of_cons, elem_of_nil in Hx. by destruct Hx as [?|[?|[?|?]]].
  - split; [exact Hok|]. split.
    + intros v Hv. rewrite Hp1 by done. destruct (Z.eqb_spec v 0); [done|]. by apply Hp.
    + intros q [Hq|(_ & _ & ->)]%Hown2; [|by left; rewrite Ee]. assert (Hx : q ∈ [pgT; pgF; pgG] ∨ q = pgD) by (apply Hown; by right).
      rewrite elem_of_cons in Hx. tauto.
Qed.

Lemma kend0_ok : KERNLINK < kend0.
Proof. done. Qed.

(** Growing the small address space from one page to two. *)
Lemma allocuvm_grows_witness :
  ∃ r s', allocuvm kend0 pgD 4096 8192 vm_user = Ret r s' ∧ pte (kmem s') pgD 0 = pte (kmem vm_user) pgD 0.
Proof.
  destruct vm_user_ok as (H & Hp & _).
  destruct (allocuvm_grows kend0 vm_user [pgF; pgG] pgD 4096 8192 kend0_ok H) as (r & s' & free' & E & _ & _ & Hold & _).
  - lia.
  - done.
  - intros v Hv. change (PGROUNDUP 4096) with 4096 in Hv. unfold PGSIZE in Hv. rewrite Hp by lia. by destruct (Z.eqb_spec v 0); [lia|].
  - exists r, s'. split; [exact E|]. apply Hold; [lia|]. change (PGROUNDUP 4096) with 4096. lia.
Defined.

Lemma deallocuvm_shrinks_witness :
  ∃ s' (free' : list Z), deallocuvm kend0 pgD 4096 0 vm_user = Ret 0 s' ∧ pgP ∈ free'.
Proof.
  destruct vm_user_ok as (H & Hp & _).
  destruct (deallocuvm_shrinks kend0 vm_user [pgF; pgG] pgD 4096 0 kend0_ok H) as (s' & free' & E & _ & _ & _ & Hf & _);
    [lia|unfold KERNBASE; lia|].
  exists s', free'. split; [exact E|]. apply (Hf 0 pgP).
  - unfold upage, upg. rewrite Hp by lia. split; [lia|]. split; vm_compute; reflexivity.
  - change (PGROUNDUP 0) with 0. unfold PGSIZE. lia.
Defined.

Lemma freevm_returns_pages_witness :
  ∃ s' (free' : list Z), freevm kend0 pgD vm_user = Ret tt s' ∧ pgD ∈ free'.
Proof.
  destruct (freevm_returns_pages kend0 vm_user [pgF; pgG] pgD kend0_ok (proj1 vm_user_ok)) as (s' & free' & E & _ & Hf & _).
  exists s', free'. split; [exact E|]. apply Hf. right. left. by left.
Defined.

Lemma copyuvm_copies_witness :
  ∃ d s', copyuvm kend0 data0 pgD 4096 vm_user = Ret d s' ∧ kmem s' pgP = kmem vm_user pgP.
Proof.
  destruct vm_user_ok as (H & Hp & _).
  destruct (copyuvm_copies kend0 data0 vm_user [pgF; pgG] pgD 4096 kend0_ok) as (d & s' & free' & E & _ & Hsame & _).
  - split; [reflexivity|]. unfold KERNLINK, KERNBASE, EXTMEM, PHYSTOP, data0. lia.
  - exact H.
  - unfold KERNBASE. lia.
  - intros v Hv Hlt. unfold PGSIZE in Hlt. assert (v = 0) as -> by lia. rewrite Hp by lia. vm_compute. reflexivity.
  - exists d, s'. split; [exact E|]. apply (Hsame pgP).
    + right. exists 0. unfold upage, upg. rewrite Hp by lia. split; [lia|]. split; vm_compute; reflexivity.
    + unfold in_page, PGSIZE. lia.
Defined.

(** Four bytes below the address space's pages copied to user address 100. *)
Lemma copyout_copies_witness :
  ∃ s', copyout pgD 100 0x80300000 4 vm_user = Ret 0 s' ∧
    kmem s' (uaddr (kmem vm_user) pgD (100 + 3)) = kmem vm_user (0x80300000 + 3).
Proof.
  destruct vm_user_ok as (H & Hp & Hown).
  destruct (copyout_copies kend0 vm_user [pgF; pgG] pgD 100 0x80300000 4 H) as (s' & E & _ & _ & Hc & _).
  - lia.
  - lia.
  - unfold KERNBASE. lia.
  - intros v Hv Hlt. change (100 / PGSIZE) with 0 in Hv. unfold PGSIZE in Hlt. assert (v = 0) as -> by lia.
    rewrite Hp by lia. vm_compute. reflexivity.
  - intros i q Hi Hq Hin. unfold in_page, PGSIZE in Hin. apply Hown in Hq. rewrite !elem_of_cons, elem_of_nil in Hq.
    unfold pgP, pgD, pgT, pgF, pgG in Hq. lia.
  - exists s'. split; [exact E|]. apply Hc. lia.
Defined.

Lemma copyout_null_pte_witness : copyout pgD 0x800000 0x80300000 4 vm_user = Fault "uva2ka: null pte".
Proof.
  apply (copyout_null_pte kend0 vm_user [pgF; pgG] pgD 0x800000 0x80300000 4 (proj1 vm_user_ok)); [lia|lia|].
  vm_compute. reflexivity.
Defined.
