(* ===== verification/Cpu.v ===== *)
(** * The processors (xv6A1/vm.c, proc.c, mmu.h)

    Which processor runs the code, its segment descriptors and task state, the
    switch between address spaces, and the first return of a process to user
    mode. *)

From S2P Require Import Prelude Memory KString Spinlock Kalloc Proc Vm.

Definition SEG_KCODE : Z := 1.
Definition SEG_KDATA : Z := 2.
Definition SEG_UCODE : Z := 3.
Definition SEG_UDATA : Z := 4.
Definition SEG_TSS : Z := 5.
Definition NSEGS : nat := 6.
Definition DPL_USER : Z := 3.
Definition STA_X : Z := 0x8.
Definition STA_W : Z := 0x2.
Definition STA_R : Z := 0x2.
Definition STS_T32A : Z := 0x9.

(** ** Segment descriptors *)

(** [struct segdesc], without its unused bits *)
Record segdesc := SegDesc {
  lim_15_0 : Z;
  base_15_0 : Z;
  base_23_16 : Z;
  sd_type : Z;
  sd_s : Z;
  sd_dpl : Z;
  sd_p : Z;
  lim_19_16 : Z;
  sd_db : Z;
  sd_g : Z;
  base_31_24 : Z }.

#[export] Instance segdesc_inhabited : Inhabited segdesc := populate (SegDesc 0 0 0 0 0 0 0 0 0 0 0).

Definition SEG (type base lim dpl : Z) : segdesc :=
  SegDesc (Z.land (Z.shiftr lim 12) 0xffff) (Z.land (u32 base) 0xffff) (Z.land (Z.shiftr (u32 base) 16) 0xff)
    type 1 dpl 1 (Z.shiftr (u32 lim) 28) 1 1 (Z.shiftr (u32 base) 24).

Definition SEG16 (type base lim dpl : Z) : segdesc :=
  SegDesc (Z.land lim 0xffff) (Z.land (u32 base) 0xffff) (Z.land (Z.shiftr (u32 base) 16) 0xff)
    type 1 dpl 1 (Z.shiftr (u32 lim) 16) 1 0 (Z.shiftr (u32 base) 24).

Definition set_s (v : Z) (d : segdesc) : segdesc :=
  SegDesc (lim_15_0 d) (base_15_0 d) (base_23_16 d) (sd_type d) v (sd_dpl d) (sd_p d) (lim_19_16 d) (sd_db d) (sd_g d) (base_31_24 d).

(** How the processor reads a descriptor: where the segment starts, and the
    last offset in it. *)
Definition seg_base (d : segdesc) : Z := base_15_0 d + 2^16 * base_23_16 d + 2^24 * base_31_24 d.
Definition seg_last (d : segdesc) : Z :=
  let lim := lim_15_0 d + 2^16 * lim_19_16 d in
  if sd_g d =? 1 then 4096 * lim + 4095 else lim.

(** ** The state *)

(** The fields of [struct cpu] and of its [struct taskstate] that this code
    uses; the interrupt state of the processor that runs it is in [vcpu]. *)
Record cpuinfo := CpuInfo {
  apicid : Z;
  gdt : list segdesc;
  ss0 : Z;
  esp0 : Z;
  iomb : Z }.

#[export] Instance cpuinfo_inhabited : Inhabited cpuinfo := populate (CpuInfo 0 [] 0 0 0).

Definition set_gdt (i : Z) (d : segdesc) (c : cpuinfo) : cpuinfo :=
  CpuInfo (apicid c) (<[Z.to_nat i := d]> (gdt c)) (ss0 c) (esp0 c) (iomb c).
Definition set_ts (s e i : Z) (c : cpuinfo) : cpuinfo := CpuInfo (apicid c) (gdt c) s e i.

(** Memory, [kpgdir], [cpus] up to [ncpu], and of the processor that runs the
    code: the number its local interrupt controller reports, the registers that
    these routines load, and the interrupt state. *)
Record vmst := VM {
  vk : kstate;
  kpgdir : Z;
  cpus : list cpuinfo;
  lapicid : Z;
  cr3 : Z;
  gdtr : option (nat * Z);
  tr : Z;
  vcpu : cpu }.

Definition on_vk {A} (m : M kstate A) : M vmst A := λ s,
  let put k := VM k (kpgdir s) (cpus s) (lapicid s) (cr3 s) (gdtr s) (tr s) (vcpu s) in
  match m (vk s) with
  | Ret v k => Ret v (put k)
  | Panic e => Panic e
  | Sleep ch k => Sleep ch (put k)
  | Fault e => Fault e
  end.

Definition on_vcpu {A} (m : M cpu A) : M vmst A := λ s,
  let put c := VM (vk s) (kpgdir s) (cpus s) (lapicid s) (cr3 s) (gdtr s) (tr s) c in
  match m (vcpu s) with
  | Ret v c => Ret v (put c)
  | Panic e => Panic e
  | Sleep ch c => Sleep ch (put c)
  | Fault e => Fault e
  end.

Definition lcr3 (v : Z) : M vmst unit :=
  modify (λ s, VM (vk s) (kpgdir s) (cpus s) (lapicid s) v (gdtr s) (tr s) (vcpu s)).
Definition lgdt (p : nat) (size : Z) : M vmst unit :=
  modify (λ s, VM (vk s) (kpgdir s) (cpus s) (lapicid s) (cr3 s) (Some (p, size)) (tr s) (vcpu s)).
Definition ltr (sel : Z) : M vmst unit :=
  modify (λ s, VM (vk s) (kpgdir s) (cpus s) (lapicid s) (cr3 s) (gdtr s) sel (vcpu s)).
Definition put_info (i : nat) (f : cpuinfo → cpuinfo) (s : vmst) : vmst :=
  VM (vk s) (kpgdir s) (alter f i (cpus s)) (lapicid s) (cr3 s) (gdtr s) (tr s) (vcpu s).
Definition on_info (i : nat) (f : cpuinfo → cpuinfo) : M vmst unit := modify (put_info i f).

(** ** The routines *)

Definition mycpu : M vmst nat :=
  c <- gets vcpu ;;
  if fl_if c then panic "mycpu called with interrupts enabled" else
  s <- gets id ;;
  match List.find (λ i, apicid (cpus s !!! i) =? lapicid s) (seq 0 (length (cpus s))) with
  | Some i => ret i
  | None => panic "unknown apicid"
  end.

(** [mycpu() - cpus] *)
Definition cpuid : M vmst nat := mycpu.

Definition sizeof_segdesc : Z := 8.

Definition seginit : M vmst unit :=
  c <- cpuid ;;
  on_info c (set_gdt SEG_KCODE (SEG (Z.lor STA_X STA_R) 0 0xffffffff 0)) ;;;
  on_info c (set_gdt SEG_KDATA (SEG STA_W 0 0xffffffff 0)) ;;;
  on_info c (set_gdt SEG_UCODE (SEG (Z.lor STA_X STA_R) 0 0xffffffff DPL_USER)) ;;;
  on_info c (set_gdt SEG_UDATA (SEG STA_W 0 0xffffffff DPL_USER)) ;;;
  lgdt c (sizeof_segdesc * Z.of_nat NSEGS).

Definition switchkvm : M vmst unit := k <- gets kpgdir ;; lcr3 (V2P k).

Definition kvmalloc (kend data : Z) : M vmst unit :=
  d <- on_vk (setupkvm kend data) ;;
  modify (λ s, VM (vk s) d (cpus s) (lapicid s) (cr3 s) (gdtr s) (tr s) (vcpu s)) ;;;
  switchkvm.

Definition sizeof_taskstate : Z := 104.

Section Switch.
(** The address of [cpus[i].ts]. *)
Context (ts_addr : nat → Z).

(** The process is given by its kernel stack and page directory. *)
Definition switchuvm (p : option (Z * Z)) : M vmst unit :=
  match p with
  | None => panic "switchuvm: no process"
  | Some (kstack, pgdir) =>
      if kstack =? 0 then panic "switchuvm: no kstack" else
      if pgdir =? 0 then panic "switchuvm: no pgdir" else
      on_vcpu pushcli ;;;
      c <- mycpu ;;
      on_info c (set_gdt SEG_TSS (SEG16 STS_T32A (ts_addr c) (sizeof_taskstate - 1) 0)) ;;;
      on_info c (λ ci, set_gdt SEG_TSS (set_s 0 (gdt ci !!! Z.to_nat SEG_TSS)) ci) ;;;
      on_info c (λ ci, set_ts (Z.shiftl SEG_KDATA 3) (esp0 ci) (iomb ci) ci) ;;;
      on_info c (λ ci, set_ts (ss0 ci) (u32 (kstack + KSTACKSIZE)) (iomb ci) ci) ;;;
      on_info c (λ ci, set_ts (ss0 ci) (esp0 ci) 0xFFFF ci) ;;;
      ltr (Z.shiftl SEG_TSS 3) ;;;
      lcr3 (V2P pgdir) ;;;
      on_vcpu popcli
  end.

End Switch.

(** ** The first return of a process *)

Section Forkret.
Context {E : Type} `{!ProcRes E} (iinit initlog : call E unit).

(** [first] is the routine's static variable; its new value is returned. *)
Definition forkret (first : bool) : M (ptst E) bool :=
  release_pt ;;;
  if first then
    on_env iinit ;;;
    on_env initlog ;;;
    ret false
  else ret first.

End Forkret.

(** ** Descriptors *)

Lemma split_bytes b : 0 <= b < 2^32 →
  Z.land b 0xffff + 2^16 * Z.land (Z.shiftr b 16) 0xff + 2^24 * Z.shiftr b 24 = b.
Proof.
  intros Hb. change 0xffff with (Z.ones 16). change 0xff with (Z.ones 8). rewrite !Z.land_ones by done.
  rewrite !Z.shiftr_div_pow2 by done. change (2^24) with (2^16 * 2^8). rewrite <- Z.div_div by done.
  Z.div_mod_to_equations. lia.
Qed.

(** A descriptor of a large segment: its base, and its limit up to the page. *)
Lemma SEG_encodes type base lim dpl :
  0 <= base < 2^32 → 0 <= lim < 2^32 →
  seg_base (SEG type base lim dpl) = base ∧ seg_last (SEG type base lim dpl) = 4096 * (lim / 4096) + 4095.
Proof.
  intros Hb Hl. unfold seg_base, seg_last, SEG. cbn [base_15_0 base_23_16 base_31_24 lim_15_0 lim_19_16 sd_g].
  rewrite (u32_small base), (u32_small lim) by done. split; [by apply split_bytes|].
  change (1 =? 1) with true. cbv iota. change 0xffff with (Z.ones 16). rewrite Z.land_ones by done.
  rewrite !Z.shiftr_div_pow2 by done. change (2^28) with (2^12 * 2^16). rewrite <- Z.div_div by done.
  change (2^12) with 4096. Z.div_mod_to_equations. lia.
Qed.

Lemma SEG16_encodes type base lim dpl :
  0 <= base < 2^32 → 0 <= lim < 2^20 →
  seg_base (SEG16 type base lim dpl) = base ∧ seg_last (SEG16 type base lim dpl) = lim.
Proof.
  intros Hb Hl. unfold seg_base, seg_last, SEG16. cbn [base_15_0 base_23_16 base_31_24 lim_15_0 lim_19_16 sd_g].
  rewrite (u32_small base), (u32_small lim) by lia. split; [by apply split_bytes|].
  change (0 =? 1) with false. cbv iota. change 0xffff with (Z.ones 16). rewrite Z.land_ones by done.
  rewrite !Z.shiftr_div_pow2 by done. Z.div_mod_to_equations. lia.
Qed.

(** ** The processor that runs the code *)

(** Processor [i] runs the code, and no other has its number. *)
Definition running_on (s : vmst) (i : nat) : Prop :=
  (i < length (cpus s))%nat ∧ apicid (cpus s !!! i) = lapicid s ∧
  ∀ j, (j < length (cpus s))%nat → apicid (cpus s !!! j) = lapicid s → j = i.

Lemma mycpu_finds s i : running_on s i → fl_if (vcpu s) = false → mycpu s = Ret i s.
Proof.
  intros (Hi & Hid & Hu) Hif. unfold mycpu, bind, gets. rewrite Hif. cbn [id].
  destruct (List.find _ _) as [j|] eqn:E.
  - apply List.find_some in E as [Hj Ej%Z.eqb_eq]. apply in_seq in Hj. rewrite (Hu j); [done|lia|done].
  - eapply List.find_none in E; [|apply in_seq; split; [lia|exact Hi]]. by rewrite Hid, Z.eqb_refl in E.
Qed.

(** Assignments to the same processor's record, one after the other. *)
Lemma on_info_bind {A} i f (m : M vmst A) s : (on_info i f ;;; m) s = m (put_info i f s).
Proof. done. Qed.

Lemma put_info_twice i f g s : put_info i g (put_info i f s) = put_info i (g ∘ f) s.
Proof. unfold put_info. cbn. f_equal. by rewrite list_alter_alter_eq. Qed.

(** [seginit]: the processor uses its own table, in which the kernel's and the
    user's segments cover all 4 gigabytes and differ in privilege; no other
    processor changes. *)
Theorem seginit_flat s i :
  running_on s i → fl_if (vcpu s) = false → length (gdt (cpus s !!! i)) = NSEGS →
  ∃ s', seginit s = Ret tt s' ∧ gdtr s' = Some (i, 48) ∧
    (∀ j, j ≠ i → cpus s' !! j = cpus s !! j) ∧
    ∀ k, In k [SEG_KCODE; SEG_KDATA; SEG_UCODE; SEG_UDATA] →
      let d := gdt (cpus s' !!! i) !!! Z.to_nat k in
      seg_base d = 0 ∧ seg_last d = 0xffffffff ∧ sd_p d = 1 ∧
      sd_dpl d = (if k <? SEG_UCODE then 0 else DPL_USER).
Proof.
  intros Hr Hif Hl. pose proof Hr as (Hi & _). unfold seginit, cpuid, bind at 1. rewrite (mycpu_finds s i Hr Hif).
  rewrite !on_info_bind, !put_info_twice. eexists. split; [reflexivity|]. cbn [gdtr cpus put_info]. split; [done|]. split.
  { intros j Hj. by rewrite list_lookup_alter_ne. }
  intros k Hk. rewrite list_lookup_total_alter_eq by lia. cbn [compose set_gdt gdt].
  destruct (gdt (cpus s !!! i)) as [|d0 [|d1 [|d2 [|d3 [|d4 [|d5 [|? ?]]]]]]]; try done.
  destruct Hk as [<-|[<-|[<-|[<-|[]]]]]; vm_compute; done.
Qed.

(** [switchuvm] for a process: the processor is in the address space of the
    process, and takes its traps on the kernel stack of the process: the task
    register selects a descriptor of the task state, which names that stack.
    The interrupt flag is what it was, and no other processor changes. *)
Theorem switchuvm_installs ts_addr s i b kst pg :
  running_on s i → cli_inv b (ncli (vcpu s)) (vcpu s) → length (gdt (cpus s !!! i)) = NSEGS →
  0 <= ts_addr i < 2^32 → kst ≠ 0 → pg ≠ 0 →
  ∃ s', switchuvm ts_addr (Some (kst, pg)) s = Ret tt s' ∧ cr3 s' = V2P pg ∧ tr s' = Z.shiftl SEG_TSS 3 ∧
    cli_inv b (ncli (vcpu s)) (vcpu s') ∧ vk s' = vk s ∧
    (∀ j, j ≠ i → cpus s' !! j = cpus s !! j) ∧
    esp0 (cpus s' !!! i) = u32 (kst + KSTACKSIZE) ∧ ss0 (cpus s' !!! i) = 16 ∧ iomb (cpus s' !!! i) = 0xFFFF ∧
    (∀ k, k ≠ 5%nat → gdt (cpus s' !!! i) !! k = gdt (cpus s !!! i) !! k) ∧
    let d := gdt (cpus s' !!! i) !!! 5%nat in
    seg_base d = ts_addr i ∧ seg_last d = 103 ∧ sd_type d = STS_T32A ∧ sd_s d = 0 ∧ sd_p d = 1.
Proof.
  intros Hr Hc Hl Hts Hk Hp. pose proof Hr as (Hi & _). unfold switchuvm.
  destruct (Z.eqb_spec kst 0); [done|]. destruct (Z.eqb_spec pg 0); [done|].
  destruct (pushcli_inv _ _ _ Hc) as (c1 & E1 & H1). pose proof Hc as (_ & H0 & _).
  destruct (popcli_inv _ _ _ H1) as (c2 & E2 & H2); [lia|].
  unfold bind at 1, on_vcpu at 1. rewrite E1. destruct H1 as (_ & _ & _ & Hoff).
  set (s1 := VM _ _ _ _ _ _ _ _).
  unfold bind at 1. rewrite (mycpu_finds s1 i) by (done || (cbn; apply Hoff; lia)).
  rewrite !on_info_bind, !put_info_twice. unfold bind, ltr, lcr3, modify, on_vcpu. cbn [vcpu put_info s1]. rewrite E2.
  eexists. split; [reflexivity|]. cbn [cr3 tr vcpu vk cpus put_info s1].
  split; [done|]. split; [done|]. split; [by replace (ncli (vcpu s) + 1 - 1) with (ncli (vcpu s)) in H2 by lia|].
  split; [done|]. split; [intros j Hj; by rewrite list_lookup_alter_ne|].
  rewrite list_lookup_total_alter_eq by done. cbn [compose set_gdt set_ts gdt ss0 esp0 iomb].
  change (Z.to_nat SEG_TSS) with 5%nat. unfold NSEGS in Hl.
  rewrite list_insert_insert_eq. rewrite !list_lookup_total_insert_eq by (rewrite ?length_insert; lia).
  split; [done|]. split; [done|]. split; [done|]. split; [intros k Hne; by rewrite list_lookup_insert_ne|].
  destruct (SEG16_encodes STS_T32A (ts_addr i) 103 0 Hts) as [Eb El]; [lia|].
  split; [exact Eb|]. split; [exact El|]. done.
Qed.

(** [forkret] runs the file system's initialisers for the first process to
    return, and never again. *)
Theorem forkret_once {E} `{!ProcRes E} iinit initlog first (s s' : ptst E) r :
  forkret iinit initlog first s = Ret r s' →
  r = false ∧ procs s' = procs s ∧ pt_lock s' = false ∧
  (if first then ∃ e, iinit (env s) = inr (tt, e) ∧ initlog e = inr (tt, env s') else env s' = env s).
Proof.
  unfold forkret, release_pt, bind, on_cpu, on_env, release. cbn.
  destruct (pt_lock s); [|done]. cbn. destruct (popcli (Proc.mycpu s)) as [[] c| | |]; try done. cbn.
  destruct first; [|by intros [= <- <-]]. cbn. destruct (iinit (env s)) as [m|[[] e]]; cbn; [intros [=]|].
  destruct (initlog e) as [m|[[] e']] eqn:Ei; cbn; [intros [=]|]. intros [= <- <-]. cbn. split_and!; eauto.
Qed.

(** ** Two processors *)

Definition two_cpus : vmst :=
  VM (KState false true 0 (λ _, 0)) 0x80400000 [CpuInfo 0 (replicate NSEGS inhabitant) 0 0 0; CpuInfo 4 (replicate NSEGS inhabitant) 0 0 0]
    4 0 None 0 (Cpu false 0 false).

Lemma two_cpus_second : running_on two_cpus 1.
Proof.
  split; [cbn; lia|]. split; [done|]. intros [|[|j]] Hj E; cbn in *; [done|done|lia].
Qed.

Lemma seginit_flat_witness : ∃ s', seginit two_cpus = Ret tt s' ∧ gdtr s' = Some (1%nat, 48).
Proof.
  destruct (seginit_flat two_cpus 1 two_cpus_second eq_refl eq_refl) as (s' & E & Hg & _).
  exists s'. split; [exact E|exact Hg].
Defined.

Lemma switchuvm_installs_witness :
  ∃ s', switchuvm (λ i, 0x80112000 + 176 * Z.of_nat i) (Some (0x80500000, 0x80600000)) two_cpus = Ret tt s' ∧ cr3 s' = 0x600000.
Proof.
  destruct (switchuvm_installs (λ i, 0x80112000 + 176 * Z.of_nat i) two_cpus 1 false 0x80500000 0x80600000) as (s' & E & Hc & _).
  - exact two_cpus_second.
  - repeat split; intros; done.
  - reflexivity.
  - split; done.
  - done.
  - done.
  - exists s'. split; [exact E|exact Hc].
Defined.
