(* ===== verification/Exec.v ===== *)
(** * Loading programs (xv6A1/exec.c, elf.h)

    [exec] builds a new address space from free pages, loads the segments of an
    ELF file into it, puts the arguments on a new user stack, and only then
    replaces the caller's address space. Memory is that of the page allocator;
    at addresses below [KERNBASE] it is what the running process sees, which is
    where the arguments are. Files are an interface: their contents, and the
    calls around them. *)

From S2P Require Import Prelude Memory KString Spinlock Kalloc Layout FsLayout Proc Vm Cpu.

Definition MAXARG : nat := 32.
Definition ELF_MAGIC : Z := 0x464C457F.
Definition ELF_PROG_LOAD : Z := 1.

(** [struct elfhdr] and [struct proghdr]: the fields that are used. *)
Record elfhdr := Elf { magic : Z; entry : Z; phoff : Z; phnum : Z }.
Record proghdr := Ph { p_type : Z; p_off : Z; p_vaddr : Z; p_filesz : Z; p_memsz : Z }.

Definition sizeof_elfhdr : Z := 52.
Definition sizeof_proghdr : Z := 32.
Definition get_elfhdr (bs : list Z) : elfhdr := Elf (get32 bs 0) (get32 bs 24) (get32 bs 28) (get16 bs 44).
Definition get_proghdr (bs : list Z) : proghdr :=
  Ph (get32 bs 0) (get32 bs 4) (get32 bs 8) (get32 bs 16) (get32 bs 20).

(** What [readi] of an ordinary file with contents [bs] returns and stores. *)
Definition file_readi (bs : list Z) (off n : Z) : Z * list Z :=
  let size := Z.of_nat (length bs) in
  if (size <? off) || (u32 (off + n) <? off) then (-1, []) else
  let n := if size <? off + n then size - off else n in
  (n, take (Z.to_nat n) (drop (Z.to_nat off) bs)).

(** The file system as [exec] uses it. *)
Class ExecFs (F I : Type) := {
  x_begin_op : call F unit;
  x_namei : list Z → call F (option I);
  x_ilock : I → call F unit;
  x_contents : F → I → list Z;
  x_iunlockput : I → call F unit;
  x_end_op : call F unit }.

(** Memory and processors, files, the running process, and what is printed. *)
Record exst (F : Type) := EX { xv : vmst; xf : F; xp : proc; xout : list string }.
Arguments EX {F} _ _ _ _.
Arguments xv {F} _.
Arguments xf {F} _.
Arguments xp {F} _.
Arguments xout {F} _.

(** Bytes, and words, stored from an address on. *)
Definition put_bytes (a : Z) (bs : list Z) (m : mem) : mem := λ x,
  if (a <=? x) && (x <? a + Z.of_nat (length bs)) then bs !!! Z.to_nat (x - a) else m x.
Definition put_words (a : Z) (ws : list Z) (m : mem) : mem := put_bytes a (concat (map bytes32 ws)) m.

(** What follows the last slash: [for(last=s=path; *s; s++) if( *s == '/') last = s+1] *)
Fixpoint last_elem (s last : list Z) : list Z :=
  match s with
  | [] => last
  | c :: s' => last_elem s' (if c =? 47 then s' else last)
  end.

Definition tf_set_eip (v : Z) (t : trapframe) : trapframe :=
  TF (tf_edi t) (tf_esi t) (tf_ebp t) (tf_oesp t) (tf_ebx t) (tf_edx t) (tf_ecx t) (tf_eax t) (tf_gs t) (tf_fs t) (tf_es t) (tf_ds t) (tf_trapno t) (tf_err t) v (tf_cs t) (tf_eflags t) (tf_esp t) (tf_ss t).
Definition tf_set_esp (v : Z) (t : trapframe) : trapframe :=
  TF (tf_edi t) (tf_esi t) (tf_ebp t) (tf_oesp t) (tf_ebx t) (tf_edx t) (tf_ecx t) (tf_eax t) (tf_gs t) (tf_fs t) (tf_es t) (tf_ds t) (tf_trapno t) (tf_err t) (tf_eip t) (tf_cs t) (tf_eflags t) v (tf_ss t).

Section Exec.
Context {F I : Type} `{!ExecFs F I}.
(** [end] and [data] of the linker; where the task states of the processors and
    the local array [ustack] are. *)
Context (kend data : Z) (ts_addr : nat → Z) (ustack : Z).

Definition on_f {A} (m : call F A) : M (exst F) A := λ s,
  match m (xf s) with
  | inr (v, f) => Ret v (EX (xv s) f (xp s) (xout s))
  | inl e => Panic e
  end.

Definition on_v {A} (m : M vmst A) : M (exst F) A := λ s,
  let put v := EX v (xf s) (xp s) (xout s) in
  match m (xv s) with
  | Ret a v => Ret a (put v)
  | Panic e => Panic e
  | Sleep ch v => Sleep ch (put v)
  | Fault e => Fault e
  end.

Definition on_k {A} (m : M kstate A) : M (exst F) A := on_v (on_vk m).
Definition on_p (f : proc → proc) : M (exst F) unit := modify (λ s, EX (xv s) (xf s) (f (xp s)) (xout s)).
Definition cprintf (t : string) : M (exst F) unit := modify (λ s, EX (xv s) (xf s) (xp s) (xout s ++ [t])).

(** [readi] into a local variable, and into memory. *)
Definition read_local (ip : I) (off n : Z) : M (exst F) (Z * list Z) :=
  gets (λ s, file_readi (x_contents (xf s) ip) off n).
Definition read_mem (bs : list Z) (dst off n : Z) : M kstate Z :=
  let r := file_readi bs off n in
  on_mem (put_bytes dst r.2) ;;;
  ret r.1.

(** [bad]: *)
Definition bad (pgdir : Z) (ip : option I) : M (exst F) Z :=
  (when negb (pgdir =? 0) do on_k (freevm kend pgdir)) ;;;
  match ip with
  | Some ip => on_f (x_iunlockput ip) ;;; on_f x_end_op
  | None => ret tt
  end ;;;
  ret (-1).

(** The loop over the program headers, with [n] to go; [None] is [goto bad]. *)
Fixpoint load_loop (n : nat) (ip : I) (pgdir off sz : Z) : M (exst F) (option Z) :=
  match n with
  | O => ret (Some sz)
  | S n' =>
      r <- read_local ip off sizeof_proghdr ;;
      if negb (r.1 =? sizeof_proghdr) then ret None else
      let ph := get_proghdr r.2 in
      if negb (p_type ph =? ELF_PROG_LOAD) then load_loop n' ip pgdir (u32 (off + sizeof_proghdr)) sz else
      if p_memsz ph <? p_filesz ph then ret None else
      if u32 (p_vaddr ph + p_memsz ph) <? p_vaddr ph then ret None else
      sz <- on_k (allocuvm kend pgdir sz (u32 (p_vaddr ph + p_memsz ph))) ;;
      if sz =? 0 then ret None else
      if negb (p_vaddr ph mod PGSIZE =? 0) then ret None else
      f <- gets xf ;;
      r <- on_k (loaduvm (read_mem (x_contents f ip)) pgdir (p_vaddr ph) (p_off ph) (p_filesz ph)) ;;
      if r <? 0 then ret None else
      load_loop n' ip pgdir (u32 (off + sizeof_proghdr)) sz
  end.

(** The loop over the arguments; also the words [ustack[3..]] so far. *)
Fixpoint push_args (pgdir : Z) (argv : list Z) (sp : Z) (ptrs : list Z) : M (exst F) (option (Z * list Z)) :=
  match argv with
  | [] => ret (Some (sp, ptrs))
  | a :: argv' =>
      if (MAXARG <=? length ptrs)%nat then ret None else
      len <- (λ s, match strlen (kmem (vk (xv s))) a (Z.to_nat (sz (xp s) - a)) with
                   | Some n => Ret n s
                   | None => Fault "strlen"
                   end) ;;
      let sp := Z.land (u32 (sp - (len + 1))) (u32 (Z.lnot 3)) in
      r <- on_k (copyout pgdir sp a (len + 1)) ;;
      if r <? 0 then ret None else
      push_args pgdir argv' sp (ptrs ++ [sp])
  end.

(** The end of [exec]: the process gets the new image. *)
Definition commit_image (path : list Z) (pgdir sz eip sp : Z) : M (exst F) Z :=
  on_p (copy_name (last_elem path path)) ;;;
  p <- gets xp ;;
  let oldpgdir := Proc.pgdir p in
  on_p (set_pgdir pgdir) ;;;
  on_p (set_sz sz) ;;;
  on_p (λ p, set_frame (tf_set_eip eip (frame p)) p) ;;;
  on_p (λ p, set_frame (tf_set_esp sp (frame p)) p) ;;;
  on_p (set_handler (-1)) ;;;
  on_p no_message ;;;
  on_p (set_dis_sig 0) ;;;
  on_p (set_intr 0) ;;;
  on_v (switchuvm ts_addr (Some (kstack p, pgdir))) ;;;
  on_k (freevm kend oldpgdir) ;;;
  ret 0.

(** From the user stack on; [sz] is the size of what is loaded. *)
Definition make_stack (path : list Z) (argv : list Z) (elf : elfhdr) (pgdir sz : Z) : M (exst F) Z :=
  let sz := PGROUNDUP sz in
  sz <- on_k (allocuvm kend pgdir sz (u32 (sz + 2 * PGSIZE))) ;;
  if sz =? 0 then bad pgdir None else
  on_k (clearpteu pgdir (u32 (sz - 2 * PGSIZE))) ;;;
  r <- push_args pgdir argv sz [] ;;
  match r with
  | None => bad pgdir None
  | Some (sp, ptrs) =>
      let argc := Z.of_nat (length ptrs) in
      on_k (on_mem (put_words ustack ([0xffffffff; argc; u32 (sp - (argc + 1) * 4)] ++ ptrs ++ [0]))) ;;;
      let sp := u32 (sp - (3 + argc + 1) * 4) in
      r <- on_k (copyout pgdir sp ustack ((3 + argc + 1) * 4)) ;;
      if r <? 0 then bad pgdir None else
      commit_image path pgdir sz (entry elf) sp
  end.

Definition exec (path : list Z) (argv : list Z) : M (exst F) Z :=
  on_f x_begin_op ;;;
  ip <- on_f (x_namei path) ;;
  match ip with
  | None =>
      on_f x_end_op ;;;
      cprintf (String.append "exec: fail" (String (Ascii.ascii_of_nat 10) EmptyString)) ;;;
      ret (-1)
  | Some ip =>
      on_f (x_ilock ip) ;;;
      r <- read_local ip 0 sizeof_elfhdr ;;
      if negb (r.1 =? sizeof_elfhdr) then bad 0 (Some ip) else
      let elf := get_elfhdr r.2 in
      if negb (magic elf =? ELF_MAGIC) then bad 0 (Some ip) else
      pgdir <- on_k (setupkvm kend data) ;;
      if pgdir =? 0 then bad 0 (Some ip) else
      l <- load_loop (Z.to_nat (phnum elf)) ip pgdir (phoff elf) 0 ;;
      match l with
      | None => bad pgdir (Some ip)
      | Some sz =>
          on_f (x_iunlockput ip) ;;;
          on_f x_end_op ;;;
          make_stack path argv elf pgdir sz
      end
  end.

End Exec.

(** ** What is to be loaded

    The image of a file: the size it takes, and the segments in order. *)

(** A segment: where it goes, and its bytes. *)
Record segment := Seg { s_at : Z; s_bytes : list Z }.

(** The next program header, [off] bytes into the file [bs], when [sz] bytes of
    address space are in use. *)
Fixpoint load_plan (n : nat) (bs : list Z) (off sz : Z) : option (Z * list segment) :=
  match n with
  | O => Some (sz, [])
  | S n' =>
      let r := file_readi bs off sizeof_proghdr in
      if negb (r.1 =? sizeof_proghdr) then None else
      let ph := get_proghdr r.2 in
      if negb (p_type ph =? ELF_PROG_LOAD) then load_plan n' bs (u32 (off + sizeof_proghdr)) sz else
      let last := p_vaddr ph + p_memsz ph in
      let sz' := Z.max sz last in
      if (p_memsz ph <? p_filesz ph) || (KERNBASE <=? last) || (sz' =? 0) || negb (p_vaddr ph mod PGSIZE =? 0)
        || (0 <? p_filesz ph) && (Z.of_nat (length bs) <? p_off ph + p_filesz ph) then None
      else
        option_map (λ r, (r.1, Seg (p_vaddr ph) (take (Z.to_nat (p_filesz ph)) (drop (Z.to_nat (p_off ph)) bs)) :: r.2))
          (load_plan n' bs (u32 (off + sizeof_proghdr)) sz')
  end.

(** The entry point, size and segments; with the two pages of the stack, the
    image stays below the kernel. *)
Definition exec_plan (bs : list Z) : option (Z * Z * list segment) :=
  let r := file_readi bs 0 sizeof_elfhdr in
  let elf := get_elfhdr r.2 in
  if negb (r.1 =? sizeof_elfhdr) || negb (magic elf =? ELF_MAGIC) then None else
  match load_plan (Z.to_nat (phnum elf)) bs (phoff elf) 0 with
  | Some (sz, segs) => if KERNBASE <=? PGROUNDUP sz + 2 * PGSIZE then None else Some (entry elf, sz, segs)
  | None => None
  end.

(** The bytes of the image: zero where no segment puts anything; where several
    do, the last. *)
Definition image (segs : list segment) (a : Z) : Z :=
  fold_left (λ v sg, if (s_at sg <=? a) && (a <? s_at sg + Z.of_nat (length (s_bytes sg)))
                     then s_bytes sg !!! Z.to_nat (a - s_at sg) else v) segs 0.

(** Where the arguments of lengths [lens] go on a stack page that starts at
    [lo], below [sp]. *)
Fixpoint place (lo sp : Z) (lens : list Z) : option (Z * list Z) :=
  match lens with
  | [] => Some (sp, [])
  | len :: lens' =>
      let sp := (sp - (len + 1)) / 4 * 4 in
      if sp <? lo then None
      else option_map (λ r, (r.1, sp :: r.2)) (place lo sp lens')
  end.

Definition stack_plan (lo : Z) (lens : list Z) : option (Z * list Z) :=
  if (MAXARG <? length lens)%nat then None else
  match place lo (lo + PGSIZE) lens with
  | Some (sp, ptrs) =>
      let sp' := sp - (3 + Z.of_nat (length lens) + 1) * 4 in
      if sp' <? lo then None else Some (sp', ptrs)
  | None => None
  end.

(** The words at the top of the stack: the return address, [argc], [argv], and
    the array that [argv] points to. *)
Definition stack_words (sp : Z) (ptrs : list Z) : list Z :=
  [0xffffffff; Z.of_nat (length ptrs); sp + 12] ++ ptrs ++ [0].
