(* ===== verification/ExecFile.v ===== *)
(** * The contents of a file

    What [exec] assumes of [readi] is what the file system provides. *)

From S2P Require Import Prelude BlockCache Layout TxDisk FsLayout Fs FsBlocks FsMap FsData Memory Exec.

Section File.
Context {S : Type} `{!TxDisk S} `{!Devsw S}.

(** Reads of an open file are those of its contents, also past its end and with
    offsets that wrap around; nothing changes. *)
Theorem readi_file (s : fstate S) i a off n :
  open_inode s i a → 0 <= off < 2^32 → 0 <= n < 2^32 →
  ∃ d', readi i off n s = Ret (file_readi (content (td_view a) (i_di (icache s !!! i))) off n) (set_disk d' s) ∧ d_ok d' a.
Proof.
  intros [Hi Hdev _ O Hh F _ Ht] Ho Hn. set (di := i_di (icache s !!! i)) in *. pose proof (fo_max _ _ _ F) as Hm.
  assert (HM : MAXFILE * BSIZE < 2^31) by done.
  assert (Hl : Z.of_nat (length (content (td_view a) di)) = di_size di) by (rewrite length_content; lia).
  assert (Es : at_di s i (disk s) di = s) by exact (at_di_id s i Hi).
  unfold file_readi. rewrite Hl.
  destruct ((di_size di <? off) || (u32 (off + n) <? off)) eqn:Ec.
  { exists (disk s). split; [|apply O]. unfold readi, bind at 1, the, gets. fold di.
    destruct (Z.eqb_spec (di_type di) T_DEV); [done|]. rewrite Ec. by destruct s. }
  apply orb_false_iff in Ec as [Ho1%Z.ltb_ge Ho2%Z.ltb_ge].
  assert (Hov : off + n < 2^32) by (revert Ho2; unfold u32; Z.div_mod_to_equations; lia).
  destruct (readi_run s i (fs_sb s) Hi Hdev (disk s) a di off n O Hh F Ht ltac:(lia) ltac:(lia) Hov) as (d' & E & H').
  rewrite Es in E. exists d'. split; [|done]. rewrite E, bytes_at_content by lia. f_equal.
  - destruct (Z.ltb_spec (di_size di) (off + n)); [by rewrite Z.min_r by lia|by rewrite Z.min_l by lia].
  - destruct s as [d sb l ics p c]. unfold at_di, set_disk. cbn. f_equal.
    pose proof (at_di_id (FState d sb l ics p c) i Hi) as Eid. by injection Eid.
Qed.
End File.
