(* ===== verification/ExecMem.v ===== *)
(** * An address space under construction

    What the steps of [exec] do to the memory that the new program will see:
    growing it, filling it from a file, closing the page below the stack, and
    copying to the stack. *)

From S2P Require Import Prelude Memory KString Spinlock Kalloc Layout FsLayout Proc Vm VmTables VmSpec VmFree VmProps Cpu Exec.

(** The byte at the user address [a]. *)
Definition ub (m : mem) (d a : Z) : Z := m (uaddr m d a).
Definition present (m : mem) (d a : Z) : Prop := has (pte m d (a / PGSIZE)) PTE_P = true.

Lemma page_no a : 0 <= a < KERNBASE → 0 <= a / PGSIZE < 2^19.
Proof. unfold KERNBASE, PGSIZE. intros. Z.div_mod_to_equations. lia. Qed.

Lemma page_off a : a = PGSIZE * (a / PGSIZE) + a mod PGSIZE ∧ 0 <= a mod PGSIZE < PGSIZE.
Proof. split; [apply Z.div_mod; done|apply Z.mod_pos_bound; done]. Qed.

Lemma user_page_present e : user_page e = true → has e PTE_P = true.
Proof. by intros [? _]%andb_true_iff. Qed.

Lemma pgup_le x v : 0 <= x <= KERNBASE → PGROUNDUP x <= PGSIZE * v ↔ x <= PGSIZE * v.
Proof.
  intros Hx. rewrite PGROUNDUP_eq by (unfold KERNBASE, PGSIZE in *; lia). unfold PGSIZE. Z.div_mod_to_equations. lia.
Qed.

Lemma pgup_range x : 0 <= x <= KERNBASE → x <= PGROUNDUP x < x + PGSIZE ∧ PGROUNDUP x mod PGSIZE = 0.
Proof.
  intros Hx. rewrite PGROUNDUP_eq by (unfold KERNBASE, PGSIZE in *; lia). unfold PGSIZE. Z.div_mod_to_equations. lia.
Qed.

Lemma page_entry_user pa : user_page (page_entry pa (Z.lor PTE_W PTE_U)) = true.
Proof.
  unfold user_page. rewrite page_entry_has. unfold has, page_entry.
  destruct (Z.eqb_spec (Z.land (Z.lor (Z.lor pa (Z.lor PTE_W PTE_U)) PTE_P) PTE_U) 0) as [E|]; [|done].
  apply (f_equal (λ z, Z.testbit z 2)) in E. rewrite Z.land_spec, !Z.lor_spec in E.
  change (Z.testbit PTE_W 2 || Z.testbit PTE_U 2) with true in E. rewrite orb_true_r in E. done.
Qed.

Lemma put_bytes_byte_mem m a bs : byte_mem m → Forall (λ b, 0 <= b < 256) bs → byte_mem (put_bytes a bs m).
Proof.
  intros Hm Hb x. unfold put_bytes. destruct ((a <=? x) && (x <? a + Z.of_nat (length bs))) eqn:E; [|apply Hm].
  zbool. assert (Hlt : (Z.to_nat (x - a) < length bs)%nat) by lia. apply lookup_lt_is_Some in Hlt as [b Eb].
  rewrite (list_lookup_total_correct _ _ _ Eb). rewrite Forall_forall in Hb. by apply Hb, (list_elem_of_lookup_2 _ _ _ Eb).
Qed.

Section ExecMem.
Context (kend : Z) (Hkend : KERNLINK < kend).

(** ** User bytes *)

Lemma upage_at s free d a :
  vm_ok kend s free d → 0 <= a < KERNBASE → present (kmem s) d a →
  upage (kmem s) d (a / PGSIZE) (upg (kmem s) d (a / PGSIZE)) ∧ page_ok kend (upg (kmem s) d (a / PGSIZE)) ∧
  in_page (upg (kmem s) d (a / PGSIZE)) (uaddr (kmem s) d a).
Proof.
  intros H Ha Hp. assert (Hu : upage (kmem s) d (a / PGSIZE) (upg (kmem s) d (a / PGSIZE))).
  { split; [by apply page_no|]. done. }
  split; [done|]. split; [apply (vo_page _ _ _ _ H); right; eauto|].
  unfold in_page, uaddr. pose proof (page_off a). lia.
Qed.

Lemma uaddr_inj s free d a b :
  vm_ok kend s free d → 0 <= a < KERNBASE → 0 <= b < KERNBASE → present (kmem s) d a → present (kmem s) d b →
  uaddr (kmem s) d a = uaddr (kmem s) d b → a = b.
Proof.
  intros H Ha Hb Pa Pb E. destruct (upage_at _ _ _ _ H Ha Pa) as (Ua & Oa & Ia).
  destruct (upage_at _ _ _ _ H Hb Pb) as (Ub & Ob & Ib). rewrite E in Ia.
  destruct (Z.eq_dec (upg (kmem s) d (a / PGSIZE)) (upg (kmem s) d (b / PGSIZE))) as [Eu|Hne].
  - rewrite Eu in Ua. pose proof (vo_uinj _ _ _ _ H _ _ _ Ua Ub) as Ev.
    unfold uaddr in E. rewrite Ev in E. pose proof (page_off a). pose proof (page_off b). rewrite Ev in *. lia.
  - by destruct (page_apart kend _ _ _ Oa Ob Hne Ia).
Qed.

(** An address space none of whose pages has changed. *)
Record kept (s s' : kstate) (free' : list Z) (d : Z) : Prop := {
  kp_ok : vm_ok kend s' free' d;
  kp_pte : ∀ v, 0 <= v < 2^20 → pte (kmem s') d v = pte (kmem s) d v;
  kp_owns : ∀ p, owns (kmem s') d p ↔ owns (kmem s) d p;
  kp_same : ∀ p, owns (kmem s) d p → same_page (kmem s) (kmem s') p;
  kp_ub : ∀ a, 0 <= a < KERNBASE → present (kmem s) d a → ub (kmem s') d a = ub (kmem s) d a }.

Lemma kept_intro s s' free free' d (P : Z → Prop) :
  vm_ok kend s free d → kinv kend s' free' → only_pages P (kmem s) (kmem s') →
  (∀ p, P p → page_ok kend p ∧ ¬ owns (kmem s) d p) → (∀ p, owns (kmem s) d p → p ∉ free') → kept s s' free' d.
Proof.
  intros H Hk Ho HP Hf. assert (Hs : ∀ p, owns (kmem s) d p → same_page (kmem s) (kmem s') p).
  { intros p Hp. apply (only_same kend _ _ _ _ Ho); [by apply (vo_page _ _ _ _ H)|].
    intros q Hq. destruct (HP q Hq) as [? Hn]. split; [done|]. by intros ->. }
  assert (Ht : ∀ p, tpage (kmem s) d p → same_page (kmem s) (kmem s') p) by (intros p Hp; apply Hs; by left).
  destruct (vm_ok_frame kend s s' free free' d H Hk Ht Hf) as [Hok Hown].
  destruct (same_tables _ _ _ Ht) as (_ & _ & Hv & _). split; try done.
  intros a Ha Hp. destruct (upage_at _ _ _ _ H Ha Hp) as (Ua & _ & Ia). unfold ub.
  assert (Ea : uaddr (kmem s') d a = uaddr (kmem s) d a).
  { pose proof (page_no a Ha). unfold uaddr, upg. by rewrite Hv by lia. }
  rewrite Ea. apply (Hs (upg (kmem s) d (a / PGSIZE))); [right; eauto|done].
Qed.

(** Changes to user pages only. *)
Record upd_user (s s' : kstate) (free : list Z) (d : Z) : Prop := {
  uu_ok : vm_ok kend s' free d;
  uu_pte : ∀ v, 0 <= v < 2^20 → pte (kmem s') d v = pte (kmem s) d v;
  uu_owns : ∀ p, owns (kmem s') d p ↔ owns (kmem s) d p;
  uu_only : only_pages (owns (kmem s) d) (kmem s) (kmem s') }.

Lemma upd_user_refl s free d : vm_ok kend s free d → upd_user s s free d.
Proof. intros H. by split. Qed.

Lemma upd_user_trans s1 s2 s3 free d : upd_user s1 s2 free d → upd_user s2 s3 free d → upd_user s1 s3 free d.
Proof.
  intros [O1 P1 W1 N1] [O2 P2 W2 N2]. split; [done| | |].
  - intros v Hv. by rewrite P2, P1.
  - intros p. by rewrite W2, W1.
  - apply (only_trans _ _ _ _ _ _ N1 N2). intros p [?|?%W1]; done.
Qed.

Lemma upd_user_intro s s' free d :
  vm_ok kend s free d → kinv kend s' free →
  only_pages (λ p, ∃ v, upage (kmem s) d v p) (kmem s) (kmem s') → upd_user s s' free d.
Proof.
  intros H Hk Ho. assert (Hs : ∀ q, tpage (kmem s) d q → same_page (kmem s) (kmem s') q).
  { intros q Hq. apply (only_same kend _ _ _ _ Ho); [apply (vo_page _ _ _ _ H); by left|].
    intros p [v Hu]. split; [apply (vo_page _ _ _ _ H); right; eauto|]. intros ->. by apply (vo_disj _ _ _ _ H v q). }
  destruct (vm_ok_frame kend s s' free free d H Hk Hs) as [Hok Hown]; [intros q Hq; by apply (vo_page _ _ _ _ H)|].
  split; [done| |done|].
  - by destruct (same_tables _ _ _ Hs) as (_ & _ & Hv & _).
  - intros x Hx. apply Ho. intros p Hp. apply Hx. by right.
Qed.

Lemma upd_user_addr s s' free d a : upd_user s s' free d → 0 <= a < KERNBASE → uaddr (kmem s') d a = uaddr (kmem s) d a.
Proof. intros U Ha. pose proof (page_no a Ha). unfold uaddr, upg. by rewrite (uu_pte _ _ _ _ U) by lia. Qed.

Lemma upd_user_present s s' free d a : upd_user s s' free d → 0 <= a < KERNBASE → present (kmem s') d a ↔ present (kmem s) d a.
Proof. intros U Ha. pose proof (page_no a Ha). unfold present. by rewrite (uu_pte _ _ _ _ U) by lia. Qed.

(** Bytes put at the start of a user page. *)
Lemma user_put s free d v bs :
  vm_ok kend s free d → 0 <= v < 2^19 → has (pte (kmem s) d v) PTE_P = true →
  Z.of_nat (length bs) <= PGSIZE → Forall (λ b, 0 <= b < 256) bs →
  ∀ s', s' = KState (kmem_lock s) (use_lock s) (freelist s) (put_bytes (upg (kmem s) d v) bs (kmem s)) →
  upd_user s s' free d ∧
  ∀ a, 0 <= a < KERNBASE → present (kmem s) d a →
    ub (kmem s') d a = if (PGSIZE * v <=? a) && (a <? PGSIZE * v + Z.of_nat (length bs))
                       then bs !!! Z.to_nat (a - PGSIZE * v) else ub (kmem s) d a.
Proof.
  intros H Hv Hh Hl Hb s' ->. set (P := upg (kmem s) d v). set (m' := put_bytes P bs (kmem s)).
  assert (Hu : upage (kmem s) d v P) by done. destruct (vo_page _ _ _ _ H P) as [HP HPf]; [right; eauto|].
  assert (Ho : only_pages (λ q, q = P) (kmem s) m').
  { intros x Hx. unfold m', put_bytes. pose proof (Hx P eq_refl) as Hn. unfold in_page in Hn. zcases. }
  assert (U : upd_user s (KState (kmem_lock s) (use_lock s) (freelist s) m') free d).
  { apply upd_user_intro; [done| |intros x Hx; apply Ho; intros q ->; apply Hx; eauto].
    apply (kinv_only kend s _ free (λ q, q = P)); try done; [apply H| |by intros q ->].
    apply put_bytes_byte_mem; [apply H|done]. }
  split; [done|]. intros a Ha Hp. unfold ub. rewrite (upd_user_addr _ _ _ _ _ U Ha). cbn [kmem].
  unfold m', put_bytes. pose proof (page_off a) as [Ea Hoff].
  destruct (Z.eq_dec (a / PGSIZE) v) as [<-|Hne].
  - unfold uaddr. fold P. replace (P + a mod PGSIZE - P) with (a - PGSIZE * (a / PGSIZE)) by lia.
    zcases.
  - destruct (upage_at _ _ _ _ H Ha Hp) as (Ua & Oa & Ia).
    assert (Hout : ¬ in_page P (uaddr (kmem s) d a)).
    { apply (page_apart kend _ _ _ Oa HP); [|done]. intros E. rewrite E in Ua. apply Hne.
      by apply (vo_uinj _ _ _ _ H _ _ P). }
    unfold in_page in Hout. destruct ((P <=? uaddr (kmem s) d a) && _) eqn:E; zbool; [lia|].
    assert (a < PGSIZE * v ∨ PGSIZE * v + PGSIZE <= a) by (unfold PGSIZE in *; lia). zcases.
Qed.

(** ** loaduvm *)

Lemma file_readi_full bs off n :
  0 <= off < 2^32 → 0 < n → Z.of_nat (length bs) < 2^31 → n < 2^32 →
  ((file_readi bs off n).1 =? n) = (off + n <=? Z.of_nat (length bs)).
Proof.
  intros Ho Hn Hl Hn2. unfold file_readi. set (size := Z.of_nat (length bs)) in *.
  destruct (Z.ltb_spec size off); cbn [orb fst]; [zcases|].
  destruct (Z.ltb_spec (u32 (off + n)) off) as [Hw|Hw]; cbn [fst].
  - destruct (Z.lt_ge_cases (off + n) (2^32)) as [Hs|Hs]; [rewrite u32_small in Hw by lia; lia|]. zcases.
  - destruct (Z.ltb_spec size (off + n)); cbn [fst]; zcases.
Qed.

Lemma file_readi_bytes bs off n :
  0 <= off → 0 <= n → off + n <= Z.of_nat (length bs) → Z.of_nat (length bs) < 2^31 →
  file_readi bs off n = (n, take (Z.to_nat n) (drop (Z.to_nat off) bs)).
Proof.
  intros Ho Hn Hle Hl. unfold file_readi. rewrite u32_small by lia.
  destruct (Z.ltb_spec (Z.of_nat (length bs)) off); [lia|]. destruct (Z.ltb_spec (off + n) off); [lia|]. cbn [orb].
  destruct (Z.ltb_spec (Z.of_nat (length bs)) (off + n)); [lia|done].
Qed.

Lemma file_readi_short bs off n :
  0 <= n → Z.of_nat (length (file_readi bs off n).2) <= n ∧ (Forall (λ b, 0 <= b < 256) bs → Forall (λ b, 0 <= b < 256) (file_readi bs off n).2).
Proof.
  intros Hn. unfold file_readi. destruct (_ || _); cbn [snd]; [split; [cbn; lia|done]|].
  split; [|intros Hb; by apply Forall_take, Forall_drop].
  rewrite length_take, length_drop. destruct (Z.ltb_spec (Z.of_nat (length bs)) (off + n)); lia.
Qed.

(** Filling the pages from number [v0 + k] on. *)
Lemma loaduvm_loop_spec bs d v0 offset sz free fuel : ∀ k s,
  vm_ok kend s free d → Forall (λ b, 0 <= b < 256) bs → Z.of_nat (length bs) < 2^31 →
  0 <= v0 → 0 <= offset < 2^32 → 0 <= sz → PGSIZE * v0 + sz < KERNBASE → 0 <= k →
  (∀ v, v0 <= v → PGSIZE * v < PGSIZE * v0 + sz → has (pte (kmem s) d v) PTE_P = true) →
  (0 < k → PGSIZE * k < sz → offset + PGSIZE * k <= Z.of_nat (length bs)) → sz <= PGSIZE * (k + Z.of_nat fuel) →
  ∃ r s', loaduvm_loop fuel (read_mem bs) d (PGSIZE * v0) offset sz (PGSIZE * k) s = Ret r s' ∧ upd_user s s' free d ∧
    (if (PGSIZE * k <? sz) && (Z.of_nat (length bs) <? offset + sz) then r = -1
     else r = 0 ∧ ∀ a, 0 <= a < KERNBASE → present (kmem s) d a →
       ub (kmem s') d a = if (PGSIZE * (v0 + k) <=? a) && (a <? PGSIZE * v0 + sz)
                          then bs !!! Z.to_nat (offset + (a - PGSIZE * v0)) else ub (kmem s) d a).
Proof.
  induction fuel as [|fuel IH]; intros k s H Hb Hl Hv0 Ho Hsz Hmax Hk Hp Hprev Hf; cbn [loaduvm_loop].
  all: destruct (Z.ltb_spec (PGSIZE * k) sz) as [Hlt|Hge]; cbn [andb];
    [|exists 0, s; split; [done|]; split; [by apply upd_user_refl|]; split; [done|]; intros a _ _; zcases].
  { unfold PGSIZE in *. lia. }
  assert (Hv : 0 <= v0 + k < 2^19) by (unfold KERNBASE, PGSIZE in *; lia).
  pose proof (Hp (v0 + k) ltac:(lia) ltac:(unfold PGSIZE in *; lia)) as Hh.
  assert (Hd : has (pde (kmem s) d ((v0 + k) / 1024)) PTE_P = true).
  { revert Hh. unfold pte. by destruct (has (pde _ _ _) _). }
  rewrite u32_small by (unfold KERNBASE, PGSIZE in *; lia). replace (PGSIZE * v0 + PGSIZE * k) with (PGSIZE * (v0 + k)) by lia.
  unfold bind at 1. rewrite (walk_noalloc kend s free d (PGSIZE * (v0 + k)) (v0 + k)) by
    (try done; try lia; unfold PGSIZE; Z.div_mod_to_equations; lia). rewrite Hd.
  destruct (Z.eqb_spec (pte_addr (kmem s) d (v0 + k)) 0) as [E|_].
  { by destruct (pte_addr_pos kend s free d (v0 + k) H); [lia|done|]. }
  assert (Eload : load32 (kmem s) (pte_addr (kmem s) d (v0 + k)) = pte (kmem s) d (v0 + k)) by (unfold pte; by rewrite Hd).
  unfold bind at 1, word, gets. rewrite Eload. fold (upg (kmem s) d (v0 + k)).
  set (n := if sz - PGSIZE * k <? PGSIZE then sz - PGSIZE * k else PGSIZE).
  assert (Hn : 0 < n <= PGSIZE ∧ n <= sz - PGSIZE * k ∧ (n < sz - PGSIZE * k → n = PGSIZE)).
  { unfold n. destruct (Z.ltb_spec (sz - PGSIZE * k) PGSIZE); unfold PGSIZE in *; lia. }
  assert (Hoff : u32 (offset + PGSIZE * k) = offset + PGSIZE * k).
  { apply u32_small. destruct (Z.eq_dec k 0) as [->|]; [lia|]. specialize (Hprev ltac:(lia) Hlt). unfold PGSIZE in *. lia. }
  rewrite Hoff. unfold bind at 1, read_mem, bind, on_mem, modify, ret. set (rd := file_readi bs (offset + PGSIZE * k) n).
  destruct (file_readi_short bs (offset + PGSIZE * k) n) as [Hrl Hrb]; [lia|]. fold rd in Hrl, Hrb.
  destruct (user_put s free d (v0 + k) rd.2 H Hv Hh ltac:(lia) (Hrb Hb) _ eq_refl) as [U Hub].
  set (s1 := KState _ _ _ _) in *.
  assert (Hfull := file_readi_full bs (offset + PGSIZE * k) n). fold rd in Hfull.
  rewrite Hfull by (unfold PGSIZE, KERNBASE in *; lia).
  destruct (Z.leb_spec (offset + PGSIZE * k + n) (Z.of_nat (length bs))) as [Hle|Hgt]; cbn [negb].
  2:{ exists (-1), s1. split; [done|]. split; [done|]. destruct (Z.ltb_spec (Z.of_nat (length bs)) (offset + sz)); [done|lia]. }
  rewrite u32_small by (unfold KERNBASE, PGSIZE in *; lia). replace (PGSIZE * k + PGSIZE) with (PGSIZE * (k + 1)) by lia.
  assert (Erd : rd.2 = take (Z.to_nat n) (drop (Z.to_nat (offset + PGSIZE * k)) bs)).
  { unfold rd. by rewrite file_readi_bytes by (unfold PGSIZE in *; lia). }
  assert (Hlen : Z.of_nat (length rd.2) = n) by (rewrite Erd, length_take, length_drop; unfold PGSIZE in *; lia).
  destruct (IH (k + 1) s1) as (r & s2 & E2 & U2 & Hr); try done; try lia.
  { apply U. }
  { intros v Hv1 Hv2. rewrite (uu_pte _ _ _ _ U) by (unfold KERNBASE, PGSIZE in *; lia). by apply Hp. }
  exists r, s2. split; [exact E2|]. split; [by eapply upd_user_trans|].
  destruct (Z.ltb_spec (Z.of_nat (length bs)) (offset + sz)) as [Hs|Hs].
  - destruct (Z.ltb_spec (PGSIZE * (k + 1)) sz); cbn [andb] in Hr; [done|]. unfold PGSIZE in *. lia.
  - rewrite andb_false_r in Hr. destruct Hr as [-> Hr]. split; [done|]. intros a Ha Hpa.
    rewrite Hr by (done || by apply (upd_user_present _ _ _ _ _ U)). rewrite (Hub a Ha Hpa), Hlen, Erd.
    destruct (Z.leb_spec (PGSIZE * (v0 + k)) a), (Z.ltb_spec a (PGSIZE * v0 + sz)), (Z.leb_spec (PGSIZE * (v0 + (k + 1))) a),
      (Z.ltb_spec a (PGSIZE * (v0 + k) + n)); cbn [andb]; try done; try (unfold PGSIZE in *; lia).
    rewrite lookup_total_take_lt, lookup_total_drop by (unfold PGSIZE in *; lia). f_equal. unfold PGSIZE in *. lia.
Qed.

(** ** clearpteu *)

Definition no_user (e : Z) : Z := Z.land e (u32 (Z.lnot PTE_U)).

Lemma no_user_entry e :
  0 <= e < 2^32 →
  0 <= no_user e < 2^32 ∧ PTE_ADDR (no_user e) = PTE_ADDR e ∧ has (no_user e) PTE_P = has e PTE_P ∧ has (no_user e) PTE_U = false.
Proof.
  intros He. unfold no_user. change (u32 (Z.lnot PTE_U)) with 0xFFFFFFFB.
  assert (Hr : 0 <= Z.land e 0xFFFFFFFB < 2^32).
  { split; [apply Z.land_nonneg; lia|]. destruct (Z.eq_dec (Z.land e 0xFFFFFFFB) 0) as [->|Hne]; [lia|].
    apply Z.log2_lt_pow2; [pose proof (Z.land_nonneg e 0xFFFFFFFB); lia|].
    pose proof (Z.log2_land e 0xFFFFFFFB ltac:(lia) ltac:(lia)) as Hl. change (Z.log2 0xFFFFFFFB) with 31 in Hl. lia. }
  split; [done|]. split; [|split].
  - unfold PTE_ADDR. rewrite (u32_small e), (u32_small (Z.land e _)) by done. by rewrite <- Z.land_assoc.
  - unfold has. rewrite <- Z.land_assoc. done.
  - unfold has. rewrite <- Z.land_assoc. change (Z.land 0xFFFFFFFB PTE_U) with 0. by rewrite Z.land_0_r.
Qed.

(** Another entry for the same page. *)
Lemma reflag_ok s s' free d v e :
  vm_ok kend s free d → kinv kend s' free → pte_set (kmem s) (kmem s') d v e → 0 <= v < 2^20 →
  PTE_ADDR e = PTE_ADDR (pte (kmem s) d v) → has e PTE_P = has (pte (kmem s) d v) PTE_P →
  vm_ok kend s' free d ∧ ∀ p, owns (kmem s') d p ↔ owns (kmem s) d p.
Proof.
  intros H Hk Hset Hv Ea Eh. assert (Htp := λ q, pte_set_tpage _ _ _ _ _ q Hset).
  assert (Hup : ∀ v' q, upage (kmem s') d v' q ↔ upage (kmem s) d v' q).
  { intros v' q. destruct Hset as [_ Hp]. unfold upage, upg. split; intros (Hr & Hx).
    - rewrite Hp in Hx by lia. destruct (Z.eqb_spec v' v) as [->|]; [rewrite Ea, Eh in Hx|]; done.
    - split; [done|]. rewrite Hp by lia. destruct (Z.eqb_spec v' v) as [->|]; [rewrite Ea, Eh|]; done. }
  assert (Hown : ∀ p, owns (kmem s') d p ↔ owns (kmem s) d p).
  { intros p. unfold owns. rewrite (Htp p). by setoid_rewrite Hup. }
  split; [|done]. destruct Hset as [Hd _]. assert (Htab : ∀ i, 0 <= i < 1024 → tabof (kmem s') d i = tabof (kmem s) d i).
  { intros i ?. unfold tabof. by rewrite Hd. }
  split; [done|..].
  - intros p Hp%Hown. by apply (vo_page _ _ _ _ H).
  - intros i ?. rewrite Hd, Htab by done. by apply (vo_tdir _ _ _ _ H).
  - intros i i' ??. rewrite !Hd, !Htab by done. by apply (vo_tinj _ _ _ _ H).
  - intros v1 v2 p. rewrite !Hup. apply (vo_uinj _ _ _ _ H).
  - intros v1 p. rewrite Hup, (Htp p). apply (vo_disj _ _ _ _ H).
Qed.

Lemma clearpteu_spec s free d v :
  vm_ok kend s free d → 0 <= v < 2^19 → has (pte (kmem s) d v) PTE_P = true →
  ∃ s', clearpteu d (PGSIZE * v) s = Ret tt s' ∧ vm_ok kend s' free d ∧ (∀ p, owns (kmem s') d p ↔ owns (kmem s) d p) ∧
    (∀ v', 0 <= v' < 2^20 → pte (kmem s') d v' = if v' =? v then no_user (pte (kmem s) d v) else pte (kmem s) d v') ∧
    only_pages (owns (kmem s) d) (kmem s) (kmem s') ∧
    ∀ a, 0 <= a < KERNBASE → present (kmem s) d a → ub (kmem s') d a = ub (kmem s) d a.
Proof.
  intros H Hv Hh. assert (Hd : has (pde (kmem s) d (v / 1024)) PTE_P = true).
  { revert Hh. unfold pte. by destruct (has (pde _ _ _) _). }
  unfold clearpteu, bind at 1. rewrite (walk_noalloc kend s free d (PGSIZE * v) v) by
    (try done; try lia; unfold PGSIZE; Z.div_mod_to_equations; lia). rewrite Hd.
  destruct (Z.eqb_spec (pte_addr (kmem s) d v) 0) as [E|_].
  { by destruct (pte_addr_pos kend s free d v H); [lia|done|]. }
  assert (Eload : load32 (kmem s) (pte_addr (kmem s) d v) = pte (kmem s) d v) by (unfold pte; by rewrite Hd).
  unfold bind, word, gets, set_word, on_mem, modify. rewrite Eload. fold (no_user (pte (kmem s) d v)).
  assert (Hr : 0 <= pte (kmem s) d v < 2^32) by (rewrite <- Eload; apply load32_range, H).
  destruct (no_user_entry _ Hr) as (Hn & Ea & Eh & _).
  destruct (set_pte_spec kend s free d v (no_user (pte (kmem s) d v)) H ltac:(lia) Hd Hn _ eq_refl) as (Hpd & Hpt & Hsame).
  destruct (vdiv v ltac:(lia)) as [Hvd Hvt]. destruct (tab_page kend s free d (v / 1024) H Hvd Hd) as [Htp Htf].
  set (s' := KState _ _ _ _).
  assert (Hk : kinv kend s' free).
  { apply (set_word_kinv kend s free _ _ (tabof (kmem s) d (v / 1024)) (vo_k _ _ _ _ H)); try done. intros; by apply slot_in_page. }
  destruct (reflag_ok s s' free d v (no_user (pte (kmem s) d v)) H Hk) as [Hok Hown]; try done; [lia|].
  assert (Ho : only_pages (λ p, p = tabof (kmem s) d (v / 1024)) (kmem s) (kmem s')).
  { apply only_store. intros; by apply slot_in_page. }
  assert (Htab : tpage (kmem s) d (tabof (kmem s) d (v / 1024))) by (right; eauto).
  exists s'. split; [done|]. split; [done|]. split; [done|]. split; [exact Hpt|]. split.
  { intros x Hx. apply Ho. intros p ->. apply Hx. by left. }
  intros a Ha Hp. destruct (upage_at _ _ _ _ H Ha Hp) as (Ua & Oa & Ia). unfold ub.
  assert (Eu : uaddr (kmem s') d a = uaddr (kmem s) d a).
  { pose proof (page_no a Ha). unfold uaddr, upg. cbn [kmem s']. rewrite Hpt by lia.
    destruct (Z.eqb_spec (a / PGSIZE) v) as [->|]; [by rewrite Ea|done]. }
  rewrite Eu. apply (Hsame _ Oa); [|done]. intros E. rewrite <- E in Htab. by apply (vo_disj _ _ _ _ H _ _ Ua).
Qed.

(** ** copyout *)

Lemma copyout_user s free d va p len :
  vm_ok kend s free d → 0 <= va → 0 <= len → va + len <= KERNBASE →
  (∀ v, va / PGSIZE <= v → PGSIZE * v < va + len → user_page (pte (kmem s) d v) = true) →
  (∀ i q, 0 <= i < len → owns (kmem s) d q → ¬ in_page q (p + i)) →
  ∃ s', copyout d va p len s = Ret 0 s' ∧ upd_user s s' free d ∧
    ∀ a, 0 <= a < KERNBASE → present (kmem s) d a →
      ub (kmem s') d a = if (va <=? a) && (a <? va + len) then kmem s (p + (a - va)) else ub (kmem s) d a.
Proof.
  intros H Hva Hlen Hmax Hpg Hsrc.
  destruct (copyout_loop_spec kend d free (Z.to_nat (2 + len / PGSIZE)) s va p len) as (s' & E & Hok & _ & Hin & Hout); try done.
  { unfold PGSIZE. Z.div_mod_to_equations. lia. }
  assert (Hpr : ∀ i, 0 <= i < len → present (kmem s) d (va + i)).
  { intros i Hi. apply user_page_present, Hpg; unfold PGSIZE; Z.div_mod_to_equations; lia. }
  assert (U : upd_user s s' free d).
  { apply upd_user_intro; [done|apply Hok|]. intros x Hx. apply Hout. intros i Hi ->.
    destruct (upage_at s free d (va + i) H ltac:(lia) (Hpr i Hi)) as (Hu & _ & Hin'). eapply Hx; [by eexists|exact Hin']. }
  exists s'. split; [done|]. split; [done|]. intros a Ha Hp. unfold ub at 1. rewrite (upd_user_addr _ _ _ _ _ U Ha).
  destruct (Z.leb_spec va a), (Z.ltb_spec a (va + len)); cbn [andb];
    [replace a with (va + (a - va)) at 1 by lia; apply Hin; lia|..];
    (apply Hout; intros i Hi Ei; apply (uaddr_inj s free d) in Ei; [lia|done|done|lia|done|by apply Hpr]).
Qed.

(** A page that is not the user's stops the loop. *)
Lemma copyout_loop_guard s free d fuel va p len :
  vm_ok kend s free d → 0 <= va < 2^32 → 0 < len → present (kmem s) d va →
  has (pte (kmem s) d (va / PGSIZE)) PTE_U = false → copyout_loop (S fuel) d va p len s = Ret (-1) s.
Proof.
  intros H Hva Hlen Hp Hu. assert (Hv : 0 <= va / PGSIZE < 2^20) by (unfold PGSIZE; Z.div_mod_to_equations; lia).
  unfold present in Hp. set (v := va / PGSIZE) in *.
  assert (Hd : has (pde (kmem s) d (v / 1024)) PTE_P = true).
  { revert Hp. unfold pte. by destruct (has (pde _ _ _) _). }
  assert (Eload : load32 (kmem s) (pte_addr (kmem s) d v) = pte (kmem s) d v) by (unfold pte; by rewrite Hd).
  cbn [copyout_loop]. destruct (Z.ltb_spec 0 len); [|lia].
  rewrite PGROUNDDOWN_eq by lia. fold v. rewrite (Z.mul_comm v).
  unfold bind, uva2ka, bind. rewrite (walk_noalloc kend s free d (PGSIZE * v) v) by
    (try done; try lia; unfold PGSIZE; Z.div_mod_to_equations; lia). rewrite Hd.
  destruct (Z.eqb_spec (pte_addr (kmem s) d v) 0) as [E|_].
  { by destruct (pte_addr_pos kend s free d v H); [lia|done|]. }
  unfold word, gets. rewrite Eload, Hp, Hu. done.
Qed.

Lemma copyout_fuel len : 0 <= len → ∃ n, Z.to_nat (2 + len / PGSIZE) = S n.
Proof.
  intros Hlen. exists (Z.to_nat (1 + len / PGSIZE)). assert (0 <= len / PGSIZE) by (apply Z.div_pos; [lia|done]). lia.
Qed.

Lemma copyout_guard s free d va p len :
  vm_ok kend s free d → 0 <= va < 2^32 → 0 < len → present (kmem s) d va →
  has (pte (kmem s) d (va / PGSIZE)) PTE_U = false → copyout d va p len s = Ret (-1) s.
Proof.
  intros H Hva Hlen Hp Hu. unfold copyout. destruct (copyout_fuel len) as [n ->]; [lia|]. by apply (copyout_loop_guard s free).
Qed.

(** A copy that runs from user pages into a page [G] that is not the user's. *)
Lemma copyout_loop_stops d free G fuel : ∀ s va buf len,
  vm_ok kend s free d → 0 <= va < PGSIZE * G → 0 <= G < 2^19 → PGSIZE * G < va + len →
  (∀ v, va / PGSIZE <= v < G → user_page (pte (kmem s) d v) = true) →
  has (pte (kmem s) d G) PTE_P = true → has (pte (kmem s) d G) PTE_U = false →
  va mod PGSIZE + len <= PGSIZE * Z.of_nat fuel →
  ∃ s', copyout_loop fuel d va buf len s = Ret (-1) s' ∧ upd_user s s' free d.
Proof.
  induction fuel as [|fuel IH]; intros s va buf len H Hva HG Hlen Hpg HGp HGu Hf; pose proof (page_off va) as [Edm Ho]; [lia|].
  cbn [copyout_loop]. destruct (Z.ltb_spec 0 len) as [_|?]; [|lia].
  rewrite PGROUNDDOWN_eq by (unfold PGSIZE in *; lia). set (v := va / PGSIZE) in *. set (o := va mod PGSIZE) in *.
  assert (Hv : 0 <= v < G) by (unfold PGSIZE in *; lia). pose proof (Hpg v ltac:(lia)) as Hu.
  destruct (uva2ka_run kend s free d v H ltac:(lia) Hu) as [Er Hne0].
  unfold bind at 1. rewrite (Z.mul_comm v), Er. destruct (Z.eqb_spec (upg (kmem s) d v) 0) as [?|_]; [done|].
  replace (va - PGSIZE * v) with o by lia.
  destruct (Z.ltb_spec len (PGSIZE - o)) as [?|Hn]; [unfold PGSIZE in *; lia|]. set (n := PGSIZE - o) in *.
  unfold bind at 1, on_mem, modify. set (P := upg (kmem s) d v). set (m1 := memmove (kmem s) (P + o) buf n).
  assert (Hm1 : ∀ x, m1 x = if (P + o <=? x) && (x <? P + o + n) then kmem s (buf + (x - (P + o))) else kmem s x).
  { intros x. apply memmove_lookup. lia. }
  apply andb_true_iff in Hu as Hpp. destruct Hpp as [Hpres _].
  assert (Ho1 : only_pages (λ q, q = P) (kmem s) m1).
  { intros x Hx. rewrite Hm1. pose proof (Hx P eq_refl) as Hnp. unfold in_page in Hnp. zcases. }
  destruct (user_write kend s free d v m1 H ltac:(lia) Hpres Ho1) as (H1 & Hpte1 & _).
  { intros x. rewrite Hm1. destruct (_ && _); apply H. }
  set (s1 := KState (kmem_lock s) (use_lock s) (freelist s) m1) in *.
  assert (U1 : upd_user s s1 free d).
  { apply upd_user_intro; [done|apply H1|]. intros x Hx. apply Ho1. intros q ->. apply Hx. exists v. unfold upage, P. split; [lia|done]. }
  rewrite u32_small by (unfold PGSIZE in *; lia). replace (PGSIZE * v + PGSIZE) with (PGSIZE * (v + 1)) by lia.
  destruct (page_split (v + 1) 0) as [E1 E2]; [unfold PGSIZE; lia|]. rewrite Z.add_0_r in E1, E2.
  destruct (Z.eq_dec (v + 1) G) as [EG|HnG].
  - destruct fuel as [|fuel]; [unfold PGSIZE in *; lia|]. exists s1. split; [|done].
    apply (copyout_loop_guard s1 free); [done|unfold PGSIZE in *; lia|unfold PGSIZE in *; lia| |]; unfold present;
      rewrite E1, EG; cbn [kmem s1]; by rewrite Hpte1 by lia.
  - destruct (IH s1 (PGSIZE * (v + 1)) (buf + n) (len - n) H1) as (s2 & E & U2); try done; try (unfold PGSIZE in *; lia).
    + rewrite E1. intros w Hw. cbn [kmem s1]. rewrite Hpte1 by lia. apply Hpg. lia.
    + cbn [kmem s1]. by rewrite Hpte1 by lia.
    + cbn [kmem s1]. by rewrite Hpte1 by lia.
    + exists s2. split; [done|]. by eapply upd_user_trans.
Qed.

Lemma copyout_stops d free G s va p len :
  vm_ok kend s free d → 0 <= va < PGSIZE * G → 0 <= G < 2^19 → PGSIZE * G < va + len →
  (∀ v, va / PGSIZE <= v < G → user_page (pte (kmem s) d v) = true) →
  has (pte (kmem s) d G) PTE_P = true → has (pte (kmem s) d G) PTE_U = false →
  ∃ s', copyout d va p len s = Ret (-1) s' ∧ upd_user s s' free d.
Proof.
  intros. apply (copyout_loop_stops d free G); try done. unfold PGSIZE in *. Z.div_mod_to_equations. lia.
Qed.

(** ** The devices *)

(** The last 32 megabytes of an address space are the devices, which the user
    may not use. *)
Definition devices_mapped (m : mem) (d : Z) : Prop :=
  ∀ v, 0xFE000 <= v < 2^20 → has (pte m d v) PTE_P = true ∧ has (pte m d v) PTE_U = false.

Lemma mapped_devices data m d : mapped m d (kmap data) (kregions data) → devices_mapped m d.
Proof.
  unfold mapped, kmap, kregions. intros H v Hv. do 3 apply Forall2_cons in H as [_ H]. apply Forall2_cons in H as [H _].
  cbn [phys_start kperm] in H. rewrite H by lia. split; [apply page_entry_has|].
  unfold has, page_entry. destruct (Z.eqb_spec (Z.land (Z.lor (Z.lor (DEVSPACE + PGSIZE * (v - 0xFE000)) PTE_W) PTE_P) PTE_U) 0) as [|Hn]; [done|].
  destruct Hn. replace (DEVSPACE + PGSIZE * (v - 0xFE000)) with (v * 2^12) by (unfold DEVSPACE, PGSIZE; lia).
  apply Z.bits_inj_0. intros i. rewrite Z.land_spec, !Z.lor_spec. destruct (Z.eq_dec i 2) as [->|Hi].
  - by rewrite Z.mul_pow2_bits_low by lia.
  - change PTE_U with (2^2). rewrite (Z.pow2_bits_false 2 i) by lia. apply andb_false_r.
Qed.

Lemma devices_keep m m' d : devices_mapped m d → (∀ v, 2^19 <= v < 2^20 → pte m' d v = pte m d v) → devices_mapped m' d.
Proof. intros H Hp v Hv. rewrite Hp by lia. by apply H. Qed.
End ExecMem.
