(* ===== verification/ExecLoad.v ===== *)
(** * Loading the segments

    The first half of [exec]: the new address space is made of free pages only,
    and after the loop over the program headers it holds the image of the file. *)

From S2P Require Import Prelude Memory KString Spinlock Kalloc Layout FsLayout Proc Vm VmTables VmSpec VmFree VmProps Cpu Exec ExecMem.

(** ** Segments *)

Lemma image_app segs sg a :
  image (segs ++ [sg]) a = if (s_at sg <=? a) && (a <? s_at sg + Z.of_nat (length (s_bytes sg)))
                           then s_bytes sg !!! Z.to_nat (a - s_at sg) else image segs a.
Proof. unfold image. by rewrite fold_left_app. Qed.

Lemma load_plan_range bs n : ∀ off sz szf segs,
  load_plan n bs off sz = Some (szf, segs) → sz <= szf ∧ (sz < KERNBASE → szf < KERNBASE).
Proof.
  induction n as [|n IH]; intros off sz szf segs; cbn [load_plan]; [by intros [= <- <-]|].
  destruct (negb _); [done|]. destruct (negb _); [apply IH|].
  destruct (Z.leb_spec KERNBASE (p_vaddr (get_proghdr (file_readi bs off sizeof_proghdr).2) + p_memsz (get_proghdr (file_readi bs off sizeof_proghdr).2)));
    [by rewrite orb_true_r|]. destruct (_ || _); [done|].
  destruct (load_plan n bs _ _) as [[szf' segs']|] eqn:E; [|done]. intros [= <- <-]. cbn. apply IH in E. lia.
Qed.

(** ** Steps on memory *)

Definition with_vk (k : kstate) (v : vmst) : vmst :=
  VM k (kpgdir v) (cpus v) (lapicid v) (cr3 v) (gdtr v) (tr v) (vcpu v).
Definition with_k {F} (k : kstate) (s : exst F) : exst F := EX (with_vk k (xv s)) (xf s) (xp s) (xout s).
Definition km {F} (s : exst F) : kstate := vk (xv s).

Lemma on_k_ret {F A} (m : M kstate A) a k (s : exst F) : m (km s) = Ret a k → on_k m s = Ret a (with_k k s).
Proof. intros E. unfold on_k, on_v, on_vk. fold (km s). by rewrite E. Qed.

Lemma with_k_twice {F} k k' (s : exst F) : with_k k' (with_k k s) = with_k k' s.
Proof. done. Qed.

Lemma with_k_id {F} (s : exst F) : with_k (km s) s = s.
Proof. by destruct s as [[] ? ? ?]. Qed.

Section Load.
Context {F I : Type} `{!ExecFs F I}.
Context (kend : Z) (Hkend : KERNLINK < kend).
(** The page of the kernel stack that holds [ustack]. *)
Context (K : Z) (HK : page_ok kend K).

(** ** The address space under construction *)

(** It is made of pages that were free, and nothing but these and the kernel
    stack has changed. *)
Record building (k0 k : kstate) (free0 free : list Z) (d : Z) : Prop := {
  bd_ok : vm_ok kend k free d;
  bd_owns : ∀ p, p ∈ free ∨ owns (kmem k) d p ↔ p ∈ free0;
  bd_only : only_pages (λ p, p ∈ free0 ∨ p = K) (kmem k0) (kmem k) }.

Lemma building_only k0 k k' free0 free free' d (P : Z → Prop) :
  building k0 k free0 free d → vm_ok kend k' free' d →
  (∀ p, p ∈ free' ∨ owns (kmem k') d p ↔ p ∈ free ∨ owns (kmem k) d p) →
  only_pages P (kmem k) (kmem k') → (∀ p, P p → p ∈ free ∨ owns (kmem k) d p ∨ p = K) →
  building k0 k' free0 free' d.
Proof.
  intros [Hok Hw Ho] Hok' Hw' Ho' HP. split; [done| |].
  - intros p. by rewrite Hw'.
  - apply (only_trans _ _ _ _ _ _ Ho Ho'). intros p [?|[Hp|[Hp| ->]]%HP]; [done| | |by right]; left; apply Hw; auto.
Qed.

Lemma building_user k0 k k' free0 free d :
  building k0 k free0 free d → upd_user kend k k' free d → building k0 k' free0 free d.
Proof.
  intros B [O P W N]. eapply building_only; [done|done| |exact N|auto]. intros p. by rewrite W.
Qed.

(** User addresses of the running process are read as before. *)
Lemma building_low k0 k free0 free d x :
  building k0 k free0 free d → kinv kend k0 free0 → x < KERNBASE → kmem k x = kmem k0 x.
Proof.
  intros B Hk Hx. apply (bd_only _ _ _ _ _ B). intros p Hp Hin.
  assert (Hpo : page_ok kend p).
  { destruct Hp as [Hp| ->]; [|done]. pose proof (kinv_pages _ _ _ Hk) as Hpp. rewrite Forall_forall in Hpp. auto. }
  apply page_ok_kern in Hpo as (_ & ? & _). unfold in_page in Hin. lia.
Qed.

Lemma building_src k0 k free0 free d x :
  building k0 k free0 free d → x < KERNBASE → ∀ q, owns (kmem k) d q → ¬ in_page q x.
Proof.
  intros B Hx q Hq Hin. destruct (vo_page _ _ _ _ (bd_ok _ _ _ _ _ B) q Hq) as [Hpo _].
  apply page_ok_kern in Hpo as (_ & ? & _). unfold in_page in Hin. lia.
Qed.

(** Memory is short: apart from the tables and one page in hand, all that was
    free fits into [n] pages. *)
Definition short (free0 : list Z) (lim : Z) : Prop := ∃ n, PGSIZE * n < lim ∧ Z.of_nat (length free0) <= 1026 + n.

Lemma short_mono free0 lim lim' : short free0 lim → lim <= lim' → short free0 lim'.
Proof. intros (n & Hn & Hl) ?. exists n. split; [lia|done]. Qed.

Lemma building_short k0 k free0 free d lim :
  building k0 k free0 free d → NoDup free0 → (∃ n, PGSIZE * n < lim ∧ few_pages k free d n) → short free0 lim.
Proof.
  intros B Hnd (n & Hn & Hf). exists n. split; [done|]. apply Hf; [done|]. intros p Hp. by apply (bd_owns _ _ _ _ _ B).
Qed.

(** ** The pages of the image *)

(** [sz] bytes of address space: their pages are the user's, and there are no
    others. *)
Definition sized (m : mem) (d sz : Z) : Prop :=
  ∀ v, 0 <= v < 2^19 → if PGSIZE * v <? sz then user_page (pte m d v) = true else has (pte m d v) PTE_P = false.

Definition filled (m : mem) (d sz : Z) (segs : list segment) : Prop :=
  (∀ a, 0 <= a < KERNBASE → PGSIZE * (a / PGSIZE) < sz → ub m d a = image segs a) ∧
  (∀ a, sz <= a → image segs a = 0).

Lemma sized_present m d sz a : sized m d sz → 0 <= a < KERNBASE → PGSIZE * (a / PGSIZE) < sz → present m d a.
Proof.
  intros Hs Ha Hlt. specialize (Hs (a / PGSIZE) (page_no a Ha)). destruct (Z.ltb_spec (PGSIZE * (a / PGSIZE)) sz); [|lia].
  by apply user_page_present.
Qed.

Lemma sized_upd k k' free d sz : sized (kmem k) d sz → upd_user kend k k' free d → sized (kmem k') d sz.
Proof. intros Hs U v Hv. rewrite (uu_pte _ _ _ _ _ U) by lia. by apply Hs. Qed.

(** Growing from [sz] to [newsz]. *)
Lemma grow_sized k0 k free0 free d sz newsz :
  building k0 k free0 free d → NoDup free0 → sized (kmem k) d sz → 0 <= sz <= newsz → newsz < KERNBASE →
  ∃ r k' free', allocuvm kend d sz newsz k = Ret r k' ∧ building k0 k' free0 free' d ∧
    (∀ v, 2^19 <= v < 2^20 → pte (kmem k') d v = pte (kmem k) d v) ∧
    (r = newsz ∧ sized (kmem k') d newsz ∧
       (∀ a, 0 <= a < KERNBASE → PGSIZE * (a / PGSIZE) < newsz →
          ub (kmem k') d a = if PGSIZE * (a / PGSIZE) <? sz then ub (kmem k) d a else 0) ∨
     r = 0 ∧ short free0 newsz).
Proof.
  intros B Hnd Hs Hsz Hk. pose proof (bd_ok _ _ _ _ _ B) as Hok.
  assert (Hup : ∀ v, PGROUNDUP sz <= PGSIZE * v ↔ sz <= PGSIZE * v) by (intros v; apply pgup_le; lia).
  assert (Habs : ∀ v, 0 <= v < 2^19 → sz <= PGSIZE * v → has (pte (kmem k) d v) PTE_P = false).
  { intros v Hv Hge. specialize (Hs v Hv). by destruct (Z.ltb_spec (PGSIZE * v) sz); [lia|]. }
  destruct (allocuvm_run kend k free d sz newsz Hkend Hok Hsz Hk) as (r & k' & free' & E & Hok' & Hw & Hp & Hu & Ho & Hr).
  { intros v [Hv1%Hup Hv2]. apply Habs; [|done]. unfold KERNBASE, PGSIZE in *. lia. }
  exists r, k', free'. split; [done|]. split.
  { eapply building_only; [done|done|done|exact Ho|]. intros p [?|?]; [by left|right; left; by left]. }
  assert (Hkeep : ∀ v, 0 <= v < 2^20 → ¬ sz <= PGSIZE * v < newsz → pte (kmem k') d v = pte (kmem k) d v).
  { intros v Hv Hn. apply Hp; [done|]. by rewrite Hup. }
  split; [intros v Hv; apply Hkeep; unfold KERNBASE, PGSIZE in *; lia|].
  destruct Hr as [(-> & Hnew)|(-> & _ & Hfew)]; [left|right].
  - split; [done|]. split.
    + intros v Hv. destruct (Z.ltb_spec (PGSIZE * v) newsz) as [Hlt|Hge].
      * destruct (Z.lt_ge_cases (PGSIZE * v) sz) as [Hlo|Hhi].
        -- rewrite Hkeep by lia. specialize (Hs v Hv). by destruct (Z.ltb_spec (PGSIZE * v) sz); [|lia].
        -- destruct (Hnew v) as (_ & -> & _); [by rewrite Hup|]. apply page_entry_user.
      * rewrite Hkeep by lia. apply Habs; [done|lia].
    + intros a Ha Hlt. pose proof (page_no a Ha) as Hv. unfold ub. destruct (Z.ltb_spec (PGSIZE * (a / PGSIZE)) sz) as [Hlo|Hhi].
      * assert (Eu : uaddr (kmem k') d a = uaddr (kmem k) d a) by (unfold uaddr, upg; by rewrite Hkeep by lia).
        destruct (upage_at kend k free d a Hok Ha) as (Ua & _ & Ia); [by apply (sized_present _ _ sz)|].
        rewrite Eu. by apply (Hu _ _ _ Ua).
      * destruct (Hnew (a / PGSIZE)) as (_ & _ & Hz); [by rewrite Hup|]. apply Hz. unfold uaddr, in_page.
        pose proof (page_off a). lia.
  - split; [done|]. apply (building_short k0 k free0 free d); [done|done|]. apply Hfew.
    intros v Hv1%Hup Hv2. destruct (Z.lt_ge_cases v 0); [unfold PGSIZE in *; lia|]. by apply Habs.
Qed.

(** Reading a segment into it. *)
Lemma fill_segment k free d sz segs bs vaddr off filesz :
  vm_ok kend k free d → sized (kmem k) d sz → filled (kmem k) d sz segs → sz <= KERNBASE →
  Forall (λ b, 0 <= b < 256) bs → Z.of_nat (length bs) < 2^31 →
  0 <= vaddr → vaddr mod PGSIZE = 0 → 0 <= filesz → vaddr + filesz <= sz → vaddr + filesz < KERNBASE → 0 <= off < 2^32 →
  ∃ r k', loaduvm (read_mem bs) d vaddr off filesz k = Ret r k' ∧ upd_user kend k k' free d ∧
    (if (0 <? filesz) && (Z.of_nat (length bs) <? off + filesz) then r = -1
     else r = 0 ∧ filled (kmem k') d sz (segs ++ [Seg vaddr (take (Z.to_nat filesz) (drop (Z.to_nat off) bs))])).
Proof.
  intros H Hs [Hf Hz] Hszk Hb Hl Hva Hal Hfs Hle Hlt Ho. unfold loaduvm. rewrite Hal, Z.eqb_refl. cbn [negb].
  set (v0 := vaddr / PGSIZE). assert (Ev : vaddr = PGSIZE * v0) by (unfold v0; pose proof (page_off vaddr); lia).
  assert (Hv0 : 0 <= v0) by (unfold v0; apply Z.div_pos; [lia|done]). rewrite Ev in *. clear Hal.
  assert (0 <= filesz / PGSIZE) by (apply Z.div_pos; [lia|done]).
  destruct (loaduvm_loop_spec kend bs d v0 off filesz free (Z.to_nat (1 + filesz / PGSIZE)) 0 k) as (r & k' & E & U & Hr); try done; try lia.
  { intros v Hv1 Hv2. assert (Hv : 0 <= v < 2^19) by (unfold KERNBASE, PGSIZE in *; lia).
    specialize (Hs v Hv). destruct (Z.ltb_spec (PGSIZE * v) sz); [|lia]. by apply user_page_present. }
  { unfold PGSIZE. Z.div_mod_to_equations. lia. }
  rewrite Z.mul_0_r in *. exists r, k'. split; [done|]. split; [done|].
  destruct ((0 <? filesz) && _) eqn:Ec; [done|]. destruct Hr as [-> Hr]. split; [done|].
  assert (Hlen : Z.of_nat (length (take (Z.to_nat filesz) (drop (Z.to_nat off) bs))) = filesz).
  { rewrite length_take, length_drop. destruct (Z.ltb_spec 0 filesz); cbn [andb] in Ec; [apply Z.ltb_ge in Ec|]; lia. }
  split.
  - intros a Ha Hlta. rewrite image_app. cbn [s_at s_bytes]. rewrite Hlen.
    rewrite Hr by (try done; by apply (sized_present _ _ sz)). rewrite Z.add_0_r, Hf by done.
    destruct (Z.leb_spec (PGSIZE * v0) a), (Z.ltb_spec a (PGSIZE * v0 + filesz)); cbn [andb]; try done.
    rewrite lookup_total_take_lt, lookup_total_drop by lia. f_equal. lia.
  - intros a Ha. rewrite image_app. cbn [s_at s_bytes]. rewrite Hlen, Hz by done. zcases.
Qed.

(** ** The loop *)

(** All that is known of the address space while segments are loaded. *)
Record loaded (k0 k : kstate) (free0 free : list Z) (d sz : Z) (segs : list segment) : Prop := {
  ld_build : building k0 k free0 free d;
  ld_sized : sized (kmem k) d sz;
  ld_filled : filled (kmem k) d sz segs;
  ld_devices : devices_mapped (kmem k) d;
  ld_range : 0 <= sz < KERNBASE }.

(** One segment, from [allocuvm] on. *)
Lemma load_segment k0 k free0 free d sz segs bs vaddr memsz off filesz :
  loaded k0 k free0 free d sz segs → NoDup free0 → Forall (λ b, 0 <= b < 256) bs → Z.of_nat (length bs) < 2^31 →
  0 <= vaddr → 0 <= filesz <= memsz → vaddr + memsz < KERNBASE → 0 <= off < 2^32 →
  ∃ r k1 free1, allocuvm kend d sz (vaddr + memsz) k = Ret r k1 ∧ building k0 k1 free0 free1 d ∧
    (r = 0 ∧ (Z.max sz (vaddr + memsz) = 0 ∨ short free0 (Z.max sz (vaddr + memsz))) ∨
     r = Z.max sz (vaddr + memsz) ∧
     (vaddr mod PGSIZE = 0 →
      ∃ r' k2, loaduvm (read_mem bs) d vaddr off filesz k1 = Ret r' k2 ∧ building k0 k2 free0 free1 d ∧
       (if (0 <? filesz) && (Z.of_nat (length bs) <? off + filesz) then r' = -1
        else r' = 0 ∧ loaded k0 k2 free0 free1 d r (segs ++ [Seg vaddr (take (Z.to_nat filesz) (drop (Z.to_nat off) bs))])))).
Proof.
  intros [B Hs Hf Hdev Hsz] Hnd Hb Hl Hva Hfs Hk Ho.
  assert (Hgrown : ∃ r k1 free1, allocuvm kend d sz (vaddr + memsz) k = Ret r k1 ∧ building k0 k1 free0 free1 d ∧
    (r = 0 ∧ short free0 (Z.max sz (vaddr + memsz)) ∨
     r = Z.max sz (vaddr + memsz) ∧ sized (kmem k1) d r ∧ filled (kmem k1) d r segs ∧ devices_mapped (kmem k1) d)).
  { destruct (Z.lt_ge_cases (vaddr + memsz) sz) as [Hlt|Hge].
    - exists sz, k, free. unfold allocuvm. destruct (Z.leb_spec KERNBASE (vaddr + memsz)); [lia|].
      destruct (Z.ltb_spec (vaddr + memsz) sz); [|lia]. split; [done|]. split; [done|]. right. split; [lia|done].
    - destruct (grow_sized k0 k free0 free d sz (vaddr + memsz) B Hnd Hs) as (r & k1 & free1 & E & B1 & Hp & Hr); [lia|done|].
      exists r, k1, free1. split; [done|]. split; [done|].
      rewrite Z.max_r by lia. destruct Hr as [(-> & Hs1 & Hu)|?]; [right|by left]. split; [done|]. split; [done|].
      split; [|by eapply devices_keep]. destruct Hf as [Hf Hz]. split; [|intros a Ha; apply Hz; lia]. intros a Ha Hlt. rewrite Hu by done.
      destruct (Z.ltb_spec (PGSIZE * (a / PGSIZE)) sz); [by apply Hf|]. symmetry. apply Hz. pose proof (page_off a). lia. }
  destruct Hgrown as (r & k1 & free1 & E & B1 & Hr). exists r, k1, free1. split; [done|]. split; [done|].
  destruct Hr as [(-> & Hsh)|(-> & Hs1 & Hf1 & Hd1)]; [left; auto|right]. split; [done|]. intros Hal.
  destruct (fill_segment k1 free1 d (Z.max sz (vaddr + memsz)) segs bs vaddr off filesz) as (r' & k2 & E2 & U & Hr2);
    try done; try lia; [apply B1|].
  exists r', k2. split; [done|]. split; [by eapply building_user|].
  destruct ((0 <? filesz) && _); [done|]. destruct Hr2 as [-> Hf2]. split; [done|].
  split; [by eapply building_user|by eapply sized_upd|done| |lia].
  eapply devices_keep; [done|]. intros v Hv. apply (uu_pte _ _ _ _ _ U). lia.
Qed.

Lemma gb_byte bs o : Forall (λ b, 0 <= b < 256) bs → 0 <= gb bs o < 256.
Proof.
  intros Hb. unfold gb. destruct (o <? 0); [lia|]. destruct (bs !! Z.to_nat o) as [b|] eqn:E.
  - rewrite (list_lookup_total_correct _ _ _ E). rewrite Forall_forall in Hb. by apply Hb, (list_elem_of_lookup_2 _ _ _ E).
  - rewrite list_lookup_total_alt, E. cbn. lia.
Qed.

Lemma get32_range bs o : Forall (λ b, 0 <= b < 256) bs → 0 <= get32 bs o < 2^32.
Proof.
  intros Hb. unfold get32. pose proof (gb_byte bs o Hb). pose proof (gb_byte bs (o + 1) Hb).
  pose proof (gb_byte bs (o + 2) Hb). pose proof (gb_byte bs (o + 3) Hb). lia.
Qed.

Lemma get_proghdr_range bs : Forall (λ b, 0 <= b < 256) bs →
  let ph := get_proghdr bs in
  0 <= p_off ph < 2^32 ∧ 0 <= p_vaddr ph < 2^32 ∧ 0 <= p_filesz ph < 2^32 ∧ 0 <= p_memsz ph < 2^32.
Proof. intros Hb. cbn. split_and!; apply get32_range; done. Qed.

Lemma load_loop_spec ip d k0 free0 n : ∀ off sz (s : exst F) free segs,
  let bs := x_contents (xf s) ip in
  Forall (λ b, 0 <= b < 256) bs → Z.of_nat (length bs) < 2^31 → NoDup free0 →
  loaded k0 (km s) free0 free d sz segs →
  ∃ r k' free', load_loop kend n ip d off sz s = Ret r (with_k k' s) ∧ building k0 k' free0 free' d ∧
    match r with
    | Some szf => ∃ segs', load_plan n bs off sz = Some (szf, segs') ∧ loaded k0 k' free0 free' d szf (segs ++ segs')
    | None => ∀ szf segs', load_plan n bs off sz = Some (szf, segs') → short free0 szf
    end.
Proof.
  induction n as [|n IH]; intros off sz s free segs bs Hb Hl Hnd L; cbn [load_loop load_plan].
  { exists (Some sz), (km s), free. rewrite with_k_id. split; [done|]. split; [apply L|]. exists []. by rewrite app_nil_r. }
  assert (Hstop : ∃ r k' free', (Ret None s : res (exst F) (option Z)) = Ret r (with_k k' s) ∧
    building k0 k' free0 free' d ∧ r = None) by (exists None, (km s), free; rewrite with_k_id; split; [done|]; split; [apply L|done]).
  unfold bind at 1, read_local, gets. fold bs. set (rd := file_readi bs off sizeof_proghdr).
  destruct (negb (rd.1 =? sizeof_proghdr)).
  { destruct Hstop as (r & k' & free' & E & B & ->). exists None, k', free'. done. }
  destruct (file_readi_short bs off sizeof_proghdr) as [_ Hrb]; [done|]. specialize (Hrb Hb). fold rd in Hrb.
  destruct (get_proghdr_range rd.2 Hrb) as (Ro & Rv & Rf & Rm). set (ph := get_proghdr rd.2) in *.
  destruct (negb (p_type ph =? ELF_PROG_LOAD)).
  { by apply (IH (u32 (off + sizeof_proghdr)) sz s free segs). }
  destruct (Z.ltb_spec (p_memsz ph) (p_filesz ph)) as [Hmf|Hmf]; cbn [orb].
  { destruct Hstop as (r & k' & free' & E & B & ->). exists None, k', free'. done. }
  destruct (Z.leb_spec KERNBASE (p_vaddr ph + p_memsz ph)) as [Hbig|Hsm]; cbn [orb].
  { destruct (Z.ltb_spec (u32 (p_vaddr ph + p_memsz ph)) (p_vaddr ph)) as [|Hnw].
    { destruct Hstop as (r & k' & free' & E & B & ->). exists None, k', free'. done. }
    assert (Ew : u32 (p_vaddr ph + p_memsz ph) = p_vaddr ph + p_memsz ph).
    { apply u32_small. revert Hnw. unfold u32. Z.div_mod_to_equations. lia. }
    unfold bind at 1. rewrite (on_k_ret _ 0 (km s)), with_k_id.
    { destruct Hstop as (r & k' & free' & E & B & ->). exists None, k', free'. done. }
    unfold allocuvm. rewrite Ew. by destruct (Z.leb_spec KERNBASE (p_vaddr ph + p_memsz ph)); [|lia]. }
  rewrite u32_small by (unfold KERNBASE in *; lia). destruct (Z.ltb_spec (p_vaddr ph + p_memsz ph) (p_vaddr ph)); [lia|].
  destruct (load_segment k0 (km s) free0 free d sz segs bs (p_vaddr ph) (p_memsz ph) (p_off ph) (p_filesz ph))
    as (r & k1 & free1 & E1 & B1 & Hr); try done; try lia.
  unfold bind at 1. rewrite (on_k_ret _ _ _ _ E1).
  destruct Hr as [(-> & Hwhy)|(-> & Hload)].
  { rewrite Z.eqb_refl. exists None, k1, free1. split; [done|]. split; [done|]. intros szf segs'.
    destruct Hwhy as [Ez|Hsh]; [by rewrite Ez|]. destruct (_ || _); [done|].
    destruct (load_plan n bs _ _) as [[szf' ?]|] eqn:Ep; [|done]. intros [= <- _]. cbn.
    apply load_plan_range in Ep as [Ep _]. eapply short_mono; [done|lia]. }
  set (sz' := Z.max sz (p_vaddr ph + p_memsz ph)) in *.
  destruct (Z.eqb_spec sz' 0); cbn [orb]; [exists None, k1, free1; done|].
  destruct (Z.eqb_spec (p_vaddr ph mod PGSIZE) 0) as [Hal|]; cbn [orb negb]; [|exists None, k1, free1; done].
  destruct (Hload Hal) as (r' & k2 & E2 & B2 & Hr2). unfold bind at 1, gets. cbn [xf with_k]. fold bs.
  unfold bind at 1. rewrite (on_k_ret _ r' k2) by exact E2. rewrite with_k_twice.
  destruct ((0 <? p_filesz ph) && _); [subst r'; exists None, k2, free1; done|]. destruct Hr2 as [-> L2]. cbn [Z.ltb Z.compare].
  destruct (IH (u32 (off + sizeof_proghdr)) sz' (with_k k2 s) free1 _ Hb Hl Hnd L2) as (r & k3 & free3 & E3 & B3 & Hr3).
  exists r, k3, free3. split; [exact E3|]. split; [done|]. cbn [xf with_k] in Hr3. fold bs in Hr3. destruct r as [szf|].
  - destruct Hr3 as (segs' & Ep & L3). rewrite Ep. cbn. eexists. split; [done|]. by rewrite <- app_assoc in L3.
  - intros szf segs'. destruct (load_plan n bs _ sz') as [[szf' segs'']|]; [|done]. intros [= <- _]. by apply (Hr3 szf' segs'').
Qed.
End Load.
