(* ===== verification/ExecStack.v ===== *)
(** * The stack of a new program

    The second half of [exec]: the guard page and the stack above the image, the
    strings and the words pushed on it, and the switch to the new image. *)

From S2P Require Import Prelude Memory KString Spinlock Kalloc Layout FsLayout Proc Vm VmTables VmSpec VmFree VmProps Cpu Exec ExecMem ExecLoad.

(** An argument: a string of the running process, below [lim], of at most 32
    megabytes, the size of the region of the devices at the end of memory. *)
Definition argument_ok (m : mem) (lim : Z) (x : Z * Z) : Prop :=
  cstr m x.1 x.2 ∧ 0 <= x.1 ∧ x.1 + x.2 < lim ∧ x.2 <= 2^25.

Lemma sp_down sp : Z.land (u32 sp) (u32 (Z.lnot 3)) = u32 sp / 4 * 4.
Proof.
  pose proof (u32_range sp) as Hr. set (x := u32 sp) in *. change (u32 (Z.lnot 3)) with (Z.ldiff (Z.ones 32) (Z.ones 2)).
  assert (Hl : ∀ a b c, Z.land a (Z.ldiff b c) = Z.ldiff (Z.land a b) c).
  { intros a b c. apply Z.bits_inj'. intros i _. by rewrite !Z.land_spec, !Z.ldiff_spec, Z.land_spec, andb_assoc. }
  rewrite Hl, Z.land_ones, Z.mod_small by lia.
  rewrite Z.ldiff_ones_r, Z.shiftl_mul_pow2, Z.shiftr_div_pow2 by done. done.
Qed.

Lemma pte_range m d v : byte_mem m → 0 <= pte m d v < 2^32.
Proof. intros Hm. unfold pte. destruct (has _ _); [by apply load32_range|lia]. Qed.

Section Stack.
Context {F I : Type} `{!ExecFs F I}.
Context (kend : Z) (Hkend : KERNLINK < kend).
Context (K : Z) (HK : page_ok kend K).

(** [U] bytes of image, a closed page, and a page of stack. *)
Record stacked (k0 k : kstate) (free0 free : list Z) (d U : Z) (segs : list segment) : Prop := {
  st_build : building kend K k0 k free0 free d;
  st_user : ∀ v, 0 <= v → PGSIZE * v < U + 2 * PGSIZE → PGSIZE * v ≠ U → user_page (pte (kmem k) d v) = true;
  st_guard : has (pte (kmem k) d (U / PGSIZE)) PTE_P = true ∧ has (pte (kmem k) d (U / PGSIZE)) PTE_U = false;
  st_none : ∀ v, v < 2^19 → U + 2 * PGSIZE <= PGSIZE * v → has (pte (kmem k) d v) PTE_P = false;
  st_image : ∀ a, 0 <= a < U → ub (kmem k) d a = image segs a;
  st_devices : devices_mapped (kmem k) d;
  st_range : 0 <= U ∧ U mod PGSIZE = 0 ∧ U + 2 * PGSIZE < KERNBASE }.

Lemma stacked_present k0 k free0 free d U segs a :
  stacked k0 k free0 free d U segs → 0 <= a < U + 2 * PGSIZE → present (kmem k) d a.
Proof.
  intros St Ha. unfold present. pose proof (page_off a). destruct (st_range _ _ _ _ _ _ _ St) as (? & HU & ?).
  destruct (Z.eq_dec (PGSIZE * (a / PGSIZE)) U) as [<-|Hne].
  - pose proof (st_guard _ _ _ _ _ _ _ St) as [Hg _]. rewrite Z.mul_comm, Z.div_mul in Hg by done. exact Hg.
  - apply user_page_present, (st_user _ _ _ _ _ _ _ St); [apply Z.div_pos; lia|lia|done].
Qed.

(** What keeps the tables and the image keeps this. *)
Lemma stacked_keep k0 k k' free0 free d U segs :
  stacked k0 k free0 free d U segs → building kend K k0 k' free0 free d →
  (∀ v, 0 <= v < 2^20 → pte (kmem k') d v = pte (kmem k) d v) →
  (∀ a, 0 <= a < U → ub (kmem k') d a = ub (kmem k) d a) → stacked k0 k' free0 free d U segs.
Proof.
  intros [B Hu Hg Hn Hi Hdev Hr] B' Hp Hub. assert (Hlim : ∀ v, PGSIZE * v < U + 2 * PGSIZE → v < 2^19).
  { intros v. unfold KERNBASE, PGSIZE in *. lia. }
  split; [done| | | | | |done].
  - intros v Hv Hlt Hne. specialize (Hlim v Hlt). rewrite Hp by lia. by apply Hu.
  - rewrite Hp; [done|]. pose proof (page_no U). unfold PGSIZE, KERNBASE in *. lia.
  - intros v Hv Hge. rewrite Hp by (unfold PGSIZE in *; lia). by apply Hn.
  - intros a Ha. rewrite Hub by done. by apply Hi.
  - eapply devices_keep; [done|]. intros v Hv. apply Hp. lia.
Qed.

(** ** Making room *)

Lemma sized_up m d sz : 0 <= sz <= KERNBASE → sized m d sz → sized m d (PGROUNDUP sz).
Proof.
  intros Hsz Hs v Hv. specialize (Hs v Hv). pose proof (pgup_le sz v Hsz).
  destruct (Z.ltb_spec (PGSIZE * v) sz), (Z.ltb_spec (PGSIZE * v) (PGROUNDUP sz)); try done; lia.
Qed.

Lemma make_room k0 k free0 free d sz segs :
  loaded kend K k0 k free0 free d sz segs → NoDup free0 →
  let U := PGROUNDUP sz in
  ∃ r k1 free1, allocuvm kend d U (u32 (U + 2 * PGSIZE)) k = Ret r k1 ∧ building kend K k0 k1 free0 free1 d ∧
    (r = 0 ∧ (KERNBASE <= U + 2 * PGSIZE ∨ short free0 (U + 2 * PGSIZE)) ∨
     r = U + 2 * PGSIZE ∧ U + 2 * PGSIZE < KERNBASE ∧
     ∃ k2, clearpteu d (u32 (r - 2 * PGSIZE)) k1 = Ret tt k2 ∧ stacked k0 k2 free0 free1 d U segs).
Proof.
  intros [B Hs [Hf Hz] Hdev Hr] Hnd U. destruct (pgup_range sz) as [HU Hal]; [lia|]. fold U in HU, Hal.
  rewrite u32_small by (unfold KERNBASE, PGSIZE in *; lia).
  destruct (Z.le_gt_cases KERNBASE (U + 2 * PGSIZE)) as [Hbig|Hsm].
  { exists 0, k, free. unfold allocuvm. destruct (Z.leb_spec KERNBASE (U + 2 * PGSIZE)); [|lia].
    split; [done|]. split; [done|]. left. auto. }
  destruct (grow_sized kend Hkend K k0 k free0 free d U (U + 2 * PGSIZE) B Hnd) as (r & k1 & free1 & E & B1 & Hp1 & Hr1);
    [apply sized_up; [lia|done]|unfold PGSIZE in *; lia|done|].
  exists r, k1, free1. split; [done|]. split; [done|]. destruct Hr1 as [(-> & Hs1 & Hu)|?]; [right|left; tauto].
  split; [done|]. split; [done|]. set (v := U / PGSIZE). assert (Ev : U = PGSIZE * v) by (unfold v; pose proof (page_off U); lia).
  assert (Hv : 0 <= v < 2^19) by (apply page_no; unfold PGSIZE in *; lia).
  replace (u32 (U + 2 * PGSIZE - 2 * PGSIZE)) with (PGSIZE * v) by (rewrite u32_small; unfold KERNBASE, PGSIZE in *; lia).
  assert (Hh : has (pte (kmem k1) d v) PTE_P = true).
  { specialize (Hs1 v Hv). destruct (Z.ltb_spec (PGSIZE * v) (U + 2 * PGSIZE)); [|unfold PGSIZE in *; lia]. by apply user_page_present. }
  destruct (clearpteu_spec kend k1 free1 d v (bd_ok _ _ _ _ _ _ _ B1) Hv Hh) as (k2 & E2 & Hok2 & Hw2 & Hp2 & Ho2 & Hub2).
  exists k2. split; [done|]. split; [| | | | | |split; [lia|done]].
  - eapply building_only; [done|done| |exact Ho2|auto]. intros p. by rewrite Hw2.
  - intros w Hw Hlt Hne. assert (w < 2^19) by (unfold KERNBASE, PGSIZE in *; lia). rewrite Hp2 by lia.
    destruct (Z.eqb_spec w v) as [->|]; [done|]. specialize (Hs1 w ltac:(lia)).
    by destruct (Z.ltb_spec (PGSIZE * w) (U + 2 * PGSIZE)); [|lia].
  - fold v. rewrite Hp2, Z.eqb_refl by lia. destruct (no_user_entry (pte (kmem k1) d v)) as (_ & _ & -> & ->); [apply pte_range, B1|done].
  - intros w Hw Hge. rewrite Hp2 by (unfold PGSIZE in *; lia). destruct (Z.eqb_spec w v); [unfold PGSIZE in *; lia|].
    specialize (Hs1 w ltac:(unfold PGSIZE in *; lia)). by destruct (Z.ltb_spec (PGSIZE * w) (U + 2 * PGSIZE)); [lia|].
  - intros a Ha. pose proof (page_off a). assert (PGSIZE * (a / PGSIZE) < U + 2 * PGSIZE) by (unfold PGSIZE in *; lia).
    rewrite Hub2, Hu by (unfold PGSIZE in *; first [lia|apply (sized_present _ _ _ _ Hs1); unfold PGSIZE in *; lia]).
    destruct (Z.ltb_spec (PGSIZE * (a / PGSIZE)) U); [|lia]. apply Hf; [lia|].
    pose proof (pgup_le sz (a / PGSIZE)). lia.
  - eapply devices_keep; [exact Hdev|]. intros w Hw. rewrite Hp2 by lia.
    destruct (Z.eqb_spec w v); [lia|]. by apply Hp1.
Qed.

(** ** Pushing *)

(** Bytes copied to the stack page. *)
Lemma push_bytes k0 k free0 free d U segs sp p len :
  stacked k0 k free0 free d U segs → 0 < len → U <= sp → sp + len <= U + 2 * PGSIZE →
  (∀ i q, 0 <= i < len → owns (kmem k) d q → ¬ in_page q (p + i)) →
  if sp <? U + PGSIZE then copyout d sp p len k = Ret (-1) k
  else ∃ k', copyout d sp p len k = Ret 0 k' ∧ stacked k0 k' free0 free d U segs ∧
    ∀ a, 0 <= a < U + 2 * PGSIZE →
      ub (kmem k') d a = if (sp <=? a) && (a <? sp + len) then kmem k (p + (a - sp)) else ub (kmem k) d a.
Proof.
  intros St Hlen Hlo Hhi Hsrc. pose proof St as [B Hu [Hg1 Hg2] _ _ _ (H0 & Hal & Hk)]. pose proof (bd_ok _ _ _ _ _ _ _ B) as Hok.
  destruct (Z.ltb_spec sp (U + PGSIZE)) as [Hlt|Hge].
  - assert (Epg : sp / PGSIZE = U / PGSIZE) by (unfold PGSIZE in *; Z.div_mod_to_equations; lia).
    apply (copyout_guard kend k free d sp p len Hok); [unfold PGSIZE, KERNBASE in *; lia|done| |by rewrite Epg].
    unfold present. by rewrite Epg.
  - destruct (copyout_user kend k free d sp p len Hok) as (k' & E & Up & Hub); [unfold PGSIZE in *; lia|lia|lia| |done|].
    { intros v Hv Hlt. assert (U + PGSIZE <= PGSIZE * v) by (revert Hv; unfold PGSIZE in *; Z.div_mod_to_equations; lia).
      apply Hu; unfold PGSIZE in *; lia. }
    exists k'. split; [done|]. split.
    + apply (stacked_keep k0 k); [done|by eapply building_user|apply Up|]. intros a Ha.
      rewrite Hub by (unfold PGSIZE in *; first [lia|apply (stacked_present _ _ _ _ _ _ _ _ St); unfold PGSIZE; lia]).
      unfold PGSIZE in *. zcases.
    + intros a Ha. apply Hub; [lia|]. by apply (stacked_present _ _ _ _ _ _ _ _ St).
Qed.

(** Bytes that reach below the stack page: the copy stops at the page that is
    closed, or at the devices if the address has wrapped around. *)
Lemma push_low k0 k free0 free d U segs x p len :
  stacked k0 k free0 free d U segs → - 2^25 <= x → 0 < len → x / 4 * 4 < U + PGSIZE → U < x / 4 * 4 + len →
  ∃ k', copyout d (Z.land (u32 x) (u32 (Z.lnot 3))) p len k = Ret (-1) k' ∧ building kend K k0 k' free0 free d.
Proof.
  intros St Hx Hpl Hlo Hlen. pose proof St as [B Hu [Hg1 Hg2] _ _ Hdev (H0 & Hal & Hk)]. pose proof (bd_ok _ _ _ _ _ _ _ B) as Hok.
  rewrite sp_down. destruct (Z.lt_ge_cases x 0) as [Hneg|Hpos].
  { assert (Ex : u32 x = x + 2^32) by (unfold u32; Z.div_mod_to_equations; lia). rewrite Ex. set (y := (x + 2^32) / 4 * 4).
    assert (Hy : 0xFE000000 <= y < 2^32) by (unfold y; Z.div_mod_to_equations; lia).
    destruct (Hdev (y / PGSIZE)) as [Hp Hn]; [unfold PGSIZE; Z.div_mod_to_equations; lia|].
    exists k. split; [|done]. apply (copyout_guard kend k free); try done; lia. }
  rewrite u32_small by (unfold PGSIZE, KERNBASE in *; Z.div_mod_to_equations; lia). set (y := x / 4 * 4) in *.
  assert (0 <= y) by (unfold y; Z.div_mod_to_equations; lia).
  destruct (Z.lt_ge_cases y U) as [Himg|Hguard].
  - set (G := U / PGSIZE) in *. assert (EG : U = PGSIZE * G) by (unfold G; pose proof (page_off U); lia).
    destruct (copyout_stops kend d free G k y p len Hok) as (k' & E & Up); try done; try (unfold PGSIZE, KERNBASE in *; lia).
    + intros v Hv. apply Hu; [|unfold PGSIZE in *; lia..]. assert (0 <= y / PGSIZE) by (apply Z.div_pos; [lia|done]). lia.
    + exists k'. split; [done|]. by eapply building_user.
  - assert (Epg : y / PGSIZE = U / PGSIZE) by (unfold PGSIZE in *; Z.div_mod_to_equations; lia).
    exists k. split; [|done]. apply (copyout_guard kend k free d y p len Hok); [unfold PGSIZE, KERNBASE in *; lia|lia| |by rewrite Epg].
    unfold present. by rewrite Epg.
Qed.

(** The string of the argument [x] is at [ptr]. *)
Definition string_at (m0 m : mem) (d : Z) (ptr : Z) (x : Z * Z) : Prop :=
  ∀ i, 0 <= i <= x.2 → ub m d (ptr + i) = m0 (x.1 + i).

Lemma place_bounds lo lens : ∀ sp sp' ptrs,
  lo mod 4 = 0 → lo <= sp → sp mod 4 = 0 → Forall (λ n, 0 <= n) lens → place lo sp lens = Some (sp', ptrs) →
  lo <= sp' <= sp ∧ sp' mod 4 = 0 ∧ length ptrs = length lens ∧ Forall2 (λ ptr n, sp' <= ptr ∧ ptr + n < sp) ptrs lens.
Proof.
  induction lens as [|n lens IH]; intros sp sp' ptrs Hlo Hsp Hal Hn; cbn [place].
  { intros [= <- <-]. split_and!; try done; lia. }
  apply Forall_cons in Hn as [Hn Hns]. set (sp1 := (sp - (n + 1)) / 4 * 4).
  assert (H1 : sp1 mod 4 = 0 ∧ sp1 + n < sp) by (unfold sp1; Z.div_mod_to_equations; lia).
  destruct (Z.ltb_spec sp1 lo); [done|]. destruct (place lo sp1 lens) as [[sp2 ptrs2]|] eqn:E; [|done]. intros [= <- <-].
  cbn [fst snd]. destruct (IH sp1 sp2 ptrs2) as (Hb & Ha & Hl & Hf); try done; [lia|].
  split; [lia|]. split; [done|]. split; [cbn; lia|]. constructor; [lia|]. eapply Forall2_impl; [exact Hf|]. cbn. lia.
Qed.

Lemma push_args_spec k0 free0 free d U segs args : ∀ sp ptrs (s : exst F),
  stacked k0 (km s) free0 free d U segs → kinv kend k0 free0 →
  Forall (argument_ok (kmem k0) (sz (xp s))) args → sz (xp s) <= KERNBASE →
  U + PGSIZE <= sp <= U + 2 * PGSIZE → sp mod 4 = 0 → (length ptrs <= MAXARG)%nat →
  ∃ r k', push_args d (map fst args) sp ptrs s = Ret r (with_k k' s) ∧ building kend K k0 k' free0 free d ∧
    match place (U + PGSIZE) sp (map snd args) with
    | Some (sp', ptrs') =>
        if (MAXARG <? length ptrs + length args)%nat then r = None
        else r = Some (sp', ptrs ++ ptrs') ∧ stacked k0 k' free0 free d U segs ∧
          (∀ a, sp <= a < U + 2 * PGSIZE → ub (kmem k') d a = ub (kmem (km s)) d a) ∧
          Forall2 (string_at (kmem k0) (kmem k') d) ptrs' args
    | None => r = None
    end.
Proof.
  induction args as [|[a len] args IH]; intros sp ptrs s St Hk Ha Hsz Hsp Hal Hlen; cbn [push_args map place fst snd length];
    pose proof (st_build _ _ _ _ _ _ _ St) as B.
  { exists (Some (sp, ptrs)), (km s). rewrite with_k_id. split; [done|]. split; [done|].
    destruct (Nat.ltb_spec MAXARG (length ptrs + 0)); [lia|]. by rewrite app_nil_r. }
  apply Forall_cons in Ha as [(Hc & Ha0 & Halim & Hpg) Ha]. cbn [fst snd] in *. pose proof Hc as (Hl0 & _).
  destruct (st_range _ _ _ _ _ _ _ St) as (HU0 & HUal & HUk).
  destruct (Nat.leb_spec MAXARG (length ptrs)) as [Hmany|Hfew].
  { exists None, (km s). rewrite with_k_id. split; [done|]. split; [done|].
    destruct (_ <? _); [done|]. destruct (place _ _ _) as [[? ?]|]; [|done]. cbn [option_map].
    by destruct (Nat.ltb_spec MAXARG (length ptrs + Datatypes.S (length args))); [|lia]. }
  assert (Hlow : ∀ i, 0 <= i <= len → kmem (km s) (a + i) = kmem k0 (a + i)).
  { intros i Hi. apply (building_low kend K HK k0 _ free0 free d _ B Hk). lia. }
  assert (Hc' : cstr (kmem (km s)) a len).
  { destruct Hc as (? & Hnul & Hnz). split; [done|]. split; [rewrite Hlow by lia; done|].
    intros i Hi. rewrite Hlow by lia. by apply Hnz. }
  unfold bind at 1. fold (km s). unfold strlen. rewrite (strlen_loop_spec _ _ len) by (done || lia).
  set (sp1 := (sp - (len + 1)) / 4 * 4). assert (H1 : sp1 mod 4 = 0 ∧ sp1 + len < sp) by (unfold sp1; Z.div_mod_to_equations; lia).
  destruct (Z.ltb_spec sp1 (U + PGSIZE)) as [Hlt|Hge].
  { destruct (push_low k0 (km s) free0 free d U segs (sp - (len + 1)) a (len + 1) St) as (k1 & E1 & B1);
      [unfold PGSIZE in *; lia|lia|done|unfold PGSIZE in *; Z.div_mod_to_equations; lia|].
    unfold bind at 1. rewrite (on_k_ret _ _ _ _ E1). exists None, k1. by split_and!. }
  rewrite sp_down, u32_small by (unfold sp1, PGSIZE, KERNBASE in *; Z.div_mod_to_equations; lia). fold sp1.
  pose proof (push_bytes k0 (km s) free0 free d U segs sp1 a (len + 1) St ltac:(lia) ltac:(unfold PGSIZE in *; lia) ltac:(lia)) as Hpush.
  lapply Hpush; clear Hpush; [intros Hpush|intros i q Hi; apply (building_src kend K k0 _ free0 free d _ B); lia].
  destruct (Z.ltb_spec sp1 (U + PGSIZE)); [lia|].
  destruct Hpush as (k1 & E1 & S1 & Hub1). unfold bind at 1. rewrite (on_k_ret _ _ _ _ E1). cbn [Z.ltb Z.compare].
  destruct (IH sp1 (ptrs ++ [sp1]) (with_k k1 s) S1 Hk) as (r & k2 & E2 & B2 & Hm); try done; try lia.
  { rewrite length_app. cbn. lia. }
  exists r, k2. split; [exact E2|]. split; [done|].
  destruct (place (U + PGSIZE) sp1 (map snd args)) as [[sp2 ptrs2]|]; [|done]. cbn [option_map fst snd].
  rewrite length_app in Hm. cbn [length] in Hm. replace (length ptrs + 1 + length args)%nat with (length ptrs + S (length args))%nat in Hm by lia.
  destruct (_ <? _)%nat; [done|]. destruct Hm as (-> & S2 & Hub2 & Hf). cbn [km with_k xv vk with_vk] in Hub2.
  split; [by rewrite <- app_assoc|]. split; [done|]. split; [intros x Hx; rewrite Hub2, Hub1 by lia; zcases|]. constructor; [|done].
  intros i Hi. cbn [fst snd] in *. rewrite Hub2, Hub1 by lia. rewrite <- Hlow by done.
  destruct (Z.leb_spec sp1 (sp1 + i)), (Z.ltb_spec (sp1 + i) (sp1 + (len + 1))); try lia. cbn [andb]. f_equal. lia.
Qed.

(** ** The words *)

Lemma words_bytes ws :
  length (concat (map bytes32 ws)) = (4 * length ws)%nat ∧ Forall (λ b, 0 <= b < 256) (concat (map bytes32 ws)).
Proof.
  induction ws as [|w ws [IHl IHb]]; cbn [map concat]; [done|]. split.
  - rewrite length_app, IHl. cbn [bytes32 length]. lia.
  - apply Forall_app. split; [|done]. repeat constructor; apply byte_at_range.
Qed.

(** Bytes put into the kernel stack. *)
Lemma kstack_put k0 k free0 free d U segs a bs :
  stacked k0 k free0 free d U segs → K ∉ free0 → K <= a → a + Z.of_nat (length bs) <= K + PGSIZE →
  Forall (λ b, 0 <= b < 256) bs →
  ∀ k', k' = KState (kmem_lock k) (use_lock k) (freelist k) (put_bytes a bs (kmem k)) →
  stacked k0 k' free0 free d U segs ∧ (∀ x, 0 <= x < U + 2 * PGSIZE → ub (kmem k') d x = ub (kmem k) d x) ∧
  ∀ i, 0 <= i < Z.of_nat (length bs) → kmem k' (a + i) = bs !!! Z.to_nat i.
Proof.
  intros St HKf Hlo Hhi Hb k' ->. pose proof St as [B _ _ _ _ _ (H0 & _ & Hk)]. pose proof (bd_ok _ _ _ _ _ _ _ B) as Hok.
  assert (HKs : K ∉ free ∧ ¬ owns (kmem k) d K) by (split; intros ?; apply HKf, (bd_owns _ _ _ _ _ _ _ B); auto).
  set (k' := KState _ _ _ _). assert (Ho : only_pages (λ p, p = K) (kmem k) (kmem k')).
  { intros x Hx. cbn. unfold put_bytes. pose proof (Hx K eq_refl) as Hn. unfold in_page in Hn. zcases. }
  assert (Kp : kept kend k k' free d).
  { apply (kept_intro kend k k' free free d (λ p, p = K)); try done.
    - apply (kinv_only kend k _ free (λ q, q = K)); try done; [apply Hok| |intros q ->; tauto].
      apply put_bytes_byte_mem; [apply Hok|done].
    - intros p ->. tauto.
    - intros p Hp. by apply (vo_page _ _ _ _ Hok). }
  assert (Hub : ∀ x, 0 <= x < U + 2 * PGSIZE → ub (kmem k') d x = ub (kmem k) d x).
  { intros x Hx. apply (kp_ub _ _ _ _ _ Kp); [lia|]. by apply (stacked_present _ _ _ _ _ _ _ _ St). }
  split; [|split; [done|]].
  - apply (stacked_keep k0 k); [done| |apply Kp|intros x Hx; apply Hub; unfold PGSIZE; lia].
    eapply building_only; [done|apply Kp| |exact Ho|intros p ->; auto]. intros p. by rewrite (kp_owns _ _ _ _ _ Kp).
  - intros i Hi. cbn. unfold put_bytes. replace (a + i - a) with i by lia. zcases.
Qed.

(** The words of [ustack], copied to the stack. *)
Lemma push_words k0 k free0 free d U segs ustack sp ptrs :
  stacked k0 k free0 free d U segs → K ∉ free0 → K <= ustack → ustack + 4 * (3 + Z.of_nat MAXARG + 1) <= K + PGSIZE →
  U + PGSIZE <= sp <= U + 2 * PGSIZE → (length ptrs <= MAXARG)%nat →
  let sp' := sp - 4 * (3 + Z.of_nat (length ptrs) + 1) in
  let bs := concat (map bytes32 (stack_words sp' ptrs)) in
  ∀ k1, k1 = KState (kmem_lock k) (use_lock k) (freelist k) (put_bytes ustack bs (kmem k)) →
  stacked k0 k1 free0 free d U segs ∧
  if sp' <? U + PGSIZE then copyout d sp' ustack (4 * (3 + Z.of_nat (length ptrs) + 1)) k1 = Ret (-1) k1
  else ∃ k2, copyout d sp' ustack (4 * (3 + Z.of_nat (length ptrs) + 1)) k1 = Ret 0 k2 ∧ stacked k0 k2 free0 free d U segs ∧
    (∀ a, sp <= a < U + 2 * PGSIZE → ub (kmem k2) d a = ub (kmem k) d a) ∧
    ∀ i, 0 <= i < Z.of_nat (length bs) → ub (kmem k2) d (sp' + i) = bs !!! Z.to_nat i.
Proof.
  intros St HKf Hu Hhi Hsp Hn sp' bs k1 Ek. destruct (words_bytes (stack_words sp' ptrs)) as [Hl Hb]. fold bs in Hl, Hb.
  assert (Hlen : Z.of_nat (length bs) = 4 * (3 + Z.of_nat (length ptrs) + 1)).
  { rewrite Hl. unfold stack_words. rewrite !length_app. cbn [length]. lia. }
  destruct (kstack_put k0 k free0 free d U segs ustack bs St HKf Hu ltac:(lia) Hb k1 Ek) as (St1 & Hub1 & Hw1).
  split; [done|]. rewrite <- Hlen. pose proof (push_bytes k0 k1 free0 free d U segs sp' ustack (Z.of_nat (length bs)) St1) as Hp.
  destruct (st_range _ _ _ _ _ _ _ St) as (H0 & _). unfold MAXARG in *.
  assert (Esp : sp' + Z.of_nat (length bs) = sp) by (unfold sp'; lia). assert (Z.of_nat (length bs) <= 144) by lia.
  specialize (Hp ltac:(lia) ltac:(unfold PGSIZE in *; lia) ltac:(lia)). lapply Hp; clear Hp; [intros Hp|].
  2:{ intros i q Hi Hq. destruct (vo_page _ _ _ _ (bd_ok _ _ _ _ _ _ _ (st_build _ _ _ _ _ _ _ St1)) q Hq) as [Hqo _].
      apply (page_apart kend K q); [done|done| |unfold in_page; lia]. intros <-.
      apply HKf, (bd_owns _ _ _ _ _ _ _ (st_build _ _ _ _ _ _ _ St1)). auto. }
  destruct (_ <? _); [done|]. destruct Hp as (k2 & E & St2 & Hub2). exists k2. split; [done|]. split; [done|]. split.
  - intros a Ha. unfold PGSIZE in *. rewrite Hub2, Hub1 by lia. zcases.
  - intros i Hi. unfold PGSIZE in *. rewrite Hub2 by lia. rewrite <- Hw1 by lia.
    destruct (Z.leb_spec sp' (sp' + i)), (Z.ltb_spec (sp' + i) (sp' + Z.of_nat (length bs))); try lia.
    cbn [andb]. f_equal. lia.
Qed.

End Stack.
