(* ===== verification/ExecProps.v ===== *)
(** * exec replaces the program or changes nothing

    A call of [exec] either gives the process the image of the file, with its
    arguments on the stack, and returns the pages of the old one; or it fails, for
    one of the reasons listed, and leaves the process and the free pages as they
    were. *)

From S2P Require Import Prelude Memory KString Spinlock Kalloc Layout FsLayout Proc Vm VmTables VmSpec VmFree VmProps Cpu Exec ExecMem ExecLoad ExecStack.

(** What the new program sees, through the directory [d] of memory [m]: the
    image in the first [U] bytes, a page it may not use, and a page of stack with
    the arguments [args], strings of memory [m0]. *)
Record program (m0 m : mem) (d U : Z) (segs : list segment) (sp : Z) (ptrs : list Z) (args : list (Z * Z)) : Prop := {
  pr_pages : ∀ v, 0 <= v < 2^19 →
    user_page (pte m d v) = (PGSIZE * v <? U + 2 * PGSIZE) && negb (PGSIZE * v =? U);
  pr_image : ∀ a, 0 <= a < U → ub m d a = image segs a;
  pr_strings : Forall2 (string_at m0 m d) ptrs args;
  pr_words : ∀ i, 0 <= i < 4 * (4 + Z.of_nat (length args)) →
    ub m d (sp + i) = concat (map bytes32 (stack_words sp ptrs)) !!! Z.to_nat i }.

Section ExecProps.
Context {F I : Type} `{!ExecFs F I}.
Context (kend data : Z) (Hkend : KERNLINK < kend) (Hdata : data_ok data) (ts_addr : nat → Z).
(** The page of the kernel stack, and the local array in it. *)
Context (K ustack : Z) (HK : page_ok kend K) (Hlo : K <= ustack) (Hhi : ustack + 4 * (3 + Z.of_nat MAXARG + 1) <= K + PGSIZE).

(** ** Giving up, and taking over *)

(** The old address space is as it was, and the same pages are free. *)
Definition restored (k0 k : kstate) (free0 : list Z) (old : Z) : Prop :=
  ∃ free', kept kend k0 k free' old ∧ ∀ p, p ∈ free' ↔ p ∈ free0.

(** Both: the address space in use, of which the kernel stack is no part. *)
Record in_use (k0 : kstate) (free0 : list Z) (old : Z) : Prop := {
  iu_ok : vm_ok kend k0 free0 old;
  iu_K : K ∉ free0 ∧ ¬ owns (kmem k0) old K }.

Lemma old_kept k0 k free0 free old :
  in_use k0 free0 old → kinv kend k free → only_pages (λ p, p ∈ free0 ∨ p = K) (kmem k0) (kmem k) →
  (∀ p, p ∈ free → p ∈ free0) → kept kend k0 k free old.
Proof.
  intros [H [HKf HKo]] Hk Ho Hs. apply (kept_intro kend k0 k free0 free old (λ p, p ∈ free0 ∨ p = K)); try done.
  - intros p [Hp| ->]; [|done]. pose proof (kinv_pages _ _ _ (vo_k _ _ _ _ H)) as Hpp. rewrite Forall_forall in Hpp.
    split; [auto|]. intros Hown. by apply (vo_page _ _ _ _ H) in Hown as [_ []].
  - intros p Hp Hf. apply (vo_page _ _ _ _ H) in Hp as [_ []]. auto.
Qed.

Lemma abandon k0 k free0 free d old :
  in_use k0 free0 old → building kend K k0 k free0 free d →
  ∃ k', freevm kend d k = Ret tt k' ∧ restored k0 k' free0 old.
Proof.
  intros Hu [Hok Hw Ho]. destruct (freevm_spec kend Hkend k free d Hok) as (k' & free' & E & Hk & Hf & Ho').
  exists k'. split; [done|]. exists free'. assert (Hff : ∀ p, p ∈ free' ↔ p ∈ free0) by (intros p; by rewrite Hf, Hw).
  split; [|done]. apply (old_kept k0 k' free0); try done; [|intros p; by rewrite Hff].
  apply (only_trans _ _ _ _ _ _ Ho Ho'). intros p [?|Hp]; [done|]. left. apply Hw. auto.
Qed.

Lemma take_over k0 k free0 free d old :
  in_use k0 free0 old → building kend K k0 k free0 free d →
  ∃ k' free', freevm kend old k = Ret tt k' ∧ kept kend k k' free' d ∧
    ∀ p, p ∈ free' ∨ owns (kmem k') d p ↔ p ∈ free0 ∨ owns (kmem k0) old p.
Proof.
  intros Hu [Hok Hw Ho]. pose proof Hu as [Hold _].
  assert (Ko : kept kend k0 k free old).
  { apply (old_kept k0 k free0); try done; [apply Hok|]. intros p Hp. apply Hw. auto. }
  destruct (freevm_spec kend Hkend k free old (kp_ok _ _ _ _ _ Ko)) as (k' & free' & E & Hk & Hf & Ho').
  assert (Hdis : ∀ p, owns (kmem k) old p → ¬ owns (kmem k) d p).
  { intros p Hp Hd. apply (kp_owns _ _ _ _ _ Ko), (vo_page _ _ _ _ Hold) in Hp as [_ []]. apply Hw. auto. }
  assert (Kd : kept kend k k' free' d).
  { apply (kept_intro kend k k' free free' d (owns (kmem k) old)); try done.
    - intros p Hp. split; [by apply (vo_page _ _ _ _ (kp_ok _ _ _ _ _ Ko))|auto].
    - intros p Hp [Hf'|Hf']%Hf; [by apply (vo_page _ _ _ _ Hok) in Hp as [_ []]|by apply (Hdis p)]. }
  exists k', free'. split; [done|]. split; [done|]. intros p.
  rewrite Hf, (kp_owns _ _ _ _ _ Kd), (kp_owns _ _ _ _ _ Ko), <- Hw. tauto.
Qed.

(** ** The switch to the new image *)

(** The processor is set up for the process. *)
Record ready (s : exst F) (i : nat) (b : bool) : Prop := {
  rd_cpu : running_on (xv s) i;
  rd_cli : cli_inv b (ncli (vcpu (xv s))) (vcpu (xv s));
  rd_gdt : length (gdt (cpus (xv s) !!! i)) = NSEGS;
  rd_ts : 0 <= ts_addr i < 2^32;
  rd_kstack : kstack (xp s) ≠ 0;
  rd_sz : sz (xp s) <= KERNBASE }.

(** The process has a new program, whose directory is [d]. *)
Record renewed (p p' : proc) (d size eip sp : Z) : Prop := {
  rn_pgdir : pgdir p' = d;
  rn_sz : sz p' = size;
  rn_eip : tf_eip (frame p') = eip;
  rn_esp : tf_esp (frame p') = sp;
  rn_signals : handler p' = -1 ∧ dis_sig p' = 0 ∧ intr p' = 0;
  rn_same : (pid p', parent p', state p', kstack p', killed p', ofile p', cwd p') =
            (pid p, parent p, state p, kstack p, killed p, ofile p, cwd p) }.

Definition with_p (p : proc) (s : exst F) : exst F := EX (xv s) (xf s) p (xout s).

Lemma on_p_bind {A} f (m : M (exst F) A) s : (on_p f ;;; m) s = m (with_p (f (xp s)) s).
Proof. done. Qed.

Lemma commit_image_spec path k0 (s : exst F) free0 free d size eip sp i b :
  in_use k0 free0 (pgdir (xp s)) → building kend K k0 (km s) free0 free d → ready s i b →
  ∃ s', commit_image kend ts_addr path d size eip sp s = Ret 0 s' ∧ xf s' = xf s ∧ xout s' = xout s ∧
    cr3 (xv s') = V2P d ∧ renewed (xp s) (xp s') d size eip sp ∧
    ∃ free', kept kend (km s) (km s') free' d ∧
      ∀ p, p ∈ free' ∨ owns (kmem (km s')) d p ↔ p ∈ free0 ∨ owns (kmem k0) (pgdir (xp s)) p.
Proof.
  intros Hu B [Hcpu Hcli Hgdt Hts Hks _]. unfold commit_image. rewrite on_p_bind. unfold bind at 1, gets. rewrite !on_p_bind.
  set (p1 := copy_name (last_elem path path) (xp s)). cbn [xp with_p]. change (kstack p1) with (kstack (xp s)).
  change (pgdir p1) with (pgdir (xp s)). set (p2 := set_intr 0 _).
  assert (Hd0 : d ≠ 0).
  { destruct (dir_page kend _ _ _ (bd_ok _ _ _ _ _ _ _ B)) as [Hd%page_ok_kern _]. unfold KERNBASE in Hd. lia. }
  destruct (switchuvm_installs ts_addr (xv s) i b (kstack (xp s)) d Hcpu Hcli Hgdt Hts Hks Hd0) as (v & Ev & Hcr3 & _ & _ & Hvk & _).
  unfold bind at 1, on_v at 1. cbn [xv with_p]. rewrite Ev.
  destruct (take_over k0 (km s) free0 free d (pgdir (xp s)) Hu B) as (k' & free' & Ek & Kd & Hw).
  unfold bind at 1. rewrite (on_k_ret _ tt k') by (unfold km; cbn [xv]; rewrite Hvk; exact Ek).
  eexists. split; [reflexivity|]. cbn [xf xout xp xv with_k with_p with_vk cr3]. split; [done|]. split; [done|]. split; [done|].
  split; [by split|]. exists free'. done.
Qed.

Lemma strings_keep m0 m m' d lo hi ptrs args :
  Forall2 (string_at m0 m d) ptrs args → Forall2 (λ ptr x, lo <= ptr ∧ ptr + x.2 < hi) ptrs args →
  (∀ a, lo <= a < hi → ub m' d a = ub m d a) → Forall2 (string_at m0 m' d) ptrs args.
Proof.
  intros Hs Hb Hub. induction Hs as [|ptr x ptrs args Hx Hs IH]; [done|]. apply Forall2_cons in Hb as [Hb1 Hb2].
  constructor; [|by apply IH]. intros i Hi. rewrite Hub by lia. by apply Hx.
Qed.

Lemma stacked_program k0 k free0 free d U segs m0 m sp ptrs args :
  stacked kend K k0 k free0 free d U segs →
  (∀ v, 0 <= v < 2^20 → pte m d v = pte (kmem k) d v) →
  (∀ a, 0 <= a < U + 2 * PGSIZE → ub m d a = ub (kmem k) d a) →
  Forall2 (λ ptr x, U + PGSIZE <= ptr ∧ ptr + x.2 < U + 2 * PGSIZE) ptrs args →
  Forall2 (string_at m0 (kmem k) d) ptrs args →
  U + PGSIZE <= sp → sp + 4 * (4 + Z.of_nat (length args)) <= U + 2 * PGSIZE →
  (∀ i, 0 <= i < 4 * (4 + Z.of_nat (length args)) →
     ub (kmem k) d (sp + i) = concat (map bytes32 (stack_words sp ptrs)) !!! Z.to_nat i) →
  program m0 m d U segs sp ptrs args.
Proof.
  intros [B Hu [Hg1 Hg2] Hn Hi _ (H0 & Hal & Hk)] Hp Hub Hb Hstr Hsp Hsp2 Hw. split.
  - intros v Hv. rewrite Hp by lia. destruct (Z.ltb_spec (PGSIZE * v) (U + 2 * PGSIZE)); cbn [andb].
    + destruct (Z.eqb_spec (PGSIZE * v) U) as [E|Hne]; cbn [negb]; [|apply Hu; done || lia].
      rewrite <- E, Z.mul_comm, Z.div_mul in Hg2 by done. unfold user_page. by rewrite Hg2, andb_false_r.
    + unfold user_page. by rewrite Hn by lia.
  - intros a Ha. rewrite Hub by (unfold PGSIZE; lia). by apply Hi.
  - eapply strings_keep; [exact Hstr|exact Hb|]. intros a Ha. apply Hub. unfold PGSIZE in *. lia.
  - intros i Hi'. rewrite Hub by (unfold PGSIZE in *; lia). by apply Hw.
Qed.

(** ** From the stack on *)

Lemma building_dir k0 k free0 free d : building kend K k0 k free0 free d → d ≠ 0.
Proof. intros B. destruct (dir_page kend _ _ _ (bd_ok _ _ _ _ _ _ _ B)) as [Hd%page_ok_kern _]. unfold KERNBASE in Hd. lia. Qed.

Lemma bad_spec k0 (s : exst F) free0 free d :
  in_use k0 free0 (pgdir (xp s)) → building kend K k0 (km s) free0 free d →
  ∃ k', (when negb (d =? 0) do on_k (freevm kend d)) s = Ret tt (with_k k' s) ∧ restored k0 k' free0 (pgdir (xp s)).
Proof.
  intros Hu B. destruct (abandon k0 (km s) free0 free d _ Hu B) as (k' & E & Hr). exists k'. split; [|done].
  apply building_dir in B. destruct (Z.eqb_spec d 0); [done|]. cbn [negb]. by apply on_k_ret.
Qed.

(** The outcome of a call that succeeds, for a process [p] and memory [k0] before. *)
Definition replaced (k0 : kstate) (p : proc) (free0 : list Z) (eip U : Z) (segs : list segment) (args : list (Z * Z)) (s' : exst F) : Prop :=
  ∃ sp ptrs d free',
    stack_plan (U + PGSIZE) (map snd args) = Some (sp, ptrs) ∧
    renewed p (xp s') d (U + 2 * PGSIZE) eip sp ∧ cr3 (xv s') = V2P d ∧ vm_ok kend (km s') free' d ∧
    (∀ q, q ∈ free' ∨ owns (kmem (km s')) d q ↔ q ∈ free0 ∨ owns (kmem k0) (pgdir p) q) ∧
    program (kmem k0) (kmem (km s')) d U segs sp ptrs args.

Lemma stack_plan_eq U lens sp ptrs :
  (length lens <= MAXARG)%nat → place (U + PGSIZE) (U + 2 * PGSIZE) lens = Some (sp, ptrs) →
  let sp' := sp - 4 * (3 + Z.of_nat (length lens) + 1) in
  stack_plan (U + PGSIZE) lens = if sp' <? U + PGSIZE then None else Some (sp', ptrs).
Proof.
  intros Hl Epl sp'. unfold stack_plan. destruct (Nat.ltb_spec MAXARG (length lens)); [lia|].
  replace (U + PGSIZE + PGSIZE) with (U + 2 * PGSIZE) by lia. rewrite Epl.
  by replace (sp - (3 + Z.of_nat (length lens) + 1) * 4) with sp' by (unfold sp'; lia).
Qed.

(** The last copy, and the commitment. *)
Lemma finish_stack_spec path k0 (s : exst F) free0 free d U segs eip sp ptrs args i b :
  stacked kend K k0 (km s) free0 free d U segs → in_use k0 free0 (pgdir (xp s)) → ready s i b →
  place (U + PGSIZE) (U + 2 * PGSIZE) (map snd args) = Some (sp, ptrs) → Forall (λ x, 0 <= x.2) args →
  (length args <= MAXARG)%nat → Forall2 (string_at (kmem k0) (kmem (km s)) d) ptrs args →
  let argc := Z.of_nat (length ptrs) in
  ∃ r s', (on_k (on_mem (put_words ustack ([0xffffffff; argc; u32 (sp - (argc + 1) * 4)] ++ ptrs ++ [0]))) ;;;
           let sp := u32 (sp - (3 + argc + 1) * 4) in
           r <- on_k (copyout d sp ustack ((3 + argc + 1) * 4)) ;;
           if r <? 0 then bad kend d None else commit_image kend ts_addr path d (U + 2 * PGSIZE) eip sp) s = Ret r s' ∧
    xf s' = xf s ∧ xout s' = xout s ∧
    (r = -1 ∧ (∃ k', s' = with_k k' s ∧ restored k0 k' free0 (pgdir (xp s))) ∧ stack_plan (U + PGSIZE) (map snd args) = None ∨
     r = 0 ∧ replaced k0 (xp s) free0 eip U segs args s').
Proof.
  intros St Hu Hrd Epl Hn Hmax Hstr argc. destruct (st_range _ _ _ _ _ _ _ _ _ St) as (H0 & Hal & Hk).
  assert (Hal4 : (U + PGSIZE) mod 4 = 0 ∧ (U + 2 * PGSIZE) mod 4 = 0) by (unfold PGSIZE in *; Z.div_mod_to_equations; lia).
  destruct (place_bounds (U + PGSIZE) (map snd args) (U + 2 * PGSIZE) sp ptrs) as (Hsp & Hsp4 & Hlen & Hf);
    [apply Hal4|unfold PGSIZE; lia|apply Hal4|by apply Forall_map|done|].
  apply Forall2_fmap_r in Hf. rewrite length_map in Hlen. assert (Hargc : argc = Z.of_nat (length args)) by (unfold argc; lia).
  destruct (iu_K _ _ _ Hu) as [HKf _]. set (sp' := sp - 4 * (3 + argc + 1)).
  replace (u32 (sp - (3 + argc + 1) * 4)) with sp' by (rewrite u32_small; unfold sp', MAXARG, PGSIZE, KERNBASE in *; lia).
  replace (u32 (sp - (argc + 1) * 4)) with (sp' + 12) by (rewrite u32_small; unfold sp', MAXARG, PGSIZE, KERNBASE in *; lia).
  change ([0xffffffff; argc; sp' + 12] ++ ptrs ++ [0]) with (stack_words sp' ptrs). replace ((3 + argc + 1) * 4) with (4 * (3 + argc + 1)) by lia.
  destruct (push_words kend K HK k0 (km s) free0 free d U segs ustack sp ptrs St HKf Hlo Hhi ltac:(lia) ltac:(lia) _ eq_refl) as [St1 Hc].
  fold argc sp' in Hc. unfold put_words. set (k1 := KState _ _ _ _) in *.
  unfold bind at 1. rewrite (on_k_ret _ tt k1) by done. cbv zeta.
  assert (Eplan : stack_plan (U + PGSIZE) (map snd args) = if sp' <? U + PGSIZE then None else Some (sp', ptrs)).
  { rewrite (stack_plan_eq _ _ sp ptrs) by (rewrite ?length_map; done). rewrite length_map, <- Hargc. done. }
  unfold bind at 1. destruct (sp' <? U + PGSIZE) eqn:Elt.
  - rewrite (on_k_ret _ (-1) k1) by exact Hc. rewrite with_k_twice. change (-1 <? 0) with true. cbv iota.
    destruct (bad_spec k0 (with_k k1 s) free0 free d Hu (st_build _ _ _ _ _ _ _ _ _ St1)) as (k' & E & Hr).
    unfold bad, bind at 1. rewrite E. exists (-1), (with_k k' s). split; [done|]. split; [done|]. split; [done|]. left. eauto.
  - destruct Hc as (k2 & E2 & St2 & Hub & Hw). rewrite (on_k_ret _ 0 k2) by exact E2. rewrite with_k_twice. cbn [Z.ltb Z.compare].
    destruct (commit_image_spec path k0 (with_k k2 s) free0 free d (U + 2 * PGSIZE) eip sp' i b Hu) as (s' & E & Hxf & Hxo & Hcr & Hrn & free' & Kd & Hown);
      [apply St2|by destruct Hrd|]. exists 0, s'. split; [exact E|]. split; [done|]. split; [done|]. right. split; [done|].
    exists sp', ptrs, d, free'. split; [done|]. split; [done|]. split; [done|]. split; [apply Kd|]. split; [done|].
    apply Z.ltb_ge in Elt. apply (stacked_program k0 k2 free0 free); try done; try lia; [apply Kd| | | |].
    + intros a Ha. apply (kp_ub _ _ _ _ _ Kd); [lia|]. by apply (stacked_present _ _ _ _ _ _ _ _ _ _ St2).
    + eapply Forall2_impl; [exact Hf|]. cbn. lia.
    + eapply strings_keep; [exact Hstr|exact Hf|exact Hub].
    + rewrite <- Hargc. intros j Hj. apply Hw. rewrite (proj1 (words_bytes _)). unfold stack_words. rewrite !length_app. cbn [length]. fold argc. lia.
Qed.

Definition stack_outcome (k0 : kstate) (s : exst F) (free0 : list Z) (eip U : Z) (segs : list segment) (args : list (Z * Z))
    (r : Z) (s' : exst F) : Prop :=
  r = -1 ∧ (∃ k', s' = with_k k' s ∧ restored k0 k' free0 (pgdir (xp s))) ∧
    (KERNBASE <= U + 2 * PGSIZE ∨ short free0 (U + 2 * PGSIZE) ∨ stack_plan (U + PGSIZE) (map snd args) = None) ∨
  r = 0 ∧ U + 2 * PGSIZE < KERNBASE ∧ replaced k0 (xp s) free0 eip U segs args s'.

Lemma make_stack_spec path k0 (s : exst F) free0 free d size segs elf args i b :
  loaded kend K k0 (km s) free0 free d size segs → in_use k0 free0 (pgdir (xp s)) → ready s i b →
  Forall (argument_ok (kmem k0) (sz (xp s))) args →
  let U := PGROUNDUP size in
  ∃ r s', make_stack kend ts_addr ustack path (map fst args) elf d size s = Ret r s' ∧ xf s' = xf s ∧ xout s' = xout s ∧
    stack_outcome k0 s free0 (entry elf) U segs args r s'.
Proof.
  intros L Hu Hrd Ha U. pose proof (vo_k _ _ _ _ (iu_ok _ _ _ Hu)) as Hk0.
  destruct (make_room kend Hkend K k0 (km s) free0 free d size segs L (kinv_nodup _ _ _ Hk0)) as (r & k1 & free1 & E1 & B1 & Hr).
  fold U in E1, Hr. unfold make_stack. fold U. unfold bind at 1. rewrite (on_k_ret _ _ _ _ E1).
  assert (Hbad : ∀ k, building kend K k0 k free0 free1 d →
    (KERNBASE <= U + 2 * PGSIZE ∨ short free0 (U + 2 * PGSIZE) ∨ stack_plan (U + PGSIZE) (map snd args) = None) →
    ∃ r s', bad kend d None (with_k k s) = Ret r s' ∧ xf s' = xf s ∧ xout s' = xout s ∧
      stack_outcome k0 s free0 (entry elf) U segs args r s').
  { intros k B Hwhy. destruct (bad_spec k0 (with_k k s) free0 free1 d Hu B) as (k' & E & Hr').
    unfold bad, bind at 1. rewrite E. exists (-1), (with_k k' s). split; [done|]. split; [done|]. split; [done|]. left. eauto. }
  destruct Hr as [(-> & Hwhy)|(-> & HUk & k2 & E2 & St)].
  { rewrite Z.eqb_refl. apply Hbad; [done|tauto]. }
  destruct (st_range _ _ _ _ _ _ _ _ _ St) as (H0 & Hal & _).
  destruct (Z.eqb_spec (U + 2 * PGSIZE) 0); [unfold PGSIZE in *; lia|].
  unfold bind at 1. rewrite (on_k_ret _ tt k2) by exact E2. rewrite with_k_twice.
  destruct (push_args_spec kend K HK k0 free0 free1 d U segs args (U + 2 * PGSIZE) [] (with_k k2 s) St Hk0 Ha) as (r & k3 & E3 & B3 & Hm);
    [apply Hrd|unfold PGSIZE; lia|unfold PGSIZE in *; Z.div_mod_to_equations; lia|cbn; lia|].
  unfold bind at 1. rewrite E3, with_k_twice.
  destruct (place (U + PGSIZE) (U + 2 * PGSIZE) (map snd args)) as [[sp ptrs]|] eqn:Epl.
  2:{ subst r. apply Hbad; [done|]. right. right. unfold stack_plan. replace (U + PGSIZE + PGSIZE) with (U + 2 * PGSIZE) by lia.
      rewrite Epl. by destruct (_ <? _)%nat. }
  cbn [length plus app] in Hm. destruct (Nat.ltb_spec MAXARG (length args)) as [Hmany|Hfew].
  { subst r. apply Hbad; [done|]. right. right. unfold stack_plan. rewrite length_map.
    by destruct (Nat.ltb_spec MAXARG (length args)); [|lia]. }
  destruct Hm as (-> & St3 & _ & Hstr).
  destruct (finish_stack_spec path k0 (with_k k3 s) free0 free1 d U segs (entry elf) sp ptrs args i b St3 Hu) as (r & s' & E & Hxf & Hxo & Hr);
    try done; [by destruct Hrd| |].
  { eapply Forall_impl; [exact Ha|]. by intros x ((? & _) & _). }
  exists r, s'. split; [exact E|]. split; [done|]. split; [done|].
  destruct Hr as [(-> & (k' & -> & Hr) & Hpl)|(-> & Hr)]; [left|right; done]. split; [done|]. split; [by exists k'|]. auto.
Qed.

(** ** The call *)

(** The file calls of [exec] for [path]: no such file, or one with contents
    [bs]; [f'] is the state of the file system after them. *)
Inductive opens (path : list Z) (f : F) : option (list Z) → F → Prop :=
| opens_none f1 f2 f' :
    x_begin_op f = inr (tt, f1) → x_namei path f1 = inr (None, f2) → x_end_op f2 = inr (tt, f') → opens path f None f'
| opens_some ip f1 f2 f3 f4 f' :
    x_begin_op f = inr (tt, f1) → x_namei path f1 = inr (Some ip, f2) → x_ilock ip f2 = inr (tt, f3) →
    x_iunlockput ip f3 = inr (tt, f4) → x_end_op f4 = inr (tt, f') → opens path f (Some (x_contents f3 ip)) f'.

(** Why a call fails. *)
Definition cannot_load (file : option (list Z)) (free : list Z) (lens : list Z) : Prop :=
  match file with
  | None => True
  | Some bs =>
      match exec_plan bs with
      | None => True
      | Some (_, size, _) => stack_plan (PGROUNDUP size + PGSIZE) lens = None ∨ short free (PGROUNDUP size + 2 * PGSIZE)
      end
  end.

Definition with_f (f : F) (s : exst F) : exst F := EX (xv s) f (xp s) (xout s).

Lemma on_f_bind {A B} (c : call F A) (m : A → M (exst F) B) s a f :
  c (xf s) = inr (a, f) → (x <- on_f c ;; m x) s = m a (with_f f s).
Proof. intros E. unfold bind, on_f. by rewrite E. Qed.

(** [bad] with the file still open. *)
Lemma bad_open (s : exst F) d k' ip f4 f5 :
  (when negb (d =? 0) do on_k (freevm kend d)) s = Ret tt (with_k k' s) →
  x_iunlockput ip (xf s) = inr (tt, f4) → x_end_op f4 = inr (tt, f5) →
  bad kend d (Some ip) s = Ret (-1) (with_f f5 (with_k k' s)).
Proof.
  intros E E4 E5. unfold bad, bind at 1. rewrite E. unfold bind at 1. rewrite (on_f_bind _ _ _ tt f4) by exact E4.
  unfold on_f. cbn [xf with_f]. rewrite E5. done.
Qed.

Lemma loaded_empty k0 k free0 free d :
  from_free kend k0 k free0 free d → (∀ v, 0 <= v < 2^19 → has (pte (kmem k) d v) PTE_P = false) →
  mapped (kmem k) d (kmap data) (kregions data) → loaded kend K k0 k free0 free d 0 [].
Proof.
  intros [Hok Hw Ho] Hn Hm. split; [split; try done| | |by eapply mapped_devices|unfold KERNBASE; lia].
  - intros x Hx. apply Ho. intros p Hp. apply Hx. by left.
  - intros v Hv. destruct (Z.ltb_spec (PGSIZE * v) 0); [unfold PGSIZE in *; lia|]. by apply Hn.
  - split; [|done]. intros a Ha Hlt. assert (0 <= a / PGSIZE) by (apply Z.div_pos; [lia|done]). unfold PGSIZE in *. lia.
Qed.

(** What a call for the file [bs] comes to. *)
Definition exec_outcome (file : option (list Z)) (args : list (Z * Z)) (free : list Z) (s : exst F) (r : Z) (s' : exst F) : Prop :=
  r = -1 ∧ cannot_load file free (map snd args) ∧ xp s' = xp s ∧ xv s' = with_vk (km s') (xv s) ∧
    restored (km s) (km s') free (pgdir (xp s)) ∨
  r = 0 ∧ ∃ bs eip size segs, file = Some bs ∧ exec_plan bs = Some (eip, size, segs) ∧
    replaced (km s) (xp s) free eip (PGROUNDUP size) segs args s'.

(** From the empty address space on. *)
Lemma load_spec path (s : exst F) k1 free0 free d elf args ip f4 f' i b :
  let bs := x_contents (xf s) ip in
  Forall (λ b, 0 <= b < 256) bs → Z.of_nat (length bs) < 2^31 →
  exec_plan bs = match load_plan (Z.to_nat (phnum elf)) bs (phoff elf) 0 with
                 | Some (size, segs) => if KERNBASE <=? PGROUNDUP size + 2 * PGSIZE then None else Some (entry elf, size, segs)
                 | None => None
                 end →
  loaded kend K (km s) k1 free0 free d 0 [] → in_use (km s) free0 (pgdir (xp s)) → ready s i b →
  x_iunlockput ip (xf s) = inr (tt, f4) → x_end_op f4 = inr (tt, f') → Forall (argument_ok (kmem (km s)) (sz (xp s))) args →
  ∃ r s', (l <- load_loop kend (Z.to_nat (phnum elf)) ip d (phoff elf) 0 ;;
           match l with
           | None => bad kend d (Some ip)
           | Some sz =>
               on_f (x_iunlockput ip) ;;;
               on_f x_end_op ;;;
               make_stack kend ts_addr ustack path (map fst args) elf d sz
           end) (with_k k1 s) = Ret r s' ∧ xf s' = f' ∧ xout s' = xout s ∧ exec_outcome (Some bs) args free0 s r s'.
Proof.
  intros bs Hb Hl Eplan L Hu Hrd E4 E5 Ha.
  destruct (load_loop_spec kend Hkend K ip d (km s) free0 (Z.to_nat (phnum elf)) (phoff elf) 0 (with_k k1 s) free [] Hb Hl)
    as (l & k2 & free2 & E & B & Hload); [apply (kinv_nodup kend (km s)), Hu|done|].
  unfold bind at 1. rewrite E, with_k_twice. cbn [xf with_k] in Hload. fold bs in Hload. destruct l as [size|].
  - destruct Hload as (segs & Ep & L2). cbn [app] in L2. rewrite Ep in Eplan.
    rewrite (on_f_bind _ _ _ tt f4) by exact E4. rewrite (on_f_bind _ _ _ tt f') by exact E5.
    destruct (make_stack_spec path (km s) (with_f f' (with_k k2 s)) free0 free2 d size segs elf args i b L2 Hu)
      as (r & s' & Es & Hxf & Hxo & Ho); [by destruct Hrd|done|].
    exists r, s'. split; [exact Es|]. split; [done|]. split; [done|].
    destruct Ho as [(-> & (k' & -> & Hr) & Hwhy)|(-> & Hk & Hr)]; [left|right].
    + split; [done|]. split; [|by split_and!]. unfold cannot_load. rewrite Eplan.
      destruct (Z.leb_spec KERNBASE (PGROUNDUP size + 2 * PGSIZE)); [done|]. destruct Hwhy as [?|[?|?]]; [lia|by right|by left].
    + split; [done|]. exists bs, (entry elf), size, segs. split; [done|]. split; [|done].
      by destruct (Z.leb_spec KERNBASE (PGROUNDUP size + 2 * PGSIZE)) in Eplan; [lia|].
  - destruct (bad_spec (km s) (with_k k2 s) free0 free2 d Hu B) as (k' & Ebad & Hr).
    rewrite (bad_open _ d k' ip f4 f') by done. eexists _, _. split; [reflexivity|]. split; [done|]. split; [done|]. left.
    split; [done|]. split; [|by split_and!]. unfold cannot_load. rewrite Eplan.
    destruct (load_plan _ bs _ 0) as [[size segs]|] eqn:Ep; [|done]. destruct (Z.leb_spec KERNBASE (PGROUNDUP size + 2 * PGSIZE)); [done|].
    right. apply (short_mono free0 size); [by apply (Hload size segs)|].
    apply load_plan_range in Ep as [? Hlt]. pose proof (pgup_range size). unfold KERNBASE, PGSIZE in *. lia.
Qed.

(** No address space at all. *)
Lemma setup_fails bs args free (s : exst F) k1 free1 f' :
  in_use (km s) free (pgdir (xp s)) → given_back kend (km s) k1 free free1 → (length free <= 1026)%nat →
  exec_outcome (Some bs) args free s (-1) (with_f f' (with_k k1 s)).
Proof.
  intros Hu [Hk1 Hf1 Ho1] Hsh. left. split; [done|]. split.
  - unfold cannot_load, exec_plan. set (elf := get_elfhdr _). destruct (_ || _); [done|].
    destruct (load_plan _ bs _ 0) as [[size segs]|] eqn:El; [|done]. destruct (_ <=? _); [done|]. right.
    apply load_plan_range in El as [? Hlt]. pose proof (pgup_range size). exists 0. unfold KERNBASE, PGSIZE in *. lia.
  - split; [done|]. split; [done|]. exists free1. split; [|done].
    apply (old_kept (km s) k1 free); try done; [|by intros p ?%Hf1]. intros x Hx. apply Ho1. intros p Hp. apply Hx. by left.
Qed.

(** C8. [exec]: the call returns 0 or -1. With 0 the process runs in a new
    address space, in which the segments of the file are at their addresses with
    zeros between them, the page below the stack is closed, and the stack holds
    the argument strings and the words that [main] expects; the pages of the old
    address space are free. With -1 process and processors are as before, the old
    address space is untouched and the same pages are free; and then there is no
    such file, or it is no program that fits below the kernel, or the arguments do
    not fit on a page, or there are fewer free pages than image, guard page and
    stack take with 1026 more for directory and tables. The file is closed in
    every case. Each argument is a string of the process of at most 32 megabytes;
    what does not fit on a page is found when it is copied, also when it reaches
    into the image or wraps around to the devices. *)
Theorem exec_replaces_or_restores path args file f' (s : exst F) free i b :
  in_use (km s) free (pgdir (xp s)) → ready s i b → opens path (xf s) file f' →
  (∀ bs, file = Some bs → Forall (λ b, 0 <= b < 256) bs ∧ Z.of_nat (length bs) < 2^31) →
  Forall (argument_ok (kmem (km s)) (sz (xp s))) args →
  ∃ r s', exec kend data ts_addr ustack path (map fst args) s = Ret r s' ∧ xf s' = f' ∧ exec_outcome file args free s r s'.
Proof.
  intros Hu Hrd Hop Hfile Ha. pose proof (vo_k _ _ _ _ (iu_ok _ _ _ Hu)) as Hk0. unfold exec.
  assert (Hsame : restored (km s) (km s) free (pgdir (xp s))).
  { exists free. split; [|done]. apply (old_kept (km s) (km s) free); try done. }
  destruct Hop as [f1 f2 f' E1 E2 E3|ip f1 f2 f3 f4 f' E1 E2 E3 E4 E5].
  { rewrite (on_f_bind _ _ _ _ _ E1), (on_f_bind _ _ _ None f2) by exact E2. rewrite (on_f_bind _ _ _ tt f') by exact E3.
    eexists _, _. split; [reflexivity|]. split; [done|]. left. split; [done|]. split; [done|]. split; [done|]. split; [|done].
    by destruct s as [[] ? ? ?]. }
  rewrite (on_f_bind _ _ _ _ _ E1), (on_f_bind _ _ _ (Some ip) f2) by exact E2. rewrite (on_f_bind _ _ _ tt f3) by exact E3.
  destruct (Hfile _ eq_refl) as [Hb Hl]. clear Hfile. unfold bind at 1, read_local, gets. cbn [xf with_f].
  set (bs := x_contents f3 ip) in *. set (rd := file_readi bs 0 sizeof_elfhdr). set (elf := get_elfhdr rd.2).
  set (s3 := with_f f3 (with_f f2 (with_f f1 s))).
  assert (Hstop : exec_plan bs = None → ∃ r s', bad kend 0 (Some ip) s3 = Ret r s' ∧ xf s' = f' ∧ exec_outcome (Some bs) args free s r s').
  { intros En. rewrite (bad_open s3 0 (km s3) ip f4 f') by (done || by rewrite with_k_id).
    eexists _, _. split; [reflexivity|]. split; [done|]. left. unfold cannot_load. rewrite En. split_and!; try done. }
  assert (Eplan := eq_refl (exec_plan bs)). unfold exec_plan at 2 in Eplan. fold rd elf in Eplan.
  destruct (negb (rd.1 =? sizeof_elfhdr)); [by apply Hstop|]. cbn [orb] in Eplan.
  destruct (negb (magic elf =? ELF_MAGIC)); [by apply Hstop|].
  destruct (setupkvm_spec kend data Hkend (km s) free Hdata Hk0) as (d & k1 & free1 & E & Hc).
  unfold bind at 1. rewrite (on_k_ret _ d k1) by exact E. destruct Hc as [(Hd0 & Hff & Hlow & Hmap)|(-> & Hgb & Hsh)].
  - destruct (Z.eqb_spec d 0); [done|].
    destruct (load_spec path s3 k1 free free1 d elf args ip f4 f' i b Hb Hl Eplan) as (r & s' & Er & Hxf & _ & Ho); try done;
      [by apply loaded_empty|by destruct Hrd|]. exists r, s'. split; [exact Er|]. by split.
  - rewrite Z.eqb_refl. rewrite (bad_open (with_k k1 s3) 0 k1 ip f4 f') by done.
    eexists _, _. split; [reflexivity|]. split; [done|]. by apply (setup_fails bs args free s k1 free1 f').
Qed.

End ExecProps.
