(* ===== verification/ExecExample.v ===== *)
(** * A program is run

    A file with one segment, on a machine with enough free pages. *)

From S2P Require Import Prelude Memory KString Spinlock Kalloc Layout FsLayout Proc Vm VmTables VmSpec VmFree VmProps Cpu Exec ExecMem ExecLoad ExecStack ExecProps.

(** ** Free pages *)

Definition pool : Z := 0x80400000.
Definition npool : Z := 1100.
Definition pool_page (i : Z) : Z := pool + PGSIZE * i.

(** Every page of the pool starts with the address of the next; the running
    process has the string [a] at address 100. *)
Definition pool_mem : mem := λ x,
  let i := (x - pool) / PGSIZE in
  let o := (x - pool) mod PGSIZE in
  if (0 <=? i) && (i <? npool - 1) && (o <? 4) then byte_at (pool_page (i + 1)) o
  else if x =? 100 then 97 else 0.

Definition pool_state : kstate := KState false true pool pool_mem.
Definition pool_pages : list Z := map pool_page (seqZ 0 npool).

Lemma pool_mem_at i o : 0 <= i < npool → 0 <= o < 4 →
  pool_mem (pool_page i + o) = if i <? npool - 1 then byte_at (pool_page (i + 1)) o else 0.
Proof.
  intros Hi Ho. unfold pool_mem, pool_page. destruct (page_split i o) as [E1 E2]; [unfold PGSIZE; lia|].
  replace (pool + PGSIZE * i + o - pool) with (PGSIZE * i + o) by lia. rewrite E1, E2.
  unfold pool, PGSIZE. zcases.
Qed.

Lemma pool_next i : 0 <= i < npool → load32 pool_mem (pool_page i) = if i <? npool - 1 then pool_page (i + 1) else 0.
Proof.
  intros Hi. unfold load32. rewrite <- (Z.add_0_r (pool_page i)) at 1. rewrite !pool_mem_at by (done || lia).
  destruct (i <? npool - 1); [|done]. rewrite bytes_of_word. apply u32_small. unfold pool_page, pool, npool, PGSIZE in *. lia.
Qed.

Lemma pool_chain n : ∀ i, 0 <= i → i + Z.of_nat n = npool →
  chain pool_mem (if (n =? 0)%nat then 0 else pool_page i) (map pool_page (seqZ i (Z.of_nat n))).
Proof.
  induction n as [|n IH]; intros i Hi Hn; [done|]. rewrite seqZ_cons by lia. cbn [map chain Nat.eqb]. split; [done|].
  rewrite pool_next by lia. replace (Z.pred (Z.of_nat (S n))) with (Z.of_nat n) by lia. replace (Z.succ i) with (i + 1) by lia.
  specialize (IH (i + 1) ltac:(lia) ltac:(lia)). destruct (Z.ltb_spec i (npool - 1)), (Nat.eqb_spec n 0); try lia; done.
Qed.

Lemma pool_elem p : p ∈ pool_pages → ∃ i, 0 <= i < npool ∧ p = pool_page i.
Proof.
  intros (i & -> & Hi%elem_of_seqZ)%list_elem_of_fmap. exists i. split; [lia|done].
Qed.

Lemma pool_inv : kinv kend0 pool_state pool_pages.
Proof.
  split; cbn [kmem freelist kmem_lock pool_state]; [apply (pool_chain (Z.to_nat npool) 0); done| | | |done].
  - apply NoDup_fmap_2; [|apply NoDup_seqZ]. intros i j. unfold pool_page, PGSIZE. lia.
  - apply Forall_forall. intros p (i & Hi & ->)%pool_elem. unfold npool in Hi.
    unfold page_ok, pool_page, pool, PGSIZE, kend0, V2P, u32, KERNBASE, PHYSTOP. Z.div_mod_to_equations. lia.
  - intros x. unfold pool_mem. destruct (_ && _); [apply byte_at_range|]. zcases.
Qed.


(** ** The file, and the process that calls *)

Definition prog_file : list Z :=
  concat (map bytes32 [ELF_MAGIC; 0; 0; 0; 0; 0; 0; 52; 0; 0; 0; 1; 0]) ++
  concat (map bytes32 [ELF_PROG_LOAD; 84; 0; 0; 3; 16; 0; 0]) ++ [235; 254; 144].

(** The number of open transactions and references. *)
#[local] Instance one_file : ExecFs Z unit := {|
  x_begin_op f := inr (tt, f + 1);
  x_namei path f := inr (if decide (path = [47; 105]) then (Some tt, f + 1) else (None, f));
  x_ilock _ f := inr (tt, f);
  x_contents _ _ := prog_file;
  x_iunlockput _ f := inr (tt, f - 1);
  x_end_op f := inr (tt, f - 1) |}.

Definition ex_dir : Z := 0x80300000.
Definition ex_stack : Z := 0x80301000.
Definition ex_ts (i : nat) : Z := 0x80112000.

Definition ex_state : exst Z :=
  EX (VM pool_state 0x80302000 [CpuInfo 0 (replicate NSEGS inhabitant) 0 0 0] 0 (V2P ex_dir) None 0 (Cpu true 0 false))
    0 (set_pgdir ex_dir (set_sz 4096 (set_kstack ex_stack proc_zero))) [].

Lemma ex_apart p : p ∈ pool_pages → p ≠ ex_dir ∧ p ≠ ex_stack.
Proof. intros (i & Hi & ->)%pool_elem. unfold pool_page, pool, PGSIZE, ex_dir, ex_stack. lia. Qed.

Lemma ex_in_use : in_use kend0 ex_stack pool_state pool_pages ex_dir.
Proof.
  destruct (empty_vm kend0 pool_state pool_pages ex_dir pool_inv) as (H & _ & Hown & _).
  - repeat split; done.
  - intros Hp. by apply ex_apart in Hp as [? _].
  - intros x Hx. unfold in_page, ex_dir, PGSIZE in Hx. cbn [kmem pool_state]. unfold pool_mem, pool, PGSIZE.
    destruct (Z.leb_spec 0 ((x - 0x80400000) / 4096)) as [Hi|]; cbn [andb].
    + exfalso. revert Hi. Z.div_mod_to_equations. lia.
    + destruct (Z.eqb_spec x 100); [lia|done].
  - split; [exact H|]. split; [intros Hp; by apply ex_apart in Hp as [_ ?]|]. by intros ?%Hown.
Qed.

Lemma ex_ready : ready ex_ts ex_state 0 true.
Proof.
  split; cbn; try done.
  split; [cbn; lia|]. split; [done|]. intros [|j] Hj; cbn in *; [done|lia].
Qed.

Lemma ex_opens : opens [47; 105] (xf ex_state) (Some prog_file) 0.
Proof. exact (opens_some [47; 105] 0 tt 1 2 2 1 0 eq_refl eq_refl eq_refl eq_refl eq_refl). Qed.

Lemma ex_file bs : Some prog_file = Some bs → Forall (λ b, 0 <= b < 256) bs ∧ Z.of_nat (length bs) < 2^31.
Proof.
  intros [= <-]. split; [|done]. unfold prog_file. rewrite !Forall_app. split; [apply words_bytes|]. split; [apply words_bytes|].
  repeat constructor; lia.
Qed.

Lemma ex_args : Forall (argument_ok pool_mem 4096) [(100, 1)].
Proof.
  repeat constructor; cbn; try done. intros i Hi. assert (i = 0) as -> by lia. done.
Qed.

(** [exec("/i", ["a"])] runs the file: its first byte, the stack pointer and the
    argument are where they should be, and nothing stays open. *)
Lemma exec_replaces_or_restores_witness :
  ∃ s', exec kend0 data0 ex_ts (ex_stack + 2048) [47; 105] [100] ex_state = Ret 0 s' ∧ xf s' = 0 ∧
    tf_esp (frame (xp s')) = 12264 ∧ ub (kmem (km s')) (pgdir (xp s')) 0 = 235 ∧ ub (kmem (km s')) (pgdir (xp s')) 12284 = 97.
Proof.
  destruct (exec_replaces_or_restores kend0 data0 kend0_ok ltac:(split; [reflexivity|]; unfold KERNLINK, KERNBASE, EXTMEM, PHYSTOP, data0; lia)
    ex_ts ex_stack (ex_stack + 2048) ltac:(repeat split; done) ltac:(lia) ltac:(unfold ex_stack, MAXARG, PGSIZE; lia)
    [47; 105] [(100, 1)] (Some prog_file) 0 ex_state pool_pages 0 true ex_in_use ex_ready ex_opens ex_file ex_args) as (r & s' & E & Hf & Ho).
  exists s'. destruct Ho as [(_ & Hwhy & _)|(-> & bs & eip & size & segs & [= <-] & Ep & sp & ptrs & d & free' & Es & Hr & _ & _ & _ & Hp)].
  - exfalso. unfold cannot_load in Hwhy. change (exec_plan prog_file) with (Some (0, 16, [Seg 0 [235; 254; 144]])) in Hwhy.
    cbn iota beta in Hwhy. change (PGROUNDUP 16) with 4096 in Hwhy.
    destruct Hwhy as [Hs|(n & Hn & Hl)]; [by vm_compute in Hs|].
    change (length pool_pages) with (length (map pool_page (seqZ 0 npool))) in Hl. rewrite length_map, length_seqZ in Hl.
    unfold npool, PGSIZE in *. lia.
  - change (exec_plan prog_file) with (Some (0, 16, [Seg 0 [235; 254; 144]])) in Ep. injection Ep as <- <- <-.
    change (PGROUNDUP 16) with 4096 in *. change (stack_plan (4096 + PGSIZE) (map snd [(100, 1)])) with (Some (12264, [12284])) in Es.
    injection Es as <- <-. destruct Hr as [Hd _ _ Hsp _ _], Hp as [_ Hi Hstr _]. rewrite Hd. split; [exact E|]. split; [exact Hf|].
    split; [exact Hsp|]. split; [rewrite Hi by lia; reflexivity|].
    apply Forall2_cons in Hstr as [Hstr _]. specialize (Hstr 0 ltac:(cbn; lia)). rewrite Z.add_0_r in Hstr. rewrite Hstr. reflexivity.
Defined.
