(* ===== verification/Kbd.v ===== *)
(** * Keyboard and serial port (xv6A1/kbd.c, kbd.h, uart.c)

    [kbdgetc] turns scan codes into characters, keeping the state of the shift,
    control, caps-lock and similar keys between calls. What the controller has
    to offer is the list of codes in its buffer. *)

From S2P Require Import Prelude.

(** A [uchar[256]] from its first elements and its designated ones. *)
Definition table (l : list Z) (designated : list (Z * Z)) : list Z :=
  foldl (λ t e, <[Z.to_nat e.1 := e.2]> t) (l ++ replicate (256 - length l) 0) designated.

Definition SHIFT : Z := 1.
Definition CTL : Z := 2.
Definition ALT : Z := 4.
Definition CAPSLOCK : Z := 8.
Definition NUMLOCK : Z := 16.
Definition SCROLLLOCK : Z := 32.
Definition E0ESC : Z := 64.

Definition shiftcode : list Z := table [] [(0x1D, CTL); (0x2A, SHIFT); (0x36, SHIFT); (0x38, ALT); (0x9D, CTL); (0xB8, ALT)].
Definition togglecode : list Z := table [] [(0x3A, CAPSLOCK); (0x45, NUMLOCK); (0x46, SCROLLLOCK)].

Definition normalmap : list Z := table
  [0; 27; 49; 50; 51; 52; 53; 54; 55; 56; 57; 48; 45; 61; 8; 9;
   113; 119; 101; 114; 116; 121; 117; 105; 111; 112; 91; 93; 10; 0; 97; 115;
   100; 102; 103; 104; 106; 107; 108; 59; 39; 96; 0; 92; 122; 120; 99; 118;
   98; 110; 109; 44; 46; 47; 0; 42; 0; 32; 0; 0; 0; 0; 0; 0;
   0; 0; 0; 0; 0; 0; 0; 55; 56; 57; 45; 52; 53; 54; 43; 49;
   50; 51; 48; 46; 0; 0; 0; 0]
  [(0x9c, 0xa); (0xb5, 0x2f); (0xc8, 0xe2); (0xd0, 0xe3); (0xc9, 0xe6); (0xd1, 0xe7); (0xcb, 0xe4); (0xcd, 0xe5); (0x97, 0xe0); (0xcf, 0xe1); (0xd2, 0xe8); (0xd3, 0xe9)].

Definition shiftmap : list Z := table
  [0; 27; 33; 64; 35; 36; 37; 94; 38; 42; 40; 41; 95; 43; 8; 9;
   81; 87; 69; 82; 84; 89; 85; 73; 79; 80; 123; 125; 10; 0; 65; 83;
   68; 70; 71; 72; 74; 75; 76; 58; 34; 126; 0; 124; 90; 88; 67; 86;
   66; 78; 77; 60; 62; 63; 0; 42; 0; 32; 0; 0; 0; 0; 0; 0;
   0; 0; 0; 0; 0; 0; 0; 55; 56; 57; 45; 52; 53; 54; 43; 49;
   50; 51; 48; 46; 0; 0; 0; 0]
  [(0x9c, 0xa); (0xb5, 0x2f); (0xc8, 0xe2); (0xd0, 0xe3); (0xc9, 0xe6); (0xd1, 0xe7); (0xcb, 0xe4); (0xcd, 0xe5); (0x97, 0xe0); (0xcf, 0xe1); (0xd2, 0xe8); (0xd3, 0xe9)].

Definition ctlmap : list Z := table
  [0; 0; 0; 0; 0; 0; 0; 0; 0; 0; 0; 0; 0; 0; 0; 0;
   17; 23; 5; 18; 20; 25; 21; 9; 15; 16; 0; 0; 13; 0; 1; 19;
   4; 6; 7; 8; 10; 11; 12; 0; 0; 0; 0; 28; 26; 24; 3; 22;
   2; 14; 13; 0; 0; 239; 0; 0]
  [(0x9c, 0xd); (0xb5, 0xef); (0xc8, 0xe2); (0xd0, 0xe3); (0xc9, 0xe6); (0xd1, 0xe7); (0xcb, 0xe4); (0xcd, 0xe5); (0x97, 0xe0); (0xcf, 0xe1); (0xd2, 0xe8); (0xd3, 0xe9)].

Definition charcode : list (list Z) := [normalmap; shiftmap; ctlmap; ctlmap].

(** The static [shift], and the codes waiting in the controller. *)
Record kbd := Kbd { shift : Z; codes : list Z }.

(** [~x] of a [uint]. *)
Definition unot (x : Z) : Z := 2^32 - 1 - x.

(** The case of a letter changed. *)
Definition swap_case (c : Z) : Z :=
  if (97 <=? c) && (c <=? 122) then c - 32
  else if (65 <=? c) && (c <=? 90) then c + 32
  else c.

(** [kbdgetc] once it has read the code [data]. *)
Definition kbd_code (data sh : Z) : Z * Z :=
  if data =? 0xE0 then (0, Z.lor sh E0ESC)
  else if negb (Z.land data 0x80 =? 0) then
    let data := if negb (Z.land sh E0ESC =? 0) then data else Z.land data 0x7F in
    (0, Z.land sh (unot (Z.lor (shiftcode !!! Z.to_nat data) E0ESC)))
  else
    let esc := negb (Z.land sh E0ESC =? 0) in
    let data := if esc then Z.lor data 0x80 else data in
    let sh := if esc then Z.land sh (unot E0ESC) else sh in
    let sh := Z.lor sh (shiftcode !!! Z.to_nat data) in
    let sh := Z.lxor sh (togglecode !!! Z.to_nat data) in
    let c := (charcode !!! Z.to_nat (Z.land sh (Z.lor CTL SHIFT))) !!! Z.to_nat data in
    (if negb (Z.land sh CAPSLOCK =? 0) then swap_case c else c, sh).

Definition kbdgetc (k : kbd) : Z * kbd :=
  match codes k with
  | [] => (-1, k)
  | data :: rest => let r := kbd_code data (shift k) in (r.1, Kbd r.2 rest)
  end.

(** ** The serial port *)

(** Whether there is one, the bytes it received, and the bytes sent. *)
Record uartst := Uart { uart : bool; received : list Z; sent : list Z }.

Definition uartputc (c : Z) (s : uartst) : uartst :=
  if negb (uart s) then s else Uart (uart s) (received s) (sent s ++ [u8 c]).

Definition uartgetc (s : uartst) : Z * uartst :=
  if negb (uart s) then (-1, s)
  else match received s with
       | [] => (-1, s)
       | c :: r => (u8 c, Uart (uart s) r (sent s))
       end.

Definition greeting : list Z := [120; 118; 54; 46; 46; 46; 10].

(** [uartinit] with what the status register shows; it reads away one byte. *)
Definition uartinit (status : Z) (s : uartst) : uartst :=
  if u8 status =? 0xFF then s
  else foldl (λ s c, uartputc c s) (Uart true (drop 1 (received s)) (sent s)) greeting.

(** ** Interrupt sources

    What [consoleintr] relies on of the function it is given: each call that
    returns a character uses up something the device had to offer. *)

Class Source (G : Type) := {
  getc : G → Z * G;
  pending : G → nat;
  getc_progress : ∀ g, 0 <= (getc g).1 → (pending (getc g).2 < pending g)%nat }.

#[export] Program Instance kbd_source : Source kbd := {| getc := kbdgetc; pending k := length (codes k) |}.
Next Obligation. intros [sh [|c cs]]; cbn; lia. Qed.

#[export] Program Instance uart_source : Source uartst := {| getc := uartgetc; pending s := length (received s) |}.
Next Obligation. intros [[] [|c cs] o]; cbn; lia. Qed.

(** ** The keyboard state *)

Definition bytes : list Z := seqZ 0 256.

(** What a test on every byte and every shift state says. *)
Lemma byte_shift_all (P : Z → Z → bool) data sh :
  forallb (λ d, forallb (P d) (seqZ 0 128)) bytes = true →
  0 <= data < 256 → 0 <= sh < 128 → P data sh = true.
Proof.
  intros H Hd Hs. rewrite forallb_forall in H. specialize (H data). unfold bytes in H.
  rewrite <- list_elem_of_In, elem_of_seqZ in H. specialize (H ltac:(lia)). rewrite forallb_forall in H.
  apply H. rewrite <- list_elem_of_In, elem_of_seqZ. lia.
Qed.

Definition code_ok (d sh : Z) : bool :=
  let r := kbd_code d sh in
  (0 <=? r.1) && (r.1 <? 256) && (0 <=? r.2) && (r.2 <? 128).

Lemma kbd_code_range data sh : 0 <= data < 256 → 0 <= sh < 128 →
  0 <= (kbd_code data sh).1 < 256 ∧ 0 <= (kbd_code data sh).2 < 128.
Proof.
  intros Hd Hs. assert (H : code_ok data sh = true) by (apply byte_shift_all; [by vm_compute|done..]).
  unfold code_ok in H. zbool. lia.
Qed.

(** A key that is not a modifier; the release of key 0x60 would be the escape
    code. *)
Definition plain (k : Z) : bool :=
  (k <? 0x60) && (shiftcode !!! Z.to_nat k =? 0) && (togglecode !!! Z.to_nat k =? 0).

Definition typed (sh : Z) (cs : list Z) : list Z * Z :=
  foldl (λ a d, let r := kbd_code d a.2 in (a.1 ++ [r.1], r.2)) ([], sh) cs.

Definition held_shift_ok (k sh : Z) : bool :=
  if plain k && (Z.land sh (Z.lor SHIFT (Z.lor CTL E0ESC)) =? 0) then
    let c := shiftmap !!! Z.to_nat k in
    bool_decide (typed sh [0x2A; k; Z.lor k 0x80; 0xAA] =
      ([0; if Z.land sh CAPSLOCK =? 0 then c else swap_case c; 0; 0], sh))
  else true.

(** Pressing a key while a shift key is down gives the shifted character, and
    when both are up again the driver is in the state it was in. *)
Lemma held_shift k sh : 0 <= k < 256 → 0 <= sh < 128 → plain k = true →
  Z.land sh (Z.lor SHIFT (Z.lor CTL E0ESC)) = 0 →
  typed sh [0x2A; k; Z.lor k 0x80; 0xAA] =
    ([0; (let c := shiftmap !!! Z.to_nat k in if Z.land sh CAPSLOCK =? 0 then c else swap_case c); 0; 0], sh).
Proof.
  intros Hk Hs Hp E. assert (H : held_shift_ok k sh = true) by (apply byte_shift_all; [by vm_compute|done..]).
  unfold held_shift_ok in H. rewrite Hp, E in H. by apply bool_decide_eq_true in H.
Qed.
