(* ===== verification/Keyboard.v ===== *)
(** * What is typed (xv6A1/kbd.c, kbd.h)

    A keyboard with the US layout, as its user sees it: keys with characters on
    their caps, modifiers that are held down, locks that toggle. The driver
    decodes the scan codes of any sequence of key presses and releases to the
    characters that this keyboard types. *)

From S2P Require Import Prelude Kbd.

(** ** Keys *)











(** ** Typing *)

(** Shift, control and alternate, from the last press or release of such a key;
    and the locks. *)
Record mods := Mods { shifted : bool; control : bool; alternate : bool; caps : bool; nums : bool; scrolls : bool }.








(** ** The driver *)

(** Its shift state. *)
Definition shift_of (s : mods) : Z :=
  (if shifted s then SHIFT else 0) + (if control s then CTL else 0) + (if alternate s then ALT else 0) +
  (if caps s then CAPSLOCK else 0) + (if nums s then NUMLOCK else 0) + (if scrolls s then SCROLLLOCK else 0).

(** What the driver returns for a list of codes; 0 is no character. *)
Definition decodes (sh : Z) (cs : list Z) : list Z * Z :=
  let r := typed sh cs in (List.filter (λ c, negb (c =? 0)) r.1, r.2).



(** ** All keys and all modifiers *)






#[local] Instance mods_eq_dec : EqDecision mods.
Proof. solve_decision. Defined.








(** The Home key sends 0xE0 0x47, but the tables have its character at the place
    of 0xE0 0x17: it types nothing. *)
Theorem home_key_types_nothing s : decodes (shift_of s) [0xE0; 0x47] = ([], shift_of s).
Proof. destruct s as [[] [] [] [] [] []]; by vm_compute. Qed.
