(* ===== verification/Ulib.v ===== *)
(** * The C library of user programs (xv6A1/ulib.c)

    A pointer into a buffer or a string is the list of bytes from there to the
    end of the object it points into; reading or writing past that end is
    undefined, [None]. Bytes are 0 to 255. *)

From S2P Require Import Prelude Memory KString.

(** ** Strings *)

(** [strcpy(s, t)]: the contents of [s] afterwards. *)
Fixpoint strcpy (s t : list Z) : option (list Z) :=
  match t, s with
  | c :: t', _ :: s' => if c =? 0 then Some (0 :: s') else cons c <$> strcpy s' t'
  | _, _ => None
  end.

Fixpoint strcmp (p q : list Z) : option Z :=
  match p, q with
  | x :: p', y :: q' => if negb (x =? 0) && (x =? y) then strcmp p' q' else Some (x - y)
  | _, _ => None
  end.

Fixpoint ustrlen_loop (s : list Z) (n : Z) : option Z :=
  match s with
  | [] => None
  | c :: s' => if c =? 0 then Some n else ustrlen_loop s' (s32 (n + 1))
  end.
Definition ustrlen (s : list Z) : option Z := u32 <$> ustrlen_loop s 0.

(** [strchr(s, c)]: the distance from [s], or a null pointer. *)
Fixpoint strchr (s : list Z) (c : Z) : option (option nat) :=
  match s with
  | [] => None
  | x :: s' =>
      if x =? 0 then Some None
      else if x =? c then Some (Some 0%nat)
      else option_map (option_map S) (strchr s' c)
  end.

Fixpoint atoi_loop (s : list Z) (n : Z) : option Z :=
  match s with
  | [] => None
  | c :: s' => if (48 <=? c) && (c <=? 57) then atoi_loop s' (s32 (n * 10 + c - 48)) else Some n
  end.
Definition atoi (s : list Z) : option Z := atoi_loop s 0.

(** ** Memory *)

Definition umemset (m : mem) (dst c n : Z) : mem := stosb m dst c n.

(** [while(n-- > 0) *dst++ = *src++;], with [n] iterations to go. *)
Fixpoint umemmove_loop (m : mem) (dst src : Z) (n : nat) : mem :=
  match n with
  | O => m
  | S n' => umemmove_loop (store m dst (m src)) (dst + 1) (src + 1) n'
  end.
Definition umemmove (m : mem) (dst src n : Z) : mem := umemmove_loop m dst src (Z.to_nat n).

(** ** Input lines

    [read(fd, &c, 1)] takes the next byte of the input, or returns 0 or -1,
    which ends the line alike. *)

Definition is_eol (c : Z) : bool := (c =? 10) || (c =? 13).

(** [gets(buf, max)] with room for [n] more bytes before the NUL: what it
    stored, and the input left. *)
Fixpoint gets_loop (input : list Z) (n : nat) : list Z * list Z :=
  match n, input with
  | S n', c :: input' =>
      if is_eol c then ([c], input')
      else let r := gets_loop input' n' in (c :: r.1, r.2)
  | _, _ => ([], input)
  end.
Definition ugets (buf : list Z) (max : Z) (input : list Z) : option (list Z * list Z) :=
  let r := gets_loop input (Z.to_nat (max - 1)) in
  if (length r.1 <? length buf)%nat then Some (r.1 ++ 0 :: drop (S (length r.1)) buf, r.2) else None.

(** [getline(buf, len, fd)] has no bound of its own. *)
Definition getline (buf : list Z) (input : list Z) : option (list Z * Z * list Z) :=
  let r := gets_loop input (length input) in
  if (length r.1 <? length buf)%nat then
    Some (r.1 ++ 0 :: drop (S (length r.1)) buf, Z.of_nat (length r.1), r.2)
  else None.

(** ** What they compute *)

(** The C string at the head of a buffer. *)
Fixpoint until_nul (s : list Z) : list Z :=
  match s with
  | [] => []
  | c :: s' => if c =? 0 then [] else c :: until_nul s'
  end.

Lemma until_nul_cut l s : 0 ∉ l → until_nul (l ++ 0 :: s) = l.
Proof.
  induction l as [|c l IH]; intros H0; [done|]. apply not_elem_of_cons in H0 as [Hz H0].
  cbn [app until_nul]. by rewrite (proj2 (Z.eqb_neq _ _)), IH by done.
Qed.


(** [s] starts with the C string [l]. *)
Definition is_cstr (s l : list Z) : Prop := ∃ r, s = l ++ 0 :: r ∧ Forall (λ c, c ≠ 0) l.

Lemma strcpy_copies s t l :
  is_cstr t l → (length l < length s)%nat → strcpy s t = Some (l ++ 0 :: drop (S (length l)) s).
Proof.
  intros (r & -> & Hl). revert s. induction Hl as [|c l Hc Hl IH]; intros [|x s] Hs; cbn in *; try lia; [done|].
  rewrite (proj2 (Z.eqb_neq _ _) Hc), IH by lia. done.
Qed.

Lemma ustrlen_counts s l : is_cstr s l → Z.of_nat (length l) < 2^31 → ustrlen s = Some (Z.of_nat (length l)).
Proof.
  intros (r & -> & Hl) Hn. unfold ustrlen.
  enough (∀ n, 0 <= n → n + Z.of_nat (length l) < 2^31 →
    ustrlen_loop (l ++ 0 :: r) n = Some (n + Z.of_nat (length l))) as H.
  { rewrite H by lia. cbn. by rewrite u32_small by lia. }
  clear Hn. induction Hl as [|c l Hc Hl IH]; intros n H0 Hn; [cbn; f_equal; lia|].
  cbn [app ustrlen_loop length] in *. rewrite (proj2 (Z.eqb_neq _ _) Hc), s32_small by lia.
  rewrite IH by lia. f_equal. lia.
Qed.

(** [strchr] finds the first occurrence in the string. *)
Lemma strchr_first s l c : is_cstr s l → c ≠ 0 → strchr s c = Some (fst <$> list_find (λ x, x = c) l).
Proof.
  intros (r & -> & Hl) Hc0. induction Hl as [|x l Hx Hl IH]; [done|].
  cbn [app strchr]. rewrite (proj2 (Z.eqb_neq _ _) Hx). cbn [list_find].
  destruct (Z.eqb_spec x c) as [->|Hxc]; [by rewrite decide_True|].
  rewrite decide_False, IH by done. by destruct (list_find _ l) as [[]|].
Qed.

(** Equal strings, and only those, compare as 0; otherwise the sign of the
    result is the order of the first bytes that differ. *)
Lemma strcmp_spec s t l k :
  is_cstr s l → is_cstr t k → ∃ d, strcmp s t = Some d ∧ (d = 0 ↔ l = k).
Proof.
  intros (r & -> & Hl) (r' & -> & Hk). revert k Hk.
  induction Hl as [|x l Hx Hl IH]; intros k Hk.
  - destruct Hk as [|y k Hy Hk]; cbn; [by exists 0|]. eexists. split; [done|]. split; [lia|done].
  - destruct Hk as [|y k Hy Hk]; cbn.
    + rewrite (proj2 (Z.eqb_neq _ _) Hx). cbn. eexists. split; [done|]. split; [lia|done].
    + rewrite (proj2 (Z.eqb_neq x 0) Hx). cbn. destruct (Z.eqb_spec x y) as [->|Hxy].
      * destruct (IH k Hk) as (d & E & Hd). exists d. split; [done|]. rewrite Hd. split; [by intros ->|by intros [= ->]].
      * eexists. split; [done|]. split; [lia|by intros [= -> ->]].
Qed.

(** Copying forwards is right unless the destination starts inside the source. *)
Lemma umemmove_loop_copies n : ∀ m dst src, dst <= src ∨ src + Z.of_nat n <= dst →
  ∀ x, umemmove_loop m dst src n x =
    if (dst <=? x) && (x <? dst + Z.of_nat n) then m (src + (x - dst)) else m x.
Proof.
  induction n as [|n IH]; intros m dst src Hd x; [cbn; zcases|].
  cbn [umemmove_loop]. rewrite IH by lia. rewrite Nat2Z.inj_succ. unfold store.
  zcases; f_equal; lia.
Qed.

(** Where it does, the first bytes are repeated instead. *)
Lemma umemmove_overlap_repeats m a : umemmove m (a + 1) a 2 (a + 2) = m a.
Proof.
  unfold umemmove. change (Z.to_nat 2) with 2%nat. cbn [umemmove_loop].
  replace (a + 1 + 1) with (a + 2) by lia. by rewrite !store_eq.
Qed.

(** What [gets] leaves in the buffer is a terminated line no longer than asked. *)
Lemma gets_loop_split input n :
  let r := gets_loop input n in input = r.1 ++ r.2 ∧ (length r.1 <= n)%nat ∧
  (∀ pre c, r.1 = pre ++ [c] → Forall (λ x, is_eol x = false) pre).
Proof.
  revert input. induction n as [|n IH]; intros [|c input]; cbn.
  1-3: split_and!; try done; try lia; by intros [|] ? ?.
  destruct (is_eol c) eqn:Ec; cbn.
  - split_and!; [done|lia|]. intros [|? [|]] ? [= ?]; done.
  - destruct (IH input) as (E & Hn & Hp). cbn in E, Hn, Hp. split_and!; [by f_equal|lia|].
    intros [|y pre] d Hd; [done|]. injection Hd as <- Hd. constructor; [done|]. by eapply Hp.
Qed.
