(* ===== verification/Printf.v ===== *)
(** * Formatted output of user programs (xv6A1/printf.c)

    What [printf] writes, byte by byte, and that the numbers it prints are read
    back by [atoi]. Printing a number in a base is shared with the kernel's
    console, which has its own digits. *)

From S2P Require Import Prelude Memory KString Ulib.

(** ** Digits *)

(** [do buf[i++] = digits[x % base]; while((x /= base) != 0);] *)
Fixpoint digits_loop (digits : list Z) (base : Z) (fuel : nat) (x : Z) : list Z :=
  match fuel with
  | O => []
  | S n =>
      let d := digits !!! Z.to_nat (x mod base) in
      if x / base =? 0 then [d] else d :: digits_loop digits base n (x / base)
  end.

(** A [uint] has at most 32 digits in any base. *)
Definition UINT_DIGITS : nat := 32.

(** The number that a list of digits, the lowest first, stands for. *)
Fixpoint value (base : Z) (ds : list Z) : Z :=
  match ds with
  | [] => 0
  | d :: ds' => d + base * value base ds'
  end.

Section Digits.
Context (base : Z) (Hb : 2 <= base).

Fixpoint numerals (fuel : nat) (x : Z) : list Z :=
  match fuel with
  | O => []
  | S n => if x / base =? 0 then [x mod base] else x mod base :: numerals n (x / base)
  end.

Lemma digits_loop_numerals digits fuel x :
  digits_loop digits base fuel x = map (λ d, digits !!! Z.to_nat d) (numerals fuel x).
Proof. revert x. induction fuel as [|n IH]; intros x; cbn; [done|]. destruct (x / base =? 0); cbn; by rewrite ?IH. Qed.

Lemma numerals_value fuel : ∀ x, 0 <= x < base ^ Z.of_nat fuel → value base (numerals fuel x) = x.
Proof.
  induction fuel as [|n IH]; intros x Hx; [rewrite Z.pow_0_r in Hx; cbn; lia|].
  cbn [numerals]. pose proof (Z.div_mod x base ltac:(lia)).
  rewrite Nat2Z.inj_succ, Z.pow_succ_r in Hx by lia.
  destruct (Z.eqb_spec (x / base) 0) as [E|E]; cbn [value]; [rewrite E in *; lia|].
  rewrite IH; [lia|]. split; [apply Z.div_pos; lia|]. apply Z.div_lt_upper_bound; lia.
Qed.

Lemma numerals_range fuel x : 0 <= x → Forall (λ d, 0 <= d < base) (numerals fuel x).
Proof.
  revert x. induction fuel as [|n IH]; intros x Hx; cbn; [constructor|].
  pose proof (Z.mod_pos_bound x base ltac:(lia)).
  destruct (x / base =? 0); constructor; auto using Z.div_pos with lia.
Qed.

(** A number below [base ^ k] takes at most [k] digits, and at least one. *)
Lemma numerals_length fuel : ∀ k x, 0 <= x < base ^ Z.of_nat k → (0 < k)%nat →
  (length (numerals fuel x) <= k)%nat.
Proof.
  induction fuel as [|n IH]; intros k x Hx Hk; cbn; [lia|].
  destruct (Z.eqb_spec (x / base) 0) as [E|E]; cbn; [lia|].
  destruct k as [|[|k]]; [lia| |].
  - change (Z.of_nat 1) with 1 in Hx. rewrite Z.pow_1_r in Hx. destruct E. apply Z.div_small. lia.
  - apply le_n_S, IH; [|lia]. rewrite Nat2Z.inj_succ, Z.pow_succ_r in Hx by lia.
    split; [apply Z.div_pos; lia|]. apply Z.div_lt_upper_bound; lia.
Qed.

Lemma uint_fits x : 0 <= x < 2^32 → 0 <= x < base ^ Z.of_nat UINT_DIGITS.
Proof.
  intros Hx. split; [lia|]. eapply Z.lt_le_trans; [apply Hx|]. change (Z.of_nat UINT_DIGITS) with 32.
  apply Z.pow_le_mono_l. lia.
Qed.

End Digits.

(** ** printf.c *)

Definition DIGITS : list Z := [48; 49; 50; 51; 52; 53; 54; 55; 56; 57; 65; 66; 67; 68; 69; 70].
Definition null_text : list Z := [40; 110; 117; 108; 108; 41].

(** [printint(fd, xx, base, sgn)]: the bytes it writes. [buf] is filled from the
    lowest digit on and written backwards. *)
Definition printint_buf (xx base : Z) (sgn : bool) : list Z :=
  let neg := sgn && (s32 xx <? 0) in
  let x := if neg then u32 (- xx) else u32 xx in
  digits_loop DIGITS base UINT_DIGITS x ++ (if neg then [45] else []).
Definition printint (xx base : Z) (sgn : bool) : list Z := rev (printint_buf xx base sgn).

Section Printf.
(** The string at an address of the process. *)
Context (string_at : Z → list Z).

(** The text for the character [c] after a [%], and the arguments left; an
    argument that was not passed is undefined. *)
Definition printf_directive (c : Z) (ap : list Z) : option (list Z * list Z) :=
  if c =? 100 then match ap with [] => None | a :: ap' => Some (printint a 10 true, ap') end
  else if (c =? 120) || (c =? 112) then match ap with [] => None | a :: ap' => Some (printint a 16 false, ap') end
  else if c =? 115 then
    match ap with
    | [] => None
    | a :: ap' => Some (if a =? 0 then null_text else string_at a, ap')
    end
  else if c =? 99 then match ap with [] => None | a :: ap' => Some ([u8 a], ap') end
  else if c =? 37 then Some ([c], ap)
  else Some ([37; c], ap).

(** The loop over [fmt]; [state] is whether the last character was a [%]. *)
Fixpoint printf_loop (fmt : list Z) (state : bool) (ap : list Z) : option (list Z) :=
  match fmt with
  | [] => Some []
  | c :: fmt' =>
      if negb state then
        if c =? 37 then printf_loop fmt' true ap
        else cons c <$> printf_loop fmt' false ap
      else
        match printf_directive c ap with
        | None => None
        | Some (text, ap') => app text <$> printf_loop fmt' false ap'
        end
  end.

Definition printf (fmt ap : list Z) : option (list Z) := printf_loop fmt false ap.

End Printf.

(** ** Numbers are read back *)

Lemma value_bounds base ds : 2 <= base → Forall (λ d, 0 <= d < base) ds →
  0 <= value base ds < base ^ Z.of_nat (length ds).
Proof.
  intros Hb. induction 1 as [|d ds Hd _ IH]; cbn [value length]; [rewrite Z.pow_0_r; lia|].
  rewrite Nat2Z.inj_succ, Z.pow_succ_r by lia. nia.
Qed.

(** The digits of a list, highest first, after a prefix with value [n]. *)
Lemma atoi_digits ds r : Forall (λ d, 0 <= d < 10) ds → ∀ n, 0 <= n →
  n * 10 ^ Z.of_nat (length ds) + value 10 ds < 2^31 →
  atoi_loop (rev (map (λ d, 48 + d) ds) ++ r) n = atoi_loop r (n * 10 ^ Z.of_nat (length ds) + value 10 ds).
Proof.
  intros Hds. revert r. induction Hds as [|d ds Hd Hds IH]; intros r n Hn Hlt.
  { cbn. f_equal. lia. }
  cbn [map rev value length] in *. rewrite Nat2Z.inj_succ, Z.pow_succ_r in Hlt |- * by lia.
  pose proof (value_bounds 10 ds ltac:(lia) Hds). rewrite <- app_assoc.
  assert (n * 10 ^ Z.of_nat (length ds) + value 10 ds < 2^31) by nia.
  assert (0 <= n * 10 ^ Z.of_nat (length ds)) by nia.
  rewrite IH by lia. cbn [app atoi_loop]. rewrite (proj2 (Z.leb_le 48 _)), (proj2 (Z.leb_le _ 57)) by lia. cbn [andb].
  f_equal. rewrite s32_small by lia. lia.
Qed.

Lemma decimal_digits x : 0 <= x →
  digits_loop DIGITS 10 UINT_DIGITS x = map (λ d, 48 + d) (numerals 10 UINT_DIGITS x).
Proof.
  intros Hx. rewrite digits_loop_numerals. apply map_ext_in. intros d Hin.
  pose proof (numerals_range 10 ltac:(lia) UINT_DIGITS x Hx) as H. rewrite Forall_forall in H.
  apply list_elem_of_In in Hin. apply H in Hin.
  assert (d = 0 ∨ d = 1 ∨ d = 2 ∨ d = 3 ∨ d = 4 ∨ d = 5 ∨ d = 6 ∨ d = 7 ∨ d = 8 ∨ d = 9) as Hc by lia.
  by destruct_or! Hc; subst.
Qed.

(** Numbers survive printing: the decimal text [printf] writes for an [int]
    fits its buffer of 16 bytes, [atoi] of the text of a non-negative number is
    the number, and a negative number is a minus sign and the digits of its
    absolute value, also for the one [int] that has none. *)
Theorem printint_atoi n : - 2^31 <= n < 2^31 →
  (length (printint n 10 true) <= 11)%nat ∧
  (0 <= n → atoi (printint n 10 true ++ [0]) = Some n) ∧
  (n < 0 → printint n 10 true = 45 :: printint (- n) 10 false ∧
     (- n < 2^31 → atoi (printint (- n) 10 false ++ [0]) = Some (- n))).
Proof.
  intros Hn.
  assert (Hs : s32 n = n).
  { unfold s32, u32. Z.div_mod_to_equations. zcases. }
  assert (Ha : ∀ x, 0 <= x < 2^31 → atoi (rev (digits_loop DIGITS 10 UINT_DIGITS x) ++ [0]) = Some x).
  { intros x Hx. unfold atoi. pose proof (uint_fits 10 ltac:(lia) x ltac:(lia)).
    rewrite decimal_digits, atoi_digits; rewrite ?numerals_value; try lia; [done|by apply numerals_range; lia]. }
  assert (Hl : ∀ x, 0 <= x < 2^32 → (length (digits_loop DIGITS 10 UINT_DIGITS x) <= 10)%nat).
  { intros x Hx. rewrite digits_loop_numerals, length_map. apply numerals_length; lia. }
  unfold printint, printint_buf. rewrite Hs, length_rev. destruct (Z.ltb_spec n 0) as [Hneg|Hpos]; cbn [andb].
  - rewrite u32_small by lia. split_and!; [|lia|].
    + rewrite length_app. pose proof (Hl (- n) ltac:(lia)). cbn [length]. lia.
    + intros _. split; [by rewrite rev_app_distr, app_nil_r|]. rewrite app_nil_r. auto with lia.
  - rewrite u32_small, app_nil_r by lia. split_and!; [|auto with lia|lia]. pose proof (Hl n ltac:(lia)). lia.
Qed.

Lemma printint_atoi_witness :
  (length (printint (-2147483648) 10 true) <= 11)%nat ∧ printint (-45) 10 true = [45; 52; 53].
Proof.
  split; [apply (printint_atoi (-2147483648)); lia|].
  destruct (printint_atoi (-45)) as (_ & _ & H); [lia|]. destruct (H ltac:(lia)) as [E _]. exact E.
Defined.
