(* ===== verification/Grep.v ===== *)
(** * grep (xv6A1/grep.c)

    The regular-expression matcher, equal to the language of the expression,
    and the loop that cuts the input into lines in a buffer of 1024 bytes. A C
    string is the list of its bytes before the NUL; the buffer is a list of
    bytes with its NULs. *)

From S2P Require Import Prelude Memory KString Ulib.

(** ** The matcher *)

Definition DOT : Z := 46.
Definition STAR : Z := 42.
Definition DOLLAR : Z := 36.
Definition CARET : Z := 94.

(** [matchstar(c, re, text)], with [here] for [matchhere(re, _)]. *)
Fixpoint matchstar (here : list Z → bool) (c : Z) (text : list Z) : bool :=
  here text ||
  match text with
  | [] => false
  | x :: text' => ((x =? c) || (c =? DOT)) && matchstar here c text'
  end.

Fixpoint matchhere (re text : list Z) : bool :=
  match re with
  | [] => true
  | c :: re' =>
      let one :=
        if (c =? DOLLAR) && match re' with [] => true | _ => false end then
          match text with [] => true | _ => false end
        else
          match text with
          | [] => false
          | x :: text' => ((c =? DOT) || (c =? x)) && matchhere re' text'
          end in
      match re' with
      | d :: re'' => if d =? STAR then matchstar (matchhere re'') c text else one
      | [] => one
      end
  end.

(** The [do ... while] loop of [match] over the text. *)
Fixpoint match_from (re text : list Z) : bool :=
  matchhere re text ||
  match text with
  | [] => false
  | _ :: text' => match_from re text'
  end.

Definition match_ (re text : list Z) : bool :=
  match re with
  | c :: re' => if c =? CARET then matchhere re' text else match_from re text
  | [] => match_from re text
  end.

(** ** The language of an expression *)

Inductive item :=
  | One (c : Z)
  | Star (c : Z).

(** The items of an expression, and whether it ends in [$]. *)
Fixpoint items (re : list Z) : list item * bool :=
  match re with
  | [] => ([], false)
  | c :: re' =>
      let r := items re' in
      let one := if (c =? DOLLAR) && match re' with [] => true | _ => false end then ([], true) else (One c :: r.1, r.2) in
      match re' with
      | d :: re'' => if d =? STAR then let r := items re'' in (Star c :: r.1, r.2) else one
      | [] => one
      end
  end.

Definition allows (c x : Z) : Prop := c = DOT ∨ c = x.

Inductive lang : list item → list Z → Prop :=
  | lang_nil : lang [] []
  | lang_one c x ks w : allows c x → lang ks w → lang (One c :: ks) (x :: w)
  | lang_star c v ks w : Forall (allows c) v → lang ks w → lang (Star c :: ks) (v ++ w).

(** A text that starts with a word of the expression, to its end if the
    expression says so. *)
Definition here_spec (e : list item * bool) (text : list Z) : Prop :=
  ∃ w r, text = w ++ r ∧ lang e.1 w ∧ (e.2 = true → r = []).

Definition match_spec (re text : list Z) : Prop :=
  match re with
  | c :: re' => if c =? CARET then here_spec (items re') text else ∃ pre t, text = pre ++ t ∧ here_spec (items re) t
  | [] => ∃ pre t, text = pre ++ t ∧ here_spec (items re) t
  end.

Lemma allows_bool c x : (c =? DOT) || (c =? x) = true ↔ allows c x.
Proof. unfold allows. rewrite orb_true_iff, !Z.eqb_eq. done. Qed.

Lemma matchstar_spec here c text :
  matchstar here c text = true ↔ ∃ v t, text = v ++ t ∧ Forall (allows c) v ∧ here t = true.
Proof.
  induction text as [|x text IH]; cbn [matchstar]; rewrite orb_true_iff.
  - split; [intros [H|]; [by exists [], []|done]|].
    intros ([|] & t & E & _ & H); [|done]. left. by rewrite E.
  - rewrite andb_true_iff, IH. split.
    + intros [H|[Hx (v & t & -> & Hv & H)]]; [by exists [], (x :: text)|].
      exists (x :: v), t. split; [done|]. split; [|done]. constructor; [|done].
      apply allows_bool. by rewrite orb_comm, Z.eqb_sym.
    + intros ([|y v] & t & E & Hv & H); [left; by rewrite E|]. right. injection E as <- ->.
      apply Forall_cons in Hv as [Hy Hv]. split; [|by exists v, t].
      apply allows_bool in Hy. by rewrite orb_comm, (Z.eqb_sym x).
Qed.

Lemma here_star c ks e text :
  here_spec (Star c :: ks, e) text ↔ ∃ v t, text = v ++ t ∧ Forall (allows c) v ∧ here_spec (ks, e) t.
Proof.
  split.
  - intros (w & r & -> & Hw & He). inversion Hw as [| |? v ? w' Hv Hl]; subst.
    exists v, (w' ++ r). rewrite app_assoc. split_and!; [done|done|]. by exists w', r.
  - intros (v & t & -> & Hv & w & r & -> & Hw & He). exists (v ++ w), r. rewrite app_assoc.
    split_and!; [done|by constructor|done].
Qed.

Lemma here_one c ks e text :
  here_spec (One c :: ks, e) text ↔ ∃ x t, text = x :: t ∧ allows c x ∧ here_spec (ks, e) t.
Proof.
  split.
  - intros (w & r & -> & Hw & He). inversion Hw as [|? x ? w' Hx Hl|]; subst.
    exists x, (w' ++ r). split_and!; [done|done|]. by exists w', r.
  - intros (x & t & -> & Hx & w & r & -> & Hw & He). exists (x :: w), r. split_and!; [done|by constructor|done].
Qed.

Lemma here_end text : here_spec ([], true) text ↔ text = [].
Proof.
  split.
  - intros (w & r & -> & Hw & He). inversion Hw. by rewrite He.
  - intros ->. exists [], []. split_and!; [done|constructor|done].
Qed.

Lemma here_nil text : here_spec ([], false) text.
Proof. exists [], text. split_and!; [done|constructor|done]. Qed.

Lemma matchhere_correct n : ∀ re text, (length re <= n)%nat →
  matchhere re text = true ↔ here_spec (items re) text.
Proof.
  induction n as [|n IH]; intros [|c re] text Hn; cbn in Hn; try lia; try (split; [intros _; apply here_nil|done]).
  assert (Hone : (if (c =? DOLLAR) && match re with [] => true | _ => false end
      then match text with [] => true | _ => false end
      else match text with [] => false | x :: text' => ((c =? DOT) || (c =? x)) && matchhere re text' end) = true ↔
    here_spec (if (c =? DOLLAR) && match re with [] => true | _ => false end then ([], true)
      else (One c :: (items re).1, (items re).2)) text).
  { destruct ((c =? DOLLAR) && match re with [] => true | _ => false end); [rewrite here_end; by destruct text|].
    rewrite here_one. destruct text as [|x text]; [split; [done|by intros (? & ? & ? & _)]|].
    rewrite andb_true_iff, allows_bool, IH by lia. destruct (items re) as [ks e]. cbn [fst snd].
    split; [intros [? ?]; by exists x, text|by intros (? & ? & [= <- <-] & ? & ?)]. }
  destruct re as [|d re]; [exact Hone|]. cbn [matchhere items] in *.
  destruct (d =? STAR); [|exact Hone]. cbn [length] in Hn.
  rewrite matchstar_spec, here_star. destruct (items re) as [ks e] eqn:Ei. cbn [fst snd].
  split; intros (v & t & -> & Hv & H); exists v, t; (split_and!; [done|done|]); specialize (IH re t ltac:(lia));
    rewrite Ei in IH; by apply IH.
Qed.

Lemma match_from_spec re text :
  match_from re text = true ↔ ∃ pre t, text = pre ++ t ∧ matchhere re t = true.
Proof.
  induction text as [|x text IH]; cbn [match_from]; rewrite orb_true_iff.
  - split; [intros [H|]; [by exists [], []|done]|]. intros ([|] & t & E & H); [|done]. left. by rewrite E.
  - rewrite IH. split.
    + intros [H|(pre & t & -> & H)]; [by exists [], (x :: text)|by exists (x :: pre), t].
    + intros ([|y pre] & t & E & H); [left; by rewrite E|]. injection E as <- ->. right. by exists pre, t.
Qed.

(** C35. The matcher decides the language of the expression: [match(re, text)]
    terminates and is true exactly when some part of the text is a word of the
    expression, where [^] and a final [$] tie that part to the ends of the text,
    [.] stands for any character, and a star for any number of repetitions. *)
Theorem match_decides_language re text : match_ re text = true ↔ match_spec re text.
Proof.
  assert (Hf : ∀ re, match_from re text = true ↔ ∃ pre t, text = pre ++ t ∧ here_spec (items re) t).
  { intros re'. rewrite match_from_spec. split; intros (pre & t & E & H); exists pre, t; (split; [done|]);
      by apply (matchhere_correct (length re')). }
  destruct re as [|c re]; [apply Hf|]. unfold match_, match_spec. destruct (c =? CARET); [|apply Hf].
  by apply (matchhere_correct (length re)).
Qed.

(** ** The loop over the input *)

Definition BUFSZ : nat := 1024.

(** Bytes stored into a buffer from index [i] on. *)
Definition splice (l : list Z) (i : nat) (bs : list Z) : list Z := take i l ++ bs ++ drop (i + length bs) l.

(** [while((q = strchr(p, '\n')) != 0)]: the buffer, [p] at the end, and what
    was written. *)
Fixpoint grep_lines (fuel : nat) (pattern buf : list Z) (p : nat) : option (list Z * nat * list Z) :=
  match strchr (drop p buf) 10 with
  | None => None
  | Some None => Some (buf, p, [])
  | Some (Some k) =>
      match fuel with
      | O => None
      | S n =>
          let q := (p + k)%nat in
          let buf1 := <[q := 0]> buf in
          let hit := match_ pattern (until_nul (drop p buf1)) in
          let buf2 := if hit then <[q := 10]> buf1 else buf1 in
          match grep_lines n pattern buf2 (q + 1) with
          | None => None
          | Some (b, p', o) => Some (b, p', (if hit then take (q + 1 - p) (drop p buf2) else []) ++ o)
          end
      end
  end.

Section Grep.
(** [read(fd, _, n)] in a state of the file: the bytes it gives, none at the
    end. *)
Context {R : Type} (read : R → nat → list Z * R).

Fixpoint grep_loop (fuel : nat) (pattern : list Z) (r : R) (buf : list Z) (m : nat) : option (list Z) :=
  match fuel with
  | O => None
  | S n =>
      match read r (BUFSZ - m - 1) with
      | ([], _) => Some []
      | (bs, r') =>
          let m1 := (m + length bs)%nat in
          match grep_lines BUFSZ pattern (<[m1 := 0]> (splice buf m bs)) 0 with
          | None => None
          | Some (buf2, p, o) =>
              let m2 := if (p =? 0)%nat then 0%nat else m1 in
              let buf3 := if (0 <? m2)%nat then splice buf2 0 (take (m2 - p) (drop p buf2)) else buf2 in
              let m3 := if (0 <? m2)%nat then (m2 - p)%nat else m2 in
              app o <$> grep_loop n pattern r' buf3 m3
          end
      end
  end.

Definition grep (fuel : nat) (pattern : list Z) (r : R) : option (list Z) :=
  grep_loop fuel pattern r (replicate BUFSZ 0) 0.

End Grep.

(** ** Lines *)

(** The complete lines of a text, and what follows the last newline. *)
Fixpoint cut (s : list Z) : list (list Z) * list Z :=
  match s with
  | [] => ([], [])
  | c :: s' =>
      let r := cut s' in
      if c =? 10 then ([] :: r.1, r.2)
      else match r.1 with
           | [] => ([], c :: r.2)
           | l :: ls => ((c :: l) :: ls, r.2)
           end
  end.

Definition hits (pattern : list Z) (ls : list (list Z)) : list Z :=
  concat (map (λ l, if match_ pattern l then l ++ [10] else []) ls).

Lemma cut_line l s : 10 ∉ l → cut (l ++ 10 :: s) = (l :: (cut s).1, (cut s).2).
Proof.
  induction l as [|c l IH]; intros H; [done|]. apply not_elem_of_cons in H as [Hc H].
  cbn [app cut]. rewrite IH by done. cbn [fst snd]. by rewrite (proj2 (Z.eqb_neq _ _)) by done.
Qed.

Lemma cut_rest l : 10 ∉ l → cut l = ([], l).
Proof.
  induction l as [|c l IH]; intros H; [done|]. apply not_elem_of_cons in H as [Hc H].
  cbn [cut]. rewrite IH by done. cbn [fst snd]. by rewrite (proj2 (Z.eqb_neq _ _)) by done.
Qed.

(** Every text is either one line without its end, or a line and a text. *)
Lemma line_ind (P : list Z → Prop) :
  (∀ l, 10 ∉ l → P l) → (∀ l s, 10 ∉ l → P s → P (l ++ 10 :: s)) → ∀ s, P s.
Proof.
  intros Hr Hl s. remember (length s) as n eqn:En. revert s En.
  induction (lt_wf n) as [n _ IH]. intros s ->.
  destruct (decide (10 ∈ s)) as [Hin|Hin]; [|by apply Hr].
  apply list_elem_of_split_l in Hin as (l & s' & -> & Hnot). apply Hl; [done|].
  eapply IH; [|done]. rewrite length_app. cbn. lia.
Qed.

Lemma cut_app s t : cut (s ++ t) = ((cut s).1 ++ (cut ((cut s).2 ++ t)).1, (cut ((cut s).2 ++ t)).2).
Proof.
  induction s as [l Hl|l s Hl IH] using line_ind.
  - rewrite (cut_rest l Hl). cbn. by destruct (cut (l ++ t)).
  - rewrite <- app_assoc, (cut_line l s Hl). cbn [app]. rewrite cut_line, IH by done. done.
Qed.

Lemma cut_rest_no_newline s : 10 ∉ (cut s).2.
Proof. induction s as [l Hl|l s Hl IH] using line_ind; [by rewrite cut_rest|by rewrite cut_line]. Qed.

Lemma cut_length s : (length (cut s).1 <= length s)%nat ∧ (length (cut s).2 <= length s)%nat.
Proof.
  induction s as [l Hl|l s Hl IH] using line_ind; [rewrite cut_rest by done; cbn; lia|].
  rewrite cut_line, length_app by done. cbn. lia.
Qed.

Lemma strchr_newline l s : 10 ∉ l → 0 ∉ l → strchr (l ++ 10 :: s) 10 = Some (Some (length l)).
Proof.
  induction l as [|c l IH]; intros H1 H0; [done|].
  apply not_elem_of_cons in H1 as [Hc H1]. apply not_elem_of_cons in H0 as [Hz H0].
  cbn [app strchr]. by rewrite !(proj2 (Z.eqb_neq _ _)), IH by done.
Qed.

Lemma strchr_none l s : 10 ∉ l → 0 ∉ l → strchr (l ++ 0 :: s) 10 = Some None.
Proof.
  induction l as [|c l IH]; intros H1 H0; [done|].
  apply not_elem_of_cons in H1 as [Hc H1]. apply not_elem_of_cons in H0 as [Hz H0].
  cbn [app strchr]. by rewrite !(proj2 (Z.eqb_neq _ _)), IH by done.
Qed.

(** A store into the buffer at distance [k] from [p]. *)
Lemma drop_store (buf : list Z) (p k : nat) (x : Z) l y s :
  drop p buf = l ++ y :: s → k = length l → drop p (<[(p + k)%nat := x]> buf) = l ++ x :: s.
Proof.
  intros E ->. rewrite drop_insert_ge by lia. replace (p + length l - p)%nat with (length l) by lia.
  rewrite E, insert_app_r_alt by lia. by rewrite Nat.sub_diag.
Qed.

Lemma grep_lines_run pattern t : ∀ fuel buf p junk,
  drop p buf = t ++ 0 :: junk → 0 ∉ t → (length (cut t).1 <= fuel)%nat →
  let p' := (p + (length t - length (cut t).2))%nat in
  ∃ buf', grep_lines fuel pattern buf p = Some (buf', p', hits pattern (cut t).1) ∧
    drop p' buf' = (cut t).2 ++ 0 :: junk ∧ length buf' = length buf.
Proof.
  induction t as [l Hl|l s Hl IH] using line_ind; intros fuel buf p junk E H0 Hf p'.
  { unfold p'. rewrite (cut_rest l Hl). cbn [fst snd]. exists buf. rewrite Nat.sub_diag, Nat.add_0_r.
    split; [|done]. by destruct fuel; cbn [grep_lines]; rewrite E, strchr_none. }
  rewrite elem_of_app, elem_of_cons in H0. unfold p'. rewrite (cut_line l s Hl) in Hf |- *. cbn [fst snd length] in Hf |- *.
  destruct fuel as [|fuel]; [lia|]. cbn [grep_lines]. rewrite E, <- app_assoc. cbn [app].
  rewrite strchr_newline by tauto. rewrite <- app_assoc in E. cbn [app] in E.
  pose proof (drop_store _ _ _ 0 _ _ _ E eq_refl) as E1. rewrite E1, until_nul_cut by tauto.
  set (buf2 := if match_ pattern l then _ else _).
  assert (E2 : drop p buf2 = l ++ (if match_ pattern l then 10 else 0) :: s ++ 0 :: junk).
  { unfold buf2. destruct (match_ pattern l); [by eapply drop_store|done]. }
  assert (E3 : drop (p + length l + 1) buf2 = s ++ 0 :: junk).
  { replace (p + length l + 1)%nat with (p + (length l + 1))%nat by lia.
    by rewrite <- drop_drop, E2, drop_app_add. }
  pose proof (cut_length s) as [_ Hc].
  destruct (IH fuel buf2 _ junk E3) as (buf' & -> & Hd & Hlen); [tauto|lia|].
  exists buf'. rewrite length_app. cbn [length].
  replace (p + (length l + S (length s) - length (cut s).2))%nat
    with (p + length l + 1 + (length s - length (cut s).2))%nat by lia.
  split_and!; [|done|].
  - do 2 f_equal. unfold hits. cbn [map concat]. f_equal. rewrite E2.
    destruct (match_ pattern l); [|done]. replace (p + length l + 1 - p)%nat with (length l + 1)%nat by lia.
    by rewrite take_app_add.
  - rewrite Hlen. unfold buf2. by destruct (match_ pattern l); rewrite ?length_insert.
Qed.

(** Lines that fit the buffer with their NUL. *)
Definition lines_fit (s : list Z) : Prop :=
  Forall (λ l, (length l < 1023)%nat) (cut s).1 ∧ (length (cut s).2 < 1023)%nat.

Lemma lines_fit_app s t : lines_fit (s ++ t) →
  lines_fit ((cut s).2 ++ t) ∧ (cut s).1 ++ (cut ((cut s).2 ++ t)).1 = (cut (s ++ t)).1.
Proof.
  unfold lines_fit. rewrite (cut_app s t). cbn [fst snd]. rewrite Forall_app. tauto.
Qed.

(** A text with no newline in its first part is shorter than the first line. *)
Lemma lines_fit_prefix s t : lines_fit (s ++ t) → 10 ∉ s → (length s < 1023)%nat.
Proof.
  intros [Hf Hr] Hs. destruct (decide (10 ∈ t)) as [Hin|Hin].
  - apply list_elem_of_split_l in Hin as (l & t' & -> & Hl).
    rewrite app_assoc, cut_line in Hf by (rewrite elem_of_app; tauto).
    apply Forall_cons in Hf as [Hf _]. rewrite length_app in Hf. lia.
  - rewrite cut_rest in Hr by (rewrite elem_of_app; tauto). cbn [snd] in Hr. rewrite length_app in Hr. lia.
Qed.

Lemma cut_whole s : length (cut s).2 = length s → 10 ∉ s.
Proof.
  induction s as [l Hl|l s Hl IH] using line_ind; [done|]. rewrite cut_line, length_app by done. cbn.
  pose proof (cut_length s). lia.
Qed.

Lemma cut_rest_sub s x : x ∈ (cut s).2 → x ∈ s.
Proof.
  induction s as [l Hl|l s Hl IH] using line_ind; [by rewrite cut_rest|]. rewrite cut_line by done. cbn.
  set_solver.
Qed.

Section Lines.
Context {R : Type} (read : R → nat → list Z * R).
(** The file from the current offset on; [read] gives as much of it as asked,
    as [fileread] of a file does. *)
Context (rest : R → list Z) (Hread : ∀ r n, (read r n).1 = take n (rest r) ∧ rest (read r n).2 = drop n (rest r)).

(** The buffer after [read] and the store of the NUL. *)
Lemma filled_buffer (t0 d bs : list Z) :
  (length t0 + length bs < length (t0 ++ d))%nat →
  ∃ junk, <[(length t0 + length bs)%nat := 0]> (splice (t0 ++ d) (length t0) bs) = (t0 ++ bs) ++ 0 :: junk ∧
    length ((t0 ++ bs) ++ 0 :: junk) = length (t0 ++ d).
Proof.
  intros Hl. unfold splice. rewrite take_app_length, drop_app_add. rewrite length_app in Hl.
  destruct (drop (length bs) d) as [|x junk] eqn:Ed.
  { apply (f_equal length) in Ed. rewrite length_drop in Ed. cbn in Ed. lia. }
  exists junk. rewrite app_assoc, insert_app_r_alt by (rewrite length_app; lia).
  rewrite length_app, Nat.sub_diag. split; [done|].
  apply (f_equal length) in Ed. rewrite length_drop in Ed. cbn in Ed. rewrite !length_app. cbn. lia.
Qed.

(** The buffer after what is left of the last line was moved to its start. *)
Lemma moved_buffer (buf rem junk : list Z) p :
  drop p buf = rem ++ 0 :: junk → ∃ d, splice buf 0 (take (length rem) (drop p buf)) = rem ++ d ∧
    length (rem ++ d) = length buf.
Proof.
  intros E. rewrite E, take_app_length. unfold splice. cbn [take app Nat.add]. eexists. split; [done|].
  rewrite length_app, length_drop. apply (f_equal length) in E. rewrite length_drop, length_app in E. lia.
Qed.

Lemma grep_loop_run pattern fuel : ∀ r t0 d,
  length (t0 ++ d) = BUFSZ → 10 ∉ t0 → 0 ∉ t0 ++ rest r → lines_fit (t0 ++ rest r) → (length (rest r) < fuel)%nat →
  grep_loop read fuel pattern r (t0 ++ d) (length t0) = Some (hits pattern (cut (t0 ++ rest r)).1).
Proof.
  induction fuel as [|fuel IH]; intros r t0 d Hlen Ht H0 Hfit Hfuel; [lia|].
  cbn [grep_loop]. destruct (Hread r (BUFSZ - length t0 - 1)) as [Hbs Hr].
  pose proof (lines_fit_prefix _ _ Hfit Ht) as Hshort.
  destruct (read r (BUFSZ - length t0 - 1)) as [bs r']. cbn [fst snd] in Hbs, Hr.
  assert (Hsplit : rest r = bs ++ rest r') by (by rewrite Hbs, Hr, take_drop).
  assert (Hbl : length bs = min (BUFSZ - length t0 - 1) (length (rest r))) by (by rewrite Hbs, length_take).
  destruct bs as [|b bs].
  { assert (length (rest r) = 0%nat) as Hz by (unfold BUFSZ in *; cbn in Hbl; lia).
    apply nil_length_inv in Hz. rewrite Hz, app_nil_r, cut_rest by done. done. }
  assert (Hcat : t0 ++ rest r = (t0 ++ b :: bs) ++ rest r') by (by rewrite Hsplit, app_assoc).
  assert (Hpos : (0 < length (b :: bs))%nat) by (cbn; lia).
  revert Hpos Hbl Hsplit Hcat. clear Hbs. generalize (b :: bs). intros bs' Hpos Hbl Hsplit Hcat.
  destruct (filled_buffer t0 d bs') as (junk & Eb & Hjl); [unfold BUFSZ in *; lia|]. rewrite Eb.
  rewrite Hcat in H0, Hfit |- *.
  destruct (grep_lines_run pattern (t0 ++ bs') BUFSZ _ 0 junk eq_refl) as (buf2 & -> & Hd2 & Hl2).
  { rewrite elem_of_app in H0. tauto. }
  { pose proof (cut_length (t0 ++ bs')) as [Hc _]. rewrite length_app in Hc. unfold BUFSZ in *. lia. }
  cbn [Nat.add] in *. rewrite length_app in Hd2 |- *.
  assert (Hrl : length (rest r) = (length bs' + length (rest r'))%nat) by (by rewrite Hsplit, length_app).
  destruct (lines_fit_app _ _ Hfit) as [Hfit' Hcut]. pose proof (cut_rest_no_newline (t0 ++ bs')) as Hnl.
  pose proof (cut_length (t0 ++ bs')) as [_ Hcl]. rewrite length_app in Hcl.
  destruct (Nat.eqb_spec (length t0 + length bs' - length (cut (t0 ++ bs')).2) 0) as [Hp|Hp].
  - assert (10 ∉ t0 ++ bs') as Hno by (apply cut_whole; rewrite length_app; lia).
    pose proof (lines_fit_prefix _ _ Hfit Hno) as Hs. rewrite length_app in Hs.
    assert (rest r' = []) as Hend by (apply nil_length_inv; unfold BUFSZ in *; lia).
    rewrite Hend, app_nil_r in *. cbn [Nat.ltb Nat.leb].
    pose proof (IH r' [] buf2) as E. cbn [app length] in E. rewrite Hend in E.
    rewrite E; [|congruence|set_solver|set_solver|by split; [constructor|cbn; lia]|cbn; lia].
    by rewrite (cut_rest _ Hno).
  - rewrite (proj2 (Nat.ltb_lt 0 _)) by lia.
    replace (length t0 + length bs' - (length t0 + length bs' - length (cut (t0 ++ bs')).2))%nat
      with (length (cut (t0 ++ bs')).2) by lia.
    destruct (moved_buffer buf2 _ _ _ Hd2) as (d' & -> & Hd').
    rewrite IH; [|congruence|done|..|done|lia].
    + rewrite <- Hcut. unfold hits. by rewrite map_app, concat_app.
    + intros Hin. apply H0. rewrite elem_of_app in Hin |- *. destruct Hin as [Hin|]; [left|by right].
      by apply cut_rest_sub.
Qed.

(** C36. grep prints exactly the matching lines. On a file without NUL bytes
    whose lines fit the buffer, for every length of the file, the loop ends and
    writes the complete lines that match, each with its newline, in order. *)
Theorem grep_prints_matches pattern r fuel :
  0 ∉ rest r → lines_fit (rest r) → (length (rest r) < fuel)%nat →
  grep read fuel pattern r = Some (hits pattern (cut (rest r)).1).
Proof.
  intros H0 Hf Hn. unfold grep. apply (grep_loop_run pattern fuel r [] (replicate BUFSZ 0)); try done.
  set_solver.
Qed.

End Lines.

(** A file as the list of its bytes. *)
Definition read_file (r : list Z) (n : nat) : list Z * list Z := (take n r, drop n r).

(** "ab", "cd" and "a" without its newline, searched for "^a". *)
Lemma grep_prints_matches_witness :
  grep read_file 8 [94; 97] [97; 98; 10; 99; 100; 10; 97] = Some [97; 98; 10].
Proof.
  apply (grep_prints_matches read_file id ltac:(done) [94; 97] [97; 98; 10; 99; 100; 10; 97] 8).
  - unfold id. set_solver.
  - split; cbn; [repeat constructor|]; lia.
  - cbn. lia.
Defined.

(** Input that arrives in pieces, as from a pipe or the console. *)
Definition read_pieces (r : list (list Z)) (n : nat) : list Z * list (list Z) :=
  match r with
  | [] => ([], [])
  | c :: r' => if (length c <=? n)%nat then (c, r') else (take n c, drop n c :: r')
  end.

(** A line that arrives in two pieces is lost: the first piece has no newline,
    [p] stays at the start of the buffer, and [m = 0] forgets the piece. *)
Theorem split_line_is_lost :
  grep read_pieces 8 [97] [[97]; [98; 10]] = Some [] ∧ hits [97] (cut ([97] ++ [98; 10])).1 = [97; 98; 10].
Proof. split; reflexivity. Qed.
