(* ===== verification/Shell.v ===== *)
(** * The shell's parser (xv6A1/sh.c from 195)

    A command line is the list of its bytes before the NUL; a pointer into it
    is an index, and [es] is the index of the NUL. The parsing routines move
    the pointer [*ps], which is the state of the monad here; the shell's
    [panic], which prints and exits, is the monad's. *)

From S2P Require Import Prelude Memory KString Ulib.

Definition MAXARGS : nat := 10.
Definition O_RDONLY : Z := 0.
Definition O_WRONLY : Z := 1.
Definition O_CREATE : Z := 512.

(** A piece of the line, from [q] up to [eq]. *)
Abbreviation span := (nat * nat)%type.

(** [struct cmd] and its variants. Its words are pairs of pointers into the line;
    once these have been NUL-terminated they are strings. *)
Inductive cmd (word : Type) :=
  | EXEC (argv : list word)
  | REDIR (c : cmd word) (file : word) (mode fd : Z)
  | PIPE (left right : cmd word)
  | LIST (left right : cmd word)
  | BACK (c : cmd word).
Arguments EXEC {word} argv.
Arguments REDIR {word} c file mode fd.
Arguments PIPE {word} left right.
Arguments LIST {word} left right.
Arguments BACK {word} c.

Definition whitespace : list Z := [32; 9; 13; 10; 11; 0].
Definition symbols : list Z := [60; 124; 62; 38; 59; 40; 41; 0].

(** [strchr(set, c) != 0] *)
Definition in_set (set : list Z) (c : Z) : bool :=
  match strchr set c with Some (Some _) => true | _ => false end.

Section Parse.
(** The line. *)
Context (line : list Z).

Definition es : nat := length line.
Definition char_at (i : nat) : Z := default 0 (line !! i).

(** [while(s < es && p(s)) s++], with [n] bytes to the end. *)
Fixpoint skip (p : Z → bool) (n s : nat) : nat :=
  match n with
  | O => s
  | S n' => if p (char_at s) then skip p n' (s + 1) else s
  end.
Definition skip_from (p : Z → bool) (s : nat) : nat := skip p (es - s) s.

Definition is_space (c : Z) : bool := in_set whitespace c.
Definition in_word (c : Z) : bool := negb (in_set whitespace c) && negb (in_set symbols c).

(** [gettoken(ps, es, &q, &eq)]: the token, and where its text is. *)
Definition gettoken : M nat (Z * span) :=
  ps <- gets id ;;
  let s := skip_from is_space ps in
  let q := s in
  let c := char_at s in
  let '(tok, s) :=
    if c =? 0 then (c, s)
    else if in_set [124; 40; 41; 59; 38; 60; 0] c then (c, (s + 1)%nat)
    else if c =? 62 then
      if char_at (s + 1) =? 62 then (43, (s + 2)%nat) else (c, (s + 1)%nat)
    else (97, skip_from in_word s) in
  modify (λ _, skip_from is_space s) ;;;
  ret (tok, (q, s)).

(** [peek(ps, es, toks)] *)
Definition peek (toks : list Z) : M nat bool :=
  ps <- gets id ;;
  let s := skip_from is_space ps in
  modify (λ _, s) ;;;
  ret (negb (char_at s =? 0) && in_set toks (char_at s)).

(** The loop of [parseredirs]: each turn consumes a token, so [n] more than the
    bytes of the line are never used up. *)
Fixpoint parseredirs (n : nat) (c : cmd span) : M nat (cmd span) :=
  match n with
  | O => fault "fuel"
  | S n' =>
      b <- peek [60; 62; 0] ;;
      if negb b then ret c else
      t <- gettoken ;;
      f <- gettoken ;;
      if negb (f.1 =? 97) then panic "missing file for redirection" else
      if t.1 =? 60 then parseredirs n' (REDIR c f.2 O_RDONLY 0)
      else if t.1 =? 62 then parseredirs n' (REDIR c f.2 (Z.lor O_WRONLY O_CREATE) 1)
      else if t.1 =? 43 then parseredirs n' (REDIR c f.2 (Z.lor O_WRONLY O_CREATE) 1)
      else parseredirs n' c
  end.

(** The redirections read by one call, to be put around a command later: the
    [execcmd] they enclose is still being filled through [cmd]. *)
Fixpoint around (r inner : cmd span) : cmd span :=
  match r with
  | REDIR c f m d => REDIR (around c inner) f m d
  | _ => inner
  end.

(** The loop of [parseexec]: [args] is [cmd->argv], [r] is [ret] around it. *)
Fixpoint parseargs (n : nat) (args : list span) (r : cmd span) : M nat (cmd span) :=
  match n with
  | O => fault "fuel"
  | S n' =>
      b <- peek [124; 41; 38; 59; 0] ;;
      if b then ret (around r (EXEC args)) else
      t <- gettoken ;;
      if t.1 =? 0 then ret (around r (EXEC args)) else
      if negb (t.1 =? 97) then panic "syntax" else
      let args' := args ++ [t.2] in
      if (MAXARGS <=? length args')%nat then panic "too many args" else
      r' <- parseredirs (S es) r ;;
      parseargs n' args' r'
  end.

(** The loop of [parseline] over [&]. *)
Fixpoint parseback (n : nat) (c : cmd span) : M nat (cmd span) :=
  match n with
  | O => fault "fuel"
  | S n' =>
      b <- peek [38; 0] ;;
      if b then
        gettoken ;;;
        parseback n' (BACK c)
      else ret c
  end.

Fixpoint parseline (n : nat) : M nat (cmd span) :=
  match n with
  | O => fault "fuel"
  | S n' =>
      c <- parsepipe n' ;;
      c <- parseback (S es) c ;;
      b <- peek [59; 0] ;;
      if b then
        gettoken ;;;
        r <- parseline n' ;;
        ret (LIST c r)
      else ret c
  end
with parsepipe (n : nat) : M nat (cmd span) :=
  match n with
  | O => fault "fuel"
  | S n' =>
      c <- parseexec n' ;;
      b <- peek [124; 0] ;;
      if b then
        gettoken ;;;
        r <- parsepipe n' ;;
        ret (PIPE c r)
      else ret c
  end
with parseexec (n : nat) : M nat (cmd span) :=
  match n with
  | O => fault "fuel"
  | S n' =>
      b <- peek [40; 0] ;;
      if b then parseblock n' else
      r <- parseredirs (S es) (EXEC []) ;;
      parseargs (S es) [] r
  end
with parseblock (n : nat) : M nat (cmd span) :=
  match n with
  | O => fault "fuel"
  | S n' =>
      b <- peek [40; 0] ;;
      if negb b then panic "parseblock" else
      gettoken ;;;
      c <- parseline n' ;;
      b <- peek [41; 0] ;;
      if negb b then panic "syntax - missing )" else
      gettoken ;;;
      parseredirs (S es) c
  end.

(** The recursion goes around four routines for each byte of the line. *)
Definition FUEL : nat := 4 * es + 4.

(** [parsecmd] up to [nulterminate]. *)
Definition parse : M nat (cmd span) :=
  c <- parseline FUEL ;;
  peek [0] ;;;
  s <- gets id ;;
  if negb (s =? es)%nat then panic "syntax" else
  ret c.

End Parse.

(** [nulterminate]: the line with its NUL, after the ends of all words. *)
Fixpoint nulterminate (c : cmd span) (buf : list Z) : list Z :=
  match c with
  | EXEC argv => foldl (λ b w, <[w.2 := 0]> b) buf argv
  | REDIR c f _ _ => <[f.2 := 0]> (nulterminate c buf)
  | PIPE l r | LIST l r => nulterminate r (nulterminate l buf)
  | BACK c => nulterminate c buf
  end.

(** [parsecmd(s)]: the command and the buffer its strings are in. *)
Definition parsecmd (line : list Z) : res nat (cmd span * list Z) :=
  (c <- parse line ;; ret (c, nulterminate c (line ++ [0]))) 0%nat.
