(* ===== verification/ShellRound.v ===== *)
(** * The shell's parser reads back what a printer writes

    Command trees over strings are written as tokens, with parentheses where
    the grammar of sh.c needs them; the parser, run on the text, returns the
    tree. *)

From S2P Require Import Prelude Memory KString Ulib FsBlocks Shell ShellProps.

(** ** Writing a command *)

Inductive tok :=
  | W (w : list Z)
  | Sym (c : Z).

(** Every token is followed by a space. *)
Definition tok_text (t : tok) : list Z :=
  match t with
  | W w => w ++ [32]
  | Sym c => [c; 32]
  end.
Definition render (ts : list tok) : list Z := concat (map tok_text ts).

Definition redir_sym (fd : Z) : Z := if fd =? 0 then 60 else 62.

Definition parens (b : bool) (ts : list tok) : list tok := if b then Sym 40 :: ts ++ [Sym 41] else ts.

(** The tokens of a command where the grammar has a line (0), a line without
    [;] (1), a pipeline (2) or a single command (3). *)
Fixpoint toks (c : cmd (list Z)) (lvl : nat) : list tok :=
  match c with
  | EXEC argv => map W argv
  | REDIR c f _ fd => toks c 3 ++ [Sym (redir_sym fd); W f]
  | PIPE l r => parens (2 <? lvl)%nat (toks l 3 ++ Sym 124 :: toks r 2)
  | LIST l r => parens (0 <? lvl)%nat (toks l 1 ++ Sym 59 :: toks r 0)
  | BACK c => parens (1 <? lvl)%nat (toks c 1 ++ [Sym 38])
  end.

(** A word of the shell, and a command the shell can express. *)
Definition word_ok (w : list Z) : Prop := w ≠ [] ∧ Forall (λ c, c ≠ 0 ∧ in_word c = true) w.

Definition redir_ok (mode fd : Z) : Prop := (mode = 0 ∧ fd = 0) ∨ (mode = 513 ∧ fd = 1).

Fixpoint writable (c : cmd (list Z)) : Prop :=
  match c with
  | EXEC argv => Forall word_ok argv ∧ (length argv < MAXARGS)%nat
  | REDIR c f m d => writable c ∧ word_ok f ∧ redir_ok m d
  | PIPE l r | LIST l r => writable l ∧ writable r
  | BACK c => writable c
  end.

Definition tok_ok (t : tok) : Prop :=
  match t with
  | W w => word_ok w
  | Sym c => c ∈ [124; 40; 41; 59; 38; 60; 62]
  end.

Lemma toks_ok c lvl : writable c → Forall tok_ok (toks c lvl).
Proof.
  assert (Hp : ∀ b ts, Forall tok_ok ts → Forall tok_ok (parens b ts)).
  { intros [] ts H; [|done]. constructor; [cbn; set_solver|]. apply Forall_app. split; [done|]. constructor; [cbn; set_solver|done]. }
  revert lvl. induction c as [argv|c IH f m d|l IHl r IHr|l IHl r IHr|c IH]; intros lvl H; cbn [toks writable] in *.
  - destruct H as [H _]. induction H; constructor; done.
  - destruct H as (Hc & Hf & _). apply Forall_app. split; [auto|].
    constructor; [unfold redir_sym; destruct (d =? 0); cbn; set_solver|by constructor].
  - destruct H. apply Hp, Forall_app. split; [auto|]. constructor; [cbn; set_solver|auto].
  - destruct H. apply Hp, Forall_app. split; [auto|]. constructor; [cbn; set_solver|auto].
  - apply Hp, Forall_app. split; [auto|]. constructor; [cbn; set_solver|done].
Qed.

(** ** Reading tokens *)

Lemma first_char t : tok_ok t → ∃ c r, tok_text t = c :: r ∧ c ≠ 0 ∧ is_space c = false.
Proof.
  destruct t as [w|c]; cbn.
  - intros [Hne Hw]. destruct w as [|c w]; [done|]. apply Forall_cons in Hw as [[H0 Hc] _].
    exists c, (w ++ [32]). split_and!; [done|done|]. unfold in_word in Hc. by apply andb_true_iff in Hc as [?%negb_true_iff _].
  - intros H. exists c, [32]. split; [done|]. repeat (apply elem_of_cons in H as [->|H]; [done|]). by apply elem_of_nil in H.
Qed.

Section Stream.
Context (line : list Z) (Hnz : Forall (λ c, c ≠ 0) line).
Abbreviation es := (es line).
Abbreviation char_at := (char_at line).
Abbreviation skip_from := (skip_from line).

(** The rest of the line from [s] on is the text of [ts]. *)
Definition stream (s : nat) (ts : list tok) : Prop :=
  (s <= es)%nat ∧ drop s line = render ts ∧ Forall tok_ok ts.

Lemma stream_char s i l : drop s line = l → (i < length l)%nat → char_at (s + i) = l !!! i.
Proof.
  intros <- Hi. unfold char_at. rewrite <- lookup_drop.
  by rewrite (list_lookup_lookup_total_lt _ _ Hi).
Qed.

Lemma stream_end s : stream s [] → s = es.
Proof. intros (Hs & E & _). apply (f_equal length) in E. rewrite length_drop in E. cbn in E. unfold es in *. lia. Qed.

Lemma stream_next s n t ts :
  stream s (t :: ts) → n = (s + length (tok_text t))%nat → stream n ts.
Proof.
  intros (Hs & E & Hok) ->. apply Forall_cons in Hok as [_ Hok].
  assert (E' : drop s line = tok_text t ++ render ts) by done.
  split_and!; [|by rewrite <- drop_drop, E', drop_app_length|done].
  apply (f_equal length) in E'. rewrite length_drop, length_app in E'. unfold es in *. lia.
Qed.

(** No spaces to skip at the start of a token, or at the end. *)
Lemma stream_skip s ts : stream s ts → skip_from is_space s = s.
Proof.
  intros St. destruct ts as [|t ts].
  - apply stream_end in St. unfold skip_from. by rewrite St, Nat.sub_diag.
  - destruct St as (Hs & E & Hok). apply Forall_cons in Hok as [Ht _].
    destruct (first_char t Ht) as (c & r & Et & _ & Hc). apply skip_stays.
    rewrite <- (Nat.add_0_r s). rewrite (stream_char s 0 _ E) by (cbn; rewrite Et; cbn; lia).
    cbn. by rewrite Et.
Qed.

(** The character a token starts with; 0 at the end. *)
Definition head_char (ts : list tok) : Z :=
  match ts with
  | [] => 0
  | t :: _ => match tok_text t with c :: _ => c | [] => 0 end
  end.

Lemma stream_head s ts : stream s ts → char_at s = head_char ts.
Proof.
  intros St. destruct ts as [|t ts].
  - apply stream_end in St. subst. unfold char_at. by rewrite lookup_ge_None_2.
  - destruct St as (Hs & E & Hok). apply Forall_cons in Hok as [Ht _].
    destruct (first_char t Ht) as (c & r & Et & _). rewrite <- (Nat.add_0_r s), (stream_char s 0 _ E); cbn; rewrite Et; cbn; [done|lia].
Qed.

Lemma peek_stream set s ts : stream s ts → peek line set s = Ret (negb (head_char ts =? 0) && in_set set (head_char ts)) s.
Proof.
  intros St. unfold peek, bind, gets, modify, ret, id. cbv beta iota zeta.
  rewrite (stream_skip s ts St), (stream_head s ts St). done.
Qed.
(** A symbol, and the space after it. *)
Lemma token_sym s c ts : stream s (Sym c :: ts) →
  ∃ w s', gettoken line s = Ret (c, w) s' ∧ stream s' ts ∧ (s < s')%nat.
Proof.
  intros St. pose proof St as (Hs & E & Hok). apply Forall_cons in Hok as [Hc _]. cbn in Hc.
  pose proof (stream_next s (s + 2) _ _ St eq_refl) as Sn.
  assert (H1 : char_at (s + 1) = 32) by (rewrite (stream_char s 1 _ E); [done|cbn; lia]).
  assert (Hn : skip_from is_space (s + 1) = (s + 2)%nat).
  { unfold skip_from. pose proof (proj1 Sn) as Hn. replace (es - (s + 1))%nat with (S (es - (s + 2)))%nat by lia.
    cbn [skip]. rewrite H1. change (is_space 32) with true. cbv iota.
    replace (s + 1 + 1)%nat with (s + 2)%nat by lia. exact (stream_skip (s + 2) ts Sn). }
  exists (s, (s + 1)%nat), (s + 2)%nat. split; [|split; [exact (stream_next s _ _ _ St eq_refl)|lia]].
  unfold gettoken, bind, gets, modify, ret, id. cbv beta iota zeta.
  rewrite (stream_skip s _ St), (stream_head s _ St). cbn [head_char tok_text].
  repeat (apply elem_of_cons in Hc as [->|Hc]; [cbn -[Nat.add]; rewrite ?H1; cbn -[Nat.add]; by rewrite Hn|]).
  by apply elem_of_nil in Hc.
Qed.

Lemma skip_word w : ∀ s r, Forall (λ c, c ≠ 0 ∧ in_word c = true) w → (s <= es)%nat → drop s line = w ++ 32 :: r →
  skip_from in_word s = (s + length w)%nat.
Proof.
  induction w as [|c w IH]; intros s r Hw Hs E; cbn [length].
  - rewrite Nat.add_0_r. apply skip_stays. rewrite <- (Nat.add_0_r s), (stream_char s 0 _ E); [done|cbn; lia].
  - apply Forall_cons in Hw as [[H0 Hc] Hw].
    assert (Hlt : (s < es)%nat).
    { apply (f_equal length) in E. rewrite length_drop in E. cbn in E. unfold es in *. lia. }
    assert (Ec : char_at s = c) by (rewrite <- (Nat.add_0_r s), (stream_char s 0 _ E); [done|cbn; lia]).
    unfold skip_from. replace (es - s)%nat with (S (es - (s + 1))) by lia. cbn [skip]. rewrite Ec, Hc.
    transitivity (s + 1 + length w)%nat; [|lia]. apply (IH (s + 1)%nat r Hw ltac:(lia)).
    by rewrite <- drop_drop, E.
Qed.

(** Where a word is in the line; it is followed by a space. *)
Definition word_at (p : span) (w : list Z) : Prop :=
  word_ok w ∧ p.2 = (p.1 + length w)%nat ∧ ∃ r, drop p.1 line = w ++ 32 :: r.

Lemma token_word s w ts : stream s (W w :: ts) →
  ∃ p s', gettoken line s = Ret (97, p) s' ∧ stream s' ts ∧ (s < s')%nat ∧ word_at p w.
Proof.
  intros St. pose proof St as (Hs & E & Hok). apply Forall_cons in Hok as [Hw _]. cbn in Hw.
  assert (E' : drop s line = w ++ 32 :: render ts).
  { rewrite E. unfold render. cbn [map concat tok_text]. by rewrite <- app_assoc. }
  pose proof (stream_next s (s + length w + 1) _ _ St ltac:(cbn [tok_text]; rewrite length_app; cbn; lia)) as Sn.
  exists (s, (s + length w)%nat), (s + length w + 1)%nat. destruct Hw as [Hne Hw].
  split; [|split; [done|]; split; [lia|]; split; [by split|]; split; [done|by eexists]].
  pose proof (skip_word w s _ Hw Hs E') as Hskip.
  assert (Hn : skip_from is_space (s + length w) = (s + length w + 1)%nat).
  { unfold skip_from. pose proof (proj1 Sn) as Hn. replace (es - (s + length w))%nat with (S (es - (s + length w + 1)))%nat by lia.
    cbn [skip]. rewrite (stream_char s (length w) _ E') by (rewrite length_app; cbn; lia).
    rewrite lookup_total_app_r, Nat.sub_diag by lia. change (is_space _) with true. cbv iota.
    exact (stream_skip (s + length w + 1) ts Sn). }
  unfold gettoken, bind, gets, modify, ret, id. cbv beta iota zeta.
  rewrite (stream_skip s _ St), (stream_head s _ St). cbn [head_char tok_text].
  destruct w as [|c w]; [done|]. apply Forall_cons in Hw as [[H0 Hc] Hw]. cbn [app].
  unfold in_word in Hc. apply andb_true_iff in Hc as [Hsp%negb_true_iff Hsy%negb_true_iff].
  rewrite (proj2 (Z.eqb_neq c 0) H0).
  change symbols with ([60; 124; 62; 38; 59; 40; 41] ++ [0]) in Hsy.
  assert (Hnot : c ∉ [60; 124; 62; 38; 59; 40; 41]).
  { intros Hin. apply in_set_spec in Hin; [congruence|repeat constructor; done|done]. }
  assert (in_set [124; 40; 41; 59; 38; 60; 0] c = false) as ->.
  { apply not_true_iff_false. change [124; 40; 41; 59; 38; 60; 0] with ([124; 40; 41; 59; 38; 60] ++ [0]).
    rewrite in_set_spec by (try done; repeat constructor; done). set_solver. }
  rewrite (proj2 (Z.eqb_neq c 62)) by set_solver. by rewrite Hskip, Hn.
Qed.

Lemma token_end s : stream s [] → ∃ p, gettoken line s = Ret (0, p) s.
Proof.
  intros St. eexists. unfold gettoken, bind, gets, modify, ret, id. cbv beta iota zeta.
  rewrite (stream_skip s _ St), (stream_head s _ St). cbn [head_char Z.eqb]. by rewrite (stream_skip s _ St).
Qed.

(** What [peek] sees of the next token. *)
Definition sees (set : list Z) (ts : list tok) : bool := negb (head_char ts =? 0) && in_set set (head_char ts).

Lemma peek_sees set s ts : stream s ts → peek line set s = Ret (sees set ts) s.
Proof. apply peek_stream. Qed.

Lemma sees_word set w ts : word_ok w → (∀ c, in_set set c = true → in_set symbols c = true) →
  sees set (W w :: ts) = false.
Proof.
  intros [Hne Hw] Hset. unfold sees. destruct w as [|c w]; [done|]. cbn.
  apply Forall_cons in Hw as [[H0 Hc] _]. unfold in_word in Hc. apply andb_true_iff in Hc as [_ Hc%negb_true_iff].
  rewrite (proj2 (Z.eqb_neq c 0) H0). cbn. destruct (in_set set c) eqn:E; [|done]. apply Hset in E. congruence.
Qed.

Lemma sub_symbols set : Forall (λ c, c ∈ [60; 124; 62; 38; 59; 40; 41]) set →
  ∀ c, in_set (set ++ [0]) c = true → in_set symbols c = true.
Proof.
  intros Hs c Hc. destruct (decide (c = 0)) as [->|H0].
  { exfalso. clear Hs. induction set as [|x set IH]; [done|]. unfold in_set in *. cbn in Hc.
    destruct (x =? 0) eqn:Ex; [done|].
    destruct (strchr (set ++ [0]) 0) as [[]|]; by try apply IH. }
  change symbols with ([60; 124; 62; 38; 59; 40; 41] ++ [0]).
  apply in_set_spec in Hc; [|..|done].
  - apply in_set_spec; [repeat constructor; done|done|]. rewrite Forall_forall in Hs. by apply Hs.
  - eapply Forall_impl; [exact Hs|]. intros x Hx ->. cbv beta in Hx.
    repeat (apply elem_of_cons in Hx as [Hx|Hx]; [done|]). by apply elem_of_nil in Hx.
Qed.

(** ** The tree over pieces of the line and the tree over strings *)

Fixpoint den (c : cmd span) (a : cmd (list Z)) : Prop :=
  match c, a with
  | EXEC ps, EXEC ws => Forall2 word_at ps ws
  | REDIR c p m d, REDIR a w m' d' => den c a ∧ word_at p w ∧ m = m' ∧ d = d'
  | PIPE l r, PIPE l' r' | LIST l r, LIST l' r' => den l l' ∧ den r r'
  | BACK c, BACK a => den c a
  | _, _ => False
  end.

(** Redirections around a command, the innermost first. *)
Abbreviation redir := (list Z * Z * Z)%type.
Definition wrap (a : cmd (list Z)) (rs : list redir) : cmd (list Z) :=
  foldl (λ c r, REDIR c r.1.1 r.1.2 r.2) a rs.
Definition rtoks (rs : list redir) : list tok := concat (map (λ r, [Sym (redir_sym r.2); W r.1.1]) rs).
Definition redirs_ok (rs : list redir) : Prop := Forall (λ r, redir_ok r.1.2 r.2) rs.

Lemma around_den r rs ps ws :
  den r (wrap (EXEC []) rs) → Forall2 word_at ps ws → den (around r (EXEC ps)) (wrap (EXEC ws) rs).
Proof.
  intros Hr Hw. revert r Hr. induction rs as [|x rs IH] using rev_ind; intros r Hr.
  - cbn in Hr. by destruct r.
  - unfold wrap in *. rewrite foldl_app in Hr |- *. cbn in Hr |- *. destruct r; try done.
    destruct Hr as (Hr & ? & ? & ?). cbn. by split_and!; [apply IH|..].
Qed.

Lemma parseredirs_run rs : ∀ n c a s ts, den c a → stream s (rtoks rs ++ ts) → sees [60; 62; 0] ts = false →
  redirs_ok rs → (es - s < n)%nat →
  ∃ c' s', parseredirs line n c s = Ret c' s' ∧ den c' (wrap a rs) ∧ stream s' ts ∧ (s <= s')%nat.
Proof.
  induction rs as [|[[f m] d] rs IH]; intros n c a s ts Hc St Hts Hok Hn; (destruct n as [|n]; [lia|]).
  - cbn [parseredirs]. run (peek_sees [60; 62; 0] s _ St). cbn [rtoks map concat app] in *. rewrite Hts. cbn [negb]. exists c, s. by split_and!.
  - apply Forall_cons in Hok as [Hr Hok].
    change (stream s (Sym (redir_sym d) :: W f :: rtoks rs ++ ts)) in St.
    cbn [parseredirs]. run (peek_sees [60; 62; 0] s _ St).
    assert (sees [60; 62; 0] (Sym (redir_sym d) :: W f :: rtoks rs ++ ts) = true) as ->.
    { unfold sees, redir_sym. cbn [head_char tok_text]. by destruct (d =? 0). }
    cbn [negb]. destruct (token_sym s _ _ St) as (w & s1 & E1 & St1 & ?). run E1.
    destruct (token_word s1 _ _ St1) as (p & s2 & E2 & St2 & ? & Hp). run E2.
    pose proof (proj1 St2). cbn [fst snd Z.eqb Pos.eqb negb].
    destruct Hr as [[Hm Hd]|[Hm Hd]]; cbn in Hm, Hd; subst m d.
    + change (redir_sym 0 =? 60) with true. cbv iota.
      destruct (IH n (REDIR c p O_RDONLY 0) (REDIR a f 0 0) s2 ts) as (c' & s' & E & ? & ? & ?); try done; [lia|].
      exists c', s'. split_and!; [exact E|done..|lia].
    + change (redir_sym 1 =? 60) with false. change (redir_sym 1 =? 62) with true. cbv iota.
      destruct (IH n (REDIR c p (Z.lor O_WRONLY O_CREATE) 1) (REDIR a f 513 1) s2 ts) as (c' & s' & E & ? & ? & ?);
        try done; [lia|].
      exists c', s'. split_and!; [exact E|done..|lia].
Qed.

(** The tokens that may follow a command of each level. *)
Definition follows (set : list Z) (ts : list tok) : Prop := head_char ts ∈ set.

Ltac follow_cases H :=
  unfold follows in H; repeat (apply elem_of_cons in H as [H|H]; [unfold sees; rewrite H; done|]);
  by apply elem_of_nil in H.

Lemma parseargs_run ws : ∀ n ps ws0 r rs0 s rs ts,
  stream s (map W ws ++ rtoks rs ++ ts) → follows [0; 124; 41; 38; 59] ts → redirs_ok rs →
  Forall2 word_at ps ws0 → den r (wrap (EXEC []) rs0) → (ws ≠ [] → rs0 = []) → (ws = [] → rs = []) →
  (length (ws0 ++ ws) < MAXARGS)%nat → (es - s < n)%nat →
  ∃ c s', parseargs line n ps r s = Ret c s' ∧ den c (wrap (EXEC (ws0 ++ ws)) (rs0 ++ rs)) ∧ stream s' ts ∧ (s <= s')%nat.
Proof.
  induction ws as [|w ws IH]; intros n ps ws0 r rs0 s rs ts St Hf Hok Hps Hr H0 H1 Hl Hn; (destruct n as [|n]; [lia|]);
    cbn [parseargs].
  - rewrite H1 in St |- * by done. cbn [rtoks map concat app] in St. rewrite !app_nil_r.
    exists (around r (EXEC ps)), s. split; [|by split_and!; [apply around_den|..]].
    run (peek_sees [124; 41; 38; 59; 0] s _ St).
    destruct (sees [124; 41; 38; 59; 0] ts) eqn:Es; [done|].
    destruct ts as [|t ts].
    + destruct (token_end s St) as [p E]. by run E.
    + exfalso. revert Es. apply not_false_iff_true. pose proof St as (_ & _ & Hts). apply Forall_cons in Hts as [Ht _].
      destruct (first_char t Ht) as (c & rr & Et & Hc & _). unfold follows in Hf. cbn in Hf. rewrite Et in Hf.
      unfold sees. cbn. rewrite Et. apply elem_of_cons in Hf as [->|Hf]; [done|].
      repeat (apply elem_of_cons in Hf as [->|Hf]; [done|]). by apply elem_of_nil in Hf.
  - cbn [map app] in St. pose proof St as (_ & _ & Hts). apply Forall_cons in Hts as [Hw _]. cbn in Hw.
    run (peek_sees [124; 41; 38; 59; 0] s _ St).
    rewrite sees_word; [|done|apply (sub_symbols [124; 41; 38; 59]); repeat constructor; set_solver].
    destruct (token_word s w _ St) as (p & s1 & E1 & St1 & ? & Hp). run E1. cbn [fst snd Z.eqb Pos.eqb negb].
    pose proof (proj1 St1). rewrite length_app in Hl. cbn [length] in Hl. pose proof (Forall2_length _ _ _ Hps) as Hlp.
    rewrite (proj2 (Nat.leb_gt MAXARGS _)) by (rewrite length_app; cbn; lia).
    specialize (H0 ltac:(done)). subst rs0. cbn [app].
    assert (Hps' : Forall2 word_at (ps ++ [p]) (ws0 ++ [w])) by (apply Forall2_app; [done|by constructor]).
    replace (ws0 ++ w :: ws) with ((ws0 ++ [w]) ++ ws) by (by rewrite <- app_assoc).
    destruct ws as [|w2 ws].
    + destruct (parseredirs_run rs (S es) r (EXEC []) s1 ts Hr St1) as (r' & s2 & E2 & Hr' & St2 & ?); try done.
      { follow_cases Hf. } { lia. }
      run E2. destruct (IH n (ps ++ [p]) (ws0 ++ [w]) r' rs s2 [] ts) as (c & s' & E & Hc & St' & ?); try done.
      { constructor. } { rewrite !length_app. cbn. lia. } { lia. }
      exists c, s'. rewrite app_nil_r, (app_nil_r rs) in Hc. rewrite app_nil_r. split_and!; [exact E|exact Hc|exact St'|lia].
    + pose proof St1 as (_ & _ & Hts). cbn [map app] in Hts. apply Forall_cons in Hts as [Hw2 _]. cbn in Hw2.
      destruct (parseredirs_run [] (S es) r (EXEC []) s1 (map W (w2 :: ws) ++ rtoks rs ++ ts) Hr St1)
        as (r' & s2 & E2 & Hr' & St2 & ?).
      { cbn [map app]. apply sees_word; [done|]. apply (sub_symbols [60; 62]). repeat constructor; set_solver. }
      { constructor. } { lia. }
      run E2. destruct (IH n (ps ++ [p]) (ws0 ++ [w]) r' [] s2 rs ts) as (c & s' & E & Hc & St' & ?); try done.
      { rewrite !length_app. cbn in Hl |- *. lia. } { lia. }
      exists c, s'. split_and!; [exact E|exact Hc|exact St'|lia].
Qed.

(** ** One statement for each level of the grammar *)

Definition amps (k : nat) : list tok := replicate k (Sym 38).

Definition parses_line (a : cmd (list Z)) : Prop := ∀ n s ts,
  stream s (toks a 0 ++ ts) → follows [0; 41] ts → (4 * (es - s) + 4 <= n)%nat →
  ∃ c s', parseline line n s = Ret c s' ∧ den c a ∧ stream s' ts ∧ (s <= s')%nat.

Definition parses_back (a : cmd (list Z)) : Prop := ∀ n k s ts,
  stream s (toks a 1 ++ amps k ++ ts) → follows [0; 41; 59] ts → (4 * (es - s) + 3 <= n)%nat →
  ∃ c0 s0 c s', parsepipe line n s = Ret c0 s0 ∧ parseback line (S es) c0 s0 = Ret c s' ∧
    den c (Nat.iter k BACK a) ∧ stream s' ts ∧ (s <= s')%nat.

Definition parses_pipe (a : cmd (list Z)) : Prop := ∀ n s ts,
  stream s (toks a 2 ++ ts) → follows [0; 41; 59; 38] ts → (4 * (es - s) + 3 <= n)%nat →
  ∃ c s', parsepipe line n s = Ret c s' ∧ den c a ∧ stream s' ts ∧ (s <= s')%nat.

Definition parses_exec (a : cmd (list Z)) : Prop := ∀ n s rs ts,
  stream s (toks a 3 ++ rtoks rs ++ ts) → follows [0; 41; 59; 38; 124] ts → redirs_ok rs →
  (4 * (es - s) + 2 <= n)%nat →
  ∃ c s', parseexec line n s = Ret c s' ∧ den c (wrap a rs) ∧ stream s' ts ∧ (s <= s')%nat.

Lemma parseback_run k : ∀ m c a s ts, den c a → stream s (amps k ++ ts) → follows [0; 41; 59] ts → (es - s < m)%nat →
  ∃ c' s', parseback line m c s = Ret c' s' ∧ den c' (Nat.iter k BACK a) ∧ stream s' ts ∧ (s <= s')%nat.
Proof.
  induction k as [|k IH]; intros m c a s ts Hc St Hf Hm; (destruct m as [|m]; [lia|]); cbn [parseback];
    run (peek_sees [38; 0] s _ St).
  - cbn [amps replicate app] in *. assert (sees [38; 0] ts = false) as -> by follow_cases Hf.
    exists c, s. by split_and!.
  - change (sees [38; 0] (amps (S k) ++ ts)) with true. cbv iota.
    destruct (token_sym s 38 (amps k ++ ts) St) as (w & s1 & E1 & St1 & ?). run E1. pose proof (proj1 St1).
    destruct (IH m (BACK c) (BACK a) s1 ts) as (c' & s' & E & Hd & St' & ?); try done; [lia|].
    exists c', s'. rewrite Nat.iter_succ_r. split_and!; [exact E|exact Hd|exact St'|lia].
Qed.

Lemma line_of_back a : parses_back a → toks a 0 = toks a 1 → parses_line a.
Proof.
  intros H Et n s ts St Hf Hn. destruct n as [|n]; [lia|]. rewrite Et in St.
  destruct (H n 0%nat s ts St) as (c0 & s0 & c & s' & E1 & E2 & Hd & St' & ?); [|lia|].
  { unfold follows in *. set_solver. }
  cbn [parseline]. run E1. run E2. run (peek_sees [59; 0] s' _ St').
  assert (sees [59; 0] ts = false) as -> by follow_cases Hf. exists c, s'. by split_and!.
Qed.

Lemma back_of_pipe a : parses_pipe a → toks a 1 = toks a 2 → parses_back a.
Proof.
  intros H Et n k s ts St Hf Hn. rewrite Et in St.
  destruct (H n s (amps k ++ ts) St) as (c0 & s0 & E1 & Hd & St0 & ?); [|lia|].
  { destruct k; unfold follows in *; cbn [amps replicate app head_char tok_text]; set_solver. }
  destruct (parseback_run k (S es) c0 a s0 ts Hd St0 Hf) as (c & s' & E2 & Hc & St' & ?); [lia|].
  exists c0, s0, c, s'. split_and!; [exact E1|exact E2|exact Hc|exact St'|lia].
Qed.

Lemma pipe_of_exec a : parses_exec a → toks a 2 = toks a 3 → parses_pipe a.
Proof.
  intros H Et n s ts St Hf Hn. destruct n as [|n]; [lia|]. rewrite Et in St.
  destruct (H n s [] ts St) as (c & s' & E & Hd & St' & ?); [|constructor|lia|].
  { unfold follows in *. set_solver. }
  cbn [parsepipe]. run E. run (peek_sees [124; 0] s' _ St').
  assert (sees [124; 0] ts = false) as -> by follow_cases Hf. exists c, s'. by split_and!.
Qed.

Lemma exec_of_line a : parses_line a → toks a 3 = Sym 40 :: toks a 0 ++ [Sym 41] → parses_exec a.
Proof.
  intros H Et n s rs ts St Hf Hok Hn. destruct n as [|[|n]]; [lia|lia|]. rewrite Et in St. cbn [app] in St.
  rewrite <- app_assoc in St. cbn [parseexec]. run (peek_sees [40; 0] s _ St).
  change (sees [40; 0] (Sym 40 :: _)) with true. cbv iota.
  cbn [parseblock]. run (peek_sees [40; 0] s _ St). change (sees [40; 0] (Sym 40 :: _)) with true. cbn [negb].
  destruct (token_sym s 40 _ St) as (w & s1 & E1 & St1 & ?). run E1. pose proof (proj1 St1).
  destruct (H n s1 (Sym 41 :: rtoks rs ++ ts)) as (c & s2 & E2 & Hd & St2 & ?); [done|unfold follows; cbn; set_solver|lia|].
  run E2. run (peek_sees [41; 0] s2 _ St2). change (sees [41; 0] (Sym 41 :: _)) with true. cbn [negb].
  destruct (token_sym s2 41 _ St2) as (w' & s3 & E3 & St3 & ?). run E3. pose proof (proj1 St3).
  destruct (parseredirs_run rs (S es) c a s3 ts Hd St3) as (c' & s' & E & Hc & St' & ?); [follow_cases Hf|done|lia|].
  exists c', s'. split_and!; [exact E|exact Hc|exact St'|lia].
Qed.

Lemma exec_words argv : Forall word_ok argv → (length argv < MAXARGS)%nat → parses_exec (EXEC argv).
Proof.
  intros Hw Hl n s rs ts St Hf Hok Hn. destruct n as [|n]; [lia|]. cbn [toks] in St.
  pose proof (proj1 St) as Hs. cbn [parseexec]. run (peek_sees [40; 0] s _ St).
  assert (follows [0; 124; 41; 38; 59] ts) as Hf' by (unfold follows in *; set_solver).
  destruct argv as [|w argv].
  - assert (sees [40; 0] (map W [] ++ rtoks rs ++ ts) = false) as ->.
    { destruct rs as [|[[f m] d] rs]; [cbn [map app rtoks concat]; follow_cases Hf|].
      unfold sees. cbn [map app rtoks concat head_char tok_text snd]. unfold redir_sym. by destruct (d =? 0). }
    destruct (parseredirs_run rs (S es) (EXEC []) (EXEC []) s ts) as (r & s1 & E1 & Hr & St1 & ?); try done; [constructor|follow_cases Hf|lia|].
    run E1. destruct (parseargs_run [] (S es) [] [] r rs s1 [] ts) as (c & s' & E & Hc & St' & ?); try done; [constructor..|lia|].
    exists c, s'. rewrite (app_nil_r rs) in Hc. split_and!; [exact E|exact Hc|exact St'|lia].
  - cbn [map app] in St |- *. apply Forall_cons in Hw as [Hw _].
    rewrite sees_word; [|done|apply (sub_symbols [40]); repeat constructor; set_solver].
    destruct (parseredirs_run [] (S es) (EXEC []) (EXEC []) s (W w :: map W argv ++ rtoks rs ++ ts))
      as (r & s1 & E1 & Hr & St1 & ?); try done; [constructor| |constructor|lia|].
    { apply sees_word; [done|]. apply (sub_symbols [60; 62]). repeat constructor; set_solver. }
    run E1. destruct (parseargs_run (w :: argv) (S es) [] [] r [] s1 rs ts) as (c & s' & E & Hc & St' & ?); try done; [lia|].
    exists c, s'. split_and!; [exact E|exact Hc|exact St'|lia].
Qed.

Lemma pipe_step l r : parses_exec l → parses_pipe r → parses_pipe (PIPE l r).
Proof.
  intros Hl Hr n s ts St Hf Hn. destruct n as [|n]; [lia|]. cbn [toks Nat.ltb Nat.leb parens] in St.
  rewrite <- app_assoc in St. cbn [app] in St.
  destruct (Hl n s [] (Sym 124 :: toks r 2 ++ ts) St) as (c & s1 & E1 & Hd & St1 & ?);
    [unfold follows; cbn; set_solver|constructor|lia|].
  cbn [parsepipe]. run E1. run (peek_sees [124; 0] s1 _ St1). change (sees [124; 0] (Sym 124 :: _)) with true. cbv iota.
  destruct (token_sym s1 124 _ St1) as (w & s2 & E2 & St2 & ?). run E2. pose proof (proj1 St2).
  destruct (Hr n s2 ts St2 Hf) as (c2 & s' & E3 & Hd2 & St' & ?); [lia|].
  run E3. exists (PIPE c c2), s'. by split_and!; [..|lia].
Qed.

Lemma list_step l r : parses_back l → parses_line r → parses_line (LIST l r).
Proof.
  intros Hl Hr n s ts St Hf Hn. destruct n as [|n]; [lia|]. cbn [toks Nat.ltb Nat.leb parens] in St.
  rewrite <- app_assoc in St. cbn [app] in St.
  destruct (Hl n 0%nat s (Sym 59 :: toks r 0 ++ ts) St) as (c0 & s0 & c & s1 & E0 & E1 & Hd & St1 & ?);
    [unfold follows; cbn; set_solver|lia|].
  cbn [parseline]. run E0. run E1. run (peek_sees [59; 0] s1 _ St1). change (sees [59; 0] (Sym 59 :: _)) with true. cbv iota.
  destruct (token_sym s1 59 _ St1) as (w & s2 & E2 & St2 & ?). run E2. pose proof (proj1 St2).
  destruct (Hr n s2 ts St2 Hf) as (c2 & s' & E3 & Hd2 & St' & ?); [lia|].
  run E3. exists (LIST c c2), s'. by split_and!; [..|lia].
Qed.

Lemma back_step c : parses_back c → parses_back (BACK c).
Proof.
  intros H n k s ts St Hf Hn. cbn [toks Nat.ltb Nat.leb parens] in St. rewrite <- app_assoc in St.
  destruct (H n (S k) s ts St Hf Hn) as (c0 & s0 & c' & s' & E0 & E1 & Hd & St' & ?).
  exists c0, s0, c', s'. rewrite Nat.iter_succ_r in Hd. by split_and!.
Qed.

Lemma redir_step c f m d : redir_ok m d → parses_exec c → parses_exec (REDIR c f m d).
Proof.
  intros Hr H n s rs ts St Hf Hok Hn. cbn [toks] in St. rewrite <- app_assoc in St.
  apply (H n s ((f, m, d) :: rs) ts St Hf); [by constructor|done].
Qed.

Lemma parses_all a : writable a → parses_line a ∧ parses_back a ∧ parses_pipe a ∧ parses_exec a.
Proof.
  induction a as [argv|c IH f m d|l IHl r IHr|l IHl r IHr|c IH]; cbn [writable]; intros Hw.
  - assert (H3 : parses_exec (EXEC argv)) by (apply exec_words; apply Hw).
    pose proof (pipe_of_exec _ H3 eq_refl) as H2. pose proof (back_of_pipe _ H2 eq_refl) as H1.
    pose proof (line_of_back _ H1 eq_refl). done.
  - destruct Hw as (Hc & Hf & Hr). destruct (IH Hc) as (_ & _ & _ & H).
    pose proof (redir_step c f m d Hr H) as H3. pose proof (pipe_of_exec _ H3 eq_refl) as H2.
    pose proof (back_of_pipe _ H2 eq_refl) as H1. pose proof (line_of_back _ H1 eq_refl). done.
  - destruct Hw as [Hl Hr]. destruct (IHl Hl) as (_ & _ & _ & Ha), (IHr Hr) as (_ & _ & Hb & _).
    pose proof (pipe_step l r Ha Hb) as H2. pose proof (back_of_pipe _ H2 eq_refl) as H1.
    pose proof (line_of_back _ H1 eq_refl) as H0. pose proof (exec_of_line _ H0 eq_refl). done.
  - destruct Hw as [Hl Hr]. destruct (IHl Hl) as (_ & Ha & _), (IHr Hr) as (Hb & _).
    pose proof (list_step l r Ha Hb) as H0. pose proof (exec_of_line _ H0 eq_refl) as H3.
    pose proof (pipe_of_exec _ H3 eq_refl) as H2. pose proof (back_of_pipe _ H2 eq_refl). done.
  - destruct (IH Hw) as (_ & Ha & _). pose proof (back_step c Ha) as H1. pose proof (line_of_back _ H1 eq_refl) as H0.
    pose proof (exec_of_line _ H0 eq_refl) as H3. pose proof (pipe_of_exec _ H3 eq_refl). done.
Qed.

(** ** The strings *)

(** The ends of the words of a command. *)
Fixpoint ends (c : cmd span) : list nat :=
  match c with
  | EXEC argv => map snd argv
  | REDIR c f _ _ => f.2 :: ends c
  | PIPE l r | LIST l r => ends l ++ ends r
  | BACK c => ends c
  end.

Lemma nulterminate_lookup c buf i : (i < length buf)%nat →
  nulterminate c buf !! i = if decide (i ∈ ends c) then Some 0 else buf !! i.
Proof.
  revert buf. induction c as [argv|c IH f m d|l IHl r IHr|l IHl r IHr|c IH]; intros buf Hi; cbn [nulterminate ends].
  - revert buf Hi. induction argv as [|w argv IH]; intros buf Hi; cbn [foldl map].
    { by rewrite decide_False by apply not_elem_of_nil. }
    rewrite IH by (by rewrite length_insert). destruct (decide (i = w.2)) as [->|Hn].
    + rewrite list_lookup_insert_eq by done. rewrite (decide_True (P := w.2 ∈ w.2 :: _)) by constructor. by case_decide.
    + rewrite list_lookup_insert_ne by done. destruct (decide (i ∈ map snd argv)) as [Hin|Hin].
      * by rewrite decide_True by (by constructor).
      * by rewrite decide_False by (by rewrite elem_of_cons; intros [|]).
  - destruct (decide (i = f.2)) as [->|Hn].
    + rewrite list_lookup_insert_eq by (by rewrite nulterminate_length). by rewrite decide_True by constructor.
    + rewrite list_lookup_insert_ne, IH by done. destruct (decide (i ∈ ends c)) as [Hin|Hin].
      * by rewrite decide_True by (by constructor).
      * by rewrite decide_False by (by rewrite elem_of_cons; intros [|]).
  - rewrite IHr, IHl by (rewrite ?nulterminate_length; done). repeat case_decide; try done; set_solver.
  - rewrite IHr, IHl by (rewrite ?nulterminate_length; done). repeat case_decide; try done; set_solver.
  - by apply IH.
Qed.

Lemma word_chars p w : word_at p w →
  char_at p.2 = 32 ∧ (p.2 < es)%nat ∧ ∀ k c, w !! k = Some c → line !! (p.1 + k)%nat = Some c ∧ c ≠ 32.
Proof.
  intros ((_ & Hw) & Hp & r & E). split_and!.
  - rewrite Hp, (stream_char _ _ _ E) by (rewrite length_app; cbn; lia). by rewrite lookup_total_app_r, Nat.sub_diag by lia.
  - apply (f_equal length) in E. rewrite length_drop, length_app in E. cbn in E. unfold es. lia.
  - intros k c Hk. split.
    + rewrite <- lookup_drop, E. apply lookup_app_l_Some. done.
    + intros ->. rewrite Forall_lookup in Hw. by destruct (Hw k 32 Hk).
Qed.

Lemma den_ends c a : den c a → Forall (λ e, char_at e = 32) (ends c).
Proof.
  revert a. induction c as [ps|c IH f m d|l IHl r IHr|l IHl r IHr|c IH]; intros [ws|a f' m' d'|l' r'|l' r'|a] Hd; cbn in *; try done.
  - induction Hd as [|p w ps ws Hp Hd IHd]; cbn; constructor; [|done]. by apply word_chars in Hp as (? & _).
  - destruct Hd as (Hd & Hf & _). constructor; [by apply word_chars in Hf as (? & _)|by eapply IH].
  - destruct Hd. apply Forall_app. eauto.
  - destruct Hd. apply Forall_app. eauto.
  - by eapply IH.
Qed.

(** The string a word's pointer points to once its end is a NUL. *)
Lemma word_string c p w : word_at p w → Forall (λ e, char_at e = 32) (ends c) → p.2 ∈ ends c →
  until_nul (drop p.1 (nulterminate c (line ++ [0]))) = w.
Proof.
  intros Hp He Hin. destruct (word_chars p w Hp) as (_ & Hlt & Hc). destruct Hp as ((_ & Hw) & Hp & _).
  set (buf := nulterminate c (line ++ [0])).
  assert (Hbuf : ∀ i, (i < es)%nat → buf !! i = if decide (i ∈ ends c) then Some 0 else line !! i).
  { intros i Hi. unfold buf. rewrite nulterminate_lookup by (rewrite length_app; cbn; unfold es in *; lia).
    by rewrite lookup_app_l by done. }
  assert (Hend : buf !! p.2 = Some 0) by (rewrite Hbuf by done; by rewrite decide_True).
  assert (Hsplit : drop p.1 buf = w ++ 0 :: drop (S p.2) buf).
  { rewrite <- (drop_S _ _ _ Hend). rewrite <- (take_drop (length w) (drop p.1 buf)) at 1. rewrite drop_drop.
    f_equal; [|f_equal; lia]. apply list_eq. intros k. destruct (decide (k < length w)%nat) as [Hk|Hk].
    - rewrite lookup_take_lt, lookup_drop by done. destruct (lookup_lt_is_Some_2 w k Hk) as [x Hx].
      destruct (Hc k x Hx) as [Hl H32]. rewrite Hbuf, Hx by lia. rewrite decide_False; [done|].
      intros Hk2. rewrite Forall_forall in He. specialize (He _ Hk2). cbv beta in He. unfold char_at in He.
      rewrite Hl in He. by cbn in He.
    - rewrite lookup_take_ge by lia. symmetry. apply lookup_ge_None. lia. }
  rewrite Hsplit. apply until_nul_cut. rewrite Forall_forall in Hw. intros H0. by destruct (Hw 0 H0).
Qed.

End Stream.

Fixpoint cmd_map {A B} (f : A → B) (c : cmd A) : cmd B :=
  match c with
  | EXEC argv => EXEC (map f argv)
  | REDIR c w m d => REDIR (cmd_map f c) (f w) m d
  | PIPE l r => PIPE (cmd_map f l) (cmd_map f r)
  | LIST l r => LIST (cmd_map f l) (cmd_map f r)
  | BACK c => BACK (cmd_map f c)
  end.

(** The C string in [buf] at a word. *)
Definition string_in (buf : list Z) (p : span) : list Z := until_nul (drop p.1 buf).

Lemma den_strings line c0 : Forall (λ c, c ≠ 0) line → Forall (λ e, char_at line e = 32) (ends c0) →
  ∀ c a, den line c a → Forall (λ e, e ∈ ends c0) (ends c) →
  cmd_map (string_in (nulterminate c0 (line ++ [0]))) c = a.
Proof.
  intros Hnz He c. induction c as [ps|c IH f m d|l IHl r IHr|l IHl r IHr|c IH];
    intros [ws|a f' m' d'|l' r'|l' r'|a] Hd Hin; cbn in *; try done.
  - f_equal. induction Hd as [|p w ps ws Hp Hd IHd]; cbn in *; [done|].
    apply Forall_cons in Hin as [Hi Hin]. f_equal; [by apply (word_string line Hnz c0)|by apply IHd].
  - destruct Hd as (Hd & Hf & -> & ->). apply Forall_cons in Hin as [Hi Hin].
    f_equal; [by apply IH|by apply (word_string line Hnz c0)].
  - destruct Hd. apply Forall_app in Hin as []. f_equal; auto.
  - destruct Hd. apply Forall_app in Hin as []. f_equal; auto.
  - f_equal. auto.
Qed.

Lemma render_nz ts : Forall tok_ok ts → Forall (λ c, c ≠ 0) (render ts).
Proof.
  induction 1 as [|t ts Ht _ IH]; [constructor|]. unfold render. cbn [map concat]. apply Forall_app. split; [|done].
  destruct t as [w|c]; cbn in *.
  - apply Forall_app. split; [|by repeat constructor]. destruct Ht as [_ Hw]. eapply Forall_impl; [exact Hw|]. by intros ? [].
  - constructor; [|by repeat constructor]. intros ->. set_solver.
Qed.

(** C32. The shell understands every command it can run: each command tree, of
    whatever shape, whose words are words of the shell and whose argument
    vectors have at most nine entries, has a text, and [parsecmd] of the text
    returns the tree, its words NUL-terminated strings in the buffer. *)
Theorem parsecmd_reads_back a : writable a →
  ∃ c buf s, parsecmd (render (toks a 0)) = Ret (c, buf) s ∧ cmd_map (string_in buf) c = a.
Proof.
  intros Hw. set (line := render (toks a 0)). pose proof (toks_ok a 0 Hw) as Hok.
  assert (Hnz : Forall (λ c, c ≠ 0) line) by (by apply render_nz).
  destruct (parses_all line Hnz a Hw) as [Hl _].
  destruct (Hl (FUEL line) 0%nat []) as (c & s & E & Hd & St & _).
  { split_and!; [lia|by rewrite app_nil_r|by rewrite app_nil_r]. }
  { unfold follows. cbn. set_solver. } { unfold FUEL. lia. }
  exists c, (nulterminate c (line ++ [0])), s. split.
  - unfold parsecmd, parse. run E. run (peek_sees line [0] s _ St). runs. cbn [id].
    apply stream_end in St as ->. by rewrite Nat.eqb_refl.
  - apply (den_strings line c Hnz); [by eapply den_ends|done|]. apply Forall_forall. done.
Qed.

(** [( ls | wc ) > out ; echo hi &] *)
Definition ex_cmd : cmd (list Z) :=
  LIST (REDIR (PIPE (EXEC [[108; 115]]) (EXEC [[119; 99]])) [111; 117; 116] 513 1)
    (BACK (EXEC [[101; 99; 104; 111]; [104; 105]])).

Lemma ex_cmd_writable : writable ex_cmd.
Proof.
  assert (redir_ok 513 1) by (by right). cbn [ex_cmd writable]. unfold word_ok, MAXARGS.
  repeat split; try done; try (cbn; lia); repeat constructor; done.
Qed.

Lemma parsecmd_reads_back_witness :
  ∃ c buf s, parsecmd (render (toks ex_cmd 0)) = Ret (c, buf) s ∧ cmd_map (string_in buf) c = ex_cmd.
Proof. exact (parsecmd_reads_back ex_cmd ex_cmd_writable). Defined.
