(* ===== verification/ShellRun.v ===== *)
(** * The shell at work (xv6A1/sh.c, [runcmd] to [fork1])

    [runcmd] as the tree of system calls it makes, depending on what they
    return; which programs it starts with which descriptors; and the loop that
    reads command lines. *)

From S2P Require Import Prelude Memory KString Ulib Shell.

(** ** System calls *)

(** What a process does: calls, each followed by what depends on its result. *)
Inductive prog :=
  | Exit
  | Exec (argv : list (list Z)) (failed : prog)
  | Message (text : list (list Z)) (k : prog)
  | Close (fd : Z) (k : prog)
  | Open (file : list Z) (mode : Z) (k : Z → prog)
  | Fork (k : Z → prog)
  | Wait (k : prog)
  | Pipe (k : option (Z * Z) → prog)
  | Dup (fd : Z) (k : prog).

Definition exec_failed : list Z := [101; 120; 101; 99; 32; 37; 115; 32; 102; 97; 105; 108; 101; 100; 10].
Definition open_failed : list Z := [111; 112; 101; 110; 32; 37; 115; 32; 102; 97; 105; 108; 101; 100; 10].

(** [panic(s)]: print and exit. *)
Definition sh_panic (s : list Z) : prog := Message [s] Exit.

(** [if(fork1() == 0) child; parent] where [child] does not return. *)
Definition fork1 (child parent : prog) : prog :=
  Fork (λ pid,
    if pid =? -1 then sh_panic [102; 111; 114; 107]
    else if pid =? 0 then child else parent).

Fixpoint runcmd (c : cmd (list Z)) : prog :=
  match c with
  | EXEC [] => Exit
  | EXEC (a :: argv) => Exec (a :: argv) (Message [exec_failed; a] Exit)
  | REDIR c file mode fd =>
      Close fd
        (Open file mode (λ r,
           if r <? 0 then Message [open_failed; file] Exit
           else runcmd c))
  | LIST l r => fork1 (runcmd l) (Wait (runcmd r))
  | PIPE l r =>
      Pipe (λ p,
        match p with
        | None => sh_panic [112; 105; 112; 101]
        | Some (p0, p1) =>
            fork1 (Close 1 (Dup p1 (Close p0 (Close p1 (runcmd l)))))
              (fork1 (Close 0 (Dup p0 (Close p0 (Close p1 (runcmd r)))))
                 (Close p0 (Close p1 (Wait (Wait Exit)))))
        end)
  | BACK c => fork1 (runcmd c) Exit
  end.

(** ** Descriptors *)

(** What a descriptor refers to. *)
Inductive target :=
  | Inherited (n : nat)
  | OpenFile (file : list Z) (mode : Z)
  | ReadEnd (pipe : nat)
  | WriteEnd (pipe : nat).

(** A process's descriptors, as [fdalloc] of sysfile.c keeps them: an array in
    which a new one takes the first free place. *)
Abbreviation fds := (list (option target)).

Definition fd_close (fd : Z) (t : fds) : fds := <[Z.to_nat fd := None]> t.
Fixpoint fd_free (t : fds) : option nat :=
  match t with
  | [] => None
  | None :: _ => Some 0%nat
  | Some _ :: t' => S <$> fd_free t'
  end.
Definition fd_put (x : target) (t : fds) : option (nat * fds) :=
  match fd_free t with
  | None => None
  | Some i => Some (i, <[i := Some x]> t)
  end.

(** What becomes of a process: it exits; it is now a program, with these
    descriptors; it has printed a message; it has a child; it has waited for one
    of its children, holding these descriptors meanwhile. *)
Inductive life :=
  | Ended
  | Became (argv : list (list Z)) (t : fds)
  | Said (text : list (list Z)) (l : life)
  | Forked (child l : life)
  | Waited (t : fds) (l : life).

(** The life of a process that makes the calls of [p] with the descriptors [t].
    The calls that may fail, of this process and of those it forks, are numbered
    from [n]; call [k] succeeds if [ok k], and a pipe is named by the number of
    its call. *)
Section Run.
Context (ok : nat → bool).

Fixpoint run_prog (p : prog) (t : fds) (n : nat) : life * nat :=
  match p with
  | Exit => (Ended, n)
  | Exec argv failed =>
      if ok n then (Became argv t, S n)
      else run_prog failed t (S n)
  | Message text k => let r := run_prog k t n in (Said text r.1, r.2)
  | Close fd k => run_prog k (fd_close fd t) n
  | Open file mode k =>
      if ok n then
        match fd_put (OpenFile file mode) t with
        | Some (fd, t') => run_prog (k (Z.of_nat fd)) t' (S n)
        | None => run_prog (k (-1)) t (S n)
        end
      else run_prog (k (-1)) t (S n)
  | Fork k =>
      if ok n then
        let child := run_prog (k 0) t (S n) in
        let parent := run_prog (k (Z.of_nat (S n))) t child.2 in
        (Forked child.1 parent.1, parent.2)
      else run_prog (k (-1)) t (S n)
  | Wait k => let r := run_prog k t n in (Waited t r.1, r.2)
  | Pipe k =>
      if ok n then
        match fd_put (ReadEnd n) t with
        | None => run_prog (k None) t (S n)
        | Some (p0, t0) =>
            match fd_put (WriteEnd n) t0 with
            | None => run_prog (k None) t (S n)
            | Some (p1, t1) => run_prog (k (Some (Z.of_nat p0, Z.of_nat p1))) t1 (S n)
            end
        end
      else run_prog (k None) t (S n)
  | Dup fd k =>
      match t !! Z.to_nat fd with
      | Some (Some x) => match fd_put x t with Some (_, t') => run_prog k t' n | None => run_prog k t n end
      | _ => run_prog k t n
      end
  end.

(** ** What a command means *)

Definition NOFILE : nat := 16.

(** A process with its three standard descriptors and nothing else open. *)
Definition std (x0 x1 x2 : target) : fds := [Some x0; Some x1; Some x2] ++ replicate 13 None.

Definition fork_text : list Z := [102; 111; 114; 107].
Definition pipe_text : list Z := [112; 105; 112; 101].

(** A child beside the rest, or the message that there can be none. *)
Definition beside (child rest : nat → life * nat) (n : nat) : life * nat :=
  if ok n then
    let a := child (S n) in
    let b := rest a.2 in
    (Forked a.1 b.1, b.2)
  else (Said [fork_text] Ended, S n).

(** The process that runs a command with standard input [x0], output [x1] and
    error [x2]. *)
Fixpoint started (c : cmd (list Z)) (x0 x1 x2 : target) (n : nat) : life * nat :=
  match c with
  | EXEC [] => (Ended, n)
  | EXEC (a :: argv) =>
      (if ok n then Became (a :: argv) (std x0 x1 x2) else Said [exec_failed; a] Ended, S n)
  | REDIR c file mode fd =>
      if ok n then
        if fd =? 0 then started c (OpenFile file mode) x1 x2 (S n)
        else started c x0 (OpenFile file mode) x2 (S n)
      else (Said [open_failed; file] Ended, S n)
  | LIST l r =>
      beside (started l x0 x1 x2)
        (λ n, let b := started r x0 x1 x2 n in (Waited (std x0 x1 x2) b.1, b.2)) n
  | PIPE l r =>
      if ok n then
        beside (started l x0 (WriteEnd n) x2)
          (beside (started r (ReadEnd n) x1 x2)
             (λ n, (Waited (std x0 x1 x2) (Waited (std x0 x1 x2) Ended), n))) (S n)
      else (Said [pipe_text] Ended, S n)
  | BACK c => beside (started c x0 x1 x2) (λ n, (Ended, n)) n
  end.

(** Redirections the parser makes. *)
Fixpoint std_redirs (c : cmd (list Z)) : Prop :=
  match c with
  | EXEC _ => True
  | REDIR c _ _ fd => std_redirs c ∧ (fd = 0 ∨ fd = 1)
  | PIPE l r | LIST l r => std_redirs l ∧ std_redirs r
  | BACK c => std_redirs c
  end.

(** [fork1] with what the two processes do. *)
Lemma fork1_beside child parent t n (f g : nat → life * nat) :
  (∀ n, run_prog child t n = f n) → (∀ n, run_prog parent t n = g n) →
  run_prog (fork1 child parent) t n = beside f g n.
Proof.
  intros Hf Hg. unfold fork1, beside. cbn [run_prog]. destruct (ok n); [|done].
  rewrite (proj2 (Z.eqb_neq (Z.of_nat (S n)) (-1))), (proj2 (Z.eqb_neq (Z.of_nat (S n)) 0)) by lia.
  change (0 =? -1) with false. change (0 =? 0) with true. cbv iota. by rewrite Hf, Hg.
Qed.

(** C34. A command runs with the descriptors it asks for, whichever of its calls
    fail: each program of a command is started with exactly its three standard
    descriptors open, where a redirection replaces its input or output by the
    file, and the two sides of a pipe are connected by the two ends of a pipe of
    their own; a shell that waits holds its standard descriptors only, so no end
    of a pipe stays open anywhere else; the second command of a list is run after
    waiting for the first, a pipe is left after waiting for both sides, and a
    command in the background is not waited for; a call that fails has its
    message and starts nothing more. *)
Theorem runcmd_connects c x0 x1 x2 n : std_redirs c →
  run_prog (runcmd c) (std x0 x1 x2) n = started c x0 x1 x2 n.
Proof.
  revert x0 x1 x2 n. induction c as [[|a argv]|c IH f m d|l IHl r IHr|l IHl r IHr|c IH]; intros x0 x1 x2 n Hc;
    cbn [std_redirs] in Hc; cbn [runcmd started]; try done.
  - cbn [run_prog]. by destruct (ok n).
  - cbn [run_prog]. destruct Hc as [Hc [->| ->]]; (destruct (ok n); [|done]).
    + exact (IH (OpenFile f m) x1 x2 (S n) Hc).
    + exact (IH x0 (OpenFile f m) x2 (S n) Hc).
  - cbn [run_prog]. destruct (ok n); [|done]. destruct Hc as [Hl Hr]. cbn [std app fd_put fd_free replicate].
    apply fork1_beside; intros k; [exact (IHl x0 (WriteEnd n) x2 k Hl)|].
    apply fork1_beside; intros k'; [exact (IHr (ReadEnd n) x1 x2 k' Hr)|done].
  - destruct Hc as [Hl Hr]. apply fork1_beside; intros k; [by apply IHl|]. cbn [run_prog]. by rewrite IHr.
  - apply fork1_beside; intros k; [by apply IH|done].
Qed.

End Run.

(** [ls | wc > out], then [ps]. *)
Lemma runcmd_connects_witness :
  let own := std (Inherited 0) (Inherited 1) (Inherited 2) in
  run_prog (λ k, (k <? 8)%nat)
    (runcmd (LIST (PIPE (EXEC [[108; 115]]) (REDIR (EXEC [[119; 99]]) [111; 117; 116] 513 1)) (EXEC [[112; 115]]))) own 0 =
  (Forked
     (Forked (Became [[108; 115]] (std (Inherited 0) (WriteEnd 1) (Inherited 2)))
       (Forked (Became [[119; 99]] (std (ReadEnd 1) (OpenFile [111; 117; 116] 513) (Inherited 2)))
          (Waited own (Waited own Ended))))
     (Waited own (Became [[112; 115]] own)), 8%nat).
Proof.
  apply (runcmd_connects (λ k, (k <? 8)%nat)
    (LIST (PIPE (EXEC [[108; 115]]) (REDIR (EXEC [[119; 99]]) [111; 117; 116] 513 1)) (EXEC [[112; 115]]))
    (Inherited 0) (Inherited 1) (Inherited 2) 0).
  cbn. auto.
Defined.

(** ** Reading commands *)

(** What the shell does with a line: change its directory, or fork and run it. *)
Inductive action :=
  | Cd (dir : list Z)
  | RunLine (line : list Z).

Definition LINE : nat := 100.

(** [getcmd(buf, sizeof(buf))] and the body of the loop in [main]; [None] at the
    end of the input. *)
Definition main_turn (input : list Z) : option (action * list Z) :=
  match ugets (replicate LINE 0) (Z.of_nat LINE) input with
  | None => None
  | Some (buf, input') =>
      let line := until_nul buf in
      if buf !!! 0%nat =? 0 then None
      else if (buf !!! 0%nat =? 99) && (buf !!! 1%nat =? 100) && (buf !!! 2%nat =? 32) then
        Some (Cd (drop 3 (take (length line - 1) line)), input')
      else Some (RunLine line, input')
  end.

Fixpoint main_loop (fuel : nat) (input : list Z) : option (list action) :=
  match fuel with
  | O => None
  | S n =>
      match main_turn input with
      | None => Some []
      | Some (a, input') => cons a <$> main_loop n input'
      end
  end.

(** Each turn takes something from the input, so the shell ends with it. *)
Lemma main_turn_consumes input a input' :
  main_turn input = Some (a, input') → (length input' < length input)%nat.
Proof.
  unfold main_turn, ugets. destruct (gets_loop input (Z.to_nat (Z.of_nat LINE - 1))) as [l r] eqn:E.
  pose proof (gets_loop_split input (Z.to_nat (Z.of_nat LINE - 1))) as (Hs & _). rewrite E in Hs. cbn [fst snd] in *.
  destruct (length l <? length (replicate LINE 0%Z))%nat; [|done].
  destruct l as [|c l]; [done|]. intros H. assert (input' = r) as ->.
  { revert H. repeat case_match; by intros [= _ ->]. }
  rewrite Hs. cbn. rewrite length_app. lia.
Qed.

Lemma main_loop_ends input fuel : (length input < fuel)%nat → is_Some (main_loop fuel input).
Proof.
  revert input. induction fuel as [|n IH]; intros input Hn; [lia|]. cbn.
  destruct (main_turn input) as [[a input']|] eqn:E; [|by eexists].
  apply main_turn_consumes in E. destruct (IH input' ltac:(lia)) as [l ->]. by eexists.
Qed.
