(* ===== verification/Umalloc.v ===== *)
(** * The memory allocator of user programs (xv6A1/umalloc.c)

    Free blocks form a circular list in address order, starting at the static
    header [base]; sizes count units of one header, 8 bytes. The memory is
    modelled by the two fields of the headers in it: programs write only what
    they were given. [sbrk] is a parameter: the new break, or failure. *)

From S2P Require Import Prelude.

Definition HEADER : Z := 8.

(** The fields [s.ptr] and [s.size] at each address, [freep], and the break of
    the process. *)
Record ust := U {
  ptr : Z → Z;
  size : Z → Z;
  freep : Z;
  brk : Z }.

Definition fset (f : Z → Z) (a v : Z) : Z → Z := λ x, if x =? a then v else f x.
Definition set_ptr (a v : Z) (u : ust) : ust := U (fset (ptr u) a v) (size u) (freep u) (brk u).
Definition set_size (a v : Z) (u : ust) : ust := U (ptr u) (fset (size u) a v) (freep u) (brk u).
Definition set_freep (v : Z) (u : ust) : ust := U (ptr u) (size u) v (brk u).
Definition set_brk (v : Z) (u : ust) : ust := U (ptr u) (size u) (freep u) v.

Section Malloc.
(** The address of [base], and the break after [sbrk(n)] at a break. *)
Context (base : Z) (sbrk : Z → Z → option Z).

(** The [for] loop of [free]: the block after which [bp] belongs. *)
Fixpoint find_place (fuel : nat) (u : ust) (bp p : Z) : option Z :=
  if (p <? bp) && (bp <? ptr u p) then Some p
  else if (ptr u p <=? p) && ((p <? bp) || (bp <? ptr u p)) then Some p
  else match fuel with O => None | S n => find_place n u bp (ptr u p) end.

(** Joining [bp] to the block after it, and to the block [p] before it. *)
Definition join_next (p bp : Z) (u : ust) : ust :=
  if bp + HEADER * size u bp =? ptr u p then
    let u := set_size bp (u32 (size u bp + size u (ptr u p))) u in
    set_ptr bp (ptr u (ptr u p)) u
  else set_ptr bp (ptr u p) u.
Definition join_prev (p bp : Z) (u : ust) : ust :=
  if p + HEADER * size u p =? bp then
    let u := set_size p (u32 (size u p + size u bp)) u in
    set_ptr p (ptr u bp) u
  else set_ptr p bp u.

Definition free (fuel : nat) (ap : Z) (u : ust) : option ust :=
  let bp := ap - HEADER in
  match find_place fuel u bp (freep u) with
  | None => None
  | Some p => Some (set_freep p (join_prev p bp (join_next p bp u)))
  end.

(** [morecore(nu)]: [Some None] when [sbrk] fails. *)
Definition morecore (fuel : nat) (nu : Z) (u : ust) : option (option ust) :=
  let nu := if nu <? 4096 then 4096 else nu in
  match sbrk (brk u) (s32 (nu * HEADER)) with
  | None => Some None
  | Some b =>
      let hp := brk u in
      Some <$> free fuel (hp + HEADER) (set_size hp nu (set_brk b u))
  end.

(** [malloc] takes the block [p], with [prevp] before it, from the list. *)
Definition take_block (nunits prevp p : Z) (u : ust) : Z * ust :=
  if size u p =? nunits then
    (p + HEADER, set_freep prevp (set_ptr prevp (ptr u p) u))
  else
    let u := set_size p (u32 (size u p - nunits)) u in
    let q := p + HEADER * size u p in
    (q + HEADER, set_freep prevp (set_size q nunits u)).

Fixpoint malloc_loop (fuel : nat) (nunits prevp p : Z) (u : ust) : option (Z * ust) :=
  match fuel with
  | O => None
  | S n =>
      if nunits <=? size u p then Some (take_block nunits prevp p u)
      else if p =? freep u then
        match morecore fuel nunits u with
        | None => None
        | Some None => Some (0, u)
        | Some (Some u') => malloc_loop n nunits (freep u') (ptr u' (freep u')) u'
        end
      else malloc_loop n nunits p (ptr u p) u
  end.

Definition nunits_of (nbytes : Z) : Z := u32 (nbytes + HEADER - 1) / HEADER + 1.

Definition malloc (fuel : nat) (nbytes : Z) (u : ust) : option (Z * ust) :=
  let nunits := nunits_of nbytes in
  let u := if freep u =? 0 then set_size base 0 (set_freep base (set_ptr base base u)) else u in
  malloc_loop fuel nunits (freep u) (ptr u (freep u)) u.

End Malloc.
