(* ===== verification/UmallocProps.v ===== *)
(** * The memory allocator of user programs: blocks never overlap

    The free list as a list of blocks in address order, what [malloc] and
    [free] do to it, and the invariant that free and allocated blocks tile the
    heap. *)

From stdpp Require Import sorting.
From S2P Require Import Prelude Umalloc.

(** A block: the address of its header and its size in units. *)
Abbreviation block := (Z * Z)%type.
Definition bend (b : block) : Z := b.1 + 8 * b.2.

(** ** Linked lists of headers *)

(** The address of the first block of [l], or [e]. *)
Definition hd_or (l : list block) (e : Z) : Z := match l with [] => e | b :: _ => b.1 end.

Fixpoint linked (u : ust) (l : list block) (e : Z) : Prop :=
  match l with
  | [] => True
  | b :: l' => size u b.1 = b.2 ∧ ptr u b.1 = hd_or l' e ∧ linked u l' e
  end.

Lemma linked_app u l1 l2 e : linked u (l1 ++ l2) e ↔ linked u l1 (hd_or l2 e) ∧ linked u l2 e.
Proof.
  induction l1 as [|b l1 IH]; cbn; [tauto|]. rewrite IH.
  assert (hd_or (l1 ++ l2) e = hd_or l1 (hd_or l2 e)) as -> by (by destruct l1). tauto.
Qed.

(** Headers that are not in the list may change. *)
Lemma linked_ext u u' l e :
  (∀ b, b ∈ l → ptr u' b.1 = ptr u b.1 ∧ size u' b.1 = size u b.1) → linked u l e → linked u' l e.
Proof.
  induction l as [|b l IH]; cbn; [done|]. intros H (H1 & H2 & H3).
  destruct (H b) as [-> ->]; [by constructor|]. split_and!; [done|done|]. apply IH; [|done].
  intros x Hx. apply H. by constructor.
Qed.

(** In address order, with a gap between a block and the next. *)
Definition before (x y : block) : Prop := bend x < y.1.
Abbreviation sorted := (StronglySorted before).

Lemma sorted_split (l1 l2 : list block) b : sorted (l1 ++ b :: l2) →
  Forall (λ x, bend x < b.1) l1 ∧ Forall (λ x, bend b < x.1) l2 ∧ sorted l1 ∧ sorted l2.
Proof.
  rewrite StronglySorted_app. intros (H & H1 & H2). apply StronglySorted_inv in H2 as [H2 Hb].
  split_and!; try done. apply Forall_forall. intros x Hx. apply (H x b Hx). by constructor.
Qed.

Lemma fset_eq f a v : fset f a v a = v.
Proof. unfold fset. by rewrite Z.eqb_refl. Qed.

Lemma fset_ne f a v x : x ≠ a → fset f a v x = f x.
Proof. intros H. unfold fset. by rewrite (proj2 (Z.eqb_neq _ _) H). Qed.

(** ** The search of [free] *)

(** Sizes are not negative, and [base] is below everything. *)
Record list_ok (base : Z) (u : ust) (fl : list block) : Prop := {
  lo_head : ∃ fl0, fl = (base, 0) :: fl0 ∧ Forall (λ b, 1 <= b.2) fl0;
  lo_linked : linked u fl base;
  lo_sorted : sorted fl }.

Definition sizes_ok (l : list block) : Prop := Forall (λ b, 0 <= b.2) l.

Section Place.
Context (base : Z) (u : ust) (bp : Z) (Hbase : base < bp).

(** The loop stops at the last block below [bp]. *)
Lemma place_here fuel a s R : linked u ((a, s) :: R) base → base <= a < bp → Forall (λ b, bp < b.1) R →
  find_place fuel u bp a = Some a.
Proof.
  intros (_ & Hp & _) Ha HR. cbn in Hp.
  destruct R as [|r R]; cbn in Hp; [|apply Forall_cons in HR as [Hr _]]; destruct fuel; cbn [find_place];
    rewrite Hp; zcase; try lia; zcase; try lia; cbn [andb orb]; try done; by rewrite (proj2 (Z.leb_le _ _)) by lia.
Qed.

Lemma walk_up L : ∀ x fuel a s R, linked u (x :: L ++ (a, s) :: R) base → sorted (x :: L ++ (a, s) :: R) →
  sizes_ok (x :: L) → base <= x.1 → a < bp → Forall (λ b, bp < b.1) R → (length L < fuel)%nat →
  find_place fuel u bp x.1 = Some a.
Proof.
  induction L as [|y L IH]; intros x fuel a s R Hl Hs Hz Hx Ha HR Hf; (destruct fuel as [|fuel]; [lia|]);
    destruct Hl as (_ & Hp & Hl); apply StronglySorted_inv in Hs as [Hs Hb]; apply Forall_cons in Hb as [Hb Hb'];
    apply Forall_cons in Hz as [Hz Hz']; unfold before, bend in *; cbn [hd_or app fst] in *;
    cbn [find_place]; rewrite Hp.
  - rewrite (proj2 (Z.ltb_ge bp a)), andb_false_r, (proj2 (Z.leb_gt a x.1)) by lia. cbn [andb].
    apply (place_here fuel a s R Hl); [lia|done].
  - assert (y.1 < a).
    { apply Forall_app in Hb' as [_ Hb']. apply Forall_cons in Hb' as [_ _]. apply StronglySorted_inv in Hs as [_ Hs].
      apply Forall_app in Hs as [_ Hs]. apply Forall_cons in Hs as [Hs _]. apply Forall_cons in Hz' as [Hy _].
      unfold before, bend in Hs. cbn in Hs. lia. }
    rewrite (proj2 (Z.ltb_ge bp y.1)), andb_false_r, (proj2 (Z.leb_gt y.1 x.1)) by lia. cbn [andb].
    cbn in Hf. apply (IH y fuel a s R Hl Hs Hz'); [lia|done|done|lia].
Qed.

(** From a block above [bp] it goes on to [base]. *)
Lemma walk_over R : ∀ x fuel, linked u (x :: R) base → sorted (x :: R) → sizes_ok (x :: R) → bp < x.1 →
  find_place (length (x :: R) + fuel) u bp x.1 = find_place fuel u bp base.
Proof.
  induction R as [|y R IH]; intros x fuel (_ & Hp & Hl) Hs Hz Hx; cbn in Hp.
  - cbn [length Nat.add find_place]. rewrite Hp, (proj2 (Z.ltb_ge x.1 bp)), (proj2 (Z.ltb_ge bp base)) by lia.
    cbn [andb orb]. by rewrite andb_false_r.
  - apply StronglySorted_inv in Hs as [Hs Hb]. apply Forall_cons in Hb as [Hb _]. apply Forall_cons in Hz as [Hz Hz'].
    unfold before, bend in Hb. change (length (x :: y :: R) + fuel)%nat with (S (length (y :: R) + fuel)).
    cbn [find_place]. rewrite Hp, (proj2 (Z.ltb_ge x.1 bp)), (proj2 (Z.leb_gt y.1 x.1)) by lia. cbn [andb].
    apply IH; try done. lia.
Qed.

(** Wherever it starts, within one round. *)
Lemma find_place_run P a s R x fuel : let fl := P ++ (a, s) :: R in
  list_ok base u fl → x ∈ fl → a < bp → Forall (λ b, bp < b.1) R → (length fl < fuel)%nat →
  find_place fuel u bp x.1 = Some a.
Proof.
  intros fl [(fl0 & Efl & Hz) Hl Hs] Hx Ha HR Hf.
  assert (Hzs : sizes_ok fl).
  { rewrite Efl. constructor; [done|]. eapply Forall_impl; [exact Hz|]. cbn. lia. }
  assert (Hbs : ∀ y, y ∈ fl → base <= y.1).
  { intros y Hy. rewrite Efl in Hs, Hy. apply StronglySorted_inv in Hs as [_ Hs]. rewrite Forall_forall in Hs.
    apply elem_of_cons in Hy as [->|Hy]; [done|]. specialize (Hs y Hy). unfold before, bend in Hs. cbn in Hs. lia. }
  assert (Hup : ∀ L x L2, fl = L ++ x :: L2 ++ (a, s) :: R → ∀ fuel, (length L2 < fuel)%nat → find_place fuel u bp x.1 = Some a).
  { intros L y L2 E fuel' Hfuel. rewrite E in Hl, Hs, Hzs. apply linked_app in Hl as [_ Hl].
    apply StronglySorted_app in Hs as (_ & _ & Hs). apply Forall_app in Hzs as [_ Hzs].
    apply (walk_up L2 y fuel' a s R Hl Hs); try done.
    - apply Forall_cons in Hzs as [Hy Hzs]. apply Forall_app in Hzs as [Hzs _]. by constructor.
    - apply Hbs. rewrite E. apply elem_of_app. right. by constructor. }
  assert (Hlen : length fl = (length P + S (length R))%nat) by (unfold fl; by rewrite length_app).
  assert (Hat : ∀ fuel, find_place fuel u bp a = Some a).
  { intros fuel'. apply (place_here fuel' a s R); [by apply linked_app in Hl as [_ Hl]| |done].
    split; [|done]. apply (Hbs (a, s)). unfold fl. apply elem_of_app. right. by constructor. }
  unfold fl in Hx. rewrite elem_of_app, elem_of_cons in Hx. destruct Hx as [Hx|[->|Hx]]; [|done|].
  - apply list_elem_of_split in Hx as (L & L2 & ->). apply (Hup L x L2); [unfold fl; by rewrite <- app_assoc|].
    rewrite length_app in Hlen. cbn in Hlen. lia.
  - apply list_elem_of_split in Hx as (R1 & R2 & ->). rewrite length_app in Hlen. cbn in Hlen.
    replace fuel with (length (x :: R2) + (fuel - length (x :: R2)))%nat by (cbn; lia).
    rewrite walk_over.
    + destruct P as [|b P]; [by cbn in Efl; simplify_eq|]. cbn in Efl. injection Efl as -> _.
      apply (Hup [] (base, 0) P); [done|]. cbn in *. lia.
    + unfold fl in Hl. rewrite app_comm_cons, app_assoc in Hl. by apply linked_app in Hl as [_ Hl].
    + unfold fl in Hs. rewrite app_comm_cons, app_assoc in Hs. by apply StronglySorted_app in Hs as (_ & _ & Hs).
    + unfold fl in Hzs. rewrite app_comm_cons, app_assoc in Hzs. by apply Forall_app in Hzs as [_ Hzs].
    + apply Forall_app in HR as [_ HR]. by apply Forall_cons in HR as [HR _].
Qed.

End Place.

(** ** What [free] does to the list *)

(** The list from [(a, s)] on, with the block [(bp, z)] put after it. *)
Definition join_right (bp z : Z) (R : list block) : list block :=
  match R with
  | (b, t) :: R' => if bp + 8 * z =? b then (bp, z + t) :: R' else (bp, z) :: R
  | [] => [(bp, z)]
  end.
Definition join_left (a s : Z) (l : list block) : list block :=
  match l with
  | (bp, z) :: R => if a + 8 * s =? bp then (a, s + z) :: R else (a, s) :: l
  | [] => [(a, s)]
  end.
Definition put_after (a s bp z : Z) (R : list block) : list block := join_left a s (join_right bp z R).

(** A free block [(bp, z)] lies between [(a, s)] and what follows. *)
Record fits_after (a s bp z : Z) (R : list block) : Prop := {
  fa_below : a + 8 * s <= bp;
  fa_lt : a < bp;
  fa_size : 1 <= z;
  fa_above : Forall (λ b, bp + 8 * z <= b.1) R }.

Definition small (l : list block) : Prop := Forall (λ b, bend b < 2^32 ∧ 0 <= b.1) l.

Lemma join_next_run base u a s bp z R : base < bp →
  linked u ((a, s) :: R) base → size u bp = z → fits_after a s bp z R → sizes_ok R → sorted R → small R → 0 <= bp →
  let u' := join_next a bp u in
  linked u' (join_right bp z R) base ∧
  (∀ x, x ≠ bp → ptr u' x = ptr u x ∧ size u' x = size u x) ∧ freep u' = freep u ∧ brk u' = brk u.
Proof.
  intros Hbase Hl Hz [F1 F2 F3 F4] HzR Hs Hsm Hbp. destruct Hl as (_ & Hp & Hl). cbn [fst] in Hp.
  unfold join_next. rewrite Hz, Hp. unfold HEADER.
  assert (Hframe : ∀ l, Forall (λ b, bp < b.1) l → ∀ u1, (∀ x, x ≠ bp → ptr u1 x = ptr u x ∧ size u1 x = size u x) →
    linked u l base → linked u1 l base).
  { intros l Hgt u1 Hx. apply linked_ext. intros b Hb. apply Hx. rewrite Forall_forall in Hgt. specialize (Hgt b Hb). lia. }
  destruct R as [|[b t] R]; cbn [hd_or fst join_right].
  - rewrite (proj2 (Z.eqb_neq _ _)) by lia. split_and!; try done; cbn; [by rewrite fset_eq|].
    intros x Hx. by rewrite fset_ne.
  - destruct Hl as (Hsb & Hpb & Hl). cbn [fst snd] in *. apply Forall_cons in F4 as [F4 F4']. cbn in F4.
    apply StronglySorted_inv in Hs as [Hs Hb]. apply Forall_cons in HzR as [Ht HzR]. cbn in Ht.
    apply Forall_cons in Hsm as [[Hsm _] _]. unfold bend in Hsm. cbn in Hsm.
    assert (HR : Forall (λ x, bp < x.1) R).
    { eapply Forall_impl; [exact Hb|]. unfold before, bend. cbn. lia. }
    destruct (Z.eqb_spec (bp + 8 * z) b) as [E|E].
    + rewrite Hsb, u32_small by lia. cbn [set_size set_ptr ptr size freep brk]. rewrite Hp. cbn [hd_or fst]. rewrite Hpb.
      cbn [linked fst snd]. split_and!; cbn [ptr size freep brk set_size set_ptr]; rewrite ?fset_eq; try done.
      * apply Hframe; [done| |done]. intros x Hx. cbn. by rewrite !fset_ne.
      * intros x Hx. by rewrite !fset_ne.
    + cbn [linked fst snd]. split_and!; cbn [ptr size freep brk set_size set_ptr]; rewrite ?fset_eq, ?(fset_ne _ _ _ b) by lia; try done.
      * apply Hframe; [done| |done]. intros x Hx. cbn. by rewrite !fset_ne.
      * intros x Hx. by rewrite !fset_ne.
Qed.

Lemma join_prev_run base u a s bp z R :
  linked u ((bp, z) :: R) base → size u a = s → a < bp → 1 <= z → 0 <= s → 0 <= a → bend (bp, z) < 2^32 →
  a + 8 * s <= bp → Forall (λ b, a < b.1) R →
  let u' := join_prev a bp u in
  linked u' (join_left a s ((bp, z) :: R)) base ∧
  (∀ x, x ≠ a → ptr u' x = ptr u x ∧ size u' x = size u x) ∧ brk u' = brk u.
Proof.
  intros (Hzb & Hpb & Hl) Hs Hlt Hz Hs0 Ha Hsm Hle HR. cbn [fst snd] in *. unfold bend in Hsm. cbn in Hsm.
  unfold join_prev. rewrite Hs. unfold HEADER, join_left.
  assert (Hframe : ∀ u1, (∀ x, x ≠ a → ptr u1 x = ptr u x ∧ size u1 x = size u x) → linked u1 R base).
  { intros u1 Hx. eapply linked_ext; [|exact Hl]. intros b Hb. apply Hx. rewrite Forall_forall in HR. specialize (HR b Hb). lia. }
  destruct (Z.eqb_spec (a + 8 * s) bp) as [E|E].
  - rewrite Hzb, u32_small by lia. cbn [set_size set_ptr ptr size freep brk]. rewrite Hpb.
    cbn [linked fst snd]. split_and!; cbn [ptr size freep brk set_size set_ptr]; rewrite ?fset_eq; try done.
    + apply Hframe. intros x Hx. cbn. by rewrite !fset_ne.
    + intros x Hx. by rewrite !fset_ne.
  - cbn [linked fst snd hd_or]. split_and!; cbn [ptr size freep brk set_size set_ptr];
      rewrite ?fset_eq, ?(fset_ne _ _ _ bp) by lia; try done.
    + apply Hframe. intros x Hx. cbn. by rewrite !fset_ne.
    + intros x Hx. by rewrite !fset_ne.
Qed.

(** Where a byte of the heap is. *)
Definition inside (l : list block) (x : Z) : Prop := Exists (λ b, b.1 <= x < bend b) l.

Lemma inside_cons b l x : inside (b :: l) x ↔ b.1 <= x < bend b ∨ inside l x.
Proof. apply Exists_cons. Qed.

Lemma inside_app l k x : inside (l ++ k) x ↔ inside l x ∨ inside k x.
Proof. apply Exists_app. Qed.

Ltac inside_cases :=
  repeat match goal with H : _ ∨ _ |- _ => destruct H end; try tauto; try lia;
  first [left; lia | right; left; lia | right; right; left; lia].

(** The joined list covers what the blocks covered, and is in order again. *)
Lemma put_after_inside a s bp z R x : 0 <= s → 0 <= z → sizes_ok R →
  inside (put_after a s bp z R) x ↔ inside ((a, s) :: (bp, z) :: R) x.
Proof.
  intros Hs Hz HR. unfold put_after.
  destruct R as [|[b t] R]; cbn [join_right join_left].
  - zcase; rewrite !inside_cons; unfold bend; cbn [fst snd]; [|done]. subst.
    destruct (Z.lt_ge_cases x (a + 8 * s)); split; intros H'; inside_cases.
  - apply Forall_cons in HR as [Ht _]. cbn in Ht.
    destruct (Z.eqb_spec (bp + 8 * z) b) as [E|E]; cbn [join_left]; zcase; rewrite !inside_cons; unfold bend; cbn [fst snd];
      try tauto;
      destruct (Z.lt_ge_cases x (a + 8 * s)), (Z.lt_ge_cases x bp), (Z.lt_ge_cases x (bp + 8 * z)), (Z.lt_ge_cases x (a + 8 * s + 8 * z));
      split; intros H'; inside_cases.
Qed.

Lemma put_after_sorted P a s bp z R : sorted (P ++ (a, s) :: R) → sizes_ok R → fits_after a s bp z R →
  Forall (λ b, 1 <= b.2) R → 0 <= s →
  sorted (P ++ put_after a s bp z R) ∧ ∃ t Q, put_after a s bp z R = (a, t) :: Q ∧
    Forall (λ b, 1 <= b.2) Q ∧ s <= t ∧ (a + 8 * s < bp → t = s).
Proof.
  intros Hs HzR [F1 F2 F3 F4] H1 Hs0. apply StronglySorted_app in Hs as (HPa & HP & Ha).
  apply StronglySorted_inv in Ha as [HR HaR].
  assert (HPlt : ∀ x, x ∈ P → bend x < a) by (intros x Hx; apply (HPa x (a, s) Hx); constructor).
  assert (Hq : ∃ w Q, join_right bp z R = (bp, w) :: Q ∧ sorted ((bp, w) :: Q) ∧ Forall (λ b, 1 <= b.2) Q ∧ z <= w ∧
    (∀ x, x ∈ Q → x ∈ R)).
  { destruct R as [|[b t] R]; cbn [join_right]; [exists z, []; split_and!; try done; repeat constructor|].
    apply Forall_cons in H1 as [Ht H1]. cbn in Ht. apply StronglySorted_inv in HR as HR'. destruct HR' as [HR' Hb].
    destruct (Z.eqb_spec (bp + 8 * z) b) as [E|E].
    - exists (z + t), R. split_and!; try done; [|lia|by constructor]. constructor; [done|].
      eapply Forall_impl; [exact Hb|]. unfold before, bend. cbn. lia.
    - exists z, ((b, t) :: R). split_and!; try done; [|by constructor]. constructor; [done|].
      apply Forall_cons in F4 as [F4 F4']. cbn in F4. constructor; [unfold before, bend; cbn; lia|].
      eapply Forall_impl; [exact Hb|]. unfold before, bend. cbn. lia. }
  destruct Hq as (w & Q & E & HsQ & HQ & Hw & Hsub). unfold put_after. rewrite E. cbn [join_left].
  apply StronglySorted_inv in HsQ as HsQ'. destruct HsQ' as [HsQ' HbQ].
  destruct (Z.eqb_spec (a + 8 * s) bp) as [Eb|Eb].
  - split; [|exists (s + w), Q; split_and!; [done|done|lia|lia]]. apply StronglySorted_app. split_and!; [|done|].
    + intros x y Hx Hy. specialize (HPlt x Hx). apply elem_of_cons in Hy as [->|Hy]; [done|].
      rewrite Forall_forall in HbQ. specialize (HbQ y Hy). unfold before, bend in *. cbn in *. lia.
    + constructor; [done|]. eapply Forall_impl; [exact HbQ|]. unfold before, bend. cbn. lia.
  - split; [|exists s, ((bp, w) :: Q); split_and!; [done|constructor; [cbn; lia|done]|lia|done]].
    apply StronglySorted_app. split_and!; [|done|].
    + intros x y Hx Hy. specialize (HPlt x Hx). rewrite !elem_of_cons in Hy. destruct Hy as [->|[->|Hy]]; [done|unfold before; cbn; lia|].
      rewrite Forall_forall in HbQ. specialize (HbQ y Hy). unfold before, bend in *. cbn in *. lia.
    + constructor; [done|]. constructor; [unfold before, bend; cbn; lia|].
      eapply Forall_impl; [exact HbQ|]. unfold before, bend. cbn. lia.
Qed.

Lemma list_ok_sizes base u fl : list_ok base u fl → sizes_ok fl.
Proof.
  intros [(fl0 & -> & Hpos) _ _]. constructor; [done|]. eapply Forall_impl; [exact Hpos|]. cbn. lia.
Qed.

Lemma list_ok_rest base u P a s R : list_ok base u (P ++ (a, s) :: R) → Forall (λ b, 1 <= b.2) R.
Proof.
  intros [(fl0 & Efl & Hpos) _ _]. destruct P as [|p P]; cbn in Efl; injection Efl as -> Efl; [by subst|]. subst fl0.
  apply Forall_app in Hpos as [_ Hpos]. by apply Forall_cons in Hpos as [_ Hpos].
Qed.

Lemma join_right_cons a s bp z R : fits_after a s bp z R → Forall (λ b, 1 <= b.2) R → small R → bend (bp, z) < 2^32 →
  ∃ w Q, join_right bp z R = (bp, w) :: Q ∧ 1 <= w ∧ bend (bp, w) < 2^32 ∧ Forall (λ b, a < b.1) Q.
Proof.
  intros [F1 F2 F3 F4] HR1 HsmR Hbz. unfold bend in *. cbn in *.
  assert (Forall (λ b, a < b.1) R) as HRa by (eapply Forall_impl; [exact F4|]; cbn; lia).
  destruct R as [|[b v] R]; cbn [join_right]; [exists z, []; split_and!; try done|].
  apply Forall_cons in HsmR as [[Hv _] _]. apply Forall_cons in HR1 as [Hv1 _]. apply Forall_cons in F4 as [F4 _]. cbn in *.
  unfold bend in Hv. cbn in Hv. destruct (Z.eqb_spec (bp + 8 * z) b) as [E|E].
  - exists (z + v), R. split_and!; [done|lia|lia|]. by apply Forall_cons in HRa as [_ HRa].
  - exists z, ((b, v) :: R). by split_and!.
Qed.

Lemma head_kept (base : Z) P a s t (R Q : list block) fl0 :
  P ++ (a, s) :: R = (base, 0) :: fl0 → Forall (λ b, 1 <= b.2) fl0 → Forall (λ b, 1 <= b.2) Q → s <= t →
  (P = [] → t = 0) → ∃ fl1, P ++ (a, t) :: Q = (base, 0) :: fl1 ∧ Forall (λ b, 1 <= b.2) fl1.
Proof.
  intros E H0 HQ Hst Ht. destruct P as [|p P]; cbn in E; injection E as -> E.
  - rewrite Ht by done. eauto.
  - subst fl0. apply Forall_app in H0 as [HP H0]. apply Forall_cons in H0 as [Hs _]. cbn in Hs.
    eexists. split; [done|]. apply Forall_app. split; [done|]. constructor; [cbn; lia|done].
Qed.

Lemma free_run base u P a s R bp z x fuel : let fl := P ++ (a, s) :: R in
  list_ok base u fl → x ∈ fl → freep u = x.1 → 0 <= base → base < bp → size u bp = z → fits_after a s bp z R →
  small fl → bend (bp, z) < 2^32 → (length fl < fuel)%nat →
  ∃ u', free fuel (bp + HEADER) u = Some u' ∧ list_ok base u' (P ++ put_after a s bp z R) ∧ freep u' = a ∧
    brk u' = brk u ∧ (∀ y, y ≠ a → y ≠ bp → size u' y = size u y).
Proof.
  intros fl Hok Hx Hfp H0 Hbase Hz Hfit Hsm Hbz Hfuel. pose proof Hok as [(fl0 & Efl & Hpos) Hl Hs].
  pose proof Hfit as [F1 F2 F3 F4]. destruct (sorted_split P R (a, s) Hs) as (HPlt & HRgt & _ & HsR).
  unfold fl in Hl. apply linked_app in Hl as [HlP Hla]. cbn [hd_or fst] in HlP.
  pose proof (list_ok_sizes _ _ _ Hok) as Hall. pose proof (list_ok_rest _ _ _ _ _ _ Hok) as HR1.
  apply Forall_app in Hall as [HP0 Hall]. apply Forall_cons in Hall as [Hs0 HzR]. cbn in Hs0.
  apply Forall_app in Hsm as [_ Hsm]. apply Forall_cons in Hsm as [[Hsa Ha0] HsmR]. cbn in Ha0.
  assert (Hplace : find_place fuel u bp x.1 = Some a).
  { apply (find_place_run base u bp Hbase P a s R x fuel Hok Hx F2); [|done].
    eapply Forall_impl; [exact F4|]. cbn. lia. }
  destruct (put_after_sorted P a s bp z R Hs HzR Hfit HR1 Hs0) as (Hsort & t & Q & Eput & HQ & Hst & Ht).
  destruct (join_next_run base u a s bp z R Hbase Hla Hz Hfit HzR HsR HsmR ltac:(lia)) as (Hl1 & Hf1 & _ & Hb1).
  set (u1 := join_next a bp u) in *.
  destruct (join_right_cons a s bp z R Hfit HR1 HsmR Hbz) as (w & Q' & Ejr & Hw & Hbw & HQ'). rewrite Ejr in Hl1.
  destruct (join_prev_run base u1 a s bp w Q' Hl1) as (Hl2 & Hf2 & Hb2); try done.
  { rewrite (proj2 (Hf1 a ltac:(lia))). by destruct Hla. }
  set (u2 := join_prev a bp u1) in *.
  exists (set_freep a u2). split; [|split; [|split; [done|]; split; [by cbn; rewrite Hb2, Hb1|]]].
  - unfold free, HEADER. replace (bp + 8 - 8) with bp by lia. by rewrite Hfp, Hplace.
  - split.
    + rewrite Eput. eapply head_kept; [exact Efl|done|done|done|]. intros ->. cbn in Efl. injection Efl as -> -> _.
      apply Ht. lia.
    + apply linked_app. split.
      * rewrite Eput. cbn [hd_or fst]. eapply linked_ext; [|exact HlP]. intros b Hb. cbn.
        rewrite Forall_forall in HPlt. specialize (HPlt b Hb). cbn in HPlt.
        rewrite Forall_forall in HP0. specialize (HP0 b Hb). cbn in HP0.
        unfold bend in HPlt. destruct (Hf2 b.1 ltac:(lia)) as [-> ->]. apply Hf1. lia.
      * unfold put_after. rewrite Ejr. eapply linked_ext; [|exact Hl2]. done.
    + done.
  - intros y Hy Hyb. cbn. by rewrite (proj2 (Hf2 y Hy)), (proj2 (Hf1 y Hyb)).
Qed.
