(* ===== verification/UmallocHeap.v ===== *)
(** * The memory allocator of user programs: [malloc] and [free] together

    Free and allocated blocks tile the memory that the process got from
    [sbrk]; both calls return and keep it so. *)

From stdpp Require Import sorting.
From S2P Require Import Prelude Umalloc UmallocProps.

Definition apart (x y : block) : Prop := bend x <= y.1 ∨ bend y <= x.1.

(** Blocks without a common byte are apart. *)
Lemma apart_bytes x y : 1 <= x.2 → 1 <= y.2 → (∀ i, x.1 <= i < bend x → ¬ y.1 <= i < bend y) → apart x y.
Proof.
  intros Hx Hy H. unfold apart, bend in *. destruct (Z_le_gt_dec (x.1 + 8 * x.2) y.1); [by left|].
  destruct (Z_le_gt_dec (y.1 + 8 * y.2) x.1); [by right|]. exfalso. apply (H (Z.max x.1 y.1)); lia.
Qed.

(** The heap from [lo] on: [fl] is the free list, [al] what the program has. *)
Record heap_ok (base lo : Z) (u : ust) (fl al : list block) : Prop := {
  ho_list : list_ok base u fl;
  ho_freep : ∃ x, x ∈ fl ∧ freep u = x.1;
  ho_base : 0 < base ∧ base + 8 <= lo;
  ho_brk : lo <= brk u < 2^31;
  ho_al : Forall (λ b, size u b.1 = b.2 ∧ 1 <= b.2) al;
  ho_nodup : NoDup al;
  ho_apart : ∀ x y, x ∈ al → y ∈ al → x ≠ y → apart x y;
  ho_tiles : ∀ i, lo <= i < brk u ↔ inside fl i ∨ inside al i;
  ho_excl : ∀ i, inside fl i → ¬ inside al i }.

Lemma inside_elem l b i : b ∈ l → b.1 <= i < bend b → inside l i.
Proof. intros Hb Hi. apply Exists_exists. eauto. Qed.

Lemma put_after_big a s bp z R : 0 <= s → sizes_ok R → ∃ b, b ∈ put_after a s bp z R ∧ z <= b.2.
Proof.
  intros Hs HR. unfold put_after.
  assert (∃ w Q, join_right bp z R = (bp, w) :: Q ∧ z <= w) as (w & Q & -> & Hw).
  { destruct R as [|[b t] R]; cbn; [by exists z, []|]. apply Forall_cons in HR as [Ht _]. cbn in Ht.
    destruct (bp + 8 * z =? b); eexists _, _; (split; [done|lia]). }
  cbn. destruct (a + 8 * s =? bp).
  - exists (a, s + w). split; [constructor|cbn; lia].
  - exists (bp, w). split; [do 2 constructor|done].
Qed.

Lemma put_after_length a s bp z R : (length (put_after a s bp z R) <= S (S (length R)))%nat.
Proof.
  unfold put_after. destruct R as [|[b t] R]; cbn [join_right].
  - cbn [join_left]. destruct (_ =? _); cbn; lia.
  - destruct (bp + 8 * z =? b); cbn [join_left]; destruct (_ =? _); cbn; lia.
Qed.

Section Heap.
Context (base lo : Z).

(** Every free block but [base] lies between [lo] and the break. *)
Lemma free_block_range u fl al b : heap_ok base lo u fl al → b ∈ fl → 1 <= b.2 → lo <= b.1 ∧ bend b <= brk u.
Proof.
  intros H Hb H1. pose proof (ho_tiles _ _ _ _ _ H) as Ht.
  assert (inside fl b.1) as H2 by (apply (inside_elem fl b); [done|unfold bend; lia]).
  assert (inside fl (bend b - 1)) as H3 by (apply (inside_elem fl b); [done|unfold bend; lia]).
  pose proof (proj2 (Ht b.1) (or_introl H2)). pose proof (proj2 (Ht (bend b - 1)) (or_introl H3)). lia.
Qed.

Lemma alloc_block_range u fl al b : heap_ok base lo u fl al → b ∈ al → 1 <= b.2 ∧ lo <= b.1 ∧ bend b <= brk u.
Proof.
  intros H Hb. pose proof (ho_tiles _ _ _ _ _ H) as Ht. pose proof (ho_al _ _ _ _ _ H) as Ha.
  rewrite Forall_forall in Ha. destruct (Ha b Hb) as [_ H1]. split; [done|].
  assert (inside al b.1) as H2 by (apply (inside_elem al b); [done|unfold bend; lia]).
  assert (inside al (bend b - 1)) as H3 by (apply (inside_elem al b); [done|unfold bend; lia]).
  pose proof (proj2 (Ht b.1) (or_intror H2)). pose proof (proj2 (Ht (bend b - 1)) (or_intror H3)). lia.
Qed.

Lemma heap_small u fl al : heap_ok base lo u fl al → small fl.
Proof.
  intros H. pose proof (ho_list _ _ _ _ _ H) as [(fl0 & E & Hpos) _ _]. destruct (ho_base _ _ _ _ _ H).
  pose proof (ho_brk _ _ _ _ _ H). unfold small. rewrite E. constructor; [unfold bend; cbn; lia|].
  rewrite Forall_forall in Hpos |- *. intros b Hb.
  destruct (free_block_range u fl al b H) as [? ?]; [rewrite E; by constructor|by apply Hpos|]. lia.
Qed.

(** The place in a sorted list for a block that is apart from all of it. *)
Lemma split_at bp z : ∀ l, l ≠ [] → sorted l → sizes_ok l → 1 <= z → hd_or l 0 < bp →
  (∀ b, b ∈ l → b.1 < bp → bend b <= bp) → (∀ b, b ∈ l → bp <= b.1 → bp + 8 * z <= b.1) →
  ∃ P a s R, l = P ++ (a, s) :: R ∧ fits_after a s bp z R.
Proof.
  induction l as [|[b s] l IH]; intros Hne Hs Hz H1 Hhd Hlo Hhi; [done|]. cbn in Hhd.
  apply StronglySorted_inv in Hs as [Hs Hb]. apply Forall_cons in Hz as [Hz Hz'].
  assert (Hb1 : b + 8 * s <= bp) by (apply (Hlo (b, s)); [constructor|done]).
  destruct l as [|[c t] l].
  - exists [], b, s, []. split; [done|]. by split.
  - destruct (Z.lt_ge_cases c bp) as [Hc|Hc].
    + destruct IH as (P & a & s' & R & E & HF); try done.
      * intros x Hx. apply Hlo. by constructor.
      * intros x Hx. apply Hhi. by constructor.
      * exists ((b, s) :: P), a, s', R. by rewrite E.
    + exists [], b, s, ((c, t) :: l). split; [done|]. split; [done|done|done|].
      assert (Hge : ∀ x, x ∈ (c, t) :: l → bp <= x.1).
      { intros x Hx. apply elem_of_cons in Hx as [->|Hx]; [done|]. apply StronglySorted_inv in Hs as [_ Hs].
        rewrite Forall_forall in Hs. specialize (Hs x Hx). apply Forall_cons in Hz' as [Ht _].
        unfold before, bend in Hs. cbn in *. lia. }
      apply Forall_forall. intros x Hx. apply Hhi; [by constructor|by apply Hge].
Qed.

(** [free] of a block that no list has but that lies in the heap; used for what
    the program gives back and for what [sbrk] added. *)
Lemma free_block u fl al bp z fuel : heap_ok base lo u fl al →
  ∀ u1, (∀ b, b ∈ fl → ptr u1 b.1 = ptr u b.1 ∧ size u1 b.1 = size u b.1) → freep u1 = freep u →
  size u1 bp = z → 1 <= z → lo <= bp → bp + 8 * z < 2^32 →
  (∀ i, bp <= i < bp + 8 * z → ¬ inside fl i) → (length fl < fuel)%nat →
  ∃ u' fl', free fuel (bp + HEADER) u1 = Some u' ∧ list_ok base u' fl' ∧ (∃ x, x ∈ fl' ∧ freep u' = x.1) ∧
    brk u' = brk u1 ∧ (∀ y, y ≠ bp → (∀ b, b ∈ fl → y ≠ b.1) → size u' y = size u1 y) ∧
    (∀ i, inside fl' i ↔ inside fl i ∨ bp <= i < bp + 8 * z) ∧ (length fl' <= S (length fl))%nat ∧
    (∃ b, b ∈ fl' ∧ z <= b.2).
Proof.
  intros H u1 Hext Hfp Hz Hz1 Hlo Hsm Hno Hfuel. pose proof (ho_list _ _ _ _ _ H) as Hok.
  destruct (ho_base _ _ _ _ _ H) as [Hb0 Hbl]. destruct (ho_freep _ _ _ _ _ H) as (x & Hx & Ex).
  pose proof (list_ok_sizes _ _ _ Hok) as Hsz. unfold sizes_ok in Hsz. pose proof Hok as [(fl0 & Efl & Hpos) Hl Hs].
  assert (Hap : ∀ b, b ∈ fl → b.1 = base ∧ b.2 = 0 ∨ apart b (bp, z)).
  { intros b Hb. rewrite Efl in Hb. apply elem_of_cons in Hb as [->|Hb]; [by left|]. right.
    apply apart_bytes; [rewrite Forall_forall in Hpos; by apply Hpos|done|]. intros i Hi Hi2. apply (Hno i Hi2).
    apply (inside_elem fl b); [rewrite Efl; by constructor|done]. }
  destruct (split_at bp z fl) as (P & a & s & R & E & HF); try done.
  { by rewrite Efl. } { rewrite Efl. cbn. lia. }
  { intros b Hb Hlt. destruct (Hap b Hb) as [[? ?]|[?|Hd]]; unfold bend in *; cbn in *; [lia|lia|].
    rewrite Forall_forall in Hsz. specialize (Hsz b Hb). cbn in Hsz. lia. }
  { intros b Hb Hge. destruct (Hap b Hb) as [[? ?]|[Hd|?]]; unfold bend in *; cbn in *; [lia| |lia].
    rewrite Efl in Hb. apply elem_of_cons in Hb as [->|Hb]; [cbn in *; lia|]. rewrite Forall_forall in Hpos.
    specialize (Hpos b Hb). cbn in Hpos. lia. }
  assert (Hok1 : list_ok base u1 fl) by (split; [eauto|by eapply linked_ext|done]).
  pose proof (heap_small u fl al H) as Hsmall. rewrite E in Hok1, Hx, Hsmall, Hfuel.
  destruct (free_run base u1 P a s R bp z x fuel Hok1 Hx) as (u' & E' & Hok' & Hfp' & Hbrk & Hframe); try done; try lia.
  exists u', (P ++ put_after a s bp z R). rewrite E in Hsz. apply Forall_app in Hsz as [_ Hsz].
  apply Forall_cons in Hsz as [Hs0 HzR]. cbn in Hs0.
  destruct (put_after_sorted P a s bp z R) as (_ & t & Q & Eput & _ & Hst & _); try done;
    [by rewrite <- E|by eapply list_ok_rest|].
  split_and!; [done|done| |done| | | |].
  - exists (a, t). split; [rewrite Eput; apply elem_of_app; right; constructor|done].
  - intros y Hy Hyb. apply Hframe; [|done]. apply (Hyb (a, s)). rewrite E. apply elem_of_app. right. constructor.
  - intros i. rewrite E, !inside_app, put_after_inside, !inside_cons by (done || lia). unfold bend. cbn [fst snd]. tauto.
  - rewrite E, !length_app. pose proof (put_after_length a s bp z R). cbn. lia.
  - destruct (put_after_big a s bp z R) as (b & Hb & ?); [done|done|]. exists b. split; [|done]. apply elem_of_app. by right.
Qed.

(** No header of the program's blocks is one of the free list's. *)
Lemma headers_differ u fl al x b : heap_ok base lo u fl al → x ∈ al → b ∈ fl → x.1 ≠ b.1.
Proof.
  intros H Hx Hb E. destruct (alloc_block_range u fl al x H Hx) as (H1 & H2 & _).
  pose proof (ho_list _ _ _ _ _ H) as [(fl0 & Efl & Hpos) _ _]. destruct (ho_base _ _ _ _ _ H).
  rewrite Efl in Hb. apply elem_of_cons in Hb as [->|Hb]; [cbn in E; lia|].
  rewrite Forall_forall in Hpos. specialize (Hpos b Hb). cbn in Hpos.
  apply (ho_excl _ _ _ _ _ H b.1).
  - apply (inside_elem fl b); [rewrite Efl; by constructor|unfold bend; lia].
  - apply (inside_elem al x); [done|unfold bend; lia].
Qed.

Lemma free_ok u fl al al' bp z fuel : heap_ok base lo u fl al → al ≡ₚ (bp, z) :: al' → (length fl < fuel)%nat →
  ∃ u' fl', free fuel (bp + HEADER) u = Some u' ∧ heap_ok base lo u' fl' al' ∧ brk u' = brk u ∧
    (length fl' <= S (length fl))%nat.
Proof.
  intros H Hal Hfuel. assert (Hin : (bp, z) ∈ al) by (rewrite Hal; constructor).
  destruct (alloc_block_range u fl al _ H Hin) as (H1 & H2 & H3). unfold bend in H3. cbn in H1, H2, H3.
  pose proof (ho_al _ _ _ _ _ H) as Ha. pose proof (ho_brk _ _ _ _ _ H) as Hbr.
  assert (Hz : size u bp = z) by (rewrite Forall_forall in Ha; apply (Ha _ Hin)).
  assert (Hins : ∀ i, inside al i ↔ bp <= i < bp + 8 * z ∨ inside al' i).
  { intros i. unfold inside. rewrite Hal, Exists_cons. done. }
  destruct (free_block u fl al bp z fuel H u) as (u' & fl' & E & Hok & Hfp & Hbrk & Hsize & Htile & Hlen & _); try done; try lia.
  { intros i Hi Hi2. apply (ho_excl _ _ _ _ _ H i Hi2). apply Hins. by left. }
  pose proof (ho_nodup _ _ _ _ _ H) as Hnd. rewrite Hal in Hnd. apply NoDup_cons in Hnd as [Hnot Hnd].
  assert (Hsub : ∀ x, x ∈ al' → x ∈ al) by (intros x Hx; rewrite Hal; by constructor).
  assert (Hneq : ∀ x, x ∈ al' → x ≠ (bp, z)) by (by intros x Hx ->).
  exists u', fl'. split_and!; [done| |by rewrite Hbrk|done]. split; try done.
  - apply H.
  - by rewrite Hbrk.
  - apply Forall_forall. intros x Hx. rewrite Forall_forall in Ha. destruct (Ha x (Hsub x Hx)) as [Hs Hs1].
    split; [|done]. rewrite Hsize; [done| |].
    + intros Ex. destruct (ho_apart _ _ _ _ _ H x (bp, z) (Hsub x Hx) Hin (Hneq x Hx)); unfold bend in *; cbn in *; lia.
    + intros b Hb. exact (headers_differ u fl al x b H (Hsub x Hx) Hb).
  - intros x y Hx Hy. apply (ho_apart _ _ _ _ _ H); auto.
  - intros i. rewrite Hbrk, (ho_tiles _ _ _ _ _ H), Htile, Hins. tauto.
  - intros i Hi Hi2. apply Htile in Hi as [Hi|Hi].
    + apply (ho_excl _ _ _ _ _ H i Hi). apply Hins. by right.
    + unfold inside in Hi2. apply Exists_exists in Hi2 as (x & Hx & Hxi).
      destruct (ho_apart _ _ _ _ _ H x (bp, z) (Hsub x Hx) Hin (Hneq x Hx)); unfold bend in *; cbn in *; lia.
Qed.

(** ** The search of [malloc] *)

Context (sbrk : Z → Z → option Z).

(** What the loop does when it comes to [freep] without success. *)
Definition grow_and_retry (fuel : nat) (n : Z) (u : ust) : option (Z * ust) :=
  match morecore sbrk (S fuel) n u with
  | None => None
  | Some None => Some (0, u)
  | Some (Some u') => malloc_loop sbrk fuel n (freep u') (ptr u' (freep u')) u'
  end.

(** [l] is the part of the circle from [p] to [freep]. *)
Lemma search_run u n e : ∀ l x k, linked u l e → l ≠ [] → NoDup (l.*1) → (∃ f, last l = Some f ∧ freep u = f.1) →
  ptr u x.1 = hd_or l e →
  (∃ x' b, b ∈ l ∧ (x' = x ∨ x' ∈ l) ∧ ptr u x'.1 = b.1 ∧ n <= b.2 ∧
     malloc_loop sbrk (length l + k) n x.1 (hd_or l e) u = Some (take_block n x'.1 b.1 u)) ∨
  ((∀ b, b ∈ l → b.2 < n) ∧ malloc_loop sbrk (length l + k) n x.1 (hd_or l e) u = grow_and_retry k n u).
Proof.
  induction l as [|b l IH]; intros x k Hl Hne Hnd Hf Hx; [done|]. destruct Hl as (Hs & Hp & Hl). cbn [hd_or] in *.
  cbn [length Nat.add malloc_loop]. rewrite Hs. destruct (Z.leb_spec n b.2) as [Hn|Hn].
  { left. exists x, b. split_and!; [constructor|by left|done|done|done]. }
  destruct l as [|c l].
  - right. destruct Hf as (f & [= <-] & Hf). rewrite Hf, Z.eqb_refl. split; [|done].
    intros y Hy. apply list_elem_of_singleton in Hy as ->. done.
  - cbn [fmap list_fmap] in Hnd. apply NoDup_cons in Hnd as [Hnot Hnd].
    assert (Hbf : b.1 ≠ freep u).
    { destruct Hf as (f & Hlast & ->). intros E. apply Hnot. rewrite E. apply (list_elem_of_fmap_2 fst (c :: l) f).
      apply last_Some in Hlast as [l' E']. destruct l' as [|? l']; [done|]. injection E' as -> E'. rewrite E'.
      apply elem_of_app. right. constructor. }
    rewrite (proj2 (Z.eqb_neq _ _) Hbf), Hp. cbn [hd_or].
    destruct (IH b k Hl) as [(x' & y & Hy & Hx' & Hpx & Hny & E)|[Hall E]]; try done.
    + left. exists x', y. split_and!; try done; [by constructor|].
      right. destruct Hx' as [->|Hx']; by constructor.
    + right. split; [|exact E]. intros y Hy. apply elem_of_cons in Hy as [->|Hy]; [done|by apply Hall].
Qed.

Lemma sorted_nodup (l : list block) : sorted l → sizes_ok l → NoDup (l.*1).
Proof.
  induction 1 as [|b l Hs IH Hb]; intros Hz; cbn; [constructor|]. apply Forall_cons in Hz as [Hz Hz'].
  constructor; [|by apply IH]. intros Hin. apply list_elem_of_fmap in Hin as (c & E & Hc).
  rewrite Forall_forall in Hb. specialize (Hb c Hc). unfold before, bend in Hb. lia.
Qed.

(** The circle from the block after [f] around to [f]. *)
Lemma rotate u fl f : list_ok base u fl → f ∈ fl →
  ∃ l e, l ≡ₚ fl ∧ linked u l e ∧ l ≠ [] ∧ last l = Some f ∧ ptr u f.1 = hd_or l e ∧ NoDup (l.*1).
Proof.
  intros Hok Hf. pose proof Hok as [(fl0 & Efl & _) Hl Hs].
  pose proof (sorted_nodup fl Hs (list_ok_sizes _ _ _ Hok)) as Hnd.
  apply list_elem_of_split in Hf as (A & B & E). rewrite E in Hl. apply linked_app in Hl as [HA HfB].
  destruct HfB as (Hsf & Hpf & HB).
  assert (Hhd : ∀ e, hd_or (A ++ [f]) e = base).
  { intros e. rewrite E in Efl. destruct A; cbn in *; by injection Efl as ->. }
  assert (B ++ A ++ [f] ≡ₚ fl) as HP.
  { rewrite E, (app_assoc B A [f]), Permutation_app_comm. cbn. rewrite (Permutation_app_comm B A). apply Permutation_middle. }
  exists (B ++ A ++ [f]), (ptr u f.1). split_and!; [done| | | | |by rewrite HP].
  - apply linked_app. rewrite Hhd. split; [done|]. apply linked_app. split; [done|]. by cbn.
  - by destruct B, A.
  - by rewrite app_assoc, last_snoc.
  - rewrite Hpf. destruct B as [|b B]; cbn [app hd_or]; [by rewrite Hhd|done].
Qed.

Lemma address_inj u fl x y : list_ok base u fl → x ∈ fl → y ∈ fl → x.1 = y.1 → x = y.
Proof.
  intros Hok Hx Hy E. pose proof (sorted_nodup fl (lo_sorted _ _ _ Hok) (list_ok_sizes _ _ _ Hok)) as Hnd.
  apply list_elem_of_lookup in Hx as [i Hi]. apply list_elem_of_lookup in Hy as [j Hj].
  assert (i = j) as ->; [|congruence].
  eapply (NoDup_lookup _ _ _ x.1 Hnd); rewrite list_lookup_fmap; [by rewrite Hi|by rewrite Hj, E].
Qed.

(** The block before a block that is not [base]. *)
Lemma pred_split u fl x b : list_ok base u fl → x ∈ fl → b ∈ fl → ptr u x.1 = b.1 → 1 <= b.2 →
  ∃ L M, fl = L ++ x :: b :: M.
Proof.
  intros Hok Hx Hb Hp H1. pose proof Hok as [(fl0 & Efl & _) Hl _].
  apply list_elem_of_split in Hx as (L & M & E). rewrite E in Hl. apply linked_app in Hl as [_ (_ & Hpx & _)].
  rewrite Hp in Hpx. destruct M as [|c M]; cbn in Hpx.
  - assert (b = (base, 0)) as -> by (apply (address_inj u fl); [done|done|rewrite Efl; constructor|done]). cbn in H1. lia.
  - assert (b = c) as -> by (apply (address_inj u fl); [done|done| |done]; rewrite E; apply elem_of_app; right; do 2 constructor).
    by exists L, M.
Qed.

(** The blocks of a list besides [b] are apart from it. *)
Lemma others_apart A b M c : sorted (A ++ b :: M) → c ∈ A ++ M → bend c < b.1 ∨ bend b < c.1.
Proof.
  intros Hs Hc. destruct (sorted_split A M b Hs) as (HA & HM & _). rewrite Forall_forall in HA, HM.
  apply elem_of_app in Hc as [Hc|Hc]; [left; by apply HA|right; by apply HM].
Qed.

(** Cutting the end from [q] on off a block. *)
Lemma carve_inside A b M l q n : sorted (A ++ b :: M) → (∀ i, inside l i ↔ b.1 <= i < q) → b.1 <= q →
  0 <= n → q + 8 * n = bend b →
  (∀ i, inside (A ++ b :: M) i ↔ inside (A ++ l ++ M) i ∨ q <= i < q + 8 * n) ∧
  (∀ i, inside (A ++ l ++ M) i → ¬ q <= i < q + 8 * n).
Proof.
  intros Hs Hl Hq Hn Hb. split; intros i; rewrite !inside_app, ?inside_cons, (Hl i).
  - assert (b.1 <= i < bend b ↔ b.1 <= i < q ∨ q <= i < q + 8 * n) as -> by lia. tauto.
  - intros Hi Hqi. assert (inside (A ++ M) i) as Hin by (rewrite inside_app; destruct_or! Hi; [tauto|lia|tauto]).
    apply Exists_exists in Hin as (c & Hc & Hci). destruct (others_apart A b M c Hs Hc); lia.
Qed.

Lemma other_address A b M c : sorted (A ++ b :: M) → sizes_ok (A ++ b :: M) → c ∈ A ++ M →
  c.1 < b.1 ∨ bend b < c.1.
Proof.
  intros Hs Hz Hc. destruct (others_apart A b M c Hs Hc) as [H|H]; [left|by right].
  unfold sizes_ok in Hz. rewrite Forall_forall in Hz. specialize (Hz c). unfold bend in H.
  assert (0 <= c.2); [|lia]. apply Hz. apply elem_of_app in Hc as [?|?]; apply elem_of_app; [by left|right; by constructor].
Qed.

Lemma sorted_remove (A M : list block) b : sorted (A ++ b :: M) → sorted (A ++ M).
Proof.
  rewrite !StronglySorted_app. intros (H & HA & HM). apply StronglySorted_inv in HM as [HM _]. split_and!; try done.
  intros x y Hx Hy. apply H; [done|by constructor].
Qed.

Lemma unlink_ok u fl L x b M : list_ok base u fl → fl = L ++ x :: b :: M →
  list_ok base (set_freep x.1 (set_ptr x.1 (ptr u b.1) u)) (L ++ x :: M).
Proof.
  intros Hok E. pose proof (list_ok_sizes _ _ _ Hok) as Hz. destruct Hok as [(fl0 & Efl & Hpos) Hl Hs].
  rewrite E in Efl, Hz, Hl, Hs. clear E. split.
  - destruct L as [|y L]; cbn in Efl; simplify_eq; eexists; (split; [done|]).
    + by apply Forall_cons in Hpos as [_ Hpos].
    + apply Forall_app in Hpos as [? Hpos]. apply Forall_cons in Hpos as [? Hpos]. apply Forall_cons in Hpos as [_ ?].
      apply Forall_app. split; [done|by constructor].
  - assert (Hne : ∀ c, c ∈ L ++ b :: M → c.1 ≠ x.1).
    { intros c Hc. destruct (other_address L x (b :: M) c Hs Hz Hc) as [?|Hc2]; [lia|]. unfold bend in Hc2.
      unfold sizes_ok in Hz. apply Forall_app in Hz as [_ Hz]. apply Forall_cons in Hz as [Hz _]. cbn in Hz. lia. }
    apply linked_app in Hl as [HL (Hsx & Hpx & Hsb & Hpb & HM)].
    apply linked_app. cbn [linked hd_or] in *. split_and!; cbn [size ptr set_freep set_ptr].
    + eapply linked_ext; [|exact HL]. intros c Hc. cbn. rewrite fset_ne; [done|]. apply Hne, elem_of_app. by left.
    + done.
    + by rewrite fset_eq.
    + eapply linked_ext; [|exact HM]. intros c Hc. cbn. rewrite fset_ne; [done|]. apply Hne, elem_of_app. right. by constructor.
  - change (sorted (L ++ [x] ++ b :: M)) in Hs. rewrite app_assoc in Hs. apply sorted_remove in Hs.
    by rewrite <- app_assoc in Hs.
Qed.

Lemma shrink_ok u fl L x b M n : list_ok base u fl → fl = L ++ x :: b :: M → 1 <= n < b.2 →
  list_ok base (set_freep x.1 (set_size (b.1 + 8 * (b.2 - n)) n (set_size b.1 (b.2 - n) u))) (L ++ x :: (b.1, b.2 - n) :: M).
Proof.
  intros Hok E Hn. pose proof (list_ok_sizes _ _ _ Hok) as Hz. destruct Hok as [(fl0 & Efl & Hpos) Hl Hs].
  rewrite E in Efl, Hz, Hl, Hs. clear E.
  assert (E2 : ∀ c, L ++ x :: c :: M = (L ++ [x]) ++ c :: M) by (intros c; by rewrite <- app_assoc). split.
  - destruct L as [|y L]; cbn in Efl; simplify_eq; eexists; (split; [done|]).
    + apply Forall_cons in Hpos as [_ Hpos]. constructor; [cbn; lia|done].
    + apply Forall_app in Hpos as [? Hpos]. apply Forall_cons in Hpos as [? Hpos]. apply Forall_cons in Hpos as [_ ?].
      apply Forall_app. split; [done|]. constructor; [done|]. constructor; [cbn; lia|done].
  - rewrite E2 in Hs, Hz, Hl |- *.
    assert (Hne : ∀ c, c ∈ (L ++ [x]) ++ M → c.1 ≠ b.1 ∧ c.1 ≠ b.1 + 8 * (b.2 - n)).
    { intros c Hc. destruct (other_address _ b M c Hs Hz Hc); unfold bend in *; lia. }
    apply linked_app in Hl as [HL (Hsb & Hpb & HM)]. apply linked_app. cbn [hd_or fst] in *.
    split; [|cbn [linked fst snd]; split_and!; cbn [size ptr set_freep set_size]].
    + eapply linked_ext; [|exact HL]. intros c Hc. cbn. rewrite !fset_ne; [done|..]; apply Hne, elem_of_app; by left.
    + by rewrite fset_ne, fset_eq by lia.
    + done.
    + eapply linked_ext; [|exact HM]. intros c Hc. cbn. rewrite !fset_ne; [done|..]; apply Hne, elem_of_app; by right.
  - rewrite E2 in Hs |- *. apply StronglySorted_app in Hs as (H & HA & HM). apply StronglySorted_inv in HM as [HM Hb].
    apply StronglySorted_app. split_and!; [|done|constructor; [done|]].
    + intros c d Hc Hd. apply elem_of_cons in Hd as [->|Hd]; [apply (H c b Hc); constructor|apply H; [done|by constructor]].
    + eapply Forall_impl; [exact Hb|]. unfold before, bend. cbn. lia.
Qed.

(** Taking [n] units from the block [b], which follows [x]. *)
Lemma take_run u fl x b n : list_ok base u fl → small fl → x ∈ fl → b ∈ fl → ptr u x.1 = b.1 → 1 <= n <= b.2 →
  ∃ q u' fl', take_block n x.1 b.1 u = (q + HEADER, u') ∧ list_ok base u' fl' ∧ x ∈ fl' ∧ freep u' = x.1 ∧
    brk u' = brk u ∧ size u' q = n ∧ (∀ y, y ≠ b.1 → y ≠ q → size u' y = size u y) ∧
    b.1 <= q ∧ q + 8 * n = bend b ∧
    (∀ i, inside fl i ↔ inside fl' i ∨ q <= i < q + 8 * n) ∧ (∀ i, inside fl' i → ¬ q <= i < q + 8 * n) ∧
    (length fl' <= length fl)%nat.
Proof.
  intros Hok Hsm Hx Hb Hp Hn. destruct (pred_split u fl x b Hok Hx Hb Hp ltac:(lia)) as (L & M & E).
  pose proof Hok as [(fl0 & Efl & Hpos) Hl Hs]. pose proof (list_ok_sizes _ _ _ Hok) as Hsz.
  assert (Hbs : size u b.1 = b.2).
  { rewrite E in Hl. apply linked_app in Hl as [_ (_ & _ & Hl)]. by destruct Hl. }
  unfold small in Hsm. rewrite Forall_forall in Hsm. destruct (Hsm b Hb) as [Hsb Hb0]. unfold bend in Hsb.
  assert (E2 : fl = (L ++ [x]) ++ b :: M) by (by rewrite <- app_assoc).
  unfold take_block. rewrite Hbs. destruct (Z.eqb_spec b.2 n) as [En|En].
  - destruct (carve_inside (L ++ [x]) b M [] b.1 n) as [Hc1 Hc2]; [by rewrite <- E2| |lia|lia|unfold bend; lia|].
    { intros i. split; [by intros Hi%Exists_nil|lia]. }
    rewrite <- E2 in Hc1. rewrite <- app_assoc in Hc1, Hc2. cbn [app] in Hc1, Hc2.
    exists b.1. eexists. exists (L ++ x :: M). split; [done|].
    split; [by eapply (unlink_ok u fl L x b M)|]. split; [apply elem_of_app; right; constructor|].
    split_and!; try done; try lia; [cbn; lia|unfold bend; lia|]. rewrite E, !length_app. cbn. lia.
  - unfold HEADER. cbn [size set_size]. rewrite fset_eq, u32_small by lia.
    destruct (carve_inside (L ++ [x]) b M [(b.1, b.2 - n)] (b.1 + 8 * (b.2 - n)) n) as [Hc1 Hc2];
      [by rewrite <- E2| |lia|lia|unfold bend; lia|].
    { intros i. rewrite inside_cons. unfold bend. cbn [fst snd]. split; [intros [?|[]%Exists_nil]; lia|by left]. }
    rewrite <- E2 in Hc1. rewrite <- app_assoc in Hc1, Hc2. cbn [app] in Hc1, Hc2.
    exists (b.1 + 8 * (b.2 - n)). eexists. exists (L ++ x :: (b.1, b.2 - n) :: M). split; [done|].
    split; [eapply (shrink_ok u fl L x b M n); [done|done|lia]|]. split; [apply elem_of_app; right; constructor|].
    split_and!; try done; try lia; cbn [size set_freep set_size].
    + by rewrite fset_eq.
    + intros y Hy Hyq. by rewrite !fset_ne.
    + unfold bend. lia.
    + rewrite E, !length_app. cbn. lia.
Qed.

(** ** [malloc] *)

Lemma take_heap u fl al x b n : heap_ok base lo u fl al → x ∈ fl → b ∈ fl → ptr u x.1 = b.1 → 1 <= n <= b.2 →
  ∃ q u' fl', take_block n x.1 b.1 u = (q + HEADER, u') ∧ heap_ok base lo u' fl' ((q, n) :: al) ∧ brk u' = brk u.
Proof.
  intros H Hx Hb Hp Hn.
  destruct (take_run u fl x b n (ho_list _ _ _ _ _ H) (heap_small u fl al H) Hx Hb Hp Hn)
    as (q & u' & fl' & E & Hok & Hx' & Hfp & Hbrk & Hq & Hsize & Hbq & Hqb & Hin & Hex & _).
  assert (Hqfl : ∀ i, q <= i < q + 8 * n → inside fl i) by (intros i Hi; apply Hin; by right).
  assert (Hal : ∀ y, y ∈ al → y.1 ≠ q ∧ y.1 ≠ b.1 ∧ 1 <= y.2 ∧ apart (q, n) y).
  { intros y Hy. destruct (alloc_block_range u fl al y H Hy) as (Hy1 & _).
    assert (Hno : ∀ i, q <= i < q + 8 * n → ¬ y.1 <= i < bend y).
    { intros i Hi Hyi. apply (ho_excl _ _ _ _ _ H i (Hqfl i Hi)). by apply (inside_elem al y). }
    split_and!; [|exact (headers_differ u fl al y b H Hy Hb)|done|apply apart_bytes; [cbn; lia|done|exact Hno]].
    intros Eq. apply (Hno q); [lia|]. unfold bend. lia. }
  exists q, u', fl'. split_and!; [done| |done]. pose proof (ho_al _ _ _ _ _ H) as Ha. rewrite Forall_forall in Ha.
  split; try apply H; try done.
  - by exists x.
  - rewrite Hbrk. apply H.
  - constructor; [cbn; split; [done|lia]|]. apply Forall_forall. intros y Hy. destruct (Hal y Hy) as (? & ? & ? & _).
    rewrite Hsize by done. by apply Ha.
  - constructor; [|apply H]. intros Hy. by destruct (Hal _ Hy) as (? & _).
  - intros y z Hy Hz Hne. apply elem_of_cons in Hy as [->|Hy]; apply elem_of_cons in Hz as [->|Hz]; [done| | |].
    + by apply Hal.
    + destruct (Hal y Hy) as (_ & _ & _ & [?|?]); [by right|by left].
    + by apply (ho_apart _ _ _ _ _ H).
  - intros i. rewrite Hbrk, (ho_tiles _ _ _ _ _ H), Hin, inside_cons. unfold bend. cbn [fst snd]. tauto.
  - intros i Hi Hi2. apply inside_cons in Hi2 as [Hi2|Hi2]; [by apply (Hex i Hi)|].
    apply (ho_excl _ _ _ _ _ H i); [apply Hin; by left|done].
Qed.

(** [sbrk] adds memory above the break, below the kernel, or fails. *)
Context (Hsbrk : ∀ b k b', 0 <= k → sbrk b k = Some b' → b' = b + k ∧ b' < 2^31).

Lemma morecore_run u fl al n fuel : heap_ok base lo u fl al → 1 <= n → 8 * n < 2^31 → (length fl < fuel)%nat →
  morecore sbrk fuel n u = Some None ∨
  ∃ u' fl', morecore sbrk fuel n u = Some (Some u') ∧ heap_ok base lo u' fl' al ∧
    (length fl' <= S (length fl))%nat ∧ ∃ b, b ∈ fl' ∧ n <= b.2.
Proof.
  intros H Hn Hmax Hfuel. unfold morecore. set (nu := if n <? 4096 then 4096 else n).
  assert (Hnu : n <= nu ∧ 1 <= nu ∧ 8 * nu < 2^31) by (unfold nu; zcase; lia).
  unfold HEADER. rewrite s32_small by lia.
  destruct (sbrk (brk u) (nu * 8)) as [b'|] eqn:Eb; [right|by left].
  apply Hsbrk in Eb as [-> Hlt]; [|lia]. pose proof (ho_brk _ _ _ _ _ H) as Hbr.
  destruct (ho_base _ _ _ _ _ H) as [Hb0 Hb1]. pose proof (ho_tiles _ _ _ _ _ H) as Ht.
  set (u1 := set_size (brk u) nu (set_brk (brk u + nu * 8) u)).
  assert (Hflt : ∀ b, b ∈ fl → b.1 ≠ brk u).
  { intros b Hb. pose proof (ho_list _ _ _ _ _ H) as [(fl0 & Efl & Hpos) _ _]. pose proof Hb as Hb'.
    rewrite Efl in Hb. apply elem_of_cons in Hb as [->|Hb]; [cbn; lia|]. rewrite Forall_forall in Hpos.
    specialize (Hpos b Hb). destruct (free_block_range u fl al b H Hb' Hpos). unfold bend in *. cbn in Hpos. lia. }
  destruct (free_block u fl al (brk u) nu fuel H u1) as (u' & fl' & E & Hok & Hfp & Hbrk & Hsize & Htile & Hlen & Hbig);
    try done; try lia.
  { intros b Hb. cbn. by rewrite fset_ne by (by apply Hflt). }
  { cbn. by rewrite fset_eq. }
  { intros i Hi Hi2. pose proof (proj2 (Ht i) (or_introl Hi2)). lia. }
  cbn in Hbrk. exists u', fl'. split; [by unfold HEADER in E; rewrite E|].
  split; [|split; [done|]; destruct Hbig as (b & ? & ?); exists b; split; [done|lia]].
  assert (Hal : ∀ y, y ∈ al → y.1 ≠ brk u).
  { intros y Hy. destruct (alloc_block_range u fl al y H Hy) as (? & ? & ?). unfold bend in *. lia. }
  split; try apply H; try done.
  - rewrite Hbrk. lia.
  - pose proof (ho_al _ _ _ _ _ H) as Ha. rewrite Forall_forall in Ha |- *. intros y Hy.
    rewrite Hsize; [cbn; rewrite fset_ne by (by apply Hal); by apply Ha|by apply Hal|].
    intros b Hb. exact (headers_differ u fl al y b H Hy Hb).
  - intros i. rewrite Hbrk, Htile. specialize (Ht i). split; [|intros [[Hi|Hi]|Hi]; [|lia|]; [assert (lo <= i < brk u) by tauto|assert (lo <= i < brk u) by tauto]; lia].
    intros Hi. destruct (Z.lt_ge_cases i (brk u)); [|left; right; lia]. assert (inside fl i ∨ inside al i) by (apply Ht; lia). tauto.
  - intros i Hi Hi2. apply Htile in Hi as [Hi|Hi]; [by apply (ho_excl _ _ _ _ _ H i)|].
    assert (lo <= i < brk u) by (apply Ht; by right). lia.
Qed.

(** The memory that [morecore] asks [sbrk] for when [n] units are wanted. *)
Definition asked (n : Z) : Z := HEADER * Z.max 4096 n.

Lemma morecore_none u n fuel : morecore sbrk fuel n u = Some None → 1 <= n → 8 * n < 2^31 →
  sbrk (brk u) (asked n) = None.
Proof.
  unfold morecore. intros E Hn Hmax. set (nu := if n <? 4096 then 4096 else n) in *.
  assert (1 <= nu ∧ 8 * nu < 2^31) by (unfold nu; zcase; lia). unfold HEADER in E. rewrite s32_small in E by lia.
  destruct (sbrk (brk u) (nu * 8)) eqn:Es; [by destruct (free _ _ _)|]. rewrite <- Es. f_equal. unfold asked, HEADER, nu. zcase; lia.
Qed.

Lemma head_below u fl x : list_ok base u fl → x ∈ fl → base <= x.1.
Proof.
  intros [(fl0 & -> & _) _ Hs] Hx. apply elem_of_cons in Hx as [->|Hx]; [done|].
  apply StronglySorted_inv in Hs as [_ Hs]. rewrite Forall_forall in Hs. specialize (Hs x Hx). unfold before, bend in Hs. cbn in Hs. lia.
Qed.

(** The list that the first [malloc] makes. *)
Lemma first_heap u : brk u = lo → 0 < base → base + 8 <= lo < 2^31 →
  heap_ok base lo (set_size base 0 (set_freep base (set_ptr base base u))) [(base, 0)] [].
Proof.
  intros Hbr H0 Hlo. split; try done; try lia; cbn.
  - split; [by exists []| |by repeat constructor]. cbn. by rewrite !fset_eq.
  - exists (base, 0). split; [constructor|done].
  - lia.
  - constructor.
  - by intros x y []%elem_of_nil.
  - intros i. rewrite Hbr. split; [lia|]. rewrite inside_cons. unfold bend. cbn. intros [[?|[]%Exists_nil]|[]%Exists_nil]. lia.
  - by intros i _ []%Exists_nil.
Qed.

(** One round of the search: success, or [freep] without any block that fits. *)
Lemma round_run u fl al n fuel : heap_ok base lo u fl al → 1 <= n → (length fl <= fuel)%nat →
  (∃ q u' fl', malloc_loop sbrk fuel n (freep u) (ptr u (freep u)) u = Some (q + HEADER, u') ∧
     heap_ok base lo u' fl' ((q, n) :: al)) ∨
  ((∀ b, b ∈ fl → b.2 < n) ∧
   malloc_loop sbrk fuel n (freep u) (ptr u (freep u)) u = grow_and_retry (fuel - length fl) n u).
Proof.
  intros H Hn Hf. destruct (ho_freep _ _ _ _ _ H) as (f & Hfl & Ef).
  destruct (rotate u fl f (ho_list _ _ _ _ _ H) Hfl) as (l & e & HP & Hl & Hne & Hlast & Hpf & Hnd).
  rewrite Ef, Hpf. pose proof (Permutation_length HP) as Hlen.
  destruct (search_run u n e l f (fuel - length l) Hl Hne Hnd) as [(x & b & Hb & Hx & Hpx & Hnb & E)|[Hall E]];
    [by exists f|done| |]; rewrite <- (Nat.le_add_sub (length l) fuel) in E by lia.
  - left. assert (x ∈ fl) by (destruct Hx as [->|Hx]; [done|by rewrite <- HP]).
    destruct (take_heap u fl al x b n H) as (q & u' & fl' & Et & H' & _); [done|by rewrite <- HP|done|lia|].
    exists q, u', fl'. by rewrite E, Et.
  - right. split; [intros b Hb; apply Hall; by rewrite HP|]. by rewrite E, <- Hlen.
Qed.

Lemma malloc_loop_ok u fl al n fuel : heap_ok base lo u fl al → 1 <= n → 8 * n < 2^31 → (2 * length fl + 2 <= fuel)%nat →
  ∃ r u', malloc_loop sbrk fuel n (freep u) (ptr u (freep u)) u = Some (r, u') ∧
    ((r = 0 ∧ u' = u ∧ (∀ b, b ∈ fl → b.2 < n) ∧ sbrk (brk u) (asked n) = None) ∨
     ∃ q fl', r = q + HEADER ∧ heap_ok base lo u' fl' ((q, n) :: al)).
Proof.
  intros H Hn Hmax Hfuel. destruct (round_run u fl al n fuel H) as [(q & u' & fl' & E & H')|[Hno E]]; [lia|lia|eauto 10|].
  rewrite E. unfold grow_and_retry.
  destruct (morecore_run u fl al n (S (fuel - length fl)) H) as [Em|(u1 & fl1 & Em & H1 & Hl1 & b & Hb1 & Hnb)]; try lia;
    rewrite Em.
  - exists 0, u. split; [done|]. left. split_and!; [done..|]. apply (morecore_none u n _ Em); lia.
  - destruct (round_run u1 fl1 al n (fuel - length fl) H1) as [(q & u' & fl' & E' & H')|[Hno' _]]; [lia|lia|eauto 10|].
    specialize (Hno' b Hb1). lia.
Qed.

(** A process's heap, before or after the first [malloc]. *)
Definition heap (u : ust) (al : list block) : Prop :=
  (freep u = 0 ∧ al = [] ∧ brk u = lo ∧ 0 < base ∧ base + 8 <= lo < 2^31) ∨ ∃ fl, heap_ok base lo u fl al.

Definition room (nbytes : Z) (b : block) : Prop := nbytes <= 8 * (b.2 - 1).

(** C31. [malloc] and [free] keep a heap in which no two blocks overlap: from
    every state they reach, each call returns, within a number of steps that
    depends on the free list only. For at most 2^31 - 16 bytes [malloc] returns a
    block with room for them that does not overlap any block the program has, or
    a null pointer; null only when no free block is large enough and [sbrk]
    refuses the memory asked for, the larger of the request and 4096 units. After
    [free] the block is gone from the program's blocks; and free and allocated
    blocks together are always exactly the memory from the start of the heap to
    the break. *)
Theorem malloc_free_contract u al : heap u al →
  (∀ nbytes, 0 <= nbytes <= 2^31 - 16 → ∃ N, ∀ fuel, (N <= fuel)%nat →
     ∃ r u', malloc base sbrk fuel nbytes u = Some (r, u') ∧
       ((r = 0 ∧ brk u' = brk u ∧ sbrk (brk u) (8 * Z.max 4096 ((nbytes + 7) / 8 + 1)) = None ∧
           ∃ fl, heap_ok base lo u' fl al ∧ ∀ b, b ∈ fl → ¬ room nbytes b) ∨
        ∃ b, r = b.1 + HEADER ∧ room nbytes b ∧ heap u' (b :: al))) ∧
  (∀ b al', al ≡ₚ b :: al' → ∃ N, ∀ fuel, (N <= fuel)%nat →
     ∃ u', free fuel (b.1 + HEADER) u = Some u' ∧ heap u' al') ∧
  NoDup al ∧ (∀ x y, x ∈ al → y ∈ al → x ≠ y → apart x y).
Proof.
  intros H. split_and!.
  - intros nbytes Hb. assert (Hn : nunits_of nbytes = (nbytes + 7) / 8 + 1).
    { unfold nunits_of, HEADER. rewrite u32_small by lia. f_equal. f_equal. lia. }
    assert (Hr : 1 <= nunits_of nbytes ∧ 8 * nunits_of nbytes < 2^31 ∧ nbytes <= 8 * (nunits_of nbytes - 1)).
    { rewrite Hn. Z.div_mod_to_equations. lia. }
    unfold malloc. set (n := nunits_of nbytes) in *.
    set (u0 := if freep u =? 0 then _ else u).
    assert (∃ fl, heap_ok base lo u0 fl al) as [fl H0].
    { unfold u0. destruct H as [(Hf & -> & Hbr & Hb0 & Hbl)|[fl H]].
      - rewrite Hf, Z.eqb_refl. exists [(base, 0)]. by apply first_heap.
      - destruct (ho_freep _ _ _ _ _ H) as (x & Hx & Ex). exists fl. rewrite Ex, (proj2 (Z.eqb_neq _ _)); [done|].
        pose proof (ho_list _ _ _ _ _ H) as Hok. pose proof (head_below u fl x Hok Hx).
        destruct (ho_base _ _ _ _ _ H). lia. }
    exists (2 * length fl + 2)%nat. intros fuel Hfuel.
    destruct (malloc_loop_ok u0 fl al n fuel H0) as (r & u' & E & Hres); try lia. exists r, u'. split; [exact E|].
    destruct Hres as [(-> & -> & Hsm & Hk)|(q & fl' & -> & H')].
    + left. assert (Hbrk : brk u0 = brk u) by (unfold u0; by destruct (freep u =? 0)). rewrite Hbrk in Hk.
      unfold asked, HEADER in Hk. rewrite Hn in Hk. split_and!; [done..|]. exists fl. split; [done|].
      intros b Hbf Hroom. specialize (Hsm b Hbf). unfold room in Hroom. rewrite Hn in Hsm. revert Hsm. Z.div_mod_to_equations. lia.
    + right. exists (q, n). split_and!; [done|unfold room; cbn; lia|]. right. by exists fl'.
  - intros [bp z] al' Hal. destruct H as [(_ & -> & _)|[fl H]]; [by apply Permutation_nil_cons in Hal|].
    exists (S (length fl)). intros fuel Hfuel. destruct (free_ok u fl al al' bp z fuel H Hal) as (u' & fl' & E & H' & _); [lia|].
    exists u'. split; [exact E|]. right. by exists fl'.
  - destruct H as [(_ & -> & _)|[fl H]]; [constructor|apply H].
  - destruct H as [(_ & -> & _)|[fl H]]; [by intros x y []%elem_of_nil|apply H].
Qed.

End Heap.

(** ** Examples *)

(** A process whose break is at 4096 and that may grow to the kernel's part. *)
Definition ex_sbrk (b k : Z) : option Z := if (0 <=? k) && (b + k <? 2^31) then Some (b + k) else None.
Definition ex_ust : ust := U (λ _, 0) (λ _, 0) 0 4096.

Lemma ex_sbrk_ok b k b' : 0 <= k → ex_sbrk b k = Some b' → b' = b + k ∧ b' < 2^31.
Proof. intros Hk. unfold ex_sbrk. rewrite (proj2 (Z.leb_le _ _) Hk). cbn. zcase; [|done]. by intros [= <-]. Qed.

Lemma ex_heap : heap 100 4096 ex_ust [].
Proof. left. split_and!; done. Qed.

Lemma malloc_free_contract_witness :
  ∃ N, ∀ fuel, (N <= fuel)%nat → ∃ b u', malloc 100 ex_sbrk fuel 10 ex_ust = Some (b.1 + HEADER, u') ∧ room 10 b.
Proof.
  destruct (malloc_free_contract 100 4096 ex_sbrk ex_sbrk_ok ex_ust [] ex_heap) as [Hm _].
  destruct (Hm 10 ltac:(lia)) as [N HN]. exists N. intros fuel Hf. destruct (HN fuel Hf) as (r & u' & E & Hr).
  destruct Hr as [(_ & _ & Hs & _)|(b & -> & Hb & _)]; [by vm_compute in Hs|]. by exists b, u'.
Defined.

(** The size computation wraps: asking for all but one of the 2^32 addresses
    gives a block of one unit, with no room at all. *)
Theorem malloc_size_wraps : ∃ r u', malloc 100 ex_sbrk 10 (2^32 - 1) ex_ust = Some (r, u') ∧ r ≠ 0 ∧
  size u' (r - 8) = 1 ∧ r = brk u'.
Proof. eexists _, _. split; [vm_compute; reflexivity|]. vm_compute. done. Qed.
