(* ===== verification/Console.v ===== *)
(** * The console (xv6A1/console.c)

    Output goes to the screen memory and the serial port, input is collected in
    a ring of 128 bytes with three free-running counters: [r], up to where it
    has been read, [w], up to where it may be read, and [e], up to where it has
    been typed. *)

From S2P Require Import Prelude Memory Spinlock Ring Proc Kbd Printf.

Definition INPUT_BUF : Z := 128.
Definition BACKSPACE : Z := 0x100.
Definition NEWLINE : Z := 10.

(** [C('D')] and the other control characters of the editor. *)
Definition CTL_D : Z := 4.
Definition CTL_H : Z := 8.
Definition CTL_P : Z := 16.
Definition CTL_U : Z := 21.
Definition DEL : Z := 127.

Record input := Input { in_buf : list Z; in_r : Z; in_w : Z; in_e : Z }.

(** The console: [cons.lock], [cons.locking], [panicked], the screen memory and
    the cursor registers, the serial port, the input, the wake-ups issued, and
    the sleep lock of the inode a device call is made on. *)
Record cst := Cst {
  c_lock : bool;
  locking : bool;
  panicked : bool;
  crt : list Z;
  cursor : Z;
  serial : uartst;
  inp : input;
  c_woken : list chan;
  ip_locked : bool }.

Inductive ConsLock : Set := .

#[export] Instance cons_has_lock : HasLock ConsLock cst.
Proof.
  refine {| lock_held := c_lock;
            set_lock b s := Cst b (locking s) (panicked s) (crt s) (cursor s) (serial s) (inp s) (c_woken s) (ip_locked s) |};
    by intros; destruct s.
Defined.

Definition set_locking (b : bool) (s : cst) : cst :=
  Cst (c_lock s) b (panicked s) (crt s) (cursor s) (serial s) (inp s) (c_woken s) (ip_locked s).
Definition set_panicked (b : bool) (s : cst) : cst :=
  Cst (c_lock s) (locking s) b (crt s) (cursor s) (serial s) (inp s) (c_woken s) (ip_locked s).
Definition set_screen (t : list Z) (pos : Z) (s : cst) : cst :=
  Cst (c_lock s) (locking s) (panicked s) t pos (serial s) (inp s) (c_woken s) (ip_locked s).
Definition set_serial (u : uartst) (s : cst) : cst :=
  Cst (c_lock s) (locking s) (panicked s) (crt s) (cursor s) u (inp s) (c_woken s) (ip_locked s).
Definition set_input (i : input) (s : cst) : cst :=
  Cst (c_lock s) (locking s) (panicked s) (crt s) (cursor s) (serial s) i (c_woken s) (ip_locked s).
Definition set_ip (b : bool) (s : cst) : cst :=
  Cst (c_lock s) (locking s) (panicked s) (crt s) (cursor s) (serial s) (inp s) (c_woken s) b.

Definition wakeup_input : M cst unit :=
  modify (λ s, Cst (c_lock s) (locking s) (panicked s) (crt s) (cursor s) (serial s) (inp s) (c_woken s ++ [ChInput]) (ip_locked s)).

(** ** Output *)

(** A character cell, black on white. *)
Definition cell (c : Z) : Z := Z.lor (Z.land c 0xff) 0x0700.

(** [crt[pos] = v]; the screen has 25 rows of 80. *)
Definition crt_store (pos v : Z) : M cst unit := λ s,
  if (pos <? 0) || (2000 <=? pos) then Fault "crt"
  else Ret tt (set_screen (<[Z.to_nat pos := v]> (crt s)) (cursor s) s).

(** [memmove(crt, crt+80, 23*80 cells)], then clear from [pos] to the end of
    row 23. *)
Definition scroll (pos : Z) (t : list Z) : list Z :=
  let t := take 1840 (drop 80 t) ++ drop 1840 t in
  take (Z.to_nat pos) t ++ replicate (Z.to_nat (24 * 80 - pos)) 0 ++ drop (24 * 80) t.

Definition cgaputc (c : Z) : M cst unit :=
  pos <- gets cursor ;;
  pos <- (if c =? NEWLINE then ret (pos + (80 - pos mod 80))
          else if c =? BACKSPACE then ret (if 0 <? pos then pos - 1 else pos)
          else crt_store pos (cell c) ;;; ret (pos + 1)) ;;
  if (pos <? 0) || (25 * 80 <? pos) then panic "pos under/overflow" else
  pos <- (if 24 <=? pos / 80 then
            modify (λ s, set_screen (scroll (pos - 80) (crt s)) (cursor s) s) ;;; ret (pos - 80)
          else ret pos) ;;
  modify (λ s, set_screen (crt s) (u16 pos) s) ;;;
  crt_store pos (Z.lor 32 0x0700).

(** A processor that finds [panicked] set stops for good, as one that panics
    does. *)
Definition consputc (c : Z) : M cst unit :=
  p <- gets panicked ;;
  if p then panic "panicked" else
  modify (λ s, set_serial (if c =? BACKSPACE then uartputc 8 (uartputc 32 (uartputc 8 (serial s)))
                           else uartputc c (serial s)) s) ;;;
  cgaputc c.

Definition puts (cs : list Z) : M cst unit := for_all cs consputc.

(** The digits of the kernel's [printint], and what it prints. *)
Definition KDIGITS : list Z := [48; 49; 50; 51; 52; 53; 54; 55; 56; 57; 97; 98; 99; 100; 101; 102].

Definition knumber (xx base : Z) (sign : bool) : list Z :=
  let neg := sign && (s32 xx <? 0) in
  let x := if neg then u32 (- xx) else u32 xx in
  rev (digits_loop KDIGITS base UINT_DIGITS x ++ (if neg then [45] else [])).

Definition kprintint (xx base : Z) (sign : bool) : M cst unit := puts (knumber xx base sign).

(** An argument word: a number, or the address of a string, which may be null. *)
Inductive arg := ANum (x : Z) | AStr (s : option (list Z)).

(** The loop of [cprintf]; reading an argument that was not passed, or a number
    as a string, is undefined. *)
Fixpoint cprintf_loop (fmt : list Z) (argp : list arg) : M cst unit :=
  match fmt with
  | [] => ret tt
  | c :: fmt =>
      if negb (c =? 37) then consputc c ;;; cprintf_loop fmt argp
      else
        match fmt with
        | [] => ret tt
        | c :: fmt =>
            if c =? 100 then
              match argp with
              | ANum x :: argp => kprintint x 10 true ;;; cprintf_loop fmt argp
              | _ => fault "cprintf"
              end
            else if (c =? 120) || (c =? 112) then
              match argp with
              | ANum x :: argp => kprintint x 16 false ;;; cprintf_loop fmt argp
              | _ => fault "cprintf"
              end
            else if c =? 115 then
              match argp with
              | AStr s :: argp => puts (default null_text s) ;;; cprintf_loop fmt argp
              | _ => fault "cprintf"
              end
            else if c =? 37 then consputc 37 ;;; cprintf_loop fmt argp
            else consputc 37 ;;; consputc c ;;; cprintf_loop fmt argp
        end
  end.

Definition cprintf (fmt : option (list Z)) (argp : list arg) : M cst unit :=
  lk <- gets locking ;;
  when lk do acquire ConsLock ;;;
  match fmt with
  | None => panic "null fmt"
  | Some fmt => cprintf_loop fmt argp
  end ;;;
  when lk do release ConsLock.

(** The bytes of a string of the source. *)
Fixpoint text (s : string) : list Z :=
  match s with
  | EmptyString => []
  | String a s => Z.of_N (Ascii.N_of_ascii a) :: text s
  end.

(** [panic(s)], up to its endless loop; [pcs] is what [getcallerpcs] finds. *)
Definition panic_print (lapicid : Z) (s : list Z) (pcs : list Z) : M cst unit :=
  cprintf (Some (text "lapicid %d: panic: ")) [ANum lapicid] ;;;
  cprintf (Some s) [] ;;;
  cprintf (Some [NEWLINE]) [] ;;;
  for_all pcs (λ pc, cprintf (Some (text " %p")) [ANum pc]).

Definition panic_report (lapicid : Z) (s : list Z) (pcs : list Z) : M cst unit :=
  modify (set_locking false) ;;;
  panic_print lapicid s pcs ;;;
  modify (set_panicked true).

(** ** The process listing (proc.c) *)

Definition states (st : procstate) : list Z :=
  match st with
  | UNUSED => text "unused"
  | EMBRYO => text "embryo"
  | SLEEPING => text "sleep "
  | RUNNABLE => text "runble"
  | RUNNING => text "run   "
  | ZOMBIE => text "zombie"
  end.

(** [for(i=0; i<10 && pc[i] != 0; i++) cprintf(" %p", pc[i]);] *)
Fixpoint print_pcs (pc : list Z) : M cst unit :=
  match pc with
  | [] => ret tt
  | x :: pc => if x =? 0 then ret tt else cprintf (Some (text " %p")) [ANum x] ;;; print_pcs pc
  end.

Definition procdump (m : mem) (ps : list proc) : M cst unit :=
  for_all ps (λ p,
    when negb (is_state UNUSED p) do
      (cprintf (Some (text "%d %s %s")) [ANum (pid p); AStr (Some (states (state p))); AStr (Some (name p))] ;;;
       when is_state SLEEPING p do print_pcs (getcallerpcs m (c_ebp (cregs p) + 8)) ;;;
       cprintf (Some [NEWLINE]) [])).

(** ** Input *)

Definition in_at (i : input) (x : Z) : Z := in_buf i !!! slot INPUT_BUF x.

(** The loop of [C('U')]: each turn takes [e] back by one. *)
Fixpoint kill_line (fuel : nat) : M cst unit :=
  i <- gets inp ;;
  if (in_e i =? in_w i) || (in_at i (in_e i - 1) =? NEWLINE) then ret tt
  else match fuel with
       | O => ret tt
       | S n =>
           modify (set_input (Input (in_buf i) (in_r i) (in_w i) (u32 (in_e i - 1)))) ;;;
           consputc BACKSPACE ;;;
           kill_line n
       end.

(** One character of [consoleintr]; whether it asks for the process listing. *)
Definition intr_char (c : Z) : M cst bool :=
  if c =? CTL_P then ret true
  else if c =? CTL_U then kill_line 128 ;;; ret false
  else if (c =? CTL_H) || (c =? DEL) then
    i <- gets inp ;;
    (when negb (in_e i =? in_w i) do
       (modify (set_input (Input (in_buf i) (in_r i) (in_w i) (u32 (in_e i - 1)))) ;;;
        consputc BACKSPACE)) ;;;
    ret false
  else
    i <- gets inp ;;
    (when negb (c =? 0) && (u32 (in_e i - in_r i) <? INPUT_BUF) do
       (let c := if c =? 13 then NEWLINE else c in
        modify (set_input (Input (<[slot INPUT_BUF (in_e i) := s8 c]> (in_buf i)) (in_r i) (in_w i) (u32 (in_e i + 1)))) ;;;
        consputc c ;;;
        i <- gets inp ;;
        when (c =? NEWLINE) || (c =? CTL_D) || (in_e i =? u32 (in_r i + INPUT_BUF)) do
          (modify (set_input (Input (in_buf i) (in_r i) (in_e i) (in_e i))) ;;;
           wakeup_input))) ;;;
    ret false.

Section Interrupt.
Context {G : Type} `{!Source G}.

(** [while((c = getc()) >= 0)], with at most [fuel] characters. *)
Fixpoint intr_loop (fuel : nat) (g : G) (dump : bool) : M cst (bool * G) :=
  if (getc g).1 <? 0 then ret (dump, (getc g).2)
  else match fuel with
       | O => ret (dump, g)
       | S n =>
           d <- intr_char (getc g).1 ;;
           intr_loop n (getc g).2 (dump || d)
       end.

Definition consoleintr (m : mem) (ps : list proc) (g : G) : M cst G :=
  acquire ConsLock ;;;
  r <- intr_loop (pending g) g false ;;
  release ConsLock ;;;
  (when fst r do procdump m ps) ;;;
  ret (snd r).

End Interrupt.

(** [kbdintr] and [uartintr]; the serial port is part of the console, which
    also writes to it. *)
Definition kbdintr (m : mem) (ps : list proc) (k : kbd) : M cst kbd := consoleintr m ps k.
Definition uartintr (m : mem) (ps : list proc) : M cst unit :=
  u <- gets serial ;;
  u' <- consoleintr m ps u ;;
  modify (λ s, set_serial (Uart (uart (serial s)) (received u') (sent (serial s))) s).

(** How a turn of [consoleread] ends: it returns a number, or goes to sleep with
    [n] bytes still to read. *)
Inductive cturn := CReturned (r : Z) | CSlept (n : Z).

Definition ip_unlock : M cst unit := modify (set_ip false).
Definition ip_lock : M cst unit := modify (set_ip true).

(** The loop, with the lock held; the bytes it stores at [dst]. The inner loop
    either finds [r != w] or leaves, so a turn takes each byte at most once. *)
Fixpoint cread_loop (fuel : nat) (killed : bool) (target n : Z) (dst : list Z) : M cst (cturn * list Z) :=
  let finish (n : Z) (dst : list Z) :=
    release ConsLock ;;; ip_lock ;;; ret (CReturned (s32 (target - n)), dst) in
  if n <=? 0 then finish n dst
  else
    i <- gets inp ;;
    if in_r i =? in_w i then
      release ConsLock ;;;
      if killed then ip_lock ;;; ret (CReturned (-1), dst)
      else ret (CSlept n, dst)
    else
      let c := in_at i (in_r i) in
      modify (set_input (Input (in_buf i) (u32 (in_r i + 1)) (in_w i) (in_e i))) ;;;
      if c =? CTL_D then
        (when n <? target do modify (set_input i)) ;;;
        finish n dst
      else if c =? NEWLINE then finish (n - 1) (dst ++ [c])
      else match fuel with
           | O => fault "cread_loop"
           | S f => cread_loop f killed target (n - 1) (dst ++ [c])
           end.

(** A turn of [consoleread] of [n] bytes. *)
Definition consoleread (killed : bool) (n : Z) : M cst (cturn * list Z) :=
  ip_unlock ;;;
  acquire ConsLock ;;;
  cread_loop 128 killed n n [].

(** The turn after a wake-up, with [n] of the [target] bytes still to read. *)
Definition consoleread_resume (killed : bool) (target n : Z) : M cst (cturn * list Z) :=
  acquire ConsLock ;;;
  cread_loop 128 killed target n [].

Definition consolewrite (buf : list Z) : M cst Z :=
  ip_unlock ;;;
  acquire ConsLock ;;;
  for_all buf (λ c, consputc (Z.land c 0xff)) ;;;
  release ConsLock ;;;
  ip_lock ;;;
  ret (Z.of_nat (length buf)).

(** [consoleinit]: the lock and the flag; it also puts [consoleread] and
    [consolewrite] in the device table and enables the keyboard's interrupt. *)
Definition consoleinit (s : cst) : cst := set_locking true (set_lock (T := ConsLock) false s).
