(* ===== verification/ConsoleOut.v ===== *)
(** * Console output: the screen, the serial line, panics

    Every character that is written leaves the cursor on the first 24 rows,
    stores only there, and is sent once to the serial port; so the check for the
    cursor's range never fires, formatted output is total, and a panic is
    reported whatever locks are held and then stops every other processor that
    prints. *)

From S2P Require Import Prelude Memory Spinlock Ring Proc Kbd Printf Console.

(** The screen memory and the cursor. *)
Definition screen_ok (s : cst) : Prop := length (crt s) = 2000%nat ∧ 0 <= cursor s < 1920.

(** What goes to the serial port for a character. *)
Definition echo (c : Z) : list Z := if c =? BACKSPACE then [8; 32; 8] else [u8 c].

(** From [s] to [s'] exactly [out] was written, and nothing else changed but the
    first 24 rows of the screen. *)
Record wrote (out : list Z) (s s' : cst) : Prop := {
  wr_screen : screen_ok s → screen_ok s';
  wr_below : drop 1920 (crt s') = drop 1920 (crt s);
  wr_sent : sent (serial s') = sent (serial s) ++ (if uart (serial s) then out else []);
  wr_uart : uart (serial s') = uart (serial s);
  wr_received : received (serial s') = received (serial s);
  wr_rest : ∃ t pos u, s' = set_screen t pos (set_serial u s) }.

Lemma wrote_nil s : wrote [] s s.
Proof.
  split; try done; [destruct (uart _); by rewrite app_nil_r|]. exists (crt s), (cursor s), (serial s). by destruct s.
Qed.

Lemma output_trans a b s1 s2 s3 : wrote a s1 s2 → wrote b s2 s3 → wrote (a ++ b) s1 s3.
Proof.
  intros [S1 B1 T1 U1 R1 E1] [S2 B2 T2 U2 R2 E2]. split; try congruence; [auto| |].
  - rewrite T2, T1, U1. destruct (uart (serial s1)); by rewrite <- app_assoc.
  - destruct E1 as (t1 & p1 & u1 & ->), E2 as (t2 & p2 & u2 & ->). by exists t2, p2, u2.
Qed.

Lemma wrote_panicked out s s' : wrote out s s' → panicked s' = panicked s.
Proof. intros [_ _ _ _ _ (t & p & u & ->)]. done. Qed.
Lemma wrote_inp out s s' : wrote out s s' → inp s' = inp s.
Proof. intros [_ _ _ _ _ (t & p & u & ->)]. done. Qed.
Lemma wrote_lock out s s' : wrote out s s' → c_lock s' = c_lock s.
Proof. intros [_ _ _ _ _ (t & p & u & ->)]. done. Qed.
Lemma wrote_locking out s s' : wrote out s s' → locking s' = locking s.
Proof. intros [_ _ _ _ _ (t & p & u & ->)]. done. Qed.
Lemma wrote_woken out s s' : wrote out s s' → c_woken s' = c_woken s.
Proof. intros [_ _ _ _ _ (t & p & u & ->)]. done. Qed.
Lemma wrote_ip out s s' : wrote out s s' → ip_locked s' = ip_locked s.
Proof. intros [_ _ _ _ _ (t & p & u & ->)]. done. Qed.

(** Output runs in the states in which the screen is well-formed and no
    processor has panicked. *)
Definition can_write (s : cst) : Prop := screen_ok s ∧ panicked s = false.

Lemma wrote_can out s s' : wrote out s s' → can_write s → can_write s'.
Proof. intros W [H P]. split; [by apply W|by rewrite (wrote_panicked _ _ _ W)]. Qed.

(** Conditions that output does not disturb. *)
Class Stable (P : cst → Prop) := stable : ∀ out s s', wrote out s s' → P s → P s'.

#[export] Instance can_write_stable : Stable can_write.
Proof. exact wrote_can. Qed.

(** [cprintf] takes the lock unless a panic has turned locking off. *)
Definition can_print (s : cst) : Prop := can_write s ∧ (locking s = true → c_lock s = false).

#[export] Instance can_print_stable : Stable can_print.
Proof.
  intros out s s' W [C L]. split; [by eapply wrote_can|].
  by rewrite (wrote_lock _ _ _ W), (wrote_locking _ _ _ W).
Qed.

(** Where [P] holds, [m] writes [out] and returns [a]. *)
Definition writes (P : cst → Prop) {A} (m : M cst A) (a : A) (out : list Z) : Prop :=
  ∀ s, P s → ∃ s', m s = Ret a s' ∧ wrote out s s'.

Lemma writes_ret P {A} (a : A) : writes P (ret a) a [].
Proof. intros s _. exists s. auto using wrote_nil. Qed.

Lemma writes_bind `{!Stable P} {A B} (m : M cst A) (k : A → M cst B) a b o1 o2 :
  writes P m a o1 → writes P (k a) b o2 → writes P (bind m k) b (o1 ++ o2).
Proof.
  intros H1 H2 s C. destruct (H1 s C) as (s1 & E1 & W1). destruct (H2 s1 (stable _ _ _ W1 C)) as (s2 & E2 & W2).
  exists s2. unfold bind. rewrite E1. eauto using output_trans.
Qed.

Lemma writes_for_all `{!Stable P} {X} (xs : list X) (body : X → M cst unit) (out : X → list Z) :
  (∀ x, writes P (body x) tt (out x)) → writes P (for_all xs body) tt (concat (map out xs)).
Proof.
  intros H. induction xs as [|x xs IH]; cbn; [apply writes_ret|]. eapply writes_bind; [apply H|exact IH].
Qed.

#[export] Hint Resolve writes_ret writes_bind : kernel.

(** ** The screen *)

Lemma length_scroll pos t : length t = 2000%nat → 1840 <= pos <= 1920 → length (scroll pos t) = 2000%nat.
Proof.
  intros Hl Hp. unfold scroll.
  rewrite !length_app, !length_take, length_replicate, !length_drop, !length_app, !length_take, !length_drop, Hl. lia.
Qed.

Lemma scroll_below pos t : length t = 2000%nat → 1840 <= pos <= 1920 → drop 1920 (scroll pos t) = drop 1920 t.
Proof.
  intros Hl Hp. unfold scroll.
  assert (Ht : drop (24 * 80) (take 1840 (drop 80 t) ++ drop 1840 t) = drop 1920 t).
  { rewrite drop_app_ge by (rewrite length_take, length_drop; lia). rewrite drop_drop, length_take, length_drop. f_equal. lia. }
  rewrite Ht, app_assoc. apply drop_app_length'.
  rewrite length_app, length_take, length_replicate, length_app, length_take, !length_drop. lia.
Qed.

Lemma crt_store_ok pos v s : length (crt s) = 2000%nat → 0 <= pos < 1920 → ∃ t,
  crt_store pos v s = Ret tt (set_screen t (cursor s) s) ∧ length t = 2000%nat ∧ drop 1920 t = drop 1920 (crt s).
Proof.
  intros Hl Hp. unfold crt_store. rewrite (proj2 (Z.ltb_ge pos 0)), (proj2 (Z.leb_gt 2000 pos)) by lia. cbn [orb].
  eexists. split; [done|]. rewrite length_insert. split; [done|]. apply drop_insert_lt. lia.
Qed.

(** The second half of [cgaputc], from the position after the character. *)
Lemma cga_place pos s : length (crt s) = 2000%nat → 0 <= pos <= 1920 → ∃ t pos',
  (if (pos <? 0) || (25 * 80 <? pos) then panic "pos under/overflow" else
   pos <- (if 24 <=? pos / 80 then
            modify (λ s, set_screen (scroll (pos - 80) (crt s)) (cursor s) s) ;;; ret (pos - 80)
          else ret pos) ;;
   modify (λ s, set_screen (crt s) (u16 pos) s) ;;; crt_store pos (Z.lor 32 0x0700)) s
  = Ret tt (set_screen t pos' s) ∧ length t = 2000%nat ∧ 0 <= pos' < 1920 ∧ drop 1920 t = drop 1920 (crt s).
Proof.
  intros Hl Hp. rewrite (proj2 (Z.ltb_ge pos 0)), (proj2 (Z.ltb_ge (25 * 80) pos)) by lia. cbn [orb].
  destruct (Z.leb_spec 24 (pos / 80)) as [H|H]; steps.
  - assert (Hq : pos = 1920) by (Z.div_mod_to_equations; lia). subst pos.
    pose proof (length_scroll (1920 - 80) (crt s) Hl ltac:(lia)).
    destruct (crt_store_ok (1920 - 80) (Z.lor 32 0x0700)
      (set_screen (scroll (1920 - 80) (crt s)) (u16 (1920 - 80)) s)) as (t & E & Ht & Hd); [done|lia|].
    exists t, (u16 (1920 - 80)). split; [exact E|]. split_and!; try done.
    rewrite Hd. apply scroll_below; [done|lia].
  - assert (pos < 1920) by (Z.div_mod_to_equations; lia).
    destruct (crt_store_ok pos (Z.lor 32 0x0700) (set_screen (crt s) (u16 pos) s)) as (t & E & Ht & Hd); [done|lia|].
    exists t, (u16 pos). split; [exact E|]. unfold u16. rewrite Z.mod_small by lia. auto with lia.
Qed.

Lemma cgaputc_ok c s : screen_ok s → ∃ t pos,
  cgaputc c s = Ret tt (set_screen t pos s) ∧ length t = 2000%nat ∧ 0 <= pos < 1920 ∧
  drop 1920 t = drop 1920 (crt s).
Proof.
  intros [Hl Hc]. unfold cgaputc. steps. destruct (c =? NEWLINE).
  { apply cga_place; [done|]. Z.div_mod_to_equations. lia. }
  destruct (c =? BACKSPACE).
  { apply cga_place; [done|]. destruct (Z.ltb_spec 0 (cursor s)); lia. }
  destruct (crt_store_ok (cursor s) (cell c) s Hl Hc) as (t & E & Ht & Hd). rewrite E.
  destruct (cga_place (cursor s + 1) (set_screen t (cursor s) s)) as (t' & p' & E' & Ht' & Hp' & Hd'); [done|lia|].
  exists t', p'. split; [exact E'|]. split_and!; try done; try lia. rewrite Hd'. exact Hd.
Qed.

Lemma uartputc_sent c u : sent (uartputc c u) = sent u ++ (if uart u then [u8 c] else []).
Proof. unfold uartputc. destruct u as [[] r o]; cbn; by rewrite ?app_nil_r. Qed.
Lemma uartputc_uart c u : uart (uartputc c u) = uart u.
Proof. unfold uartputc. by destruct u as [[] r o]. Qed.
Lemma uartputc_received c u : received (uartputc c u) = received u.
Proof. unfold uartputc. by destruct u as [[] r o]. Qed.

Lemma consputc_writes c : writes can_write (consputc c) tt (echo c).
Proof.
  intros s [Hs Hp]. unfold consputc. steps. rewrite Hp.
  set (u := if c =? BACKSPACE then _ else _). destruct (cgaputc_ok c (set_serial u s) Hs) as (t & pos & E & Hl & Hpos & Hd).
  rewrite E. eexists. split; [done|]. split; cbn [serial set_screen set_serial crt cursor]; try done;
    subst u; unfold echo; destruct (c =? BACKSPACE); rewrite ?uartputc_sent, ?uartputc_uart, ?uartputc_received; try done.
  - destruct (uart (serial s)); by rewrite <- ?app_assoc, ?app_nil_r.
  - by eexists t, pos, _.
  - by eexists t, pos, _.
Qed.

Lemma puts_writes cs : writes can_write (puts cs) tt (concat (map echo cs)).
Proof. apply writes_for_all, consputc_writes. Qed.

(** ** Formatted output *)

(** The characters [cprintf] prints, when the arguments fit the format. *)
Fixpoint format (fmt : list Z) (argp : list arg) : option (list Z) :=
  match fmt with
  | [] => Some []
  | c :: fmt =>
      if negb (c =? 37) then cons c <$> format fmt argp
      else
        match fmt with
        | [] => Some []
        | c :: fmt =>
            if c =? 100 then
              match argp with ANum x :: argp => app (knumber x 10 true) <$> format fmt argp | _ => None end
            else if (c =? 120) || (c =? 112) then
              match argp with ANum x :: argp => app (knumber x 16 false) <$> format fmt argp | _ => None end
            else if c =? 115 then
              match argp with AStr s :: argp => app (default null_text s) <$> format fmt argp | _ => None end
            else if c =? 37 then cons 37 <$> format fmt argp
            else (λ o, 37 :: c :: o) <$> format fmt argp
        end
  end.

Definition echoes (cs : list Z) : list Z := concat (map echo cs).

Lemma echoes_app a b : echoes (a ++ b) = echoes a ++ echoes b.
Proof. unfold echoes. by rewrite map_app, concat_app. Qed.

Lemma consputc_then c m o : writes can_write m tt o → writes can_write (consputc c ;;; m) tt (echo c ++ o).
Proof. intros H. eapply writes_bind; [apply consputc_writes|exact H]. Qed.

Lemma puts_then cs m o : writes can_write m tt o → writes can_write (puts cs ;;; m) tt (echoes cs ++ o).
Proof. intros H. eapply writes_bind; [apply puts_writes|exact H]. Qed.

Lemma cprintf_loop_writes n : ∀ fmt argp out, (length fmt <= n)%nat → format fmt argp = Some out →
  writes can_write (cprintf_loop fmt argp) tt (echoes out).
Proof.
  induction n as [|n IH]; intros [|c fmt] argp out Hn H; cbn in Hn; try lia;
    try (injection H as <-; apply writes_ret).
  cbn [format cprintf_loop] in *. destruct (c =? 37); cbn [negb] in *.
  2:{ destruct (format fmt argp) as [o|] eqn:E; [|done]. injection H as <-.
      apply consputc_then. apply IH; [lia|done]. }
  destruct fmt as [|d fmt]; [injection H as <-; apply writes_ret|]. cbn in Hn.
  destruct (d =? 100); [|destruct ((d =? 120) || (d =? 112)); [|destruct (d =? 115); [|destruct (d =? 37)]]].
  1-3: destruct argp as [|[x|x] argp]; try done;
    destruct (format fmt argp) as [o|] eqn:E; [|done]; injection H as <-; rewrite echoes_app;
    apply puts_then; apply IH; [lia|done].
  - destruct (format fmt argp) as [o|] eqn:E; [|done]. injection H as <-. apply consputc_then, IH; [lia|done].
  - destruct (format fmt argp) as [o|] eqn:E; [|done]. injection H as <-. by do 2 apply consputc_then; apply IH; [lia|].
Qed.

Lemma wrote_set_lock b out s s' : wrote out s s' →
  wrote out (set_lock (T := ConsLock) b s) (set_lock (T := ConsLock) b s').
Proof.
  intros [S B T U R (t & p & u & ->)]. split; try done. by exists t, p, u.
Qed.

(** [cprintf] prints what its format says and leaves the lock as it was. *)
Lemma cprintf_writes fmt argp out : format fmt argp = Some out →
  writes can_print (cprintf (Some fmt) argp) tt (echoes out).
Proof.
  intros Hf s [C L]. unfold cprintf. steps. destruct (locking s) eqn:El.
  - unfold acquire. cbn [lock_held cons_has_lock]. rewrite L by done.
    destruct (cprintf_loop_writes _ _ _ _ (le_n _) Hf (set_lock (T := ConsLock) true s)) as (s' & E & W); [exact C|].
    rewrite E. unfold release. cbn [lock_held cons_has_lock]. rewrite (wrote_lock _ _ _ W). cbn [set_lock cons_has_lock c_lock].
    eexists. split; [done|]. apply (wrote_set_lock false) in W. rewrite set_lock_set in W.
    rewrite <- (L eq_refl) in W at 1. change (c_lock s) with (lock_held (T := ConsLock) s) in W.
    rewrite set_lock_id in W. exact W.
  - destruct (cprintf_loop_writes _ _ _ _ (le_n _) Hf s C) as (s' & E & W). rewrite E. by exists s'.
Qed.

(** ** Panics *)

Definition panic_text (lapicid : Z) (msg : list Z) (pcs : list Z) : list Z :=
  text "lapicid " ++ knumber lapicid 10 true ++ text ": panic: " ++ msg ++ [NEWLINE] ++
  concat (map (λ pc, 32 :: knumber pc 16 false) pcs).

(** Compute the bytes of the strings in the goal. *)
Ltac texts :=
  repeat match goal with
  | |- context [text ?s] => let v := eval vm_compute in (text s) in change (text s) with v
  end.

Lemma format_pc pc : format (text " %p") [ANum pc] = Some (32 :: knumber pc 16 false).
Proof. texts. cbn. by rewrite app_nil_r. Qed.

Lemma panic_echoes lapicid msg pcs :
  echoes (panic_text lapicid msg pcs) =
  echoes (text "lapicid " ++ knumber lapicid 10 true ++ text ": panic: ") ++ echoes msg ++ echoes [NEWLINE] ++
  concat (map (λ pc, echoes (32 :: knumber pc 16 false)) pcs).
Proof.
  unfold panic_text. rewrite !echoes_app, <- !app_assoc. do 5 f_equal.
  induction pcs as [|pc pcs IH]; [done|]. cbn [map concat]. by rewrite echoes_app, IH.
Qed.

Lemma report_writes lapicid s msg pcs : format s [] = Some msg →
  writes can_print (panic_print lapicid s pcs) tt (echoes (panic_text lapicid msg pcs)).
Proof.
  intros Hf. rewrite panic_echoes.
  eapply writes_bind; [by apply cprintf_writes; texts|].
  eapply writes_bind; [by apply cprintf_writes|].
  eapply writes_bind; [by apply cprintf_writes|].
  apply writes_for_all. intros pc. apply cprintf_writes, format_pc.
Qed.

(** C30. A panic is always reported: whatever locks are held, [panic] prints the
    processor, the message and the call chain, each character once on the
    serial line; it stays off the lock of the console, which the panicking code
    may hold; and from then on any processor that prints stops. *)
Theorem panic_reports lapicid s msg pcs st :
  can_write st → format s [] = Some msg →
  ∃ st', panic_report lapicid s pcs st = Ret tt st' ∧ screen_ok st' ∧ c_lock st' = c_lock st ∧
    sent (serial st') = sent (serial st) ++ (if uart (serial st) then echoes (panic_text lapicid msg pcs) else []) ∧
    ∀ c, consputc c st' = Panic "panicked".
Proof.
  intros C Hf.
  destruct (report_writes lapicid s msg pcs Hf (set_locking false st)) as (st' & E & W).
  { split; [exact C|]. done. }
  exists (set_panicked true st'). split_and!.
  - unfold panic_report, bind, modify. by rewrite E.
  - apply W, C.
  - exact (wrote_lock _ _ _ W).
  - exact (wr_sent _ _ _ W).
  - done.
Qed.

(** A console at power-up: a blank screen, a serial port, interrupts to come. *)
Definition fresh : cst :=
  Cst false true false (replicate 2000 0) 0 (Uart true [] []) (Input (replicate 128 0) 0 0 0) [] false.

Lemma fresh_can_write : can_write fresh.
Proof. by repeat split. Qed.

Lemma panic_reports_witness : ∃ st',
  panic_report 0 (text "acquire") [0x80104000] (set_lock (T := ConsLock) true fresh) = Ret tt st' ∧
  sent (serial st') = echoes (panic_text 0 (text "acquire") [0x80104000]) ∧
  consputc 65 st' = Panic "panicked".
Proof.
  destruct (panic_reports 0 (text "acquire") (text "acquire") [0x80104000] (set_lock (T := ConsLock) true fresh))
    as (st' & E & _ & _ & S & P); [exact fresh_can_write|reflexivity|].
  exists st'. split; [exact E|]. split; [exact S|apply P].
Defined.

(** ** The process listing *)

Lemma print_pcs_writes pc : ∃ out, writes can_print (print_pcs pc) tt out.
Proof.
  induction pc as [|x pc [o IH]]; cbn; [eauto using writes_ret|].
  destruct (x =? 0); [eauto using writes_ret|]. eexists. eapply writes_bind; [apply cprintf_writes, format_pc|exact IH].
Qed.

(** The listing always ends, and only writes. *)
Lemma procdump_writes m ps : ∃ out, writes can_print (procdump m ps) tt out.
Proof.
  induction ps as [|p ps [o IH]]; [eauto using writes_ret|]. unfold procdump in *. cbn [for_all].
  assert (∃ o1, writes can_print
    (when negb (is_state UNUSED p) do
      (cprintf (Some (text "%d %s %s")) [ANum (pid p); AStr (Some (states (state p))); AStr (Some (name p))] ;;;
       when is_state SLEEPING p do print_pcs (getcallerpcs m (c_ebp (cregs p) + 8)) ;;;
       cprintf (Some [NEWLINE]) [])) tt o1) as [o1 H1].
  { destruct (negb _); [|eauto using writes_ret]. destruct (print_pcs_writes (getcallerpcs m (c_ebp (cregs p) + 8))) as [o2 H2].
    eexists. eapply writes_bind; [by apply cprintf_writes; texts|].
    eapply writes_bind; [|by apply cprintf_writes].
    instantiate (1 := if is_state SLEEPING p then o2 else []). destruct (is_state SLEEPING p); [done|apply writes_ret]. }
  eexists. eapply writes_bind; [exact H1|exact IH].
Qed.

(** ** Writing to the console *)

Lemma land_ff c : Z.land c 0xff = u8 c.
Proof. change 0xff with (Z.ones 8). by rewrite Z.land_ones by lia. Qed.

Lemma echo_u8 c : echo (Z.land c 0xff) = [u8 c].
Proof.
  rewrite land_ff. unfold echo, BACKSPACE. pose proof (u8_range c).
  destruct (Z.eqb_spec (u8 c) 0x100); [lia|]. by rewrite u8_small.
Qed.

Lemma concat_singles (f : Z → Z) l : concat (map (λ c, [f c]) l) = map f l.
Proof. induction l as [|c l IH]; cbn; [done|]. by rewrite IH. Qed.

(** [consolewrite] of any bytes returns their number with the console's
    lock free and the inode locked again; each byte is sent once and in order,
    the cursor ends on the first 24 rows, and the last row is never touched. *)
Theorem consolewrite_output buf s :
  can_write s → c_lock s = false →
  ∃ s', consolewrite buf s = Ret (Z.of_nat (length buf)) s' ∧ can_write s' ∧ c_lock s' = false ∧
    ip_locked s' = true ∧ inp s' = inp s ∧ drop 1920 (crt s') = drop 1920 (crt s) ∧
    sent (serial s') = sent (serial s) ++ (if uart (serial s) then map u8 buf else []).
Proof.
  intros C L. unfold consolewrite. cbv [bind ip_unlock ip_lock modify]. unfold acquire. cbn [lock_held cons_has_lock set_ip c_lock].
  rewrite L. set (s1 := set_lock true _).
  destruct (writes_for_all (P := can_write) buf (λ c, consputc (Z.land c 0xff)) (λ c, [u8 c])) with s1 as (s2 & E & W).
  { intros c. rewrite <- echo_u8. apply consputc_writes. }
  { exact C. }
  rewrite E. unfold release. cbn [lock_held cons_has_lock]. rewrite (wrote_lock _ _ _ W).
  change (c_lock s1) with true. cbv iota beta. eexists. split; [done|].
  rewrite concat_singles in W. split_and!; try done.
  - exact (wrote_can _ _ _ W C).
  - exact (wrote_inp _ _ _ W).
  - exact (wr_below _ _ _ W).
  - exact (wr_sent _ _ _ W).
Qed.

Lemma consolewrite_output_witness : ∃ s',
  consolewrite [104; 105; 10] fresh = Ret 3 s' ∧ sent (serial s') = [104; 105; 10].
Proof.
  destruct (consolewrite_output [104; 105; 10] fresh) as (s' & E & _ & _ & _ & _ & _ & S);
    [exact fresh_can_write|reflexivity|]. exists s'. split; [exact E|exact S].
Defined.
