(* ===== verification/ConsoleIn.v ===== *)
(** * Console input: the line discipline

    The ring with its three counters implements a line editor with two lists:
    the bytes that can be read, and the line being typed. *)

From S2P Require Import Prelude Memory Spinlock Ring Proc Kbd Printf Console ConsoleOut.

(** ** The abstract editor *)

Definition lines : Type := list Z * list Z.

(** What typing the character [c] does. *)
Definition line_char (a : lines) (c : Z) : lines :=
  if c =? CTL_P then a
  else if c =? CTL_U then (a.1, [])
  else if (c =? CTL_H) || (c =? DEL) then (a.1, removelast a.2)
  else if (c =? 0) || (128 <=? length a.1 + length a.2)%nat then a
  else
    let c := if c =? 13 then NEWLINE else c in
    let line := a.2 ++ [s8 c] in
    if (c =? NEWLINE) || (c =? CTL_D) || (length a.1 + length line =? 128)%nat
    then (a.1 ++ line, []) else (a.1, line).

(** What it sends back. *)
Definition line_echo (a : lines) (c : Z) : list Z :=
  if c =? CTL_P then []
  else if c =? CTL_U then concat (replicate (length a.2) (echo BACKSPACE))
  else if (c =? CTL_H) || (c =? DEL) then (if decide (a.2 = []) then [] else echo BACKSPACE)
  else if (c =? 0) || (128 <=? length a.1 + length a.2)%nat then []
  else echo (if c =? 13 then NEWLINE else c).

(** Reading [n] bytes when some ([got]) have been read already: the bytes, what
    is left, and whether the call is over. *)
Fixpoint line_read (n : nat) (got : bool) (l : list Z) : list Z * list Z * bool :=
  match n with
  | O => ([], l, true)
  | S n =>
      match l with
      | [] => ([], [], false)
      | c :: l' =>
          if c =? CTL_D then ([], if got then l else l', true)
          else if c =? NEWLINE then ([c], l', true)
          else let '(d, r, b) := line_read n true l' in (c :: d, r, b)
      end
  end.

(** ** The ring *)

Definition nready (i : input) : Z := u32 (in_w i - in_r i).
Definition nediting (i : input) : Z := u32 (in_e i - in_w i).
Definition ready (i : input) : list Z := slice INPUT_BUF (in_buf i) (in_r i) (Z.to_nat (nready i)).
Definition editing (i : input) : list Z := slice INPUT_BUF (in_buf i) (in_w i) (Z.to_nat (nediting i)).
Definition lines_of (i : input) : lines := (ready i, editing i).

Record input_ok (i : input) : Prop := {
  io_len : length (in_buf i) = 128%nat;
  io_r : is_u32 (in_r i);
  io_w : is_u32 (in_w i);
  io_e : is_u32 (in_e i);
  io_count : nready i + nediting i <= INPUT_BUF;
  io_full : nready i + nediting i = INPUT_BUF → in_e i = in_w i;
  io_line : NEWLINE ∉ editing i }.

Lemma input_divides : (INPUT_BUF | 2^32).
Proof. by exists (2^25). Qed.

#[local] Hint Resolve input_divides : kernel.

Lemma length_ready i : length (ready i) = Z.to_nat (nready i).
Proof. apply length_slice. Qed.
Lemma length_editing i : length (editing i) = Z.to_nat (nediting i).
Proof. apply length_slice. Qed.

Lemma counts_nonneg i : 0 <= nready i ∧ 0 <= nediting i.
Proof. split; apply u32_range. Qed.

Lemma length_lines i : input_ok i → (length (ready i) + length (editing i) <= 128)%nat.
Proof.
  intros H. rewrite length_ready, length_editing. pose proof (io_count _ H). pose proof (counts_nonneg i).
  unfold INPUT_BUF in *. lia.
Qed.

(** The part of it that holds also while a character is being stored. *)
Record ring_ok (i : input) : Prop := {
  ri_len : length (in_buf i) = 128%nat;
  ri_r : is_u32 (in_r i);
  ri_w : is_u32 (in_w i);
  ri_e : is_u32 (in_e i);
  ri_count : nready i + nediting i <= INPUT_BUF }.

Lemma input_ring i : input_ok i → ring_ok i.
Proof. by intros []. Qed.

Lemma total_count i : ring_ok i → u32 (in_e i - in_r i) = nready i + nediting i.
Proof.
  intros [_ Hr Hw He Hc]. unfold nready, nediting, INPUT_BUF, is_u32, u32 in *. Z.div_mod_to_equations. lia.
Qed.

Lemma editing_nil i : input_ok i → (in_e i =? in_w i) = bool_decide (editing i = []).
Proof.
  intros H. apply Bool.eq_iff_eq_true. rewrite Z.eqb_eq, bool_decide_eq_true, <- length_zero_iff_nil, length_editing.
  destruct H as [_ _ Hw He _ _ _]. unfold nediting, is_u32, u32 in *. Z.div_mod_to_equations. lia.
Qed.

Lemma ready_nil i : input_ok i → (in_r i =? in_w i) = bool_decide (ready i = []).
Proof.
  intros H. apply Bool.eq_iff_eq_true. rewrite Z.eqb_eq, bool_decide_eq_true, <- length_zero_iff_nil, length_ready.
  destruct H as [_ Hr Hw _ _ _ _]. unfold nready, is_u32, u32 in *. Z.div_mod_to_equations. lia.
Qed.

(** What follows the readable bytes starts at [w]. *)
Lemma ready_then i n :
  slice INPUT_BUF (in_buf i) (in_r i) (Z.to_nat (nready i) + n) = ready i ++ slice INPUT_BUF (in_buf i) (in_w i) n.
Proof.
  rewrite slice_app by (done || apply input_divides). f_equal.
  unfold slice. apply map_ext. intros k. f_equal. rewrite slot_u32_add by (done || apply input_divides).
  rewrite Z2Nat.id by apply u32_range. unfold nready. rewrite (Z.add_comm (in_r i)), <- Z.add_assoc.
  rewrite slot_u32_add by (done || apply input_divides). f_equal. lia.
Qed.

(** The line without its last character, and that character. *)
Definition rub (i : input) : input := Input (in_buf i) (in_r i) (in_w i) (u32 (in_e i - 1)).

Lemma nediting_rub i : input_ok i → editing i ≠ [] → nediting (rub i) = nediting i - 1.
Proof.
  intros H Hn. assert (E : (in_e i =? in_w i) = false) by (rewrite editing_nil by done; by apply bool_decide_eq_false).
  apply Z.eqb_neq in E. destruct H as [_ _ Hw He _ _ _]. unfold nediting, is_u32, rub in *. cbn. unfold u32.
  idtac.
  Z.div_mod_to_equations. lia.
Qed.

Lemma editing_rub i : input_ok i → editing i ≠ [] →
  editing i = editing (rub i) ++ [in_at i (in_e i - 1)].
Proof.
  intros H Hn. pose proof (nediting_rub i H Hn) as Hm. pose proof (counts_nonneg (rub i)) as [_ Hp].
  unfold editing at 1. replace (Z.to_nat (nediting i)) with (S (Z.to_nat (nediting (rub i)))) by lia.
  rewrite slice_snoc. f_equal. f_equal. unfold in_at. f_equal.
  rewrite Z2Nat.id, Hm by lia. unfold nediting.
  replace (in_w i + (u32 (in_e i - in_w i) - 1)) with (u32 (in_e i - in_w i) + (in_w i - 1)) by lia.
  rewrite slot_u32_add by (done || apply input_divides). f_equal. lia.
Qed.

Lemma rub_ok i : input_ok i → editing i ≠ [] →
  input_ok (rub i) ∧ lines_of (rub i) = (ready i, removelast (editing i)) ∧ in_at i (in_e i - 1) ≠ NEWLINE.
Proof.
  intros H Hn. pose proof (nediting_rub i H Hn) as Hm. pose proof (editing_rub i H Hn) as Hs.
  pose proof (io_line _ H) as Hl. rewrite Hs in Hl. apply not_elem_of_app in Hl as [Hl Hc].
  rewrite list_elem_of_singleton in Hc. split_and!; [|by rewrite Hs, removelast_last|congruence].
  destruct H as [Hb Hr Hw He Hct Hf _]. change (nready i) with (nready (rub i)) in *.
  split; try done; [apply u32_range|lia|]. intros Hx. exfalso. unfold INPUT_BUF in *. lia.
Qed.

(** Storing a character that fits. *)
Definition put (c : Z) (i : input) : input :=
  Input (<[slot INPUT_BUF (in_e i) := c]> (in_buf i)) (in_r i) (in_w i) (u32 (in_e i + 1)).

Lemma nediting_put c i : input_ok i → nready i + nediting i < INPUT_BUF → nediting (put c i) = nediting i + 1.
Proof.
  intros [_ Hr Hw He _ _ _] Hlt. unfold nready, nediting, INPUT_BUF, is_u32, put in *. cbn. unfold u32 in *.
  Z.div_mod_to_equations. lia.
Qed.

Lemma lines_put c i : input_ok i → nready i + nediting i < INPUT_BUF →
  lines_of (put c i) = (ready i, editing i ++ [c]).
Proof.
  intros H Hlt. pose proof (nediting_put c i H Hlt) as Hn. pose proof (counts_nonneg i).
  pose proof (total_count i (input_ring i H)) as Ht.
  pose proof (ready_then i (Z.to_nat (nediting i))) as E1.
  pose proof (ready_then (put c i) (Z.to_nat (nediting (put c i)))) as E2. fold (editing i) (editing (put c i)) in E1, E2.
  rewrite Hn in E2. change (nready (put c i)) with (nready i) in E2. change (in_r (put c i)) with (in_r i) in E2.
  replace (Z.to_nat (nready i) + Z.to_nat (nediting i + 1))%nat with (S (Z.to_nat (nready i + nediting i))) in E2 by lia.
  replace (Z.to_nat (nready i) + Z.to_nat (nediting i))%nat with (Z.to_nat (nready i + nediting i)) in E1 by lia.
  assert (Hs : slot INPUT_BUF (in_e i) = slot INPUT_BUF (in_r i + Z.of_nat (Z.to_nat (nready i + nediting i)))).
  { rewrite Z2Nat.id, <- Ht, Z.add_comm, slot_u32_add by (lia || done || apply input_divides). f_equal. lia. }
  cbn [put in_buf] in E2. rewrite Hs, slice_put, E1, <- app_assoc in E2;
    [|done|apply H|unfold INPUT_BUF in *; lia].
  unfold lines_of. symmetry in E2. apply app_inj_1 in E2 as [-> ->]; [done|by rewrite !length_ready].
Qed.

(** Making the line readable. *)
Definition commit_line (i : input) : input := Input (in_buf i) (in_r i) (in_e i) (in_e i).

Lemma commit_lines i : ring_ok i → lines_of (commit_line i) = (ready i ++ editing i, []).
Proof.
  intros H. pose proof (counts_nonneg i). unfold lines_of, ready, editing, nready, nediting. cbn [commit_line in_buf in_r in_w in_e].
  rewrite (total_count i H), Z.sub_diag. f_equal.
  rewrite Z2Nat.inj_add by lia. apply (ready_then i).
Qed.

(** Taking the next byte. *)
Definition pop (i : input) : input := Input (in_buf i) (u32 (in_r i + 1)) (in_w i) (in_e i).

Lemma pop_lines i : input_ok i → ready i ≠ [] →
  ready i = in_at i (in_r i) :: ready (pop i) ∧ editing (pop i) = editing i ∧ input_ok (pop i).
Proof.
  intros H Hn. assert (E : (in_r i =? in_w i) = false) by (rewrite ready_nil by done; by apply bool_decide_eq_false).
  apply Z.eqb_neq in E. pose proof (counts_nonneg i).
  assert (Hm : nready (pop i) = nready i - 1).
  { destruct H as [_ Hr Hw _ _ _ _]. unfold nready, pop, is_u32 in *. cbn. unfold u32 in *. Z.div_mod_to_equations. lia. }
  pose proof (counts_nonneg (pop i)).
  split_and!; [|done|].
  - unfold ready at 1. replace (Z.to_nat (nready i)) with (S (Z.to_nat (nready (pop i)))) by lia.
    rewrite slice_cons by (done || apply input_divides). done.
  - destruct H as [Hb Hr Hw He Hc Hf Hl]. change (nediting i) with (nediting (pop i)) in *.
    split; try done; [apply u32_range|lia|]. unfold INPUT_BUF in *. lia.
Qed.

(** ** The state of the console *)

Definition console_ok (s : cst) : Prop := can_write s ∧ input_ok (inp s).

(** From [s] to [s'] the editor went to [a] and sent [out] back; readers are
    woken when there is more to read. *)
Record edits (a : lines) (out : list Z) (s s' : cst) : Prop := {
  ed_ok : console_ok s → console_ok s';
  ed_lines : lines_of (inp s') = a;
  ed_lock : c_lock s' = c_lock s;
  ed_locking : locking s' = locking s;
  ed_ip : ip_locked s' = ip_locked s;
  ed_uart : uart (serial s') = uart (serial s);
  ed_sent : sent (serial s') = sent (serial s) ++ (if uart (serial s) then out else []);
  ed_woken : ∃ k, c_woken s' = c_woken s ++ replicate k ChInput ∧ (ready (inp s') ≠ ready (inp s) → (0 < k)%nat) }.

Lemma edits_refl s : edits (lines_of (inp s)) [] s s.
Proof. split; try done; [destruct (uart _); by rewrite app_nil_r|]. exists 0%nat. by rewrite app_nil_r. Qed.

Lemma edits_stay a s : a = lines_of (inp s) → edits a [] s s.
Proof. intros ->. apply edits_refl. Qed.

Lemma edits_trans a1 o1 a2 o2 s s1 s2 : edits a1 o1 s s1 → edits a2 o2 s1 s2 → edits a2 (o1 ++ o2) s s2.
Proof.
  intros H1 H2. destruct (ed_woken _ _ _ _ H1) as (k1 & K1 & R1), (ed_woken _ _ _ _ H2) as (k2 & K2 & R2).
  destruct H1 as [C1 L1 A1 B1 I1 U1 T1 _], H2 as [C2 L2 A2 B2 I2 U2 T2 _].
  split; try congruence; [auto| |].
  - rewrite T2, T1, U1. destruct (uart (serial s)); by rewrite <- app_assoc.
  - exists (k1 + k2)%nat. split; [by rewrite K2, K1, <- app_assoc, replicate_add|].
    intros Hn. destruct (decide (ready (inp s1) = ready (inp s))) as [E|E]; [|specialize (R1 E); lia].
    rewrite <- E in Hn. specialize (R2 Hn). lia.
Qed.

(** Output after the input was set to [i], with the same bytes to read. *)
Lemma wrote_edits i out s s' : input_ok i → ready i = ready (inp s) →
  wrote out (set_input i s) s' → edits (lines_of i) out s s'.
Proof.
  intros Ho Hr W. pose proof (wrote_inp _ _ _ W) as Ei. cbn in Ei. split.
  - intros [C _]. split; [exact (wrote_can _ _ _ W C)|]. by rewrite Ei.
  - by rewrite Ei.
  - exact (wrote_lock _ _ _ W).
  - exact (wrote_locking _ _ _ W).
  - exact (wrote_ip _ _ _ W).
  - exact (wr_uart _ _ _ W).
  - exact (wr_sent _ _ _ W).
  - exists 0%nat. rewrite app_nil_r, Ei. split; [exact (wrote_woken _ _ _ W)|congruence].
Qed.

Lemma putc_after_set i c s : can_write s → ∃ s',
  (modify (set_input i) ;;; consputc c) s = Ret tt s' ∧ wrote (echo c) (set_input i s) s'.
Proof. intros C. destruct (consputc_writes c (set_input i s)) as (s' & E & W); [exact C|]. by exists s'. Qed.

Lemma rub_step s : console_ok s → editing (inp s) ≠ [] → ∃ s',
  (modify (set_input (rub (inp s))) ;;; consputc BACKSPACE) s = Ret tt s' ∧ console_ok s' ∧
  edits (ready (inp s), removelast (editing (inp s))) (echo BACKSPACE) s s'.
Proof.
  intros C Hn. destruct (rub_ok (inp s)) as (Ho & Hl & _); [apply C|done|].
  destruct (putc_after_set (rub (inp s)) BACKSPACE s (proj1 C)) as (s' & E & W).
  apply wrote_edits in W as D; [|done..]. rewrite Hl in D. exists s'. split; [exact E|]. split; [by apply D|done].
Qed.

Lemma kill_line_spec n : ∀ s, console_ok s → (length (editing (inp s)) <= n)%nat → ∃ s',
  kill_line n s = Ret tt s' ∧
  edits (ready (inp s), []) (concat (replicate (length (editing (inp s))) (echo BACKSPACE))) s s'.
Proof.
  induction n as [|n IH]; intros s C Hn.
  { destruct (editing (inp s)) eqn:En; [|cbn in Hn; lia]. exists s. split; [|by apply edits_stay; unfold lines_of; rewrite En].
    cbn. unfold gets, bind. destruct C as [_ Hi]. rewrite editing_nil, En by done. done. }
  cbn [kill_line]. unfold bind at 1, gets. rewrite editing_nil by apply C.
  destruct (decide (editing (inp s) = [])) as [En|En].
  { rewrite bool_decide_eq_true_2 by done. exists s. split; [done|]. rewrite En. apply edits_stay. unfold lines_of. by rewrite En. }
  rewrite bool_decide_eq_false_2 by done. destruct (rub_ok (inp s)) as (_ & _ & Hc); [apply C|done|].
  rewrite (proj2 (Z.eqb_neq _ _) Hc). cbn [orb].
  destruct (rub_step s C En) as (s1 & E1 & C1 & D1). revert E1. unfold bind. fold (rub (inp s)).
  unfold modify. intros ->. pose proof (ed_lines _ _ _ _ D1) as L1. injection L1 as L1 L2.
  destruct (IH s1 C1) as (s2 & E2 & D2).
  { rewrite L2. pose proof (editing_rub (inp s) (proj2 C) En) as Hs. rewrite Hs in Hn |- *.
    rewrite removelast_last. rewrite length_app in Hn. cbn in Hn. lia. }
  exists s2. split; [exact E2|]. pose proof (edits_trans _ _ _ _ _ _ _ D1 D2) as D. rewrite L1, L2 in D.
  rewrite (editing_rub (inp s) (proj2 C) En) in D |- *. rewrite removelast_last in D. rewrite length_app, Nat.add_comm. exact D.
Qed.

(** ** Characters *)

Lemma s8_eq c x : 0 <= c < 256 → 0 <= x < 128 → s8 c = x ↔ c = x.
Proof. intros Hc Hx. unfold s8. rewrite u8_small by lia. destruct (Z.ltb_spec c (2^7)); lia. Qed.

Lemma room i : input_ok i →
  (u32 (in_e i - in_r i) <? INPUT_BUF) = negb (128 <=? length (ready i) + length (editing i))%nat.
Proof.
  intros H. rewrite (total_count i (input_ring i H)), length_ready, length_editing. pose proof (counts_nonneg i).
  apply Bool.eq_iff_eq_true. rewrite Z.ltb_lt, negb_true_iff, Nat.leb_gt. unfold INPUT_BUF. lia.
Qed.

(** The ring with one more character, which is full or not. *)
Lemma put_ok c i : input_ok i → nready i + nediting i < INPUT_BUF →
  (in_e (put c i) =? u32 (in_r (put c i) + INPUT_BUF)) = (length (ready i) + S (length (editing i)) =? 128)%nat.
Proof.
  intros H Hlt. rewrite length_ready, length_editing. pose proof (counts_nonneg i). pose proof (total_count i (input_ring i H)) as Ht.
  destruct H as [_ Hr _ He _ _ _]. apply Bool.eq_iff_eq_true. rewrite Z.eqb_eq, Nat.eqb_eq. cbn [put in_e in_r].
  assert ((Z.to_nat (nready i) + S (Z.to_nat (nediting i)) = 128)%nat ↔ u32 (in_e i - in_r i) = 127) as -> by lia.
  rewrite <- Ht in Hlt. unfold INPUT_BUF, is_u32, u32 in *. Z.div_mod_to_equations. lia.
Qed.

Lemma put_ring c i : input_ok i → nready i + nediting i < INPUT_BUF → ring_ok (put c i).
Proof.
  intros H Hlt. pose proof (nediting_put c i H Hlt) as Hn. destruct H as [Hb Hr Hw He _ _ _].
  split; try done; [cbn; by rewrite length_insert|apply u32_range|].
  rewrite Hn. change (nready (put c i)) with (nready i). lia.
Qed.

Lemma commit_line_ok i : ring_ok i → input_ok (commit_line i).
Proof.
  intros H. pose proof (total_count i H) as Ht. destruct H as [Hb Hr Hw He Hc].
  split; try done.
  - unfold nready, nediting. cbn [commit_line in_w in_r in_e]. rewrite Ht, Z.sub_diag. change (u32 0) with 0. lia.
  - unfold editing, nediting. cbn [commit_line in_w in_e]. rewrite Z.sub_diag. apply not_elem_of_nil.
Qed.

(** Storing a character that does not end the line. *)
Lemma put_inside c i : input_ok i → nready i + nediting i < INPUT_BUF → c ≠ NEWLINE →
  (length (ready i) + S (length (editing i)) =? 128)%nat = false → input_ok (put c i).
Proof.
  intros H Hlt Hc Hf. pose proof (put_ring c i H Hlt) as [Hb Hr Hw He Hcnt].
  pose proof (nediting_put c i H Hlt) as Hn. pose proof (counts_nonneg i).
  rewrite length_ready, length_editing in Hf. apply Nat.eqb_neq in Hf.
  split; try done.
  - intros Hx. exfalso. rewrite Hn in Hx. change (nready (put c i)) with (nready i) in Hx. unfold INPUT_BUF in *. lia.
  - pose proof (lines_put c i H Hlt) as [= _ ->]. apply not_elem_of_app. split; [apply H|].
    intros Hx%list_elem_of_singleton. congruence.
Qed.

(** A character that goes into the line. *)
Lemma accept_spec c s : console_ok s → 0 < c < 256 → c ≠ 13 →
  nready (inp s) + nediting (inp s) < INPUT_BUF → ∃ s',
  (modify (set_input (put (s8 c) (inp s))) ;;;
   consputc c ;;;
   i <- gets inp ;;
   when (c =? NEWLINE) || (c =? CTL_D) || (in_e i =? u32 (in_r i + INPUT_BUF)) do
     (modify (set_input (Input (in_buf i) (in_r i) (in_e i) (in_e i))) ;;; wakeup_input)) s = Ret tt s' ∧
  edits (let line := editing (inp s) ++ [s8 c] in
         if (c =? NEWLINE) || (c =? CTL_D) || (length (ready (inp s)) + length line =? 128)%nat
         then (ready (inp s) ++ line, []) else (ready (inp s), line)) (echo c) s s'.
Proof.
  intros [C H] Hc _ Hlt. set (i := put (s8 c) (inp s)).
  pose proof (lines_put (s8 c) _ H Hlt) as [= Hr He]. fold i in Hr, He.
  destruct (putc_after_set i c s C) as (s1 & E1 & W1). revert E1. unfold bind, modify, gets. intros ->.
  pose proof (wrote_inp _ _ _ W1) as Ei. cbn in Ei. rewrite Ei, length_app, Nat.add_1_r.
  pose proof (put_ok (s8 c) _ H Hlt) as Hf. fold i in Hf. rewrite Hf.
  destruct ((c =? NEWLINE) || (c =? CTL_D) || _) eqn:Eb.
  - eexists. split; [done|]. fold (commit_line i). pose proof (put_ring (s8 c) _ H Hlt) as Hi. fold i in Hi.
    split; cbn [inp set_input c_lock locking ip_locked serial c_woken].
    + intros _. split; [exact (wrote_can _ _ _ W1 C)|]. by apply commit_line_ok.
    + by rewrite commit_lines, Hr, He.
    + exact (wrote_lock _ _ _ W1).
    + exact (wrote_locking _ _ _ W1).
    + exact (wrote_ip _ _ _ W1).
    + exact (wr_uart _ _ _ W1).
    + exact (wr_sent _ _ _ W1).
    + exists 1%nat. split; [|lia]. by rewrite (wrote_woken _ _ _ W1).
  - apply orb_false_iff in Eb as [[Hn%Z.eqb_neq _]%orb_false_iff Eb].
    assert (input_ok i). { apply put_inside; try done. rewrite s8_eq; unfold NEWLINE in *; lia. }
    exists s1. split; [done|]. rewrite <- Hr, <- He. by apply wrote_edits.
Qed.
