(* ===== verification/ConsoleProps.v ===== *)
(** * The console refines the line editor

    Interrupts from any device and reads of any length implement the abstract
    editor of ConsoleIn; a line that is typed is what a reader gets. *)

From S2P Require Import Prelude Memory Spinlock Ring Proc Kbd Printf Console ConsoleOut ConsoleIn.

(** ** Interrupts *)

Lemma room_lt i : input_ok i → (u32 (in_e i - in_r i) <? INPUT_BUF) = true → nready i + nediting i < INPUT_BUF.
Proof. intros H. rewrite (total_count i (input_ring i H)). apply Z.ltb_lt. Qed.

Lemma intr_char_spec c s : console_ok s → 0 <= c < 256 → ∃ s',
  intr_char c s = Ret (c =? CTL_P) s' ∧
  edits (line_char (lines_of (inp s)) c) (line_echo (lines_of (inp s)) c) s s'.
Proof.
  intros C Hc. unfold intr_char, line_char, line_echo. cbn [lines_of fst snd].
  destruct (c =? CTL_P); [exists s; split; [done|apply edits_refl]|].
  destruct (c =? CTL_U).
  { destruct (kill_line_spec 128 s C) as (s' & E & D); [pose proof (length_lines _ (proj2 C)); lia|].
    exists s'. unfold bind. by rewrite E. }
  destruct ((c =? CTL_H) || (c =? DEL)).
  { unfold bind, gets. rewrite editing_nil by apply C. destruct (decide (editing (inp s) = [])) as [En|En].
    - rewrite bool_decide_eq_true_2 by done. exists s. split; [done|]. apply edits_stay. unfold lines_of. by rewrite En.
    - rewrite bool_decide_eq_false_2 by done. destruct (rub_step s C En) as (s' & E & _ & D). revert E.
      unfold bind, modify. fold (rub (inp s)). cbn [negb]. intros ->. by exists s'. }
  unfold bind at 1, gets at 1. rewrite room by apply C.
  destruct (c =? 0) eqn:E0; cbn [negb andb orb]; [exists s; split; [done|apply edits_refl]|].
  destruct (128 <=? _)%nat eqn:Er; cbn [negb]; [exists s; split; [done|apply edits_refl]|].
  set (c' := if c =? 13 then NEWLINE else c).
  assert (Hlt : nready (inp s) + nediting (inp s) < INPUT_BUF) by (apply room_lt; [apply C|]; by rewrite room, Er by apply C).
  apply Z.eqb_neq in E0.
  destruct (accept_spec c' s C) as (s' & E & D); [| |done|].
  - unfold c', NEWLINE. destruct (Z.eqb_spec c 13); lia.
  - unfold c', NEWLINE. destruct (Z.eqb_spec c 13); lia.
  - exists s'. split; [|exact D]. unfold bind at 1. cbv zeta. fold (put (s8 c') (inp s)). by rewrite E.
Qed.

Section Source.
Context {G : Type} `{!Source G}.

(** The characters the device has to offer, and what it sends back. *)
Fixpoint chars (fuel : nat) (g : G) : list Z :=
  if (getc g).1 <? 0 then []
  else match fuel with
       | O => []
       | S n => (getc g).1 :: chars n (getc g).2
       end.

Definition waiting (g : G) : list Z := chars (pending g) g.

Fixpoint echo_all (a : lines) (cs : list Z) : list Z :=
  match cs with
  | [] => []
  | c :: cs => line_echo a c ++ echo_all (line_char a c) cs
  end.

(** The device has been read until it had nothing more. *)
Definition drained (g : G) : Prop := ∃ g0, (getc g0).1 < 0 ∧ g = (getc g0).2.

Lemma intr_loop_spec fuel : ∀ g d s, (pending g <= fuel)%nat → console_ok s →
  Forall (λ c, c < 256) (chars fuel g) → ∃ s' g',
  intr_loop fuel g d s = Ret (d || existsb (λ c, c =? CTL_P) (chars fuel g), g') s' ∧ drained g' ∧
  edits (foldl line_char (lines_of (inp s)) (chars fuel g)) (echo_all (lines_of (inp s)) (chars fuel g)) s s'.
Proof.
  induction fuel as [|n IH]; intros g d s Hp C Hb; cbn [intr_loop chars] in *.
  { destruct (Z.ltb_spec (getc g).1 0) as [Hn|Hn]; [|pose proof (getc_progress g Hn); lia].
    exists s, (getc g).2. cbn. rewrite orb_false_r. split; [done|]. split; [by exists g|apply edits_refl]. }
  destruct (Z.ltb_spec (getc g).1 0) as [Hn|Hn].
  { exists s, (getc g).2. cbn. rewrite orb_false_r. split; [done|]. split; [by exists g|apply edits_refl]. }
  apply Forall_cons in Hb as [Hc Hb].
  destruct (intr_char_spec (getc g).1 s C) as (s1 & E1 & D1); [lia|].
  destruct (IH (getc g).2 (d || ((getc g).1 =? CTL_P)) s1) as (s2 & g2 & E2 & Hd & D2);
    [pose proof (getc_progress g Hn); lia|by apply D1|done|].
  exists s2, g2. unfold bind. rewrite E1. rewrite E2. cbn [existsb foldl echo_all]. rewrite orb_assoc.
  split; [done|]. split; [done|]. rewrite (ed_lines _ _ _ _ D1) in D2. exact (edits_trans _ _ _ _ _ _ _ D1 D2).
Qed.

Lemma existsb_absent x cs : x ∉ cs → existsb (λ c, c =? x) cs = false.
Proof.
  induction cs as [|c cs IH]; intros H; cbn; [done|]. apply not_elem_of_cons in H as [Hc H].
  rewrite IH by done. destruct (Z.eqb_spec c x); [congruence|done].
Qed.

(** A console between two operations: its lock is free. *)
Definition console_idle (s : cst) : Prop := console_ok s ∧ c_lock s = false.

Lemma procdump_after (b : bool) m ps s : console_idle s → ∃ s' out,
  (when b do procdump m ps) s = Ret tt s' ∧ (b = false → out = []) ∧ wrote out s s'.
Proof.
  intros [C L]. destruct b; [|exists s, []; split; [done|]; split; [done|apply wrote_nil]].
  destruct (procdump_writes m ps) as [o H]. destruct (H s) as (s' & E & W); [split; [apply C|done]|].
  exists s', o. done.
Qed.

Lemma interrupt_spec m ps (g : G) s :
  console_idle s → Forall (λ c, c < 256) (waiting g) →
  ∃ s' g' listing, consoleintr m ps g s = Ret g' s' ∧ console_idle s' ∧ drained g' ∧
    lines_of (inp s') = foldl line_char (lines_of (inp s)) (waiting g) ∧
    (CTL_P ∉ waiting g → listing = []) ∧
    sent (serial s') = sent (serial s) ++
      (if uart (serial s) then echo_all (lines_of (inp s)) (waiting g) ++ listing else []) ∧
    (∃ k, c_woken s' = c_woken s ++ k ∧ (ready (inp s') ≠ ready (inp s) → ChInput ∈ k)).
Proof.
  intros [C L] Hb. unfold consoleintr. unfold bind at 1, acquire. cbn [lock_held cons_has_lock]. rewrite L.
  assert (C0 : console_ok (set_lock (T := ConsLock) true s)) by exact C.
  destruct (intr_loop_spec (pending g) g false _ (le_n _) C0 Hb) as (s1 & g1 & E1 & Hd & D).
  unfold bind at 1. rewrite E1. unfold bind at 1, release. cbn [lock_held cons_has_lock].
  rewrite (ed_lock _ _ _ _ D). cbn [set_lock cons_has_lock c_lock fst snd].
  set (s2 := Cst false _ _ _ _ _ _ _ _). set (b := false || _).
  pose proof (ed_ok _ _ _ _ D C0) as C1.
  destruct (procdump_after b m ps s2) as (s3 & out & E3 & Ho & W); [by split; [exact C1|]|].
  unfold bind. rewrite E3. exists s3, g1, out. pose proof (wrote_inp _ _ _ W) as Ei. cbn in Ei.
  split; [done|]. split; [|split; [done|split; [|split; [|split]]]].
  - split; [|by rewrite (wrote_lock _ _ _ W)]. split; [exact (wrote_can _ _ _ W (proj1 C1))|]. rewrite Ei. apply C1.
  - rewrite Ei. exact (ed_lines _ _ _ _ D).
  - intros Hp. apply Ho. unfold b. cbn [orb]. apply existsb_absent, Hp.
  - rewrite (wr_sent _ _ _ W). cbn [serial s2]. rewrite (ed_sent _ _ _ _ D), (ed_uart _ _ _ _ D). cbn [serial set_lock cons_has_lock].
    destruct (uart (serial s)); by rewrite <- app_assoc.
  - destruct (ed_woken _ _ _ _ D) as (k & K & Hk). exists (replicate k ChInput). split.
    + by rewrite (wrote_woken _ _ _ W).
    + rewrite Ei. intros Hr. specialize (Hk Hr). apply elem_of_replicate. split; [done|lia].
Qed.

(** C28. Console interrupts implement the line editor: whatever bytes the
    device has, [consoleintr] takes them all, returns with the lock free, and
    leaves in the ring what the abstract editor (erase, kill-line, carriage
    return, end of file, a full buffer) makes of them; it sends back the echo of
    each, and then the process listing if that was asked for; and readers are
    woken whenever there is more to read. *)
Theorem consoleintr_refines m ps (g : G) s :
  console_idle s → Forall (λ c, c < 256) (waiting g) →
  ∃ s' g' listing, consoleintr m ps g s = Ret g' s' ∧ console_idle s' ∧ drained g' ∧
    lines_of (inp s') = foldl line_char (lines_of (inp s)) (waiting g) ∧
    (CTL_P ∉ waiting g → listing = []) ∧
    sent (serial s') = sent (serial s) ++
      (if uart (serial s) then echo_all (lines_of (inp s)) (waiting g) ++ listing else []) ∧
    (ready (inp s') ≠ ready (inp s) → ChInput ∈ drop (length (c_woken s)) (c_woken s')).
Proof.
  intros Hs Hg. destruct (interrupt_spec m ps g s Hs Hg) as (s' & g' & o & H1 & H2 & H3 & H4 & H5 & H6 & k & K & H7).
  exists s', g', o. by rewrite K, drop_app_length.
Qed.

(** ** Interrupt after interrupt *)

(** The console is interrupted once for each of [gs], which is the state of the
    device then. *)
Fixpoint interrupts (m : mem) (ps : list proc) (gs : list G) : M cst unit :=
  match gs with
  | [] => ret tt
  | g :: gs => consoleintr m ps g ;;; interrupts m ps gs
  end.

Lemma interrupts_spec m ps gs : ∀ s,
  console_idle s → Forall (λ c, c < 256) (concat (map waiting gs)) →
  ∃ s', interrupts m ps gs s = Ret tt s' ∧ console_idle s' ∧
    lines_of (inp s') = foldl line_char (lines_of (inp s)) (concat (map waiting gs)) ∧
    (∃ k, c_woken s' = c_woken s ++ k ∧ (ready (inp s') ≠ ready (inp s) → ChInput ∈ k)).
Proof.
  induction gs as [|g gs IH]; intros s Hs Hb; cbn [interrupts map concat] in *.
  { exists s. split_and!; try done. exists []. by rewrite app_nil_r. }
  apply Forall_app in Hb as [Hg Hb].
  destruct (interrupt_spec m ps g s Hs Hg) as (s1 & g' & _ & E1 & I1 & _ & L1 & _ & _ & k1 & K1 & R1).
  destruct (IH s1 I1 Hb) as (s2 & E2 & I2 & L2 & k2 & K2 & R2).
  exists s2. unfold bind. rewrite E1, E2, L2, L1, foldl_app. split_and!; try done.
  exists (k1 ++ k2). rewrite K2, K1, app_assoc. split; [done|]. intros Hr. apply elem_of_app.
  destruct (decide (ready (inp s1) = ready (inp s))) as [Eq|Eq]; [|by left; apply R1].
  right. apply R2. by rewrite Eq.
Qed.

End Source.

(** ** Devices give bytes *)

Lemma uart_bytes u : Forall (λ c, c < 256) (waiting u).
Proof.
  unfold waiting. cbn [pending uart_source]. destruct u as [[] r o]; cbn [received].
  - induction r as [|c r IH]; [by constructor|]. cbn [length chars getc uart_source uartgetc uart received fst snd negb].
    pose proof (u8_range c). destruct (Z.ltb_spec (u8 c) 0); [lia|]. constructor; [lia|exact IH].
  - by destruct r.
Qed.

Lemma kbd_bytes k : Forall (λ d, 0 <= d < 256) (codes k) → 0 <= shift k < 128 → Forall (λ c, c < 256) (waiting k).
Proof.
  unfold waiting. cbn [pending kbd_source]. destruct k as [sh cs]. cbn [codes shift]. intros Hc. revert sh.
  induction Hc as [|d cs Hd _ IH]; intros sh Hs; [by constructor|].
  cbn [length chars getc kbd_source kbdgetc codes shift fst snd].
  destruct (kbd_code_range d sh Hd Hs) as [H1 H2]. destruct (Z.ltb_spec (kbd_code d sh).1 0); [lia|].
  constructor; [lia|]. by apply IH.
Qed.

(** ** Reading *)

(** From [s] to [s'] only the input and the lock changed. *)
Record reads (l : list Z) (s s' : cst) : Prop := {
  re_ready : ready (inp s') = l;
  re_editing : editing (inp s') = editing (inp s);
  re_ok : input_ok (inp s');
  re_rest : ∃ b ip, s' = set_ip ip (set_input (inp s') (set_lock (T := ConsLock) b s)) }.

(** How the loop ends, from what the editor says. *)
Definition read_ends (killed : bool) (target n : Z) (d : list Z) (fin : bool) : cturn :=
  let left := n - Z.of_nat (length d) in
  if fin then CReturned (target - left) else if killed then CReturned (-1) else CSlept left.

Lemma s32_diff t n k : 0 <= k <= n → n <= t < 2^31 → s32 (t - (n - k)) = t - (n - k).
Proof. intros. apply s32_small. lia. Qed.

Lemma reads_refl s : input_ok (inp s) → reads (ready (inp s)) s s.
Proof. intros H. split; try done. exists (c_lock s), (ip_locked s). by destruct s. Qed.

Lemma set_input_id s : set_input (inp s) s = s.
Proof. by destruct s. Qed.

(** The end of the call, in a state that differs from [s] in the input. *)
Lemma finish_spec target left (dst : list Z) i s : c_lock s = true → input_ok i → editing i = editing (inp s) →
  0 <= left <= target → target < 2^31 → ∃ s',
  (release ConsLock ;;; ip_lock ;;; ret (CReturned (s32 (target - left)), dst)) (set_input i s) =
    Ret (CReturned (target - left), dst) s' ∧
  reads (ready i) s s' ∧ c_lock s' = false ∧ ip_locked s' = true.
Proof.
  intros Hl Hi He Hn Ht. unfold bind, release, ip_lock, modify, ret. cbn [lock_held cons_has_lock set_input c_lock]. rewrite Hl.
  rewrite s32_small by lia. eexists. split; [done|]. split; [|done]. split; try done. by exists false, true.
Qed.

(** Nothing to read. *)
Lemma empty_spec (killed : bool) n (dst : list Z) s : c_lock s = true → input_ok (inp s) → ∃ s',
  (release ConsLock ;;; if killed then ip_lock ;;; ret (CReturned (-1), dst) else ret (CSlept n, dst)) s =
    Ret (if killed then CReturned (-1) else CSlept n, dst) s' ∧
  reads (ready (inp s)) s s' ∧ c_lock s' = false ∧ ip_locked s' = (if killed then true else ip_locked s).
Proof.
  intros Hl Hi. unfold bind, release, ip_lock, modify, ret. cbn [lock_held cons_has_lock]. rewrite Hl.
  destruct killed; eexists; (split; [done|]); (split; [|done]); split; try done; by eexists false, _.
Qed.

Lemma reads_after l i s s' : reads l (set_input i s) s' → editing i = editing (inp s) → reads l s s'.
Proof. intros [R E O (b & ip & H)] Hi. split; try done; [by rewrite E|]. by exists b, ip. Qed.

Lemma cread_loop_spec fuel killed target : ∀ n dst s,
  input_ok (inp s) → c_lock s = true → 0 <= n <= target → target < 2^31 → (length (ready (inp s)) <= fuel)%nat →
  let '(d, l, fin) := line_read (Z.to_nat n) (n <? target) (ready (inp s)) in
  ∃ s', cread_loop fuel killed target n dst s = Ret (read_ends killed target n d fin, dst ++ d) s' ∧
    reads l s s' ∧ c_lock s' = false ∧ ip_locked s' = (if fin || killed then true else ip_locked s).
Proof.
  induction fuel as [|f IH]; intros n dst s Hi Hlk Hn Ht Hf; cbn [cread_loop].
  all: destruct (Z.leb_spec n 0) as [H0|H0].
  1,3: replace n with 0 by lia; change (Z.to_nat 0) with 0%nat; cbn [line_read];
    rewrite app_nil_r; unfold read_ends; cbn [length];
    destruct (finish_spec target 0 dst (inp s) s) as (s' & E & R); auto with lia; rewrite set_input_id in E; by exists s'.
  all: destruct (Z.to_nat n) as [|n'] eqn:En; [lia|]; unfold bind at 1, gets; rewrite ready_nil by done.
  all: destruct (decide (ready (inp s) = [])) as [Er|Er];
    [rewrite bool_decide_eq_true_2, Er by done; cbn [line_read]; rewrite app_nil_r; unfold read_ends; cbn [length orb];
     rewrite Z.sub_0_r, <- Er; by apply empty_spec|].
  { destruct (ready (inp s)); [done|]. cbn in Hf. lia. }
  rewrite bool_decide_eq_false_2 by done. destruct (pop_lines (inp s) Hi Er) as (Hr & He & Hp).
  rewrite Hr in Hf |- *. cbn [line_read]. fold (pop (inp s)). cbv zeta. set (c := in_at (inp s) (in_r (inp s))) in *.
  unfold bind at 1, modify at 1. destruct (c =? CTL_D).
  { rewrite app_nil_r. unfold read_ends. cbn [length orb]. rewrite Z.sub_0_r. unfold bind at 1.
    destruct (Z.ltb_spec n target); cbn [modify ret].
    - rewrite <- Hr. apply (finish_spec target n dst (inp s) s); auto with lia.
    - apply finish_spec; auto with lia. }
  destruct (c =? NEWLINE).
  { unfold read_ends. cbn [length orb]. change (Z.of_nat 1) with 1. apply finish_spec; auto with lia. }
  specialize (IH (n - 1) (dst ++ [c]) (set_input (pop (inp s)) s) Hp Hlk ltac:(lia) Ht ltac:(cbn in *; lia)).
  replace (Z.to_nat (n - 1)) with n' in IH by lia. rewrite (proj2 (Z.ltb_lt (n - 1) target)) in IH by lia.
  cbn [inp set_input] in IH. destruct (line_read n' true (ready (pop (inp s)))) as [[d l] fin].
  destruct IH as (s' & E & R & L & I). exists s'. rewrite E, <- app_assoc. split; [|split; [by eapply reads_after|done]].
  unfold read_ends. cbn [length app]. by replace (n - 1 - Z.of_nat (length d)) with (n - Z.of_nat (S (length d))) by lia.
Qed.

Lemma read_spec killed n s : console_idle s → 0 <= n < 2^31 →
  let '(d, l, fin) := line_read (Z.to_nat n) false (ready (inp s)) in
  ∃ s', consoleread killed n s = Ret (read_ends killed n n d fin, d) s' ∧ console_idle s' ∧
    lines_of (inp s') = (l, editing (inp s)) ∧ ip_locked s' = fin || killed ∧ serial s' = serial s ∧ crt s' = crt s.
Proof.
  intros [[C Hi] L] Hn. set (s1 := set_lock (T := ConsLock) true (set_ip false s)).
  pose proof (length_lines _ Hi) as Hlen.
  pose proof (cread_loop_spec 128 killed n n [] s1 Hi eq_refl ltac:(lia) ltac:(lia) ltac:(cbn; lia)) as H.
  rewrite Z.ltb_irrefl in H. change (inp s1) with (inp s) in H.
  destruct (line_read (Z.to_nat n) false (ready (inp s))) as [[d l] fin]. destruct H as (s' & E & [R D O (b & ip & Es)] & Lk & Ip).
  exists s'. split_and!.
  - unfold consoleread, ip_unlock, modify, bind, acquire. cbn [lock_held cons_has_lock set_ip c_lock]. rewrite L. exact E.
  - split; [|exact Lk]. split; [|exact O]. rewrite Es. exact C.
  - unfold lines_of. by rewrite R, D.
  - rewrite Ip. by destruct fin, killed.
  - by rewrite Es.
  - by rewrite Es.
Qed.

(** A read of the console takes from the ring what the abstract editor
    gives: at most [n] bytes, up to and including a newline, or up to an
    end-of-file character, which is left for the next read unless it is the
    first; without enough to finish, the call goes to sleep, or gives up if the
    process was killed. The line being typed and the output are not touched, and
    the lock of the console is free afterwards. *)
Theorem consoleread_refines killed n s : console_idle s → 0 <= n < 2^31 →
  ∃ s', let '(d, l, fin) := line_read (Z.to_nat n) false (ready (inp s)) in
    consoleread killed n s = Ret (read_ends killed n n d fin, d) s' ∧ console_idle s' ∧
    lines_of (inp s') = (l, editing (inp s)) ∧ ip_locked s' = fin || killed ∧ serial s' = serial s.
Proof.
  intros Hs Hn. pose proof (read_spec killed n s Hs Hn) as H.
  destruct (line_read _ _ _) as [[d l] fin]. destruct H as (s' & H1 & H2 & H3 & H4 & H5 & _). by exists s'.
Qed.

(** ** A line from the keyboard to a reader *)

Definition printable (c : Z) : Prop := 32 <= c < 127.

Lemma line_char_printable r l c : printable c → (length r + length l < 127)%nat →
  line_char (r, l) c = (r, l ++ [c]).
Proof.
  unfold printable. intros Hc Hl. unfold line_char. cbn [fst snd].
  unfold CTL_P, CTL_U, CTL_H, DEL, NEWLINE, CTL_D. rewrite !(proj2 (Z.eqb_neq c _)) by lia. cbn [orb].
  rewrite (proj2 (Nat.leb_gt _ _)), length_app by lia. rewrite (proj2 (Nat.eqb_neq _ _)) by (cbn; lia).
  unfold s8. rewrite u8_small by lia. by destruct (Z.ltb_spec c (2^7)); [|lia].
Qed.

Lemma line_char_plain r cs : ∀ l, Forall printable cs → (length r + length l + length cs < 128)%nat →
  foldl line_char (r, l) cs = (r, l ++ cs).
Proof.
  induction cs as [|c cs IH]; intros l Hc Hl; [by rewrite app_nil_r|].
  apply Forall_cons in Hc as [Hc Hcs]. cbn [foldl length] in *. rewrite line_char_printable by (done || lia).
  rewrite IH; [by rewrite <- app_assoc|done|]. rewrite length_app. cbn. lia.
Qed.

Lemma line_char_enter r l c : c = NEWLINE ∨ c = 13 → (length r + length l < 128)%nat →
  line_char (r, l) c = (r ++ l ++ [NEWLINE], []).
Proof.
  intros Hc Hl. unfold line_char. cbn [fst snd].
  destruct Hc as [-> | ->]; unfold CTL_P, CTL_U, CTL_H, DEL, NEWLINE, CTL_D; cbn [Z.eqb Pos.eqb orb];
    rewrite (proj2 (Nat.leb_gt _ _)) by lia; done.
Qed.

Lemma line_read_line cs n got r : Forall printable cs → (length cs < n)%nat →
  line_read n got (cs ++ NEWLINE :: r) = (cs ++ [NEWLINE], r, true).
Proof.
  intros Hc. revert n got. induction Hc as [|c cs Hc _ IH]; intros [|n] got Hn; cbn in Hn; try lia; [done|].
  cbn [app line_read]. unfold printable in Hc. unfold CTL_D, NEWLINE. rewrite !(proj2 (Z.eqb_neq c _)) by lia.
  fold NEWLINE. by rewrite IH by lia.
Qed.

(** Codes that are no characters leave the lines as they are. *)
Lemma line_chars_nonzero cs : ∀ a, foldl line_char a cs = foldl line_char a (List.filter (λ c, negb (c =? 0)) cs).
Proof.
  induction cs as [|c cs IH]; intros a; [done|]. cbn [foldl List.filter].
  destruct (Z.eqb_spec c 0) as [->|H0]; cbn [negb foldl]; by rewrite IH.
Qed.

Lemma bytes_nonzero cs : Forall (λ c, c < 256) (List.filter (λ c, negb (c =? 0)) cs) → Forall (λ c, c < 256) cs.
Proof.
  rewrite !List.Forall_forall. intros H c Hc. destruct (Z.eqb_spec c 0) as [->|H0]; [lia|].
  apply H, filter_In. split; [done|]. by apply negb_true_iff, Z.eqb_neq.
Qed.

(** C29. A line that is typed is the line that is read: from an idle console
    with nothing typed ahead, at most 126 printable characters followed by Enter,
    that come with any number of interrupts from the keyboard or the serial port,
    between any codes that are no characters (as releases of keys), wake the
    reader and are what a read with enough room returns, with the newline;
    nothing is left behind. *)
Theorem typed_line_is_read {G} `{!Source G} m ps (gs : list G) cs c s n killed :
  console_idle s → lines_of (inp s) = ([], []) →
  List.filter (λ c, negb (c =? 0)) (concat (map waiting gs)) = cs ++ [c] →
  Forall printable cs → c = NEWLINE ∨ c = 13 → (length cs < 127)%nat →
  Z.of_nat (length cs) < n < 2^31 →
  ∃ s1 s2, interrupts m ps gs s = Ret tt s1 ∧ ChInput ∈ drop (length (c_woken s)) (c_woken s1) ∧
    consoleread killed n s1 = Ret (CReturned (Z.of_nat (length cs) + 1), cs ++ [NEWLINE]) s2 ∧
    lines_of (inp s2) = ([], []) ∧ console_idle s2.
Proof.
  intros Hs Hl Hg Hcs Hc Hlen Hn.
  destruct (interrupts_spec m ps gs s Hs) as (s1 & E1 & I1 & L1 & k & K1 & R1).
  { apply bytes_nonzero. rewrite Hg. apply Forall_app. split; [eapply Forall_impl; [exact Hcs|]; unfold printable; lia|].
    constructor; [|done]. unfold NEWLINE in Hc. lia. }
  rewrite line_chars_nonzero, Hl, Hg, foldl_app, line_char_plain in L1 by (done || cbn; lia).
  cbn [foldl] in L1. rewrite line_char_enter in L1 by (done || cbn; lia). injection L1 as Hr He.
  pose proof (read_spec killed n s1 I1 ltac:(lia)) as H. cbn [app] in Hr. rewrite Hr, line_read_line in H by (done || lia).
  destruct H as (s2 & E2 & I2 & L2 & _). exists s1, s2. rewrite E2, K1, drop_app_length. split_and!; try done.
  - apply R1. rewrite Hr. injection Hl as -> _. by destruct cs.
  - f_equal. f_equal. unfold read_ends. f_equal. rewrite length_app. cbn. lia.
  - by rewrite L2, He.
Qed.

(** ** Examples *)

Lemma fresh_idle : console_idle fresh.
Proof.
  split; [|done]. split; [exact fresh_can_write|]. split; try done. apply not_elem_of_nil.
Qed.

Definition some_mem : mem := λ _, 0.

(** Typing "ab", erasing the "b", and Enter, on the keyboard. *)
Definition keys : kbd := Kbd 0 [0x1E; 0x9E; 0x30; 0xB0; 0x0E; 0x8E; 0x1C; 0x9C].

Lemma keys_waiting : waiting keys = [97; 0; 98; 0; 8; 0; 10; 0].
Proof. by vm_compute. Qed.

Lemma consoleintr_refines_witness : ∃ s' g',
  consoleintr some_mem [] keys fresh = Ret g' s' ∧ lines_of (inp s') = ([97; 10], []) ∧
  sent (serial s') = [97; 98; 8; 32; 8; 10].
Proof.
  destruct (consoleintr_refines some_mem [] keys fresh) as (s' & g' & o & E & _ & _ & L & P & S & _).
  - exact fresh_idle.
  - rewrite keys_waiting. by repeat constructor.
  - exists s', g'. split; [exact E|]. rewrite keys_waiting in L, P, S. split; [exact L|].
    rewrite S, P by (apply (bool_decide_unpack _); by vm_compute). by vm_compute.
Defined.

(** Two lines and an end of file to read. *)
Definition with_lines : cst := set_input (Input ([97; 10; 98; 4] ++ replicate 124 0) 0 4 4) fresh.

Lemma with_lines_idle : console_idle with_lines.
Proof.
  split; [|done]. split; [exact fresh_can_write|]. split; try done. apply not_elem_of_nil.
Qed.

Lemma consoleread_refines_witness : ∃ s',
  consoleread false 100 with_lines = Ret (CReturned 2, [97; 10]) s' ∧ lines_of (inp s') = ([98; 4], []).
Proof.
  destruct (consoleread_refines false 100 with_lines) as (s' & H); [exact with_lines_idle|lia|].
  exists s'. vm_compute (line_read _ _ _) in H. destruct H as (E & _ & L & _). split; [exact E|exact L].
Defined.

(** Shift and H, released, then i and Enter, each code with an interrupt of
    its own but the last two. *)
Definition key_presses : list kbd :=
  [Kbd 0 [0x2A]; Kbd 1 [0x23]; Kbd 1 [0xA3]; Kbd 1 [0xAA]; Kbd 0 [0x17]; Kbd 0 [0x97]; Kbd 0 [0x1C; 0x9C]].

Lemma typed_line_is_read_witness : ∃ s1 s2,
  interrupts some_mem [] key_presses fresh = Ret tt s1 ∧
  consoleread false 100 s1 = Ret (CReturned 3, [72; 105; 10]) s2.
Proof.
  destruct (typed_line_is_read some_mem [] key_presses [72; 105] 10 fresh 100 false) as (s1 & s2 & E1 & _ & E2 & _).
  - exact fresh_idle.
  - reflexivity.
  - reflexivity.
  - by repeat constructor.
  - by left.
  - cbn. lia.
  - cbn. lia.
  - exists s1, s2. split; [exact E1|exact E2].
Defined.
