(* ===== verification/Mailbox.v ===== *)
(** * Message queues and barriers (a2/sysproc.c)

    The kernel side of the second assignment: one array of message buffers with
    a queue of buffer numbers per process, and a barrier. A call that has to
    wait runs in turns, as in Pipe. Process ids index the arrays, so an id
    outside them is an access that C leaves undefined. *)

From S2P Require Import Prelude Memory Spinlock Ring.

Definition num_message_buffers : nat := 1000.
Definition message_size : nat := 8.
Definition max_queue_elements : Z := 500.
Definition NPROC : Z := 64.

(** [kernel_buffers], its two locks, and the wake-ups issued. *)
Record kern := Kern {
  k_lock : bool;
  m_lock : bool;
  buffers : list (list Z);
  from_pids : list Z;
  to_pids : list Z;
  queue : list (list Z);
  head : list Z;
  tail : list Z;
  wait_queue : list Z;
  k_woken : list chan }.

Inductive KernLock : Set := .
Inductive MsgLock : Set := .

#[export] Instance kern_has_lock : HasLock KernLock kern.
Proof.
  refine {| lock_held := k_lock;
            set_lock b k := Kern b (m_lock k) (buffers k) (from_pids k) (to_pids k) (queue k) (head k) (tail k) (wait_queue k) (k_woken k) |};
    by intros; destruct s.
Defined.

#[export] Instance msg_has_lock : HasLock MsgLock kern.
Proof.
  refine {| lock_held := m_lock;
            set_lock b k := Kern (k_lock k) b (buffers k) (from_pids k) (to_pids k) (queue k) (head k) (tail k) (wait_queue k) (k_woken k) |};
    by intros; destruct s.
Defined.

Definition set_buffers (v : list (list Z)) (k : kern) : kern :=
  Kern (k_lock k) (m_lock k) v (from_pids k) (to_pids k) (queue k) (head k) (tail k) (wait_queue k) (k_woken k).
Definition set_from (v : list Z) (k : kern) : kern :=
  Kern (k_lock k) (m_lock k) (buffers k) v (to_pids k) (queue k) (head k) (tail k) (wait_queue k) (k_woken k).
Definition set_to (v : list Z) (k : kern) : kern :=
  Kern (k_lock k) (m_lock k) (buffers k) (from_pids k) v (queue k) (head k) (tail k) (wait_queue k) (k_woken k).
Definition set_queue (v : list (list Z)) (k : kern) : kern :=
  Kern (k_lock k) (m_lock k) (buffers k) (from_pids k) (to_pids k) v (head k) (tail k) (wait_queue k) (k_woken k).
Definition set_head (v : list Z) (k : kern) : kern :=
  Kern (k_lock k) (m_lock k) (buffers k) (from_pids k) (to_pids k) (queue k) v (tail k) (wait_queue k) (k_woken k).
Definition set_tail (v : list Z) (k : kern) : kern :=
  Kern (k_lock k) (m_lock k) (buffers k) (from_pids k) (to_pids k) (queue k) (head k) v (wait_queue k) (k_woken k).
Definition set_wait (v : list Z) (k : kern) : kern :=
  Kern (k_lock k) (m_lock k) (buffers k) (from_pids k) (to_pids k) (queue k) (head k) (tail k) v (k_woken k).

Definition wakeup (ch : chan) : M kern unit := modify (λ k,
  Kern (k_lock k) (m_lock k) (buffers k) (from_pids k) (to_pids k) (queue k) (head k) (tail k) (wait_queue k) (k_woken k ++ [ch])).

(** The place of a process id in the arrays. *)
Definition at_pid (pid : Z) : M kern nat :=
  if (pid <? 0) || (NPROC <=? pid) then fault "pid" else ret (Z.to_nat pid).

Definition kern_init : kern :=
  Kern false false (replicate num_message_buffers (replicate message_size 0)) (replicate num_message_buffers 0)
    (replicate num_message_buffers 0) (replicate (Z.to_nat NPROC) (replicate (Z.to_nat max_queue_elements) 0))
    (replicate (Z.to_nat NPROC) 0) (replicate (Z.to_nat NPROC) 0) (replicate (Z.to_nat NPROC) 0) [].

Definition enque (pid index : Z) : M kern unit :=
  p <- at_pid pid ;;
  modify (λ k, set_queue (<[p := <[Z.to_nat (tail k !!! p) := index]> (queue k !!! p)]> (queue k)) k) ;;;
  modify (λ k, set_tail (<[p := (tail k !!! p + 1) mod max_queue_elements]> (tail k)) k).

Definition deque (pid : Z) : M kern Z :=
  p <- at_pid pid ;;
  k <- gets id ;;
  if head k !!! p =? tail k !!! p then ret (-1)
  else
    let result := (queue k !!! p) !!! Z.to_nat (head k !!! p) in
    modify (set_head (<[p := (head k !!! p + 1) mod max_queue_elements]> (head k))) ;;;
    ret result.

(** The first buffer whose receiver is not a process. *)
Fixpoint first_free (l : list Z) : option nat :=
  match l with
  | [] => None
  | t :: l => if t <=? 0 then Some 0%nat else S <$> first_free l
  end.

(** [sys_send] of the eight bytes at [ch]; the results of fetching the arguments
    are not checked, so this is the call with arguments that can be fetched. *)
Definition sys_send (sender_pid rec_pid : Z) (ch : list Z) : M kern Z :=
  acquire KernLock ;;;
  acquire MsgLock ;;;
  t <- gets to_pids ;;
  match first_free t with
  | Some i =>
      modify (λ k, set_buffers (<[i := ch]> (buffers k)) k) ;;;
      modify (λ k, set_from (<[i := sender_pid]> (from_pids k)) k) ;;;
      modify (λ k, set_to (<[i := rec_pid]> (to_pids k)) k) ;;;
      enque rec_pid (Z.of_nat i) ;;;
      p <- at_pid rec_pid ;;
      w <- gets wait_queue ;;
      (when w !!! p =? 1 do
         (modify (set_wait (<[p := 0]> w)) ;;;
          wakeup (ChPid rec_pid))) ;;;
      release MsgLock ;;;
      release KernLock ;;;
      ret 0
  | None =>
      release KernLock ;;;
      release MsgLock ;;;
      ret (-1)
  end.

(** How a turn of [sys_recv] ends: with the message copied to [ch], or asleep on
    the own id, after which the loop starts again. *)
Inductive mturn := Received (ch : list Z) | Waiting.

Definition sys_recv (me : Z) : M kern mturn :=
  acquire KernLock ;;;
  acquire MsgLock ;;;
  val <- deque me ;;
  if negb (val =? -1) then
    b <- gets buffers ;;
    let ch := b !!! Z.to_nat val in
    modify (λ k, set_to (<[Z.to_nat val := -1]> (to_pids k)) k) ;;;
    modify (set_buffers (<[Z.to_nat val := <[0%nat := 32]> ch]> b)) ;;;
    release KernLock ;;;
    release MsgLock ;;;
    ret (Received ch)
  else
    release MsgLock ;;;
    p <- at_pid me ;;
    modify (λ k, set_wait (<[p := 1]> (wait_queue k)) k) ;;;
    release KernLock ;;;
    ret Waiting.

(** ** The barrier *)

Record bar := Bar { b_lock : bool; num_procs : Z; arrived : Z; pids : list Z; b_woken : list chan }.

Inductive BarLock : Set := .

#[export] Instance bar_has_lock : HasLock BarLock bar.
Proof.
  refine {| lock_held := b_lock; set_lock l b := Bar l (num_procs b) (arrived b) (pids b) (b_woken b) |};
    by intros; destruct s.
Defined.

Definition bar_init : bar := Bar false 0 0 (replicate (Z.to_nat NPROC) 0) [].

(** [sys_barrier_init], with its argument. *)
Definition sys_barrier_init (procs : Z) : M bar Z :=
  acquire BarLock ;;;
  modify (λ b, Bar (b_lock b) procs 0 (pids b) (b_woken b)) ;;;
  release BarLock ;;;
  ret 0.

(** Whether the caller passes or goes to sleep on its id; a sleeper returns as
    soon as it is woken. *)
Inductive bturn := Passed | Asleep.

(** [for(i < n) wakeup(bar.pids[i])], which leaves the array for [n] above
    [NPROC]. *)
Definition wake_all (n : Z) : M bar unit := λ b,
  if NPROC <? n then Fault "pids"
  else Ret tt (Bar (b_lock b) (num_procs b) (arrived b) (pids b) (b_woken b ++ map ChPid (take (Z.to_nat n) (pids b)))).

Definition sys_barrier (me : Z) : M bar bturn :=
  acquire BarLock ;;;
  modify (λ b, Bar (b_lock b) (num_procs b) (arrived b + 1) (pids b) (b_woken b)) ;;;
  b <- gets id ;;
  if arrived b <? num_procs b then
    (if NPROC <=? arrived b - 1 then fault "pids"
     else modify (λ b, Bar (b_lock b) (num_procs b) (arrived b) (<[Z.to_nat (arrived b - 1) := me]> (pids b)) (b_woken b))) ;;;
    release BarLock ;;;
    ret Asleep
  else
    modify (λ b, Bar (b_lock b) (num_procs b) 0 (pids b) (b_woken b)) ;;;
    wake_all (num_procs b) ;;;
    release BarLock ;;;
    ret Passed.
