(* ===== verification/MailboxProps.v ===== *)
(** * The message queues are queues

    The invariant of the buffers and their queues, and what [sys_send] and
    [sys_recv] do to the messages waiting for each process. *)

From S2P Require Import Prelude Memory Spinlock Ring Mailbox.

Abbreviation QN := max_queue_elements.

Definition qidx (k : kern) (p : nat) : list Z := qitems QN (queue k !!! p) (head k !!! p) (tail k !!! p).

(** The messages waiting for a process, the oldest first. *)
Definition box (k : kern) (p : nat) : list (list Z) := map (λ i, buffers k !!! Z.to_nat i) (qidx k p).

(** All messages. *)
Definition total (k : kern) : nat := length (concat (map (qidx k) (seq 0 64))).

Record kern_wf (k : kern) : Prop := {
  kw_buffers : length (buffers k) = 1000%nat;
  kw_to : length (to_pids k) = 1000%nat;
  kw_queue : length (queue k) = 64%nat;
  kw_rows : ∀ p, (p < 64)%nat → length (queue k !!! p) = 500%nat;
  kw_head : length (head k) = 64%nat;
  kw_tail : length (tail k) = 64%nat;
  kw_wait : length (wait_queue k) = 64%nat;
  kw_range : ∀ p, (p < 64)%nat → 0 <= head k !!! p < QN ∧ 0 <= tail k !!! p < QN;
  kw_idx : ∀ p i, (p < 64)%nat → i ∈ qidx k p → 0 <= i < 1000 ∧ to_pids k !!! Z.to_nat i = Z.of_nat p ∧ (0 < p)%nat;
  kw_nodup : ∀ p, (p < 64)%nat → NoDup (qidx k p);
  kw_used : ∀ i, (i < 1000)%nat → 0 < to_pids k !!! i →
    ∃ p, (p < 64)%nat ∧ Z.of_nat i ∈ qidx k p;
  kw_unlocked : k_lock k = false ∧ m_lock k = false }.

(** ** Free buffers *)

Lemma first_free_some l i : first_free l = Some i → (i < length l)%nat ∧ l !!! i <= 0.
Proof.
  revert i. induction l as [|t l IH]; intros i H; cbn in H; [done|]. destruct (Z.leb_spec t 0).
  - injection H as <-. cbn. split; [lia|done].
  - destruct (first_free l) as [j|]; [|done]. injection H as <-. destruct (IH j eq_refl). cbn. split; [lia|done].
Qed.

Lemma first_free_none l : first_free l = None → ∀ i, (i < length l)%nat → 0 < l !!! i.
Proof.
  induction l as [|t l IH]; intros H i Hi; cbn in *; [lia|]. destruct (Z.leb_spec t 0); [done|].
  destruct (first_free l); [done|]. destruct i; [done|]. apply IH; [done|lia].
Qed.

Lemma elem_of_queues k i : i ∈ concat (map (qidx k) (seq 0 64)) ↔ ∃ p, (p < 64)%nat ∧ i ∈ qidx k p.
Proof.
  rewrite list_elem_of_In, in_concat. split.
  - intros (l & Hl & Hi). apply in_map_iff in Hl as (p & <- & Hp). apply in_seq in Hp.
    exists p. split; [lia|by apply list_elem_of_In].
  - intros (p & Hp & Hi). exists (qidx k p). split; [|by apply list_elem_of_In]. apply in_map, in_seq. lia.
Qed.

(** A buffer is free as long as fewer than a thousand messages wait. *)
Lemma room_free k : kern_wf k → (total k < 1000)%nat → ∃ i, first_free (to_pids k) = Some i ∧ (i < 1000)%nat.
Proof.
  intros W Ht. destruct (first_free (to_pids k)) as [i|] eqn:E.
  { exists i. split; [done|]. apply first_free_some in E as [H _]. by rewrite (kw_to _ W) in H. }
  exfalso. pose proof (first_free_none _ E) as Hall. rewrite (kw_to _ W) in Hall.
  assert (Hsub : map Z.of_nat (seq 0 1000) ⊆+ concat (map (qidx k) (seq 0 64))).
  { apply NoDup_submseteq.
    - apply NoDup_fmap_2; [apply _|apply NoDup_seq].
    - intros z Hz. apply elem_of_queues. apply list_elem_of_In, in_map_iff in Hz as (i & <- & Hi).
      apply in_seq in Hi. apply (kw_used _ W); [lia|]. apply Hall. lia. }
  apply submseteq_length in Hsub. rewrite length_map, length_seq in Hsub. unfold total in Ht. lia.
Qed.

(** ** Sending *)

(** Compute fields of the state. *)
Ltac kfields :=
  cbn [k_lock m_lock buffers from_pids to_pids queue head tail wait_queue k_woken set_buffers set_from set_to
       set_queue set_head set_tail set_wait lock_held set_lock kern_has_lock msg_has_lock].

Lemma at_pid_ok pid k : 0 <= pid < 64 → at_pid pid k = Ret (Z.to_nat pid) k.
Proof.
  intros H. unfold at_pid, NPROC. rewrite (proj2 (Z.ltb_ge _ _)), (proj2 (Z.leb_gt _ _)) by lia. done.
Qed.

(** The state with message [ch] in buffer [i], queued for [p]. *)
Definition posted (s : Z) (p : nat) (i : nat) (ch : list Z) (w : list Z) (ws : list chan) (k : kern) : kern :=
  Kern false false (<[i := ch]> (buffers k)) (<[i := s]> (from_pids k)) (<[i := Z.of_nat p]> (to_pids k))
    (<[p := <[Z.to_nat (tail k !!! p) := Z.of_nat i]> (queue k !!! p)]> (queue k)) (head k)
    (<[p := (tail k !!! p + 1) mod QN]> (tail k)) w ws.

Lemma send_runs s rec ch k i : kern_wf k → 0 <= rec < 64 → first_free (to_pids k) = Some i →
  sys_send s rec ch k = Ret 0 (posted s (Z.to_nat rec) i ch
    (if wait_queue k !!! Z.to_nat rec =? 1 then <[Z.to_nat rec := 0]> (wait_queue k) else wait_queue k)
    (if wait_queue k !!! Z.to_nat rec =? 1 then k_woken k ++ [ChPid rec] else k_woken k) k).
Proof.
  intros W Hr Hi. destruct (kw_unlocked _ W) as [L1 L2]. destruct k as [kl ml b f t q h tl w wk]. cbn [k_lock m_lock] in *. subst kl ml.
  unfold sys_send, acquire, release, enque, wakeup, bind, gets, modify. kfields.
  cbn [to_pids] in Hi. rewrite Hi, at_pid_ok by lia. kfields. rewrite at_pid_ok by lia. kfields.
  unfold posted. rewrite Z2Nat.id by lia. kfields.
  destruct (w !!! Z.to_nat rec =? 1); reflexivity.
Qed.

Lemma qidx_posted s p i ch w ws k q : kern_wf k → (p < 64)%nat → (length (box k p) < 499)%nat →
  qidx (posted s p i ch w ws k) q = if decide (q = p) then qidx k p ++ [Z.of_nat i] else qidx k q.
Proof.
  intros W Hp Hlen. unfold qidx. cbn [posted queue head tail]. case_decide as E.
  - subst q. rewrite !list_lookup_total_insert_eq by (rewrite ?(kw_queue _ W), ?(kw_tail _ W); lia).
    destruct (kw_range _ W p Hp). apply qitems_put; [done|by rewrite (kw_rows _ W)|done|].
    unfold box in Hlen. rewrite length_map in Hlen. pose proof (length_qitems QN eq_refl (queue k !!! p) (head k !!! p) (tail k !!! p)) as Hl.
    fold (qidx k p) in Hl. unfold max_queue_elements in *. lia.
  - by rewrite !list_lookup_total_insert_ne by done.
Qed.

(** The buffer taken is in no queue. *)
Lemma free_unqueued k i : kern_wf k → first_free (to_pids k) = Some i →
  ∀ p j, (p < 64)%nat → j ∈ qidx k p → Z.to_nat j ≠ i.
Proof.
  intros W Hi p j Hp Hj E. destruct (kw_idx _ W p j Hp Hj) as (_ & Ht & H0).
  apply first_free_some in Hi as [_ Hi]. rewrite E in Ht. lia.
Qed.

Lemma posted_wf s p i ch w ws k : kern_wf k → (0 < p < 64)%nat → (length (box k p) < 499)%nat →
  first_free (to_pids k) = Some i → length w = 64%nat → kern_wf (posted s p i ch w ws k).
Proof.
  intros W Hp Hlen Hi Hw. pose proof (free_unqueued k i W Hi) as Hun.
  pose proof (first_free_some _ _ Hi) as [Hi1 Hi2]. rewrite (kw_to _ W) in Hi1.
  pose proof (λ q, qidx_posted s p i ch w ws k q W ltac:(lia) Hlen) as Hq.
  split; cbn [posted buffers to_pids queue head tail wait_queue k_lock m_lock]; rewrite ?length_insert; try apply W; try done.
  - intros q Hq'. destruct (decide (q = p)) as [->|Hne].
    + rewrite list_lookup_total_insert_eq by (rewrite (kw_queue _ W); lia). rewrite length_insert. by apply W.
    + rewrite list_lookup_total_insert_ne by done. by apply W.
  - intros q Hq'. destruct (kw_range _ W q Hq') as [R1 R2]. split; [done|]. destruct (decide (q = p)) as [->|Hne].
    + rewrite list_lookup_total_insert_eq by (rewrite (kw_tail _ W); lia). by apply Z.mod_pos_bound.
    + by rewrite list_lookup_total_insert_ne.
  - intros q j Hq' Hj. rewrite Hq in Hj.
    assert (j ∈ qidx k q ∨ q = p ∧ j = Z.of_nat i) as [Hj'|[-> ->]].
    { case_decide; [|by left]. subst q. apply elem_of_app in Hj as [Hj|Hj%list_elem_of_singleton]; auto. }
    + destruct (kw_idx _ W q j Hq' Hj') as (H1 & H2 & H3).
      rewrite list_lookup_total_insert_ne by (apply not_eq_sym, (Hun q j); done). done.
    + rewrite Nat2Z.id, list_lookup_total_insert_eq by (rewrite (kw_to _ W); lia). lia.
  - intros q Hq'. rewrite Hq. case_decide; [subst q|by apply W]. apply NoDup_app. split; [by apply W|].
    split; [|apply NoDup_singleton]. intros j Hj Hj'%list_elem_of_singleton. subst j. apply (Hun p (Z.of_nat i)); [lia|done|lia].
  - intros j Hj Ht. destruct (decide (j = i)) as [->|Hne].
    + exists p. split; [lia|]. rewrite Hq. rewrite decide_True by done. apply elem_of_app. right. by apply list_elem_of_singleton.
    + rewrite list_lookup_total_insert_ne in Ht by done. destruct (kw_used _ W j Hj Ht) as (q & Hq' & Hin).
      exists q. split; [done|]. rewrite Hq. case_decide; [subst q; apply elem_of_app; by left|done].
Qed.

Lemma box_posted s p i ch w ws k q : kern_wf k → (p < 64)%nat → (length (box k p) < 499)%nat →
  first_free (to_pids k) = Some i → (q < 64)%nat →
  box (posted s p i ch w ws k) q = if decide (q = p) then box k p ++ [ch] else box k q.
Proof.
  intros W Hp Hlen Hi Hq. unfold box. rewrite qidx_posted by done. cbn [posted buffers].
  pose proof (first_free_some _ _ Hi) as [Hi1 _]. rewrite (kw_to _ W) in Hi1.
  assert (Hsame : ∀ r, (r < 64)%nat → map (λ j, <[i := ch]> (buffers k) !!! Z.to_nat j) (qidx k r) = box k r).
  { intros r Hr. apply map_ext_in. intros j Hj%list_elem_of_In. apply list_lookup_total_insert_ne.
    apply not_eq_sym. by apply (free_unqueued k i W Hi r). }
  case_decide; [subst q|by apply Hsame]. rewrite map_app, Hsame by done. f_equal. cbn.
  by rewrite Nat2Z.id, list_lookup_total_insert_eq by (rewrite (kw_buffers _ W); lia).
Qed.

(** [sys_send] to a process with room adds the message at the end of its queue
    and wakes it if it waits. *)
Lemma send_spec s rec ch k : kern_wf k → 0 < rec < 64 → (length (box k (Z.to_nat rec)) < 499)%nat → (total k < 1000)%nat →
  ∃ k', sys_send s rec ch k = Ret 0 k' ∧ kern_wf k' ∧
    (∀ q, (q < 64)%nat → box k' q = if decide (q = Z.to_nat rec) then box k q ++ [ch] else box k q) ∧
    if wait_queue k !!! Z.to_nat rec =? 1
    then wait_queue k' = <[Z.to_nat rec := 0]> (wait_queue k) ∧ k_woken k' = k_woken k ++ [ChPid rec]
    else wait_queue k' = wait_queue k ∧ k_woken k' = k_woken k.
Proof.
  intros W Hr Hlen Ht. destruct (room_free k W Ht) as (i & Hi & _).
  rewrite (send_runs s rec ch k i) by (done || lia). eexists. split; [done|]. split_and!.
  - apply posted_wf; try done; [lia|]. destruct (_ =? 1); rewrite ?length_insert; apply W.
  - intros q Hq. rewrite (box_posted _ _ i) by (done || lia). case_decide; [by subst q|done].
  - cbn [posted wait_queue k_woken]. by destruct (_ =? 1).
Qed.

(** ** Receiving *)

(** The state with the oldest message of [p], in buffer [i], taken. *)
Definition taken (p : nat) (i : nat) (k : kern) : kern :=
  Kern false false (<[i := <[0%nat := 32]> (buffers k !!! i)]> (buffers k)) (from_pids k) (<[i := -1]> (to_pids k))
    (queue k) (<[p := (head k !!! p + 1) mod QN]> (head k)) (tail k) (wait_queue k) (k_woken k).

Lemma head_is_tail k p : kern_wf k → (p < 64)%nat → (head k !!! p =? tail k !!! p) = bool_decide (qidx k p = []).
Proof.
  intros W Hp. destruct (kw_range _ W p Hp). apply Bool.eq_iff_eq_true. rewrite Z.eqb_eq, bool_decide_eq_true.
  symmetry. by apply qitems_nil.
Qed.

Lemma recv_runs me k : kern_wf k → 0 <= me < 64 →
  match qidx k (Z.to_nat me) with
  | [] => sys_recv me k = Ret Waiting (set_wait (<[Z.to_nat me := 1]> (wait_queue k)) k)
  | i :: _ => sys_recv me k = Ret (Received (buffers k !!! Z.to_nat i)) (taken (Z.to_nat me) (Z.to_nat i) k)
  end.
Proof.
  intros W Hm. destruct (kw_unlocked _ W) as [L1 L2]. pose proof (head_is_tail k (Z.to_nat me) W ltac:(lia)) as Hht.
  destruct (kw_range _ W (Z.to_nat me) ltac:(lia)) as [R1 R2].
  destruct (qidx k (Z.to_nat me)) as [|i l] eqn:Eq.
  - rewrite bool_decide_eq_true_2 in Hht by done. destruct k as [kl ml b f t q h tl w wk]. cbn [k_lock m_lock] in *. subst kl ml.
    unfold sys_recv, deque, acquire, release, bind, gets, modify. kfields. rewrite at_pid_ok by lia. cbn [id]. kfields.
    cbn [head tail] in Hht. rewrite Hht. cbn [ret]. change (-1 =? -1) with true. cbn [negb]. kfields. rewrite at_pid_ok by lia. kfields. reflexivity.
  - assert (Ei : i = (queue k !!! Z.to_nat me) !!! Z.to_nat (head k !!! Z.to_nat me)).
    { unfold qidx in Eq. rewrite qitems_get in Eq; [by injection Eq|done..|].
      intros E. rewrite E, Z.eqb_refl in Hht. symmetry in Hht. by apply bool_decide_eq_true in Hht. }
    destruct (kw_idx _ W (Z.to_nat me) i ltac:(lia)) as (Hi & _); [rewrite Eq; by left|].
    rewrite bool_decide_eq_false_2 in Hht by done. destruct k as [kl ml b f t q h tl w wk]. cbn [k_lock m_lock] in *. subst kl ml.
    unfold sys_recv, deque, acquire, release, bind, gets, modify. kfields. rewrite at_pid_ok by lia. cbn [id]. kfields.
    cbn [head tail queue] in Hht, Ei. rewrite Hht, <- Ei. cbn [ret]. rewrite (proj2 (Z.eqb_neq i (-1))) by lia. reflexivity.
Qed.

Lemma qidx_taken p i k q : kern_wf k → (p < 64)%nat → head k !!! p ≠ tail k !!! p →
  qidx (taken p i k) q = if decide (q = p) then drop 1 (qidx k p) else qidx k q.
Proof.
  intros W Hp Hne. unfold qidx. cbn [taken queue head tail]. case_decide as E.
  - subst q. rewrite list_lookup_total_insert_eq by (rewrite (kw_head _ W); lia).
    destruct (kw_range _ W p Hp). by rewrite (qitems_get QN eq_refl (queue k !!! p) (head k !!! p)).
  - by rewrite list_lookup_total_insert_ne by done.
Qed.

(** The buffer of the oldest message is in no queue afterwards. *)
Lemma taken_unqueued p i k l q j : kern_wf k → (p < 64)%nat → qidx k p = i :: l → (q < 64)%nat →
  j ∈ (if decide (q = p) then l else qidx k q) → Z.to_nat j ≠ Z.to_nat i.
Proof.
  intros W Hp El Hq Hj E. assert (Hin : i ∈ qidx k p) by (rewrite El; by left).
  destruct (kw_idx _ W p i Hp Hin) as (Ri & Ti & _). pose proof (kw_nodup _ W p Hp) as Hnd. rewrite El in Hnd.
  apply NoDup_cons in Hnd as [Hni _]. case_decide as Eq.
  - assert (Hj' : j ∈ qidx k p) by (rewrite El; by right). destruct (kw_idx _ W p j Hp Hj') as (Rj & _).
    assert (j = i) by lia. congruence.
  - destruct (kw_idx _ W q j Hq Hj) as (Rj & Tj & _). rewrite E, Ti in Tj. lia.
Qed.

Lemma taken_wf p i k l : kern_wf k → (p < 64)%nat → qidx k p = i :: l → kern_wf (taken p (Z.to_nat i) k).
Proof.
  intros W Hp El. assert (Hne : head k !!! p ≠ tail k !!! p).
  { intros E. pose proof (head_is_tail k p W Hp) as H. rewrite E, Z.eqb_refl, El in H. done. }
  pose proof (λ q, qidx_taken p (Z.to_nat i) k q W Hp Hne) as Hq. rewrite El in Hq. cbn [drop] in Hq.
  pose proof (λ q j, taken_unqueued p i k l q j W Hp El) as Hun.
  assert (Hsub : ∀ q j, j ∈ (if decide (q = p) then l else qidx k q) → j ∈ qidx k q).
  { intros q j. case_decide; [|done]. subst q. rewrite El. by right. }
  split; cbn [taken buffers to_pids queue head tail wait_queue k_lock m_lock]; rewrite ?length_insert; try apply W; try done.
  - intros q Hq'. destruct (kw_range _ W q Hq') as [R1 R2]. split; [|done]. destruct (decide (q = p)) as [->|?].
    + rewrite list_lookup_total_insert_eq by (rewrite (kw_head _ W); lia). by apply Z.mod_pos_bound.
    + by rewrite list_lookup_total_insert_ne.
  - intros q j Hq' Hj. rewrite Hq in Hj. pose proof (Hun q j Hq' Hj) as Hd. apply Hsub in Hj.
    rewrite list_lookup_total_insert_ne by done. by apply W.
  - intros q Hq'. rewrite Hq. case_decide; [subst q|by apply W]. pose proof (kw_nodup _ W p Hp) as Hnd. rewrite El in Hnd.
    by apply NoDup_cons in Hnd as [_ Hnd].
  - intros j Hj Ht. destruct (decide (j = Z.to_nat i)) as [->|Hd].
    { rewrite list_lookup_total_insert_eq in Ht by (rewrite (kw_to _ W); lia). lia. }
    rewrite list_lookup_total_insert_ne in Ht by done. destruct (kw_used _ W j Hj Ht) as (q & Hq' & Hin).
    exists q. split; [done|]. rewrite Hq. case_decide; [subst q|done]. rewrite El in Hin.
    apply elem_of_cons in Hin as [E|Hin]; [lia|done].
Qed.

(** [sys_recv] takes the oldest message of the caller, or notes that it waits. *)
Lemma recv_spec me k : kern_wf k → 0 <= me < 64 →
  match box k (Z.to_nat me) with
  | [] => ∃ k', sys_recv me k = Ret Waiting k' ∧ kern_wf k' ∧ (∀ q, box k' q = box k q) ∧
      wait_queue k' = <[Z.to_nat me := 1]> (wait_queue k) ∧ k_woken k' = k_woken k
  | ch :: rest => ∃ k', sys_recv me k = Ret (Received ch) k' ∧ kern_wf k' ∧
      (∀ q, (q < 64)%nat → box k' q = if decide (q = Z.to_nat me) then rest else box k q) ∧
      wait_queue k' = wait_queue k ∧ k_woken k' = k_woken k
  end.
Proof.
  intros W Hm. pose proof (recv_runs me k W Hm) as E. unfold box at 1. destruct (qidx k (Z.to_nat me)) as [|i l] eqn:Eq; cbn [map].
  - eexists. split; [exact E|]. split_and!; try done. destruct W. split; try done. cbn. by rewrite length_insert.
  - eexists. split; [exact E|]. split; [by eapply taken_wf; [|lia|]|]. split; [|done]. intros q Hq. unfold box.
    assert (Hne : head k !!! Z.to_nat me ≠ tail k !!! Z.to_nat me).
    { intros E'. pose proof (head_is_tail k (Z.to_nat me) W ltac:(lia)) as H. rewrite E', Z.eqb_refl, Eq in H. done. }
    rewrite qidx_taken, Eq by (done || lia). cbn [drop taken buffers].
    assert (Hs : ∀ j, j ∈ (if decide (q = Z.to_nat me) then l else qidx k q) →
      <[Z.to_nat i := <[0%nat := 32]> (buffers k !!! Z.to_nat i)]> (buffers k) !!! Z.to_nat j = buffers k !!! Z.to_nat j).
    { intros j Hj. apply list_lookup_total_insert_ne, not_eq_sym. eapply (taken_unqueued (Z.to_nat me)); try done; lia. }
    case_decide; apply map_ext_in; intros j Hj%list_elem_of_In; by apply Hs.
Qed.
