(* ===== verification/MsgSystem.v ===== *)
(** * Processes that exchange messages (a2/sysproc.c)

    Any programs that send, receive and meet at barriers, on the kernel of
    Mailbox: the interleaving of their system calls, with sleeping and waking,
    against a specification in which every process has a queue of messages and
    a barrier lets all processes through at once. *)

From S2P Require Import Prelude Memory Spinlock Ring Mailbox MailboxProps.

(** The next system call of a program. *)
Inductive call := CSend (to : Z) (msg : list Z) | CRecv | CBarrier | CStop.

Section Client.
(** A program: its state, its next call, and its state after the call, given the
    message received. *)
Context {L : Type} (op : L → call) (resume : L → list Z → L).

(** ** The specification *)

(** The messages waiting for each id, and the processes with their ids. *)
Record asys := ASys { boxes : list (list (list Z)); locals : list (Z * L) }.

Inductive astep (a : asys) : asys → Prop :=
  | A_send i p l to msg :
      locals a !! i = Some (p, l) → op l = CSend to msg → 0 < to < 64 →
      astep a (ASys (<[Z.to_nat to := boxes a !!! Z.to_nat to ++ [msg]]> (boxes a)) (<[i := (p, resume l [])]> (locals a)))
  | A_recv i p l msg rest :
      locals a !! i = Some (p, l) → op l = CRecv → boxes a !!! Z.to_nat p = msg :: rest →
      astep a (ASys (<[Z.to_nat p := rest]> (boxes a)) (<[i := (p, resume l msg)]> (locals a)))
  | A_barrier :
      (∀ i p l, locals a !! i = Some (p, l) → op l = CBarrier) →
      astep a (ASys (boxes a) ((λ pl, (pl.1, resume pl.2 [])) <$> locals a)).

(** ** The kernel *)

Inductive slp := Awake | InRecv | InBar.

#[export] Instance slp_eq_dec : EqDecision slp.
Proof. solve_decision. Defined.

Record cproc := CProc { c_pid : Z; c_local : L; c_slp : slp }.
Record csys := CSys { c_kern : kern; c_bar : bar; c_procs : list cproc }.

(** [wakeup] on each channel of a list: a process in [sys_recv] runs its loop
    again, a process in [sys_barrier] returns. *)
Definition woken (ws : list chan) (c : cproc) : cproc :=
  if decide (ChPid (c_pid c) ∈ ws) then
    match c_slp c with
    | Awake => c
    | InRecv => CProc (c_pid c) (c_local c) Awake
    | InBar => CProc (c_pid c) (resume (c_local c) []) Awake
    end
  else c.

(** The kernel's state when a call starts: no wake-ups yet. *)
Definition calm (k : kern) : kern :=
  Kern (k_lock k) (m_lock k) (buffers k) (from_pids k) (to_pids k) (queue k) (head k) (tail k) (wait_queue k) [].
Definition calm_bar (b : bar) : bar := Bar (b_lock b) (num_procs b) (arrived b) (pids b) [].

Inductive cstep (c : csys) : csys → Prop :=
  | C_send i p l to msg r k :
      c_procs c !! i = Some (CProc p l Awake) → op l = CSend to msg →
      sys_send p to msg (calm (c_kern c)) = Ret r k →
      cstep c (CSys k (c_bar c) (<[i := CProc p (resume l []) Awake]> (woken (k_woken k) <$> c_procs c)))
  | C_received i p l msg k :
      c_procs c !! i = Some (CProc p l Awake) → op l = CRecv →
      sys_recv p (calm (c_kern c)) = Ret (Received msg) k →
      cstep c (CSys k (c_bar c) (<[i := CProc p (resume l msg) Awake]> (c_procs c)))
  | C_waits i p l k :
      c_procs c !! i = Some (CProc p l Awake) → op l = CRecv →
      sys_recv p (calm (c_kern c)) = Ret Waiting k →
      cstep c (CSys k (c_bar c) (<[i := CProc p l InRecv]> (c_procs c)))
  | C_passes i p l b :
      c_procs c !! i = Some (CProc p l Awake) → op l = CBarrier →
      sys_barrier p (calm_bar (c_bar c)) = Ret Passed b →
      cstep c (CSys (c_kern c) b (<[i := CProc p (resume l []) Awake]> (woken (b_woken b) <$> c_procs c)))
  | C_stops i p l b :
      c_procs c !! i = Some (CProc p l Awake) → op l = CBarrier →
      sys_barrier p (calm_bar (c_bar c)) = Ret Asleep b →
      cstep c (CSys (c_kern c) b (<[i := CProc p l InBar]> (c_procs c))).

(** ** The relation between them *)

Definition erase (c : cproc) : Z * L := (c_pid c, c_local c).

Definition in_bar (c : cproc) : Prop := c_slp c = InBar.
#[local] Instance in_bar_dec c : Decision (in_bar c).
Proof. unfold in_bar. apply _. Defined.

(** What is known of a process from where it sleeps. *)
Definition proc_ok (k : kern) (c : cproc) : Prop :=
  0 < c_pid c < 64 ∧
  (wait_queue k !!! Z.to_nat (c_pid c) = 1 ↔ c_slp c = InRecv) ∧
  (c_slp c = InRecv → op (c_local c) = CRecv ∧ box k (Z.to_nat (c_pid c)) = []) ∧
  (c_slp c = InBar → op (c_local c) = CBarrier).

Record bar_ok (b : bar) (cs : list cproc) : Prop := {
  bo_lock : b_lock b = false;
  bo_num : num_procs b = Z.of_nat (length cs);
  bo_len : length (pids b) = 64%nat;
  bo_arrived : 0 <= arrived b < num_procs b;
  bo_small : num_procs b <= 64;
  bo_pids : take (Z.to_nat (arrived b)) (pids b) ≡ₚ c_pid <$> filter in_bar cs }.

Record rel (c : csys) (a : asys) : Prop := {
  re_wf : kern_wf (c_kern c);
  re_len : length (boxes a) = 64%nat;
  re_boxes : ∀ q, (q < 64)%nat → boxes a !!! q = box (c_kern c) q;
  re_locals : locals a = erase <$> c_procs c;
  re_pids : NoDup (c_pid <$> c_procs c);
  re_procs : Forall (proc_ok (c_kern c)) (c_procs c);
  re_bar : bar_ok (c_bar c) (c_procs c) }.

(** Every message that is sent finds a free buffer and room in the queue; and
    nobody sends to id 0, which marks free buffers. *)
Definition room (a : asys) : Prop :=
  ∀ i p l to msg, locals a !! i = Some (p, l) → op l = CSend to msg →
    to ≠ 0 ∧ (length (concat (boxes a)) < 1000)%nat ∧ (0 < to < 64 → (length (boxes a !!! Z.to_nat to) < 499)%nat).

(** ** Changes to one process *)

(** Process lists with the same ids and the same sleepers at the barrier. *)
Definition same_bar : list cproc → list cproc → Prop :=
  Forall2 (λ c c', c_pid c = c_pid c' ∧ (in_bar c ↔ in_bar c')).

Lemma same_bar_pids cs cs' : same_bar cs cs' → c_pid <$> cs = c_pid <$> cs'.
Proof. induction 1 as [|c c' cs cs' [H _] _ IH]; cbn; congruence. Qed.

Lemma same_bar_filter cs cs' : same_bar cs cs' → c_pid <$> filter in_bar cs = c_pid <$> filter in_bar cs'.
Proof.
  induction 1 as [|c c' cs cs' [H1 H2] _ IH]; [done|]. rewrite !filter_cons.
  destruct (decide (in_bar c)), (decide (in_bar c')); cbn; try tauto; congruence.
Qed.

Lemma bar_ok_same b cs cs' : same_bar cs cs' → bar_ok b cs → bar_ok b cs'.
Proof.
  intros S [Hl Hn Hp Ha Hs Hb]. split; try done; [by rewrite Hn, (Forall2_length _ _ _ S)|].
  by rewrite Hb, (same_bar_filter _ _ S).
Qed.

Lemma same_bar_insert cs i c c' : cs !! i = Some c → c_pid c' = c_pid c → (in_bar c' ↔ in_bar c) →
  same_bar cs (<[i := c']> cs).
Proof.
  intros Hi Hp Hb. apply Forall2_same_length_lookup. split; [by rewrite length_insert|].
  intros j x y Hx Hy. destruct (decide (j = i)) as [->|Hne].
  - rewrite list_lookup_insert_eq in Hy by (by eapply lookup_lt_Some). simplify_eq. by rewrite Hp.
  - rewrite list_lookup_insert_ne in Hy by done. simplify_eq. done.
Qed.

Lemma same_bar_trans a b c : same_bar a b → same_bar b c → same_bar a c.
Proof.
  intros H1. revert c. induction H1 as [|x y a b [E1 E2] _ IH]; intros c H2; inversion H2; subst; constructor; [|by apply IH].
  destruct_and?. split; [congruence|tauto].
Qed.

(** Wake-ups that hit nobody at the barrier. *)
Lemma woken_same ws cs : Forall (λ c, ChPid (c_pid c) ∈ ws → c_slp c = InRecv) cs →
  same_bar cs (woken ws <$> cs) ∧ erase <$> (woken ws <$> cs) = erase <$> cs.
Proof.
  induction 1 as [|c cs Hc _ [IH1 IH2]]; [split; [constructor|done]|]. cbn. unfold woken at 1 3.
  assert (Hw : ∀ c', c' = woken ws c → c_pid c = c_pid c' ∧ (in_bar c ↔ in_bar c') ∧ erase c' = erase c).
  { intros c' ->. unfold woken, in_bar. case_decide as E; [|done]. rewrite (Hc E). done. }
  destruct (Hw _ eq_refl) as (H1 & H2 & H3). split; [by constructor|]. fold (woken ws c). by rewrite IH2, H3.
Qed.

Lemma erase_insert (cs : list cproc) (i : nat) c : erase <$> <[i := c]> cs = <[i := erase c]> (erase <$> cs).
Proof. apply list_fmap_insert. Qed.

Lemma erase_lookup (cs : list cproc) (i : nat) c : cs !! i = Some c → (erase <$> cs) !! i = Some (erase c).
Proof. intros H. by rewrite list_lookup_fmap, H. Qed.

(** ** The kernel's side *)

Lemma calm_wf k : kern_wf k → kern_wf (calm k).
Proof. intros []. by split. Qed.

Lemma total_rel c a : rel c a → total (c_kern c) = length (concat (boxes a)).
Proof.
  intros R. assert (E : boxes a = map (box (c_kern c)) (seq 0 64)).
  { apply list_eq_same_length with 64%nat; [by rewrite length_map, length_seq|apply R|].
    intros i x y Hi Hx Hy. rewrite list_lookup_fmap, lookup_seq_lt in Hy by done. cbn in Hy. simplify_eq.
    rewrite <- (re_boxes _ _ R) by done. by apply list_lookup_total_correct in Hx. }
  rewrite E. unfold total. clear E. generalize (seq 0 64). intros l. induction l as [|q l IH]; cbn; [done|].
  rewrite !length_app, IH. f_equal. unfold box. by rewrite length_map.
Qed.

(** A send outside the arrays does not return. *)
Lemma send_bad s rec ch k : kern_wf k → (total k < 1000)%nat → ¬ 0 <= rec < 64 → sys_send s rec ch k = Fault "pid".
Proof.
  intros W Ht Hr. destruct (room_free k W Ht) as (i & Hi & _). destruct (kw_unlocked _ W) as [L1 L2].
  destruct k as [kl ml b f t q h tl w wk]. cbn [k_lock m_lock] in *. subst kl ml.
  unfold sys_send, acquire, release, enque, wakeup, bind, gets, modify. kfields. cbn [to_pids] in Hi. rewrite Hi.
  unfold at_pid at 1, NPROC. by replace ((rec <? 0) || (64 <=? rec)) with true by zcases.
Qed.

Lemma rel_proc c a i p l s : rel c a → c_procs c !! i = Some (CProc p l s) →
  proc_ok (c_kern c) (CProc p l s) ∧ locals a !! i = Some (p, l).
Proof.
  intros R Hi. split; [by apply (Forall_lookup_1 _ _ _ _ (re_procs _ _ R) Hi)|].
  rewrite (re_locals _ _ R). by apply erase_lookup in Hi.
Qed.

(** The processes after one call, from what it does to the kernel. *)
Lemma procs_after k k' ws cs i p l l' s' : Forall (proc_ok k) cs → cs !! i = Some (CProc p l Awake) →
  (∀ c, c ∈ cs → proc_ok k c → proc_ok k' (woken ws c)) → proc_ok k' (CProc p l' s') →
  Forall (proc_ok k') (<[i := CProc p l' s']> (woken ws <$> cs)).
Proof.
  intros Hk Hi Hw Hp. apply Forall_insert; [|done]. apply Forall_fmap, Forall_forall. intros c Hc. cbn.
  apply Hw; [done|]. rewrite Forall_forall in Hk. by apply Hk.
Qed.

Lemma awake_ok k p l : 0 < p < 64 → wait_queue k !!! Z.to_nat p ≠ 1 → proc_ok k (CProc p l Awake).
Proof. intros Hp Hw. split; [done|]. split; [by split|done]. Qed.

(** A process that is sent a message is woken if it waits for one. *)
Lemma send_procs k k' t to cs i p l l' : kern_wf k → Forall (proc_ok k) cs → cs !! i = Some (CProc p l Awake) →
  t = Z.to_nat to → 0 < to < 64 →
  (∀ q, (q < 64)%nat → q ≠ t → box k' q = box k q) →
  (if wait_queue k !!! t =? 1
   then wait_queue k' = <[t := 0]> (wait_queue k) ∧ k_woken k' = [ChPid to]
   else wait_queue k' = wait_queue k ∧ k_woken k' = []) →
  Forall (proc_ok k') (<[i := CProc p l' Awake]> (woken (k_woken k') <$> cs)).
Proof.
  intros W Hk Hi -> Hto Hb Hw. pose proof (kw_wait _ W) as Hlen.
  assert (Hcall : proc_ok k (CProc p l Awake)) by (by eapply Forall_lookup_1).
  assert (Hwait : ∀ q : Z, 0 < q < 64 → wait_queue k' !!! Z.to_nat q =
    if decide (ChPid q ∈ k_woken k') then 0 else wait_queue k !!! Z.to_nat q).
  { intros q Hq. destruct (_ =? 1); destruct Hw as [-> ->].
    - destruct (decide (q = to)) as [->|Hne].
      + rewrite decide_True by (by apply list_elem_of_singleton). apply list_lookup_total_insert_eq. lia.
      + rewrite decide_False by (intros [= ->]%list_elem_of_singleton; done). apply list_lookup_total_insert_ne. lia.
    - rewrite decide_False; [done|apply not_elem_of_nil]. }
  assert (Hin : ∀ q : Z, q = to → wait_queue k !!! Z.to_nat q = 1 → ChPid q ∈ k_woken k').
  { intros q -> Eq. rewrite Eq in Hw. destruct Hw as [_ ->]. by apply list_elem_of_singleton. }
  eapply procs_after; [done..| |].
  - intros c0 _ (Hr & Hc1 & Hc2 & Hc3). unfold woken. pose proof (Hwait _ Hr) as Hw0. case_decide as Ed.
    + assert (Ewn : c_slp c0 = InRecv).
      { apply Hc1. destruct (Z.eqb_spec (wait_queue k !!! Z.to_nat to) 1) as [Ew|_]; destruct Hw as [_ Hw]; rewrite Hw in Ed.
        - by apply list_elem_of_singleton in Ed as [= ->].
        - by apply not_elem_of_nil in Ed. }
      rewrite Ewn. apply awake_ok; [done|]. rewrite Hw0. lia.
    + split; [done|]. split; [by rewrite Hw0|]. split; [|done]. intros Es. destruct (Hc2 Es) as [H1 H2]. split; [done|].
      rewrite Hb; [done|lia|]. intros Eq. apply Ed, Hin; [lia|]. by apply Hc1.
  - destruct Hcall as (Hr & Hc1 & _). cbn [c_pid c_slp] in *. apply awake_ok; [done|].
    rewrite (Hwait _ Hr). case_decide; [lia|]. by intros Hx%Hc1.
Qed.

Lemma sim_send c a i p l to msg r k : rel c a → room a →
  c_procs c !! i = Some (CProc p l Awake) → op l = CSend to msg → sys_send p to msg (calm (c_kern c)) = Ret r k →
  ∃ a', astep a a' ∧ rel (CSys k (c_bar c) (<[i := CProc p (resume l []) Awake]> (woken (k_woken k) <$> c_procs c))) a'.
Proof.
  intros R Hroom Hi Hop E. destruct (rel_proc _ _ _ _ _ _ R Hi) as [Pi Li].
  destruct (Hroom _ _ _ _ _ Li Hop) as (H0 & Ht & Hq). rewrite <- (total_rel _ _ R) in Ht.
  pose proof (calm_wf _ (re_wf _ _ R)) as W.
  destruct (decide (0 <= to < 64)) as [Hto|Hto]; [|by rewrite (send_bad p to msg _ W Ht Hto) in E].
  specialize (Hq ltac:(lia)). rewrite (re_boxes _ _ R) in Hq by lia.
  destruct (send_spec p to msg _ W ltac:(lia) Hq Ht) as (k' & E' & W' & Hb & Hw). rewrite E' in E. injection E as _ <-.
  cbn [wait_queue calm k_woken] in Hw.
  assert (Hrec : Forall (λ c, ChPid (c_pid c) ∈ k_woken k' → c_slp c = InRecv) (c_procs c)).
  { eapply Forall_impl; [apply (re_procs _ _ R)|]. intros c0 (_ & Hc0 & _) Hin. apply Hc0.
    destruct (Z.eqb_spec (wait_queue (c_kern c) !!! Z.to_nat to) 1) as [Ew|Ew]; destruct Hw as [_ Hw]; rewrite Hw in Hin.
    - apply list_elem_of_singleton in Hin. by injection Hin as ->.
    - by apply not_elem_of_nil in Hin. }
  destruct (woken_same _ _ Hrec) as [S1 S2].
  assert (Hi' : (woken (k_woken k') <$> c_procs c) !! i = Some (CProc p l Awake)).
  { rewrite list_lookup_fmap, Hi. cbn. f_equal. unfold woken. cbn. by case_decide. }
  pose proof (same_bar_insert _ _ _ (CProc p (resume l []) Awake) Hi' eq_refl ltac:(done)) as S3.
  pose proof (same_bar_trans _ _ _ S1 S3) as S.
  eexists. split; [by apply (A_send a i p l to msg); [..|lia]|]. split; cbn [c_kern c_bar c_procs boxes locals]; try done.
  - rewrite length_insert. apply R.
  - intros q Hq'. rewrite Hb by done. case_decide.
    + subst q. rewrite list_lookup_total_insert_eq by (rewrite (re_len _ _ R); lia). by rewrite (re_boxes _ _ R) by lia.
    + rewrite list_lookup_total_insert_ne by done. by rewrite (re_boxes _ _ R).
  - by rewrite erase_insert, S2, (re_locals _ _ R).
  - rewrite <- (same_bar_pids _ _ S). apply R.
  - apply (send_procs (c_kern c) k' (Z.to_nat to) to _ i p l); try done; [apply (re_wf _ _ R)|apply R|lia|].
    intros q Hq' Hne. rewrite Hb by done. by rewrite decide_False.
  - apply (bar_ok_same _ _ _ S), R.
Qed.

Lemma other_pid cs i j c c' : NoDup (c_pid <$> cs) → cs !! i = Some c → cs !! j = Some c' → i ≠ j → c_pid c' ≠ c_pid c.
Proof.
  intros Hn Hi Hj Hne E. apply Hne. eapply (NoDup_lookup (c_pid <$> cs)); [done|rewrite list_lookup_fmap, Hi; done|].
  rewrite list_lookup_fmap, Hj. cbn. by rewrite E.
Qed.

(** Processes other than the caller, when the kernel changed in [k']. *)
Lemma others_after k k' cs i c c' : NoDup (c_pid <$> cs) → Forall (proc_ok k) cs → cs !! i = Some c →
  (∀ c0, c_pid c0 ≠ c_pid c → proc_ok k c0 → proc_ok k' c0) → proc_ok k' c' →
  Forall (proc_ok k') (<[i := c']> cs).
Proof.
  intros Hn Hk Hi Ho Hc. apply Forall_lookup_2. intros j x Hx. destruct (decide (j = i)) as [->|Hne].
  - rewrite list_lookup_insert_eq in Hx by (by eapply lookup_lt_Some). by injection Hx as <-.
  - rewrite list_lookup_insert_ne in Hx by done. apply Ho; [|by eapply Forall_lookup_1].
    by eapply other_pid.
Qed.

Lemma sim_received c a i p l msg k : rel c a →
  c_procs c !! i = Some (CProc p l Awake) → op l = CRecv → sys_recv p (calm (c_kern c)) = Ret (Received msg) k →
  ∃ a', astep a a' ∧ rel (CSys k (c_bar c) (<[i := CProc p (resume l msg) Awake]> (c_procs c))) a'.
Proof.
  intros R Hi Hop E. destruct (rel_proc _ _ _ _ _ _ R Hi) as [(Hp & Hw & _) Li]. cbn in Hp.
  pose proof (recv_spec p _ (calm_wf _ (re_wf _ _ R)) ltac:(lia)) as H. change (box (calm (c_kern c))) with (box (c_kern c)) in H.
  destruct (box (c_kern c) (Z.to_nat p)) as [|m rest] eqn:Eb; destruct H as (k' & E' & W' & Hb & Hw' & _);
    rewrite E' in E; [done|]. injection E as -> <-. cbn [calm wait_queue] in Hw'.
  eexists. split; [apply (A_recv a i p l msg rest); [done..|]; by rewrite (re_boxes _ _ R) by lia|].
  pose proof (same_bar_insert _ _ _ (CProc p (resume l msg) Awake) Hi eq_refl ltac:(done)) as S.
  split; cbn [c_kern c_bar c_procs boxes locals]; try done.
  - rewrite length_insert. apply R.
  - intros q Hq. rewrite Hb by done. case_decide.
    + subst q. by rewrite list_lookup_total_insert_eq by (rewrite (re_len _ _ R); lia).
    + rewrite list_lookup_total_insert_ne by done. by apply (re_boxes _ _ R).
  - by rewrite erase_insert, (re_locals _ _ R).
  - rewrite <- (same_bar_pids _ _ S). apply R.
  - eapply others_after; [apply R..|done| |].
    + intros c0 Hne (H1 & H2 & H3 & H4). split; [done|]. rewrite Hw'. split; [done|]. split; [|done].
      intros Es. destruct (H3 Es) as [H5 H6]. split; [done|]. rewrite Hb by lia. rewrite decide_False; [done|].
      cbn in Hne. lia.
    + apply awake_ok; [done|]. rewrite Hw'. by intros Hx%Hw.
  - apply (bar_ok_same _ _ _ S), R.
Qed.

Lemma sim_waits c a i p l k : rel c a →
  c_procs c !! i = Some (CProc p l Awake) → op l = CRecv → sys_recv p (calm (c_kern c)) = Ret Waiting k →
  rel (CSys k (c_bar c) (<[i := CProc p l InRecv]> (c_procs c))) a.
Proof.
  intros R Hi Hop E. destruct (rel_proc _ _ _ _ _ _ R Hi) as [(Hp & Hw & _) Li]. cbn in Hp.
  pose proof (recv_spec p _ (calm_wf _ (re_wf _ _ R)) ltac:(lia)) as H. change (box (calm (c_kern c))) with (box (c_kern c)) in H.
  destruct (box (c_kern c) (Z.to_nat p)) as [|m rest] eqn:Eb; destruct H as (k' & E' & W' & Hb & Hw' & _);
    rewrite E' in E; [|done]. injection E as <-. cbn [calm wait_queue] in Hw'.
  pose proof (same_bar_insert _ _ _ (CProc p l InRecv) Hi eq_refl ltac:(done)) as S.
  pose proof (kw_wait _ (re_wf _ _ R)) as Hlen.
  split; cbn [c_kern c_bar c_procs boxes locals]; try done; try apply R.
  - intros q Hq. rewrite Hb. by apply R.
  - rewrite erase_insert, <- (re_locals _ _ R). symmetry. by apply list_insert_id.
  - rewrite <- (same_bar_pids _ _ S). apply R.
  - eapply others_after; [apply R..|done| |].
    + intros c0 Hne (H1 & H2 & H3 & H4). cbn in Hne. split; [done|]. rewrite Hw', list_lookup_total_insert_ne by lia.
      split; [done|]. split; [|done]. intros Es. rewrite Hb. by apply H3.
    + split; [done|]. cbn [c_pid c_slp c_local]. rewrite Hw', list_lookup_total_insert_eq by lia.
      split; [done|]. split; [|done]. intros _. split; [done|]. by rewrite Hb.
  - apply (bar_ok_same _ _ _ S), R.
Qed.

(** ** The barrier *)

Lemma filter_stop cs i p l : cs !! i = Some (CProc p l Awake) →
  c_pid <$> filter in_bar (<[i := CProc p l InBar]> cs) ≡ₚ p :: (c_pid <$> filter in_bar cs).
Proof.
  intros Hi. apply list_elem_of_split_length in Hi as (l1 & l2 & -> & ->).
  rewrite insert_app_r_alt, Nat.sub_diag by done. cbn. rewrite !filter_app, !filter_cons.
  rewrite decide_True, decide_False by done. rewrite !fmap_app. cbn. by rewrite Permutation_middle.
Qed.

Lemma barrier_runs p b : b_lock b = false → length (pids b) = 64%nat → 0 <= arrived b < num_procs b → num_procs b <= 64 →
  sys_barrier p (calm_bar b) =
    if arrived b + 1 <? num_procs b
    then Ret Asleep (Bar false (num_procs b) (arrived b + 1) (<[Z.to_nat (arrived b) := p]> (pids b)) [])
    else Ret Passed (Bar false (num_procs b) 0 (pids b) (map ChPid (take (Z.to_nat (num_procs b)) (pids b)))).
Proof.
  intros Hl Hlen Ha Hn. destruct b as [bl n a ps ws]. cbn in *. subst bl.
  unfold sys_barrier, acquire, release, bind, gets, modify, wake_all, NPROC.
  cbn [lock_held set_lock bar_has_lock b_lock num_procs arrived pids b_woken calm_bar id].
  destruct (Z.ltb_spec (a + 1) n).
  - rewrite (proj2 (Z.leb_gt 64 _)) by lia. cbn. by replace (a + 1 - 1) with a by lia.
  - cbn. by rewrite (proj2 (Z.ltb_ge 64 n)) by lia.
Qed.

Lemma sim_stops c a i p l b : rel c a →
  c_procs c !! i = Some (CProc p l Awake) → op l = CBarrier → sys_barrier p (calm_bar (c_bar c)) = Ret Asleep b →
  rel (CSys (c_kern c) b (<[i := CProc p l InBar]> (c_procs c))) a.
Proof.
  intros R Hi Hop E. destruct (rel_proc _ _ _ _ _ _ R Hi) as [(Hp & Hw & _) Li]. cbn in Hp.
  destruct (re_bar _ _ R) as [Hl Hn Hlen Ha Hs Hb]. rewrite barrier_runs in E by done.
  destruct (Z.ltb_spec (arrived (c_bar c) + 1) (num_procs (c_bar c))); [|done]. injection E as <-.
  split; cbn [c_kern c_bar c_procs boxes locals]; try done; try apply R.
  - rewrite erase_insert, <- (re_locals _ _ R). symmetry. by apply list_insert_id.
  - rewrite list_fmap_insert. cbn. rewrite list_insert_id; [apply R|]. by rewrite list_lookup_fmap, Hi.
  - eapply others_after; [apply R..|done|done|]. split; [done|]. split; [|done]. cbn. split; [by intros Hx%Hw|done].
  - split; cbn [b_lock num_procs arrived pids]; rewrite ?length_insert; try done; [lia|].
    rewrite filter_stop by done. rewrite <- Hb, Z2Nat.inj_add, Nat.add_1_r by lia.
    erewrite take_S_r by (apply list_lookup_insert_eq; lia). rewrite take_insert_ge by lia. by rewrite Permutation_app_comm.
Qed.

Lemma filter_all {A} (P : A → Prop) `{∀ x, Decision (P x)} (l : list A) : (length l <= length (filter P l))%nat → Forall P l.
Proof.
  induction l as [|x l IH]; [constructor|]. rewrite filter_cons. pose proof (length_filter P l).
  case_decide; cbn; intros Hle; [|lia]. constructor; [done|]. apply IH. lia.
Qed.

(** When all but one sleep at the barrier, each of the others does. *)
Lemma rest_in_bar cs i c : cs !! i = Some c → ¬ in_bar c → (length cs <= S (length (filter in_bar cs)))%nat →
  ∀ j c', cs !! j = Some c' → j ≠ i → in_bar c'.
Proof.
  intros Hi Hc Hlen j c' Hj Hne. apply list_elem_of_split_length in Hi as (l1 & l2 & -> & ->).
  rewrite filter_app, filter_cons, decide_False in Hlen by done. rewrite !length_app in Hlen. cbn in Hlen.
  pose proof (length_filter in_bar l1). pose proof (length_filter in_bar l2).
  pose proof (filter_all in_bar l1 ltac:(lia)) as F1. pose proof (filter_all in_bar l2 ltac:(lia)) as F2.
  destruct (decide (j < length l1)%nat).
  - rewrite lookup_app_l in Hj by done. by eapply Forall_lookup_1 in F1.
  - rewrite lookup_app_r in Hj by lia. destruct (j - length l1)%nat as [|j'] eqn:Ej; [lia|]. cbn in Hj.
    by eapply Forall_lookup_1 in F2.
Qed.

Definition pass (c : cproc) : cproc := CProc (c_pid c) (resume (c_local c) []) Awake.

(** The last to arrive wakes everybody. *)
Lemma pass_all cs i p l b : bar_ok b cs → cs !! i = Some (CProc p l Awake) → arrived b + 1 = num_procs b →
  (∀ j c, cs !! j = Some c → j ≠ i → in_bar c) ∧
  <[i := CProc p (resume l []) Awake]> (woken (map ChPid (take (Z.to_nat (num_procs b)) (pids b))) <$> cs) = pass <$> cs.
Proof.
  intros [Hl Hn Hlen Ha Hs Hb] Hi Hlast.
  assert (Hrest : ∀ j c, cs !! j = Some c → j ≠ i → in_bar c).
  { apply (rest_in_bar cs i _ Hi); [done|]. apply Permutation_length in Hb. rewrite length_take, length_fmap in Hb. lia. }
  split; [done|]. apply list_eq. intros j. destruct (decide (j = i)) as [->|Hne].
  - rewrite list_lookup_insert_eq by (rewrite length_fmap; by eapply lookup_lt_Some). by rewrite list_lookup_fmap, Hi.
  - rewrite list_lookup_insert_ne, !list_lookup_fmap by done. destruct (cs !! j) as [c|] eqn:Ej; [|done]. cbn. f_equal.
    pose proof (Hrest j c Ej Hne) as Hin. unfold woken. rewrite decide_True; [by rewrite Hin|].
    apply list_elem_of_fmap_2. replace (Z.to_nat (num_procs b)) with (Z.to_nat (arrived b) + 1)%nat by lia.
    rewrite <- take_take_drop. apply elem_of_app. left. rewrite Hb. apply list_elem_of_fmap_2.
    apply list_elem_of_filter. split; [done|]. by eapply list_elem_of_lookup_2.
Qed.

Lemma sim_passes c a i p l b : rel c a →
  c_procs c !! i = Some (CProc p l Awake) → op l = CBarrier → sys_barrier p (calm_bar (c_bar c)) = Ret Passed b →
  ∃ a', astep a a' ∧ rel (CSys (c_kern c) b (<[i := CProc p (resume l []) Awake]> (woken (b_woken b) <$> c_procs c))) a'.
Proof.
  intros R Hi Hop E. pose proof (re_bar _ _ R) as B. destruct (B) as [Hl Hn Hlen Ha Hs Hb]. rewrite barrier_runs in E by done.
  destruct (Z.ltb_spec (arrived (c_bar c) + 1) (num_procs (c_bar c))); [done|]. injection E as <-. cbn [b_woken].
  destruct (pass_all _ _ _ _ _ B Hi ltac:(lia)) as [Hrest Heq]. rewrite Heq.
  assert (Hpids : c_pid <$> (pass <$> c_procs c) = c_pid <$> c_procs c) by (rewrite <- list_fmap_compose; done).
  eexists. split; [apply A_barrier|].
  - intros j q l' Hj. rewrite (re_locals _ _ R), list_lookup_fmap in Hj. destruct (c_procs c !! j) as [c'|] eqn:Ej; [|done].
    cbn in Hj. injection Hj as <- <-. destruct (decide (j = i)) as [->|Hne]; [by simplify_eq|].
    pose proof (Forall_lookup_1 _ _ _ _ (re_procs _ _ R) Ej) as (_ & _ & _ & H4). apply H4. by apply (Hrest j).
  - split; cbn [c_kern c_bar c_procs boxes locals]; try done; try apply R.
    + rewrite (re_locals _ _ R), <- !list_fmap_compose. done.
    + rewrite Hpids. apply R.
    + apply Forall_fmap, Forall_lookup_2. intros j c' Ej.
      pose proof (Forall_lookup_1 _ _ _ _ (re_procs _ _ R) Ej) as (H1 & H2 & _). apply awake_ok; [done|].
      intros Hx%H2. destruct (decide (j = i)) as [->|Hne]; [by simplify_eq|]. pose proof (Hrest j c' Ej Hne) as Hy.
      unfold in_bar in Hy. congruence.
    + split; cbn [b_lock num_procs arrived pids]; rewrite ?length_fmap; try done; [lia|].
      cbn [take Z.to_nat]. replace (filter in_bar (pass <$> c_procs c)) with (@nil cproc); [done|].
      symmetry. clear. induction (c_procs c) as [|x cs IH]; [done|]. rewrite fmap_cons, filter_cons, decide_False by done. exact IH.
Qed.

(** ** Progress *)

(** A process whose call is a send, or a receive with a message there, is awake. *)
Lemma caller_awake c a i p l : rel c a → locals a !! i = Some (p, l) → op l ≠ CBarrier →
  (op l = CRecv → boxes a !!! Z.to_nat p ≠ []) → c_procs c !! i = Some (CProc p l Awake).
Proof.
  intros R Hi Hb Hr. rewrite (re_locals _ _ R), list_lookup_fmap in Hi.
  destruct (c_procs c !! i) as [[q m s]|] eqn:Ei; [|done]. cbn in Hi. injection Hi as -> ->. f_equal. f_equal.
  destruct (rel_proc _ _ _ _ _ _ R Ei) as [(Hp & _ & H1 & H2) _]. cbn in *. destruct s; [done|..].
  - destruct (H1 eq_refl) as [Hop Hx]. destruct (Hr Hop). by rewrite (re_boxes _ _ R) by lia.
  - by destruct (Hb (H2 eq_refl)).
Qed.

(** Not all processes sleep at the barrier. *)
Lemma bar_awake c a : rel c a → ∃ i x, c_procs c !! i = Some x ∧ ¬ in_bar x.
Proof.
  intros R. destruct (re_bar _ _ R) as [_ Hn Hlen Ha Hs Hb]. apply Permutation_length in Hb. rewrite length_take, length_fmap in Hb.
  destruct (decide (Forall in_bar (c_procs c))) as [HF|HF].
  - exfalso. assert (E : filter in_bar (c_procs c) = c_procs c).
    { clear - HF. induction HF as [|x l Hx _ IH]; [done|]. rewrite filter_cons, decide_True by done. by rewrite IH. }
    rewrite E in Hb. lia.
  - apply not_Forall_Exists in HF; [|apply _]. apply Exists_exists in HF as (x & Hx & Hnot).
    apply list_elem_of_lookup in Hx as [i Hi]. by exists i, x.
Qed.

(** While the specification can go on, some call of the kernel can be made and
    returns or goes to sleep. *)
Lemma kernel_progress c a a' : rel c a → room a → astep a a' → ∃ c', cstep c c'.
Proof.
  intros R Hroom [i p l to msg Hi Hop Hto|i p l msg rest Hi Hop Hbx|Hall].
  - destruct (Hroom _ _ _ _ _ Hi Hop) as (_ & Ht & Hq). rewrite <- (total_rel _ _ R) in Ht. specialize (Hq Hto).
    rewrite (re_boxes _ _ R) in Hq by lia.
    destruct (send_spec p to msg _ (calm_wf _ (re_wf _ _ R)) ltac:(lia) Hq Ht) as (k & E & _).
    eexists. eapply (C_send c i p l to msg); [|done|exact E]. eapply caller_awake; [done..| |]; by rewrite Hop.
  - assert (Ha : c_procs c !! i = Some (CProc p l Awake)).
    { eapply caller_awake; [done..| |]; rewrite Hop; [done|]. by rewrite Hbx. }
    destruct (rel_proc _ _ _ _ _ _ R Ha) as [(Hp & _) _]. cbn in Hp.
    pose proof (recv_spec p _ (calm_wf _ (re_wf _ _ R)) ltac:(lia)) as H. change (box (calm (c_kern c))) with (box (c_kern c)) in H.
    destruct (box (c_kern c) (Z.to_nat p)); destruct H as (k & E & _); eexists; [by eapply C_waits|by eapply C_received].
  - destruct (bar_awake c a R) as (i & [p l s] & Ei & Hs). destruct (rel_proc _ _ _ _ _ _ R Ei) as [(_ & _ & H1 & _) Li].
    pose proof (Hall i p l Li) as Hop. cbn in H1. destruct s; [|by destruct (H1 eq_refl) as [? _]; congruence|by destruct Hs].
    destruct (re_bar _ _ R) as [Hl _ Hlen Ha Hsm _]. pose proof (barrier_runs p (c_bar c) Hl Hlen Ha Hsm) as E.
    destruct (_ <? _); eexists; [by eapply C_stops|by eapply C_passes].
Qed.

(** ** The refinement *)

Inductive steps_of {S} (step : S → S → Prop) : S → S → Prop :=
  | SO_refl s : steps_of step s s
  | SO_step s s1 s2 : steps_of step s s1 → step s1 s2 → steps_of step s s2.

(** How many processes are awake. *)
Definition awake_count (c : csys) : nat := length (filter (λ t, c_slp t = Awake) (c_procs c)).

Lemma awake_bound c : (awake_count c <= length (c_procs c))%nat.
Proof. apply length_filter. Qed.

Lemma awake_sleeps k k' b b' cs i p l l' s : cs !! i = Some (CProc p l Awake) → s ≠ Awake →
  S (awake_count (CSys k' b' (<[i := CProc p l' s]> cs))) = awake_count (CSys k b cs).
Proof.
  intros Hi Hs. unfold awake_count. cbn [c_procs]. apply list_elem_of_split_length in Hi as (l1 & l2 & -> & ->).
  rewrite insert_app_r_alt, Nat.sub_diag by done. cbn. rewrite !filter_app, !filter_cons.
  rewrite decide_False, decide_True by done. rewrite !length_app. cbn. lia.
Qed.

(** A step of the kernel is one of the specification, or puts a process to sleep. *)
Lemma sim_step c c' a : rel c a → room a → cstep c c' →
  ∃ a', rel c' a' ∧ (astep a a' ∨ a' = a ∧ S (awake_count c') = awake_count c).
Proof.
  intros R Hroom H. destruct H.
  - edestruct sim_send as (a' & ? & ?); eauto.
  - edestruct sim_received as (a' & ? & ?); eauto.
  - exists a. split; [by eapply sim_waits|]. right. split; [done|]. destruct c. by eapply awake_sleeps.
  - edestruct sim_passes as (a' & ? & ?); eauto.
  - exists a. split; [by eapply sim_stops|]. right. split; [done|]. destruct c. by eapply awake_sleeps.
Qed.

Lemma steps_of_trans {S} (step : S → S → Prop) a b c : steps_of step a b → steps_of step b c → steps_of step a c.
Proof. intros H1 H2. induction H2 as [s|s s1 s2 _ IH Hs]; [exact H1|]. eapply SO_step; [by apply IH|exact Hs]. Qed.

(** The programs at the start, with nothing sent. *)
Definition start (ps : list (Z * L)) : asys := ASys (replicate 64 []) ps.
Definition boot (ps : list (Z * L)) : csys :=
  CSys kern_init (Bar false (Z.of_nat (length ps)) 0 (replicate 64 0) []) ((λ pl, CProc pl.1 pl.2 Awake) <$> ps).

Lemma boot_barrier n : sys_barrier_init n bar_init = Ret 0 (Bar false n 0 (replicate 64 0) []).
Proof. reflexivity. Qed.

Lemma kern_init_wf : kern_wf kern_init.
Proof.
  assert (Hq : ∀ p, (p < 64)%nat → qidx kern_init p = []).
  { intros p Hp. unfold qidx, qitems, qlen. cbn [head tail kern_init]. by rewrite !lookup_total_replicate_2. }
  split; cbn [buffers to_pids queue head tail wait_queue kern_init]; rewrite ?length_replicate; try done.
  - intros p Hp. cbn [queue kern_init]. rewrite lookup_total_replicate_2 by done. by rewrite length_replicate.
  - intros p Hp. cbn [head tail kern_init]. rewrite lookup_total_replicate_2 by done. done.
  - intros p i Hp Hi. rewrite Hq in Hi by done. by apply not_elem_of_nil in Hi.
  - intros p Hp. rewrite Hq by done. constructor.
  - intros i Hi. cbn [to_pids kern_init]. rewrite lookup_total_replicate_2 by done. lia.
Qed.

Lemma boot_rel ps : ps ≠ [] → NoDup ps.*1 → Forall (λ pl, 0 < pl.1 < 64) ps → rel (boot ps) (start ps).
Proof.
  intros Hne Hnd Hp. assert (Hlen : (length ps <= 64)%nat).
  { assert (Hs : ps.*1 ⊆+ seqZ 0 64).
    { apply NoDup_submseteq; [done|]. intros p (pl & -> & Hin)%list_elem_of_fmap. apply elem_of_seqZ.
      rewrite Forall_forall in Hp. specialize (Hp _ Hin). lia. }
    apply submseteq_length in Hs. rewrite length_fmap, length_seqZ in Hs. lia. }
  split; cbn [c_kern c_bar c_procs boxes locals boot start].
  - apply kern_init_wf.
  - by rewrite length_replicate.
  - intros q Hq. rewrite lookup_total_replicate_2 by done. unfold box, qidx. cbn [head tail kern_init].
    by rewrite !lookup_total_replicate_2.
  - clear. induction ps as [|[p l] ps IH]; [done|]. cbn. by rewrite <- IH.
  - by rewrite <- list_fmap_compose.
  - apply Forall_fmap. eapply Forall_impl; [exact Hp|]. intros [p l] H. cbn [fst snd] in *. apply awake_ok; [done|].
    cbn [wait_queue kern_init fst].  rewrite lookup_total_replicate_2 by (unfold NPROC; lia). done.
  - split; cbn [b_lock num_procs arrived pids]; rewrite ?length_fmap; try done; [destruct ps; [done|cbn; lia]|lia|].
    replace (filter in_bar _) with (@nil cproc); [done|]. symmetry. clear. induction ps as [|x ps IH]; [done|].
    rewrite fmap_cons, filter_cons, decide_False by done. exact IH.
Qed.

Lemma system_rel ps c : ps ≠ [] → NoDup ps.*1 → Forall (λ pl, 0 < pl.1 < 64) ps →
  (∀ a, steps_of astep (start ps) a → room a) → steps_of cstep (boot ps) c →
  ∃ a, steps_of astep (start ps) a ∧ rel c a.
Proof.
  intros Hne Hnd Hp Hroom H. remember (boot ps) as c0 eqn:E0. induction H as [c|c c1 c2 H IH Hs]; subst.
  - exists (start ps). split; [constructor|]. by apply boot_rel.
  - destruct (IH eq_refl) as (a1 & A1 & R1). destruct (sim_step _ _ _ R1 (Hroom _ A1) Hs) as (a2 & R2 & A2).
    exists a2. split; [|done]. destruct A2 as [A2|[-> _]]; [by eapply SO_step|done].
Qed.

(** C26. The message kernel is a set of queues and a barrier: whatever programs
    run on it, in whatever order their calls are interleaved, as long as each
    message finds a buffer and room in its queue, the processes are in states
    that the specification reaches, in which a message goes to the end of the
    receiver's queue, a receive takes the oldest message, and a barrier lets all
    processes through together; the messages waiting are those of the
    specification; and no process sleeps in a receive while a message waits for
    it. *)
Theorem message_kernel_refines ps c : ps ≠ [] → NoDup ps.*1 → Forall (λ pl, 0 < pl.1 < 64) ps →
  (∀ a, steps_of astep (start ps) a → room a) → steps_of cstep (boot ps) c →
  ∃ a, steps_of astep (start ps) a ∧ locals a = erase <$> c_procs c ∧
    (∀ q, (q < 64)%nat → boxes a !!! q = box (c_kern c) q) ∧
    Forall (λ t, c_slp t = InRecv → boxes a !!! Z.to_nat (c_pid t) = []) (c_procs c).
Proof.
  intros Hne Hnd Hp Hroom H. destruct (system_rel ps c Hne Hnd Hp Hroom H) as (a & A & R).
  exists a. split; [done|]. split; [apply R|]. split; [apply R|].
  eapply Forall_impl; [apply (re_procs _ _ R)|]. intros t (H1 & _ & H3 & _) Hs. rewrite (re_boxes _ _ R) by lia. by apply H3.
Qed.

End Client.
