(* ===== verification/Maekawa.v ===== *)
(** * Mutual exclusion by message passing (xv6A1/maekawa.c)

    Maekawa's algorithm on a square grid of processes: a process enters its
    critical section when the processes in its row and column have all let it.
    The program of each process is a machine that makes the system calls of
    MsgSystem, so that the theorems are about the program on that kernel.

    The number of processes is [size * size]; process [k] is at row [k / size]
    and column [k mod size] and has the id [pid0 + k], as the program assumes of
    the ids that [fork] gives. *)

From S2P Require Import Prelude Memory Layout FsLayout Spinlock Ring Mailbox MailboxProps MsgSystem.

Definition queue_elements : Z := 100.

(** [simple_queue] *)
Record squeue := SQ { sq_queue : list Z; sq_head : Z; sq_tail : Z }.

Definition sq_init : squeue := SQ (replicate 100 0) 0 0.

Definition sq_enque (val : Z) (q : squeue) : squeue :=
  SQ (<[Z.to_nat (sq_tail q) := val]> (sq_queue q)) (sq_head q) ((sq_tail q + 1) mod queue_elements).

Definition sq_deque (q : squeue) : Z * squeue :=
  if sq_head q =? sq_tail q then (-1, q)
  else (sq_queue q !!! Z.to_nat (sq_head q), SQ (sq_queue q) ((sq_head q + 1) mod queue_elements) (sq_tail q)).

(** [switch (P)]: the side of the grid, 0 if [P] is none of these squares. *)
Definition size_of (P : Z) : nat :=
  if P =? 4 then 2 else if P =? 9 then 3 else if P =? 16 then 4 else if P =? 25 then 5 else 0.

(** The message that means release. *)
Definition RELEASE : Z := 100.

(** Where a process is: in turn [t] of the loop that asks one process after the
    other, with requests still to send; at the barriers; at the first request,
    and its reply; collecting the other requests; waiting for replies, and
    passing a reply on; sending the releases that end the critical section; and
    serving the others afterwards. *)
Inductive mpc :=
  | Ask (t : nat) (todo : list nat)
  | Meet
  | First
  | Reply (temp : Z)
  | Collect (p : nat)
  | Meet2
  | Wait
  | WaitReply (temp : Z)
  | Leave (todo : list nat)
  | Serve
  | ServeReply (temp : Z)
  | Done.

(** [me] is [size*i + j]; [entered] says that the process has been in its
    critical section, and has printed so. *)
Record node := Node { me : nat; mpc_of : mpc; mq : squeue; num : Z; num_procs_done : Z; entered : bool }.

Section Maekawa.
(** [size], [parent_pid], [P1], and the four bytes that follow an [int] in
    memory, which go out with each message of eight. *)
Context (size : nat) (pid0 P1 : Z) (beyond : node → list Z).

Definition pid_of (k : nat) : Z := pid0 + Z.of_nat k.

(** [x == i || y == j], for [x] and [y] over the grid *)
Definition in_quorum (k m : nat) : bool :=
  ((m / size =? k / size) || (m mod size =? k mod size))%nat.
Definition quorum (k : nat) : list nat := List.filter (in_quorum k) (seq 0 (size * size)).

Definition message (v : Z) (nd : node) : list Z := bytes32 v ++ beyond nd.
Definition value_of (msg : list Z) : Z := s32 (get32 msg 0).

Definition goto (c : mpc) (nd : node) : node := Node (me nd) c (mq nd) (num nd) (num_procs_done nd) (entered nd).
Definition with_q (q : squeue) (nd : node) : node := Node (me nd) (mpc_of nd) q (num nd) (num_procs_done nd) (entered nd).
Definition bump_num (nd : node) : node := Node (me nd) (mpc_of nd) (mq nd) (num nd + 1) (num_procs_done nd) (entered nd).
Definition bump_done (nd : node) : node := Node (me nd) (mpc_of nd) (mq nd) (num nd) (num_procs_done nd + 1) (entered nd).

(** The turn [t] of the loop that asks. *)
Definition ask (t k : nat) : mpc := Ask t (if (t =? k)%nat then quorum k else []).

(** [if(size*i + j < P1) goto nosend;] and the critical section. *)
Definition enter (nd : node) : node :=
  Node (me nd) (mpc_of nd) (mq nd) (num nd) (num_procs_done nd) (negb (Z.of_nat (me nd) <? P1)).

(** The end of a round of the loop that waits, and of the one that serves. *)
Definition wait_more (nd : node) : node :=
  if num nd =? 2 * Z.of_nat size - 1 then goto (Leave (quorum (me nd))) (enter nd) else goto Wait nd.
Definition serve_more (nd : node) : node :=
  goto (if 2 * Z.of_nat size - 1 <=? num_procs_done nd then Done else Serve) nd.

Definition mop (nd : node) : call :=
  match mpc_of nd with
  | Ask _ (x :: _) => CSend (pid_of x) (message (pid_of (me nd)) nd)
  | Ask _ [] => CBarrier
  | Meet | Meet2 => CBarrier
  | First | Collect _ | Wait | Serve => CRecv
  | Reply temp | WaitReply temp | ServeReply temp => CSend temp (message temp nd)
  | Leave (x :: _) => CSend (pid_of x) (message RELEASE nd)
  | Leave [] | Done => CStop
  end.

(** What the process does after the call; [v] is the value received. [recv(&temp)]
    stores eight bytes, four more than [temp] has; the model is of a compilation
    that keeps nothing there that is used later. *)
Definition after (nd : node) (v : Z) : node :=
  match mpc_of nd with
  | Ask t (_ :: todo) => goto (Ask t todo) nd
  | Ask t [] => goto (if (S t <? size * size)%nat then ask (S t) (me nd) else Meet) nd
  | Meet => goto First nd
  | First => goto (Reply v) nd
  | Reply _ => goto (if (0 <? 2 * size - 2)%nat then Collect 0 else Meet2) nd
  | Collect p =>
      if v =? -1 then goto Meet2 nd
      else goto (if (S p <? 2 * size - 2)%nat then Collect (S p) else Meet2) (with_q (sq_enque v (mq nd)) nd)
  | Meet2 => goto Wait nd
  | Wait =>
      if v =? -1 then nd
      else if v =? pid_of (me nd) then wait_more (bump_num nd)
      else if v =? RELEASE then
        let r := sq_deque (mq nd) in goto (WaitReply r.1) (with_q r.2 nd)
      else wait_more (with_q (sq_enque v (mq nd)) nd)
  | WaitReply _ => wait_more (bump_done nd)
  | Leave (_ :: x :: todo) => goto (Leave (x :: todo)) nd
  | Leave _ => goto Serve nd
  | Serve =>
      if v =? -1 then nd
      else if v =? RELEASE then
        let r := sq_deque (mq nd) in goto (ServeReply r.1) (with_q r.2 nd)
      else serve_more nd
  | ServeReply _ => serve_more (bump_done nd)
  | Done => nd
  end.

Definition mresume (nd : node) (msg : list Z) : node := after nd (value_of msg).

(** The processes when [main] has found its place in the grid. *)
Definition node_start (k : nat) : node := Node k (ask 0 k) sq_init 0 0 false.
Definition grid : list (Z * node) := map (λ k, (pid_of k, node_start k)) (seq 0 (size * size)).

(** From the last reply to the first release; the critical section, between the
    two messages it prints, lies in it. *)
Definition in_section (nd : node) : Prop := mpc_of nd = Leave (quorum (me nd)).

(** It has had all the replies, and has given its critical section, if it has
    one, to others. *)
Definition past_section (nd : node) : Prop :=
  match mpc_of nd with Serve | ServeReply _ | Done => True | _ => False end.

End Maekawa.
