(* ===== verification/MaekawaInv.v ===== *)
(** * The invariant of Maekawa's algorithm

    Each process, as arbiter, has one token: it is with the process whose turn
    it is, on its way there as a reply, or on its way back as a release. *)

From stdpp Require Import functions.
From S2P Require Import Prelude Memory Layout FsLayout Spinlock Ring Mailbox MailboxProps MsgSystem Maekawa.

(** ** The local queue *)

Definition sq_items (q : squeue) : list Z := qitems queue_elements (sq_queue q) (sq_head q) (sq_tail q).

Definition sq_wf (q : squeue) : Prop :=
  length (sq_queue q) = 100%nat ∧ 0 <= sq_head q < queue_elements ∧ 0 <= sq_tail q < queue_elements.

Lemma sq_init_ok : sq_wf sq_init ∧ sq_items sq_init = [].
Proof. done. Qed.

Lemma sq_enque_ok v q : sq_wf q → (length (sq_items q) < 99)%nat →
  sq_wf (sq_enque v q) ∧ sq_items (sq_enque v q) = sq_items q ++ [v].
Proof.
  intros (Hl & Hh & Ht) Hn. pose proof (length_qitems queue_elements eq_refl (sq_queue q) (sq_head q) (sq_tail q)) as Hq.
  unfold sq_items in *. split.
  - split; [by cbn; rewrite length_insert|]. split; [done|]. by apply Z.mod_pos_bound.
  - apply qitems_put; [done..|]. unfold queue_elements in *. lia.
Qed.

Lemma sq_deque_ok q : sq_wf q →
  match sq_items q with
  | [] => sq_deque q = (-1, q)
  | v :: l => (sq_deque q).1 = v ∧ sq_wf (sq_deque q).2 ∧ sq_items (sq_deque q).2 = l
  end.
Proof.
  intros (Hl & Hh & Ht). unfold sq_items, sq_deque. destruct (Z.eqb_spec (sq_head q) (sq_tail q)) as [E|E].
  - assert (Hn : qitems queue_elements (sq_queue q) (sq_head q) (sq_tail q) = []) by (by apply qitems_nil). by rewrite Hn.
  - rewrite qitems_get by done. split; [done|]. split; [|done]. split; [done|]. split; [by apply Z.mod_pos_bound|done].
Qed.

(** ** The grid *)

(** All that is used of the grid, for one size. *)
Definition grid_check (n : nat) : bool :=
  let ks := seq 0 (n * n) in
  forallb (λ k, (length (quorum n k) =? 2 * n - 1)%nat) ks &&
  forallb (λ k, forallb (λ m, existsb (λ a, in_quorum n k a && in_quorum n m a) ks) ks) ks.

Lemma grid_checks n : (2 <= n <= 5)%nat → grid_check n = true.
Proof. intros H. assert (n = 2 ∨ n = 3 ∨ n = 4 ∨ n = 5)%nat as Hn by lia. by destruct_or! Hn; subst; vm_compute. Qed.

Lemma size_of_range P : size_of P ≠ 0%nat → (2 <= size_of P <= 5)%nat.
Proof. unfold size_of. repeat case_match; lia. Qed.

Section Grid.
Context (n : nat) (Hn : (2 <= n <= 5)%nat).

Lemma forallb_seq (f : nat → bool) m k : forallb f (seq 0 m) = true → (k < m)%nat → f k = true.
Proof. clear Hn. intros H Hk. rewrite forallb_forall in H. apply H, in_seq. lia. Qed.

Lemma length_quorum k : (k < n * n)%nat → length (quorum n k) = (2 * n - 1)%nat.
Proof.
  intros Hk. pose proof (grid_checks n Hn) as H. apply andb_true_iff in H as [H _].
  by apply Nat.eqb_eq, (forallb_seq (λ k, (length (quorum n k) =? 2 * n - 1)%nat) (n * n)).
Qed.

Lemma elem_of_quorum k m : m ∈ quorum n k ↔ (m < n * n)%nat ∧ in_quorum n k m = true.
Proof. clear Hn. unfold quorum. rewrite list_elem_of_In, filter_In, in_seq. intuition lia. Qed.

Lemma in_quorum_sym k m : in_quorum n k m = in_quorum n m k.
Proof. unfold in_quorum. by rewrite (Nat.eqb_sym (m / n)), (Nat.eqb_sym (m mod n)). Qed.

Lemma quorums_meet k m : (k < n * n)%nat → (m < n * n)%nat → ∃ a, a ∈ quorum n k ∧ a ∈ quorum n m.
Proof.
  intros Hk Hm. pose proof (grid_checks n Hn) as H. apply andb_true_iff in H as [_ H].
  apply (forallb_seq _ _ k) in H; [|done]. apply (forallb_seq _ _ m) in H; [|done].
  apply existsb_exists in H as (a & Ha & Hb). apply in_seq in Ha. apply andb_true_iff in Hb as [H1 H2].
  exists a. rewrite !elem_of_quorum. repeat split; (done || lia).
Qed.

Lemma NoDup_quorum k : NoDup (quorum n k).
Proof. apply NoDup_ListNoDup, List.NoDup_filter, seq_NoDup. Qed.

End Grid.

(** ** Tokens and messages *)

(** Where the token of an arbiter is: not yet given; in the hand of the arbiter
    for [p]; in a reply to [p]; with [p]; in the release of [p]; with nobody. *)
Inductive token := TNone | THand (p : nat) | TGrant (p : nat) | THeld (p : nat) | TRel (p : nat) | TFree.

(** A message behind the requests: the reply of arbiter [a], or the release of [b]. *)
Inductive tag := TG (a : nat) | TR (b : nat).

#[export] Instance tag_eq_dec : EqDecision tag.
Proof. solve_decision. Defined.

(** For each arbiter: the requests not yet received, the other messages not yet
    received, its token, whom it has served, and who is queued. *)
Record ghost := Ghost {
  reqs : nat → list nat;
  tags : nat → list tag;
  tok : nat → token;
  served : nat → list nat;
  queued : nat → list nat }.

(** Whose turn it is. *)
Definition cur (t : token) : list nat :=
  match t with THand p | TGrant p | THeld p | TRel p => [p] | TNone | TFree => [] end.

(** [k] has received the reply of [a]. *)
Definition got (g : ghost) (k a : nat) : bool :=
  match tok g a with THeld p | TRel p => (p =? k)%nat | _ => false end || bool_decide (k ∈ served g a).

Section Inv.
Context (n : nat) (pid0 P1 : Z).
Abbreviation N := (n * n)%nat.
Abbreviation pid := (pid_of pid0).

Definition tag_value (k : nat) (t : tag) : Z := match t with TG _ => pid k | TR _ => RELEASE end.

(** What the messages and the local queues hold. *)
Record carried (g : ghost) (nd : nat → node) (bx : nat → list Z) : Prop := {
  ca_me : ∀ k, (k < N)%nat → me (nd k) = k;
  ca_box : ∀ k, (k < N)%nat → bx k = map pid (reqs g k) ++ map (tag_value k) (tags g k);
  ca_wf : ∀ k, (k < N)%nat → sq_wf (mq (nd k));
  ca_queue : ∀ k, (k < N)%nat → sq_items (mq (nd k)) = map pid (queued g k);
  ca_split : ∀ a, (a < N)%nat → quorum n a = served g a ++ cur (tok g a) ++ queued g a ++ reqs g a;
  ca_nodup : ∀ k, (k < N)%nat → NoDup (tags g k);
  ca_grant : ∀ k a, (k < N)%nat → TG a ∈ tags g k ↔ (a < N)%nat ∧ tok g a = TGrant k;
  ca_rel : ∀ k b, (k < N)%nat → TR b ∈ tags g k ↔ tok g k = TRel b }.

(** Collecting requests, between the barriers. *)
Definition collecting (g : ghost) (nd : nat → node) (k : nat) : Prop :=
  served g k = [] ∧ num (nd k) = 0 ∧ num_procs_done (nd k) = 0 ∧
  match mpc_of (nd k) with
  | First => tok g k = TNone ∧ queued g k = []
  | Reply v => ∃ p, tok g k = THand p ∧ v = pid p ∧ queued g k = []
  | Collect c => (∃ p, tok g k = TGrant p) ∧ length (queued g k) = c ∧ (c < 2 * n - 2)%nat
  | Meet2 => (∃ p, tok g k = TGrant p) ∧ reqs g k = []
  | _ => False
  end.

(** [k] has given back no token, or all of them. *)
Definition returned (g : ghost) (k a : nat) : Prop := tok g a = TRel k ∨ k ∈ served g a.
Definition unreleased (g : ghost) (k : nat) : Prop := ∀ a, (a < N)%nat → ¬ returned g k a.
Definition released (g : ghost) (k : nat) : Prop := ∀ a, a ∈ quorum n k → returned g k a.

(** The token is on its way. *)
Definition moving (t : token) : Prop := match t with TGrant _ | THeld _ | TRel _ => True | _ => False end.

Definition replying (g : ghost) (k : nat) (v : Z) : Prop :=
  (∃ p, tok g k = THand p ∧ v = pid p) ∨ tok g k = TFree ∧ queued g k = [] ∧ v = -1.

(** After the second barrier. *)
Definition running (g : ghost) (nd : nat → node) (k : nat) : Prop :=
  reqs g k = [] ∧ num (nd k) = Z.of_nat (length (List.filter (got g k) (quorum n k))) ∧
  match mpc_of (nd k) with
  | Wait => moving (tok g k) ∧ unreleased g k ∧ num (nd k) ≠ 2 * Z.of_nat n - 1 ∧
      num_procs_done (nd k) = Z.of_nat (length (served g k))
  | WaitReply v => replying g k v ∧ unreleased g k ∧ num (nd k) ≠ 2 * Z.of_nat n - 1 ∧
      num_procs_done (nd k) + 1 = Z.of_nat (length (served g k))
  | Leave todo => moving (tok g k) ∧ todo ≠ [] ∧
      (∃ sent, quorum n k = sent ++ todo ∧ ∀ a, a ∈ sent → returned g k a) ∧
      (∀ a, a ∈ todo → tok g a = THeld k) ∧
      num_procs_done (nd k) = Z.of_nat (length (served g k))
  | Serve => moving (tok g k) ∧ released g k ∧
      num_procs_done (nd k) = Z.of_nat (length (served g k))
  | ServeReply v => replying g k v ∧ released g k ∧
      num_procs_done (nd k) + 1 = Z.of_nat (length (served g k))
  | _ => False
  end.

(** The loop in which one process after the other asks: process [t] has asked
    [sent] and all before it are done. *)
Record asking (t : nat) (nd : nat → node) (bx : nat → list Z) : Prop := {
  as_turn : (t < N)%nat;
  as_rest : ∀ k, (k < N)%nat → k ≠ t → mpc_of (nd k) = Ask t [];
  as_sent : ∃ sent todo, mpc_of (nd t) = Ask t todo ∧ quorum n t = sent ++ todo ∧
    ∀ k, (k < N)%nat → bx k = map pid (List.filter (in_quorum n k) (seq 0 t) ++ (if decide (k ∈ sent) then [t] else []));
  as_node : ∀ k, (k < N)%nat → me (nd k) = k ∧ mq (nd k) = sq_init ∧ num (nd k) = 0 ∧ num_procs_done (nd k) = 0 }.

Record asked (nd : nat → node) (bx : nat → list Z) : Prop := {
  ad_pc : ∀ k, (k < N)%nat → mpc_of (nd k) = Meet;
  ad_box : ∀ k, (k < N)%nat → bx k = map pid (quorum n k);
  ad_node : ∀ k, (k < N)%nat → me (nd k) = k ∧ mq (nd k) = sq_init ∧ num (nd k) = 0 ∧ num_procs_done (nd k) = 0 }.

Inductive inv (nd : nat → node) (bx : nat → list Z) : Prop :=
  | I_ask t : asking t nd bx → inv nd bx
  | I_asked : asked nd bx → inv nd bx
  | I_collect g : carried g nd bx → (∀ k, (k < N)%nat → collecting g nd k) → inv nd bx
  | I_run g : carried g nd bx → (∀ k, (k < N)%nat → running g nd k) → inv nd bx.

(** ** Steps *)

(** The message a process is about to send. *)
Definition sends (nd : node) : option (Z * Z) :=
  match mpc_of nd with
  | Ask _ (x :: _) => Some (pid x, pid (me nd))
  | Reply v | WaitReply v | ServeReply v => Some (v, v)
  | Leave (x :: _) => Some (pid x, RELEASE)
  | _ => None
  end.

Definition receives (nd : node) : bool := match mpc_of nd with First | Collect _ | Wait | Serve => true | _ => false end.
Definition meets (nd : node) : bool := match mpc_of nd with Ask _ [] | Meet | Meet2 => true | _ => false end.

Inductive vstep (nd : nat → node) (bx : nat → list Z) : (nat → node) → (nat → list Z) → Prop :=
  | V_send k x v w : (k < N)%nat → (x < N)%nat → sends (nd k) = Some (pid x, v) →
      vstep nd bx (<[k := after n pid0 P1 (nd k) w]> nd) (<[x := bx x ++ [v]]> bx)
  | V_recv k v r : (k < N)%nat → receives (nd k) = true → bx k = v :: r →
      vstep nd bx (<[k := after n pid0 P1 (nd k) v]> nd) (<[k := r]> bx)
  | V_meet w : (∀ k, (k < N)%nat → meets (nd k) = true) →
      vstep nd bx (λ k, after n pid0 P1 (nd k) w) bx.

End Inv.
