(* ===== verification/MaekawaSteps.v ===== *)
(** * Every step of Maekawa's algorithm keeps the invariant *)

From stdpp Require Import functions.
From S2P Require Import Prelude Memory Layout FsLayout Spinlock Ring Mailbox MailboxProps MsgSystem Maekawa MaekawaInv.

(** Look a function up that was changed at one place. *)
Ltac fn :=
  repeat match goal with
  | |- context [(<[?k := _]> _) ?k] => rewrite fn_lookup_insert
  | H : context [(<[?k := _]> _) ?k] |- _ => rewrite fn_lookup_insert in H
  | H : ?k ≠ ?j |- context [(<[?k := _]> _) ?j] => rewrite fn_lookup_insert_ne by done
  | H : ?j ≠ ?k |- context [(<[?k := _]> _) ?j] => rewrite fn_lookup_insert_ne by (by apply not_eq_sym)
  end.

Section Steps.
#[local] Set Default Proof Using "All".
Context (n : nat) (pid0 P1 : Z) (Hn : (2 <= n <= 5)%nat) (Hp0 : 0 < pid0) (Hp1 : pid0 + Z.of_nat (n * n) <= 64).
Abbreviation N := (n * n)%nat.
Abbreviation pid := (pid_of pid0).

Lemma pid_inj j k : pid j = pid k → j = k.
Proof. unfold pid_of. lia. Qed.

Lemma pid_range k : (k < N)%nat → 0 < pid k < 64.
Proof. unfold pid_of. lia. Qed.

(** ** Asking *)

Lemma ask_send t nd bx k x v w : asking n pid0 t nd bx → (k < N)%nat → sends pid0 (nd k) = Some (pid x, v) →
  asking n pid0 t (<[k := after n pid0 P1 (nd k) w]> nd) (<[x := bx x ++ [v]]> bx).
Proof.
  intros [Ht Hrest (sent & todo & Epc & Eq & Hbx) Hnode] Hk Hs.
  assert (k = t) as ->.
  { destruct (decide (k = t)) as [|Hne]; [done|]. unfold sends in Hs. by rewrite (Hrest k Hk Hne) in Hs. }
  unfold sends in Hs. rewrite Epc in Hs. destruct todo as [|x' todo]; [done|]. destruct (Hnode t Ht) as (Hme & Hmq & Hnum & Hd).
  rewrite Hme in Hs. assert (x' = x ∧ v = pid t) as [-> ->] by (injection Hs as E <-; by apply pid_inj in E).
  assert (Hx : x ∉ sent).
  { intros Hin. pose proof (NoDup_quorum n t) as Hnd. rewrite Eq in Hnd. apply NoDup_app in Hnd as (_ & Hnd & _).
    apply (Hnd x Hin). by left. }
  split; [done|..].
  - intros j Hj Hne. fn. by apply Hrest.
  - exists (sent ++ [x]), todo. fn. split_and!; [by unfold after; rewrite Epc|by rewrite <- app_assoc|].
    intros j Hj. destruct (decide (j = x)) as [->|Hne].
    + fn. rewrite Hbx, decide_False, decide_True by (done || (apply elem_of_app; right; by left)).
      by rewrite app_nil_r, map_app.
    + fn. rewrite Hbx by done. f_equal. f_equal. apply decide_ext. rewrite elem_of_app, list_elem_of_singleton. intuition.
  - intros j Hj. destruct (decide (j = t)) as [->|Hne]; fn; [|by apply Hnode]. unfold after. by rewrite Epc.
Qed.

Lemma ask_no_recv t nd bx k : asking n pid0 t nd bx → (k < N)%nat → receives (nd k) = false.
Proof.
  intros [Ht Hrest (sent & todo & Epc & _) _] Hk. unfold receives.
  destruct (decide (k = t)) as [->|Hne]; [by rewrite Epc|by rewrite Hrest].
Qed.

Lemma filter_turn k t : (k < N)%nat → (t < N)%nat →
  List.filter (in_quorum n k) (seq 0 t) ++ (if decide (k ∈ quorum n t) then [t] else []) =
  List.filter (in_quorum n k) (seq 0 (S t)).
Proof.
  intros Hk Ht. rewrite seq_S, List.filter_app. f_equal. cbn. case_decide as E.
  - apply elem_of_quorum in E as [_ E]. rewrite in_quorum_sym in E. by rewrite E.
  - destruct (in_quorum n k t) eqn:Eq; [|done]. destruct E. apply elem_of_quorum. by rewrite in_quorum_sym.
Qed.

Lemma ask_meet t nd bx w : asking n pid0 t nd bx → (∀ k, (k < N)%nat → meets (nd k) = true) →
  inv n pid0 (λ k, after n pid0 P1 (nd k) w) bx.
Proof.
  intros [Ht Hrest (sent & todo & Epc & Eq & Hbx) Hnode] Hm.
  assert (todo = []) as ->. { specialize (Hm t Ht). unfold meets in Hm. rewrite Epc in Hm. by destruct todo. }
  rewrite app_nil_r in Eq. subst sent.
  assert (Hall : ∀ k, (k < N)%nat → mpc_of (nd k) = Ask t []).
  { intros k Hk. destruct (decide (k = t)) as [->|Hne]; [done|by apply Hrest]. }
  assert (Haf : ∀ k, (k < N)%nat → after n pid0 P1 (nd k) w = goto (if (S t <? N)%nat then ask n (S t) k else Meet) (nd k)).
  { intros k Hk. unfold after. rewrite Hall by done. by destruct (Hnode k Hk) as [-> _]. }
  destruct (Nat.ltb_spec (S t) N) as [Hlt|Hge].
  - apply (I_ask _ _ _ _ (S t)). split; [done|..].
    + intros k Hk Hne. rewrite Haf by done. cbn. unfold ask. by rewrite (proj2 (Nat.eqb_neq _ _)).
    + exists [], (quorum n (S t)). rewrite Haf by done. cbn. unfold ask. rewrite Nat.eqb_refl. split_and!; [done..|].
      intros k Hk. rewrite Hbx by done. rewrite filter_turn, decide_False by (done || apply not_elem_of_nil). by rewrite app_nil_r.
    + intros k Hk. rewrite Haf by done. by apply Hnode.
  - apply I_asked. split.
    + intros k Hk. by rewrite Haf by done.
    + intros k Hk. rewrite Hbx, filter_turn by done. unfold quorum. by replace N with (S t) by lia.
    + intros k Hk. rewrite Haf by done. by apply Hnode.
Qed.

Lemma asked_meet nd bx w : asked n pid0 nd bx → inv n pid0 (λ k, after n pid0 P1 (nd k) w) bx.
Proof.
  intros [Hpc Hbx Hnode].
  assert (Haf : ∀ k, (k < N)%nat → after n pid0 P1 (nd k) w = goto First (nd k)).
  { intros k Hk. unfold after. by rewrite Hpc. }
  apply (I_collect _ _ _ _ (Ghost (quorum n) (λ _, []) (λ _, TNone) (λ _, []) (λ _, []))).
  - split; cbn; intros k; intros; rewrite ?Haf by done; cbn; try (by destruct (Hnode k) as (? & -> & _)); try done.
    + by apply Hnode.
    + by rewrite app_nil_r, Hbx.
    + constructor.
    + split; [by intros ?%not_elem_of_nil|by intros [_ ?]].
    + split; [by intros ?%not_elem_of_nil|done].
  - intros k Hk. destruct (Hnode k Hk) as (_ & _ & ? & ?). unfold collecting. rewrite !Haf by done. by cbn.
Qed.

(** ** Messages *)

Lemma split_member g nd bx a p : carried n pid0 g nd bx → (a < N)%nat → p ∈ cur (tok g a) → p ∈ quorum n a ∧ (p < N)%nat.
Proof.
  intros C Ha Hp. assert (H : p ∈ quorum n a).
  { rewrite (ca_split _ _ _ _ _ C a Ha), !elem_of_app. auto. }
  split; [done|]. by apply elem_of_quorum in H as [? _].
Qed.

(** The reply that hands the token on. *)
Lemma carry_reply g nd bx k p nd' : carried n pid0 g nd bx → (k < N)%nat → tok g k = THand p →
  me nd' = k → mq nd' = mq (nd k) →
  carried n pid0 (Ghost (reqs g) (<[p := tags g p ++ [TG k]]> (tags g)) (<[k := TGrant p]> (tok g)) (served g) (queued g))
    (<[k := nd']> nd) (<[p := bx p ++ [pid p]]> bx).
Proof.
  intros C Hk Ht Hme Hmq. destruct (split_member g nd bx k p C Hk) as [_ Hp]; [by rewrite Ht; left|].
  destruct C as [Cme Cbox Cwf Cq Cs Cnd Cg Cr]. split; cbn [reqs tags tok served queued].
  - intros j Hj. destruct (decide (j = k)) as [->|Hne]; fn; [done|by apply Cme].
  - intros j Hj. destruct (decide (j = p)) as [->|Hne]; fn; [|by apply Cbox].
    rewrite Cbox, map_app, <- app_assoc by done. done.
  - intros j Hj. destruct (decide (j = k)) as [->|Hne]; fn; [rewrite Hmq|]; by apply Cwf.
  - intros j Hj. destruct (decide (j = k)) as [->|Hne]; fn; [rewrite Hmq|]; by apply Cq.
  - intros a Ha. rewrite (Cs a Ha). destruct (decide (a = k)) as [->|Hne]; fn; [by rewrite Ht|done].
  - intros j Hj. destruct (decide (j = p)) as [->|Hne]; fn; [|by apply Cnd]. apply NoDup_app. split; [by apply Cnd|].
    split; [|apply NoDup_singleton]. intros y Hy ->%list_elem_of_singleton. apply Cg in Hy as [_ Hy]; [congruence|done].
  - intros j a Hj. assert (Hin : TG a ∈ (<[p := tags g p ++ [TG k]]> (tags g)) j ↔ TG a ∈ tags g j ∨ j = p ∧ a = k).
    { destruct (decide (j = p)) as [->|Hne]; fn; [rewrite elem_of_app, list_elem_of_singleton|]; naive_solver. }
    rewrite Hin, Cg by done. destruct (decide (a = k)) as [->|Hne]; fn.
    + rewrite Ht. split; [by intros [[_ ?]|[-> _]]|intros [_ [= ->]]; by right].
    + split; [by intros [?|[_ ?]]|by left].
  - intros j b Hj. assert (Hin : TR b ∈ (<[p := tags g p ++ [TG k]]> (tags g)) j ↔ TR b ∈ tags g j).
    { destruct (decide (j = p)) as [->|Hne]; fn; [rewrite elem_of_app, list_elem_of_singleton|]; naive_solver. }
    rewrite Hin, Cr by done. destruct (decide (j = k)) as [->|Hne]; fn; [rewrite Ht; by split|done].
Qed.

(** A request is received. *)
Lemma carry_request g nd bx k p r t' q' nd' : carried n pid0 g nd bx → (k < N)%nat → reqs g k = p :: r →
  cur (tok g k) ++ queued g k ++ [p] = cur t' ++ q' →
  (∀ j, t' = TGrant j ↔ tok g k = TGrant j) → (∀ j, t' ≠ TRel j ∧ tok g k ≠ TRel j) →
  me nd' = k → sq_wf (mq nd') → sq_items (mq nd') = map pid q' →
  carried n pid0 (Ghost (<[k := r]> (reqs g)) (tags g) (<[k := t']> (tok g)) (served g) (<[k := q']> (queued g)))
    (<[k := nd']> nd) (<[k := map pid r ++ map (tag_value pid0 k) (tags g k)]> bx).
Proof.
  intros C Hk Hr Hq Hg Hrel Hme Hwf Hitems. destruct C as [Cme Cbox Cwf Cq Cs Cnd Cg Cr]. split; cbn [reqs tags tok served queued].
  - intros j Hj. destruct (decide (j = k)) as [->|Hne]; fn; [done|by apply Cme].
  - intros j Hj. destruct (decide (j = k)) as [->|Hne]; fn; [done|by apply Cbox].
  - intros j Hj. destruct (decide (j = k)) as [->|Hne]; fn; [done|by apply Cwf].
  - intros j Hj. destruct (decide (j = k)) as [->|Hne]; fn; [done|by apply Cq].
  - intros a Ha. rewrite (Cs a Ha). destruct (decide (a = k)) as [->|Hne]; fn; [|done].
    rewrite Hr. f_equal. rewrite (app_assoc (cur t')), <- Hq, <- !app_assoc. done.
  - done.
  - intros j a Hj. rewrite Cg by done. destruct (decide (a = k)) as [->|Hne]; fn; [by rewrite Hg|done].
  - intros j b Hj. rewrite Cr by done. destruct (decide (j = k)) as [->|Hne]; fn; [|done].
    destruct (Hrel b). by split.
Qed.

(** The head of the box while requests are in it. *)
Lemma box_request g nd bx k p r v l : carried n pid0 g nd bx → (k < N)%nat → reqs g k = p :: r → bx k = v :: l →
  v = pid p ∧ l = map pid r ++ map (tag_value pid0 k) (tags g k).
Proof. intros C Hk Hr Hb. rewrite (ca_box _ _ _ _ _ C k Hk), Hr in Hb. by injection Hb as -> <-. Qed.

(** ** Collecting *)

Lemma collecting_frame g g' nd nd' k : collecting n pid0 g nd k → nd' k = nd k → tok g' k = tok g k →
  served g' k = served g k → queued g' k = queued g k → reqs g' k = reqs g k → collecting n pid0 g' nd' k.
Proof. unfold collecting. by intros H -> -> -> -> ->. Qed.

Lemma collect_send g nd bx k x v w : carried n pid0 g nd bx → (∀ k, (k < N)%nat → collecting n pid0 g nd k) →
  (k < N)%nat → sends pid0 (nd k) = Some (pid x, v) →
  inv n pid0 (<[k := after n pid0 P1 (nd k) w]> nd) (<[x := bx x ++ [v]]> bx).
Proof.
  intros C HC Hk Hs. destruct (HC k Hk) as (Hserved & Hnum & Hdone & Hpc). unfold sends in Hs.
  destruct (mpc_of (nd k)) eqn:Epc; try done. destruct Hpc as (p & Ht & -> & Hq). injection Hs as E <-.
  apply pid_inj in E as <-.
  assert (Haf : after n pid0 P1 (nd k) w = goto (Collect 0) (nd k)).
  { unfold after. rewrite Epc. by rewrite (proj2 (Nat.ltb_lt 0 (2 * n - 2))) by lia. }
  pose proof (carry_reply g nd bx k p (after n pid0 P1 (nd k) w) C Hk Ht) as C'. rewrite Haf in C' |- *.
  specialize (C' (ca_me _ _ _ _ _ C k Hk) eq_refl). eapply I_collect; [exact C'|].
  intros j Hj. destruct (decide (j = k)) as [->|Hne].
  - unfold collecting. cbn [tok served queued reqs]. fn. cbn. split_and!; try done; [by exists p|by rewrite Hq|lia].
  - eapply collecting_frame; [by apply HC|by fn|cbn; by fn|done..].
Qed.

Lemma collect_recv g nd bx k v l : carried n pid0 g nd bx → (∀ k, (k < N)%nat → collecting n pid0 g nd k) →
  (k < N)%nat → receives (nd k) = true → bx k = v :: l →
  inv n pid0 (<[k := after n pid0 P1 (nd k) v]> nd) (<[k := l]> bx).
Proof.
  intros C HC Hk Hr Hb. destruct (HC k Hk) as (Hserved & Hnum & Hdone & Hpc). unfold receives in Hr.
  pose proof (ca_split _ _ _ _ _ C k Hk) as Hs. pose proof (length_quorum n Hn k Hk) as Hlen. rewrite Hs, Hserved in Hlen.
  assert (∃ p r, reqs g k = p :: r) as (p & r & Er).
  { destruct (reqs g k) as [|p r] eqn:E; [exfalso|eauto]. rewrite app_nil_r in Hlen.
    destruct (mpc_of (nd k)); try done.
    - destruct Hpc as [Ht Hq]. rewrite Ht, Hq in Hlen. cbn in Hlen. lia.
    - destruct Hpc as ((q & Ht) & Hq & Hlt). rewrite Ht in Hlen. cbn in Hlen. lia. }
  destruct (box_request g nd bx k p r v l C Hk Er Hb) as [-> ->].
  pose proof (pid_range p) as Hpid.
  assert (Hp : (p < N)%nat).
  { assert (Hin : p ∈ quorum n k) by (rewrite Hs, Er, !elem_of_app; right; right; right; by left). by apply elem_of_quorum in Hin as [? _]. }
  specialize (Hpid Hp). destruct (mpc_of (nd k)) eqn:Epc; try done.
  - destruct Hpc as [Ht Hq]. assert (Haf : after n pid0 P1 (nd k) (pid p) = goto (Reply (pid p)) (nd k)) by (unfold after; by rewrite Epc).
    eapply I_collect; [apply (carry_request g nd bx k p r (THand p) [])|].
    1-9: rewrite ?Haf, ?Ht, ?Hq; try done; try apply C; try done.
    { pose proof (ca_queue _ _ _ _ _ C k Hk) as E. by rewrite Hq in E. }
    intros j Hj. destruct (decide (j = k)) as [->|Hne].
    + unfold collecting. cbn [tok served queued reqs]. fn. rewrite Haf. cbn. split_and!; try done. by exists p.
    + eapply collecting_frame; [by apply HC|by fn|cbn; by fn..].
  - destruct Hpc as ((q & Ht) & Hq & Hlt).
    assert (Haf : after n pid0 P1 (nd k) (pid p) = goto (if (S p0 <? 2 * n - 2)%nat then Collect (S p0) else Meet2)
      (with_q (sq_enque (pid p) (mq (nd k))) (nd k))).
    { unfold after. rewrite Epc. by rewrite (proj2 (Z.eqb_neq (pid p) (-1))) by lia. }
    destruct (sq_enque_ok (pid p) (mq (nd k))) as [W' I']; [by apply C|rewrite (ca_queue _ _ _ _ _ C k Hk), length_map; lia|].
    eapply I_collect; [apply (carry_request g nd bx k p r (TGrant q) (queued g k ++ [p]))|].
    1-9: rewrite ?Haf, ?Ht; try done; try apply C; try done.
    { cbn. rewrite I', (ca_queue _ _ _ _ _ C k Hk), map_app. done. }
    intros j Hj. destruct (decide (j = k)) as [->|Hne].
    + unfold collecting. cbn [tok served queued reqs]. fn. rewrite Haf. cbn [goto with_q mpc_of num num_procs_done].
      split_and!; try done. rewrite Ht, Er in Hlen. cbn in Hlen. rewrite length_app in Hlen. cbn in Hlen.
      destruct (Nat.ltb_spec (S p0) (2 * n - 2)).
      * split; [by exists q|]. split; [|done]. rewrite length_app. cbn. lia.
      * split; [by exists q|]. destruct r; [done|]. cbn in Hlen. lia.
    + eapply collecting_frame; [by apply HC|by fn|cbn; by fn..].
Qed.

Lemma filter_none {A} (f : A → bool) l : (∀ x, x ∈ l → f x = false) → List.filter f l = [].
Proof.
  induction l as [|x l IH]; intros H; [done|]. cbn. rewrite (H x) by (by left). apply IH. intros y Hy. apply H. by right.
Qed.

Lemma collect_meet g nd bx w : carried n pid0 g nd bx → (∀ k, (k < N)%nat → collecting n pid0 g nd k) →
  (∀ k, (k < N)%nat → meets (nd k) = true) → inv n pid0 (λ k, after n pid0 P1 (nd k) w) bx.
Proof.
  intros C HC Hm.
  assert (Hpc : ∀ k, (k < N)%nat → mpc_of (nd k) = Meet2 ∧ (∃ p, tok g k = TGrant p) ∧ reqs g k = []).
  { intros k Hk. destruct (HC k Hk) as (_ & _ & _ & Hpc). specialize (Hm k Hk). unfold meets in Hm.
    by destruct (mpc_of (nd k)). }
  assert (Haf : ∀ k, (k < N)%nat → after n pid0 P1 (nd k) w = goto Wait (nd k)).
  { intros k Hk. unfold after. by destruct (Hpc k Hk) as [-> _]. }
  assert (Hback : ∀ k a, (a < N)%nat → ¬ returned g k a).
  { intros k a Ha [E|E]; destruct (Hpc a Ha) as (_ & (p & Ep) & _); [congruence|].
    destruct (HC a Ha) as (Es & _). rewrite Es in E. by apply not_elem_of_nil in E. }
  apply (I_run _ _ _ _ g).
  - destruct C as [Cme Cbox Cwf Cq Cs Cnd Cg Cr]. split; try done; intros k Hk; rewrite Haf by done; cbn; auto.
  - intros k Hk. destruct (Hpc k Hk) as (_ & (p & Ep) & Er). destruct (HC k Hk) as (Es & En & Ed & _).
    unfold running. rewrite Haf by done. cbn. rewrite Er, Ep, Es, En, Ed, filter_none.
    + split_and!; try done; [by intros a Ha; apply Hback|lia].
    + intros a Ha. apply elem_of_quorum in Ha as [Ha _]. destruct (Hpc a Ha) as (_ & (q & Eq) & _).
      unfold got. rewrite Eq. cbn. apply bool_decide_eq_false. intros E. apply (Hback k a Ha). by right.
Qed.

(** ** Messages after the second barrier *)

Lemma box_tag g nd bx k v l : carried n pid0 g nd bx → (k < N)%nat → reqs g k = [] → bx k = v :: l →
  ∃ t ts, tags g k = t :: ts ∧ v = tag_value pid0 k t ∧ l = map (tag_value pid0 k) ts.
Proof.
  intros C Hk Hr Hb. rewrite (ca_box _ _ _ _ _ C k Hk), Hr in Hb. cbn in Hb.
  destruct (tags g k) as [|t ts]; [done|]. injection Hb as <- <-. eauto.
Qed.

Lemma tags_rest g nd bx k t ts : carried n pid0 g nd bx → (k < N)%nat → tags g k = t :: ts → t ∉ ts ∧ NoDup ts.
Proof. intros C Hk E. pose proof (ca_nodup _ _ _ _ _ C k Hk) as H. rewrite E in H. by apply NoDup_cons in H. Qed.

(** A reply arrives: the receiver has the token. *)
Lemma carry_grant g nd bx k a ts nd' : carried n pid0 g nd bx → (k < N)%nat → reqs g k = [] → tags g k = TG a :: ts →
  me nd' = k → mq nd' = mq (nd k) →
  tok g a = TGrant k ∧ (a < N)%nat ∧
  carried n pid0 (Ghost (reqs g) (<[k := ts]> (tags g)) (<[a := THeld k]> (tok g)) (served g) (queued g))
    (<[k := nd']> nd) (<[k := map (tag_value pid0 k) ts]> bx).
Proof.
  intros C Hk Hr Et Hme Hmq. destruct (tags_rest g nd bx k _ _ C Hk Et) as [Hni Hnd].
  destruct C as [Cme Cbox Cwf Cq Cs Cnd Cg Cr].
  assert (Ha : (a < N)%nat ∧ tok g a = TGrant k) by (apply Cg; [done|]; rewrite Et; by left).
  destruct Ha as [Ha Ta]. split; [done|]. split; [done|]. split; cbn [reqs tags tok served queued].
  - intros j Hj. destruct (decide (j = k)) as [->|Hne]; fn; [done|by apply Cme].
  - intros j Hj. destruct (decide (j = k)) as [->|Hne]; fn; [by rewrite Hr|by apply Cbox].
  - intros j Hj. destruct (decide (j = k)) as [->|Hne]; fn; [rewrite Hmq|]; by apply Cwf.
  - intros j Hj. destruct (decide (j = k)) as [->|Hne]; fn; [rewrite Hmq|]; by apply Cq.
  - intros b Hb. rewrite (Cs b Hb). destruct (decide (b = a)) as [->|Hne]; fn; [by rewrite Ta|done].
  - intros j Hj. destruct (decide (j = k)) as [->|Hne]; fn; [done|by apply Cnd].
  - intros j b Hj. destruct (decide (b = a)) as [->|Hb].
    + fn. split; [|by intros [_ ?]]. intros Hin. exfalso. destruct (decide (j = k)) as [->|Hne]; fn; [done|].
      rewrite fn_lookup_insert_ne in Hin by done. apply Cg in Hin as [_ Hin]; [congruence|done].
    + rewrite (fn_lookup_insert_ne (tok g)) by done. rewrite <- Cg by done. destruct (decide (j = k)) as [->|Hne]; fn; [|done].
      rewrite Et, elem_of_cons. split; [by right|]. by intros [[= ->]|?].
  - intros j b Hj. assert (Hin : TR b ∈ (<[k := ts]> (tags g)) j ↔ TR b ∈ tags g j).
    { destruct (decide (j = k)) as [->|Hne]; fn; [|done]. rewrite Et, elem_of_cons. split; [by right|]. by intros [?|?]. }
    rewrite Hin, Cr by done. destruct (decide (j = a)) as [->|Hne]; fn; [rewrite Ta; by split|done].
Qed.

(** A release arrives: the next in the queue is at hand. *)
Lemma carry_back g nd bx k b ts t' q' nd' : carried n pid0 g nd bx → (k < N)%nat → reqs g k = [] → tags g k = TR b :: ts →
  queued g k = cur t' ++ q' → (∀ j, t' ≠ TGrant j ∧ t' ≠ TRel j) →
  me nd' = k → sq_wf (mq nd') → sq_items (mq nd') = map pid q' →
  tok g k = TRel b ∧
  carried n pid0 (Ghost (reqs g) (<[k := ts]> (tags g)) (<[k := t']> (tok g)) (<[k := served g k ++ [b]]> (served g)) (<[k := q']> (queued g)))
    (<[k := nd']> nd) (<[k := map (tag_value pid0 k) ts]> bx).
Proof.
  intros C Hk Hr Et Hq Ht' Hme Hwf Hitems. destruct (tags_rest g nd bx k _ _ C Hk Et) as [Hni Hnd].
  destruct C as [Cme Cbox Cwf Cq Cs Cnd Cg Cr].
  assert (Tk : tok g k = TRel b) by (apply Cr; [done|]; rewrite Et; by left). split; [done|].
  split; cbn [reqs tags tok served queued].
  - intros j Hj. destruct (decide (j = k)) as [->|Hne]; fn; [done|by apply Cme].
  - intros j Hj. destruct (decide (j = k)) as [->|Hne]; fn; [by rewrite Hr|by apply Cbox].
  - intros j Hj. destruct (decide (j = k)) as [->|Hne]; fn; [done|by apply Cwf].
  - intros j Hj. destruct (decide (j = k)) as [->|Hne]; fn; [done|by apply Cq].
  - intros a Ha. rewrite (Cs a Ha). destruct (decide (a = k)) as [->|Hne]; fn; [|done].
    rewrite Tk, Hq. cbn [cur]. by rewrite <- !app_assoc.
  - intros j Hj. destruct (decide (j = k)) as [->|Hne]; fn; [done|by apply Cnd].
  - intros j a Hj. assert (Hin : TG a ∈ (<[k := ts]> (tags g)) j ↔ TG a ∈ tags g j).
    { destruct (decide (j = k)) as [->|Hne]; fn; [|done]. rewrite Et, elem_of_cons. split; [by right|]. by intros [?|?]. }
    rewrite Hin, Cg by done. destruct (decide (a = k)) as [->|Hne]; fn; [|done]. rewrite Tk.
    split; [by intros [_ ?]|]. intros [_ ?]. by destruct (Ht' j).
  - intros j a Hj. destruct (decide (j = k)) as [->|Hne]; fn; [|by apply Cr].
    split; [|intros ?; by destruct (Ht' a)]. intros Hin. exfalso.
    assert (Hin' : TR a ∈ tags g k) by (rewrite Et; by right). apply Cr in Hin'; [|done].
    rewrite Tk in Hin'. injection Hin' as <-. done.
Qed.

(** A release is sent. *)
Lemma carry_release g nd bx k x nd' : carried n pid0 g nd bx → (k < N)%nat → (x < N)%nat → tok g x = THeld k →
  me nd' = k → mq nd' = mq (nd k) →
  carried n pid0 (Ghost (reqs g) (<[x := tags g x ++ [TR k]]> (tags g)) (<[x := TRel k]> (tok g)) (served g) (queued g))
    (<[k := nd']> nd) (<[x := bx x ++ [RELEASE]]> bx).
Proof.
  intros C Hk Hx Ht Hme Hmq. destruct C as [Cme Cbox Cwf Cq Cs Cnd Cg Cr]. split; cbn [reqs tags tok served queued].
  - intros j Hj. destruct (decide (j = k)) as [->|Hne]; fn; [done|by apply Cme].
  - intros j Hj. destruct (decide (j = x)) as [->|Hne]; fn; [|by apply Cbox].
    rewrite Cbox, map_app, <- app_assoc by done. done.
  - intros j Hj. destruct (decide (j = k)) as [->|Hne]; fn; [rewrite Hmq|]; by apply Cwf.
  - intros j Hj. destruct (decide (j = k)) as [->|Hne]; fn; [rewrite Hmq|]; by apply Cq.
  - intros a Ha. rewrite (Cs a Ha). destruct (decide (a = x)) as [->|Hne]; fn; [by rewrite Ht|done].
  - intros j Hj. destruct (decide (j = x)) as [->|Hne]; fn; [|by apply Cnd]. apply NoDup_app. split; [by apply Cnd|].
    split; [|apply NoDup_singleton]. intros y Hy ->%list_elem_of_singleton. apply Cr in Hy; [congruence|done].
  - intros j a Hj. assert (Hin : TG a ∈ (<[x := tags g x ++ [TR k]]> (tags g)) j ↔ TG a ∈ tags g j).
    { destruct (decide (j = x)) as [->|Hne]; fn; [rewrite elem_of_app, list_elem_of_singleton|]; naive_solver. }
    rewrite Hin, Cg by done. destruct (decide (a = x)) as [->|Hne]; fn; [|done]. rewrite Ht. split; by intros [_ ?].
  - intros j b Hj. destruct (decide (j = x)) as [->|Hne]; fn; [|by apply Cr].
    rewrite elem_of_app, list_elem_of_singleton, Cr, Ht by done. split; [by intros [?|[= ->]]|]. intros [= ->]. by right.
Qed.

(** ** Running *)

Lemma running_frame g g' nd nd' j : running n pid0 g nd j → nd' j = nd j → reqs g' j = reqs g j →
  served g' j = served g j → queued g' j = queued g j →
  tok g' j = tok g j ∨ moving (tok g j) ∧ moving (tok g' j) →
  (∀ a, (a < N)%nat → got g' j a = got g j a) →
  (∀ a, (a < N)%nat → returned g' j a ↔ returned g j a) →
  (∀ a, (a < N)%nat → tok g a = THeld j → tok g' a = THeld j) →
  running n pid0 g' nd' j.
Proof.
  intros (Hr & Hnum & Hpc) En Er Es Eq Et Hgot Hret Hheld.
  assert (Hmv : moving (tok g j) → moving (tok g' j)) by (destruct Et as [->|[_ ?]]; done).
  assert (Hrp : ∀ v, replying pid0 g j v → replying pid0 g' j v).
  { intros v H. unfold replying in *. rewrite Eq. destruct Et as [->|[Hm _]]; [done|]. exfalso.
    destruct H as [(p & E & _)|(E & _)]; by rewrite E in Hm. }
  assert (Hf : List.filter (got g' j) (quorum n j) = List.filter (got g j) (quorum n j)).
  { apply List.filter_ext_in. intros a Ha%list_elem_of_In. apply elem_of_quorum in Ha as [Ha _]. by apply Hgot. }
  assert (Hun : unreleased n g j → unreleased n g' j) by (intros H a Ha; rewrite Hret by done; by apply H).
  assert (Hre : ∀ a, a ∈ quorum n j → returned g j a → returned g' j a).
  { intros a Ha. apply elem_of_quorum in Ha as [Ha _]. by apply Hret. }
  unfold running. rewrite En, Er, Es, Hf. split; [done|]. split; [done|].
  destruct (mpc_of (nd j)) as [| | | | | | |v|todo| |v|]; try done.
  - destruct Hpc as (H1 & H2 & H3). split; [by apply Hmv|]. split; [by apply Hun|done].
  - destruct Hpc as (H1 & H2 & H3). split; [by apply Hrp|]. split; [by apply Hun|done].
  - destruct Hpc as (H1 & H2 & (sent & Eqm & Hsent) & Htodo & H5). split; [by apply Hmv|]. split; [done|].
    assert (Hin : ∀ a, a ∈ sent ∨ a ∈ todo → a ∈ quorum n j) by (intros a Ha; by rewrite Eqm, elem_of_app).
    split; [exists sent; split; [done|]; intros a Ha; apply Hre; [by apply Hin; left|by apply Hsent]|].
    split; [|done]. intros a Ha. apply Hheld; [|by apply Htodo]. apply elem_of_quorum with j, Hin. by right.
  - destruct Hpc as (H1 & H2 & H3). split; [by apply Hmv|]. split; [|done]. intros a Ha. apply Hre; [done|by apply H2].
  - destruct Hpc as (H1 & H2 & H3). split; [by apply Hrp|]. split; [|done]. intros a Ha. apply Hre; [done|by apply H2].
Qed.

(** Which process a token has reached. *)
Definition with_ (t : token) (j : nat) : bool := match t with THeld p | TRel p => (p =? j)%nat | _ => false end.

(** A token that changes its state. *)
Lemma got_tok g g' c t' j a : served g' = served g → tok g' = <[c := t']> (tok g) → with_ t' j = with_ (tok g c) j →
  got g' j a = got g j a.
Proof.
  intros Es Et Hw. unfold got. rewrite Es, Et. destruct (decide (a = c)) as [->|Hne]; fn; [|done]. f_equal. exact Hw.
Qed.

Lemma returned_tok g g' c t' j a : served g' = served g → tok g' = <[c := t']> (tok g) →
  (t' = TRel j ↔ tok g c = TRel j) → returned g' j a ↔ returned g j a.
Proof.
  intros Es Et Hw. unfold returned. rewrite Es, Et. destruct (decide (a = c)) as [->|Hne]; fn; [by rewrite Hw|done].
Qed.

(** The head of [quorum] that has been served is shorter while somebody waits. *)
Lemma served_short g nd bx k : carried n pid0 g nd bx → (k < N)%nat → cur (tok g k) ≠ [] →
  (length (served g k) < 2 * n - 1)%nat.
Proof.
  intros C Hk Hc. pose proof (length_quorum n Hn k Hk) as H. rewrite (ca_split _ _ _ _ _ C k Hk), !length_app in H.
  destruct (cur (tok g k)); [done|]. cbn in H. lia.
Qed.

Lemma run_reply g nd bx k p w : carried n pid0 g nd bx → (∀ k, (k < N)%nat → running n pid0 g nd k) → (k < N)%nat →
  mpc_of (nd k) = WaitReply (pid p) ∨ mpc_of (nd k) = ServeReply (pid p) → (p < N)%nat →
  inv n pid0 (<[k := after n pid0 P1 (nd k) w]> nd) (<[p := bx p ++ [pid p]]> bx).
Proof.
  intros C HR Hk Hpc Hp. destruct (HR k Hk) as (Hr & Hnum & Hst).
  pose proof (ca_me _ _ _ _ _ C k Hk) as Hme.
  assert (Hrep : replying pid0 g k (pid p)) by (destruct Hpc as [E|E]; rewrite E in Hst; by destruct Hst as (? & _)).
  assert (Ht : tok g k = THand p).
  { destruct Hrep as [(q & E & Eq)|(_ & _ & E)]; [apply pid_inj in Eq; by subst q|].
    pose proof (pid_range p Hp). lia. }
  pose proof (served_short g nd bx k C Hk) as Hshort. rewrite Ht in Hshort. specialize (Hshort ltac:(done)).
  pose proof (carry_reply g nd bx k p (after n pid0 P1 (nd k) w) C Hk Ht) as C'.
  set (g' := Ghost _ _ _ _ _) in C'. set (nd' := after n pid0 P1 (nd k) w) in *.
  assert (Hgot : ∀ j a, got g' j a = got g j a) by (intros; apply (got_tok g g' k (TGrant p)); [done..|by rewrite Ht]).
  assert (Hret : ∀ j a, returned g' j a ↔ returned g j a).
  { intros. apply (returned_tok g g' k (TGrant p)); [done..|rewrite Ht; by split]. }
  assert (Hf : List.filter (got g' k) (quorum n k) = List.filter (got g k) (quorum n k)) by (apply List.filter_ext; auto).
  assert (me nd' = k ∧ mq nd' = mq (nd k) ∧ running n pid0 g' (<[k := nd']> nd) k) as (E1 & E2 & Hrun).
  { unfold running. fn. rewrite Hf. subst nd'. unfold after.
    destruct Hpc as [E|E]; rewrite E in *; destruct Hst as (_ & Hrel & Hst).
    - destruct Hst as [Hn' Hd]. unfold wait_more. cbn [bump_done num me]. rewrite (proj2 (Z.eqb_neq _ _)) by done.
      split; [done|]. split; [done|]. cbn. rewrite fn_lookup_insert. split_and!; try done.
      intros a Ha. rewrite Hret. by apply Hrel.
    - unfold serve_more. cbn [bump_done num_procs_done me]. rewrite (proj2 (Z.leb_gt _ _)) by lia.
      split; [done|]. split; [done|]. cbn. rewrite fn_lookup_insert. split_and!; try done.
      intros a Ha. rewrite Hret. by apply Hrel. }
  apply (I_run _ _ _ _ g'); [by apply C'|]. intros j Hj. destruct (decide (j = k)) as [->|Hne]; [done|].
  eapply running_frame; [by apply HR|by fn|done..| | | |].
  - left. subst g'. cbn. by fn.
  - auto.
  - auto.
  - intros a Ha Hh. subst g'. cbn. destruct (decide (a = k)) as [->|Hna]; fn; [congruence|done].
Qed.

(** ** Releases *)

Lemma run_release g nd bx k x todo w : carried n pid0 g nd bx → (∀ k, (k < N)%nat → running n pid0 g nd k) → (k < N)%nat →
  mpc_of (nd k) = Leave (x :: todo) → (x < N)%nat →
  inv n pid0 (<[k := after n pid0 P1 (nd k) w]> nd) (<[x := bx x ++ [RELEASE]]> bx).
Proof.
  intros C HR Hk Hpc Hx. destruct (HR k Hk) as (Hr & Hnum & Hst). rewrite Hpc in Hst.
  destruct Hst as (Hmv & _ & (sent & Eq & Hsent) & Htodo & Hd).
  pose proof (Htodo x ltac:(by left)) as Tx. pose proof (ca_me _ _ _ _ _ C k Hk) as Hme.
  assert (Haf : after n pid0 P1 (nd k) w = goto (match todo with [] => Serve | _ => Leave todo end) (nd k)).
  { unfold after. rewrite Hpc. by destruct todo. }
  pose proof (carry_release g nd bx k x (after n pid0 P1 (nd k) w) C Hk Hx Tx) as C'. rewrite Haf in C' |- *.
  specialize (C' Hme eq_refl). set (g' := Ghost _ _ _ _ _) in C'.
  assert (Hgot : ∀ j a, got g' j a = got g j a) by (intros; apply (got_tok g g' x (TRel k)); [done..|by rewrite Tx]).
  assert (Hx' : returned g' k x) by (left; subst g'; cbn; by fn).
  assert (Hkeep : ∀ a, returned g k a → returned g' k a).
  { intros a [E|E]; [left|by right]. subst g'. cbn. destruct (decide (a = x)) as [->|Hne]; fn; [congruence|done]. }
  assert (Hnd : x ∉ todo).
  { pose proof (NoDup_quorum n k) as Hnd. rewrite Eq in Hnd. apply NoDup_app in Hnd as (_ & _ & Hnd). by apply NoDup_cons in Hnd as [? _]. }
  apply (I_run _ _ _ _ g'); [exact C'|]. intros j Hj. destruct (decide (j = k)) as [->|Hne].
  - unfold running. fn. cbn [goto num num_procs_done mpc_of]. split; [done|].
    split; [by rewrite Hnum; f_equal; f_equal; apply List.filter_ext|].
    assert (Hmv' : moving (tok g' k)).
    { subst g'. cbn. destruct (decide (k = x)) as [->|Hne]; fn; done. }
    assert (Hall : ∀ a, a ∈ sent ++ [x] → returned g' k a).
    { intros a [Ha|Ha%list_elem_of_singleton]%elem_of_app; [by apply Hkeep, Hsent|by subst a]. }
    destruct todo as [|y todo].
    + split; [done|]. split; [|done]. intros a Ha. apply Hall. by rewrite Eq in Ha.
    + split; [done|]. split; [done|]. split; [exists (sent ++ [x]); split; [by rewrite <- app_assoc|done]|]. split; [|done].
      intros a Ha. subst g'. cbn. destruct (decide (a = x)) as [->|Hna]; [done|]. fn. apply Htodo. by right.
  - eapply running_frame; [by apply HR|by fn|done..| | | |].
    + subst g'. cbn. destruct (decide (j = x)) as [->|Hnx]; fn; [right; by rewrite Tx|by left].
    + auto.
    + intros a Ha. apply (returned_tok g g' x (TRel k)); [done..|]. rewrite Tx. split; [by intros [= ->]|done].
    + intros a Ha Hh. subst g'. cbn. destruct (decide (a = x)) as [->|Hna]; fn; [congruence|done].
Qed.

(** ** A reply arrives *)

Lemma filter_add {A} (f f' : A → bool) l a : NoDup l → a ∈ l → f a = false → f' a = true → (∀ b, b ≠ a → f' b = f b) →
  length (List.filter f' l) = S (length (List.filter f l)).
Proof.
  intros Hnd Ha Hf Hf' Hb. induction Hnd as [|x l Hx Hnd IH]; [by apply not_elem_of_nil in Ha|].
  apply elem_of_cons in Ha as [->|Ha]; cbn.
  - rewrite Hf, Hf'. cbn. do 2 f_equal. apply List.filter_ext_in. intros y Hy%list_elem_of_In. apply Hb. congruence.
  - rewrite (Hb x) by congruence. destruct (f x); cbn; by rewrite IH.
Qed.

Lemma filter_full {A} (f : A → bool) l : length (List.filter f l) = length l → ∀ x, x ∈ l → f x = true.
Proof.
  induction l as [|y l IH]; intros H x Hx; [by apply not_elem_of_nil in Hx|]. cbn in H.
  pose proof (List.filter_length_le f l). destruct (f y) eqn:E; cbn in H; [|lia].
  apply elem_of_cons in Hx as [->|Hx]; [done|]. apply IH; [lia|done].
Qed.

Lemma quorum_sym a k : (a < N)%nat → k ∈ quorum n a → a ∈ quorum n k.
Proof. rewrite !elem_of_quorum. intros Ha [_ H]. by rewrite in_quorum_sym. Qed.

(** Only the place and the critical section change at the end of a round. *)
Lemma wait_more_fields nd :
  me (wait_more n P1 nd) = me nd ∧ mq (wait_more n P1 nd) = mq nd ∧ num (wait_more n P1 nd) = num nd ∧
  num_procs_done (wait_more n P1 nd) = num_procs_done nd ∧
  mpc_of (wait_more n P1 nd) = if num nd =? 2 * Z.of_nat n - 1 then Leave (quorum n (me nd)) else Wait.
Proof. unfold wait_more. by destruct (_ =? _). Qed.

Lemma run_grant g nd bx k a ts : carried n pid0 g nd bx → (∀ k, (k < N)%nat → running n pid0 g nd k) → (k < N)%nat →
  mpc_of (nd k) = Wait → tags g k = TG a :: ts →
  inv n pid0 (<[k := after n pid0 P1 (nd k) (pid k)]> nd) (<[k := map (tag_value pid0 k) ts]> bx).
Proof.
  intros C HR Hk Hpc Et. destruct (HR k Hk) as (Hr & Hnum & Hst). rewrite Hpc in Hst. destruct Hst as (Hmv & Hun & Hne & Hd).
  pose proof (ca_me _ _ _ _ _ C k Hk) as Hme. pose proof (pid_range k Hk) as Hpid.
  assert (Haf : after n pid0 P1 (nd k) (pid k) = wait_more n P1 (bump_num (nd k))).
  { unfold after. rewrite Hpc, Hme, Z.eqb_refl, (proj2 (Z.eqb_neq (pid k) (-1))) by lia. done. }
  destruct (wait_more_fields (bump_num (nd k))) as (Wme & Wmq & Wnum & Wd & Wpc). cbn [bump_num me mq num num_procs_done] in *.
  destruct (carry_grant g nd bx k a ts (after n pid0 P1 (nd k) (pid k)) C Hk Hr Et) as (Ta & Ha & C'); rewrite ?Haf; [congruence|done|].
  rewrite Haf in C'. set (g' := Ghost _ _ _ _ _) in C'.
  assert (Hq : a ∈ quorum n k).
  { apply quorum_sym; [done|]. eapply split_member; [exact C|done|rewrite Ta; by left]. }
  assert (Hret : ∀ j b, returned g' j b ↔ returned g j b).
  { intros. apply (returned_tok g g' a (THeld k)); [done..|rewrite Ta; by split]. }
  assert (Hgot : ∀ j b, j ≠ k → got g' j b = got g j b).
  { intros j b Hj. apply (got_tok g g' a (THeld k)); [done..|]. rewrite Ta. cbn. by apply Nat.eqb_neq, not_eq_sym. }
  assert (Hcount : length (List.filter (got g' k) (quorum n k)) = S (length (List.filter (got g k) (quorum n k)))).
  { apply (filter_add _ _ _ a); [apply NoDup_quorum|done|..].
    - unfold got. rewrite Ta. cbn. apply bool_decide_eq_false. intros E. apply (Hun a Ha). by right.
    - unfold got. subst g'. cbn. fn. by rewrite Nat.eqb_refl.
    - intros b Hb. unfold got. subst g'. cbn. by fn. }
  assert (Hmv' : moving (tok g' k)) by (subst g'; cbn; destruct (decide (k = a)) as [->|?]; fn; done).
  assert (Hun' : unreleased n g' k) by (intros b Hb; rewrite Hret; by apply Hun).
  assert (Hnum' : num (nd k) + 1 = Z.of_nat (length (List.filter (got g' k) (quorum n k)))) by lia.
  apply (I_run _ _ _ _ g'); [exact C'|]. intros j Hj. destruct (decide (j = k)) as [->|Hjk].
  - unfold running. fn. rewrite Wpc, Wnum, Wd, Hme.
    split; [done|]. split; [done|]. destruct (Z.eqb_spec (num (nd k) + 1) (2 * Z.of_nat n - 1)) as [E|E]; [|done].
    pose proof (length_quorum n Hn k Hk) as Hlen.
    split; [done|]. split; [intros E'; rewrite E' in Hlen; cbn in Hlen; lia|].
    split; [exists []; split; [done|]; by intros ? ?%not_elem_of_nil|]. split; [|done].
    intros b Hb. pose proof (filter_full (got g' k) (quorum n k) ltac:(lia) b Hb) as Hg.
    apply elem_of_quorum in Hb as [Hb _]. specialize (Hun' b Hb). unfold got in Hg. unfold returned in Hun'.
    apply orb_true_iff in Hg as [Hg|Hg]; [|apply bool_decide_eq_true in Hg; tauto].
    destruct (tok g' b); try done; apply Nat.eqb_eq in Hg as ->; [done|tauto].
  - eapply running_frame; [by apply HR|by fn|done..| | | |].
    + subst g'. cbn. destruct (decide (j = a)) as [->|Hna]; fn; [right; by rewrite Ta|by left].
    + auto.
    + auto.
    + intros b Hb Hh. subst g'. cbn. destruct (decide (b = a)) as [->|Hna]; fn; [congruence|done].
Qed.

(** ** A release arrives *)

(** The queue gives the next, or there is none. *)
Definition next_turn (l : list nat) : token * list nat := match l with [] => (TFree, []) | p :: l => (THand p, l) end.

Lemma deque_next g nd bx k : carried n pid0 g nd bx → (k < N)%nat →
  let r := sq_deque (mq (nd k)) in let t := next_turn (queued g k) in
  queued g k = cur t.1 ++ t.2 ∧ sq_wf r.2 ∧ sq_items r.2 = map pid t.2 ∧
  (∀ g', tok g' k = t.1 → queued g' k = t.2 → replying pid0 g' k r.1).
Proof.
  intros C Hk. pose proof (ca_wf _ _ _ _ _ C k Hk) as W. pose proof (ca_queue _ _ _ _ _ C k Hk) as Q.
  pose proof (sq_deque_ok _ W) as H. rewrite Q in H. destruct (queued g k) as [|p l]; cbn in *.
  - rewrite H. cbn. split_and!; try done. intros g' E1 E2. right. by rewrite E1, E2.
  - destruct H as (H1 & H2 & H3). split_and!; try done. intros g' E1 E2. left. exists p. by rewrite E1, H1.
Qed.

Lemma run_back g nd bx k b ts : carried n pid0 g nd bx → (∀ k, (k < N)%nat → running n pid0 g nd k) → (k < N)%nat →
  mpc_of (nd k) = Wait ∨ mpc_of (nd k) = Serve → tags g k = TR b :: ts →
  inv n pid0 (<[k := after n pid0 P1 (nd k) RELEASE]> nd) (<[k := map (tag_value pid0 k) ts]> bx).
Proof.
  intros C HR Hk Hpc Et. destruct (HR k Hk) as (Hr & Hnum & Hst).
  pose proof (ca_me _ _ _ _ _ C k Hk) as Hme. pose proof (pid_range k Hk) as Hpid.
  destruct (deque_next g nd bx k C Hk) as (Hq & W' & I' & Hrep).
  set (r := sq_deque (mq (nd k))) in *. set (t := next_turn (queued g k)) in *.
  assert (Ht : ∀ j, t.1 ≠ TGrant j ∧ t.1 ≠ TRel j ∧ with_ t.1 j = false) by (intros j; subst t; by destruct (queued g k)).
  set (nd' := after n pid0 P1 (nd k) RELEASE) in *.
  assert (Haf : nd' = goto (match mpc_of (nd k) with Wait => WaitReply r.1 | _ => ServeReply r.1 end) (with_q r.2 (nd k))).
  { subst nd'. unfold after. destruct Hpc as [-> | ->]; rewrite ?Hme; [|done].
    unfold RELEASE. by rewrite (proj2 (Z.eqb_neq 100 (pid k))) by lia. }
  destruct (carry_back g nd bx k b ts t.1 t.2 nd' C Hk Hr Et Hq) as (Tk & C'); rewrite ?Haf; try done.
  { intros j. by destruct (Ht j) as (? & ? & _). }
  rewrite Haf in C'. set (g' := Ghost _ _ _ _ _) in C'. specialize (Hrep g' ltac:(subst g'; cbn; by fn) ltac:(subst g'; cbn; by fn)).
  assert (Hret : ∀ j a, returned g' j a ↔ returned g j a).
  { intros j a. unfold returned. subst g'. cbn. destruct (decide (a = k)) as [->|Hne]; fn; [|done].
    rewrite Tk, elem_of_app, list_elem_of_singleton. destruct (Ht j) as (_ & ? & _). split.
    - intros [?|[?| ->]]; auto; done.
    - intros [[= ->]|?]; auto. }
  assert (Hgot : ∀ j a, got g' j a = got g j a).
  { intros j a. unfold got. subst g'. cbn. destruct (decide (a = k)) as [->|Hne]; fn; [|done].
    fold (with_ t.1 j). destruct (Ht j) as (_ & _ & ->). rewrite Tk. cbn [orb].
    apply Bool.eq_iff_eq_true. rewrite orb_true_iff, !bool_decide_eq_true, elem_of_app, list_elem_of_singleton, Nat.eqb_eq. intuition. }
  apply (I_run _ _ _ _ g'); [exact C'|]. intros j Hj. destruct (decide (j = k)) as [->|Hjk].
  - unfold running. fn. cbn [goto with_q num num_procs_done mpc_of]. split; [done|].
    split; [by rewrite Hnum; f_equal; f_equal; apply List.filter_ext|].
    assert (Hlen : length (served g' k) = S (length (served g k))) by (subst g'; cbn; fn; rewrite length_app; cbn; lia).
    rewrite Hlen. destruct Hpc as [E|E]; rewrite E in *.
    + destruct Hst as (_ & Hun & Hne & Hd). split_and!; try done; [|lia]. intros a Ha. rewrite Hret. by apply Hun.
    + destruct Hst as (_ & Hrel & Hd). split_and!; try done; [|lia]. intros a Ha. rewrite Hret. by apply Hrel.
  - eapply running_frame; [by apply HR|by fn|done|subst g'; cbn; by fn|subst g'; cbn; by fn| | | |].
    + left. subst g'. cbn. by fn.
    + auto.
    + auto.
    + intros a Ha Hh. subst g'. cbn. destruct (decide (a = k)) as [->|Hna]; fn; [congruence|done].
Qed.

(** ** All steps *)

Lemma run_recv g nd bx k v l : carried n pid0 g nd bx → (∀ k, (k < N)%nat → running n pid0 g nd k) → (k < N)%nat →
  receives (nd k) = true → bx k = v :: l → inv n pid0 (<[k := after n pid0 P1 (nd k) v]> nd) (<[k := l]> bx).
Proof.
  intros C HR Hk Hrv Hb. destruct (HR k Hk) as (Hr & Hnum & Hst).
  destruct (box_tag g nd bx k v l C Hk Hr Hb) as ([a|b] & ts & Et & -> & ->).
  - destruct (mpc_of (nd k)) eqn:Epc; try done; unfold receives in Hrv; rewrite Epc in Hrv; try done.
    + by eapply run_grant.
    + exfalso. assert (Hin : TG a ∈ tags g k) by (rewrite Et; by left). apply (ca_grant _ _ _ _ _ C k a Hk) in Hin as [Ha Ta].
      destruct Hst as (_ & Hrel & _). assert (Hq : a ∈ quorum n k).
      { apply quorum_sym; [done|]. eapply split_member; [exact C|done|rewrite Ta; by left]. }
      destruct (Hrel a Hq) as [E|E]; [congruence|].
      pose proof (ca_split _ _ _ _ _ C a Ha) as Hs. rewrite Ta in Hs. pose proof (NoDup_quorum n a) as Hnd. rewrite Hs in Hnd.
      apply NoDup_app in Hnd as (_ & Hnd & _). apply (Hnd k E). by left.
  - eapply run_back; try done. destruct (mpc_of (nd k)) eqn:Epc; try done; unfold receives in Hrv; rewrite Epc in Hrv; auto; done.
Qed.

Lemma run_send g nd bx k x v w : carried n pid0 g nd bx → (∀ k, (k < N)%nat → running n pid0 g nd k) → (k < N)%nat → (x < N)%nat →
  sends pid0 (nd k) = Some (pid x, v) → inv n pid0 (<[k := after n pid0 P1 (nd k) w]> nd) (<[x := bx x ++ [v]]> bx).
Proof.
  intros C HR Hk Hx Hs. destruct (HR k Hk) as (_ & _ & Hst). unfold sends in Hs.
  destruct (mpc_of (nd k)) as [| | | | | | |v'|[|y todo]| |v'|] eqn:Epc; try done; injection Hs as E <-.
  - subst v'. apply (run_reply g); auto.
  - apply pid_inj in E as ->. by eapply (run_release g).
  - subst v'. apply (run_reply g); auto.
Qed.

Lemma inv_step nd bx nd' bx' : inv n pid0 nd bx → vstep n pid0 P1 nd bx nd' bx' → inv n pid0 nd' bx'.
Proof.
  intros I S. destruct S as [k x v w Hk Hx Hs|k v l Hk Hr Hb|w Hm]; destruct I as [t A|A|g C HC|g C HR].
  - by apply (I_ask _ _ _ _ t), ask_send.
  - unfold sends in Hs. by rewrite (ad_pc _ _ _ _ A k Hk) in Hs.
  - by apply (collect_send g).
  - by apply (run_send g).
  - by rewrite (ask_no_recv _ _ _ _ A Hk) in Hr.
  - unfold receives in Hr. by rewrite (ad_pc _ _ _ _ A k Hk) in Hr.
  - by apply (collect_recv g).
  - by apply (run_recv g).
  - by apply (ask_meet t).
  - by apply asked_meet.
  - by apply (collect_meet g).
  - exfalso. assert (H0 : (0 < N)%nat) by lia. specialize (Hm 0%nat H0). destruct (HR 0%nat H0) as (_ & _ & Hst).
    unfold meets in Hm. destruct (mpc_of (nd 0%nat)); done.
Qed.

End Steps.
