(* ===== verification/MaekawaProps.v ===== *)
(** * Maekawa's algorithm: mutual exclusion and progress

    The program on the message kernel: no two processes are in their critical
    sections together, and while a process has not left its section, the
    specification of the kernel can go on. *)

From stdpp Require Import functions.
From S2P Require Import Prelude Memory Layout FsLayout Spinlock Ring Mailbox MailboxProps MsgSystem Maekawa MaekawaInv MaekawaSteps.

Section Props.
#[local] Set Default Proof Using "All".
Context (n : nat) (pid0 P1 : Z) (beyond : node → list Z).
Context (Hn : (2 <= n <= 5)%nat) (Hp0 : 0 < pid0) (Hp1 : pid0 + Z.of_nat (n * n) <= 64).
Abbreviation N := (n * n)%nat.
Abbreviation pid := (pid_of pid0).
Abbreviation op := (mop pid0 beyond).
Abbreviation res := (mresume n pid0 P1).

(** ** Two sections *)

Lemma section_exclusive nd bx i j : inv n pid0 nd bx → (i < N)%nat → (j < N)%nat →
  in_section n (nd i) → in_section n (nd j) → i = j.
Proof.
  unfold in_section. intros I Hi Hj Si Sj. destruct I as [t A|A|g C HC|g C HR].
  - exfalso. destruct (decide (i = t)) as [->|Hne]; [|by rewrite (as_rest _ _ _ _ _ A i Hi Hne) in Si].
    destruct (as_sent _ _ _ _ _ A) as (? & ? & E & _). congruence.
  - by rewrite (ad_pc _ _ _ _ A i Hi) in Si.
  - destruct (HC i Hi) as (_ & _ & _ & H). by rewrite Si in H.
  - destruct (HR i Hi) as (_ & _ & H1). rewrite Si in H1. destruct (HR j Hj) as (_ & _ & H2). rewrite Sj in H2.
    rewrite (ca_me _ _ _ _ _ C i Hi) in H1. rewrite (ca_me _ _ _ _ _ C j Hj) in H2.
    destruct H1 as (_ & _ & _ & H1 & _), H2 as (_ & _ & _ & H2 & _).
    destruct (quorums_meet n Hn i j Hi Hj) as (a & Ai & Aj). specialize (H1 a Ai). specialize (H2 a Aj). congruence.
Qed.

(** ** The start *)

Lemma inv_start : inv n pid0 (node_start n) (λ _, []).
Proof.
  apply (I_ask _ _ _ _ 0%nat). split; [lia|..].
  - intros k Hk Hne. cbn. unfold ask. by rewrite (proj2 (Nat.eqb_neq _ _)) by lia.
  - exists [], (quorum n 0). split_and!; [done..|]. intros k Hk. by rewrite decide_False by apply not_elem_of_nil.
  - done.
Qed.

(** ** Messages *)

(** What is sent goes to a process of the grid, or, when nobody is queued, to
    the id -1. *)
Lemma sends_ok nd bx k d v : inv n pid0 nd bx → (k < N)%nat → sends pid0 (nd k) = Some (d, v) →
  d = -1 ∨ (∃ x, (x < N)%nat ∧ d = pid x) ∧ 0 <= v <= 100.
Proof.
  intros I Hk Hs.
  assert (Hpid : ∀ p, (p < N)%nat → pid p = -1 ∨ (∃ x, (x < N)%nat ∧ pid p = pid x) ∧ 0 <= pid p <= 100).
  { intros p Hp. right. split; [by exists p|]. pose proof (pid_range n pid0 P1 Hn Hp0 Hp1 p Hp). lia. }
  unfold sends in Hs. destruct I as [t A|A|g C HC|g C HR].
  - destruct (decide (k = t)) as [->|Hne]; [|by rewrite (as_rest _ _ _ _ _ A k Hk Hne) in Hs].
    destruct (as_sent _ _ _ _ _ A) as (sent & todo & E & Eq & _). rewrite E in Hs. destruct todo as [|x todo]; [done|].
    destruct (as_node _ _ _ _ _ A t Hk) as [Hme _]. rewrite Hme in Hs. injection Hs as <- <-. right.
    assert (Hx : x ∈ quorum n t) by (rewrite Eq, elem_of_app; right; by left). apply elem_of_quorum in Hx as [Hx _].
    split; [by exists x|]. pose proof (pid_range n pid0 P1 Hn Hp0 Hp1 t Hk). lia.
  - by rewrite (ad_pc _ _ _ _ A k Hk) in Hs.
  - destruct (HC k Hk) as (_ & _ & _ & H). destruct (mpc_of (nd k)); try done. destruct H as (p & Tk & -> & _).
    injection Hs as <- <-. apply Hpid. eapply (split_member n pid0 P1); [done..|exact C|exact Hk|]. rewrite Tk. by left.
  - destruct (HR k Hk) as (_ & _ & H).
    assert (Hrep : ∀ u, replying pid0 g k u → u = -1 ∨ (∃ x, (x < N)%nat ∧ u = pid x) ∧ 0 <= u <= 100).
    { intros u [(p & Tk & ->)|(_ & _ & ->)]; [|by left]. apply Hpid.
      eapply (split_member n pid0 P1); [done..|exact C|exact Hk|]. rewrite Tk. by left. }
    destruct (mpc_of (nd k)) as [| | | | | | |u|[|x todo]| |u|]; try done; injection Hs as <- <-.
    + apply Hrep, H.
    + destruct H as (_ & _ & (sent & Eq & _) & _). right. unfold RELEASE. split; [|lia]. exists x. split; [|done].
      assert (Hx : x ∈ quorum n k) by (rewrite Eq, elem_of_app; right; by left). by apply elem_of_quorum in Hx as [? _].
    + apply Hrep, H.
Qed.

(** No box ever holds more than a few messages. *)
Lemma box_small nd bx k : inv n pid0 nd bx → (k < N)%nat → (length (bx k) <= 25)%nat.
Proof.
  intros I Hk. assert (HN : (N <= 25)%nat) by nia.
  assert (Hc : ∀ g, carried n pid0 g nd bx → (length (bx k) <= 25)%nat).
  { intros g C. pose proof (length_quorum n Hn k Hk) as Hq.
    assert (Hr : (length (reqs g k) <= 2 * n - 1)%nat).
    { rewrite (ca_split _ _ _ _ _ C k Hk), !length_app in Hq. lia. }
    assert (Ht : tags g k ⊆+ map TG (quorum n k) ++ match tok g k with TRel b => [TR b] | _ => [] end).
    { apply NoDup_submseteq; [by apply C|]. intros [a|b] Hin; apply elem_of_app.
      - left. apply list_elem_of_In, in_map, list_elem_of_In. apply (ca_grant _ _ _ _ _ C k a Hk) in Hin as [Ha Ta].
        apply (quorum_sym n pid0 P1); [done..|]. eapply (split_member n pid0 P1); [done..|exact C|done|rewrite Ta; by left].
      - right. apply (ca_rel _ _ _ _ _ C k b Hk) in Hin. rewrite Hin. by left. }
    apply submseteq_length in Ht. rewrite length_app, length_map, Hq in Ht.
    assert (Hm : (length (match tok g k with TRel b => [TR b] | _ => [] end) <= 1)%nat) by (destruct (tok g k); cbn; lia).
    rewrite (ca_box _ _ _ _ _ C k Hk), length_app, !length_map. lia. }
  destruct I as [t A|A|g C HC|g C HR]; [..|by apply (Hc g)|by apply (Hc g)].
  - destruct (as_sent _ _ _ _ _ A) as (sent & todo & _ & _ & Hb). rewrite Hb, length_map, length_app by done.
    pose proof (List.filter_length_le (in_quorum n k) (seq 0 t)) as Hl. rewrite length_seq in Hl.
    pose proof (as_turn _ _ _ _ _ A). case_decide; cbn; lia.
  - rewrite (ad_box _ _ _ _ A k Hk), length_map, length_quorum by done. lia.
Qed.

(** ** The processes and boxes of the system *)

Record view (a : asys (L := node)) (nd : nat → node) (bx : nat → list Z) : Prop := {
  vw_locals : locals a = map (λ k, (pid k, nd k)) (seq 0 N);
  vw_len : length (boxes a) = 64%nat;
  vw_box : ∀ k, (k < N)%nat → map value_of (boxes a !!! Z.to_nat (pid k)) = bx k;
  vw_other : ∀ q, (q < 64)%nat → (∀ k, (k < N)%nat → q ≠ Z.to_nat (pid k)) → boxes a !!! q = [] }.

Lemma view_lookup a nd bx i p l : view a nd bx → locals a !! i = Some (p, l) → (i < N)%nat ∧ p = pid i ∧ l = nd i.
Proof.
  intros V H. rewrite (vw_locals _ _ _ V) in H. apply list_lookup_fmap_Some in H as (k & [= -> ->] & H).
  apply lookup_seq in H as [-> H]. done.
Qed.

Lemma view_at a nd bx k : view a nd bx → (k < N)%nat → locals a !! k = Some (pid k, nd k).
Proof. intros V Hk. rewrite (vw_locals _ _ _ V), list_lookup_fmap, lookup_seq_lt by done. done. Qed.

Lemma locals_insert (nd : nat → node) k x : (k < N)%nat →
  <[k := (pid k, x)]> (map (λ j, (pid j, nd j)) (seq 0 N)) = map (λ j, (pid j, (<[k := x]> nd) j)) (seq 0 N).
Proof.
  intros Hk. apply list_eq. intros j. rewrite list_lookup_fmap. destruct (decide (j = k)) as [->|Hne].
  - rewrite list_lookup_insert_eq by (by rewrite length_map, length_seq). rewrite lookup_seq_lt by done. cbn. by rewrite fn_lookup_insert.
  - rewrite list_lookup_insert_ne, list_lookup_fmap by done. destruct (seq 0 N !! j) as [j'|] eqn:E; [|done]. cbn.
    apply lookup_seq in E as [-> _]. cbn. by rewrite fn_lookup_insert_ne by done.
Qed.

Lemma value_message v x : 0 <= v <= 100 → value_of (message beyond v x) = v.
Proof. intros Hv. unfold value_of, message. rewrite get32_bytes32, u32_small, s32_small by lia. done. Qed.

Lemma pid_slot j k : (j < N)%nat → (k < N)%nat → Z.to_nat (pid j) = Z.to_nat (pid k) → j = k.
Proof. unfold pid_of. lia. Qed.

(** A process's next call. *)
Lemma mop_send nd d msg : op nd = CSend d msg → ∃ v, sends pid0 nd = Some (d, v) ∧ msg = message beyond v nd.
Proof.
  unfold mop, sends. destruct (mpc_of nd) as [? [|]| | | | | | | |[|]| | |]; try done; intros [= <- <-]; eauto.
Qed.

Lemma view_step a a' nd bx : view a nd bx → inv n pid0 nd bx → astep op res a a' →
  ∃ nd' bx', vstep n pid0 P1 nd bx nd' bx' ∧ view a' nd' bx'.
Proof.
  intros V I S. destruct S as [i p l to msg Hi Hop Hto|i p l msg rest Hi Hop Hb|Hall].
  - destruct (view_lookup _ _ _ _ _ _ V Hi) as (Hk & -> & ->). destruct (mop_send _ _ _ Hop) as (v & Hs & ->).
    destruct (sends_ok nd bx i to v I Hk Hs) as [->|[(x & Hx & ->) Hv]]; [lia|].
    eexists _, _. split; [by apply (V_send _ _ _ _ _ i x v (value_of [])%nat)|].
    pose proof (pid_range n pid0 P1 Hn Hp0 Hp1 x Hx) as Hrx. split; cbn [locals boxes].
    + rewrite (vw_locals _ _ _ V). by apply locals_insert.
    + rewrite length_insert. apply V.
    + intros k Hk'. destruct (decide (k = x)) as [->|Hne].
      * rewrite list_lookup_total_insert_eq by (rewrite (vw_len _ _ _ V); lia). rewrite fn_lookup_insert, map_app.
        rewrite (vw_box _ _ _ V) by done. cbn [map]. by rewrite value_message.
      * rewrite list_lookup_total_insert_ne by (intros E; apply Hne; symmetry; by apply pid_slot).
        rewrite fn_lookup_insert_ne by done. by apply V.
    + intros q Hq Hnot. rewrite list_lookup_total_insert_ne by (apply not_eq_sym; by apply Hnot). by apply V.
  - destruct (view_lookup _ _ _ _ _ _ V Hi) as (Hk & -> & ->).
    pose proof (vw_box _ _ _ V i Hk) as Hbx. rewrite Hb in Hbx. cbn in Hbx.
    assert (Hr : receives (nd i) = true).
    { unfold mop in Hop. unfold receives. by destruct (mpc_of (nd i)) as [? [|]| | | | | | | |[|]| | |]. }
    pose proof (pid_range n pid0 P1 Hn Hp0 Hp1 i Hk) as Hri.
    eexists _, _. split; [by apply (V_recv _ _ _ _ _ i (value_of msg) (map value_of rest))|]. split; cbn [locals boxes].
    + rewrite (vw_locals _ _ _ V). by apply locals_insert.
    + rewrite length_insert. apply V.
    + intros k Hk'. destruct (decide (k = i)) as [->|Hne].
      * rewrite list_lookup_total_insert_eq by (rewrite (vw_len _ _ _ V); lia). by rewrite fn_lookup_insert.
      * rewrite list_lookup_total_insert_ne by (intros E; apply Hne; symmetry; by apply pid_slot).
        rewrite fn_lookup_insert_ne by done. by apply V.
    + intros q Hq Hnot. rewrite list_lookup_total_insert_ne by (apply not_eq_sym; by apply Hnot). by apply V.
  - eexists _, _. split; [apply (V_meet _ _ _ _ _ (value_of []))|].
    + intros k Hk. specialize (Hall k _ _ (view_at _ _ _ k V Hk)). unfold mop in Hall. unfold meets.
      by destruct (mpc_of (nd k)) as [? [|]| | | | | | | |[|]| | |].
    + split; cbn [locals boxes]; try apply V. rewrite (vw_locals _ _ _ V), <- list_fmap_compose. done.
Qed.

Lemma view_start : view (start (grid n pid0)) (node_start n) (λ _, []).
Proof.
  split; try done.
  - intros k Hk. pose proof (pid_range n pid0 P1 Hn Hp0 Hp1 k Hk). cbn [start boxes]. by rewrite lookup_total_replicate_2 by lia.
  - intros q Hq _. cbn [start boxes]. by rewrite lookup_total_replicate_2.
Qed.

Lemma reach_inv a : steps_of (astep op res) (start (grid n pid0)) a → ∃ nd bx, view a nd bx ∧ inv n pid0 nd bx.
Proof.
  intros H. remember (start (grid n pid0)) as a0 eqn:E0. induction H as [a|a a1 a2 H IH S]; subst.
  - exists (node_start n), (λ _, []). split; [apply view_start|apply inv_start].
  - destruct (IH eq_refl) as (nd & bx & V & I). destruct (view_step _ _ _ _ V I S) as (nd' & bx' & Vs & V').
    exists nd', bx'. split; [done|]. by eapply (inv_step n pid0 P1).
Qed.

(** ** Room *)

Lemma length_concat_le {A} (ls : list (list A)) m : Forall (λ l, (length l <= m)%nat) ls → (length (concat ls) <= m * length ls)%nat.
Proof. induction 1 as [|l ls Hl _ IH]; cbn; [lia|]. rewrite length_app. lia. Qed.

Lemma view_total a nd bx : view a nd bx → inv n pid0 nd bx → (length (concat (boxes a)) <= 625)%nat.
Proof.
  intros V I. set (p0 := Z.to_nat pid0). pose proof (vw_len _ _ _ V) as Hl. assert (HN : (N <= 25)%nat) by nia.
  assert (Hsplit : boxes a = take p0 (boxes a) ++ take N (drop p0 (boxes a)) ++ drop N (drop p0 (boxes a))).
  { by rewrite take_drop, take_drop. }
  assert (Hempty : ∀ ls : list (list (list Z)), (∀ (i : nat) l, ls !! i = Some l → l = []) → length (concat ls) = 0%nat).
  { intros ls H. pose proof (length_concat_le (A := list Z) ls 0) as Hle. rewrite Nat.mul_0_l in Hle.
    apply Nat.le_0_r, Hle, Forall_lookup_2. intros i l Hil. by rewrite (H i l Hil). }
  rewrite Hsplit, !concat_app, !length_app. rewrite (Hempty (take p0 _)), (Hempty (drop N _)).
  - pose proof (length_concat_le (take N (drop p0 (boxes a))) 25) as Hle. rewrite length_take in Hle.
    assert (Forall (λ l, (length l <= 25)%nat) (take N (drop p0 (boxes a)))) as HF; [|specialize (Hle HF); nia].
    apply Forall_lookup_2. intros k l Hk. apply lookup_take_Some in Hk as [Hk HkN]. rewrite lookup_drop in Hk.
    apply list_lookup_total_correct in Hk. rewrite <- Hk.
    replace (p0 + k)%nat with (Z.to_nat (pid k)) by (subst p0; unfold pid_of; lia).
    rewrite <- (length_map value_of), (vw_box _ _ _ V) by done. by eapply box_small.
  - intros i l Hi. rewrite !lookup_drop in Hi. pose proof (lookup_lt_Some _ _ _ Hi). apply list_lookup_total_correct in Hi. rewrite <- Hi.
    apply V; [lia|]. intros k Hk. subst p0. unfold pid_of. lia.
  - intros i l Hi. apply lookup_take_Some in Hi as [Hi Hlt]. pose proof (lookup_lt_Some _ _ _ Hi). apply list_lookup_total_correct in Hi.
    rewrite <- Hi. apply V; [lia|]. intros k Hk. subst p0. unfold pid_of. lia.
Qed.

Lemma reach_room a : steps_of (astep op res) (start (grid n pid0)) a → room op a.
Proof.
  intros H. destruct (reach_inv a H) as (nd & bx & V & I). intros i p l to msg Hi Hop.
  destruct (view_lookup _ _ _ _ _ _ V Hi) as (Hk & -> & ->). destruct (mop_send _ _ _ Hop) as (v & Hs & _).
  pose proof (view_total a nd bx V I). destruct (sends_ok nd bx i to v I Hk Hs) as [->|[(x & Hx & ->) _]].
  - split; [done|]. split; lia.
  - pose proof (pid_range n pid0 P1 Hn Hp0 Hp1 x Hx). split; [lia|]. split; [lia|]. intros _.
    rewrite <- (length_map value_of), (vw_box _ _ _ V) by done. pose proof (box_small nd bx x I Hx). lia.
Qed.

Lemma grid_ok : grid n pid0 ≠ [] ∧ NoDup (grid n pid0).*1 ∧ Forall (λ pl, 0 < pl.1 < 64) (grid n pid0).
Proof.
  unfold grid. split_and!.
  - intros E. apply (f_equal length) in E. rewrite length_map, length_seq in E. cbn in E. nia.
  - rewrite <- (list_fmap_compose (A := nat)). apply NoDup_fmap_2; [|apply NoDup_seq]. intros j k H. cbn in H.
    unfold pid_of in H. lia.
  - apply Forall_fmap, Forall_forall. intros k Hk. apply elem_of_seq in Hk. cbn. apply (pid_range n pid0 P1); [done..|lia].
Qed.

(** ** Progress *)

(** Requests are queued in the order of the grid. *)
Lemma filter_seq_sorted (f : nat → bool) len : ∀ m l1 p l2 k,
  List.filter f (seq m len) = l1 ++ p :: l2 → k ∈ l2 → (p < k)%nat.
Proof.
  induction len as [|len IH]; intros m l1 p l2 k E Hk; cbn in E; [by destruct l1|].
  destruct (f m); [|by eapply IH]. destruct l1 as [|x l1]; [|injection E as _ E; by eapply IH].
  injection E as -> <-. apply list_elem_of_In, filter_In in Hk as [Hk _]. apply in_seq in Hk. lia.
Qed.

Lemma self_in_quorum k : (k < N)%nat → k ∈ quorum n k.
Proof. intros Hk. apply elem_of_quorum. split; [done|]. unfold in_quorum. by rewrite Nat.eqb_refl. Qed.

(** Whoever has the turn before a process that waits comes earlier in the grid. *)
Lemma turn_before g nd bx a p k : carried n pid0 g nd bx → (a < N)%nat → reqs g a = [] → k ∈ quorum n a → k ∉ served g a →
  cur (tok g a) = [p] → p = k ∨ (p < k)%nat.
Proof.
  intros C Ha Hr Hk Hs Ht. pose proof (ca_split _ _ _ _ _ C a Ha) as E. rewrite Ht, Hr, app_nil_r in E. rewrite E in Hk.
  apply elem_of_app in Hk as [?|Hk]; [done|]. apply elem_of_app in Hk as [Hk|Hk]; [left; symmetry; by apply list_elem_of_singleton|].
  right. unfold quorum in E. by eapply filter_seq_sorted.
Qed.

Definition can_step (nd : nat → node) (bx : nat → list Z) : Prop := ∃ nd' bx', vstep n pid0 P1 nd bx nd' bx'.

Lemma step_send nd bx k x v : (k < N)%nat → (x < N)%nat → sends pid0 (nd k) = Some (pid x, v) → can_step nd bx.
Proof. intros. eexists _, _. by apply (V_send _ _ _ _ _ k x v 0). Qed.

Lemma step_tag g nd bx k t : carried n pid0 g nd bx → (k < N)%nat → receives (nd k) = true → t ∈ tags g k → can_step nd bx.
Proof.
  intros C Hk Hr Ht. pose proof (ca_box _ _ _ _ _ C k Hk) as Hb. destruct (bx k) as [|v l] eqn:E.
  - symmetry in Hb. apply app_eq_nil in Hb as [_ Hb]. destruct (tags g k); [by apply not_elem_of_nil in Ht|done].
  - eexists _, _. by apply (V_recv _ _ _ _ _ k v l).
Qed.

(** A process with the token in its hand passes it on. *)
Lemma step_reply g nd bx k v : carried n pid0 g nd bx → (k < N)%nat → reqs g k = [] → replying pid0 g k v →
  mpc_of (nd k) = WaitReply v ∨ mpc_of (nd k) = ServeReply v → (∃ j, j ∈ quorum n k ∧ j ∉ served g k) → can_step nd bx.
Proof.
  intros C Hk Hr Hrep Hpc (j & Hj & Hns). destruct Hrep as [(p & Tk & ->)|(Tk & Hq & _)].
  - destruct (split_member n pid0 P1 Hn Hp0 Hp1 g nd bx k p C Hk) as [_ Hp]; [by rewrite Tk; left|].
    apply (step_send nd bx k p (pid p)); [done..|]. unfold sends. by destruct Hpc as [-> | ->].
  - exfalso. rewrite (ca_split _ _ _ _ _ C k Hk), Tk, Hq, Hr in Hj. cbn in Hj. by rewrite app_nil_r in Hj.
Qed.

(** An arbiter whose token is not with [k], which still waits for it. *)
Lemma arbiter_steps g nd bx a k : carried n pid0 g nd bx → (∀ k, (k < N)%nat → running n pid0 g nd k) →
  (a < N)%nat → (k < N)%nat → a ∈ quorum n k → got g k a = false → mpc_of (nd k) = Wait →
  (∀ j, (j < k)%nat → past_section (nd j)) → can_step nd bx.
Proof.
  intros C HR Ha Hk Hq Hg Hpc Hpast. destruct (HR a Ha) as (Hr & _ & Hst).
  assert (Hka : k ∈ quorum n a) by (by apply (quorum_sym n pid0 P1)).
  unfold got in Hg. apply orb_false_iff in Hg as [Hg Hns]. apply bool_decide_eq_false in Hns.
  pose proof (turn_before g nd bx a) as Hturn.
  assert (Hearly : ∀ p, cur (tok g a) = [p] → p ≠ k → tok g a ≠ TRel p → False).
  { intros p Hp Hne Hnr. destruct (Hturn p k C Ha Hr Hka Hns Hp) as [?|Hlt]; [done|].
    destruct (HR p ltac:(lia)) as (_ & _ & Hsp). specialize (Hpast p Hlt). unfold past_section in Hpast.
    assert (Hrel : released n g p) by (destruct (mpc_of (nd p)); try done; by destruct Hsp as (_ & ? & _)).
    assert (Hap : a ∈ quorum n p).
    { apply (quorum_sym n pid0 P1); [done..|]. eapply (split_member n pid0 P1); [done..|exact C|done|rewrite Hp; by left]. }
    destruct (Hrel a Hap) as [E|E]; [done|]. pose proof (NoDup_quorum n a) as Hnd.
    rewrite (ca_split _ _ _ _ _ C a Ha), Hp in Hnd. apply NoDup_app in Hnd as (_ & Hnd & _). apply (Hnd p E). by left. }
  assert (Hnotrep : moving (tok g a) → ∀ v, ¬ replying pid0 g a v).
  { intros Hm v [(p & E & _)|(E & _)]; by rewrite E in Hm. }
  destruct (tok g a) as [|p|p|p|p|] eqn:Ta.
  - exfalso. destruct (mpc_of (nd a)); try done; destruct Hst as (H1 & _); try done; destruct H1 as [(p & E & _)|(E & _)]; congruence.
  - destruct (mpc_of (nd a)) eqn:Ea; try done; destruct Hst as (H1 & _); try done; apply (step_reply g nd bx a temp); eauto.
  - destruct (decide (p = k)) as [->|Hne]; [|by destruct (Hearly p)].
    apply (step_tag g nd bx k (TG a)); [done..| |by apply C]. unfold receives. by rewrite Hpc.
  - destruct (decide (p = k)) as [->|Hne]; [by rewrite Nat.eqb_refl in Hg|by destruct (Hearly p)].
  - destruct (receives (nd a)) eqn:Era; [apply (step_tag g nd bx a (TR p)); [done..|by apply C]|].
    unfold receives in Era. destruct (mpc_of (nd a)) as [| | | | | | |v|[|x todo]| |v|] eqn:Ea; try done.
    + destruct Hst as (H1 & _). by destruct (Hnotrep ltac:(done) _ H1).
    + by destruct Hst as (_ & ? & _).
    + destruct Hst as (_ & _ & (sent & Eq & _) & _). apply (step_send nd bx a x RELEASE); [done|..|unfold sends; by rewrite Ea].
      assert (Hx : x ∈ quorum n a) by (rewrite Eq, elem_of_app; right; by left). by apply elem_of_quorum in Hx as [? _].
    + destruct Hst as (H1 & _). by destruct (Hnotrep ltac:(done) _ H1).
  - destruct (mpc_of (nd a)) eqn:Ea; try done; destruct Hst as (H1 & _); try done; apply (step_reply g nd bx a temp); eauto.
Qed.

#[local] Instance past_section_dec nd : Decision (past_section nd).
Proof. unfold past_section. destruct (mpc_of nd); apply _. Defined.

(** The first process that has not been in its section. *)
Lemma first_waiting (nd : nat → node) m :
  (∀ k, (k < m)%nat → past_section (nd k)) ∨
  ∃ k, (k < m)%nat ∧ ¬ past_section (nd k) ∧ ∀ j, (j < k)%nat → past_section (nd j).
Proof.
  induction m as [|m [IH|(k & Hk & H)]]; [left; intros; lia| |right; exists k; split; [lia|done]].
  destruct (decide (past_section (nd m))) as [Hp|Hp]; [left|right; exists m; split; [lia|done]].
  intros k Hk. destruct (decide (k = m)) as [->|]; [done|apply IH; lia].
Qed.

Lemma run_progress g nd bx : carried n pid0 g nd bx → (∀ k, (k < N)%nat → running n pid0 g nd k) →
  (∀ k, (k < N)%nat → past_section (nd k)) ∨ can_step nd bx.
Proof.
  intros C HR. destruct (first_waiting nd N) as [|(k & Hk & Hnp & Hpast)]; [by left|right].
  destruct (HR k Hk) as (Hr & Hnum & Hst). unfold past_section in Hnp.
  destruct (mpc_of (nd k)) as [| | | | | | |v|[|x todo]| |v|] eqn:Epc; try done; try (by destruct Hnp).
  - destruct Hst as (_ & _ & Hne & _).
    destruct (decide (Forall (λ a, got g k a = true) (quorum n k))) as [Hall|Hsome].
    { exfalso. apply Hne. rewrite Hnum. assert (Hf : List.filter (got g k) (quorum n k) = quorum n k).
      { clear - Hall. induction Hall as [|a l Ha _ IH]; cbn; [done|]. by rewrite Ha, IH. }
      rewrite Hf, length_quorum by done. lia. }
    apply not_Forall_Exists in Hsome; [|apply _]. apply Exists_exists in Hsome as (a & Ha & Hg).
    apply not_true_is_false in Hg. apply (arbiter_steps g nd bx a k); try done. by apply elem_of_quorum in Ha as [? _].
  - destruct Hst as (Hrep & Hun & _). apply (step_reply g nd bx k v); auto. exists k. split; [by apply self_in_quorum|].
    intros Hs. apply (Hun k Hk). by right.
  - by destruct Hst as (_ & ? & _).
  - destruct Hst as (_ & _ & (sent & Eq & _) & _). apply (step_send nd bx k x RELEASE); [done|..|unfold sends; by rewrite Epc].
    assert (Hx : x ∈ quorum n k) by (rewrite Eq, elem_of_app; right; by left). by apply elem_of_quorum in Hx as [? _].
Qed.

Definition at_meet2 (nd : node) : bool := match mpc_of nd with Meet2 => true | _ => false end.

Lemma collect_progress g nd bx : carried n pid0 g nd bx → (∀ k, (k < N)%nat → collecting n pid0 g nd k) → can_step nd bx.
Proof.
  intros C HC. destruct (decide (Forall (λ k, at_meet2 (nd k) = true) (seq 0 N))) as [Hall|Hsome].
  - eexists _, _. apply (V_meet _ _ _ _ _ 0). intros k Hk. rewrite Forall_forall in Hall.
    specialize (Hall k ltac:(apply elem_of_seq; lia)). unfold at_meet2 in Hall. unfold meets. by destruct (mpc_of (nd k)).
  - apply not_Forall_Exists in Hsome; [|apply _]. apply Exists_exists in Hsome as (k & Hk & Hm).
    apply elem_of_seq in Hk. destruct (HC k ltac:(lia)) as (Hs & _ & _ & Hst). unfold at_meet2 in Hm.
    pose proof (length_quorum n Hn k ltac:(lia)) as Hlen. pose proof (ca_split _ _ _ _ _ C k ltac:(lia)) as Eq.
    pose proof (ca_box _ _ _ _ _ C k ltac:(lia)) as Hb.
    rewrite Eq, Hs in Hlen. assert (Hrecv : receives (nd k) = true → reqs g k ≠ [] → can_step nd bx).
    { intros Hr Hq. destruct (reqs g k) as [|p r]; [done|]. eexists _, _. eapply (V_recv _ _ _ _ _ k); [lia|done|exact Hb]. }
    destruct (mpc_of (nd k)) as [| | |v|c| | | | | | |] eqn:Epc; try done.
    + apply Hrecv; [unfold receives; by rewrite Epc|]. destruct Hst as [Tk Hq]. intros E. rewrite Tk, Hq, E in Hlen. cbn in Hlen. lia.
    + destruct Hst as (p & Tk & -> & _). apply (step_send nd bx k p (pid p)); [lia|..|unfold sends; by rewrite Epc].
      apply (split_member n pid0 P1 Hn Hp0 Hp1 g nd bx k); [exact C|lia|rewrite Tk; by left].
    + apply Hrecv; [unfold receives; by rewrite Epc|]. destruct Hst as ((p & Tk) & Hq & Hc). intros E.
      rewrite Tk, E, app_nil_r in Hlen. cbn in Hlen. lia.
    + cbn in Hm. by rewrite Epc in Hm.
Qed.

Lemma inv_progress nd bx : inv n pid0 nd bx → (∀ k, (k < N)%nat → past_section (nd k)) ∨ can_step nd bx.
Proof.
  intros [t A|A|g C HC|g C HR]; [right..|by apply (run_progress g)].
  - destruct (as_sent _ _ _ _ _ A) as (sent & todo & E & Eq & _). pose proof (as_turn _ _ _ _ _ A) as Ht. destruct todo as [|x todo].
    + eexists _, _. apply (V_meet _ _ _ _ _ 0). intros k Hk. unfold meets.
      destruct (decide (k = t)) as [->|Hne]; [by rewrite E|by rewrite (as_rest _ _ _ _ _ A)].
    + apply (step_send nd bx t x (pid (me (nd t)))); [done|..|unfold sends; by rewrite E].
      assert (Hx : x ∈ quorum n t) by (rewrite Eq, elem_of_app; right; by left). by apply elem_of_quorum in Hx as [? _].
  - eexists _, _. apply (V_meet _ _ _ _ _ 0). intros k Hk. unfold meets. by rewrite (ad_pc _ _ _ _ A).
  - by apply (collect_progress g).
Qed.

(** What can happen to the view can happen to the system. *)
Lemma view_can_step a nd bx : view a nd bx → can_step nd bx → ∃ a', astep op res a a'.
Proof.
  intros V (nd' & bx' & S). destruct S as [k x v w Hk Hx Hs|k v l Hk Hr Hb|w Hm].
  - assert (∃ msg, op (nd k) = CSend (pid x) msg) as [msg E].
    { unfold sends in Hs. unfold mop. destruct (mpc_of (nd k)) as [? [|]| | | | | | | |[|]| | |]; try done; injection Hs as E <-;
        rewrite ?E; eauto; apply (pid_inj n pid0 P1 Hn Hp0 Hp1) in E as ->; eauto. }
    eexists. eapply (A_send _ _ _ k); [by eapply view_at|exact E|]. by apply (pid_range n pid0 P1).
  - pose proof (vw_box _ _ _ V k Hk) as Hbx. destruct (boxes a !!! Z.to_nat (pid k)) as [|m r] eqn:E; [cbn in Hbx; congruence|].
    eexists. eapply (A_recv _ _ _ k); [by eapply view_at| |exact E]. unfold mop. unfold receives in Hr. by destruct (mpc_of (nd k)).
  - eexists. apply A_barrier. intros i p l Hi. destruct (view_lookup _ _ _ _ _ _ V Hi) as (Hk & _ & ->). specialize (Hm i Hk).
    unfold mop. unfold meets in Hm. by destruct (mpc_of (nd i)) as [? [|]| | | | | | | |[|]| | |].
Qed.

Lemma exclusion_spec c i j ci cj : steps_of (cstep op res) (boot (grid n pid0)) c →
  c_procs c !! i = Some ci → c_procs c !! j = Some cj →
  in_section n (c_local ci) → in_section n (c_local cj) → i = j.
Proof.
  intros H Hi Hj Si Sj. destruct grid_ok as (G1 & G2 & G3).
  destruct (system_rel op res (grid n pid0) c G1 G2 G3 reach_room H) as (a & A & R).
  destruct (reach_inv a A) as (nd & bx & V & I).
  assert (Hat : ∀ k ck, c_procs c !! k = Some ck → (k < N)%nat ∧ c_local ck = nd k).
  { intros k ck Hk. apply erase_lookup in Hk. rewrite <- (re_locals _ _ _ R) in Hk.
    by destruct (view_lookup _ _ _ _ _ _ V Hk) as (? & _ & ?). }
  destruct (Hat i ci Hi) as [Ni Ei], (Hat j cj Hj) as [Nj Ej]. rewrite Ei in Si. rewrite Ej in Sj.
  by eapply section_exclusive.
Qed.

Lemma progress_spec a : steps_of (astep op res) (start (grid n pid0)) a → (∀ a', ¬ astep op res a a') →
  Forall (λ pl, past_section pl.2) (locals a).
Proof.
  intros H Hstop. destruct (reach_inv a H) as (nd & bx & V & I). destruct (inv_progress nd bx I) as [Hall|Hcan].
  - rewrite (vw_locals _ _ _ V). apply Forall_fmap, Forall_forall. intros k Hk. apply elem_of_seq in Hk. apply Hall. lia.
  - exfalso. destruct (view_can_step a nd bx V Hcan) as (a' & S). by apply (Hstop a').
Qed.

End Props.

(** C25. Mutual exclusion: in every run of maekawa.c on the message kernel, with
    4, 9, 16 or 25 processes, any number of which only take part, however their
    system calls are interleaved, no two processes are ever in their critical
    sections at the same time. *)
Theorem maekawa_mutual_exclusion P P1 pid0 beyond c i j ci cj :
  size_of P ≠ 0%nat → 0 < pid0 → pid0 + Z.of_nat (size_of P * size_of P) <= 64 →
  steps_of (cstep (mop pid0 beyond) (mresume (size_of P) pid0 P1)) (boot (grid (size_of P) pid0)) c →
  c_procs c !! i = Some ci → c_procs c !! j = Some cj → i ≠ j →
  ~ (in_section (size_of P) (c_local ci) ∧ in_section (size_of P) (c_local cj)).
Proof.
  intros HP H0 H1 H Hi Hj Hne [Si Sj]. apply Hne.
  eapply (exclusion_spec _ _ P1); [by apply size_of_range|exact H0|exact H1|exact H|exact Hi|exact Hj|exact Si|exact Sj].
Qed.
