(* ===== verification/MaekawaEnd.v ===== *)
(** * Maekawa's algorithm: every process gets its turn

    The program on the message kernel cannot run for ever, and when it stops all
    processes have had their critical sections. That it stops is shown by a
    weight of the processes and of the messages under way, which every call of
    the specification makes smaller. *)

From stdpp Require Import functions relations.
From S2P Require Import Prelude Memory Layout FsLayout Spinlock Ring Mailbox MailboxProps MsgSystem Maekawa MaekawaInv MaekawaSteps MaekawaProps.

Section End.
#[local] Set Default Proof Using "All".
Context (n : nat) (pid0 P1 : Z) (beyond : node → list Z).
Context (Hn : (2 <= n <= 5)%nat) (Hp0 : 0 < pid0) (Hp1 : pid0 + Z.of_nat (n * n) <= 64).
Abbreviation N := (n * n)%nat.
Abbreviation pid := (pid_of pid0).
Abbreviation op := (mop pid0 beyond).
Abbreviation res := (mresume n pid0 P1).

(** ** The critical sections that have been *)

(** It has had all the replies it waits for. *)
Definition answered (nd : node) : bool :=
  match mpc_of nd with Leave _ | Serve | ServeReply _ | Done => true | _ => false end.

(** Process [k] has been in its critical section if it has had all the replies
    and is one of those that have a critical section. *)
Definition marked (k : nat) (nd : node) : Prop :=
  me nd = k ∧ entered nd = answered nd && negb (Z.of_nat k <? P1).

Lemma marked_wait k nd : me nd = k → entered nd = false → marked k (wait_more n P1 nd).
Proof. unfold marked, wait_more. intros <- E. destruct (_ =? _); [done|]. by cbn; rewrite E. Qed.

Lemma marked_serve k nd : me nd = k → entered nd = negb (Z.of_nat k <? P1) → marked k (serve_more n nd).
Proof. unfold marked, serve_more, answered. intros <- E. by cbn; destruct (_ <=? _); rewrite E. Qed.

Lemma marked_after k nd v : marked k nd → marked k (after n pid0 P1 nd v).
Proof.
  intros [Hme He]. unfold after. unfold answered in He.
  destruct (mpc_of nd) as [t [|x todo]| | | |p| | | |[|x [|y todo]]| | |] eqn:Epc; cbn in He;
    repeat case_match; try (apply marked_wait; [done|exact He]); try (apply marked_serve; [done|exact He]);
    (split; [done|]); unfold answered; cbn; rewrite ?Epc; try exact He; by case_match.
Qed.

Lemma marked_reach a : steps_of (astep op res) (start (grid n pid0)) a →
  ∀ k p nd, locals a !! k = Some (p, nd) → marked k nd.
Proof.
  intros H. remember (start (grid n pid0)) as a0 eqn:E0. induction H as [a|a a1 a2 H IH S]; subst; intros k p nd Hk.
  - cbn in Hk. apply list_lookup_fmap_Some in Hk as (j & [= -> ->] & Hj). apply lookup_seq in Hj as [-> _]. done.
  - specialize (IH eq_refl). destruct S as [i q l to msg Hi _ _|i q l msg rest Hi _ _|_]; cbn [locals] in Hk.
    3: apply list_lookup_fmap_Some in Hk as ([q l] & [= -> ->] & Hk); by eapply marked_after, IH.
    all: apply list_lookup_insert_Some in Hk as [(<- & [= <- <-] & _)|[_ Hk]]; [by eapply marked_after, IH|by eapply IH].
Qed.

(** ** The weight of what is left to do *)

(** A release is answered. *)
Definition msg_weight (v : Z) : nat := if v =? RELEASE then 4 else 1.

Definition node_weight (nd : node) : nat :=
  let q := length (quorum n (me nd)) in
  match mpc_of nd with
  | Ask t todo => 5 * q + 5 + 5 * length todo + (N - t) + (if (t <? me nd)%nat then 5 * q else 0)
  | Meet => 5 * q + 4
  | First | Reply _ => 5 * q + 3
  | Collect _ | Meet2 => 5 * q + 1
  | Wait => 5 * q
  | WaitReply _ => 5 * q + 2
  | Leave todo => 5 * length todo
  | ServeReply _ => 2
  | Serve | Done => 0
  end.

Lemma wait_weight nd : (node_weight (wait_more n P1 nd) <= 5 * length (quorum n (me nd)))%nat.
Proof. unfold wait_more, node_weight. destruct (_ =? _); cbn; lia. Qed.

Lemma serve_weight nd : node_weight (serve_more n nd) = 0%nat.
Proof. unfold serve_more, node_weight. cbn. by destruct (_ <=? _). Qed.

Lemma msg_weight_bound v : (1 <= msg_weight v <= 4)%nat.
Proof. unfold msg_weight. destruct (_ =? _); lia. Qed.

Lemma send_weight nd x v w : (x < N)%nat → sends pid0 nd = Some (pid x, v) →
  (node_weight (after n pid0 P1 nd w) + msg_weight v < node_weight nd)%nat.
Proof.
  intros Hx Hs. pose proof (msg_weight_bound v) as Hv. pose proof (pid_range n pid0 P1 Hn Hp0 Hp1 x Hx) as Hpx.
  assert (Hone : v = pid x → msg_weight v = 1%nat).
  { intros ->. unfold msg_weight, RELEASE. by rewrite (proj2 (Z.eqb_neq _ _)) by lia. }
  unfold sends in Hs. unfold after, node_weight at 2.
  destruct (mpc_of nd) as [t [|y todo]| | |u| | | |u|[|y [|z todo]]| |u|] eqn:Epc; try done; injection Hs as E Ev.
  - unfold node_weight. cbn. lia.
  - rewrite Hone by congruence. unfold node_weight. cbn [goto mpc_of me]. destruct (_ <? _)%nat; lia.
  - rewrite Hone by congruence. pose proof (wait_weight (bump_done nd)) as H. cbn [bump_done me] in H. lia.
  - unfold node_weight. cbn. lia.
  - unfold node_weight. cbn. lia.
  - rewrite Hone by congruence. rewrite serve_weight. lia.
Qed.

Lemma recv_weight nd v : receives nd = true → (node_weight (after n pid0 P1 nd v) < node_weight nd + msg_weight v)%nat.
Proof.
  intros Hr. pose proof (msg_weight_bound v) as Hv. unfold receives in Hr. unfold after, node_weight at 2.
  destruct (mpc_of nd) eqn:Epc; try done.
  - unfold node_weight. cbn. lia.
  - destruct (v =? -1); [|destruct (_ <? _)%nat]; unfold node_weight; cbn; lia.
  - destruct (v =? -1); [unfold node_weight; rewrite Epc; lia|].
    destruct (v =? pid (me nd)); [pose proof (wait_weight (bump_num nd)) as H; cbn [bump_num me] in H; lia|].
    destruct (v =? RELEASE) eqn:Er; [unfold msg_weight; rewrite Er; unfold node_weight; cbn; lia|].
    pose proof (wait_weight (with_q (sq_enque v (mq nd)) nd)) as H. cbn [with_q me] in H. lia.
  - destruct (v =? -1); [unfold node_weight; rewrite Epc; lia|].
    destruct (v =? RELEASE) eqn:Er; [unfold msg_weight; rewrite Er; unfold node_weight; cbn; lia|]. rewrite serve_weight. lia.
Qed.

Lemma meet_weight nd w : meets nd = true → (node_weight (after n pid0 P1 nd w) < node_weight nd)%nat.
Proof.
  unfold meets, after, node_weight at 2. destruct (mpc_of nd) as [t [|]| | | | | | | | | | |] eqn:Epc; try done; intros _.
  - destruct (Nat.ltb_spec (S t) N); unfold node_weight, ask; cbn [goto mpc_of me length]; [|lia].
    destruct (Nat.eqb_spec (S t) (me nd)); cbn [length]; destruct (Nat.ltb_spec (S t) (me nd)), (Nat.ltb_spec t (me nd)); lia.
  - unfold node_weight. cbn. lia.
  - unfold node_weight. cbn. lia.
Qed.

Definition weight (nd : nat → node) (bx : nat → list Z) : nat :=
  sum_list_with (λ k, node_weight (nd k)) (seq 0 N) + sum_list_with (λ k, sum_list_with msg_weight (bx k)) (seq 0 N).

Lemma sum_insert {A} (f : A → nat) (g : nat → A) k y l : NoDup l → k ∈ l →
  (sum_list_with (λ j, f ((<[k := y]> g) j)) l + f (g k) = sum_list_with (λ j, f (g j)) l + f y)%nat.
Proof.
  induction 1 as [|x l Hx Hnd IH]; intros Hk; [by apply not_elem_of_nil in Hk|]. cbn.
  apply elem_of_cons in Hk as [->|Hk].
  - rewrite fn_lookup_insert. replace (sum_list_with (λ j, f ((<[x := y]> g) j)) l) with (sum_list_with (λ j, f (g j)) l); [lia|].
    clear - Hx. induction l as [|z l IH]; [done|]. apply not_elem_of_cons in Hx as [Hz Hx]. cbn. by rewrite fn_lookup_insert_ne, IH by done.
  - rewrite fn_lookup_insert_ne by (intros ->; done). specialize (IH Hk). lia.
Qed.

Lemma sum_below {A} (f : A → nat) (g h : nat → A) l : l ≠ [] → (∀ k, k ∈ l → (f (g k) < f (h k))%nat) →
  (sum_list_with (λ j, f (g j)) l < sum_list_with (λ j, f (h j)) l)%nat.
Proof.
  intros Hl. destruct l as [|x l]; [done|]. clear Hl. revert x. induction l as [|y l IH]; intros x H.
  - pose proof (H x ltac:(by left)). cbn. lia.
  - pose proof (H x ltac:(by left)). specialize (IH y ltac:(intros; apply H; by right)). cbn in *. lia.
Qed.

Lemma step_weight nd bx nd' bx' : vstep n pid0 P1 nd bx nd' bx' → (weight nd' bx' < weight nd bx)%nat.
Proof.
  pose proof (NoDup_seq 0 N) as Hnd. assert (Hin : ∀ k, (k < N)%nat → k ∈ seq 0 N) by (intros; apply elem_of_seq; lia).
  unfold weight. intros [k x v w Hk Hx Hs|k v r Hk Hr Hb|w Hm].
  - pose proof (sum_insert node_weight nd k (after n pid0 P1 (nd k) w) _ Hnd (Hin k Hk)) as H1.
    pose proof (sum_insert (sum_list_with msg_weight) bx x (bx x ++ [v]) _ Hnd (Hin x Hx)) as H2.
    rewrite sum_list_with_app in H2. cbn [sum_list_with] in H2. pose proof (send_weight _ x v w Hx Hs). lia.
  - pose proof (sum_insert node_weight nd k (after n pid0 P1 (nd k) v) _ Hnd (Hin k Hk)) as H1.
    pose proof (sum_insert (sum_list_with msg_weight) bx k r _ Hnd (Hin k Hk)) as H2.
    rewrite Hb in H2. cbn [sum_list_with] in H2. pose proof (recv_weight (nd k) v Hr). lia.
  - pose proof (sum_below node_weight (λ k, after n pid0 P1 (nd k) w) nd (seq 0 N)) as H.
    apply Nat.add_lt_mono_r, H; [destruct N eqn:E; [nia|done]|].
    intros k Hk. apply meet_weight, Hm. apply elem_of_seq in Hk. lia.
Qed.

(** ** Runs end *)

Lemma view_procs c a nd bx : rel op c a → view n pid0 a nd bx → length (c_procs c) = N.
Proof. intros R V. by rewrite <- (length_fmap erase), <- (re_locals _ _ _ R), (vw_locals _ _ _ _ _ V), length_map, length_seq. Qed.

Lemma bounded_from m : ∀ c a nd bx c', rel op c a → steps_of (astep op res) (start (grid n pid0)) a →
  view n pid0 a nd bx → inv n pid0 nd bx → nsteps (cstep op res) m c c' → (m <= S N * weight nd bx + awake_count c)%nat.
Proof.
  induction m as [|m IH]; intros c a nd bx c' R A V I H; [lia|]. inversion H as [|? ? c1 ? Hs H1]; subst.
  pose proof (reach_room n pid0 P1 beyond Hn Hp0 Hp1 a A) as Hroom.
  destruct (sim_step op res c c1 a R Hroom Hs) as (a1 & R1 & [A1|[-> Hw]]).
  - destruct (view_step n pid0 P1 beyond Hn Hp0 Hp1 a a1 nd bx V I A1) as (nd1 & bx1 & V1 & W1).
    pose proof (step_weight _ _ _ _ V1) as Hlt. pose proof (awake_bound c1) as Hb. rewrite (view_procs c1 a1 nd1 bx1 R1 W1) in Hb.
    assert (Hm : (m <= S N * weight nd1 bx1 + awake_count c1)%nat); [|nia].
    apply (IH c1 a1 nd1 bx1 c'); [done|by eapply SO_step|done| |done].
    by apply (inv_step n pid0 P1 Hn Hp0 Hp1 nd bx).
  - assert (Hm : (m <= S N * weight nd bx + awake_count c1)%nat) by (by eapply IH). lia.
Qed.

Lemma run_bounded m c : nsteps (cstep op res) m (boot (grid n pid0)) c → (m <= S N * weight (node_start n) (λ _, []) + N)%nat.
Proof.
  intros H. destruct (grid_ok n pid0 P1 beyond Hn Hp0 Hp1) as (G1 & G2 & G3).
  pose proof (view_start n pid0 P1 beyond Hn Hp0 Hp1) as V. pose proof (boot_rel op (grid n pid0) G1 G2 G3) as R.
  pose proof (bounded_from m _ _ _ _ c R ltac:(constructor) V (inv_start n pid0 P1 beyond Hn Hp0 Hp1) H).
  pose proof (awake_bound (boot (grid n pid0))) as Hb. rewrite (view_procs _ _ _ _ R V) in Hb. lia.
Qed.

Lemma no_deadlock_spec c : steps_of (cstep op res) (boot (grid n pid0)) c → (∀ c', ¬ cstep op res c c') →
  length (c_procs c) = N ∧
  ∀ k t, c_procs c !! k = Some t →
    me (c_local t) = k ∧ past_section (c_local t) ∧ entered (c_local t) = negb (Z.of_nat k <? P1).
Proof.
  pose proof (reach_room n pid0 P1 beyond Hn Hp0 Hp1) as Hroom.
  intros H Hstop. destruct (grid_ok n pid0 P1 beyond Hn Hp0 Hp1) as (G1 & G2 & G3).
  destruct (system_rel op res (grid n pid0) c G1 G2 G3 Hroom H) as (a & A & R).
  assert (Hend : Forall (λ pl, past_section pl.2) (locals a)).
  { apply (progress_spec n pid0 P1 beyond); [done..|]. intros a' S. destruct (kernel_progress op res c a a' R (Hroom a A) S) as (c' & C).
    by apply (Hstop c'). }
  split.
  - destruct (reach_inv n pid0 P1 beyond Hn Hp0 Hp1 a A) as (nd & bx & V & _). by eapply view_procs.
  - intros k t Hk. apply erase_lookup in Hk. rewrite <- (re_locals _ _ _ R) in Hk. destruct (marked_reach a A k _ _ Hk) as [Hme He].
    pose proof (Forall_lookup_1 _ _ _ _ Hend Hk) as Hp. cbn in Hp. split; [done|]. split; [done|].
    rewrite He. unfold answered. unfold past_section in Hp. by destruct (mpc_of (c_local t)).
Qed.

End End.

(** C27. Every process gets its turn. However the system calls of maekawa.c are
    interleaved on the message kernel, with 4, 9, 16 or 25 processes, the run
    ends: there is a bound on the number of calls. And in a state in which no
    process can make a call that returns or goes to sleep, every process has had
    all its replies and has sent all its releases, and those with a number from
    [P1] on, and only those, have been in their critical sections. So there is
    no deadlock: no process sleeps for ever before its section. What stops a
    process after it is that it has finished, that no message comes any more, or
    that its next send leaves the kernel's arrays. *)
Theorem maekawa_no_deadlock P P1 pid0 beyond :
  size_of P ≠ 0%nat → 0 < pid0 → pid0 + Z.of_nat (size_of P * size_of P) <= 64 →
  (∃ bound, ∀ m c, nsteps (cstep (mop pid0 beyond) (mresume (size_of P) pid0 P1)) m (boot (grid (size_of P) pid0)) c →
    (m <= bound)%nat) ∧
  (∀ c, steps_of (cstep (mop pid0 beyond) (mresume (size_of P) pid0 P1)) (boot (grid (size_of P) pid0)) c →
    (∀ c', ¬ cstep (mop pid0 beyond) (mresume (size_of P) pid0 P1) c c') →
    length (c_procs c) = (size_of P * size_of P)%nat ∧
    ∀ k t, c_procs c !! k = Some t →
      me (c_local t) = k ∧ past_section (c_local t) ∧ entered (c_local t) = negb (Z.of_nat k <? P1)).
Proof.
  intros HP H0 H1. pose proof (size_of_range P HP) as Hn. split.
  - eexists. intros m c. by apply run_bounded.
  - intros c. by apply no_deadlock_spec.
Qed.
