(* ===== verification/MaekawaExample.v ===== *)
(** * Maekawa's algorithm at work

    A scheduler for the message kernel, and runs of four processes on it: to the
    first critical section, and to the end. *)

From stdpp Require Import relations.
From S2P Require Import Prelude Memory Layout FsLayout Spinlock Ring Mailbox MailboxProps MsgSystem Maekawa MaekawaInv MaekawaSteps MaekawaProps MaekawaEnd.

Section Run.
Context {L : Type} (op : L → call) (resume : L → list Z → L).

(** The call of process [i], if it is awake and has one. *)
Definition cexec (c : csys (L := L)) (i : nat) : option (csys (L := L)) :=
  match c_procs c !! i with
  | Some (CProc p l Awake) =>
      match op l with
      | CSend to msg =>
          match sys_send p to msg (calm (c_kern c)) with
          | Ret _ k => Some (CSys k (c_bar c) (<[i := CProc p (resume l []) Awake]> (woken resume (k_woken k) <$> c_procs c)))
          | _ => None
          end
      | CRecv =>
          match sys_recv p (calm (c_kern c)) with
          | Ret (Received msg) k => Some (CSys k (c_bar c) (<[i := CProc p (resume l msg) Awake]> (c_procs c)))
          | Ret Waiting k => Some (CSys k (c_bar c) (<[i := CProc p l InRecv]> (c_procs c)))
          | _ => None
          end
      | CBarrier =>
          match sys_barrier p (calm_bar (c_bar c)) with
          | Ret Passed b => Some (CSys (c_kern c) b (<[i := CProc p (resume l []) Awake]> (woken resume (b_woken b) <$> c_procs c)))
          | Ret Asleep b => Some (CSys (c_kern c) b (<[i := CProc p l InBar]> (c_procs c)))
          | _ => None
          end
      | CStop => None
      end
  | _ => None
  end.

Lemma cexec_step c i c' : cexec c i = Some c' → cstep op resume c c'.
Proof.
  unfold cexec. intros H. destruct (c_procs c !! i) as [[p l []]|] eqn:Ei; try done. destruct (op l) as [to msg| | |] eqn:Eo; [..|done].
  - destruct (sys_send _ _ _ _) eqn:E; try done. injection H as <-. by eapply C_send.
  - destruct (sys_recv _ _) as [[msg|] k| | |] eqn:E; try done; injection H as <-; [by eapply C_received|by eapply C_waits].
  - destruct (sys_barrier _ _) as [[] b| | |] eqn:E; try done; injection H as <-; [by eapply C_passes|by eapply C_stops].
Qed.

(** Let the first process that can run make a call, [fuel] times. *)
Fixpoint first_some {A} (f : nat → option A) (l : list nat) : option A :=
  match l with
  | [] => None
  | i :: l => match f i with Some x => Some x | None => first_some f l end
  end.

Fixpoint crun (fuel : nat) (c : csys (L := L)) : csys :=
  match fuel with
  | O => c
  | S fuel => match first_some (cexec c) (seq 0 (length (c_procs c))) with Some c' => crun fuel c' | None => c end
  end.

Lemma first_some_in {A} (f : nat → option A) l x : first_some f l = Some x → ∃ i, f i = Some x.
Proof. induction l as [|i l IH]; cbn; [done|]. destruct (f i) eqn:E; [|done]. intros [= <-]. eauto. Qed.

Lemma crun_steps fuel c : steps_of (cstep op resume) c (crun fuel c).
Proof.
  revert c. induction fuel as [|fuel IH]; intros c; cbn; [constructor|]. destruct (first_some _ _) as [c'|] eqn:E; [|constructor].
  apply first_some_in in E as [i E]. eapply steps_of_trans; [|apply IH]. eapply SO_step; [constructor|by eapply cexec_step].
Qed.

(** When no process can run, nothing can happen. *)
Lemma cstep_cexec c c' : cstep op resume c c' → ∃ i, (i < length (c_procs c))%nat ∧ cexec c i = Some c'.
Proof.
  intros [i p l to msg r k Hi Hop E|i p l msg k Hi Hop E|i p l k Hi Hop E|i p l b Hi Hop E|i p l b Hi Hop E];
    (exists i; split; [by eapply lookup_lt_Some|]); unfold cexec; by rewrite Hi, Hop, E.
Qed.

Lemma first_some_none {A} (f : nat → option A) l i : first_some f l = None → i ∈ l → f i = None.
Proof.
  induction l as [|j l IH]; cbn; intros H Hi; [by apply not_elem_of_nil in Hi|]. destruct (f j) eqn:E; [done|].
  apply elem_of_cons in Hi as [->|Hi]; [done|by apply IH].
Qed.

Lemma crun_stuck c c' : first_some (cexec c) (seq 0 (length (c_procs c))) = None → ¬ cstep op resume c c'.
Proof.
  intros H (i & Hi & E)%cstep_cexec. rewrite (first_some_none _ _ i H) in E; [done|]. apply elem_of_seq. lia.
Qed.

End Run.

(** ** Four processes *)

Definition beyond4 (nd : node) : list Z := [0; 0; 0; 0].
Abbreviation op4 := (mop 3 beyond4).
Abbreviation res4 := (mresume 2 3 0).

Lemma four_grid : grid 2 3 ≠ [] ∧ NoDup (grid 2 3).*1 ∧ Forall (λ pl, 0 < pl.1 < 64) (grid 2 3).
Proof. apply (grid_ok 2 3 0 beyond4); lia. Qed.

Lemma four_room a : steps_of (astep op4 res4) (start (grid 2 3)) a → room op4 a.
Proof. apply reach_room; lia. Qed.

(** The four processes on the kernel, after a number of calls. *)
Definition after_calls (fuel : nat) : csys := crun op4 res4 fuel (boot (grid 2 3)).

Definition proc_at (c : csys) (i : nat) : cproc (L := node) := default (CProc 0 (node_start 2 0) Awake) (c_procs c !! i).

Lemma procs_55 : map (λ t, (me (c_local t), mpc_of (c_local t))) (c_procs (after_calls 55)) =
  [(0%nat, Leave [0; 1; 2]%nat); (1%nat, Wait); (2%nat, Wait); (3%nat, Wait)].
Proof. by vm_compute. Qed.

Lemma proc_lookup c i : (i < length (c_procs c))%nat → c_procs c !! i = Some (proc_at c i).
Proof. intros H. unfold proc_at. by destruct (lookup_lt_is_Some_2 _ _ H) as [x ->]. Qed.

Lemma four_procs : length (c_procs (after_calls 55)) = 4%nat.
Proof. rewrite <- (length_map (λ t, (me (c_local t), mpc_of (c_local t)))), procs_55. done. Qed.

Lemma section_at c i k l rest : drop i (map (λ t, (me (c_local t), mpc_of (c_local t))) (c_procs c)) = (k, Leave l) :: rest →
  quorum 2 k = l → in_section 2 (c_local (proc_at c i)).
Proof.
  intros E Hq. apply (f_equal (λ l, l !! 0%nat)) in E. cbn beta in E. rewrite lookup_drop, list_lookup_fmap, Nat.add_0_r in E.
  unfold proc_at, in_section. destruct (c_procs c !! i) as [t|]; [|done]. cbn in E. injection E as E1 E2. cbn [from_option id]. by rewrite E1, E2, Hq.
Qed.

Lemma first_in_section : in_section 2 (c_local (proc_at (after_calls 55) 0)).
Proof. eapply section_at; [rewrite procs_55; reflexivity|by vm_compute]. Qed.

Lemma maekawa_mutual_exclusion_witness :
  in_section 2 (c_local (proc_at (after_calls 55) 0)) ∧ ~ in_section 2 (c_local (proc_at (after_calls 55) 1)).
Proof.
  split; [exact first_in_section|]. intros S.
  apply (maekawa_mutual_exclusion 4 0 3 beyond4 (after_calls 55) 0 1 (proc_at (after_calls 55) 0) (proc_at (after_calls 55) 1)).
  - discriminate.
  - reflexivity.
  - discriminate.
  - apply crun_steps.
  - apply proc_lookup. rewrite four_procs. lia.
  - apply proc_lookup. rewrite four_procs. lia.
  - discriminate.
  - split; [exact first_in_section|exact S].
Defined.

(** Run to the end, with a first process that has no critical section. *)
Definition last_state : csys (L := node) := crun op4 (mresume 2 3 1) 200 (boot (grid 2 3)).

Lemma last_state_stuck :
  first_some (cexec op4 (mresume 2 3 1) last_state) (seq 0 (length (c_procs last_state))) = None ∧ length (c_procs last_state) = 4%nat.
Proof. by vm_compute. Qed.

Lemma maekawa_no_deadlock_witness :
  (∃ bound, ∀ m c, nsteps (cstep op4 (mresume 2 3 1)) m (boot (grid 2 3)) c → (m <= bound)%nat) ∧
  entered (c_local (proc_at last_state 0)) = false ∧ past_section (c_local (proc_at last_state 3)) ∧
  entered (c_local (proc_at last_state 3)) = true.
Proof.
  destruct (maekawa_no_deadlock 4 1 3 beyond4) as [B H].
  - discriminate.
  - reflexivity.
  - discriminate.
  - split; [exact B|]. destruct (H last_state) as [_ Hend].
    + apply crun_steps.
    + intros c'. apply crun_stuck. exact (proj1 last_state_stuck).
    + assert (Hp : ∀ k, (k < 4)%nat → c_procs last_state !! k = Some (proc_at last_state k)).
      { intros k Hk. apply proc_lookup. by rewrite (proj2 last_state_stuck). }
      destruct (Hend 0%nat _ (Hp 0%nat ltac:(lia))) as (_ & _ & E0). destruct (Hend 3%nat _ (Hp 3%nat ltac:(lia))) as (_ & P3 & E3).
      split; [exact E0|]. split; [exact P3|exact E3].
Defined.

(** The kernel's own theorem at the state above. *)
Lemma message_kernel_refines_witness : ∃ a : asys (L := node),
  steps_of (astep op4 res4) (start (grid 2 3)) a ∧ locals a = erase <$> c_procs (after_calls 55).
Proof.
  destruct (message_kernel_refines op4 res4 (grid 2 3) (after_calls 55)) as (a & A & E & _).
  - apply four_grid.
  - apply four_grid.
  - apply four_grid.
  - exact four_room.
  - apply crun_steps.
  - exists a. split; [exact A|exact E].
Defined.

(** Each arbiter answers its last release with a message to the id -1, for which
    the kernel uses its arrays out of their bounds. *)
Theorem last_reply_leaves_arrays :
  map (λ t, op4 (c_local t)) (c_procs (after_calls 120)) = replicate 4 (CSend (-1) (message beyond4 (-1) (node_start 2 0))) ∧
  ∀ p, sys_send p (-1) (message beyond4 (-1) (node_start 2 0)) (calm (c_kern (after_calls 120))) = Fault "pid".
Proof.
  split; [by vm_compute|]. intros p. apply send_bad; [|by apply (bool_decide_unpack _); vm_compute|lia].
  apply calm_wf. destruct (system_rel op4 res4 (grid 2 3) (after_calls 120)) as (a & _ & R).
  1-3: apply four_grid.
  - exact four_room.
  - apply crun_steps.
  - apply R.
Qed.
